(* ===== verification/_CoqProject ===== *)
-Q . S2P
Prelude.v
Memory.v
Wp.v
Arith.v
CString.v
Random.v
HeapSort.v
Printf.v
Ustar.v
Intq.v
Serial.v
SerialLaws.v
Kbd.v
Vga.v
Console.v
KList.v
KListLaws.v
KListSort.v
KHash.v
KHashLaws.v
Bitmap.v
Block.v
Partition.v
Ide.v
IdeLaws.v
CommandLine.v
BufferCache.v
InodeLayout.v
InodeGrow.v
InodeData.v
InodeFree.v
Inode.v
FsLaws.v
FsFiles.v
Directory.v
DirFiles.v
Filesys.v
FsUtil.v
FsUtilLaws.v
Descriptors.v
Thread.v
Interrupts.v
Timer.v
Rtc.v
Sched.v
SchedOps.v
SchedSafe.v
SchedLive.v
Pages.v
PageLaws.v
Boot.v
Malloc.v
MallocLaws.v
ArgStack.v
Loader.v
LoaderLaws.v
LoaderFiles.v
Process.v
ProcessLaws.v
UserMem.v
Syscall.v
SyscallLaws.v
