(* ===== verification/Prelude.v ===== *)
(** * Pintos kernel: verification development

    The program is an i386 teaching kernel: threads and synchronisation
    (src/threads), virtual memory tables (src/threads, src/userprog), device
    drivers (src/devices), a buffer cache and a file system with indexed,
    growing inodes and directories (src/filesys), user processes and their
    system calls (src/userprog), and a C library (src/lib).  This library
    translates its core into Rocq functions and proves what makes each part
    correct.  This first file also holds the shared vocabulary.

    ** Conventions

    - Fallible code returns [outcome]: [Ok], a failed ASSERT, a PANIC or a
      divide error ([Err Panic]), an access outside an object or other
      undefined behaviour ([Err Fault]), or an exhausted loop bound
      ([Err Fuel]).  Stateful code is in the monad [st S].
    - [unsigned], [size_t] and [uint8_t] values are integers with their
      wrap-around written out ([u32], [u64], [u8], and [s32], [s64] for
      signed values kept at their width).
    - Allocation failure, drivers, comparison functions and everything else
      from outside the modelled files are parameters, with what the code
      relies on stated as classes or hypotheses; each such theorem has a
      witness on concrete functions.
    - A claim is a theorem whose comment starts with its number; its
      witness, a lemma with the suffix [_witness], applies it to concrete
      data.

    ** Components

    - Support: [Prelude] (outcomes, counted loops, machine integers,
      little-endian bytes, list windows and exchanges), [Memory] (byte
      memory), [Wp] (weakest preconditions of [st], for the pointer code).
    - C library: [Arith] (lib/arithmetic.c, 64-bit division from 32-bit
      DIVL), [CString] (lib/string.c over byte memory), [Random]
      (lib/random.c), [HeapSort] (lib/stdlib.c), [Printf] (lib/stdio.c:
      __vprintf, vsnprintf, snprintf), [Ustar] (lib/ustar.c), [KList],
      [KListLaws], [KListSort] (lib/kernel/list.c on a heap of linked
      elements), [KHash], [KHashLaws] (lib/kernel/hash.c over those lists),
      [Bitmap] (lib/kernel/bitmap.c).
    - Storage: [Block] (devices/block.c over an abstract driver), [Ide],
      [IdeLaws] (devices/ide.c, an instance of that driver on controllers
      that follow the ATA protocol), [Partition] (devices/partition.c),
      [BufferCache] (filesys/buffer-cache.c).
    - Input and output: [Intq] (devices/intq.c, the queue between interrupt
      handlers and threads), [Serial], [SerialLaws] (devices/serial.c and
      input.c over those queues), [Kbd] (devices/kbd.c), [Vga]
      (devices/vga.c), [Console] (lib/kernel/console.c over the serial port,
      the display and printf).
    - Clocks: [Timer] (devices/timer.c, pit.c), [Rtc] (devices/rtc.c).
    - Interrupts and start-up: [Descriptors] (userprog/gdt.c and the gates of
      threads/interrupt.c), [Interrupts] (threads/interrupt.c,
      userprog/exception.c: registration and dispatch on the scheduler of
      [Thread]), [Boot] (threads/init.c: paging_init; userprog/tss.c),
      [CommandLine] (threads/init.c: the command line, its options and
      actions, the roles of the block devices).
    - Files: [InodeLayout] (on-disk inode and the index walk of
      byte_to_sector), [InodeGrow] (growth), [InodeData] (the read and write
      loops), [InodeFree] (release), [Inode] (the open inode table, the free
      map and struct file: filesys/inode.c, free-map.c, file.c), [FsLaws] and
      [FsFiles] (their theorems over the whole stack).  The inode files are
      written against an environment class of sector reads, writes and
      allocation; [Inode] instantiates it with the buffer cache and the free
      map.
    - Names: [Directory] (filesys/directory.c), [DirFiles] (its theorems),
      [Filesys] (filesys/filesys.c: paths, create, open, remove, chdir),
      [FsUtil], [FsUtilLaws] (filesys/fsutil.c: the actions that list, print,
      remove, archive and extract files).
    - Threads: [Thread] (threads/thread.c, synch.c and the level handling of
      interrupt.c), [Sched] (the invariant and the step relation), [SchedOps]
      (each operation keeps it), [SchedSafe], [SchedLive] (the theorems).
    - Memory: [Pages] (threads/vaddr.h, pte.h, palloc.c, userprog/pagedir.c),
      [PageLaws] (its theorems), [Malloc], [MallocLaws] (threads/malloc.c
      over the page allocator).
    - Processes: [ArgStack] (userprog/process.c: the argument stack that load
      builds from the command line), [Loader], [LoaderLaws] (the ELF headers
      and segments, against the class [ExecFile] of an executable file),
      [LoaderFiles] (files of the file system are instances of it),
      [Process], [ProcessLaws] (userprog/process.c and the records of
      threads/thread.c: parents, children, wait and exit).
    - System calls: [UserMem] (user memory through the page tables and the
      pointer checks), [Syscall], [SyscallLaws] (userprog/syscall.c over the
      file system, the user memory and the descriptors of the process).

    ** What the theorems show

    - A write through the buffer cache and the inode index is read back, at
      any offset and across a growth of the file, and leaves other files
      alone ([inode_write_read], [inode_write_isolated],
      [inode_grow_extends], [byte_to_sector_follows_index]); released
      sectors return to the free map, allocations reach its file
      ([removed_file_sectors_freed], [free_map_allocate_stored]); the cache
      is a write-back view of the device ([cache_refines_array]); in a
      complete session, whatever bytes are written are read after a shutdown
      and a new boot ([data_survives_reboot]).
    - A directory implements a finite map from names to sectors
      ([dir_add_refines_map], [lookup_refines_map]); the file system calls
      compose them ([create_and_remove]).
    - Every sequence of scheduler steps from an initial state keeps the
      scheduler invariant, no operation fails an assertion or follows a bad
      pointer ([scheduler_never_fails]), a thread is on at most one queue
      ([one_queue_per_thread]), a held lock excludes ([held_lock_excludes])
      and the thread at position p of the ready queue gets the CPU within
      TIME_SLICE * (p + 1) timer interrupts ([ready_thread_runs]).
    - Mapping a page gives exactly that translation and leaves the others
      ([pagedir_set_page_maps]); a page handed out was free and is not
      handed out again ([palloc_get_page_fresh]).
    - A new process finds its command line on its stack in the layout of the
      C calling convention ([load_passes_arguments]).
    - The loader gets through every file, valid or not, without a fault,
      and what it accepts is in user memory ([load_image_safe]).
    - malloc returns blocks that overlap no other and keeps their contents,
      free takes them back and returns unused pages ([malloc_fresh_block],
      [free_returns_block]).
    - A system call leaves the lock and the descriptors in order whatever its
      arguments ([syscall_keeps_lock_and_fds]); what a process writes it
      reads back ([write_seek_read]); the pointer checks do what they are
      for, case by case ([is_valid_filename_cases]).
    - Whatever the threads do, a waiting parent gets the status of its child
      ([wait_gets_exit_status]) and a child with a live parent finds its
      record ([child_finds_its_record]).
    - The ATA driver implements the array of sectors that the block layer and
      the file system are proved against ([ide_implements_drive]).
    - What is printed reaches the serial line and the display completely and
      in order, through the transmit queue and its interrupts, nested locks
      and scrolling ([serial_output_in_order], [vga_shows_tape],
      [console_prints]); what is typed reaches the input buffer
      ([typed_text_received]).
    - Interrupts reach their handlers: a timer interrupt is the tick of the
      scheduler ([timer_interrupt_is_tick]), a user program can raise only
      the gates meant for it ([user_gates]).  paging_init maps all memory
      and nothing else ([paging_init_maps_ram]); a command line is obeyed
      ([command_line_obeyed]).
    - Sleeps and the calibration of delays are accurate within stated bounds
      ([real_time_sleep_accuracy], [timer_calibrate_accuracy]).
    - The input queue is first-in first-out in every interleaving and its
      monitor is safe for one thread ([intq_is_fifo],
      [intq_one_thread_safe]); a disk's primary partitions become devices
      inside the disk ([primary_partitions_registered]).
    - The library routines meet their reference definitions: division,
      merge sort, heap sort with binary search, bit arrays, strings, hash
      tables as sets ([hash_table_refines_set]), the random generator's
      state; formatted integers fit their buffer and read back
      ([format_integer_fits], [printf_atoi_roundtrip]), archive headers
      parse back ([ustar_roundtrip]); an archive carries files to another
      machine ([archive_roundtrip]).
    - Behaviour that departs from the intent of the code, on concrete
      states: [level_two_growth_loses_data],
      [full_disk_write_overwrites_sector_zero], [raw_write_lost],
      [chdir_to_file_panics], [path_through_file],
      [leading_space_frees_other_pointer], [long_command_faults],
      [extended_partition_never_returns], [intq_second_thread_panics],
      [process_brings_kernel_down], [wait_after_exit_fails],
      [orphan_and_exec_fault], [malloc_sizes_wrap], [lone_percent_overreads],
      [close_directory_denies_writes], [rtc_get_time_ahead],
      [spoilt_marker].

    ** Bounds and fuel

    - Loops over a known count are [for_range]; loops to a string terminator
      have the number of mapped bytes as fuel; list loops take a fuel that
      the theorems require to be at least the length (plus one where the
      loop also visits the tail); [heapify] and the binary search have the
      number of elements plus one; the format loop of printf has the length
      of the string, malloc_init 32 doublings (it makes 7), the name check of
      a system call the 16 steps after which its length test stops it.  A
      polling loop of the ATA driver has the iterations the code gives it
      (1000 or 3000, 30 seconds), and a wait for an interrupt 3000 ticks of
      the controller; a sleep has the iterations of the ticks it is asked
      for, calibration 32 doublings, the clock chip 2 passes, the serial
      loops the 63 bytes of the transmit queue, the keyboard the bytes the
      controller has, the actions the words of the command line.  The
      theorems prove [Ok] results, so the fuel is enough wherever they apply;
      the one loop that does not end, the scan of an extended partition, is
      shown to exhaust every fuel.
    - Interrupts are taken between operations: the code modelled in
      [Thread] runs with interrupts disabled, and a timer interrupt or a
      preemption is a step of its own.
    - In [Process] a thread is named by its tid and its page, once freed,
      reads as the 0xcc bytes palloc_free_page leaves.  In [UserMem] the MMU
      walks the page tables of [Pages] without setting the accessed and
      dirty bits.  In [Malloc] a free list is the sequence of its blocks.
    - Hardware is a parameter: the port instructions are classes ([AtaPorts],
      [UartPorts], [CmosPorts]) and what the standards say of the devices is
      in their laws, with a concrete device as the witness.  In [Timer] the
      speed of the machine and the turns of other threads are parameters.  In
      [Console] a call that finds the lock with another thread waits, which
      is [Err Fuel].  In [Interrupts] a handler is a name.

    ** Not modelled

    - Assembly: the loader, the context switch (a change of the running
      thread in [Thread]), the interrupt stubs and the jump to user mode at
      the end of start_process.
    - Code that only formats messages or statistics: hex_dump,
      print_human_readable_size, the help text, backtraces (a failed ASSERT
      or PANIC is the outcome [Panic]), thread_print_stats and its like.
    - bss_init and the order of the calls of main; sema_self_test; the
      speaker and powering off (devices/speaker.c, shutdown.c), which write
      to ports and keep no state.
    - The user library's trap stubs, and the test and example programs and
      host utilities, which are not part of the kernel. *)

From Stdlib Require Export ZArith Lia Zquot.
From stdpp Require Export base tactics list gmap numbers.

#[global] Open Scope Z_scope.

(** ** Outcomes

    [Panic] is a failed ASSERT or an explicit PANIC; [Fault] is an access
    outside an object (undefined behaviour in C); [Fuel] is the only
    outcome that stands for the bound of a fuelled loop. *)
Inductive failure := Panic | Fault | Fuel.

Inductive outcome (A : Type) : Type :=
| Ok (a : A)
| Err (f : failure).
Arguments Ok {A} a.
Arguments Err {A} f.

#[global] Instance failure_eq_dec : EqDecision failure.
Proof. solve_decision. Defined.

#[global] Instance outcome_eq_dec {A} `{EqDecision A} : EqDecision (outcome A).
Proof. solve_decision. Defined.

#[global] Instance outcome_ret : MRet outcome := fun A a => Ok a.
#[global] Instance outcome_bind : MBind outcome := fun A B f m =>
  match m with Ok a => f a | Err e => Err e end.

(** A computation over a state. *)
Definition st (S A : Type) : Type := S -> outcome (A * S).

#[global] Instance st_ret S : MRet (st S) := fun A a s => Ok (a, s).
#[global] Instance st_bind S : MBind (st S) := fun A B f m s =>
  match m s with Ok (a, s') => f a s' | Err e => Err e end.

(** ASSERT of lib/debug.h. *)
Definition kassert (b : bool) : outcome unit := if b then Ok tt else Err Panic.
Definition kassert_st {S} (b : bool) : st S unit :=
  fun s => if b then Ok (tt, s) else Err Panic.
Definition lift {S A} (m : outcome A) : st S A :=
  fun s => match m with Ok a => Ok (a, s) | Err e => Err e end.
Definition gets {S A} (f : S -> A) : st S A := fun s => Ok (f s, s).
Definition modify {S} (f : S -> S) : st S unit := fun s => Ok (tt, f s).

Lemma obind_Ok {A B} (m : outcome A) (k : A -> outcome B) b :
  (m ≫= k) = Ok b <-> exists a, m = Ok a /\ k a = Ok b.
Proof. destruct m; simpl; naive_solver. Qed.

Lemma st_bind_Ok {S A B} (m : st S A) (k : A -> st S B) s b s2 :
  (m ≫= k) s = Ok (b, s2) <-> exists a s1, m s = Ok (a, s1) /\ k a s1 = Ok (b, s2).
Proof. unfold mbind, st_bind. destruct (m s) as [[a s1]|e]; naive_solver. Qed.

Lemma st_bind_assoc {S A B C} (f : st S A) (g : A -> st S B) (h : B -> st S C) (s : S) :
  ((f ≫= g) ≫= h) s = (f ≫= (fun a => g a ≫= h)) s.
Proof. unfold mbind, st_bind. by destruct (f s) as [[a s']|]. Qed.

Lemma kassert_true b : b = true -> kassert b = Ok tt.
Proof. by intros ->. Qed.

Lemma kassert_Ok b u : kassert b = Ok u <-> b = true.
Proof. destruct b, u; simpl; naive_solver. Qed.

(** ** Counted loops

    [for_range n i body] is
    [for (k = i; k < i + n; k++) body(k)] threading a state;
    [find_range n i p] is the same loop with an early exit at the first
    [k] for which [p k] holds. *)
Fixpoint for_range {S} (n : nat) (i : Z) (body : Z -> S -> outcome S) (s : S)
  : outcome S :=
  match n with
  | O => Ok s
  | S n' => s' ← body i s; for_range n' (i + 1) body s'
  end.

Fixpoint find_range (n : nat) (i : Z) (p : Z -> outcome bool)
  : outcome (option Z) :=
  match n with
  | O => Ok None
  | S n' => b ← p i; if b : bool then Ok (Some i) else find_range n' (i + 1) p
  end.

(** The invariant rule of [for_range]. *)
Lemma for_range_inv {S} (I : Z -> S -> Prop) n i body (s : S) :
  I i s ->
  (forall k s, i <= k < i + Z.of_nat n -> I k s ->
     exists s', body k s = Ok s' /\ I (k + 1) s') ->
  exists s', for_range n i body s = Ok s' /\ I (i + Z.of_nat n) s'.
Proof.
  revert i s; induction n as [|n IH]; intros i s Hs Hstep; cbn [for_range].
  - exists s. split; [done|]. by replace (i + Z.of_nat 0) with i by lia.
  - destruct (Hstep i s) as (s1 & Hb & H1); [lia|done|].
    rewrite Hb; simpl.
    destruct (IH (i + 1) s1) as (s2 & Hr & H2); [done| |].
    + intros k s' Hk. apply Hstep. lia.
    + exists s2. split; [done|].
      by replace (i + Z.of_nat (Datatypes.S n)) with (i + 1 + Z.of_nat n) by lia.
Qed.

(** A partial-correctness form: an invariant of every iteration that
    returns holds of the result. *)
Lemma for_range_Ok {S} (I : Z -> S -> Prop) n i body (s s2 : S) :
  I i s ->
  (forall k s s', i <= k < i + Z.of_nat n -> I k s -> body k s = Ok s' -> I (k + 1) s') ->
  for_range n i body s = Ok s2 -> I (i + Z.of_nat n) s2.
Proof.
  revert i s; induction n as [|n IH]; intros i s Hs Hstep; cbn [for_range].
  - intros [= <-]. by replace (i + Z.of_nat 0) with i by lia.
  - rewrite obind_Ok. intros (s1 & Hb & Hr).
    replace (i + Z.of_nat (Datatypes.S n)) with (i + 1 + Z.of_nat n) by lia.
    eapply IH; [| |exact Hr].
    + eapply Hstep; [lia|done|done].
    + intros k s' s'' Hk. apply Hstep. lia.
Qed.

(** [find_range] returns the least index that satisfies the test. *)
Lemma find_range_spec (P : Z -> Prop) n i p :
  (forall k, i <= k < i + Z.of_nat n -> exists b, p k = Ok b /\ (b = true <-> P k)) ->
  (exists j, find_range n i p = Ok (Some j) /\ i <= j < i + Z.of_nat n /\ P j /\
     forall k, i <= k < j -> ~ P k) \/
  (find_range n i p = Ok None /\ forall k, i <= k < i + Z.of_nat n -> ~ P k).
Proof.
  revert i; induction n as [|n IH]; intros i Hp; cbn [find_range].
  - right. split; [done|]. intros k Hk. lia.
  - destruct (Hp i) as ([] & -> & Hb); [lia| |]; simpl.
    + left. exists i. split_and!; [done|lia|lia|by apply Hb|]. intros k Hk; lia.
    + destruct (IH (i + 1)) as [(j & -> & Hj & HPj & Hk)|[-> Hk]].
      * intros k Hk. apply Hp. lia.
      * left. exists j. split_and!; [done|lia|lia|done|].
        intros k Hk'. destruct (decide (k = i)) as [->|]; [|apply Hk; lia].
        intros HPi. by apply Hb in HPi.
      * right. split; [done|]. intros k Hk'.
        destruct (decide (k = i)) as [->|]; [|apply Hk; lia].
        intros HPi. by apply Hb in HPi.
Qed.

(** ** Machine-width integers *)
Definition u8 (x : Z) : Z := x mod 2 ^ 8.
Definition u32 (x : Z) : Z := x mod 2 ^ 32.
Definition u64 (x : Z) : Z := x mod 2 ^ 64.
(** Two's complement reinterpretation of a 32-bit pattern. *)
Definition s32 (x : Z) : Z := let y := x mod 2 ^ 32 in if y <? 2 ^ 31 then y else y - 2 ^ 32.
Definition s64 (x : Z) : Z := let y := x mod 2 ^ 64 in if y <? 2 ^ 63 then y else y - 2 ^ 64.

Lemma u32_small x : 0 <= x < 2 ^ 32 -> u32 x = x.
Proof. intros. by apply Z.mod_small. Qed.
Lemma u32_range x : 0 <= u32 x < 2 ^ 32.
Proof. by apply Z.mod_pos_bound. Qed.
Lemma u64_small x : 0 <= x < 2 ^ 64 -> u64 x = x.
Proof. intros. by apply Z.mod_small. Qed.
Lemma u64_range x : 0 <= u64 x < 2 ^ 64.
Proof. by apply Z.mod_pos_bound. Qed.
Lemma u8_small x : 0 <= x < 2 ^ 8 -> u8 x = x.
Proof. intros. by apply Z.mod_small. Qed.
Lemma u8_range x : 0 <= u8 x < 2 ^ 8.
Proof. by apply Z.mod_pos_bound. Qed.
Lemma s32_small x : - 2 ^ 31 <= x < 2 ^ 31 -> s32 x = x.
Proof.
  intros Hx. unfold s32. destruct (decide (0 <= x)).
  - rewrite Z.mod_small by lia. case_match; lia.
  - rewrite <- (Z_mod_plus_full x 1), Z.mod_small by lia. case_match; lia.
Qed.
Lemma s32_range x : - 2 ^ 31 <= s32 x < 2 ^ 31.
Proof.
  unfold s32. pose proof (Z.mod_pos_bound x (2 ^ 32)). case_match; lia.
Qed.
Lemma s64_small x : - 2 ^ 63 <= x < 2 ^ 63 -> s64 x = x.
Proof.
  intros Hx. unfold s64. destruct (decide (0 <= x)).
  - rewrite Z.mod_small by lia. case_match; lia.
  - rewrite <- (Z_mod_plus_full x 1), Z.mod_small by lia. case_match; lia.
Qed.

(** A disjunction of disjoint bit ranges is a sum. *)
Lemma lor_add a b k : 0 <= k -> 0 <= a < 2 ^ k -> b mod 2 ^ k = 0 -> Z.lor a b = a + b.
Proof.
  intros Hk Ha Hb. rewrite <- Z.add_lor_land. assert (Z.land a b = 0) as ->; [|lia]. apply Z.bits_inj'. intros i Hi. rewrite Z.land_spec, Z.bits_0. destruct (Z_lt_le_dec i k) as [Hlt|Hge].
  - assert (Z.testbit b i = false) as ->; [|apply andb_false_r]. rewrite <- (Z.mod_pow2_bits_low b k i), Hb by lia. apply Z.bits_0.
  - assert (Z.testbit a i = false) as ->; [|done]. rewrite <- (Z.mod_small a (2 ^ k)) by done. apply Z.mod_pow2_bits_high. lia.
Qed.
Lemma lor_add_high a b k : 0 <= k -> a mod 2 ^ k = 0 -> 0 <= b < 2 ^ k -> Z.lor a b = a + b.
Proof. intros Hk Ha Hb. rewrite Z.lor_comm, Z.add_comm. by apply (lor_add b a k). Qed.

(** A test of one bit. *)
Lemma land_bit v m k : 0 <= k -> m = 2 ^ k -> (Z.land v m =? 0) = negb (Z.testbit v k).
Proof.
  intros Hk ->. destruct (Z.testbit v k) eqn:E; simpl; [apply Z.eqb_neq|apply Z.eqb_eq].
  - intros E0. apply (f_equal (fun x => Z.testbit x k)) in E0. rewrite Z.land_spec, Z.pow2_bits_true, E, Z.bits_0 in E0 by done. done.
  - apply Z.bits_inj'. intros i Hi. rewrite Z.land_spec, Z.bits_0, Z.pow2_bits_eqb by done. destruct (Z.eqb_spec k i) as [<-|]; [by rewrite E|by rewrite andb_false_r].
Qed.

(** lib/round.h: the macros on size_t operands. *)
Definition DIV_ROUND_UP (x step : Z) : Z := u32 (x + step - 1) / step.
Definition ROUND_UP (x step : Z) : Z := u32 (u32 (x + step - 1) / step * step).

Lemma DIV_ROUND_UP_bounds x step :
  0 <= x -> 1 <= step -> x + step - 1 < 2 ^ 32 ->
  step * (DIV_ROUND_UP x step - 1) < x <= step * DIV_ROUND_UP x step /\
  0 <= DIV_ROUND_UP x step.
Proof.
  intros Hx Hs Hb. unfold DIV_ROUND_UP. rewrite u32_small by lia.
  pose proof (Z.div_mod (x + step - 1) step ltac:(lia)).
  pose proof (Z.mod_pos_bound (x + step - 1) step ltac:(lia)).
  assert (0 <= (x + step - 1) / step) by (apply Z.div_pos; lia). nia.
Qed.

(** ** Arrays: bounds-checked access *)
Definition zget {A} (l : list A) (i : Z) : outcome A :=
  if bool_decide (0 <= i) then
    match l !! Z.to_nat i with Some x => Ok x | None => Err Fault end
  else Err Fault.

Definition zset {A} (l : list A) (i : Z) (x : A) : outcome (list A) :=
  if bool_decide (0 <= i < Z.of_nat (length l))
  then Ok (<[Z.to_nat i := x]> l) else Err Fault.

(** Total read, for specifications. *)
Definition znth {A} (d : A) (l : list A) (i : Z) : A := nth (Z.to_nat i) l d.

Lemma zget_Ok {A} (l : list A) i x :
  zget l i = Ok x <-> 0 <= i /\ l !! Z.to_nat i = Some x.
Proof. unfold zget. case_bool_decide; [|split; [done|lia]]. case_match; naive_solver. Qed.

Lemma zget_znth {A} (d : A) l i :
  0 <= i < Z.of_nat (length l) -> zget l i = Ok (znth d l i).
Proof.
  intros Hi. apply zget_Ok. split; [lia|]. unfold znth.
  rewrite nth_lookup. destruct (lookup_lt_is_Some_2 l (Z.to_nat i)) as [x Hx]; [lia|].
  by rewrite Hx.
Qed.

Lemma zset_Ok {A} (l : list A) i x :
  0 <= i < Z.of_nat (length l) -> zset l i x = Ok (<[Z.to_nat i := x]> l).
Proof. intros. unfold zset. by rewrite bool_decide_eq_true_2. Qed.

Lemma zset_inv {A} (l l' : list A) i x :
  zset l i x = Ok l' -> 0 <= i < Z.of_nat (length l) /\ l' = <[Z.to_nat i := x]> l.
Proof. unfold zset. case_bool_decide; naive_solver. Qed.

Lemma znth_insert {A} (d : A) l i j x :
  0 <= i < Z.of_nat (length l) -> 0 <= j ->
  znth d (<[Z.to_nat i := x]> l) j = if decide (i = j) then x else znth d l j.
Proof.
  intros Hi Hj. unfold znth. rewrite !nth_lookup. case_decide as E.
  - subst j. by rewrite list_lookup_insert_eq by lia.
  - by rewrite list_lookup_insert_ne by lia.
Qed.

Lemma znth_lookup {A} (d : A) l i :
  0 <= i < Z.of_nat (length l) -> l !! Z.to_nat i = Some (znth d l i).
Proof. intros. by apply zget_Ok, zget_znth. Qed.

(** ** Exchanging two elements *)
Definition swap_at {A} (l : list A) (i j : nat) : list A :=
  match l !! i, l !! j with
  | Some a, Some b => <[j := a]> (<[i := b]> l)
  | _, _ => l
  end.

Lemma length_swap_at {A} (l : list A) i j : length (swap_at l i j) = length l.
Proof. unfold swap_at. repeat case_match; by rewrite ?length_insert. Qed.

Lemma lookup_swap_at {A} (l : list A) i j k :
  (i < length l)%nat -> (j < length l)%nat ->
  swap_at l i j !! k = l !! (if decide (k = j) then i else if decide (k = i) then j else k).
Proof.
  intros Hi Hj. unfold swap_at.
  destruct (lookup_lt_is_Some_2 l i Hi) as [a Ha], (lookup_lt_is_Some_2 l j Hj) as [b Hb].
  rewrite Ha, Hb. rewrite !list_lookup_insert, !length_insert.
  repeat case_decide; naive_solver lia.
Qed.

Lemma swap_at_Permutation {A} (l : list A) i j :
  (i < length l)%nat -> (j < length l)%nat -> swap_at l i j ≡ₚ l.
Proof.
  intros Hi Hj. apply Permutation_inj. split; [apply length_swap_at|].
  exists (fun k => if decide (k = j) then i else if decide (k = i) then j else k).
  split; [|by intros k; apply lookup_swap_at].
  intros x y. repeat case_decide; lia.
Qed.

(** ** Overwriting a window of a buffer

    [splice l i new] is [memcpy (l + i, new, length new)]; the window must
    lie inside [l]. *)
Definition splice {A} (l : list A) (i : nat) (new : list A) : list A :=
  take i l ++ new ++ drop (i + length new) l.

Lemma length_splice {A} (l new : list A) i :
  (i + length new <= length l)%nat -> length (splice l i new) = length l.
Proof. intros. unfold splice. rewrite !length_app, length_take, length_drop. lia. Qed.

Lemma lookup_splice {A} (l new : list A) i k :
  (i + length new <= length l)%nat ->
  splice l i new !! k =
    if decide (i <= k < i + length new)%nat then new !! (k - i)%nat else l !! k.
Proof.
  intros Hl. unfold splice. case_decide as Hk.
  - rewrite lookup_app_r by (rewrite length_take; lia).
    rewrite lookup_app_l by (rewrite length_take; lia).
    f_equal. rewrite length_take. lia.
  - destruct (decide (k < i)%nat).
    + rewrite lookup_app_l by (rewrite length_take; lia). by apply lookup_take_lt.
    + rewrite lookup_app_r by (rewrite length_take; lia).
      rewrite lookup_app_r by (rewrite length_take; lia).
      rewrite lookup_drop, length_take. f_equal. lia.
Qed.

Lemma znth_splice {A} (d : A) l new k j :
  0 <= k -> k + Z.of_nat (length new) <= Z.of_nat (length l) -> 0 <= j ->
  znth d (splice l (Z.to_nat k) new) j =
    if decide (k <= j < k + Z.of_nat (length new)) then znth d new (j - k) else znth d l j.
Proof.
  intros Hk Hl Hj. unfold znth. rewrite !nth_lookup, lookup_splice by lia.
  repeat case_decide; try lia; [|done]. do 2 f_equal. lia.
Qed.

Lemma splice_nil {A} (l : list A) k : splice l k [] = l.
Proof. unfold splice. simpl. by rewrite Nat.add_0_r, take_drop. Qed.

Lemma Forall_splice {A} (P : A -> Prop) l k new :
  Forall P l -> Forall P new -> Forall P (splice l k new).
Proof. intros. unfold splice. rewrite !Forall_app. auto using Forall_take, Forall_drop. Qed.

(** Writing one element and then the rest of the window. *)
Lemma splice_cons {A} (l : list A) k x new :
  (k + S (length new) <= length l)%nat ->
  splice (<[k := x]> l) (S k) new = splice l k (x :: new).
Proof.
  intros Hl. apply list_eq. intros j.
  rewrite lookup_splice by (rewrite length_insert; lia).
  rewrite lookup_splice by (simpl; lia). simpl.
  destruct (decide (j = k)) as [->|Hjk].
  - rewrite decide_False by lia. rewrite decide_True by lia.
    rewrite list_lookup_insert_eq by lia. by rewrite Nat.sub_diag.
  - rewrite list_lookup_insert_ne by done. repeat case_decide; try lia; [|done].
    replace (j - k)%nat with (S (j - S k)) by lia. done.
Qed.

(** [window l i n] is the slice a read of [n] bytes at offset [i] sees. *)
Definition window {A} (l : list A) (i n : nat) : list A := take n (drop i l).

Lemma length_window {A} (l : list A) i n :
  (i + n <= length l)%nat -> length (window l i n) = n.
Proof. intros. unfold window. rewrite length_take, length_drop. lia. Qed.

Lemma lookup_window {A} (l : list A) i n k :
  window l i n !! k = if decide (k < n)%nat then l !! (i + k)%nat else None.
Proof.
  unfold window. case_decide.
  - by rewrite lookup_take_lt, lookup_drop.
  - by rewrite lookup_take_ge by lia.
Qed.

Lemma window_app {A} (l : list A) i n m :
  window l i n ++ window l (i + n) m = window l i (n + m).
Proof. unfold window. rewrite <- drop_drop. apply take_take_drop. Qed.

Lemma window_eq {A} (d : A) l l' i i' n :
  (i + n <= length l)%nat -> (i' + n <= length l')%nat ->
  (forall k, 0 <= k < Z.of_nat n -> znth d l (Z.of_nat i + k) = znth d l' (Z.of_nat i' + k)) ->
  window l i n = window l' i' n.
Proof.
  intros Hl Hl' Hk. apply list_eq. intros k. rewrite !lookup_window. case_decide as Hn; [|done].
  specialize (Hk (Z.of_nat k) ltac:(lia)). unfold znth in Hk.
  rewrite <- !Nat2Z.inj_add, !Nat2Z.id, !nth_lookup in Hk.
  destruct (lookup_lt_is_Some_2 l (i + k)) as [x Hx]; [lia|].
  destruct (lookup_lt_is_Some_2 l' (i' + k)) as [y Hy]; [lia|].
  rewrite Hx, Hy in Hk |- *. simpl in Hk. congruence.
Qed.

Lemma znth_default {A} (d : A) l k : Z.of_nat (length l) <= k -> znth d l k = d.
Proof. intros. unfold znth. apply nth_overflow. lia. Qed.

Lemma znth_app {A} (d : A) l l' k :
  0 <= k -> znth d (l ++ l') k =
    if decide (k < Z.of_nat (length l)) then znth d l k else znth d l' (k - Z.of_nat (length l)).
Proof.
  intros Hk. unfold znth. case_decide.
  - by rewrite app_nth1 by lia.
  - rewrite app_nth2 by lia. f_equal. lia.
Qed.

Lemma znth_replicate {A} (d : A) n k : znth d (replicate n d) k = d.
Proof. unfold znth. rewrite nth_lookup. destruct (replicate n d !! Z.to_nat k) eqn:E; [|done]. by apply lookup_replicate in E as [-> _]. Qed.

Lemma znth_pad {A} (d : A) l n k : 0 <= k -> znth d (l ++ replicate n d) k = znth d l k.
Proof.
  intros Hk. rewrite znth_app by done. case_decide; [done|].
  rewrite znth_replicate, znth_default; [done|lia].
Qed.

Lemma window_splice_same {A} (l new : list A) i :
  (i + length new <= length l)%nat -> window (splice l i new) i (length new) = new.
Proof.
  intros Hl. apply list_eq. intros k. rewrite lookup_window.
  case_decide as Hk.
  - rewrite lookup_splice by done. rewrite decide_True by lia. f_equal. lia.
  - symmetry. apply lookup_ge_None. lia.
Qed.

(** ** Little-endian encodings

    The x86 layout of an [n]-byte unsigned integer. *)
Fixpoint le_bytes (n : nat) (x : Z) : list Z :=
  match n with
  | O => []
  | S n' => x mod 256 :: le_bytes n' (x / 256)
  end.

Fixpoint le_value (l : list Z) : Z :=
  match l with
  | [] => 0
  | b :: l' => b + 256 * le_value l'
  end.

Definition is_byte (b : Z) : Prop := 0 <= b < 256.

Lemma bytes_replicate n b : is_byte b -> Forall is_byte (replicate n b).
Proof. apply Forall_replicate. Qed.

Lemma length_le_bytes n x : length (le_bytes n x) = n.
Proof. revert x; induction n; intros; simpl; auto. Qed.

Lemma le_bytes_are_bytes n x : Forall is_byte (le_bytes n x).
Proof.
  revert x; induction n; intros x; simpl; constructor; auto.
  apply Z.mod_pos_bound; lia.
Qed.

Lemma le_value_bytes n x : le_value (le_bytes n x) = x mod 256 ^ Z.of_nat n.
Proof.
  revert x; induction n as [|n IH]; intros x; cbn [le_bytes le_value].
  - by rewrite Z.mod_1_r.
  - rewrite IH, Nat2Z.inj_succ, Z.pow_succ_r by lia.
    rewrite Z.rem_mul_r by lia. lia.
Qed.

Lemma le_value_range l :
  Forall is_byte l -> 0 <= le_value l < 256 ^ Z.of_nat (length l).
Proof.
  induction 1 as [|b l Hb Hl IH]; cbn [le_value length]; [lia|].
  rewrite Nat2Z.inj_succ, Z.pow_succ_r by lia. unfold is_byte in Hb. nia.
Qed.

Lemma le_bytes_value l :
  Forall is_byte l -> le_bytes (length l) (le_value l) = l.
Proof.
  induction 1 as [|b l Hb Hl IH]; cbn [le_value length le_bytes]; [done|].
  unfold is_byte in Hb.
  rewrite (Z.mul_comm 256), Z.mod_add, Z.div_add, Z.mod_small, Z.div_small by lia.
  by rewrite Z.add_0_l, IH.
Qed.

Lemma le_value_bytes32 x : le_value (le_bytes 4 x) = u32 x.
Proof. by rewrite le_value_bytes. Qed.

(** Arrays of 32-bit words as bytes, and back. *)
Definition words_to_bytes (ws : list Z) : list Z := mjoin (le_bytes 4 <$> ws).

Fixpoint bytes_to_words (n : nat) (l : list Z) : list Z :=
  match n with
  | O => []
  | S n' => le_value (take 4 l) :: bytes_to_words n' (drop 4 l)
  end.

Lemma words_to_bytes_cons w ws :
  words_to_bytes (w :: ws) = le_bytes 4 w ++ words_to_bytes ws.
Proof. done. Qed.

Lemma length_words_to_bytes ws : length (words_to_bytes ws) = (4 * length ws)%nat.
Proof.
  induction ws as [|w ws IH]; [done|].
  rewrite words_to_bytes_cons, length_app, IH, length_le_bytes. simpl. lia.
Qed.

Lemma length_bytes_to_words n l : length (bytes_to_words n l) = n.
Proof. revert l; induction n; intros; simpl; auto. Qed.

Definition is_word (w : Z) : Prop := 0 <= w < 2 ^ 32.

Lemma bytes_to_words_to_bytes ws rest :
  Forall is_word ws -> bytes_to_words (length ws) (words_to_bytes ws ++ rest) = ws.
Proof.
  induction 1 as [|w ws Hw Hws IH]; [done|]. cbn [length bytes_to_words].
  rewrite words_to_bytes_cons, <- app_assoc.
  rewrite take_app_length' by (by rewrite length_le_bytes).
  rewrite drop_app_length' by (by rewrite length_le_bytes).
  by rewrite IH, le_value_bytes32, u32_small.
Qed.

Lemma words_to_bytes_to_words n l :
  length l = (4 * n)%nat -> Forall is_byte l ->
  words_to_bytes (bytes_to_words n l) = l.
Proof.
  revert l; induction n as [|n IH]; intros l Hl Hb; cbn [bytes_to_words].
  - by destruct l.
  - rewrite words_to_bytes_cons, IH.
    + assert (length (take 4 l) = 4%nat) as H4 by (rewrite length_take; lia).
      rewrite <- H4 at 1. rewrite le_bytes_value by (by apply Forall_take).
      by rewrite take_drop.
    + rewrite length_drop. lia.
    + by apply Forall_drop.
Qed.

Lemma words_are_bytes ws : Forall is_byte (words_to_bytes ws).
Proof.
  induction ws as [|w ws IH]; [constructor|].
  rewrite words_to_bytes_cons. apply Forall_app. split; [apply le_bytes_are_bytes|done].
Qed.

Lemma bytes_to_words_range n l :
  Forall is_byte l -> Forall is_word (bytes_to_words n l).
Proof.
  revert l; induction n as [|n IH]; intros l Hb; cbn [bytes_to_words]; [constructor|].
  constructor; [|by apply IH, Forall_drop].
  pose proof (le_value_range (take 4 l) (Forall_take _ _ _ Hb)) as Hr.
  unfold is_word. split; [lia|]. eapply Z.lt_le_trans; [apply Hr|].
  rewrite length_take. change (2 ^ 32) with (256 ^ 4).
  apply Z.pow_le_mono_r; lia.
Qed.

(** ** Automation

    [outcome] simplifies binds of known outcomes and splits successful
    ones; the hint databases hold the arithmetic side conditions. *)
Create HintDb pintos.
Create Rewrite HintDb pintos.
#[export] Hint Resolve u32_range u64_range u8_range le_bytes_are_bytes words_are_bytes : pintos.
#[export] Hint Rewrite @length_splice @length_window length_le_bytes
  length_words_to_bytes length_bytes_to_words using lia : pintos.

Ltac inv_outcome :=
  repeat match goal with
  | H : Ok _ = Ok _ |- _ => injection H as H; try subst
  | H : Err _ = Ok _ |- _ => discriminate H
  | H : Ok _ = Err _ |- _ => discriminate H
  | H : mbind _ _ = Ok _ |- _ => apply obind_Ok in H; destruct H as (? & ? & ?)
  | H : mbind _ _ _ = Ok (_, _) |- _ =>
      apply st_bind_Ok in H; destruct H as (? & ? & ? & ?)
  | H : kassert _ = Ok _ |- _ => apply kassert_Ok in H
  end.

(** [lia] with division, modulo, quotient and remainder. *)
Ltac dlia := Z.to_euclidean_division_equations; lia.

(** ** Filters *)

Lemma filter_all {A} (P : A -> Prop) `{!forall x, Decision (P x)} l : Forall P l -> filter P l = l.
Proof. induction 1 as [|x l Hx _ IH]; [done|]. by rewrite filter_cons_True, IH. Qed.

Lemma filter_none {A} (P : A -> Prop) `{!forall x, Decision (P x)} l : Forall (fun x => ~ P x) l -> filter P l = [].
Proof. induction 1 as [|x l Hx _ IH]; [done|]. by rewrite filter_cons_False. Qed.
