(* ===== verification/Memory.v ===== *)
(** * Byte memory

    The memory that code working through [char *] and [void *] pointers
    sees: a finite map from addresses to bytes.  An access outside the map
    is undefined behaviour and gives [Err Fault].  Address 0 is NULL. *)

From S2P Require Import Prelude.

Abbreviation mem := (gmap Z Z).

Definition NULL : Z := 0.

Definition load (m : mem) (p : Z) : outcome Z :=
  match m !! p with Some b => Ok b | None => Err Fault end.

Definition store (m : mem) (p b : Z) : outcome mem :=
  match m !! p with Some _ => Ok (<[p := b]> m) | None => Err Fault end.

(** ** Assertions about memory *)

(** The bytes [l] are at [p]. *)
Definition bytes_at (m : mem) (p : Z) (l : list Z) : Prop := map_seqZ p l ⊆ m.

(** [n] bytes at [p] are mapped. *)
Definition mapped (m : mem) (p : Z) (n : nat) : Prop :=
  forall a, p <= a < p + Z.of_nat n -> is_Some (m !! a).

(** Overwriting the bytes at [p] with [l]. *)
Definition put (m : mem) (p : Z) (l : list Z) : mem := map_seqZ p l ∪ m.

(** A null-terminated string [s] at [p]. *)
Definition text (s : list Z) : Prop := Forall (fun b => is_byte b /\ b <> 0) s.
Definition cstr (m : mem) (p : Z) (s : list Z) : Prop := text s /\ bytes_at m p (s ++ [0]).

Lemma bytes_at_lookup m p l :
  bytes_at m p l <-> forall i b, l !! i = Some b -> m !! (p + Z.of_nat i) = Some b.
Proof.
  unfold bytes_at. rewrite map_subseteq_spec. split.
  - intros Hm i b Hi. apply Hm, lookup_map_seqZ_Some. split; [lia|].
    by replace (Z.to_nat (p + Z.of_nat i - p)) with i by lia.
  - intros Hl a b Ha. apply lookup_map_seqZ_Some in Ha as [Hp Hb].
    specialize (Hl _ _ Hb). by replace (p + Z.of_nat (Z.to_nat (a - p))) with a in Hl by lia.
Qed.

Lemma bytes_at_cons m p b l : bytes_at m p (b :: l) <-> m !! p = Some b /\ bytes_at m (p + 1) l.
Proof.
  rewrite !bytes_at_lookup. split.
  - intros Hl. split; [rewrite <- (Hl 0%nat b eq_refl); f_equal; lia|].
    intros i c Hi. rewrite <- (Hl (S i) c Hi). f_equal. lia.
  - intros [Hb Hl] [|i] c; simpl.
    + intros [= <-]. by rewrite Z.add_0_r.
    + intros Hi. rewrite <- (Hl _ _ Hi). f_equal. lia.
Qed.

Lemma bytes_at_app m p l l' :
  bytes_at m p (l ++ l') <-> bytes_at m p l /\ bytes_at m (p + Z.of_nat (length l)) l'.
Proof.
  revert p. induction l as [|b l IH]; intros p; cbn [app length].
  - split; [|intros [_ Hl]]; [intros Hl; split|].
    + rewrite bytes_at_lookup. by intros i c.
    + by replace (p + Z.of_nat 0) with p by lia.
    + by replace (p + Z.of_nat 0) with p in Hl by lia.
  - rewrite !bytes_at_cons, IH. replace (p + 1 + Z.of_nat (length l)) with (p + Z.of_nat (S (length l))) by lia.
    tauto.
Qed.

Lemma bytes_at_nil m p : bytes_at m p [].
Proof. rewrite bytes_at_lookup. by intros i c. Qed.

Lemma bytes_at_mapped m p l : bytes_at m p l -> mapped m p (length l).
Proof.
  rewrite bytes_at_lookup. intros Hl a Ha.
  destruct (lookup_lt_is_Some_2 l (Z.to_nat (a - p))) as [b Hb]; [lia|].
  specialize (Hl _ _ Hb). exists b. by replace (p + Z.of_nat (Z.to_nat (a - p))) with a in Hl by lia.
Qed.

(** A string or block in memory is not longer than the memory: the fuel
    [size m] of the string loops is enough. *)
Lemma size_map_seqZ p (l : list Z) : size (map_seqZ p l : mem) = length l.
Proof.
  revert p. induction l as [|b l IH]; intros p; [apply map_size_empty|].
  rewrite map_seqZ_cons, map_size_insert_None, IH; [done|]. apply map_seqZ_cons_disjoint.
Qed.

Lemma bytes_at_size m p l : bytes_at m p l -> (length l <= size m)%nat.
Proof. intros Hl. rewrite <- (size_map_seqZ p l). by apply map_subseteq_size. Qed.

Lemma cstr_size m p s : cstr m p s -> (length s < size m)%nat.
Proof. intros [_ Hl]. apply bytes_at_size in Hl. rewrite length_app in Hl. simpl in Hl. lia. Qed.

Lemma cstr_cons m p b s : cstr m p (b :: s) <-> (is_byte b /\ b <> 0) /\ m !! p = Some b /\ cstr m (p + 1) s.
Proof. unfold cstr, text. cbn [app]. rewrite bytes_at_cons, list.Forall_cons. tauto. Qed.

Lemma cstr_nil m p : cstr m p [] <-> m !! p = Some 0.
Proof.
  unfold cstr, text. cbn [app]. rewrite bytes_at_cons. split; [tauto|]. intros Hp. split; [constructor|].
  split; [done|]. apply bytes_at_nil.
Qed.

Lemma cstr_bytes m p s : cstr m p s -> bytes_at m p s.
Proof. intros [_ Hb]. by apply bytes_at_app in Hb as [Hb _]. Qed.

Lemma cstr_frame m m' p s :
  cstr m p s -> (forall a, p <= a <= p + Z.of_nat (length s) -> m' !! a = m !! a) -> cstr m' p s.
Proof.
  intros [Ht Hb] Hm. split; [done|]. rewrite bytes_at_lookup in Hb |- *. intros i b Hi.
  rewrite Hm; [by apply Hb|]. apply lookup_lt_Some in Hi. rewrite length_app in Hi. simpl in Hi. lia.
Qed.

Lemma load_Ok m p b : m !! p = Some b -> load m p = Ok b.
Proof. unfold load. by intros ->. Qed.

Lemma lookup_put m p l a :
  put m p l !! a = if decide (p <= a < p + Z.of_nat (length l)) then l !! Z.to_nat (a - p) else m !! a.
Proof.
  unfold put. case_decide as Ha.
  - destruct (lookup_lt_is_Some_2 l (Z.to_nat (a - p))) as [b Hb]; [lia|]. rewrite Hb.
    apply lookup_union_Some_l, lookup_map_seqZ_Some. split; [lia|done].
  - rewrite lookup_union_r; [done|]. apply lookup_map_seqZ_None. lia.
Qed.

Lemma bytes_at_put m p l : bytes_at (put m p l) p l.
Proof. unfold bytes_at, put. apply map_union_subseteq_l. Qed.

Lemma bytes_at_put_disjoint m p l q l' :
  bytes_at m q l' -> q + Z.of_nat (length l') <= p \/ p + Z.of_nat (length l) <= q -> bytes_at (put m p l) q l'.
Proof.
  rewrite !bytes_at_lookup. intros Hl Hd i b Hi. rewrite lookup_put.
  pose proof (lookup_lt_Some _ _ _ Hi). rewrite decide_False by lia. by apply Hl.
Qed.

Lemma put_nil m p : put m p [] = m.
Proof. unfold put. simpl. apply map_empty_union. Qed.

Lemma put_bytes_at m p l : bytes_at m p l -> put m p l = m.
Proof. apply map_subseteq_union. Qed.

Lemma put_cons m p b l : put (<[p := b]> m) (p + 1) l = put m p (b :: l).
Proof.
  apply map_eq. intros a. rewrite !lookup_put. cbn [length].
  destruct (decide (a = p)) as [->|Hne].
  - rewrite decide_False by lia. rewrite decide_True by lia. rewrite lookup_insert_eq. by rewrite Z.sub_diag.
  - rewrite lookup_insert_ne by done. repeat case_decide; try lia; [|done].
    replace (Z.to_nat (a - p)) with (S (Z.to_nat (a - (p + 1)))) by lia. done.
Qed.

Lemma put_app m p l l' : put (put m p l) (p + Z.of_nat (length l)) l' = put m p (l ++ l').
Proof.
  apply map_eq. intros a. rewrite !lookup_put, length_app. repeat case_decide; try lia; try done.
  - rewrite lookup_app_r by lia. f_equal. lia.
  - rewrite lookup_app_l by lia. done.
Qed.

Lemma mapped_put m p l q n : mapped m q n -> mapped (put m p l) q n.
Proof.
  intros Hm a Ha. rewrite lookup_put. case_decide as Hp; [|by apply Hm].
  apply lookup_lt_is_Some_2. lia.
Qed.

Lemma store_Ok m p b : is_Some (m !! p) -> store m p b = Ok (put m p [b]).
Proof. unfold store. intros [c ->]. by rewrite <- put_cons, put_nil. Qed.

(** ** Deciding the assertions *)
Fixpoint bytes_check (m : mem) (p : Z) (l : list Z) : bool :=
  match l with
  | [] => true
  | b :: l' => match m !! p with Some c => c =? b | None => false end && bytes_check m (p + 1) l'
  end.

Lemma bytes_check_ok m p l : bytes_check m p l = true -> bytes_at m p l.
Proof.
  revert p. induction l as [|b l IH]; intros p; cbn [bytes_check]; [intros _; apply bytes_at_nil|].
  rewrite andb_true_iff. intros [Hb Hl]. apply bytes_at_cons. split; [|by apply IH].
  destruct (m !! p); [|done]. by apply Z.eqb_eq in Hb as ->.
Qed.

Lemma text_check l : forallb (fun b => (0 <? b) && (b <? 256)) l = true -> text l.
Proof.
  rewrite forallb_forall. intros H. apply list.Forall_forall. intros b Hb. apply list_elem_of_In, H, andb_true_iff in Hb. unfold is_byte. lia.
Qed.

Definition cstr_check (m : mem) (p : Z) (s : list Z) : bool :=
  forallb (fun b => (0 <? b) && (b <? 256)) s && bytes_check m p (s ++ [0]).

Lemma cstr_check_ok m p s : cstr_check m p s = true -> cstr m p s.
Proof.
  unfold cstr_check. rewrite andb_true_iff. intros [Hs Hb]. split; [by apply text_check|by apply bytes_check_ok].
Qed.
