(* ===== verification/Wp.v ===== *)
(** * Weakest preconditions of state computations

    A proof rule per construct of the monad of Prelude.v: [wp m Q s] says
    that [m] returns from state [s] with a result and a state that
    satisfy [Q]; a panic, a fault or missing fuel falsifies it. *)

From S2P Require Import Prelude.

Section wp.
Context {S : Type}.
Implicit Types (s : S).

Definition wp {A} (m : st S A) (Q : A -> S -> Prop) s : Prop :=
  match m s with Ok (a, s') => Q a s' | Err _ => False end.

Lemma wp_bind {A B} (m : st S A) (f : A -> st S B) Q s : wp m (fun a => wp (f a) Q) s -> wp (m ≫= f) Q s.
Proof. unfold wp, mbind, st_bind. by destruct (m s) as [[]|]. Qed.
Lemma wp_mono {A} (m : st S A) (P Q : A -> S -> Prop) s : wp m P s -> (forall a s', P a s' -> Q a s') -> wp m Q s.
Proof. unfold wp. destruct (m s) as [[]|]; auto. Qed.
Lemma wp_ret {A} (a : A) (Q : A -> S -> Prop) s : Q a s -> wp (mret a) Q s.
Proof. done. Qed.
Lemma wp_gets {A} (f : S -> A) Q s : Q (f s) s -> wp (gets f) Q s.
Proof. done. Qed.
Lemma wp_modify (f : S -> S) Q s : Q tt (f s) -> wp (modify f) Q s.
Proof. done. Qed.
Lemma wp_assert b (Q : unit -> S -> Prop) s : b = true -> Q tt s -> wp (kassert_st b) Q s.
Proof. by intros ->. Qed.
Lemma wp_lift {A} (o : outcome A) a (Q : A -> S -> Prop) s : o = Ok a -> Q a s -> wp (lift o) Q s.
Proof. by intros ->. Qed.
Lemma wp_Ok {A} (m : st S A) Q s : wp m Q s -> exists a s', m s = Ok (a, s') /\ Q a s'.
Proof. unfold wp. destruct (m s) as [[]|]; [eauto|done]. Qed.
Lemma wp_unit_Ok (m : st S unit) (Q : S -> Prop) s : wp m (fun _ => Q) s -> exists s', m s = Ok (tt, s') /\ Q s'.
Proof. unfold wp. destruct (m s) as [[[]]|]; [eauto|done]. Qed.
End wp.
