(* ===== verification/Arith.v ===== *)
(** * 64-bit division on a 32-bit machine (src/lib/arithmetic.c)

    The routines that GCC calls for long long division and remainder,
    built on the DIVL instruction.  A divide error is [Panic]: the kernel
    kills itself on an exception in its own code. *)

From S2P Require Import Prelude.

(** The DIVL instruction: 64-bit by 32-bit with a 32-bit quotient. *)
Definition divl (n d : Z) : outcome Z :=
  let n1 := u32 (Z.shiftr n 32) in
  let n0 := u32 n in
  if (d =? 0) || (2 ^ 32 <=? (n1 * 2 ^ 32 + n0) / d) then Err Panic else Ok ((n1 * 2 ^ 32 + n0) / d).

(** One test of nlz: [if (x <= limit) { n += k; x <<= k; }]. *)
Definition nlz_step (limit k : Z) (s : Z * Z) : Z * Z :=
  let '(n, x) := s in if x <=? limit then (n + k, u32 (Z.shiftl x k)) else (n, x).
Definition nlz (x : Z) : Z :=
  let s := nlz_step 0x0000FFFF 16 (0, x) in
  let s := nlz_step 0x00FFFFFF 8 s in
  let s := nlz_step 0x0FFFFFFF 4 s in
  let '(n, x) := nlz_step 0x3FFFFFFF 2 s in
  if x <=? 0x7FFFFFFF then n + 1 else n.

(** Unsigned 32-bit / and %. *)
Definition udiv32 (n d : Z) : outcome Z := if d =? 0 then Err Panic else Ok (n / d).
Definition umod32 (n d : Z) : outcome Z := if d =? 0 then Err Panic else Ok (n mod d).

Definition udiv64 (n d : Z) : outcome Z :=
  if Z.shiftr d 32 =? 0 then
    let b := Z.shiftl 1 32 in
    let n1 := u32 (Z.shiftr n 32) in
    let n0 := u32 n in
    let d0 := u32 d in
    r ← umod32 n1 d0;
    q0 ← divl (u64 (b * r + n0)) d0;
    q1 ← udiv32 n1 d0;
    Ok (u64 (q0 + b * q1))
  else if n <? d then Ok 0
  else
    let d1 := u32 (Z.shiftr d 32) in
    let s := nlz d1 in
    q0 ← divl (Z.shiftr n 1) (u32 (Z.shiftr (u64 (Z.shiftl d s)) 32));
    let q := Z.shiftr q0 (31 - s) in
    Ok (if u64 (n - (q - 1) * d) <? d then u64 (q - 1) else q).

(** The result has 32 bits. *)
Definition umod64 (n d : Z) : outcome Z := q ← udiv64 n d; Ok (u32 (u64 (n - d * q))).

Definition sdiv64 (n d : Z) : outcome Z :=
  let n_abs := if 0 <=? n then n else u64 (- u64 n) in
  let d_abs := if 0 <=? d then d else u64 (- u64 d) in
  q_abs ← udiv64 n_abs d_abs;
  Ok (if bool_decide (n < 0 <-> d < 0) then s64 q_abs else s64 (- s64 q_abs)).

(** The result has 32 bits. *)
Definition smod64 (n d : Z) : outcome Z := q ← sdiv64 n d; Ok (s32 (s64 (n - d * q))).

Definition __divdi3 (n d : Z) : outcome Z := sdiv64 n d.
Definition __moddi3 (n d : Z) : outcome Z := smod64 n d.
Definition __udivdi3 (n d : Z) : outcome Z := udiv64 n d.
Definition __umoddi3 (n d : Z) : outcome Z := umod64 n d.

(** ** Correctness *)

Lemma divl_ok n d : 0 <= n < 2 ^ 64 -> 0 < d -> n < 2 ^ 32 * d -> divl n d = Ok (n / d).
Proof.
  intros Hn Hd Hq. unfold divl. rewrite Z.shiftr_div_pow2 by lia.
  rewrite (u32_small (n / 2 ^ 32)) by dlia.
  assert (n / 2 ^ 32 * 2 ^ 32 + u32 n = n) as -> by (unfold u32; dlia).
  assert (n / d < 2 ^ 32) by (apply Z.div_lt_upper_bound; lia).
  rewrite (proj2 (Z.eqb_neq d 0)) by lia. destruct (Z.leb_spec (2 ^ 32) (n / d)); [lia|done].
Qed.

(** A step of nlz keeps [x * 2 ^ n] and the range that the remaining
    steps need. *)
Lemma nlz_step_ok x0 limit k lo n x : 0 < k <= 16 -> limit = 2 ^ (32 - k) - 1 -> 0 <= n -> lo * 2 ^ k = 2 ^ (32 - k) -> 0 < lo ->
  x = x0 * 2 ^ n -> lo <= x < 2 ^ 32 ->
  let '(n', x') := nlz_step limit k (n, x) in (n' = n \/ n' = n + k) /\ x' = x0 * 2 ^ n' /\ 2 ^ (32 - k) <= x' < 2 ^ 32.
Proof.
  intros Hk -> Hn Hlo Hlo0 Hx Hr. unfold nlz_step. destruct (Z.leb_spec x (2 ^ (32 - k) - 1)) as [H|H].
  - assert (2 ^ (32 - k) * 2 ^ k = 2 ^ 32) as E by (rewrite <- Z.pow_add_r by lia; f_equal; lia).
    assert (0 < 2 ^ k) by lia.
    rewrite Z.shiftl_mul_pow2 by lia. rewrite u32_small by nia.
    split; [by right|]. split; [rewrite Z.pow_add_r by lia; rewrite Hx; ring|]. nia.
  - split; [by left|]. split; [done|]. lia.
Qed.

Lemma nlz_ok x : 0 < x < 2 ^ 32 -> 0 <= nlz x <= 31 /\ 2 ^ 31 <= x * 2 ^ nlz x < 2 ^ 32.
Proof.
  intros Hx. unfold nlz.
  pose proof (nlz_step_ok x 0x0000FFFF 16 1 0 x ltac:(lia) eq_refl ltac:(lia) eq_refl ltac:(lia) ltac:(lia) ltac:(lia)) as H1.
  destruct (nlz_step 0x0000FFFF 16 (0, x)) as [n1 x1]. destruct H1 as (N1 & X1 & R1).
  pose proof (nlz_step_ok x 0x00FFFFFF 8 (2 ^ 16) n1 x1 ltac:(lia) eq_refl ltac:(lia) eq_refl ltac:(lia) X1 R1) as H2.
  destruct (nlz_step 0x00FFFFFF 8 (n1, x1)) as [n2 x2]. destruct H2 as (N2 & X2 & R2).
  pose proof (nlz_step_ok x 0x0FFFFFFF 4 (2 ^ 24) n2 x2 ltac:(lia) eq_refl ltac:(lia) eq_refl ltac:(lia) X2 R2) as H3.
  destruct (nlz_step 0x0FFFFFFF 4 (n2, x2)) as [n3 x3]. destruct H3 as (N3 & X3 & R3).
  pose proof (nlz_step_ok x 0x3FFFFFFF 2 (2 ^ 28) n3 x3 ltac:(lia) eq_refl ltac:(lia) eq_refl ltac:(lia) X3 R3) as H4.
  destruct (nlz_step 0x3FFFFFFF 2 (n3, x3)) as [n4 x4]. destruct H4 as (N4 & X4 & R4).
  destruct (Z.leb_spec x4 0x7FFFFFFF) as [H|H].
  - rewrite Z.pow_add_r by lia. lia.
  - split; [|lia]. lia.
Qed.

(** The estimate of the second case: dividing by the leading 32 bits
    [v] of the divisor gives the quotient or one more. *)
Lemma quotient_estimate n d v e : 0 <= n < 2 ^ 64 -> 2 ^ 31 <= v -> 2 <= e -> e = 2 \/ 4 <= e -> 2 ^ 32 <= d ->
  v * e <= d < (v + 1) * e -> n / d <= n / (v * e) <= n / d + 1.
Proof.
  intros Hn Hv He He4 Hd Hve. set (t := v * e) in *. assert (0 < t) by (unfold t; nia).
  pose proof (Z.div_mod n d ltac:(lia)) as Ed. pose proof (Z.mod_pos_bound n d ltac:(lia)) as Rd.
  pose proof (Z.div_mod n t ltac:(lia)) as Et. pose proof (Z.mod_pos_bound n t ltac:(lia)) as Rt.
  set (q := n / t) in *. set (p := n / d) in *. split.
  - unfold q, p. apply Z.div_le_compat_l; lia.
  - destruct (Z.le_gt_cases q (p + 1)) as [|Hgt]; [done|exfalso].
    assert (n < (q - 1) * d) by nia.
    assert (t * q <= n) by lia.
    assert (d < q * (d - t)) by nia.
    assert (d - t <= e - 1) by (unfold t; lia).
    assert (0 <= p) by (unfold p; apply Z.div_pos; lia).
    assert (t * d < n * (d - t)) by nia.
    assert (2 ^ 64 * (e - 1) <= t * d).
    { destruct He4 as [->|He4]; unfold t in *; nia. }
    assert (n * (d - t) <= 2 ^ 64 * (e - 1)) by (apply Z.mul_le_mono_nonneg; lia). lia.
Qed.

Lemma udiv64_ok n d : 0 <= n < 2 ^ 64 -> 0 < d < 2 ^ 64 -> udiv64 n d = Ok (n / d).
Proof.
  intros Hn Hd. unfold udiv64. rewrite !Z.shiftr_div_pow2 by lia. change (Z.shiftl 1 32) with (2 ^ 32).
  destruct (Z.eqb_spec (d / 2 ^ 32) 0) as [E|E].
  - assert (d < 2 ^ 32) as Hd32 by dlia. rewrite (u32_small d) by lia. rewrite (u32_small (n / 2 ^ 32)) by dlia.
    unfold umod32, udiv32. rewrite (proj2 (Z.eqb_neq d 0)) by lia. simpl.
    set (n1 := n / 2 ^ 32). assert (n = 2 ^ 32 * n1 + u32 n) as En by (unfold u32, n1; dlia). pose proof (u32_range n) as R0. set (n0 := u32 n) in *.
    pose proof (Z.mod_pos_bound n1 d ltac:(lia)) as Rm.
    rewrite (u64_small (2 ^ 32 * (n1 mod d) + n0)) by nia. rewrite divl_ok by nia. cbn [mbind outcome_bind]. f_equal.
    assert (n / d = (2 ^ 32 * (n1 mod d) + n0) / d + 2 ^ 32 * (n1 / d)) as Eq.
    { rewrite <- Z.div_add by lia. f_equal. rewrite En at 1. pose proof (Z.div_mod n1 d ltac:(lia)). nia. }
    rewrite u64_small; [by rewrite Eq|]. rewrite <- Eq. split; [apply Z.div_pos; lia|]. apply Z.div_lt_upper_bound; nia.
  - assert (2 ^ 32 <= d) as Hd32 by dlia. destruct (Z.ltb_spec n d) as [Hlt|Hge]; [by rewrite Z.div_small by lia|].
    rewrite (u32_small (d / 2 ^ 32)) by dlia. destruct (nlz_ok (d / 2 ^ 32)) as [Hs Hr]; [dlia|]. set (s := nlz (d / 2 ^ 32)) in *.
    rewrite Z.shiftl_mul_pow2 by lia.
    assert (0 < 2 ^ s) by lia. assert (d < (d / 2 ^ 32 + 1) * 2 ^ 32) by dlia. assert (2 ^ 32 * (d / 2 ^ 32) <= d) by dlia.
    assert (2 ^ s * 2 ^ (32 - s) = 2 ^ 32) as Ee by (rewrite <- Z.pow_add_r by lia; f_equal; lia).
    assert (d * 2 ^ s < 2 ^ 64) as Hov.
    { assert ((d / 2 ^ 32 + 1) * 2 ^ s <= 2 ^ 32); [|nia].
      assert (2 ^ 32 = 2 ^ s * 2 ^ (32 - s)) by lia. assert (d / 2 ^ 32 < 2 ^ (32 - s)) by nia. nia. }
    rewrite (u64_small (d * 2 ^ s)) by nia. set (v := d * 2 ^ s / 2 ^ 32).
    pose proof (Z.div_mod (d * 2 ^ s) (2 ^ 32) ltac:(lia)) as Ev. pose proof (Z.mod_pos_bound (d * 2 ^ s) (2 ^ 32) ltac:(lia)) as Rv. fold v in Ev.
    assert (2 ^ 31 <= v < 2 ^ 32) as Hv by nia.
    rewrite (u32_small v) by lia. change (2 ^ 1) with 2. rewrite divl_ok by dlia. cbn [mbind outcome_bind].
    rewrite Z.shiftr_div_pow2 by lia. rewrite !Z.div_div by lia.
    set (e := 2 ^ (32 - s)) in *.
    assert (2 * (v * 2 ^ (31 - s)) = v * e) as ->.
    { unfold e. replace (32 - s) with (1 + (31 - s)) by lia. rewrite Z.pow_add_r by lia. ring. }
    assert (2 <= e /\ (e = 2 \/ 4 <= e)) as [He He4].
    { unfold e. destruct (decide (s = 31)) as [->|]; [by simpl; lia|].
      assert (2 ^ 2 <= 2 ^ (32 - s)) by (apply Z.pow_le_mono_r; lia). lia. }
    assert (v * e <= d < (v + 1) * e) as Hve.
    { split; [apply (Zmult_le_reg_r _ _ (2 ^ s)); [lia|]|apply (Zmult_gt_0_lt_reg_r _ _ (2 ^ s)); [lia|]].
      - replace (v * e * 2 ^ s) with (2 ^ 32 * v) by (rewrite <- Ee; ring). lia.
      - replace ((v + 1) * e * 2 ^ s) with (2 ^ 32 * v + 2 ^ 32) by (rewrite <- Ee; ring). lia. }
    destruct (quotient_estimate n d v e) as [Q1 Q2]; [lia|lia|lia|done|lia|done|].
    pose proof (Z.div_mod n d ltac:(lia)) as Ed. pose proof (Z.mod_pos_bound n d ltac:(lia)) as Rd.
    assert (1 <= n / d) by (apply Z.div_le_lower_bound; lia). f_equal.
    destruct (decide (n / (v * e) = n / d)) as [Eq|Ne].
    + rewrite Eq. rewrite (u64_small (n - (n / d - 1) * d)) by nia. destruct (Z.ltb_spec (n - (n / d - 1) * d) d); [nia|done].
    + assert (n / (v * e) = n / d + 1) as -> by lia. replace (n / d + 1 - 1) with (n / d) by lia.
      rewrite (u64_small (n - n / d * d)) by nia. destruct (Z.ltb_spec (n - n / d * d) d); [|nia].
      rewrite u64_small; [done|]. split; [lia|]. apply Z.div_lt_upper_bound; nia.
Qed.

Lemma udiv64_zero n : 0 <= n < 2 ^ 64 -> udiv64 n 0 = Err Panic.
Proof. done. Qed.

Lemma u64_neg n : - 2 ^ 63 <= n < 0 -> u64 (- u64 n) = - n.
Proof.
  intros Hn. unfold u64. assert (n mod 2 ^ 64 = n + 2 ^ 64) as -> by (rewrite <- (Z_mod_plus_full n 1), Z.mod_small; lia).
  rewrite <- (Z_mod_plus_full _ 1), Z.mod_small; lia.
Qed.

Lemma sdiv64_ok n d : - 2 ^ 63 <= n < 2 ^ 63 -> - 2 ^ 63 <= d < 2 ^ 63 -> d <> 0 -> ~ (n = - 2 ^ 63 /\ d = -1) ->
  sdiv64 n d = Ok (Z.quot n d).
Proof.
  intros Hn Hd Hd0 Hov. unfold sdiv64.
  assert ((if 0 <=? n then n else u64 (- u64 n)) = Z.abs n) as ->.
  { destruct (Z.leb_spec 0 n); [lia|]. rewrite u64_neg; lia. }
  assert ((if 0 <=? d then d else u64 (- u64 d)) = Z.abs d) as ->.
  { destruct (Z.leb_spec 0 d); [lia|]. rewrite u64_neg; lia. }
  rewrite udiv64_ok by lia. cbn [mbind outcome_bind]. f_equal.
  assert (0 <= Z.abs n / Z.abs d <= Z.abs n) as Hq.
  { split; [apply Z.div_pos; lia|]. apply Z.div_le_upper_bound; nia. }
  assert (Z.abs n / Z.abs d = 2 ^ 63 -> n = - 2 ^ 63 /\ Z.abs d = 1) as Hmax.
  { intros E. assert (Z.abs n = 2 ^ 63) by lia. split; [lia|]. pose proof (Z.div_mod (Z.abs n) (Z.abs d) ltac:(lia)).
    pose proof (Z.mod_pos_bound (Z.abs n) (Z.abs d) ltac:(lia)). nia. }
  assert (Z.quot n d = Z.sgn n * Z.sgn d * (Z.abs n / Z.abs d)) as ->.
  { rewrite Z.quot_div by done. ring. }
  case_bool_decide as Hsg.
  - destruct (decide (Z.abs n / Z.abs d = 2 ^ 63)) as [E|Hne].
    + destruct (Hmax E) as [-> Hd1]. exfalso. apply Hov. split; [done|]. destruct Hsg as [Hsg _]. lia.
    + rewrite s64_small by lia. destruct (decide (n = 0)) as [->|]; [by rewrite Z.div_small by lia|]. assert (Z.sgn n * Z.sgn d = 1) as -> by lia. lia.
  - destruct (decide (Z.abs n / Z.abs d = 2 ^ 63)) as [E|Hne].
    + rewrite E. destruct (Hmax E) as [-> Hd1]. assert (d = 1) as -> by lia. reflexivity.
    + rewrite (s64_small (Z.abs n / Z.abs d)) by lia. rewrite s64_small by lia.
      destruct (decide (n = 0)) as [->|]; [by rewrite Z.div_small by lia|]. assert (Z.sgn n * Z.sgn d = -1) as -> by lia. lia.
Qed.

(** C22: 64-bit unsigned division.  The routine computes the quotient of
    every 64-bit dividend by every nonzero 64-bit divisor; in particular
    the DIVL instruction inside it never traps.  Division by 0 traps. *)
Theorem udivdi3_is_division n d : 0 <= n < 2 ^ 64 -> 0 <= d < 2 ^ 64 ->
  __udivdi3 n d = if d =? 0 then Err Panic else Ok (n / d).
Proof.
  intros Hn Hd. unfold __udivdi3. destruct (Z.eqb_spec d 0) as [->|]; [by apply udiv64_zero|]. apply udiv64_ok; lia.
Qed.

(** 64-bit signed division truncates towards zero, for all operands
    whose quotient is representable. *)
Theorem divdi3_is_quotient n d : - 2 ^ 63 <= n < 2 ^ 63 -> - 2 ^ 63 <= d < 2 ^ 63 -> d <> 0 -> ~ (n = - 2 ^ 63 /\ d = -1) ->
  __divdi3 n d = Ok (Z.quot n d).
Proof. apply sdiv64_ok. Qed.

(** The remainder routines keep the low 32 bits of the remainder
    only: they are right exactly when the remainder fits in the 32-bit
    return type of umod64. *)
Theorem umoddi3_truncates n d : 0 <= n < 2 ^ 64 -> 0 < d < 2 ^ 64 ->
  __umoddi3 n d = Ok ((n mod d) mod 2 ^ 32) /\ (__umoddi3 n d = Ok (n mod d) <-> n mod d < 2 ^ 32).
Proof.
  intros Hn Hd. unfold __umoddi3, umod64. rewrite udiv64_ok by lia. cbn [mbind outcome_bind].
  rewrite <- Z.mod_eq by lia. pose proof (Z.mod_pos_bound n d ltac:(lia)) as R. rewrite u64_small by lia. split; [done|].
  split; [intros [= E]; pose proof (u32_range (n mod d)); lia|]. intros. by rewrite u32_small by lia.
Qed.

Lemma udivdi3_is_division_witness : __udivdi3 (2 ^ 64 - 1) (2 ^ 33 + 1) = Ok 2147483647.
Proof. rewrite (udivdi3_is_division (2 ^ 64 - 1) (2 ^ 33 + 1)); [reflexivity|lia|lia]. Defined.
Lemma divdi3_is_quotient_witness : __divdi3 (- 2 ^ 63) 3 = Ok (-3074457345618258602).
Proof. rewrite (divdi3_is_quotient (- 2 ^ 63) 3); [reflexivity|lia|lia|lia|lia]. Defined.
Lemma umoddi3_truncates_witness : __umoddi3 (2 ^ 32) (2 ^ 33) = Ok 0 /\ 2 ^ 32 mod 2 ^ 33 <> 0.
Proof. split; [rewrite (proj1 (umoddi3_truncates (2 ^ 32) (2 ^ 33) ltac:(lia) ltac:(lia))); reflexivity|discriminate]. Defined.
