(* ===== verification/CString.v ===== *)
(** * Strings and blocks of memory (src/lib/string.c)

    Every function of string.c over [mem].  Pointers are addresses, a null
    pointer result is [NULL]; a loop that runs to the null terminator has
    the number of mapped bytes as fuel, which is enough for any string
    that lies in memory. *)

From S2P Require Import Prelude Memory.

(** ** Blocks *)

(** [while (size-- > 0) *dst++ = *src++] *)
Fixpoint copy_up (n : nat) (dst src : Z) (m : mem) : outcome mem :=
  match n with
  | O => Ok m
  | S n' => b ← load m src; m ← store m dst b; copy_up n' (dst + 1) (src + 1) m
  end.

(** [while (size-- > 0) *--dst = *--src] *)
Fixpoint copy_down (n : nat) (dst src : Z) (m : mem) : outcome mem :=
  match n with
  | O => Ok m
  | S n' => b ← load m (src - 1); m ← store m (dst - 1) b; copy_down n' (dst - 1) (src - 1) m
  end.

Definition memcpy (m : mem) (dst src size : Z) : outcome (Z * mem) :=
  kassert (negb (dst =? NULL) || (size =? 0)) ≫= fun _ =>
  kassert (negb (src =? NULL) || (size =? 0)) ≫= fun _ =>
  m ← copy_up (Z.to_nat size) dst src m; Ok (dst, m).

(** The local [dst] is what memmove returns, advanced past the copy in the
    first case. *)
Definition memmove (m : mem) (dst src size : Z) : outcome (Z * mem) :=
  kassert (negb (dst =? NULL) || (size =? 0)) ≫= fun _ =>
  kassert (negb (src =? NULL) || (size =? 0)) ≫= fun _ =>
  if dst <? src then
    m ← copy_up (Z.to_nat size) dst src m; Ok (dst + size, m)
  else
    m ← copy_down (Z.to_nat size) (dst + size) (src + size) m; Ok (dst, m).

Fixpoint compare_bytes (n : nat) (m : mem) (a b : Z) : outcome Z :=
  match n with
  | O => Ok 0
  | S n' =>
      x ← load m a; y ← load m b;
      if x =? y then compare_bytes n' m (a + 1) (b + 1) else Ok (if y <? x then 1 else -1)
  end.

Definition memcmp (m : mem) (a b size : Z) : outcome Z :=
  kassert (negb (a =? NULL) || (size =? 0)) ≫= fun _ =>
  kassert (negb (b =? NULL) || (size =? 0)) ≫= fun _ =>
  compare_bytes (Z.to_nat size) m a b.

Fixpoint find_byte (n : nat) (m : mem) (block ch : Z) : outcome Z :=
  match n with
  | O => Ok NULL
  | S n' => b ← load m block; if b =? ch then Ok block else find_byte n' m (block + 1) ch
  end.

Definition memchr (m : mem) (block ch size : Z) : outcome Z :=
  kassert (negb (block =? NULL) || (size =? 0)) ≫= fun _ =>
  find_byte (Z.to_nat size) m block (u8 ch).

Fixpoint fill_bytes (n : nat) (dst value : Z) (m : mem) : outcome mem :=
  match n with
  | O => Ok m
  | S n' => m ← store m dst (u8 value); fill_bytes n' (dst + 1) value m
  end.

Definition memset (m : mem) (dst value size : Z) : outcome (Z * mem) :=
  kassert (negb (dst =? NULL) || (size =? 0)) ≫= fun _ =>
  m ← fill_bytes (Z.to_nat size) dst value m; Ok (dst, m).

(** ** Strings *)

(** [while (go *p) p++]: the first address from [p] on whose byte stops the
    loop.  The common shape of the string loops. *)
Fixpoint scan (fuel : nat) (go : Z -> outcome bool) (m : mem) (p : Z) : outcome Z :=
  match fuel with
  | O => Err Fuel
  | S fuel' =>
      b ← load m p; g ← go b;
      if g : bool then scan fuel' go m (p + 1) else Ok p
  end.

Definition strlen (m : mem) (string : Z) : outcome Z :=
  kassert (negb (string =? NULL)) ≫= fun _ =>
  p ← scan (size m) (fun b => Ok (negb (b =? 0))) m string; Ok (p - string).

Fixpoint strnlen_loop (fuel : nat) (m : mem) (string maxlen length : Z) : outcome Z :=
  match fuel with
  | O => Err Fuel
  | S fuel' =>
      b ← load m (string + length);
      if negb (b =? 0) && (length <? maxlen) then strnlen_loop fuel' m string maxlen (length + 1)
      else Ok length
  end.

Definition strnlen (m : mem) (string maxlen : Z) : outcome Z :=
  strnlen_loop (S (size m)) m string maxlen 0.

Fixpoint strcmp_loop (fuel : nat) (m : mem) (a b : Z) : outcome Z :=
  match fuel with
  | O => Err Fuel
  | S fuel' =>
      x ← load m a; y ← load m b;
      if negb (x =? 0) && (x =? y) then strcmp_loop fuel' m (a + 1) (b + 1)
      else Ok (if x <? y then -1 else Z.b2z (y <? x))
  end.

Definition strcmp (m : mem) (a b : Z) : outcome Z :=
  kassert (negb (a =? NULL)) ≫= fun _ =>
  kassert (negb (b =? NULL)) ≫= fun _ =>
  strcmp_loop (size m) m a b.

(** The loop stops at [c] or at the terminator. *)
Definition strchr (m : mem) (string c : Z) : outcome Z :=
  kassert (negb (string =? NULL)) ≫= fun _ =>
  p ← scan (size m) (fun b => Ok (negb (b =? u8 c) && negb (b =? 0))) m string;
  b ← load m p; Ok (if b =? u8 c then p else NULL).

Definition strcspn (m : mem) (string stop : Z) : outcome Z :=
  p ← scan (size m) (fun b => if b =? 0 then Ok false else q ← strchr m stop b; Ok (q =? NULL)) m string;
  Ok (p - string).

Definition strspn (m : mem) (string skip : Z) : outcome Z :=
  p ← scan (size m) (fun b => if b =? 0 then Ok false else q ← strchr m skip b; Ok (negb (q =? NULL))) m string;
  Ok (p - string).

Definition strpbrk (m : mem) (string stop : Z) : outcome Z :=
  p ← scan (size m) (fun b => if b =? 0 then Ok false else q ← strchr m stop b; Ok (q =? NULL)) m string;
  b ← load m p; Ok (if b =? 0 then NULL else p).

Fixpoint strrchr_loop (fuel : nat) (m : mem) (string c p : Z) : outcome Z :=
  match fuel with
  | O => Err Fuel
  | S fuel' =>
      b ← load m string;
      if b =? 0 then Ok p
      else strrchr_loop fuel' m (string + 1) c (if b =? c then string else p)
  end.

Definition strrchr (m : mem) (string c : Z) : outcome Z :=
  strrchr_loop (size m) m string (u8 c) NULL.

(** [find_range] is the loop over [i <= haystack_len - needle_len]. *)
Definition strstr (m : mem) (haystack needle : Z) : outcome Z :=
  haystack_len ← strlen m haystack;
  needle_len ← strlen m needle;
  if needle_len <=? haystack_len then
    r ← find_range (Z.to_nat (haystack_len - needle_len + 1)) 0
          (fun i => c ← memcmp m (haystack + i) needle needle_len; Ok (c =? 0));
    Ok (match r with Some i => haystack + i | None => NULL end)
  else Ok NULL.

(** If [s] is nonnull, start from it, else from the saved position. *)
Definition tok_start (s save_ptr : Z) : Z := if s =? NULL then save_ptr else s.

(** strtok_r: the token or NULL, the new value of *save_ptr, the memory. *)
Definition strtok_r (m : mem) (s delimiters save_ptr : Z) : outcome (Z * Z * mem) :=
  kassert (negb (delimiters =? NULL)) ≫= fun _ =>
  let s := tok_start s save_ptr in
  kassert (negb (s =? NULL)) ≫= fun _ =>
  s ← scan (size m) (fun b => q ← strchr m delimiters b; Ok (negb (q =? NULL) && negb (b =? 0))) m s;
  b ← load m s;
  if b =? 0 then Ok (NULL, s, m) else
  let token := s in
  s ← scan (size m) (fun b => q ← strchr m delimiters b; Ok (q =? NULL)) m s;
  b ← load m s;
  if negb (b =? 0) then m ← store m s 0; Ok (token, s + 1, m)
  else Ok (token, s, m).

Definition strlcpy (m : mem) (dst src size : Z) : outcome (Z * mem) :=
  kassert (negb (dst =? NULL)) ≫= fun _ =>
  kassert (negb (src =? NULL)) ≫= fun _ =>
  src_len ← strlen m src;
  if 0 <? size then
    let dst_len := if src_len <? size - 1 then src_len else size - 1 in
    r ← memcpy m dst src dst_len;
    m ← store r.2 (dst + dst_len) 0; Ok (src_len, m)
  else Ok (src_len, m).

Definition strlcat (m : mem) (dst src size : Z) : outcome (Z * mem) :=
  kassert (negb (dst =? NULL)) ≫= fun _ =>
  kassert (negb (src =? NULL)) ≫= fun _ =>
  src_len ← strlen m src;
  dst_len ← strlen m dst;
  if (0 <? size) && (dst_len <? size) then
    let copy_cnt := if src_len <? size - dst_len - 1 then src_len else size - dst_len - 1 in
    r ← memcpy m (dst + dst_len) src copy_cnt;
    m ← store r.2 (dst + dst_len + copy_cnt) 0; Ok (src_len + dst_len, m)
  else Ok (src_len + dst_len, m).

(** [n] bytes from [p]. *)
Fixpoint read_bytes (n : nat) (m : mem) (p : Z) : outcome (list Z) :=
  match n with O => Ok [] | S n' => b ← load m p; l ← read_bytes n' m (p + 1); Ok (b :: l) end.

(** ** Copying *)

Lemma copy_up_ok l m dst src :
  bytes_at m src l -> mapped m dst (length l) -> dst <= src \/ src + Z.of_nat (length l) <= dst ->
  copy_up (length l) dst src m = Ok (put m dst l).
Proof.
  revert m dst src. induction l as [|b l IH]; intros m dst src Hb Hm Hd; cbn [length copy_up].
  - by rewrite put_nil.
  - apply bytes_at_cons in Hb as [Hs Hb]. cbn [length] in *.
    rewrite (load_Ok _ _ _ Hs). simpl. rewrite store_Ok by (apply Hm; lia). simpl.
    rewrite IH.
    + by rewrite <- put_cons, <- put_cons, put_nil.
    + apply bytes_at_put_disjoint; [done|]. simpl. lia.
    + apply mapped_put. intros a Ha. apply Hm. lia.
    + lia.
Qed.

Lemma copy_down_ok l m dst src :
  bytes_at m src l -> mapped m dst (length l) -> src <= dst ->
  copy_down (length l) (dst + Z.of_nat (length l)) (src + Z.of_nat (length l)) m = Ok (put m dst l).
Proof.
  revert m. induction l as [|b l IH] using rev_ind; intros m Hb Hm Hd.
  - simpl. by rewrite put_nil.
  - rewrite length_app, Nat.add_1_r in *. cbn [copy_down].
    apply bytes_at_app in Hb as [Hb1 Hb2]. apply bytes_at_cons in Hb2 as [Hb2 _].
    replace (src + Z.of_nat (S (length l)) - 1) with (src + Z.of_nat (length l)) by lia.
    replace (dst + Z.of_nat (S (length l)) - 1) with (dst + Z.of_nat (length l)) by lia.
    rewrite (load_Ok _ _ _ Hb2). simpl. rewrite store_Ok by (apply Hm; lia). simpl.
    rewrite IH; [|apply bytes_at_put_disjoint; [done|]; simpl; lia|
      apply mapped_put; intros a Ha; apply Hm; lia|done].
    f_equal. apply map_eq. intros a. rewrite !lookup_put, length_app. simpl.
    repeat case_decide; try lia; try done.
    + by rewrite lookup_app_l by lia.
    + rewrite lookup_app_r by lia. f_equal. lia.
Qed.

Lemma memcpy_ok l m dst src :
  dst <> NULL -> src <> NULL -> bytes_at m src l -> mapped m dst (length l) ->
  dst <= src \/ src + Z.of_nat (length l) <= dst ->
  memcpy m dst src (Z.of_nat (length l)) = Ok (dst, put m dst l).
Proof.
  intros Hd Hs Hb Hm Hdis. unfold memcpy.
  rewrite !kassert_true by (apply orb_true_iff; left; apply negb_true_iff, Z.eqb_neq; done). simpl.
  by rewrite Nat2Z.id, copy_up_ok.
Qed.

(** Memmove copies the source block to the destination and changes
    nothing else, however the two blocks overlap.  The pointer it returns
    is the destination only when the copy runs downwards. *)
Theorem memmove_copies l m dst src :
  dst <> NULL -> src <> NULL -> bytes_at m src l -> mapped m dst (length l) ->
  memmove m dst src (Z.of_nat (length l)) =
    Ok (if decide (dst < src) then dst + Z.of_nat (length l) else dst, put m dst l).
Proof.
  intros Hd Hs Hb Hm. unfold memmove.
  rewrite !kassert_true by (apply orb_true_iff; left; apply negb_true_iff, Z.eqb_neq; done). simpl.
  rewrite Nat2Z.id. destruct (Z.ltb_spec dst src); case_decide; try lia.
  - by rewrite copy_up_ok by (done || lia).
  - by rewrite copy_down_ok by (done || lia).
Qed.

Lemma memmove_copies_witness :
  memmove (map_seqZ 10 [1; 2; 3; 4; 5]) 11 10 4 = Ok (11, map_seqZ 10 [1; 1; 2; 3; 4]).
Proof.
  change 4 with (Z.of_nat (length [1; 2; 3; 4])) at 2.
  rewrite (memmove_copies [1; 2; 3; 4] (map_seqZ 10 [1; 2; 3; 4; 5]) 11 10).
  - vm_compute. reflexivity.
  - discriminate.
  - discriminate.
  - apply bytes_check_ok. vm_compute. reflexivity.
  - intros a Ha. apply lookup_map_seqZ_is_Some. simpl in *. lia.
Defined.

Lemma memset_ok m dst v n :
  dst <> NULL -> mapped m dst n -> memset m dst v (Z.of_nat n) = Ok (dst, put m dst (replicate n (u8 v))).
Proof.
  intros Hd Hm. unfold memset.
  rewrite kassert_true by (apply orb_true_iff; left; apply negb_true_iff, Z.eqb_neq; done). simpl.
  rewrite Nat2Z.id. clear Hd. enough (fill_bytes n dst v m = Ok (put m dst (replicate n (u8 v)))) as ->; [done|].
  revert m dst Hm. induction n as [|n IH]; intros m dst Hm; cbn [fill_bytes replicate].
  - by rewrite put_nil.
  - rewrite store_Ok by (apply Hm; lia). simpl. rewrite IH.
    + by rewrite <- put_cons, <- put_cons, put_nil.
    + apply mapped_put. intros a Ha. apply Hm. lia.
Qed.

(** ** Scanning *)

Lemma scan_stop fuel go m p l c :
  bytes_at m p (l ++ [c]) -> Forall (fun b => go b = Ok true) l -> go c = Ok false -> (length l < fuel)%nat ->
  scan fuel go m p = Ok (p + Z.of_nat (length l)).
Proof.
  intros Hb Hl Hc. revert fuel p Hb. induction Hl as [|b l Hbl Hl IH]; intros [|fuel] p Hb Hf; simpl in Hf; try lia.
  - cbn [app] in Hb. apply bytes_at_cons in Hb as [Hp _]. cbn [scan].
    rewrite (load_Ok _ _ _ Hp). simpl. rewrite Hc. simpl. f_equal. lia.
  - cbn [app] in Hb. apply bytes_at_cons in Hb as [Hp Hb]. cbn [scan].
    rewrite (load_Ok _ _ _ Hp). simpl. rewrite Hbl. simpl. rewrite IH by (done || lia). f_equal. simpl. lia.
Qed.

Lemma nonnull_assert p : p <> NULL -> kassert (negb (p =? NULL)) = Ok tt.
Proof. intros Hp. apply kassert_true, negb_true_iff, Z.eqb_neq, Hp. Qed.

Lemma text_app s t : text (s ++ t) <-> text s /\ text t.
Proof. apply Forall_app. Qed.

Lemma strlen_ok m p s : p <> NULL -> cstr m p s -> strlen m p = Ok (Z.of_nat (length s)).
Proof.
  intros Hp Hs. unfold strlen. rewrite nonnull_assert by done. simpl.
  rewrite (scan_stop _ _ _ _ s 0); [simpl; f_equal; lia|apply Hs| |done|by eapply cstr_size].
  destruct Hs as [Hs _]. eapply Forall_impl; [|exact Hs]. simpl. intros b [_ Hb].
  by apply Z.eqb_neq in Hb as ->.
Qed.

Lemma strnlen_loop_ok f m p mx s n : cstr m (p + n) s -> n + Z.of_nat (length s) <= mx -> (length s < f)%nat ->
  strnlen_loop f m p mx n = Ok (n + Z.of_nat (length s)).
Proof.
  revert s n. induction f as [|f IH]; intros s n Hs Hm Hf; [lia|]. cbn [strnlen_loop]. destruct s as [|c s].
  - apply cstr_nil in Hs. rewrite (load_Ok _ _ _ Hs). cbn. f_equal. lia.
  - apply cstr_cons in Hs as ([_ Hc] & Hp & Hs). rewrite (load_Ok _ _ _ Hp). cbn [mbind outcome_bind length] in *.
    rewrite (proj2 (Z.eqb_neq c 0)), (proj2 (Z.ltb_lt n mx)) by (done || lia). cbn [negb andb]. rewrite (IH s); [f_equal; lia|by rewrite Z.add_assoc|lia|lia].
Qed.
Lemma strnlen_ok m p s mx : cstr m p s -> Z.of_nat (length s) <= mx -> strnlen m p mx = Ok (Z.of_nat (length s)).
Proof.
  intros Hs Hm. unfold strnlen. pose proof (cstr_size _ _ _ Hs). rewrite (strnlen_loop_ok _ _ _ _ s); [done|by rewrite Z.add_0_r|lia|lia].
Qed.
Lemma read_bytes_ok m p l : bytes_at m p l -> read_bytes (length l) m p = Ok l.
Proof.
  revert p. induction l as [|b l IH]; intros p Hl; [done|]. apply bytes_at_cons in Hl as [Hb Hl]. cbn [length read_bytes].
  rewrite (load_Ok _ _ _ Hb). cbn [mbind outcome_bind]. by rewrite IH.
Qed.

(** The lexicographic order of strings, as -1, 0 or 1. *)
Fixpoint str_order (a b : list Z) : Z :=
  match a, b with
  | [], [] => 0
  | [], _ => -1
  | _, [] => 1
  | x :: a', y :: b' => if x <? y then -1 else if y <? x then 1 else str_order a' b'
  end.

Lemma str_order_eq a b : str_order a b = 0 <-> a = b.
Proof.
  revert b. induction a as [|x a IH]; intros [|y b]; cbn [str_order]; try (split; [lia|done]); [done|].
  destruct (Z.ltb_spec x y); [split; [lia|intros [= -> ->]; lia]|].
  destruct (Z.ltb_spec y x); [split; [lia|intros [= -> ->]; lia]|].
  rewrite IH. split; [intros ->; f_equal; lia|by intros [= _ ->]].
Qed.

Lemma str_order_swap a b : str_order b a = - str_order a b.
Proof.
  revert b. induction a as [|x a IH]; intros [|y b]; cbn [str_order]; try done.
  destruct (Z.ltb_spec x y), (Z.ltb_spec y x); try lia. apply IH.
Qed.

Lemma strcmp_ok m a b s t :
  a <> NULL -> b <> NULL -> cstr m a s -> cstr m b t -> strcmp m a b = Ok (str_order s t).
Proof.
  intros Ha Hb Hs Ht. unfold strcmp. rewrite !nonnull_assert by done. simpl.
  pose proof (cstr_size _ _ _ Hs) as Hf. clear Ha Hb. generalize dependent (size m). intros n.
  revert n a b t Hs Ht. induction s as [|x s IH]; intros [|n] a b t Hs Ht Hf; simpl in Hf; try lia.
  - apply cstr_nil in Hs. cbn [strcmp_loop]. rewrite (load_Ok _ _ _ Hs). simpl.
    destruct t as [|y t].
    + apply cstr_nil in Ht. by rewrite (load_Ok _ _ _ Ht).
    + apply cstr_cons in Ht as ([Hy Hy0] & Ht & _). rewrite (load_Ok _ _ _ Ht). simpl.
      unfold is_byte in Hy. destruct (Z.ltb_spec 0 y); [done|lia].
  - apply cstr_cons in Hs as ([Hx Hx0] & Hp & Hs). cbn [strcmp_loop]. rewrite (load_Ok _ _ _ Hp). simpl.
    unfold is_byte in Hx. destruct t as [|y t].
    + apply cstr_nil in Ht. rewrite (load_Ok _ _ _ Ht). simpl.
      destruct (Z.eqb_spec x 0); [lia|]. simpl. destruct (Z.ltb_spec x 0); [lia|].
      destruct (Z.ltb_spec 0 x); [done|lia].
    + apply cstr_cons in Ht as ([Hy Hy0] & Hq & Ht). rewrite (load_Ok _ _ _ Hq). simpl.
      unfold is_byte in Hy. destruct (Z.eqb_spec x 0); [lia|]. simpl.
      destruct (Z.eqb_spec x y) as [->|Hxy].
      * rewrite Z.ltb_irrefl. by apply IH; [..|lia].
      * destruct (Z.ltb_spec x y); [done|]. destruct (Z.ltb_spec y x); [done|lia].
Qed.

(** Strcmp is the lexicographic comparison of the two strings: 0
    exactly when they are equal, and antisymmetric. *)
Theorem strcmp_lexicographic m a b s t :
  a <> NULL -> b <> NULL -> cstr m a s -> cstr m b t ->
  strcmp m a b = Ok (str_order s t) /\ (strcmp m a b = Ok 0 <-> s = t) /\
  (exists r, strcmp m a b = Ok r /\ strcmp m b a = Ok (- r)).
Proof.
  intros Ha Hb Hs Ht. rewrite (strcmp_ok m a b s t), (strcmp_ok m b a t s) by done. split_and!; [done| |].
  - rewrite <- str_order_eq. split; [by intros [= ->]|by intros ->].
  - eexists. split; [done|]. by rewrite str_order_swap.
Qed.

Definition sample_mem : mem := put (put (map_seqZ 10 [97; 47; 98; 0]) 20 [47; 0]) 30 [97; 98; 0].

Lemma sample_cstr : cstr sample_mem 10 [97; 47; 98] /\ cstr sample_mem 20 [47] /\ cstr sample_mem 30 [97; 98].
Proof. split_and!; apply cstr_check_ok; vm_compute; reflexivity. Qed.

Lemma strcmp_lexicographic_witness : strcmp sample_mem 10 30 = Ok (-1).
Proof.
  destruct sample_cstr as (H1 & _ & H3).
  destruct (strcmp_lexicographic sample_mem 10 30 _ _ ltac:(discriminate) ltac:(discriminate) H1 H3) as [Hc _].
  exact Hc.
Defined.

(** ** Searching *)

Lemma strchr_ok m p c d :
  p <> NULL -> 0 < p -> cstr m p d -> is_byte c ->
  exists q, strchr m p c = Ok q /\ (q = NULL <-> c <> 0 /\ c ∉ d).
Proof.
  intros Hp Hp0 Hd Hc. unfold strchr. rewrite nonnull_assert by done. simpl.
  rewrite u8_small by (unfold is_byte in Hc; lia).
  assert (exists l b, b ∈ d ++ [0] /\ bytes_at m p (l ++ [b]) /\ (length l < size m)%nat /\
    Forall (fun b => negb (b =? c) && negb (b =? 0) = true) l /\ negb (b =? c) && negb (b =? 0) = false /\
    (b = c <-> c = 0 \/ c ∈ d)) as (l & b & Hin & Hb & Hl & Hgo & Hstop & Hbc).
  { pose proof (cstr_size _ _ _ Hd) as Hsz. destruct Hd as [Ht Hb].
    destruct (decide (c ∈ d)) as [Hcd|Hcd].
    - apply list_elem_of_split_l in Hcd as (d1 & d2 & -> & Hn).
      exists d1, c. apply text_app in Ht as [Ht _]. rewrite length_app in Hsz.
      rewrite <- app_assoc in Hb. cbn [app] in Hb. rewrite cons_middle, app_assoc in Hb.
      apply bytes_at_app in Hb as [Hb _]. split_and!; [set_solver|done|lia| | |].
      + apply list.Forall_forall. intros b Hin.
        pose proof (proj1 (list.Forall_forall _ _) Ht b Hin) as [_ Hb0]. 
        destruct (Z.eqb_spec b c) as [->|]; [done|]. by destruct (Z.eqb_spec b 0).
      + by rewrite Z.eqb_refl.
      + set_solver.
    - exists d, 0. split_and!; [set_solver|done|done| | |].
      + apply list.Forall_forall. intros b Hin.
        pose proof (proj1 (list.Forall_forall _ _) Ht b Hin) as [_ Hb0].
        destruct (Z.eqb_spec b c) as [->|]; [done|]. by destruct (Z.eqb_spec b 0).
      + by rewrite andb_false_r.
      + split; [intros; by left|]. intros [|]; done. }
  rewrite (scan_stop _ _ _ _ l b); [|done| | |done].
  - simpl. apply bytes_at_app in Hb as [_ Hb]. apply bytes_at_cons in Hb as [Hb _].
    rewrite (load_Ok _ _ _ Hb). simpl. eexists. split; [done|].
    unfold NULL in *. destruct (Z.eqb_spec b c); split; intros; naive_solver lia.
  - eapply Forall_impl; [|exact Hgo]. simpl. intros ? Hx. by rewrite Hx.
  - simpl. by rewrite Hstop.
Qed.

(** ** Tokens *)

(** The maximal runs of non-delimiters of [s]. *)
Section tokens.
Context (d : list Z).

(** The next character continues the token. *)
Definition continues (s : list Z) : bool :=
  match s with [] => false | c :: _ => bool_decide (c ∉ d) end.

Fixpoint tokens (s : list Z) : list (list Z) :=
  match s with
  | [] => []
  | c :: s' =>
      if bool_decide (c ∈ d) then tokens s'
      else match tokens s' with
           | t :: ts => if continues s' then (c :: t) :: ts else [c] :: t :: ts
           | [] => [[c]]
           end
  end.

Lemma tokens_skip l s : Forall (.∈ d) l -> tokens (l ++ s) = tokens s.
Proof. induction 1 as [|c l Hc Hl IH]; [done|]. cbn [app tokens]. by rewrite bool_decide_eq_true_2. Qed.

Lemma tokens_word t s :
  t <> [] -> Forall (.∉ d) t -> continues s = false -> tokens (t ++ s) = t :: tokens s.
Proof.
  intros Hne Ht Hs. induction Ht as [|c t Hc Ht IH]; [done|].
  cbn [app tokens]. rewrite bool_decide_eq_false_2 by done. destruct t as [|c' t].
  - simpl. rewrite Hs. by destruct (tokens s).
  - rewrite IH by done. cbn [app continues]. apply Forall_cons_1 in Ht as [Hc' _]. by rewrite bool_decide_eq_true_2.
Qed.

Lemma split_while (P : Z -> Prop) `{forall c, Decision (P c)} l :
  exists a b, l = a ++ b /\ Forall P a /\ match b with [] => True | c :: _ => ~ P c end.
Proof.
  induction l as [|c l (a & b & -> & Ha & Hb)]; [by exists [], []|].
  destruct (decide (P c)) as [Hc|Hc].
  - exists (c :: a), b. split_and!; [done|by constructor|done].
  - exists [], (c :: a ++ b). done.
Qed.
End tokens.

(** Scanning with strchr as the test. *)
Section delimiters.
Context (m : mem) (q : Z) (d : list Z) (Hq : 0 < q) (Hd : cstr m q d).

Lemma scan_strchr f go p l c :
  (forall b r, strchr m q b = Ok r -> f b = Ok (go b (negb (r =? NULL)))) ->
  bytes_at m p (l ++ [c]) -> Forall is_byte (l ++ [c]) -> (length l < size m)%nat ->
  Forall (fun b => go b (bool_decide (b = 0 \/ b ∈ d)) = true) l -> go c (bool_decide (c = 0 \/ c ∈ d)) = false ->
  scan (size m) f m p = Ok (p + Z.of_nat (length l)).
Proof.
  intros Hf Hb Hby Hl Hgo Hc.
  assert (forall b, is_byte b -> f b = Ok (go b (bool_decide (b = 0 \/ b ∈ d)))) as Hr.
  { intros b Hbb. destruct (strchr_ok m q b d) as (r & Hr & Hn); [unfold NULL; lia|done..|].
    rewrite (Hf b r Hr). do 2 f_equal. destruct (Z.eqb_spec r NULL) as [E|E]; simpl; symmetry.
    - apply bool_decide_eq_false. tauto.
    - apply bool_decide_eq_true. destruct (decide (b = 0)); [by left|]. right. destruct (decide (b ∈ d)); tauto. }
  apply Forall_app in Hby as [Hbl Hbc]. apply Forall_cons_1 in Hbc as [Hbc _].
  apply (scan_stop _ _ _ _ l c); [done| | |done].
  - apply list.Forall_forall. intros b Hin. rewrite Hr by (by eapply (proj1 (list.Forall_forall _ _) Hbl)).
    f_equal. by apply (proj1 (list.Forall_forall _ _) Hgo).
  - rewrite Hr by done. by rewrite Hc.
Qed.

Lemma text_bytes l : text l -> Forall is_byte l.
Proof. apply Forall_impl. by intros ? []. Qed.

Lemma skip_delimiters p l c :
  bytes_at m p (l ++ [c]) -> text l -> is_byte c -> (length l < size m)%nat ->
  Forall (.∈ d) l -> c = 0 \/ c ∉ d ->
  scan (size m) (fun b => r ← strchr m q b; Ok (negb (r =? NULL) && negb (b =? 0))) m p = Ok (p + Z.of_nat (length l)).
Proof.
  intros Hb Ht Hc Hl Hin Hcd.
  apply (scan_strchr _ (fun b f => f && negb (b =? 0)) p l c); [by intros b r ->|done| |done| |].
  - apply Forall_app. split; [by apply text_bytes|by apply Forall_singleton].
  - apply list.Forall_forall. intros b Hbl.
    pose proof (proj1 (list.Forall_forall _ _) Hin b Hbl). destruct (proj1 (list.Forall_forall _ _) Ht b Hbl).
    rewrite bool_decide_eq_true_2 by auto. by destruct (Z.eqb_spec b 0).
  - destruct (Z.eqb_spec c 0); [by rewrite andb_false_r|]. rewrite bool_decide_eq_false_2 by tauto. done.
Qed.

Lemma skip_token p l c :
  bytes_at m p (l ++ [c]) -> text l -> is_byte c -> (length l < size m)%nat ->
  Forall (.∉ d) l -> c = 0 \/ c ∈ d ->
  scan (size m) (fun b => r ← strchr m q b; Ok (r =? NULL)) m p = Ok (p + Z.of_nat (length l)).
Proof.
  intros Hb Ht Hc Hl Hin Hcd.
  apply (scan_strchr _ (fun b f => negb f) p l c); [intros b r ->; simpl; by rewrite negb_involutive|done| |done| |].
  - apply Forall_app. split; [by apply text_bytes|by apply Forall_singleton].
  - apply list.Forall_forall. intros b Hbl.
    pose proof (proj1 (list.Forall_forall _ _) Hin b Hbl). destruct (proj1 (list.Forall_forall _ _) Ht b Hbl).
    rewrite bool_decide_eq_false_2 by (by intros [|]). done.
  - by rewrite bool_decide_eq_true_2.
Qed.
End delimiters.

(** With no token left strtok_r returns NULL and leaves memory alone. *)
Lemma strtok_none m s save q d str :
  0 < tok_start s save -> 0 < q -> cstr m q d -> cstr m (tok_start s save) str -> Forall (.∈ d) str ->
  strtok_r m s q save = Ok (NULL, tok_start s save + Z.of_nat (length str), m).
Proof.
  intros Hp Hq Hd Hs Hl. pose proof (cstr_size _ _ _ Hs). destruct Hs as [Ht Hb].
  unfold strtok_r. rewrite nonnull_assert by (unfold NULL; lia); cbn [mbind outcome_bind].
  rewrite nonnull_assert by (unfold NULL; lia); cbn [mbind outcome_bind].
  rewrite (skip_delimiters m q d Hq Hd _ str 0); [|done|done|unfold is_byte; lia|done|done|by left].
  simpl. apply bytes_at_app in Hb as [_ Hb]. apply bytes_at_cons in Hb as [Hb _].
  by rewrite (load_Ok _ _ _ Hb).
Qed.

(** Otherwise it cuts the first token out of the string; the rest of the
    string is where *save_ptr points. *)
Lemma strtok_some m s save q d l t rest :
  let p := tok_start s save in let tok := p + Z.of_nat (length l) in
  0 < p -> 0 < q -> cstr m q d -> cstr m p (l ++ t ++ rest) ->
  Forall (.∈ d) l -> t <> [] -> Forall (.∉ d) t -> continues d rest = false ->
  let cut := tok + Z.of_nat (length t) in
  exists m', cstr m' tok t /\ cstr m' (cut + Z.of_nat (length (take 1 rest))) (drop 1 rest) /\
    strtok_r m s q save = Ok (tok, cut + Z.of_nat (length (take 1 rest)), m') /\
    (m' = m \/ m' = put m cut [0] /\ rest <> []).
Proof.
  intros p tok Hp Hq Hd Hs Hl Hne Ht Hrest cut.
  pose proof (cstr_size _ _ _ Hs) as Hsz. rewrite !length_app in Hsz. destruct Hs as [Htx Hb].
  apply text_app in Htx as [Htl Htx]. apply text_app in Htx as [Htt Htr].
  rewrite <- !app_assoc in Hb. pose proof Hb as Hb1. apply bytes_at_app in Hb as [Hbl Hb]. fold tok in Hb.
  assert (exists x t', t = x :: t' /\ is_byte x /\ x <> 0 /\ x ∉ d) as (x & t' & Et & Hxb & Hx0 & Hxd).
  { destruct t as [|x t']; [done|]. apply Forall_cons_1 in Htt as [[] _]. apply Forall_cons_1 in Ht as [? _]. eauto 8. }
  assert (exists c r, rest ++ [0] = c :: r /\ is_byte c /\ (c = 0 \/ c ∈ d)) as (c & r & Hc & Hcb & Hcd).
  { destruct rest as [|c rest]; [exists 0, []; split_and!; [done|unfold is_byte; lia|by left]|].
    exists c, (rest ++ [0]). apply Forall_cons_1 in Htr as [[] _]. apply bool_decide_eq_false, dec_stable in Hrest. auto. }
  assert (Hcut : m !! cut = Some c).
  { rewrite Hc in Hb. apply bytes_at_app in Hb as [_ Hb]. by apply bytes_at_cons in Hb as [Hb _]. }
  assert (Hrun : strtok_r m s q save = if negb (c =? 0) then m ← store m cut 0; Ok (tok, cut + 1, m) else Ok (tok, cut, m)).
  { unfold strtok_r. rewrite nonnull_assert by (unfold NULL; lia); cbn [mbind outcome_bind].
    fold p. rewrite nonnull_assert by (unfold NULL; lia); cbn [mbind outcome_bind].
    rewrite (skip_delimiters m q d Hq Hd _ l x); [|rewrite Et in Hb1; cbn [app] in Hb1;
      rewrite cons_middle, app_assoc in Hb1; by apply bytes_at_app in Hb1 as [? _]|done|done|lia|done|by right].
    cbn [mbind outcome_bind]. fold tok. pose proof Hb as Hbx. rewrite Et in Hbx. cbn [app] in Hbx.
    apply bytes_at_cons in Hbx as [Hbx _]. rewrite (load_Ok _ _ _ Hbx). cbn [mbind outcome_bind].
    destruct (Z.eqb_spec x 0); [done|].
    rewrite (skip_token m q d Hq Hd _ t c); [|rewrite Hc, cons_middle, app_assoc in Hb; by apply bytes_at_app in Hb as [? _]|done|done|lia|done|done].
    cbn [mbind outcome_bind]. fold cut. by rewrite (load_Ok _ _ _ Hcut). }
  rewrite Hrun. pose proof Hb as Hbt. apply bytes_at_app in Hbt as [Hbt Hbr]. fold cut in Hbr.
  destruct rest as [|c' rest]; cbn [app] in Hc; injection Hc as <- <-.
  - exists m. simpl. rewrite Z.add_0_r. split_and!; [|by apply cstr_nil|done|by left].
    split; [done|]. apply bytes_at_app. split; [done|]. exact Hbr.
  - exists (put m cut [0]). apply Forall_cons_1 in Htr as [[_ Hc0] Htr].
    destruct (Z.eqb_spec c' 0); [done|]. cbn [negb]. rewrite store_Ok by eauto. cbn [mbind outcome_bind take drop length].
    split_and!; [|split; [done|]|done|by right].
    + split; [done|]. apply bytes_at_app. split; [|apply bytes_at_put].
      apply bytes_at_put_disjoint; [done|]. fold cut. lia.
    + apply bytes_at_cons in Hbr as [_ Hbr]. apply bytes_at_put_disjoint; [done|]. simpl. lia.
Qed.

(** The loop of the usage comment of strtok_r: the pointers to all tokens
    and the final memory. *)
Fixpoint tokenize (fuel : nat) (m : mem) (s delimiters save_ptr : Z) : outcome (list Z * mem) :=
  match fuel with
  | O => Err Fuel
  | S fuel' =>
      r ← strtok_r m s delimiters save_ptr;
      let '(token, save_ptr, m) := r in
      if token =? NULL then Ok ([], m)
      else r ← tokenize fuel' m NULL delimiters save_ptr; Ok (token :: r.1, r.2)
  end.

Lemma tokenize_step fuel m s q save :
  tokenize (S fuel) m s q save =
    (r ← strtok_r m s q save;
     let '(token, save, m) := r in
     if token =? NULL then Ok ([], m)
     else r ← tokenize fuel m NULL q save; Ok (token :: r.1, r.2)).
Proof. done. Qed.

Lemma tokens_rest d rest : continues d rest = false -> tokens d (drop 1 rest) = tokens d rest.
Proof.
  destruct rest as [|c rest]; [done|]. simpl. intros Hc%bool_decide_eq_false%dec_stable.
  by rewrite bool_decide_eq_true_2.
Qed.

(** The shape of a string seen by strtok_r. *)
Lemma tokens_cases d str :
  (tokens d str = [] /\ Forall (.∈ d) str) \/
  exists l t rest, str = l ++ t ++ rest /\ Forall (.∈ d) l /\ t <> [] /\ Forall (.∉ d) t /\
    continues d rest = false /\ tokens d str = t :: tokens d rest.
Proof.
  destruct (split_while (.∈ d) str) as (l & r1 & -> & Hl & Hr1).
  destruct (split_while (.∉ d) r1) as (t & rest & -> & Ht & Hrest).
  assert (continues d rest = false) as Hc.
  { destruct rest as [|c rest]; [done|]. by apply bool_decide_eq_false. }
  destruct t as [|x t].
  - left. destruct rest as [|c rest]; [|exfalso; cbn in Hr1, Hrest; tauto].
    rewrite tokens_skip by done. rewrite !app_nil_r. done.
  - right. exists l, (x :: t), rest. split_and!; try done. rewrite tokens_skip by done. by apply tokens_word.
Qed.

Lemma tokenize_ok m s save q d str :
  let p := tok_start s save in
  0 < p -> 0 < q -> cstr m q d -> cstr m p str ->
  q + Z.of_nat (length d) < p \/ p + Z.of_nat (length str) < q ->
  exists ps m', tokenize (S (length (tokens d str))) m s q save = Ok (ps, m') /\
    Forall2 (cstr m') ps (tokens d str) /\
    (forall a, ~ (p <= a < p + Z.of_nat (length str)) -> m' !! a = m !! a).
Proof.
  intros p Hp Hq Hd Hs Hdis. remember (length (tokens d str)) as n eqn:Hn.
  revert m s save str p Hp Hd Hs Hdis Hn. induction n as [|n IH]; intros m s save str p Hp Hd Hs Hdis Hn.
  - destruct (tokens_cases d str) as [[Ht Hl]|(l & t & rest & _ & _ & _ & _ & _ & Ht)]; [|by rewrite Ht in Hn].
    exists [], m. cbn [tokenize]. rewrite (strtok_none m s save q d str) by done. rewrite Ht. done.
  - destruct (tokens_cases d str) as [[Ht Hl]|(l & t & rest & -> & Hl & Hne & Htd & Hc & Ht)]; [by rewrite Ht in Hn|].
    rewrite Ht in Hn |- *. injection Hn as Hn.
    destruct (strtok_some m s save q d l t rest Hp Hq Hd Hs Hl Hne Htd Hc) as (m1 & Htok & Hrest & Hrun & Hm1).
    fold p in Htok, Hrest, Hrun, Hm1. rewrite tokenize_step, Hrun. cbn [mbind outcome_bind].
    set (cut := p + Z.of_nat (length l) + Z.of_nat (length t)) in *.
    set (save' := cut + Z.of_nat (length (take 1 rest))) in *. rewrite !length_app in Hdis.
    assert (length t <> 0%nat) by (by destruct t). destruct (Z.eqb_spec (p + Z.of_nat (length l)) NULL); [unfold NULL in *; lia|].
    assert (length rest = length (take 1 rest) + length (drop 1 rest))%nat as Hlr by (by rewrite <- length_app, take_drop).
    assert (forall a, ~ (p <= a < p + Z.of_nat (length (l ++ t ++ rest))) -> m1 !! a = m !! a) as Hf.
    { intros a Ha. rewrite !length_app in Ha. destruct Hm1 as [->|[-> Hr0]]; [done|]. rewrite lookup_put, decide_False; [done|].
      assert (length rest <> 0%nat) by (by destruct rest). simpl. unfold cut. lia. }
    destruct (IH m1 NULL save' (drop 1 rest)) as (ps & m' & Htz & Hps & Hfr).
    + change (0 < save'). unfold save', cut. lia.
    + eapply cstr_frame; [exact Hd|]. intros a Ha. apply Hf. rewrite !length_app. lia.
    + exact Hrest.
    + change (tok_start NULL save') with save'. unfold save', cut. lia.
    + by rewrite tokens_rest.
    + change (tok_start NULL save') with save' in Hfr. rewrite Htz. cbn [mbind outcome_bind fst snd].
      exists (p + Z.of_nat (length l) :: ps), m'. split; [done|]. rewrite tokens_rest in Hps by done. split.
      * constructor; [|done]. eapply cstr_frame; [exact Htok|]. intros a Ha. apply Hfr.
        intros Hin. fold cut in Ha. destruct rest as [|c rest]; [simpl in *; lia|]. unfold save' in Hin. simpl in Hin. lia.
      * intros a Ha. rewrite Hfr, Hf; [done|done|]. rewrite !length_app in Ha. unfold save', cut. lia.
Qed.

(** Repeated calls of strtok_r return exactly the maximal runs of
    non-delimiters, in order; in the final memory every returned pointer
    still holds its token, and nothing outside the string changed. *)
Theorem strtok_r_tokens m s q d str save :
  0 < s -> 0 < q -> cstr m q d -> cstr m s str ->
  q + Z.of_nat (length d) < s \/ s + Z.of_nat (length str) < q ->
  exists ps m', tokenize (S (length (tokens d str))) m s q save = Ok (ps, m') /\
    Forall2 (cstr m') ps (tokens d str) /\
    (forall a, ~ (s <= a < s + Z.of_nat (length str)) -> m' !! a = m !! a).
Proof.
  intros Hs. pose proof (tokenize_ok m s save q d str) as Hok.
  assert (tok_start s save = s) as Ep by (unfold tok_start, NULL; destruct (Z.eqb_spec s 0); lia).
  cbv zeta in Hok. rewrite Ep in Hok. by apply Hok.
Qed.

Lemma strtok_r_tokens_witness :
  exists ps m', tokenize 3 sample_mem 10 20 0 = Ok (ps, m') /\ Forall2 (cstr m') ps [[97]; [98]].
Proof.
  destruct sample_cstr as (H1 & H2 & _).
  destruct (strtok_r_tokens sample_mem 10 20 [47] [97; 47; 98] 0 ltac:(lia) ltac:(lia) H2 H1 ltac:(simpl; lia))
    as (ps & m' & Hrun & Hps & _).
  exists ps, m'. split; [exact Hrun|exact Hps].
Defined.

(** ** Bounded copies *)

Lemma strlcpy_ok m dst src s size :
  0 < dst -> 0 < src -> cstr m src s -> 0 < size -> mapped m dst (Z.to_nat size) ->
  src + Z.of_nat (length s) < dst \/ dst + size <= src ->
  let t := take (Z.to_nat (size - 1)) s in
  strlcpy m dst src size = Ok (Z.of_nat (length s), put m dst (t ++ [0])) /\ cstr (put m dst (t ++ [0])) dst t /\
  (t = s <-> Z.of_nat (length s) < size).
Proof.
  intros Hd Hs Hc Hn Hm Hdis t. split_and!.
  - unfold strlcpy. rewrite !nonnull_assert by (unfold NULL; lia). simpl.
    rewrite (strlen_ok _ _ s) by (done || unfold NULL; lia). simpl.
    destruct (Z.ltb_spec 0 size); [|lia].
    assert ((if Z.of_nat (length s) <? size - 1 then Z.of_nat (length s) else size - 1) = Z.of_nat (length t)) as ->.
    { unfold t. rewrite length_take. destruct (Z.ltb_spec (Z.of_nat (length s)) (size - 1)); lia. }
    assert ((length t <= length s)%nat /\ Z.of_nat (length t) < size) as [Hl1 Hl2] by (unfold t; rewrite length_take; lia).
    rewrite memcpy_ok; [|unfold NULL; lia..| | |lia].
    + simpl. rewrite store_Ok by (apply (mapped_put _ _ _ _ _ Hm); lia). simpl. by rewrite put_app.
    + pose proof (cstr_bytes _ _ _ Hc) as Hb. rewrite <- (take_drop (Z.to_nat (size - 1)) s) in Hb.
      by apply bytes_at_app in Hb as [Hb _].
    + intros a Ha. apply Hm. lia.
  - split; [|apply bytes_at_put]. destruct Hc as [Ht _]. by apply Forall_take.
  - unfold t. split; [intros Ht; apply (f_equal length) in Ht; rewrite length_take in Ht; lia|].
    intros Hl. apply take_ge. lia.
Qed.

(** Strlcpy stores as much of the source as fits in [size] bytes with
    the terminator, changes nothing else, and returns the source's full
    length, so that truncation can be detected. *)
Theorem strlcpy_truncates m dst src s size :
  0 < dst -> 0 < src -> cstr m src s -> 0 < size -> mapped m dst (Z.to_nat size) ->
  src + Z.of_nat (length s) < dst \/ dst + size <= src ->
  let t := take (Z.to_nat (size - 1)) s in
  strlcpy m dst src size = Ok (Z.of_nat (length s), put m dst (t ++ [0])) /\ cstr (put m dst (t ++ [0])) dst t /\
  (t = s <-> Z.of_nat (length s) < size).
Proof. apply strlcpy_ok. Qed.

Lemma strlcpy_truncates_witness :
  strlcpy (put sample_mem 50 [9; 9; 9]) 50 10 2 = Ok (3, put (put sample_mem 50 [9; 9; 9]) 50 [97; 0]).
Proof.
  assert (cstr (put sample_mem 50 [9; 9; 9]) 10 [97; 47; 98]) as Hc by (apply cstr_check_ok; vm_compute; reflexivity).
  destruct (strlcpy_truncates (put sample_mem 50 [9; 9; 9]) 50 10 [97; 47; 98] 2 ltac:(lia) ltac:(lia) Hc ltac:(lia)) as [Hr _].
  - intros a Ha. rewrite lookup_put. simpl in *. rewrite decide_True by lia. apply lookup_lt_is_Some_2. simpl. lia.
  - simpl. lia.
  - exact Hr.
Defined.

Lemma compare_bytes_ok n m a b l l' :
  bytes_at m a l -> bytes_at m b l' -> length l = n -> length l' = n ->
  exists r, compare_bytes n m a b = Ok r /\ (r = 0 <-> l = l').
Proof.
  revert a b l l'. induction n as [|n IH]; intros a b [|x l] [|y l'] Hl Hl' En En'; try done; cbn [compare_bytes].
  - by exists 0.
  - apply bytes_at_cons in Hl as [Hx Hl]. apply bytes_at_cons in Hl' as [Hy Hl'].
    rewrite (load_Ok _ _ _ Hx), (load_Ok _ _ _ Hy). simpl. destruct (Z.eqb_spec x y) as [->|Hne].
    + destruct (IH (a + 1) (b + 1) l l') as (r & -> & Hr); [done|done|simpl in *; lia|simpl in *; lia|].
      exists r. split; [done|]. rewrite Hr. split; [by intros ->|by intros [= ->]].
    + eexists. split; [done|]. split; [case_match; lia|naive_solver].
Qed.

(** Strstr returns the first position at which the needle occurs in
    the haystack, and NULL exactly when it does not occur. *)
Theorem strstr_first m haystack needle s t :
  0 < haystack -> 0 < needle -> cstr m haystack s -> cstr m needle t ->
  exists r, strstr m haystack needle = Ok r /\
    ((r = NULL /\ forall k, (k + length t <= length s)%nat -> window s k (length t) <> t) \/
     exists k, r = haystack + Z.of_nat k /\ (k + length t <= length s)%nat /\ window s k (length t) = t /\
       forall j, (j < k)%nat -> window s j (length t) <> t).
Proof.
  intros Hh Hn Hs Ht. unfold strstr.
  rewrite (strlen_ok _ haystack s), (strlen_ok _ needle t) by (done || unfold NULL; lia). simpl.
  destruct (Z.leb_spec (Z.of_nat (length t)) (Z.of_nat (length s))) as [Hle|Hle].
  2: { eexists. split; [done|]. left. split; [done|]. intros k Hk. lia. }
  set (n := Z.to_nat _).
  destruct (find_range_spec (fun i => window s (Z.to_nat i) (length t) = t) n 0
    (fun i => c ← memcmp m (haystack + i) needle (Z.of_nat (length t)); Ok (c =? 0))) as [(j & -> & Hj & HP & Hmin)|[-> Hno]].
  - intros k Hk. unfold memcmp.
    rewrite !kassert_true by (apply orb_true_iff; left; apply negb_true_iff, Z.eqb_neq; unfold NULL; lia). simpl.
    rewrite Nat2Z.id.
    destruct (compare_bytes_ok (length t) m (haystack + k) needle (window s (Z.to_nat k) (length t)) t) as (r & -> & Hr).
    + pose proof (cstr_bytes _ _ _ Hs) as Hb. rewrite <- (take_drop (Z.to_nat k) s) in Hb.
      apply bytes_at_app in Hb as [_ Hb]. rewrite length_take in Hb.
      replace (haystack + Z.of_nat (Z.to_nat k `min` length s)) with (haystack + k) in Hb by lia.
      rewrite <- (take_drop (length t) (drop _ s)) in Hb. by apply bytes_at_app in Hb as [Hb _].
    + by apply cstr_bytes.
    + apply length_window. lia.
    + done.
    + simpl. eexists. split; [done|]. by rewrite Z.eqb_eq.
  - simpl. eexists. split; [done|]. right. exists (Z.to_nat j). split_and!; [f_equal; lia|lia|done|].
    intros i Hi. specialize (Hmin (Z.of_nat i) ltac:(lia)). by rewrite Nat2Z.id in Hmin.
  - simpl. eexists. split; [done|]. left. split; [done|]. intros k Hk.
    specialize (Hno (Z.of_nat k) ltac:(lia)). by rewrite Nat2Z.id in Hno.
Qed.

Lemma strstr_first_witness : strstr (put sample_mem 60 [98; 0]) 10 60 = Ok 12.
Proof.
  assert (cstr (put sample_mem 60 [98; 0]) 10 [97; 47; 98]) as H1 by (apply cstr_check_ok; vm_compute; reflexivity).
  assert (cstr (put sample_mem 60 [98; 0]) 60 [98]) as H2 by (apply cstr_check_ok; vm_compute; reflexivity).
  destruct (strstr_first (put sample_mem 60 [98; 0]) 10 60 _ _ ltac:(lia) ltac:(lia) H1 H2) as (r & Hr & _).
  rewrite Hr. vm_compute in Hr. symmetry. exact Hr.
Defined.
