(* ===== verification/Random.v ===== *)
(** * Pseudo-random bytes (src/lib/random.c)

    The RC4 generator: its static state as a record, the array [s] as a
    list of 256 bytes.  The indices are [uint8_t] and wrap modulo 256. *)

From S2P Require Import Prelude Memory.

Record prng := mkprng { s : list Z; s_i : Z; s_j : Z; inited : bool }.

(** The statics before any call: zeroed. *)
Definition prng_bss : prng := mkprng (replicate 256 0) 0 0 false.

(** The pointers are [s + a] and [s + b], possibly equal. *)
Definition swap_byte (l : list Z) (a b : Z) : outcome (list Z) :=
  t ← zget l a; x ← zget l b; l ← zset l a x; zset l b t.

(** [seedp] points to the little-endian bytes of [seed]. *)
Definition random_init (seed : Z) (r : prng) : outcome prng :=
  l ← for_range 256 0 (fun i l => zset l i (u8 i)) (s r);
  let seedp := le_bytes 4 seed in
  '(l, _) ← for_range 256 0 (fun i '(l, j) =>
      x ← zget l i; y ← zget seedp (i mod 4);
      let j := u8 (j + (x + y)) in
      l ← swap_byte l i j; Ok (l, j)) (l, 0);
  Ok (mkprng l 0 0 true).

(** One turn of the loop of [random_bytes]: the byte and the next state. *)
Definition random_step (r : prng) : outcome (Z * prng) :=
  let i := u8 (s_i r + 1) in
  x ← zget (s r) i;
  let j := u8 (s_j r + x) in
  l ← swap_byte (s r) i j;
  x ← zget l i; y ← zget l j;
  b ← zget l (u8 (x + y));
  Ok (b, mkprng l i j (inited r)).

(** [for (buf = buf_; size-- > 0; buf++) ...] *)
Fixpoint random_loop (n : nat) (buf : Z) (m : mem) (r : prng) : outcome (mem * prng) :=
  match n with
  | O => Ok (m, r)
  | S n' => '(b, r) ← random_step r; m ← store m buf b; random_loop n' (buf + 1) m r
  end.

Definition random_bytes (m : mem) (buf_ size : Z) (r : prng) : outcome (mem * prng) :=
  r ← (if inited r then Ok r else random_init 0 r);
  random_loop (Z.to_nat size) buf_ m r.

(** The local [ul] is four bytes of its own, at an address that does not
    matter. *)
Definition random_ulong (r : prng) : outcome (Z * prng) :=
  '(m, r) ← random_bytes (map_seqZ 1 (replicate 4 0)) 1 4 r;
  b0 ← load m 1; b1 ← load m 2; b2 ← load m 3; b3 ← load m 4;
  Ok (le_value [b0; b1; b2; b3], r).

(** ** The state is a permutation of the bytes *)

Definition shuffled (l : list Z) : Prop := l ≡ₚ seqZ 0 256.

(** What every call leaves behind, and what the statics satisfy at the
    start. *)
Definition prng_ok (r : prng) : Prop :=
  length (s r) = 256%nat /\
  (inited r = true -> shuffled (s r) /\ is_byte (s_i r) /\ is_byte (s_j r)).

Lemma prng_bss_ok : prng_ok prng_bss.
Proof. done. Qed.

Lemma shuffled_length l : shuffled l -> length l = 256%nat.
Proof. intros Hl. by rewrite (Permutation_length Hl), length_seqZ. Qed.

Lemma zget_shuffled l i : shuffled l -> is_byte i -> exists b, zget l i = Ok b /\ is_byte b.
Proof.
  intros Hl Hi. pose proof (shuffled_length l Hl) as Hn. unfold is_byte in *.
  exists (znth 0 l i). split; [apply zget_znth; lia|].
  assert (znth 0 l i ∈ l) as Hin.
  { eapply list_elem_of_lookup_2, znth_lookup. lia. }
  apply (elem_of_Permutation_proper _ _ _ Hl), elem_of_seqZ in Hin. lia.
Qed.

Lemma swap_byte_ok l a b :
  0 <= a < Z.of_nat (length l) -> 0 <= b < Z.of_nat (length l) ->
  swap_byte l a b = Ok (swap_at l (Z.to_nat a) (Z.to_nat b)).
Proof.
  intros Ha Hb. unfold swap_byte, swap_at.
  rewrite !(zget_znth 0), !(znth_lookup 0) by done. simpl.
  rewrite zset_Ok by done. simpl. by rewrite zset_Ok by (rewrite length_insert; lia).
Qed.

Lemma swap_byte_shuffled l a b :
  shuffled l -> is_byte a -> is_byte b -> exists l', swap_byte l a b = Ok l' /\ shuffled l'.
Proof.
  intros Hl Ha Hb. pose proof (shuffled_length l Hl). unfold is_byte in *.
  rewrite swap_byte_ok by lia. eexists. split; [done|].
  unfold shuffled in *. rewrite <- Hl. apply swap_at_Permutation; lia.
Qed.

(** The first loop: the identity permutation, whatever was there. *)
Lemma identity_ok l :
  length l = 256%nat -> for_range 256 0 (fun i l => zset l i (u8 i)) l = Ok (seqZ 0 256).
Proof.
  intros Hl.
  destruct (for_range_inv (fun k l => length l = 256%nat /\
      forall i, (Z.of_nat i < k) -> l !! i = Some (Z.of_nat i)) 256 0
      (fun i l => zset l i (u8 i)) l) as (l' & Hr & Hn & Hi).
  - split; [done|]. intros i Hi. lia.
  - intros k l1 Hk [Hn Hi]. rewrite zset_Ok by lia. eexists. split; [done|].
    split; [by rewrite length_insert|]. intros i Hik. rewrite u8_small by lia.
    destruct (decide (Z.to_nat k = i)) as [<-|].
    + rewrite list_lookup_insert_eq by lia. f_equal. lia.
    + rewrite list_lookup_insert_ne by lia. apply Hi. lia.
  - rewrite Hr. f_equal. apply list_eq_same_length with 256%nat.
    + by rewrite length_seqZ.
    + done.
    + intros i x y Hlt. rewrite Hi by lia. rewrite lookup_seqZ_lt by lia. intros [= <-] [= <-]. lia.
Qed.

Lemma u8_byte x : is_byte (u8 x).
Proof. apply u8_range. Qed.

Lemma random_init_ok seed r :
  length (s r) = 256%nat ->
  exists l, random_init seed r = Ok (mkprng l 0 0 true) /\ shuffled l.
Proof.
  intros Hl. unfold random_init. rewrite identity_ok by done. cbn [mbind outcome_bind].
  set (body := fun i '(l, j) => _).
  destruct (for_range_inv (fun _ '(l, j) => shuffled l /\ is_byte j) 256 0 body (seqZ 0 256, 0))
    as ([l j] & -> & Hs & _).
  - split; [exact (Permutation_refl _)|]. unfold is_byte. lia.
  - intros k [l j] Hk [Hs Hj]. unfold body.
    destruct (zget_shuffled l k Hs) as (x & -> & Hx); [unfold is_byte; lia|]. cbn [mbind outcome_bind].
    rewrite (zget_znth 0) by (rewrite length_le_bytes; dlia). cbn [mbind outcome_bind].
    destruct (swap_byte_shuffled l k (u8 (j + (x + znth 0 (le_bytes 4 seed) (k mod 4)))) Hs)
      as (l' & -> & Hs'); [unfold is_byte; lia|apply u8_byte|].
    eexists (_, _). split; [done|]. split; [done|apply u8_byte].
  - exists l. done.
Qed.

Lemma random_step_ok r :
  prng_ok r -> inited r = true ->
  exists b r', random_step r = Ok (b, r') /\ is_byte b /\ prng_ok r' /\ inited r' = true.
Proof.
  intros [_ Hok] Hin. destruct (Hok Hin) as (Hs & Hi & Hj). unfold random_step.
  destruct (zget_shuffled (s r) (u8 (s_i r + 1)) Hs (u8_byte _)) as (x & -> & Hx). cbn [mbind outcome_bind].
  destruct (swap_byte_shuffled (s r) (u8 (s_i r + 1)) (u8 (s_j r + x)) Hs (u8_byte _) (u8_byte _))
    as (l & -> & Hl). cbn [mbind outcome_bind].
  destruct (zget_shuffled l _ Hl (u8_byte (s_i r + 1))) as (y & -> & Hy).
  destruct (zget_shuffled l _ Hl (u8_byte (s_j r + x))) as (z & -> & Hz). cbn [mbind outcome_bind].
  destruct (zget_shuffled l _ Hl (u8_byte (y + z))) as (b & -> & Hb).
  do 2 eexists. split; [done|]. split; [done|]. split; [|done].
  split; [by apply shuffled_length|]. intros _. split_and!; [done|apply u8_byte..].
Qed.

Lemma random_loop_ok n buf m r :
  mapped m buf n -> prng_ok r -> inited r = true ->
  exists l r', random_loop n buf m r = Ok (put m buf l, r') /\
    length l = n /\ Forall is_byte l /\ prng_ok r' /\ inited r' = true.
Proof.
  revert buf m r. induction n as [|n IH]; intros buf m r Hm Hr Hin; cbn [random_loop].
  - exists [], r. by rewrite put_nil.
  - destruct (random_step_ok r Hr Hin) as (b & r1 & -> & Hb & Hr1 & Hin1). cbn [mbind outcome_bind].
    rewrite store_Ok by (apply Hm; lia). cbn [mbind outcome_bind].
    destruct (IH (buf + 1) (put m buf [b]) r1) as (l & r2 & -> & Hl & Hbs & Hr2 & Hin2); [|done..|].
    + apply mapped_put. intros a Ha. apply Hm. lia.
    + exists (b :: l), r2. split_and!; [|simpl; lia|by constructor|done|done].
      do 2 f_equal. symmetry. rewrite <- put_cons. do 2 f_equal.
      by rewrite <- (put_cons m buf b []), put_nil.
Qed.

(** From any state the statics can be in, [random_bytes] on [n] mapped
    bytes returns: it faults on no index, writes [n] bytes at the buffer and
    nothing else, and leaves [s] a permutation of 0..255 with both indices
    bytes. *)
Theorem random_bytes_ok m buf n r :
  mapped m buf n -> prng_ok r ->
  exists l r', random_bytes m buf (Z.of_nat n) r = Ok (put m buf l, r') /\
    length l = n /\ Forall is_byte l /\ prng_ok r' /\ shuffled (s r').
Proof.
  intros Hm Hr. unfold random_bytes. rewrite Nat2Z.id.
  assert (exists r0, (if inited r then Ok r else random_init 0 r) = Ok r0 /\
            prng_ok r0 /\ inited r0 = true) as (r0 & -> & Hr0 & Hin).
  { destruct (inited r) eqn:Hin; [by exists r|].
    destruct (random_init_ok 0 r) as (l & -> & Hl); [apply Hr|].
    eexists. split; [done|]. split; [|done]. split; [by apply shuffled_length|done]. }
  cbn [mbind outcome_bind].
  destruct (random_loop_ok n buf m r0 Hm Hr0 Hin) as (l & r' & -> & Hl & Hb & Hr' & Hin').
  exists l, r'. split_and!; [done|done|done|done|]. by apply Hr'.
Qed.

Lemma random_bytes_ok_witness :
  exists l r', random_bytes (map_seqZ 100 [0; 0; 0]) 100 3 prng_bss = Ok (put (map_seqZ 100 [0; 0; 0]) 100 l, r') /\
    length l = 3%nat /\ Forall is_byte l /\ prng_ok r' /\ shuffled (s r').
Proof.
  apply (random_bytes_ok (map_seqZ 100 [0; 0; 0]) 100 3 prng_bss); [|exact prng_bss_ok].
  apply (bytes_at_mapped _ 100 [0; 0; 0]). apply map_subseteq_spec. done.
Defined.

(** The generator on the key schedule of seed 0. *)
Example random_ulong_first :
  exists r, random_ulong prng_bss = Ok (le_value [222; 24; 137; 65], r).
Proof. vm_compute. eexists. reflexivity. Qed.
