(* ===== verification/HeapSort.v ===== *)
(** * Conversion, sorting and searching (src/lib/stdlib.c)

    [atoi], the in-place heap sort behind [qsort] and [sort], and the
    binary search behind [bsearch], on byte memory.  An array of [cnt]
    elements of [size] bytes is a run of bytes; element indices are
    [size_t] and wrap, pointers are addresses.  The comparison function is
    a parameter: it reads the memory through its two pointers. *)

From S2P Require Import Prelude Memory.
From Stdlib Require Import Sorting.Sorted.

(** ** atoi *)

Definition isdigit (c : Z) : bool := (48 <=? c) && (c <=? 57).
Definition isspace (c : Z) : bool :=
  (c =? 32) || (c =? 12) || (c =? 10) || (c =? 13) || (c =? 9) || (c =? 11).

(** A [char] is signed. *)
Definition schar (b : Z) : Z := if b <? 128 then b else b - 256.

Definition INT_MIN : Z := - 2 ^ 31.
Definition INT_MAX : Z := 2 ^ 31 - 1.

(** A signed result outside the range of [int] is undefined. *)
Definition int_val (x : Z) : outcome Z :=
  if (INT_MIN <=? x) && (x <=? INT_MAX) then Ok x else Err Fault.

Fixpoint skip_space (fuel : nat) (m : mem) (p : Z) : outcome Z :=
  match fuel with
  | O => Err Fuel
  | S fuel' => b ← load m p; if isspace b then skip_space fuel' m (p + 1) else Ok p
  end.

Fixpoint parse_digits (fuel : nat) (m : mem) (p value : Z) : outcome Z :=
  match fuel with
  | O => Err Fuel
  | S fuel' =>
      b ← load m p;
      if isdigit (schar b) then
        v ← int_val (value * 10); v ← int_val (v - (schar b - 48)); parse_digits fuel' m (p + 1) v
      else Ok value
  end.

Definition atoi (m : mem) (p : Z) : outcome Z :=
  kassert (negb (p =? NULL)) ≫= fun _ =>
  p ← skip_space (size m) m p;
  c ← load m p;
  let negative := negb (schar c =? 43) && (schar c =? 45) in
  let p := if (schar c =? 43) || (schar c =? 45) then p + 1 else p in
  value ← parse_digits (size m) m p 0;
  if negative then Ok value else int_val (- value).

(** ** Sorting and searching *)

Definition compare_fn : Type := mem -> Z -> Z -> Z -> outcome Z.

(** [aux] is the address of the two-argument function. *)
Definition compare_thunk (compare : mem -> Z -> Z -> outcome Z) : compare_fn :=
  fun m a b aux => compare m a b.

Section code.
Context (compare : compare_fn) (aux : Z).

Definition do_swap (array a_idx b_idx size : Z) (m : mem) : outcome mem :=
  let a := array + u32 (u32 (a_idx - 1) * size) in
  let b := array + u32 (u32 (b_idx - 1) * size) in
  for_range (Z.to_nat size) 0 (fun i m =>
    t ← load m (a + i); x ← load m (b + i);
    m ← store m (a + i) x; store m (b + i) t) m.

Definition do_compare (array a_idx b_idx size : Z) (m : mem) : outcome Z :=
  compare m (array + u32 (u32 (a_idx - 1) * size)) (array + u32 (u32 (b_idx - 1) * size)) aux.

(** [if (idx <= cnt && do_compare (array, idx, max, ...) > 0) max = idx;] *)
Definition larger (array idx max cnt size : Z) (m : mem) : outcome Z :=
  if idx <=? cnt then c ← do_compare array idx max size m; Ok (if 0 <? c then idx else max)
  else Ok max.

(** One turn of the loop of [heapify] per unit of fuel. *)
Fixpoint heapify (fuel : nat) (array i cnt size : Z) (m : mem) : outcome mem :=
  match fuel with
  | O => Err Fuel
  | S fuel' =>
      let left := u32 (2 * i) in
      let right := u32 (2 * i + 1) in
      max ← larger array left i cnt size m;
      max ← larger array right max cnt size m;
      if max =? i then Ok m
      else m ← do_swap array i max size m; heapify fuel' array max cnt size m
  end.

(** [for (i = n; i > 0; i--) heapify (array, i, cnt, ...)] *)
Fixpoint build_heap (n : nat) (array cnt size : Z) (m : mem) : outcome mem :=
  match n with
  | O => Ok m
  | S n' =>
      m ← heapify (Z.to_nat cnt + 1) array (Z.of_nat n) cnt size m;
      build_heap n' array cnt size m
  end.

(** [for (i = n; i > 1; i--) { do_swap (...); heapify (array, 1, i - 1, ...); }] *)
Fixpoint sort_heap (n : nat) (array size : Z) (m : mem) : outcome mem :=
  match n with
  | O => Ok m
  | S n' =>
      if (n' =? 0)%nat then Ok m
      else
        m ← do_swap array 1 (Z.of_nat n) size m;
        m ← heapify n array 1 (Z.of_nat n - 1) size m;
        sort_heap n' array size m
  end.

Definition sort (array cnt size : Z) (m : mem) : outcome mem :=
  kassert (negb (array =? NULL) || (cnt =? 0)) ≫= fun _ =>
  kassert (0 <? size) ≫= fun _ =>
  m ← build_heap (Z.to_nat (cnt / 2)) array cnt size m;
  sort_heap (Z.to_nat cnt) array size m.

Fixpoint search_loop (fuel : nat) (key first last size : Z) (m : mem) : outcome Z :=
  match fuel with
  | O => Err Fuel
  | S fuel' =>
      if first <? last then
        let range := u32 (last - first) / size in
        let middle := first + u32 (range / 2 * size) in
        cmp ← compare m key middle aux;
        if cmp <? 0 then search_loop fuel' key first middle size m
        else if 0 <? cmp then search_loop fuel' key (middle + size) last size m
        else Ok middle
      else Ok NULL
  end.

Definition binary_search (key array cnt size : Z) (m : mem) : outcome Z :=
  search_loop (Z.to_nat cnt + 1) key array (array + u32 (size * cnt)) size m.
End code.

Definition qsort (compare : mem -> Z -> Z -> outcome Z) (aux array cnt size : Z) (m : mem) : outcome mem :=
  sort (compare_thunk compare) aux array cnt size m.

Definition bsearch (compare : mem -> Z -> Z -> outcome Z) (aux key array cnt size : Z) (m : mem) : outcome Z :=
  binary_search (compare_thunk compare) aux key array cnt size m.

(** ** What a comparison function promises

    It reads two elements and returns a three-way result of a total
    preorder [cmp] on their bytes. *)
Class Comparison (compare : compare_fn) (aux : Z) (sz : nat) (cmp : list Z -> list Z -> Z) := {
  compare_reads m p q x y : bytes_at m p x -> bytes_at m q y -> length x = sz -> length y = sz ->
    compare m p q aux = Ok (cmp x y);
  cmp_anti x y : 0 < cmp x y <-> cmp y x < 0;
  cmp_trans x y z : cmp x y <= 0 -> cmp y z <= 0 -> cmp x z <= 0 }.

(** ** Heaps

    1-based positions of a list of elements, as the code counts them. *)
Section heap.
Context (cmp : list Z -> list Z -> Z).
Hypothesis anti : forall x y, 0 < cmp x y <-> cmp y x < 0.
Hypothesis trans : forall x y z, cmp x y <= 0 -> cmp y z <= 0 -> cmp x z <= 0.

Abbreviation elems := (list (list Z)).

Definition at1 (l : elems) (i : Z) : list Z := znth [] l (i - 1).
Definition swap1 (l : elems) (i j : Z) : elems := swap_at l (Z.to_nat (i - 1)) (Z.to_nat (j - 1)).
Definition child (p c : Z) : Prop := c = 2 * p \/ c = 2 * p + 1.
Definition inside (l : elems) (i : Z) : Prop := 1 <= i <= Z.of_nat (length l).

(** Every parent from [lo] on dominates its children up to [n]. *)
Definition heap (lo n : Z) (l : elems) : Prop :=
  forall p c, lo <= p -> child p c -> c <= n -> cmp (at1 l c) (at1 l p) <= 0.

(** The same, while the element at [i] is floating down: [i] is excused, and
    its parent dominates its children. *)
Definition floating (lo i n : Z) (l : elems) : Prop :=
  (forall p c, lo <= p -> p <> i -> child p c -> c <= n -> cmp (at1 l c) (at1 l p) <= 0) /\
  (forall p c, lo <= p -> child p i -> child i c -> c <= n -> cmp (at1 l c) (at1 l p) <= 0).

Lemma cmp_refl x : cmp x x <= 0.
Proof. pose proof (anti x x). lia. Qed.

Lemma cmp_total x y : ~ 0 < cmp x y -> cmp x y <= 0 /\ (0 <= cmp y x).
Proof. pose proof (anti x y). pose proof (anti y x). lia. Qed.

Lemma cmp_gt x y : 0 < cmp x y -> cmp y x <= 0.
Proof. pose proof (anti x y). lia. Qed.

Lemma at1_swap1 l i j k :
  inside l i -> inside l j -> 1 <= k ->
  at1 (swap1 l i j) k = at1 l (if decide (k = j) then i else if decide (k = i) then j else k).
Proof.
  unfold inside. intros Hi Hj Hk. unfold at1, swap1, znth.
  rewrite !nth_lookup, lookup_swap_at by lia. do 2 f_equal. repeat case_decide; lia.
Qed.

Lemma length_swap1 l i j : length (swap1 l i j) = length l.
Proof. apply length_swap_at. Qed.

(** The element that floats is exchanged with its largest child. *)
Lemma floating_swap lo i max n l :
  1 <= lo <= i -> n <= Z.of_nat (length l) -> child i max -> max <= n ->
  (forall c, child i c -> c <= n -> cmp (at1 l c) (at1 l max) <= 0) ->
  cmp (at1 l i) (at1 l max) <= 0 ->
  floating lo i n l -> floating lo max n (swap1 l i max).
Proof.
  intros Hlo Hn Hmax Hle Hbest Htop [H1 H2].
  assert (inside l i /\ inside l max) as [Hi Hm] by (unfold inside, child in *; lia).
  split; intros p c Hp.
  - intros Hpm Hc Hcn. rewrite !at1_swap1 by (unfold child in *; done || lia).
    destruct (decide (p = i)) as [->|Hpi].
    + rewrite (decide_False (P := i = max)) by done.
      destruct (decide (c = max)); [done|]. rewrite decide_False by (unfold child in *; lia). by apply Hbest.
    + rewrite (decide_False (P := p = max)) by done.
      rewrite (decide_False (P := c = max)) by (unfold child in *; lia).
      destruct (decide (c = i)) as [->|]; [by apply H2|by apply H1].
  - intros Hpm Hc Hcn. assert (p = i) as -> by (unfold child in *; lia).
    rewrite !at1_swap1 by (unfold child in *; done || lia).
    rewrite (decide_False (P := c = max)), (decide_False (P := c = i)) by (unfold child in *; lia).
    rewrite (decide_False (P := i = max)), decide_True by (unfold child in *; lia).
    apply H1; unfold child in *; lia.
Qed.

(** An element no child exceeds floats no further. *)
Lemma floating_done lo i n l :
  (forall c, child i c -> c <= n -> cmp (at1 l c) (at1 l i) <= 0) -> floating lo i n l -> heap lo n l.
Proof. intros Hi [H1 _] p c Hp Hc Hn. destruct (decide (p = i)) as [->|]; [by apply Hi|by apply H1]. Qed.

(** A heap with a new element in front floats that element. *)
Lemma heap_floating i n l : 1 <= i -> heap (i + 1) n l -> floating i i n l.
Proof.
  intros Hi Hh. split; intros p c Hp.
  - intros Hpi. apply Hh. lia.
  - intros Hpi. unfold child in *. intros Hc Hn. lia.
Qed.

(** The root of a heap is a largest element. *)
Lemma heap_root n l j : heap 1 n l -> 1 <= j <= n -> cmp (at1 l j) (at1 l 1) <= 0.
Proof.
  intros Hh. induction (Z.lt_wf 0 j) as [j _ IH]. intros Hj.
  destruct (decide (j = 1)) as [->|]; [apply cmp_refl|].
  apply trans with (at1 l (j / 2)); [apply Hh; unfold child; dlia|apply IH; dlia].
Qed.

(** The loop invariant of the second phase: a heap of [n] elements, below
    a sorted tail. *)
Definition sorting (n : Z) (l : elems) : Prop :=
  heap 1 n l /\
  (forall j k, 1 <= j <= k -> n < k <= Z.of_nat (length l) -> cmp (at1 l j) (at1 l k) <= 0).

(** [l'] rearranges the first [n] elements of [l]. *)
Definition rearranged (n : Z) (l l' : elems) : Prop :=
  l' ≡ₚ l /\ (forall k, n < k -> at1 l' k = at1 l k) /\
  (forall k, 1 <= k <= n -> exists k', 1 <= k' <= n /\ at1 l' k = at1 l k').

Lemma rearranged_refl n l : rearranged n l l.
Proof. split_and!; [done|done|]. intros k Hk. by exists k. Qed.

Lemma rearranged_trans n l l1 l2 : rearranged n l l1 -> rearranged n l1 l2 -> rearranged n l l2.
Proof.
  intros (P1 & A1 & B1) (P2 & A2 & B2). split_and!.
  - by rewrite P2.
  - intros k Hk. by rewrite A2, A1.
  - intros k Hk. destruct (B2 k Hk) as (k1 & Hk1 & ->). by apply B1.
Qed.

Lemma rearranged_swap1 n l i j :
  1 <= i <= n -> 1 <= j <= n -> n <= Z.of_nat (length l) -> rearranged n l (swap1 l i j).
Proof.
  intros Hi Hj Hn. split_and!.
  - apply swap_at_Permutation; lia.
  - intros k Hk. rewrite at1_swap1 by (unfold inside; lia). by rewrite !decide_False by lia.
  - intros k Hk. rewrite at1_swap1 by (unfold inside; lia). eexists. split; [|done]. repeat case_decide; lia.
Qed.

(** One turn: the root goes to the end of the heap and the rest is a heap
    with a floating root; whatever [heapify] then does keeps the invariant. *)
Lemma sorting_swap n l : 2 <= n <= Z.of_nat (length l) -> sorting n l -> floating 1 1 (n - 1) (swap1 l 1 n).
Proof.
  intros Hn [Hh _]. apply heap_floating; [lia|]. intros p c Hp Hc Hcn.
  rewrite !at1_swap1 by (unfold inside, child in *; lia).
  rewrite !decide_False by (unfold child in *; lia). apply Hh; unfold child in *; lia.
Qed.

Lemma sorting_step n l l' :
  2 <= n <= Z.of_nat (length l) -> sorting n l -> rearranged (n - 1) (swap1 l 1 n) l' ->
  heap 1 (n - 1) l' -> sorting (n - 1) l'.
Proof.
  intros Hn [Hh Ht] (Hp & Hab & Hbe) Hh'. split; [done|].
  assert (length l' = length l) as El by (rewrite (Permutation_length Hp); apply length_swap1). rewrite El.
  assert (forall k, n <= k -> 1 <= k -> at1 l' k = at1 l (if decide (k = n) then 1 else k)) as Hab'.
  { intros k Hk Hk1. rewrite Hab by lia. rewrite at1_swap1 by (unfold inside; lia).
    destruct (decide (k = n)); [done|]. by rewrite decide_False by lia. }
  assert (forall k, 1 <= k < n -> exists k', 1 <= k' <= n /\ at1 l' k = at1 l k') as Hbe'.
  { intros k Hk. destruct (Hbe k) as (k1 & Hk1 & ->); [lia|]. rewrite at1_swap1 by (unfold inside; lia).
    eexists. split; [|done]. repeat case_decide; lia. }
  intros j k Hj Hk. rewrite (Hab' k) by lia. destruct (decide (j < n)) as [Hjn|Hjn].
  - destruct (Hbe' j) as (j1 & Hj1 & ->); [lia|]. case_decide; [by apply heap_root with n|apply Ht; lia].
  - rewrite (Hab' j) by lia. destruct (decide (k = n)) as [->|]; [rewrite decide_True by lia; apply cmp_refl|].
    destruct (decide (j = n)); apply Ht; lia.
Qed.

Lemma sorted_by_index (l : elems) :
  (forall j k, 1 <= j <= k -> k <= Z.of_nat (length l) -> cmp (at1 l j) (at1 l k) <= 0) ->
  StronglySorted (fun x y => cmp x y <= 0) l.
Proof.
  induction l as [|x l IH]; intros Hl; [constructor|]. cbn [length] in Hl.
  assert (forall k, 1 <= k -> at1 (x :: l) (k + 1) = at1 l k) as Hs.
  { intros k Hk. unfold at1, znth. by replace (Z.to_nat (k + 1 - 1)) with (S (Z.to_nat (k - 1))) by lia. }
  constructor.
  - apply IH. intros j k Hj Hk. rewrite <- !Hs by lia. apply Hl; lia.
  - apply list.Forall_lookup. intros i y Hi. pose proof (lookup_lt_Some _ _ _ Hi).
    specialize (Hl 1 (Z.of_nat i + 1 + 1)). rewrite Hs in Hl by lia.
    assert (at1 l (Z.of_nat i + 1) = y) as Hy.
    { unfold at1, znth. replace (Z.to_nat (Z.of_nat i + 1 - 1)) with i by lia. by rewrite nth_lookup, Hi. }
    rewrite Hy in Hl. apply Hl; lia.
Qed.
End heap.

(** ** Arrays of elements in memory *)

Definition uniform (sz : nat) (l : list (list Z)) : Prop := Forall (fun x => length x = sz) l.

Lemma length_mjoin_uniform sz l : uniform sz l -> length (mjoin l) = (length l * sz)%nat.
Proof.
  induction 1 as [|x l Hx _ IH]; [done|]. change (mjoin (x :: l)) with (x ++ mjoin l).
  rewrite length_app, Hx, IH. simpl. lia.
Qed.

Lemma lookup_mjoin_uniform sz l i j :
  uniform sz l -> (j < sz)%nat -> mjoin l !! (i * sz + j)%nat = l !! i ≫= fun x => x !! j.
Proof.
  intros Hl Hj. revert i. induction Hl as [|x l Hx Hl IH]; intros i; [done|].
  change (mjoin (x :: l)) with (x ++ mjoin l). destruct i as [|i]; simpl.
  - by rewrite lookup_app_l by lia.
  - rewrite lookup_app_r by lia. rewrite <- IH. f_equal. lia.
Qed.

Lemma uniform_Permutation sz l l' : l' ≡ₚ l -> uniform sz l -> uniform sz l'.
Proof. unfold uniform. intros E. by rewrite E. Qed.

Lemma load_put m p l k b : l !! k = Some b -> load (put m p l) (p + Z.of_nat k) = Ok b.
Proof.
  intros Hk. apply load_Ok. pose proof (lookup_lt_Some _ _ _ Hk).
  rewrite lookup_put, decide_True by lia. rewrite <- Hk. f_equal. lia.
Qed.

Lemma store_put m p l k b :
  (k < length l)%nat -> store (put m p l) (p + Z.of_nat k) b = Ok (put m p (<[k := b]> l)).
Proof.
  intros Hk. unfold store. rewrite lookup_put, decide_True by lia.
  destruct (lookup_lt_is_Some_2 l (Z.to_nat (p + Z.of_nat k - p))) as [c ->]; [lia|]. f_equal.
  apply map_eq. intros a. rewrite lookup_put, length_insert.
  destruct (decide (a = p + Z.of_nat k)) as [->|Hne].
  - rewrite lookup_insert_eq, decide_True by lia.
    replace (Z.to_nat (p + Z.of_nat k - p)) with k by lia. by rewrite list_lookup_insert_eq.
  - rewrite lookup_insert_ne, lookup_put by done. case_decide; [|done].
    by rewrite list_lookup_insert_ne by lia.
Qed.

(** Exchanging the bytes [a .. a + k) and [b .. b + k). *)
Definition exchanged (a b k q : nat) : nat :=
  if decide (b <= q < b + k)%nat then (q - b + a)%nat
  else if decide (a <= q < a + k)%nat then (q - a + b)%nat else q.

Lemma exchanged_elems sz l i j l' :
  uniform sz l -> (i < length l)%nat -> (j < length l)%nat -> i <> j -> length l' = length (mjoin l) ->
  (forall q, l' !! q = mjoin l !! exchanged (i * sz) (j * sz) sz q) -> l' = mjoin (swap_at l i j).
Proof.
  intros Hl Hi Hj Hij Hn Hq.
  assert (uniform sz (swap_at l i j)) as Hs by (by apply (uniform_Permutation sz l), Hl; apply swap_at_Permutation).
  apply list_eq. intros q. destruct (decide (q < length l')%nat) as [Hlt|].
  2:{ rewrite !lookup_ge_None_2; [done| |lia]. rewrite (length_mjoin_uniform sz), length_swap_at by done.
      rewrite (length_mjoin_uniform sz) in Hn by done. lia. }
  rewrite (length_mjoin_uniform sz) in Hn by done.
  assert (exists x y, q = (x * sz + y)%nat /\ (y < sz)%nat) as (x & y & -> & Hy).
  { exists (q / sz)%nat, (q mod sz)%nat. destruct sz as [|sz]; [lia|].
    pose proof (Nat.div_mod_eq q (S sz)). pose proof (Nat.mod_upper_bound q (S sz)). lia. }
  rewrite Hq, (lookup_mjoin_uniform sz), lookup_swap_at by done.
  rewrite <- (lookup_mjoin_uniform sz) by done. f_equal. unfold exchanged.
  assert (forall u v, (u * sz <= v * sz + y < u * sz + sz)%nat <-> v = u) as Hb.
  { intros u v. split; [|intros ->; lia]. intros Huv. nia. }
  repeat case_decide; repeat match goal with
    | H : (_ <= _ < _)%nat |- _ => apply Hb in H
    | H : ~ (_ <= _ < _)%nat |- _ => rewrite Hb in H
    end; subst; try done; lia.
Qed.

(** Element [k] of an array in memory. *)
Lemma lookup_element sz m arr l k x :
  uniform sz l -> bytes_at m arr (mjoin l) -> l !! k = Some x ->
  bytes_at m (arr + Z.of_nat (k * sz)) x /\ length x = sz.
Proof.
  intros Hl Hb Hx. assert (length x = sz) as Hlen by (apply (Forall_lookup_1 _ _ _ _ Hl Hx)).
  split; [|done]. rewrite bytes_at_lookup in Hb |- *. intros j b Hj. pose proof (lookup_lt_Some _ _ _ Hj).
  rewrite <- (Hb (k * sz + j)%nat b); [f_equal; lia|].
  rewrite lookup_mjoin_uniform by (done || lia). by rewrite Hx.
Qed.

Section array.
Context (compare : compare_fn) (aux : Z) (sz : nat) (cmp : list Z -> list Z -> Z) `{!Comparison compare aux sz cmp}.
Context (m0 : mem) (arr : Z).

(** The array holds [l]; the rest of the memory is that of [m0]. *)
Definition holding (l : list (list Z)) : mem := put m0 arr (mjoin l).

(** The sizes [size_t] can count. *)
Definition fits (l : list (list Z)) : Prop :=
  uniform sz l /\ (0 < sz)%nat /\ Z.of_nat (length l) < 2 ^ 31 /\ Z.of_nat (length l) * Z.of_nat sz < 2 ^ 32.

Lemma fits_Permutation l l' : l' ≡ₚ l -> fits l -> fits l'.
Proof. intros E (H1 & H2 & H3). split; [by eapply uniform_Permutation|]. by rewrite E. Qed.

(** The address of an element. *)
Lemma element_offset l i : fits l -> inside l i ->
  u32 (u32 (i - 1) * Z.of_nat sz) = Z.of_nat (Z.to_nat (i - 1) * sz).
Proof.
  unfold inside. intros (_ & Hsz & Hn & Hb) Hi. rewrite (u32_small (i - 1)) by lia.
  assert ((i - 1) * Z.of_nat sz <= Z.of_nat (length l) * Z.of_nat sz) by (apply Z.mul_le_mono_nonneg_r; lia).
  assert (0 <= (i - 1) * Z.of_nat sz) by (apply Z.mul_nonneg_nonneg; lia).
  rewrite u32_small by lia. by rewrite Nat2Z.inj_mul, Z2Nat.id by lia.
Qed.

Lemma element_bytes l i : fits l -> inside l i ->
  bytes_at (holding l) (arr + Z.of_nat (Z.to_nat (i - 1) * sz)) (at1 l i) /\ length (at1 l i) = sz.
Proof.
  unfold inside. intros Hl Hi. apply lookup_element with l; [apply Hl|apply bytes_at_put|].
  apply znth_lookup. lia.
Qed.

Lemma do_compare_ok l i j : fits l -> inside l i -> inside l j ->
  do_compare compare aux arr i j (Z.of_nat sz) (holding l) = Ok (cmp (at1 l i) (at1 l j)).
Proof.
  intros Hl Hi Hj. unfold do_compare. rewrite !(element_offset l) by done.
  destruct (element_bytes l i Hl Hi), (element_bytes l j Hl Hj). by apply compare_reads.
Qed.

Lemma do_swap_ok l i j : fits l -> inside l i -> inside l j -> i <> j ->
  do_swap arr i j (Z.of_nat sz) (holding l) = Ok (holding (swap1 l i j)).
Proof.
  intros Hl Hi Hj Hij. unfold do_swap. rewrite !(element_offset l), Nat2Z.id by done.
  set (a := (Z.to_nat (i - 1) * sz)%nat). set (b := (Z.to_nat (j - 1) * sz)%nat).
  unfold inside in *. destruct Hl as (Hl & Hsz & _).
  pose proof (length_mjoin_uniform _ _ Hl) as Hlen.
  assert (a + sz <= length (mjoin l))%nat as Ha by (subst a; nia).
  assert (b + sz <= length (mjoin l))%nat as Hb by (subst b; nia).
  assert (a + sz <= b \/ b + sz <= a)%nat as Hd by (subst a b; nia).
  set (body := fun k m => _).
  destruct (for_range_inv (fun k m => exists F, m = put m0 arr F /\ length F = length (mjoin l) /\
      forall q, F !! q = mjoin l !! exchanged a b (Z.to_nat k) q) sz 0 body (holding l))
    as (m' & -> & F & -> & HF & Hq).
  - exists (mjoin l). split_and!; [done|done|]. intros q. f_equal. unfold exchanged. repeat case_decide; lia.
  - intros k m Hk (F & -> & HF & Hq). unfold body.
    replace (arr + Z.of_nat a + k) with (arr + Z.of_nat (a + Z.to_nat k)) by lia.
    replace (arr + Z.of_nat b + k) with (arr + Z.of_nat (b + Z.to_nat k)) by lia.
    destruct (lookup_lt_is_Some_2 F (a + Z.to_nat k)) as [x Hx]; [lia|].
    destruct (lookup_lt_is_Some_2 F (b + Z.to_nat k)) as [y Hy]; [lia|].
    rewrite (load_put _ _ _ _ _ Hx), (load_put _ _ _ _ _ Hy). cbn [mbind outcome_bind].
    rewrite store_put by lia. cbn [mbind outcome_bind]. rewrite store_put by (rewrite length_insert; lia).
    eexists. split; [done|]. exists (swap_at F (a + Z.to_nat k) (b + Z.to_nat k)). split_and!.
    + unfold swap_at. by rewrite Hx, Hy.
    + by rewrite length_swap_at.
    + intros q. rewrite lookup_swap_at by lia. rewrite Hq. f_equal. unfold exchanged.
      replace (Z.to_nat (k + 1)) with (S (Z.to_nat k)) by lia. repeat case_decide; lia.
  - unfold holding. do 2 f_equal. apply exchanged_elems with sz; [done|lia|lia|lia|done|].
    intros q. rewrite Hq. f_equal. f_equal. lia.
Qed.

(** ** Floating down *)

Lemma larger_ok l idx mx cnt :
  fits l -> 1 <= idx -> inside l mx -> cnt <= Z.of_nat (length l) ->
  larger compare aux arr idx mx cnt (Z.of_nat sz) (holding l) =
    Ok (if (idx <=? cnt) && (0 <? cmp (at1 l idx) (at1 l mx)) then idx else mx).
Proof.
  intros Hl Hi Hm Hc. unfold larger. destruct (Z.leb_spec idx cnt); [|done].
  by rewrite do_compare_ok by (done || (unfold inside; lia)).
Qed.

(** The two tests leave the index of a largest element among [i] and its
    children. *)
Definition largest (l : list (list Z)) (i cnt mx : Z) : Prop :=
  (mx = i \/ child i mx) /\ 1 <= mx <= cnt /\ cmp (at1 l i) (at1 l mx) <= 0 /\
  (forall c, child i c -> c <= cnt -> cmp (at1 l c) (at1 l mx) <= 0).

Lemma select_largest l i cnt :
  fits l -> 1 <= i <= cnt -> cnt <= Z.of_nat (length l) ->
  exists mx1 mx, larger compare aux arr (u32 (2 * i)) i cnt (Z.of_nat sz) (holding l) = Ok mx1 /\
    larger compare aux arr (u32 (2 * i + 1)) mx1 cnt (Z.of_nat sz) (holding l) = Ok mx /\ largest l i cnt mx.
Proof.
  intros Hl Hi Hc. assert (Z.of_nat (length l) < 2 ^ 31) by apply Hl.
  pose proof (cmp_refl cmp cmp_anti) as Hrefl. rewrite !u32_small by lia.
  rewrite larger_ok by (done || (unfold inside; lia)). set (mx1 := if _ : bool then 2 * i else i).
  assert (inside l mx1) as Hin by (subst mx1; unfold inside; destruct (Z.leb_spec (2 * i) cnt); case_match; simpl in *; lia).
  exists mx1. rewrite (larger_ok _ (2 * i + 1)) by (done || lia). eexists. split; [done|]. split; [done|].
  assert (cmp (at1 l i) (at1 l mx1) <= 0 /\ (2 * i <= cnt -> cmp (at1 l (2 * i)) (at1 l mx1) <= 0) /\
          (mx1 = i \/ mx1 = 2 * i) /\ 1 <= mx1 <= cnt) as (H1 & H2 & H3 & H4).
  { subst mx1. destruct (Z.leb_spec (2 * i) cnt); simpl; [|split_and!; [apply Hrefl|lia|lia|lia..]].
    destruct (Z.ltb_spec 0 (cmp (at1 l (2 * i)) (at1 l i))).
    - split_and!; [by apply (cmp_gt cmp cmp_anti)|intros _; apply Hrefl|lia|lia|lia].
    - split_and!; [apply Hrefl|lia|lia|lia|lia]. }
  clearbody mx1. unfold largest, child. destruct (Z.leb_spec (2 * i + 1) cnt); simpl.
  - destruct (Z.ltb_spec 0 (cmp (at1 l (2 * i + 1)) (at1 l mx1))) as [Hgt|].
    + apply (cmp_gt cmp cmp_anti) in Hgt. split_and!; [lia|lia|lia|by eapply cmp_trans|].
      intros c [->| ->] Hle; [eapply cmp_trans; [by apply H2|done]|apply Hrefl].
    + split_and!; [lia|lia|lia|done|]. intros c [->| ->] Hle; [by apply H2|done].
  - split_and!; [lia|lia|lia|done|]. intros c [->| ->] Hle; [by apply H2|lia].
Qed.

Lemma heapify_ok fuel lo i cnt l :
  fits l -> 1 <= lo <= i -> i <= cnt <= Z.of_nat (length l) -> floating cmp lo i cnt l ->
  cnt - i < Z.of_nat fuel ->
  exists l', heapify compare aux fuel arr i cnt (Z.of_nat sz) (holding l) = Ok (holding l') /\
    rearranged cnt l l' /\ heap cmp lo cnt l'.
Proof.
  revert i l. induction fuel as [|fuel IH]; intros i l Hl Hlo Hc Hf Hfuel; [lia|].
  destruct (select_largest l i cnt) as (mx1 & mx & E1 & E2 & Hmx & Hb & Htop & Hbest); [done|lia|lia|].
  cbn [heapify]. rewrite E1. cbn [mbind outcome_bind]. rewrite E2. cbn [mbind outcome_bind].
  destruct (Z.eqb_spec mx i) as [->|Hne].
  - exists l. split_and!; [done|apply rearranged_refl|by apply (floating_done cmp) with i].
  - destruct Hmx as [|Hch]; [done|].
    rewrite do_swap_ok by (done || (unfold inside; lia)). cbn [mbind outcome_bind].
    assert (rearranged cnt l (swap1 l i mx)) as Hr by (apply rearranged_swap1; lia).
    destruct (IH mx (swap1 l i mx)) as (l' & -> & Hr' & Hh).
    + eapply fits_Permutation; [apply Hr|done].
    + unfold child in Hch. lia.
    + rewrite length_swap1. lia.
    + apply floating_swap; done || lia.
    + unfold child in Hch. lia.
    + exists l'. split_and!; [done| |done]. by eapply rearranged_trans.
Qed.

(** ** The two phases *)

Lemma rearranged_length n l l' : rearranged n l l' -> length l' = length l.
Proof. intros [E _]. by rewrite E. Qed.

Lemma build_heap_ok n l :
  fits l -> Z.of_nat n <= Z.of_nat (length l) -> heap cmp (Z.of_nat n + 1) (Z.of_nat (length l)) l ->
  exists l', build_heap compare aux n arr (Z.of_nat (length l)) (Z.of_nat sz) (holding l) = Ok (holding l') /\
    l' ≡ₚ l /\ heap cmp 1 (Z.of_nat (length l)) l'.
Proof.
  remember (Z.of_nat (length l)) as cnt eqn:Ecnt. revert l Ecnt.
  induction n as [|n IH]; intros l Ecnt Hl Hn Hh; cbn [build_heap].
  - exists l. done.
  - destruct (heapify_ok (Z.to_nat cnt + 1) (Z.of_nat (S n)) (Z.of_nat (S n)) cnt l) as (l1 & -> & Hr & Hh1);
      [done|lia|lia|apply heap_floating; [lia|done]|lia|]. cbn [mbind outcome_bind].
    destruct (IH l1) as (l2 & -> & Hp & Hh2).
    + by rewrite (rearranged_length _ _ _ Hr).
    + eapply fits_Permutation; [apply Hr|done].
    + lia.
    + by replace (Z.of_nat n + 1) with (Z.of_nat (S n)) by lia.
    + exists l2. split_and!; [done| |done]. rewrite Hp. apply Hr.
Qed.

Lemma sort_heap_ok n l :
  fits l -> Z.of_nat n <= Z.of_nat (length l) -> sorting cmp (Z.of_nat n) l ->
  exists l', sort_heap compare aux n arr (Z.of_nat sz) (holding l) = Ok (holding l') /\
    l' ≡ₚ l /\ StronglySorted (fun x y => cmp x y <= 0) l'.
Proof.
  revert l. induction n as [|n IH]; intros l Hl Hn Hs; cbn [sort_heap].
  - exists l. split_and!; [done|done|]. apply sorted_by_index. intros j k Hj Hk. apply Hs; lia.
  - destruct (Nat.eqb_spec n 0) as [->|Hn0].
    { exists l. split_and!; [done|done|]. apply sorted_by_index. intros j k Hj Hk.
      destruct (decide (k = 1)) as [->|]; [|apply Hs; lia].
      replace j with 1 by lia. apply (cmp_refl cmp cmp_anti). }
    rewrite do_swap_ok by (done || (unfold inside; lia)). cbn [mbind outcome_bind].
    assert (swap1 l 1 (Z.of_nat (S n)) ≡ₚ l) as Hp by (apply swap_at_Permutation; lia).
    destruct (heapify_ok (S n) 1 1 (Z.of_nat (S n) - 1) (swap1 l 1 (Z.of_nat (S n)))) as (l1 & -> & Hr & Hh);
      [by eapply fits_Permutation|lia|rewrite length_swap1; lia|apply sorting_swap; [lia|done]|lia|].
    cbn [mbind outcome_bind]. pose proof (rearranged_length _ _ _ Hr) as Hlen. rewrite length_swap1 in Hlen.
    destruct (IH l1) as (l2 & -> & Hp2 & Hs2).
    + eapply fits_Permutation; [apply Hr|]. by eapply fits_Permutation.
    + lia.
    + replace (Z.of_nat n) with (Z.of_nat (S n) - 1) by lia.
      apply (sorting_step cmp cmp_anti cmp_trans) with l; [lia|done..].
    + exists l2. split_and!; [done| |done]. rewrite Hp2, <- Hp. apply Hr.
Qed.
End array.

(** A heap that starts past the last parent has no condition to meet. *)
Lemma heap_leaves cmp n l : heap cmp (n / 2 + 1) n l.
Proof. intros p c Hp Hc Hn. unfold child in Hc. dlia. Qed.

(** The middle of the range that [search_loop] halves. *)
Lemma middle_address sz arr lo hi n :
  (0 < sz)%nat -> 0 < arr -> arr + Z.of_nat (n * sz) <= 2 ^ 32 -> (lo < hi)%nat -> (hi <= n)%nat ->
  arr + Z.of_nat (lo * sz) + u32 (u32 (arr + Z.of_nat (hi * sz) - (arr + Z.of_nat (lo * sz))) / Z.of_nat sz / 2 * Z.of_nat sz)
    = arr + Z.of_nat ((lo + (hi - lo) / 2) * sz).
Proof.
  intros Hsz Ha Htop Hlt Hn. assert (Z.of_nat (hi * sz) <= Z.of_nat (n * sz)) by nia.
  assert (Z.of_nat (lo * sz) < Z.of_nat (hi * sz)) by nia.
  rewrite (u32_small (_ - _)) by lia.
  replace (arr + Z.of_nat (hi * sz) - (arr + Z.of_nat (lo * sz))) with (Z.of_nat (hi - lo) * Z.of_nat sz) by nia.
  rewrite Z.div_mul by lia.
  assert (Z.of_nat (hi - lo) / 2 = Z.of_nat ((hi - lo) / 2)) as -> by (by rewrite (Nat2Z.inj_div _ 2)).
  assert ((hi - lo) / 2 <= hi - lo)%nat by (apply Nat.Div0.div_le_upper_bound; lia).
  set (d := ((hi - lo) / 2)%nat) in *. clearbody d.
  assert (0 <= Z.of_nat d * Z.of_nat sz <= Z.of_nat (hi * sz)) by nia.
  rewrite u32_small by lia. lia.
Qed.

Section search.
Context (compare : compare_fn) (aux : Z) (sz : nat) (cmp : list Z -> list Z -> Z) `{!Comparison compare aux sz cmp}.

Lemma sort_ok m arr l :
  fits sz l -> arr <> NULL -> bytes_at m arr (mjoin l) ->
  exists l', sort compare aux arr (Z.of_nat (length l)) (Z.of_nat sz) m = Ok (put m arr (mjoin l')) /\
    l' ≡ₚ l /\ StronglySorted (fun x y => cmp x y <= 0) l'.
Proof.
  intros Hl Ha Hb. unfold sort. assert (0 < sz)%nat by apply Hl.
  rewrite (kassert_true (_ || _)) by (apply orb_true_iff; left; by apply negb_true_iff, Z.eqb_neq).
  rewrite (kassert_true (0 <? _)) by (apply Z.ltb_lt; lia). cbn [mbind outcome_bind].
  destruct (build_heap_ok compare aux sz cmp m arr (Z.to_nat (Z.of_nat (length l) / 2)) l) as (l1 & E1 & Hp & Hh).
  - done.
  - dlia.
  - rewrite Z2Nat.id by dlia. apply heap_leaves.
  - unfold holding in E1. rewrite (put_bytes_at _ _ _ Hb) in E1. rewrite E1. cbn [mbind outcome_bind]. rewrite Nat2Z.id.
    assert (length l1 = length l) as El by (by rewrite Hp).
    destruct (sort_heap_ok compare aux sz cmp m arr (length l) l1) as (l2 & E2 & Hp2 & Hs).
    + by eapply fits_Permutation.
    + lia.
    + split; [done|]. intros j k Hj Hk. lia.
    + exists l2. split_and!; [exact E2| |done]. by rewrite Hp2.
Qed.

(** The element the search stops at, or none that compares equal. *)
Definition search_result (arr : Z) (l : list (list Z)) (key : list Z) (r : Z) : Prop :=
  (exists k x, r = arr + Z.of_nat (k * sz) /\ l !! k = Some x /\ cmp key x = 0) \/
  (r = NULL /\ forall x, x ∈ l -> cmp key x <> 0).

Lemma sorted_lookup (l : list (list Z)) i j x y :
  StronglySorted (fun x y => cmp x y <= 0) l -> l !! i = Some x -> l !! j = Some y -> (i <= j)%nat -> cmp x y <= 0.
Proof.
  intros Hs. revert i j. induction Hs as [|z l Hs IH Hz]; intros [|i] [|j]; simpl; try done.
  - intros [= ->] [= ->] _. apply (cmp_refl cmp cmp_anti).
  - intros [= ->] Hy _. by apply (Forall_lookup_1 _ _ _ _ Hz Hy).
  - lia.
  - intros Hx Hy Hij. apply (IH i j); [done|done|lia].
Qed.

Lemma search_loop_ok fuel m arr l key kp lo hi :
  fits sz l -> 0 < arr -> arr + Z.of_nat (length l * sz) <= 2 ^ 32 -> bytes_at m arr (mjoin l) ->
  StronglySorted (fun x y => cmp x y <= 0) l ->
  bytes_at m kp key -> length key = sz ->
  (lo <= hi <= length l)%nat -> (hi - lo < fuel)%nat ->
  (forall k x, (k < lo)%nat -> l !! k = Some x -> 0 < cmp key x) ->
  (forall k x, (hi <= k)%nat -> l !! k = Some x -> cmp key x < 0) ->
  exists r, search_loop compare aux fuel kp (arr + Z.of_nat (lo * sz)) (arr + Z.of_nat (hi * sz)) (Z.of_nat sz) m = Ok r /\
    search_result arr l key r.
Proof.
  intros Hl Ha Htop Hb Hs Hk Hkey. revert lo hi. induction fuel as [|fuel IH]; intros lo hi Hlh Hf Hlo Hhi; [lia|].
  assert (0 < sz)%nat as Hsz by apply Hl. cbn [search_loop]. destruct (Z.ltb_spec (arr + Z.of_nat (lo * sz)) (arr + Z.of_nat (hi * sz))) as [Hlt|Hge].
  - assert (lo < hi)%nat as Hlt' by nia. set (mid := (lo + (hi - lo) / 2)%nat).
    assert (lo <= mid < hi)%nat as Hmid by (subst mid; pose proof (Nat.Div0.div_lt_upper_bound (hi - lo) 2 (hi - lo)); lia).
    rewrite (middle_address sz arr lo hi (length l)) by (done || lia). fold mid.
    destruct (lookup_lt_is_Some_2 l mid) as [x Hx]; [lia|].
    destruct (lookup_element sz m arr l mid x) as [Hxb Hxl]; [by apply Hl|done..|].
    rewrite (compare_reads m kp (arr + Z.of_nat (mid * sz)) key x) by done. cbn [mbind outcome_bind].
    destruct (Z.ltb_spec (cmp key x) 0) as [Hneg|].
    + apply IH; [lia|lia|done|]. intros k y Hky Hy. apply cmp_anti.
      assert (cmp x y <= 0) as Hxy by (by eapply sorted_lookup).
      assert (0 < cmp x key) by (by apply cmp_anti). destruct (decide (0 < cmp y key)); [done|].
      assert (cmp x key <= 0) by (apply cmp_trans with y; lia). lia.
    + destruct (Z.ltb_spec 0 (cmp key x)) as [Hpos|].
      * replace (arr + Z.of_nat (mid * sz) + Z.of_nat sz) with (arr + Z.of_nat (S mid * sz)) by lia.
        apply IH; [lia|lia| |done]. intros k y Hky Hy.
        assert (cmp y x <= 0) as Hxy by (eapply sorted_lookup; [done|done|done|lia]).
        destruct (decide (0 < cmp key y)); [done|]. assert (cmp key x <= 0) by (apply cmp_trans with y; lia). lia.
      * eexists. split; [done|]. left. exists mid, x. split_and!; [done|done|lia].
  - eexists. split; [done|]. right. split; [done|]. intros x Hx. apply list_elem_of_lookup in Hx as [k Hx].
    assert (lo = hi) as -> by nia. destruct (decide (k < hi)%nat) as [Hlt|].
    + specialize (Hlo _ _ Hlt Hx). lia.
    + assert (cmp key x < 0) by (apply (Hhi k); [lia|done]). lia.
Qed.
End search.

(** C17: For a comparison function that reads its two elements and orders
    them by a total preorder, [qsort] returns: the array is a sorted
    permutation of its elements and no other byte of memory changes; and
    [bsearch] on the result returns the address of an element equal to the
    key, or NULL exactly when the array holds none.  Both terminate within
    their loop bounds. *)
Theorem qsort_then_bsearch compare aux sz cmp m arr l :
  Comparison (compare_thunk compare) aux sz cmp ->
  fits sz l -> 0 < arr -> arr + Z.of_nat (length l * sz) <= 2 ^ 32 -> bytes_at m arr (mjoin l) ->
  exists l', qsort compare aux arr (Z.of_nat (length l)) (Z.of_nat sz) m = Ok (put m arr (mjoin l')) /\
    l' ≡ₚ l /\ StronglySorted (fun x y => cmp x y <= 0) l' /\
    forall kp key, bytes_at (put m arr (mjoin l')) kp key -> length key = sz ->
      exists r, bsearch compare aux kp arr (Z.of_nat (length l)) (Z.of_nat sz) (put m arr (mjoin l')) = Ok r /\
        ((exists k x, r = arr + Z.of_nat (k * sz) /\ l' !! k = Some x /\ cmp key x = 0) \/
         (r = NULL /\ forall x, x ∈ l -> cmp key x <> 0)).
Proof.
  intros Hcmp Hl Ha Htop Hb. unfold qsort, bsearch, binary_search.
  destruct (sort_ok (compare_thunk compare) aux sz cmp m arr l) as (l' & -> & Hp & Hs); [done|unfold NULL; lia|done|].
  exists l'. split_and!; [done|done|done|]. intros kp key Hk Hkey.
  assert (fits sz l') as Hl' by (by eapply fits_Permutation). assert (length l' = length l) as El by (by rewrite Hp).
  destruct (search_loop_ok (compare_thunk compare) aux sz cmp (Z.to_nat (Z.of_nat (length l)) + 1)
    (put m arr (mjoin l')) arr l' key kp 0 (length l')) as (r & Er & Hr);
    [done|done|lia|apply bytes_at_put|done|done|done|lia|lia|lia| |].
  { intros k x Hlen Hx. apply lookup_lt_Some in Hx. lia. }
  exists r. split.
  - rewrite <- Er. f_equal; [lia|]. rewrite El, u32_small; [lia|]. unfold fits in Hl. lia.
  - destruct Hr as [Hr|[-> Hn]]; [by left|]. right. split; [done|]. intros x Hx. apply Hn. by rewrite Hp.
Qed.

(** Single bytes, by their value. *)
Definition compare_byte (m : mem) (a b : Z) : outcome Z := x ← load m a; y ← load m b; Ok (x - y).

Lemma compare_byte_ok aux : Comparison (compare_thunk compare_byte) aux 1 (fun x y => znth 0 x 0 - znth 0 y 0).
Proof.
  split; [|lia|lia]. intros m p q [|x [|? ?]] [|y [|? ?]] Hp Hq; try done. intros _ _.
  apply bytes_at_cons in Hp as [Hp _]. apply bytes_at_cons in Hq as [Hq _].
  unfold compare_thunk, compare_byte. by rewrite (load_Ok _ _ _ Hp), (load_Ok _ _ _ Hq).
Qed.

Lemma qsort_then_bsearch_witness :
  exists l', qsort compare_byte 0 100 4 1 (map_seqZ 100 [3; 1; 4; 2]) =
      Ok (put (map_seqZ 100 [3; 1; 4; 2]) 100 (mjoin l')) /\ l' ≡ₚ [[3]; [1]; [4]; [2]].
Proof.
  destruct (qsort_then_bsearch compare_byte 0 1 (fun x y => znth 0 x 0 - znth 0 y 0)
    (map_seqZ 100 [3; 1; 4; 2]) 100 [[3]; [1]; [4]; [2]]) as (l' & H1 & H2 & _).
  - apply compare_byte_ok.
  - split_and!; [repeat constructor|lia|simpl; lia|simpl; lia].
  - lia.
  - simpl; lia.
  - by apply bytes_check_ok.
  - by exists l'.
Defined.

Example qsort_bytes :
  qsort compare_byte 0 100 5 1 (map_seqZ 100 [3; 1; 4; 1; 5]) = Ok (map_seqZ 100 [1; 1; 3; 4; 5]).
Proof. vm_compute. reflexivity. Qed.

(** ** atoi reads a decimal number *)

(** The value of a run of digits, most significant first. *)
Definition decimal (ds : list Z) : Z := fold_left (fun v d => v * 10 + d) ds 0.

Lemma decimal_app ds v : fold_left (fun v d => v * 10 + d) ds v = v * 10 ^ Z.of_nat (length ds) + decimal ds.
Proof.
  unfold decimal. revert v. induction ds as [|d ds IH]; intros v; [simpl; lia|].
  change (fold_left _ (d :: ds) v) with (fold_left (fun v d => v * 10 + d) ds (v * 10 + d)).
  change (fold_left _ (d :: ds) 0) with (fold_left (fun v d => v * 10 + d) ds d).
  rewrite IH, (IH d). cbn [length]. rewrite Nat2Z.inj_succ, Z.pow_succ_r by lia. lia.
Qed.

Lemma decimal_nonneg ds : Forall (fun d => 0 <= d <= 9) ds -> 0 <= decimal ds.
Proof.
  intros Hd. induction Hd as [|d ds Hd _ IH]; [done|].
  change (decimal (d :: ds)) with (fold_left (fun v d => v * 10 + d) ds d). rewrite decimal_app. nia.
Qed.

Lemma int_val_Ok x : INT_MIN <= x <= INT_MAX -> int_val x = Ok x.
Proof. intros Hx. unfold int_val. destruct (Z.leb_spec INT_MIN x), (Z.leb_spec x INT_MAX); simpl; done || lia. Qed.

Lemma parse_digits_ok fuel m p ds c v :
  Forall (fun d => 0 <= d <= 9) ds -> isdigit (schar c) = false -> v <= 0 ->
  bytes_at m p (((fun d => d + 48) <$> ds) ++ [c]) -> (length ds < fuel)%nat ->
  INT_MIN <= - fold_left (fun v d => v * 10 + d) ds (- v) ->
  parse_digits fuel m p v = Ok (- fold_left (fun v d => v * 10 + d) ds (- v)).
Proof.
  intros Hds Hc. revert fuel p v. induction Hds as [|d ds Hd Hds IH]; intros [|fuel] p v Hv Hb Hf Hlo; simpl in Hf; try lia.
  - simpl in Hb. apply bytes_at_cons in Hb as [Hb _]. cbn [parse_digits]. rewrite (load_Ok _ _ _ Hb). simpl.
    rewrite Hc. simpl. f_equal. lia.
  - rewrite fmap_cons in Hb. cbn [app] in Hb. apply bytes_at_cons in Hb as [Hb Hbs]. cbn [parse_digits].
    rewrite (load_Ok _ _ _ Hb). cbn [mbind outcome_bind].
    assert (schar (d + 48) = d + 48) as Es by (unfold schar; destruct (Z.ltb_spec (d + 48) 128); lia). rewrite Es.
    assert (isdigit (d + 48) = true) as -> by (unfold isdigit; apply andb_true_iff; lia).
    cbn [fold_left] in Hlo |- *. replace (- v * 10 + d) with (- (v * 10 - d)) in Hlo |- * by lia.
    pose proof (decimal_nonneg ds Hds) as Hnn. pose proof Hlo as Hlo'. rewrite decimal_app in Hlo'.
    assert (0 < 10 ^ Z.of_nat (length ds)) by (apply Z.pow_pos_nonneg; lia).
    assert (INT_MIN <= v * 10 - d) by nia. unfold INT_MIN, INT_MAX in *.
    rewrite int_val_Ok by (unfold INT_MIN, INT_MAX; lia). cbn [mbind outcome_bind].
    rewrite int_val_Ok by (unfold INT_MIN, INT_MAX; lia). cbn [mbind outcome_bind].
    replace (v * 10 - (d + 48 - 48)) with (v * 10 - d) by lia. apply IH; [lia|done|lia|done].
Qed.

Lemma skip_space_ok fuel m p sp c :
  Forall (fun b => isspace b = true) sp -> isspace c = false -> bytes_at m p (sp ++ [c]) -> (length sp < fuel)%nat ->
  skip_space fuel m p = Ok (p + Z.of_nat (length sp)).
Proof.
  intros Hsp Hc. revert fuel p. induction Hsp as [|b sp Hb Hsp IH]; intros [|fuel] p Hm Hf; simpl in Hf; try lia;
    cbn [app] in Hm; apply bytes_at_cons in Hm as [Hp Hm]; cbn [skip_space]; rewrite (load_Ok _ _ _ Hp); cbn [mbind outcome_bind].
  - rewrite Hc. simpl. f_equal. lia.
  - rewrite Hb, IH by (done || lia). simpl. f_equal. lia.
Qed.

(** White space, an optional sign, and digits up to the first other
    character: the signed value, for every value an [int] holds. *)
Lemma atoi_signed m p sp ds c neg :
  p <> NULL -> Forall (fun b => isspace b = true) sp -> Forall (fun d => 0 <= d <= 9) ds -> ds <> [] ->
  isdigit (schar c) = false ->
  bytes_at m p (sp ++ (if neg : bool then [45] else []) ++ ((fun d => d + 48) <$> ds) ++ [c]) ->
  INT_MIN <= (if neg then - decimal ds else decimal ds) <= INT_MAX ->
  atoi m p = Ok (if neg then - decimal ds else decimal ds).
Proof.
  intros Hp Hsp Hds Hne Hc Hb Hr. unfold atoi.
  rewrite kassert_true by (by apply negb_true_iff, Z.eqb_neq). cbn [mbind outcome_bind].
  pose proof (bytes_at_size _ _ _ Hb) as Hsz. rewrite !length_app, length_fmap in Hsz. simpl in Hsz.
  pose proof (decimal_nonneg ds Hds). apply bytes_at_app in Hb as [Hbs Hb].
  destruct ds as [|d ds]; [done|]. destruct neg; cbn [app] in Hb, Hsz.
  - pose proof Hb as Hb'. apply bytes_at_cons in Hb' as [Hm Hd].
    rewrite (skip_space_ok _ _ _ sp 45); [|done|done| |lia].
    2:{ apply bytes_at_app. split; [done|]. apply bytes_at_cons. split; [done|apply bytes_at_nil]. }
    cbn [mbind outcome_bind]. rewrite (load_Ok _ _ _ Hm). cbn [mbind outcome_bind schar Z.ltb Z.compare Pos.compare Pos.compare_cont].
    cbn -[parse_digits decimal size]. rewrite (parse_digits_ok _ _ _ (d :: ds) c 0); [done|done|done|lia|done|simpl in *; lia|apply Hr].
  - pose proof Hb as Hb'. rewrite fmap_cons in Hb'. cbn [app] in Hb'. apply bytes_at_cons in Hb' as [Hm _].
    assert (0 <= d <= 9) as Hd by (by inversion Hds).
    rewrite (skip_space_ok _ _ _ sp (d + 48)); [|done| | |lia].
    2:{ unfold isspace. repeat (rewrite (proj2 (Z.eqb_neq (d + 48) _)) by lia). done. }
    2:{ apply bytes_at_app. split; [done|]. apply bytes_at_cons. split; [done|apply bytes_at_nil]. }
    cbn [mbind outcome_bind]. rewrite (load_Ok _ _ _ Hm). cbn [mbind outcome_bind].
    assert (schar (d + 48) = d + 48) as -> by (unfold schar; destruct (Z.ltb_spec (d + 48) 128); lia).
    rewrite !(proj2 (Z.eqb_neq (d + 48) _)) by lia. cbn [negb andb orb].
    rewrite (parse_digits_ok _ _ _ (d :: ds) c 0); [|done|done|lia|done|simpl in *; lia|].
    + cbn [mbind outcome_bind]. change (fold_left _ (d :: ds) (- 0)) with (decimal (d :: ds)).
      rewrite Z.opp_involutive. by apply int_val_Ok.
    + change (fold_left _ (d :: ds) (- 0)) with (decimal (d :: ds)). unfold INT_MIN, INT_MAX in *. lia.
Qed.
