(* ===== verification/Printf.v ===== *)
(** * Formatted output (src/lib/stdio.c)

    [__vprintf] and its helpers compute the characters they pass to OUTPUT,
    in order; the callers hand them to their output function.  The format
    and string arguments are read from byte memory, a va_list is the list of
    32-bit words of the argument area. *)

From Stdlib Require Import Ascii String.
From S2P Require Import Prelude Memory CString HeapSort.
#[local] Close Scope string_scope.
#[local] Open Scope list_scope.
#[local] Open Scope Z_scope.

Definition chr (a : ascii) : Z := Z.of_N (N_of_ascii a).
Definition str (s : string) : list Z := chr <$> list_ascii_of_string s.

(** ** Arguments *)

Definition va_word (args : list Z) : outcome (Z * list Z) :=
  match args with w :: args' => Ok (u32 w, args') | [] => Err Fault end.
Definition va_int (args : list Z) : outcome (Z * list Z) := '(w, args) ← va_word args; Ok (s32 w, args).
(** 64-bit arguments take two words, the low one first. *)
Definition va_64 (args : list Z) : outcome (Z * list Z) :=
  '(lo, args) ← va_word args; '(hi, args) ← va_word args; Ok (lo + hi * 2 ^ 32, args).

(** ** Conversions *)

Definition MINUS : Z := 1.
Definition PLUS : Z := 2.
Definition SPACE : Z := 4.
Definition POUND : Z := 8.
Definition ZERO : Z := 16.
Definition GROUP : Z := 32.

Inductive conv_type := CHAR | SHORT | INT | INTMAX | LONG | LONGLONG | PTRDIFFT | SIZET.

Record printf_conversion := Conv { flags : Z; width : Z; precision : Z; type : conv_type }.

Definition flag (fs f : Z) : bool := negb (Z.land fs f =? 0).
Definition clear (fs f : Z) : Z := Z.land fs (Z.lnot f).

Record integer_base := IBase { base : Z; digits : list Z; x_char : Z; group : Z }.
Definition base_d : integer_base := IBase 10 (str "0123456789") 0 3.
Definition base_o : integer_base := IBase 8 (str "01234567") 0 3.
Definition base_x : integer_base := IBase 16 (str "0123456789abcdef") (chr "x") 4.
Definition base_X : integer_base := IBase 16 (str "0123456789ABCDEF") (chr "X") 4.

(** The flag a character stands for, if any. *)
Definition flag_of (ch : Z) : option Z :=
  if ch =? chr "-" then Some MINUS else if ch =? chr "+" then Some PLUS
  else if ch =? chr " " then Some SPACE else if ch =? chr "#" then Some POUND
  else if ch =? chr "0" then Some ZERO else if ch =? chr "'" then Some GROUP else None.

Fixpoint parse_flags (fuel : nat) (m : mem) (format fs : Z) : outcome (Z * Z) :=
  match fuel with
  | O => Err Fuel
  | S fuel' =>
      ch ← load m format;
      match flag_of ch with
      | Some f => parse_flags fuel' m (format + 1) (Z.lor fs f)
      | None => Ok (format, fs)
      end
  end.

(** [for (; isdigit ( *format); format++) n = n * 10 + *format - '0'] *)
Fixpoint parse_number (fuel : nat) (m : mem) (format n : Z) : outcome (Z * Z) :=
  match fuel with
  | O => Err Fuel
  | S fuel' =>
      ch ← load m format;
      if isdigit (schar ch) then
        n ← int_val (n * 10); n ← int_val (n + schar ch); parse_number fuel' m (format + 1) (n - 48)
      else Ok (format, n)
  end.

Definition parse_width (m : mem) (format fs : Z) (args : list Z) : outcome (Z * Z * Z * list Z) :=
  ch ← load m format;
  '(format, w, args) ←
    (if ch =? chr "*" then '(w, args) ← va_int args; Ok (format + 1, w, args)
     else '(format, w) ← parse_number (S (size m)) m format 0; Ok (format, w, args));
  if w <? 0 then w ← int_val (- w); Ok (format, w, Z.lor fs MINUS, args)
  else Ok (format, w, fs, args).

Definition parse_precision (m : mem) (format : Z) (args : list Z) : outcome (Z * Z * list Z) :=
  ch ← load m format;
  if ch =? chr "." then
    let format := format + 1 in
    ch ← load m format;
    '(format, p, args) ←
      (if ch =? chr "*" then '(p, args) ← va_int args; Ok (format + 1, p, args)
       else '(format, p) ← parse_number (S (size m)) m format 0; Ok (format, p, args));
    Ok (format, if p <? 0 then -1 else p, args)
  else Ok (format, -1, args).

Definition parse_type (m : mem) (format : Z) : outcome (Z * conv_type) :=
  ch ← load m format;
  if ch =? chr "h" then
    ch2 ← load m (format + 1);
    if ch2 =? chr "h" then Ok (format + 2, CHAR) else Ok (format + 1, SHORT)
  else if ch =? chr "j" then Ok (format + 1, INTMAX)
  else if ch =? chr "l" then
    ch2 ← load m (format + 1);
    if ch2 =? chr "l" then Ok (format + 2, LONGLONG) else Ok (format + 1, LONG)
  else if ch =? chr "t" then Ok (format + 1, PTRDIFFT)
  else if ch =? chr "z" then Ok (format + 1, SIZET)
  else Ok (format, INT).

Definition parse_conversion (m : mem) (format : Z) (args : list Z) : outcome (Z * printf_conversion * list Z) :=
  '(format, fs) ← parse_flags (S (size m)) m format 0;
  let fs := if flag fs MINUS then clear fs ZERO else fs in
  let fs := if flag fs PLUS then clear fs SPACE else fs in
  '(format, w, fs, args) ← parse_width m format fs args;
  '(format, p, args) ← parse_precision m format args;
  let fs := if 0 <=? p then clear fs ZERO else fs in
  '(format, ty) ← parse_type m format;
  Ok (format, Conv fs w p ty, args).

(** ** Integers *)

(** buf[64] from its start to [cp]. *)
Definition BUF_SIZE : Z := 64.
Definition push (buf : list Z) (ch : Z) : outcome (list Z) :=
  if Z.of_nat (length buf) <? BUF_SIZE then Ok (buf ++ [ch]) else Err Fault.

(** [while (value > 0)]: at most 64 turns for a 64-bit value. *)
Fixpoint put_digits (fuel : nat) (c : printf_conversion) (b : integer_base) (value digit_cnt : Z) (buf : list Z) : outcome (list Z) :=
  if 0 <? value then
    match fuel with
    | O => Err Fuel
    | S fuel' =>
        buf ← (if flag (flags c) GROUP && (0 <? digit_cnt) && (Z.rem digit_cnt (group b) =? 0) then push buf (chr ",") else Ok buf);
        d ← zget (digits b) (value mod base b);
        buf ← push buf d;
        put_digits fuel' c b (value / base b) (digit_cnt + 1) buf
    end
  else Ok buf.

(** [while (cp - buf < precision && cp < buf + sizeof buf - 1) *cp++ = '0'] *)
Fixpoint put_zeros (fuel : nat) (prec : Z) (buf : list Z) : outcome (list Z) :=
  if (Z.of_nat (length buf) <? prec) && (Z.of_nat (length buf) <? BUF_SIZE - 1) then
    match fuel with
    | O => Err Fuel
    | S fuel' => buf ← push buf (chr "0"); put_zeros fuel' prec buf
    end
  else Ok buf.

Definition output_dup (ch cnt : Z) : list Z := replicate (Z.to_nat cnt) ch.

Definition sign_char (c : printf_conversion) (is_signed negative : bool) : Z :=
  if is_signed then
    if flag (flags c) PLUS then if negative then chr "-" else chr "+"
    else if flag (flags c) SPACE then if negative then chr "-" else chr " "
    else if negative then chr "-" else 0
  else 0.

Definition format_integer (value : Z) (is_signed negative : bool) (b : integer_base) (c : printf_conversion) : outcome (list Z) :=
  let sign := sign_char c is_signed negative in
  let x := if flag (flags c) POUND && negb (value =? 0) then x_char b else 0 in
  buf ← put_digits 64 c b value 0 [];
  let prec := if precision c <? 0 then 1 else precision c in
  buf ← put_zeros 64 prec buf;
  buf ← (if flag (flags c) POUND && (base b =? 8) && negb (bool_decide (list.last buf = Some (chr "0")))
         then push buf (chr "0") else Ok buf);
  let pad_cnt := width c - Z.of_nat (length buf) - (if x =? 0 then 0 else 2) - (if sign =? 0 then 0 else 1) in
  let pad_cnt := if pad_cnt <? 0 then 0 else pad_cnt in
  Ok ((if Z.land (flags c) (Z.lor MINUS ZERO) =? 0 then output_dup (chr " ") pad_cnt else [])
      ++ (if sign =? 0 then [] else [sign])
      ++ (if x =? 0 then [] else [chr "0"; x])
      ++ (if flag (flags c) ZERO then output_dup (chr "0") pad_cnt else [])
      ++ reverse buf
      ++ (if flag (flags c) MINUS then output_dup (chr " ") pad_cnt else [])).

Definition format_string (s : list Z) (c : printf_conversion) : list Z :=
  let pad := if Z.of_nat (length s) <? width c then output_dup (chr " ") (width c - Z.of_nat (length s)) else [] in
  (if flag (flags c) MINUS then [] else pad) ++ s ++ (if flag (flags c) MINUS then pad else []).

Definition s8 (x : Z) : Z := let y := x mod 2 ^ 8 in if y <? 2 ^ 7 then y else y - 2 ^ 8.
Definition s16 (x : Z) : Z := let y := x mod 2 ^ 16 in if y <? 2 ^ 15 then y else y - 2 ^ 16.

Definition signed_arg (ty : conv_type) (args : list Z) : outcome (Z * list Z) :=
  match ty with
  | CHAR => '(w, args) ← va_int args; Ok (s8 w, args)
  | SHORT => '(w, args) ← va_int args; Ok (s16 w, args)
  | INT | LONG | PTRDIFFT => va_int args
  | INTMAX | LONGLONG => '(w, args) ← va_64 args; Ok (s64 w, args)
  | SIZET => '(w, args) ← va_word args; Ok (if (2 ^ 32 - 1) / 2 <? w then w - (2 ^ 32 - 1) - 1 else w, args)
  end.

Definition unsigned_arg (ty : conv_type) (args : list Z) : outcome (Z * list Z) :=
  match ty with
  | CHAR => '(w, args) ← va_word args; Ok (w mod 2 ^ 8, args)
  | SHORT => '(w, args) ← va_word args; Ok (w mod 2 ^ 16, args)
  | INT | LONG | SIZET => va_word args
  | INTMAX | LONGLONG => va_64 args
  | PTRDIFFT => '(w, args) ← va_int args; Ok (Z.land (u64 w) (Z.lor (Z.shiftl (2 ^ 31 - 1) 1) 1), args)
  end.

(** [-value] of the least intmax_t is undefined. *)
Definition neg_64 (v : Z) : outcome Z := if v =? - 2 ^ 63 then Err Fault else Ok (- v).

(** The string argument of %s: at most [precision] characters. *)
Definition string_arg (m : mem) (s prec : Z) : outcome (list Z) :=
  if s =? NULL then Ok (take (Z.to_nat (Z.min (u32 prec) 6)) (str "(null)"))
  else n ← strnlen m s (u32 prec); read_bytes (Z.to_nat n) m s.

(** One conversion, at the character [ch]. *)
Definition convert (m : mem) (ch : Z) (c : printf_conversion) (args : list Z) : outcome (list Z * list Z) :=
  if (ch =? chr "d") || (ch =? chr "i") then
    '(value, args) ← signed_arg (type c) args;
    abs ← (if value <? 0 then neg_64 value else Ok value);
    l ← format_integer abs true (value <? 0) base_d c; Ok (l, args)
  else if (ch =? chr "o") || (ch =? chr "u") || (ch =? chr "x") || (ch =? chr "X") then
    '(value, args) ← unsigned_arg (type c) args;
    let b := if ch =? chr "o" then base_o else if ch =? chr "u" then base_d else if ch =? chr "x" then base_x else base_X in
    l ← format_integer value false false b c; Ok (l, args)
  else if ch =? chr "c" then
    '(w, args) ← va_int args; Ok (format_string [u8 w] c, args)
  else if ch =? chr "s" then
    '(s, args) ← va_word args; l ← string_arg m s (precision c); Ok (format_string l c, args)
  else if ch =? chr "p" then
    '(p, args) ← va_word args; l ← format_integer p false false base_x (Conv POUND (width c) (precision c) (type c)); Ok (l, args)
  else if (ch =? chr "f") || (ch =? chr "e") || (ch =? chr "E") || (ch =? chr "g") || (ch =? chr "G") || (ch =? chr "n") then
    Ok (str "<<no %" ++ [ch] ++ str " in kernel>>", args)
  else Ok (str "<<no %" ++ [ch] ++ str " conversion>>", args).

(** The loop of __vprintf: the characters it outputs. *)
Fixpoint vprintf_loop (fuel : nat) (m : mem) (format : Z) (args : list Z) : outcome (list Z) :=
  match fuel with
  | O => Err Fuel
  | S fuel' =>
      ch ← load m format;
      if ch =? 0 then Ok []
      else if negb (ch =? chr "%") then l ← vprintf_loop fuel' m (format + 1) args; Ok (ch :: l)
      else
        let format := format + 1 in
        ch ← load m format;
        if ch =? chr "%" then l ← vprintf_loop fuel' m (format + 1) args; Ok (ch :: l)
        else
          '(format, c, args) ← parse_conversion m format args;
          ch ← load m format;
          '(out, args) ← convert m ch c args;
          l ← vprintf_loop fuel' m (format + 1) args; Ok (out ++ l)
  end.
Definition vprintf_chars (m : mem) (format : Z) (args : list Z) : outcome (list Z) :=
  vprintf_loop (S (size m)) m format args.

(** ** Output to a buffer *)

Record vsnprintf_aux := Aux { p : Z; length_ : Z; max_length : Z }.

Definition vsnprintf_helper (ch : Z) (s : vsnprintf_aux * mem) : outcome (vsnprintf_aux * mem) :=
  let '(aux, m) := s in
  n ← int_val (length_ aux + 1);
  if length_ aux <? max_length aux then m ← store m (p aux) ch; Ok (Aux (p aux + 1) n (max_length aux), m)
  else Ok (Aux (p aux) n (max_length aux), m).

Fixpoint output_all (l : list Z) (s : vsnprintf_aux * mem) : outcome (vsnprintf_aux * mem) :=
  match l with [] => Ok s | ch :: l' => s ← vsnprintf_helper ch s; output_all l' s end.

(** The buffer does not overlap the format or the strings printed. *)
Definition vsnprintf (m : mem) (buffer buf_size format : Z) (args : list Z) : outcome (Z * mem) :=
  let aux := Aux buffer 0 (if 0 <? buf_size then s32 (buf_size - 1) else 0) in
  l ← vprintf_chars m format args;
  '(aux, m) ← output_all l (aux, m);
  m ← (if 0 <? buf_size then store m (p aux) 0 else Ok m);
  Ok (length_ aux, m).
Definition snprintf (m : mem) (buffer buf_size format : Z) (args : list Z) : outcome (Z * mem) :=
  vsnprintf m buffer buf_size format args.

Definition fmt_mem (s : string) : mem := map_seqZ 1000 (str s ++ [0]).
Example printf_flags :
  vprintf_chars (fmt_mem "[%5d|%-5d|%05d|%+d|%x|%#X|%o|%'u|%%|%c|%lld]") 1000
    [42; 42; 42; 42; 255; 255; 8; 1234567; 65; 2 ^ 32 - 5; 2 ^ 32 - 1]
  = Ok (str "[   42|42   |00042|+42|ff|0XFF|10|1,234,567|%|A|-5]").
Proof. vm_compute. reflexivity. Qed.

(** ** The digit buffer is large enough *)

Definition known_base (b : integer_base) : Prop := b = base_d \/ b = base_o \/ b = base_x \/ b = base_X.

Lemma is_bytes l : forallb (fun b => (0 <=? b) && (b <? 256)) l = true -> Forall is_byte l.
Proof.
  rewrite forallb_forall. intros H. apply list.Forall_forall. intros b Hb. apply list_elem_of_In, H, andb_true_iff in Hb. unfold is_byte. lia.
Qed.

Lemma digit_ok b v : known_base b -> 0 <= v -> exists d, zget (digits b) (v mod base b) = Ok d /\ is_byte d.
Proof.
  intros Hb Hv. assert (Forall is_byte (digits b) /\ Z.of_nat (length (digits b)) = base b /\ 0 < base b) as (Hd & Hl & Hp).
  { destruct Hb as [->|[->|[->| ->]]]; (split; [by apply is_bytes|split; reflexivity]). }
  pose proof (Z.mod_pos_bound v (base b) Hp). exists (znth 0 (digits b) (v mod base b)). split; [apply zget_znth; lia|].
  eapply (proj1 (list.Forall_forall _ _) Hd), list_elem_of_lookup_2, znth_lookup. lia.
Qed.

Lemma put_digits_fits k fuel c b v n buf :
  known_base b -> 0 <= v < 8 ^ Z.of_nat k -> (k <= fuel)%nat -> (length buf + 2 * k <= 63)%nat -> Forall is_byte buf ->
  exists buf', put_digits fuel c b v n buf = Ok buf' /\ (length buf' <= length buf + 2 * k)%nat /\ Forall is_byte buf'.
Proof.
  intros Hb. revert fuel v n buf. induction k as [|k IH]; intros fuel v n buf Hv Hf Hl Hbs.
  - assert (v = 0) as -> by (simpl in Hv; lia). exists buf. destruct fuel; (split_and!; [done|lia|done]).
  - destruct (Z.ltb_spec 0 v) as [Hpos|Hz].
    2:{ assert (v = 0) as -> by lia. exists buf. destruct fuel; (split_and!; [done|lia|done]). }
    destruct fuel as [|fuel]; [lia|]. cbn [put_digits]. rewrite (proj2 (Z.ltb_lt 0 v)) by done.
    assert (exists buf1, (if flag (flags c) GROUP && (0 <? n) && (Z.rem n (group b) =? 0) then push buf (chr ",") else Ok buf) = Ok buf1 /\
              (length buf1 <= length buf + 1)%nat /\ Forall is_byte buf1) as (buf1 & -> & Hl1 & Hb1).
    { case_match; [|exists buf; split_and!; [done|lia|done]]. unfold push, BUF_SIZE. rewrite (proj2 (Z.ltb_lt _ _)) by lia.
      exists (buf ++ [chr ","]). split_and!; [done|rewrite length_app; simpl; lia|]. apply Forall_app. split; [done|].
      by apply is_bytes. }
    cbn [mbind outcome_bind]. destruct (digit_ok b v Hb) as (d & -> & Hd); [lia|]. cbn [mbind outcome_bind].
    unfold push, BUF_SIZE. rewrite (proj2 (Z.ltb_lt _ _)) by lia. cbn [mbind outcome_bind].
    destruct (IH fuel (v / base b) (n + 1) (buf1 ++ [d])) as (buf' & -> & Hl' & Hb').
    + assert (8 <= base b) by (destruct Hb as [->|[->|[->| ->]]]; simpl; lia).
      split; [apply Z.div_pos; lia|]. rewrite Nat2Z.inj_succ, Z.pow_succ_r in Hv by lia. apply Z.div_lt_upper_bound; nia.
    + lia.
    + rewrite length_app. simpl. lia.
    + apply Forall_app. split; [done|by constructor].
    + exists buf'. split_and!; [done| |done]. rewrite length_app in Hl'. simpl in Hl'. lia.
Qed.

Lemma put_zeros_fits fuel q buf : (length buf <= 63)%nat -> (63 - length buf <= fuel)%nat -> Forall is_byte buf ->
  exists buf', put_zeros fuel q buf = Ok buf' /\ (length buf' <= 63)%nat /\ Forall is_byte buf'.
Proof.
  revert buf. induction fuel as [|fuel IH]; intros buf Hl Hf Hb; cbn [put_zeros]; unfold BUF_SIZE;
    destruct ((Z.of_nat (length buf) <? q) && (Z.of_nat (length buf) <? 64 - 1)) eqn:E; try by exists buf.
  - apply andb_true_iff in E. lia.
  - unfold push, BUF_SIZE. apply andb_true_iff in E. rewrite (proj2 (Z.ltb_lt _ _)) by lia. cbn [mbind outcome_bind].
    apply IH; [rewrite length_app; simpl; lia|rewrite length_app; simpl; lia|]. apply Forall_app. split; [done|].
    by apply is_bytes.
Qed.

(** The steps of format_integer up to the padding. *)
Lemma format_integer_buf v c b : known_base b -> 0 <= v < 2 ^ 64 ->
  exists buf1 buf2 buf, put_digits 64 c b v 0 [] = Ok buf1 /\
    put_zeros 64 (if precision c <? 0 then 1 else precision c) buf1 = Ok buf2 /\
    (if flag (flags c) POUND && (base b =? 8) && negb (bool_decide (list.last buf2 = Some (chr "0"))) then push buf2 (chr "0") else Ok buf2) = Ok buf /\
    Forall is_byte buf.
Proof.
  intros Hb Hv. destruct (put_digits_fits 22 64 c b v 0 []) as (buf1 & E1 & L1 & B1); [done|simpl; lia|lia|simpl; lia|constructor|].
  destruct (put_zeros_fits 64 (if precision c <? 0 then 1 else precision c) buf1) as (buf2 & E2 & L2 & B2); [simpl in L1; lia|lia|done|].
  exists buf1, buf2. destruct (flag (flags c) POUND && (base b =? 8) && negb (bool_decide (list.last buf2 = Some (chr "0")))).
  - exists (buf2 ++ [chr "0"]). split_and!; [done|done| |].
    + unfold push, BUF_SIZE. by rewrite (proj2 (Z.ltb_lt _ _)) by lia.
    + apply Forall_app. split; [done|]. by apply is_bytes.
  - exists buf2. done.
Qed.

(** C32: format_integer never overruns its buffer of 64 characters: for every
    64-bit value, base and conversion it returns, and its output fills the
    field width. *)
Theorem format_integer_fits v is_signed negative b c : known_base b -> 0 <= v < 2 ^ 64 ->
  exists l, format_integer v is_signed negative b c = Ok l /\ width c <= Z.of_nat (length l).
Proof.
  intros Hb Hv. destruct (format_integer_buf v c b Hb Hv) as (buf1 & buf2 & buf & E1 & E2 & E3 & _).
  unfold format_integer. rewrite E1. cbn [mbind outcome_bind]. rewrite E2. cbn [mbind outcome_bind]. rewrite E3. cbn [mbind outcome_bind].
  eexists. split; [done|]. set (x := if flag (flags c) POUND && _ then _ else 0). set (sg := sign_char c is_signed negative).
  set (kx := if x =? 0 then 0 else 2). set (ks := if sg =? 0 then 0 else 1).
  set (pad := if _ <? 0 then 0 else _).
  assert (width c <= pad + Z.of_nat (length buf) + kx + ks /\ 0 <= pad) as [Hw Hp0].
  { subst pad. destruct (Z.ltb_spec (width c - Z.of_nat (length buf) - kx - ks) 0); lia. }
  clearbody pad. subst kx ks.
  rewrite !length_app, length_reverse. unfold output_dup. unfold flag, MINUS, ZERO in *. change (Z.lor 1 16) with 17.
  assert (Z.land (flags c) 17 = 0 \/ Z.land (flags c) 16 <> 0 \/ Z.land (flags c) 1 <> 0) as Hfl.
  { destruct (decide (Z.land (flags c) 16 = 0)) as [H16|]; [|auto]. destruct (decide (Z.land (flags c) 1 = 0)) as [H1|]; [|auto].
    left. change 17 with (Z.lor 16 1). rewrite Z.land_lor_distr_r, H16, H1. done. }
  destruct (x =? 0), (sg =? 0), (Z.eqb_spec (Z.land (flags c) 17) 0), (Z.eqb_spec (Z.land (flags c) 16) 0), (Z.eqb_spec (Z.land (flags c) 1) 0);
    cbn [negb length]; rewrite ?length_replicate; try lia; destruct Hfl as [|[|]]; try done; lia.
Qed.

Lemma format_integer_fits_witness :
  exists l, format_integer (2 ^ 64 - 1) false false base_o (Conv (Z.lor GROUP POUND) 40 63 INTMAX) = Ok l /\ 40 <= Z.of_nat (length l).
Proof. apply (format_integer_fits (2 ^ 64 - 1) false false base_o (Conv (Z.lor GROUP POUND) 40 63 INTMAX)); [right; left; reflexivity|lia]. Defined.

(** ** Output to a buffer *)

Lemma output_all_ok l b n mx m : 0 <= n -> n + Z.of_nat (length l) <= INT_MAX ->
  mapped m b (Z.to_nat (mx - n)) ->
  output_all l (Aux b n mx, m) =
    let t := take (Z.to_nat (mx - n)) l in Ok (Aux (b + Z.of_nat (length t)) (n + Z.of_nat (length l)) mx, put m b t).
Proof.
  revert b n m. induction l as [|ch l IH]; intros b n m Hn Hmax Hm; cbn [output_all].
  - rewrite take_nil, put_nil. cbn [length]. do 3 f_equal; lia.
  - cbn [length] in Hmax. cbn [vsnprintf_helper length_ max_length p]. unfold vsnprintf_helper. cbn [length_ max_length p].
    rewrite int_val_Ok by (unfold INT_MIN, INT_MAX in *; lia). cbn [mbind outcome_bind].
    destruct (Z.ltb_spec n mx) as [Hlt|Hge].
    + rewrite store_Ok by (apply Hm; lia). cbn [mbind outcome_bind].
      replace (Z.to_nat (mx - n)) with (S (Z.to_nat (mx - (n + 1)))) in * by lia.
      rewrite IH; [|lia|lia|apply mapped_put; intros a Ha; apply Hm; lia]. cbn [take length]. cbv zeta.
      rewrite <- !(put_cons m b ch), put_nil. do 3 f_equal; lia.
    + cbn [mbind outcome_bind]. replace (Z.to_nat (mx - n)) with 0%nat in * by lia.
      rewrite IH; [|lia|lia|replace (Z.to_nat (mx - (n + 1))) with 0%nat by lia; done].
      replace (Z.to_nat (mx - (n + 1))) with 0%nat by lia. cbn [take length]. cbv zeta. do 3 f_equal; lia.
Qed.

(** vsnprintf stores as much as fits with a terminator and returns the full
    length. *)
Lemma vsnprintf_ok m buffer buf_size format args l :
  vprintf_chars m format args = Ok l -> Z.of_nat (length l) <= INT_MAX -> 0 < buf_size < 2 ^ 31 ->
  mapped m buffer (Z.to_nat buf_size) ->
  vsnprintf m buffer buf_size format args =
    Ok (Z.of_nat (length l), put m buffer (take (Z.to_nat (buf_size - 1)) l ++ [0])).
Proof.
  intros Hl Hmax Hs Hm. unfold vsnprintf. rewrite (proj2 (Z.ltb_lt 0 buf_size)) by lia. rewrite s32_small by lia. rewrite Hl.
  cbn [mbind outcome_bind]. rewrite output_all_ok; [|lia|lia|intros a Ha; apply Hm; lia]. rewrite Z.sub_0_r, Z.add_0_l. cbv zeta. cbn [mbind outcome_bind p length_].
  set (t := take _ l). assert (length t <= Z.to_nat (buf_size - 1))%nat as Ht by (subst t; rewrite length_take; lia).
  rewrite store_Ok by (apply (mapped_put m buffer t buffer _ Hm); lia). cbn [mbind outcome_bind]. by rewrite put_app.
Qed.

(** ** Digits *)

(** Bases whose digits are the characters from '0' on. *)
Definition numeric (b : integer_base) : Prop := b = base_d \/ b = base_o.

Lemma digit_char b d : numeric b -> 0 <= d < base b -> zget (digits b) d = Ok (d + 48).
Proof.
  intros Hb Hd. assert (d ∈ seqZ 0 (base b)) as Hin by (apply elem_of_seqZ; lia). clear Hd. revert d Hin. apply list.Forall_forall.
  destruct Hb as [-> | ->]; vm_compute; repeat constructor.
Qed.

Lemma numeric_base b : numeric b -> 8 <= base b <= 10.
Proof. intros [-> | ->]; simpl; lia. Qed.

(** The value of a list of digits, least and most significant first. *)
Definition digits_value (b : Z) (ds : list Z) : Z := foldr (fun d v => d + b * v) 0 ds.
Definition positional (b : Z) (ds : list Z) : Z := fold_left (fun v d => v * b + d) ds 0.

Lemma positional_snoc b ds d : positional b (ds ++ [d]) = positional b ds * b + d.
Proof. unfold positional. by rewrite fold_left_app. Qed.

Lemma positional_reverse b ds : positional b (reverse ds) = digits_value b ds.
Proof. induction ds as [|d ds IH]; [done|]. rewrite reverse_cons, positional_snoc, IH. simpl. lia. Qed.

Lemma positional_decimal ds : decimal ds = positional 10 ds.
Proof. reflexivity. Qed.

Lemma put_digits_value k fuel c b v n buf :
  numeric b -> flag (flags c) GROUP = false -> 0 <= v < base b ^ Z.of_nat k -> (k <= fuel)%nat -> (length buf + k <= 64)%nat ->
  exists ds, put_digits fuel c b v n buf = Ok (buf ++ ((fun d => d + 48) <$> ds)) /\ digits_value (base b) ds = v /\
    Forall (fun d => 0 <= d < base b) ds /\ (length ds <= k)%nat /\ (v = 0 -> ds = []).
Proof.
  intros Hb Hc. pose proof (numeric_base b Hb) as Hbb. revert fuel v n buf. induction k as [|k IH]; intros fuel v n buf Hv Hf Hl.
  - assert (v = 0) as -> by (simpl in Hv; lia). exists []. rewrite app_nil_r. destruct fuel; done.
  - destruct (decide (v = 0)) as [->|Hnz]; [exists []; rewrite app_nil_r; destruct fuel; (split_and!; [done..|simpl; lia|done])|].
    destruct fuel as [|fuel]; [lia|]. cbn [put_digits]. rewrite (proj2 (Z.ltb_lt 0 v)) by lia. rewrite Hc. cbn [andb mbind outcome_bind].
    rewrite (digit_char b) by (done || apply Z.mod_pos_bound; lia). cbn [mbind outcome_bind].
    unfold push, BUF_SIZE. rewrite (proj2 (Z.ltb_lt _ _)) by lia. cbn [mbind outcome_bind].
    destruct (IH fuel (v / base b) (n + 1) (buf ++ [v mod base b + 48])) as (ds & E & Hval & Hds & Hlen & _).
    + rewrite Nat2Z.inj_succ, Z.pow_succ_r in Hv by lia. split; [apply Z.div_pos; lia|apply Z.div_lt_upper_bound; lia].
    + lia.
    + rewrite length_app. simpl. lia.
    + exists (v mod base b :: ds). rewrite E, <- app_assoc. split_and!; [done| | |simpl; lia|done].
      * cbn [digits_value foldr]. unfold digits_value in Hval. rewrite Hval. pose proof (Z.div_mod v (base b)). lia.
      * constructor; [apply Z.mod_pos_bound; lia|done].
Qed.

(** The digits of a value without precision: at least one. *)
Lemma integer_digits k v c b :
  numeric b -> flag (flags c) GROUP = false -> 0 <= v < base b ^ Z.of_nat k -> (1 <= k <= 63)%nat ->
  exists buf1 ds, put_digits 64 c b v 0 [] = Ok buf1 /\ put_zeros 64 1 buf1 = Ok ((fun d => d + 48) <$> ds) /\
    digits_value (base b) ds = v /\ Forall (fun d => 0 <= d < base b) ds /\ (1 <= length ds <= k)%nat.
Proof.
  intros Hb Hc Hv Hk. destruct (put_digits_value k 64 c b v 0 []) as (ds & E & Hval & Hds & Hlen & Hz); [done|done|done|lia|simpl; lia|].
  rewrite app_nil_l in E. exists ((fun d => d + 48) <$> ds). pose proof (numeric_base b Hb). destruct ds as [|d ds].
  - exists [0]. split_and!; [exact E|reflexivity|cbn [digits_value foldr] in *; lia|apply Forall_singleton; lia|simpl; lia|simpl; lia].
  - exists (d :: ds). split_and!; [exact E| |done|done|cbn [length] in *; lia|cbn [length] in *; lia]. rewrite fmap_cons. cbn [put_zeros length].
    by rewrite (proj2 (Z.ltb_ge _ 1)) by lia.
Qed.

Definition conv_d : printf_conversion := Conv 0 0 (-1) INT.

(** %d of a value: an optional sign and its decimal digits. *)
Lemma format_decimal v neg : 0 <= v < 2 ^ 32 ->
  exists ds, format_integer v true neg base_d conv_d = Ok ((if neg : bool then [45] else []) ++ ((fun d => d + 48) <$> ds)) /\
    decimal ds = v /\ Forall (fun d => 0 <= d <= 9) ds /\ ds <> [] /\ (length ds <= 10)%nat.
Proof.
  intros Hv. destruct (integer_digits 10 v conv_d base_d) as (buf1 & ds & E & E' & Hval & Hds & Hlen); [by left|done|simpl; lia|lia|].
  exists (reverse ds). unfold format_integer. rewrite E. cbn [mbind outcome_bind]. change (if precision conv_d <? 0 then 1 else precision conv_d) with 1.
  rewrite E'. cbn [mbind outcome_bind]. change (flag (flags conv_d) POUND) with false. cbn [andb mbind outcome_bind].
  change (if 0 =? 0 then 0 else 2) with 0. change (width conv_d) with 0. split_and!.
  - change (Z.land (flags conv_d) (Z.lor MINUS ZERO) =? 0) with true. change (flag (flags conv_d) ZERO) with false.
    change (flag (flags conv_d) MINUS) with false. cbv iota. rewrite app_nil_r, fmap_reverse. cbn [Z.eqb].
    unfold output_dup. rewrite length_fmap. replace (Z.to_nat _) with 0%nat; [by destruct neg|].
    set (k := if sign_char _ _ _ =? 0 then 0 else 1). assert (0 <= k) by (subst k; case_match; lia). by rewrite (proj2 (Z.ltb_lt _ 0)) by lia.
  - by rewrite positional_decimal, positional_reverse.
  - apply Forall_reverse. eapply Forall_impl; [|exact Hds]. cbn. intros d Hd. change (base base_d) with 10 in Hd. lia.
  - intros H. apply (f_equal length) in H. rewrite length_reverse in H. cbn [length] in H. lia.
  - rewrite length_reverse. lia.
Qed.

(** %0[w]o of a value of at most [w] octal digits: exactly [w] digits. *)
Definition conv_o (w : Z) : printf_conversion := Conv ZERO w (-1) INT.
Lemma format_octal w v : (1 <= w <= 63)%nat -> 0 <= v < 8 ^ Z.of_nat w ->
  exists ds, format_integer v false false base_o (conv_o (Z.of_nat w)) = Ok ((fun d => d + 48) <$> ds) /\
    positional 8 ds = v /\ Forall (fun d => 0 <= d < 8) ds /\ length ds = w.
Proof.
  intros Hw Hv. destruct (integer_digits w v (conv_o (Z.of_nat w)) base_o) as (buf1 & ds & E & E' & Hval & Hds & Hlen); [by right|done|done|done|].
  exists (replicate (w - length ds) 0 ++ reverse ds). unfold format_integer. rewrite E. cbn [mbind outcome_bind].
  change (if precision (conv_o (Z.of_nat w)) <? 0 then 1 else precision (conv_o (Z.of_nat w))) with 1.
  rewrite E'. cbn [mbind outcome_bind]. change (flag (flags (conv_o (Z.of_nat w))) POUND) with false. cbn [andb mbind outcome_bind sign_char].
  change (0 =? 0) with true. cbv iota. change (width (conv_o (Z.of_nat w))) with (Z.of_nat w). rewrite length_fmap. split_and!.
  - change (Z.land (flags (conv_o (Z.of_nat w))) (Z.lor MINUS ZERO) =? 0) with false. change (flag (flags (conv_o (Z.of_nat w))) ZERO) with true.
    change (flag (flags (conv_o (Z.of_nat w))) MINUS) with false. cbv iota. rewrite app_nil_r, fmap_app, fmap_reverse, fmap_replicate. unfold output_dup.
    cbn [app]. do 3 f_equal. rewrite (proj2 (Z.ltb_ge _ 0)) by lia. lia.
  - clear E E' Hlen Hds. rewrite <- Hval, <- positional_reverse. induction (w - length ds)%nat as [|n IH]; [done|]. exact IH.
  - apply Forall_app. split; [apply Forall_replicate; lia|by apply Forall_reverse].
  - rewrite length_app, length_replicate, length_reverse. lia.
Qed.

(** ** Literal formats *)

(** Evaluates the tests of the format parser on literal characters. *)
Ltac closed_bool t := let v := eval vm_compute in t in match v with true => change t with true | false => change t with false end.
Ltac format_step :=
  match goal with
  | H : ?m !! ?p = Some ?c |- context [load ?m ?p] => rewrite (load_Ok m p c H)
  | |- context [flag_of ?c] => let v := eval vm_compute in (flag_of c) in change (flag_of c) with v
  | |- context [isdigit ?c] => closed_bool (isdigit c)
  | |- context [int_val ?n] => let v := eval vm_compute in (int_val n) in match v with Ok ?k => change (int_val n) with (@Ok Z k) end
  | |- context [Z.eqb ?a ?b] => closed_bool (Z.eqb a b)
  | |- context [Z.ltb ?a ?b] => closed_bool (Z.ltb a b)
  | |- context [Z.leb ?a ?b] => closed_bool (Z.leb a b)
  | |- context [flag ?a ?b] => closed_bool (flag a b)
  end; cbn [mbind outcome_bind]; cbv beta iota zeta.
Ltac format_run := repeat (format_step; cbn [parse_flags parse_number]).

(** %s without width or precision copies its argument. *)
Lemma convert_string m p s args : 0 < p < 2 ^ 32 -> cstr m p s -> Z.of_nat (length s) < 2 ^ 32 ->
  convert m (chr "s") conv_d (p :: args) = Ok (s, args).
Proof.
  intros Hp Hs Hl. unfold convert. format_run. cbn [orb]. cbn [va_word]. cbn [mbind outcome_bind]. rewrite u32_small by lia.
  unfold string_arg. rewrite (proj2 (Z.eqb_neq p NULL)) by (unfold NULL; lia). change (u32 (precision conv_d)) with (2 ^ 32 - 1).
  rewrite (strnlen_ok _ _ s) by (done || lia). cbn [mbind outcome_bind]. rewrite Nat2Z.id, read_bytes_ok by (by apply cstr_bytes). cbn [mbind outcome_bind].
  unfold format_string. change (width conv_d) with 0. rewrite (proj2 (Z.ltb_ge _ 0)) by lia. change (flag (flags conv_d) MINUS) with false. cbv iota.
  by rewrite app_nil_l, app_nil_r.
Qed.

(** The loop, one character or conversion at a time. *)
Lemma vprintf_end fuel m f args : m !! f = Some 0 -> vprintf_loop (S fuel) m f args = Ok [].
Proof. intros Hf. cbn [vprintf_loop]. by rewrite (load_Ok _ _ _ Hf). Qed.

Lemma vprintf_char fuel m f c args l : m !! f = Some c -> c <> 0 -> c <> chr "%" ->
  vprintf_loop fuel m (f + 1) args = Ok l -> vprintf_loop (S fuel) m f args = Ok (c :: l).
Proof.
  intros Hf H0 Hp Hl. cbn [vprintf_loop]. rewrite (load_Ok _ _ _ Hf). cbn [mbind outcome_bind].
  rewrite (proj2 (Z.eqb_neq c 0)), (proj2 (Z.eqb_neq c (chr "%"))) by done. cbn [negb]. by rewrite Hl.
Qed.

Lemma vprintf_conv fuel m f c0 f' cv c args args1 args2 out l :
  m !! f = Some (chr "%") -> m !! (f + 1) = Some c0 -> c0 <> chr "%" -> parse_conversion m (f + 1) args = Ok (f', cv, args1) ->
  m !! f' = Some c -> convert m c cv args1 = Ok (out, args2) -> vprintf_loop fuel m (f' + 1) args2 = Ok l ->
  vprintf_loop (S fuel) m f args = Ok (out ++ l).
Proof.
  intros Hf Hc0 Hne Hp Hc Hcv Hl. cbn [vprintf_loop]. rewrite (load_Ok _ _ _ Hf). cbn [mbind outcome_bind]. change (chr "%" =? 0) with false.
  change (chr "%" =? chr "%") with true. cbn [negb]. cbv zeta iota. rewrite (load_Ok _ _ _ Hc0). cbn [mbind outcome_bind].
  rewrite (proj2 (Z.eqb_neq c0 _)) by done. rewrite Hp. cbn [mbind outcome_bind]. rewrite (load_Ok _ _ _ Hc). cbn [mbind outcome_bind].
  rewrite Hcv. cbn [mbind outcome_bind]. by rewrite Hl.
Qed.

(** A conversion without flags, width, precision or type. *)
Lemma parse_plain m f c args : c = chr "d" \/ c = chr "s" -> m !! f = Some c -> parse_conversion m f args = Ok (f, conv_d, args).
Proof.
  intros Hc Hf. unfold parse_conversion, parse_width, parse_precision, parse_type. cbn [parse_flags parse_number]. destruct Hc as [-> | ->]; format_run; reflexivity.
Qed.

Lemma convert_decimal m v args : INT_MIN <= v <= INT_MAX ->
  exists ds, convert m (chr "d") conv_d (v :: args) = Ok ((if v <? 0 then [45] else []) ++ ((fun d => d + 48) <$> ds), args) /\
    decimal ds = Z.abs v /\ Forall (fun d => 0 <= d <= 9) ds /\ ds <> [] /\ (length ds <= 10)%nat.
Proof.
  intros Hv. unfold INT_MIN, INT_MAX in Hv. destruct (format_decimal (Z.abs v) (v <? 0)) as (ds & E & Hds); [lia|]. exists ds. split; [|done].
  unfold convert. change (chr "d" =? chr "d") with true. cbn [orb]. change (type conv_d) with INT. cbn [signed_arg]. unfold va_int, va_word. cbn [mbind outcome_bind].
  assert (s32 (u32 v) = v) as -> by (unfold s32, u32; rewrite Z.mod_mod by lia; apply s32_small; lia).
  assert ((if v <? 0 then neg_64 v else Ok v) = Ok (Z.abs v)) as ->.
  { destruct (Z.ltb_spec v 0); unfold neg_64; [rewrite (proj2 (Z.eqb_neq v _)) by lia|]; f_equal; lia. }
  cbn [mbind outcome_bind]. by rewrite E.
Qed.

(** ** %d and atoi *)

(** The format string %d. *)
Definition fmt_d : list Z := str "%d" ++ [0].

Lemma vprintf_d m f v args : bytes_at m f fmt_d -> INT_MIN <= v <= INT_MAX ->
  exists ds, vprintf_chars m f (v :: args) = Ok ((if v <? 0 then [45] else []) ++ ((fun d => d + 48) <$> ds)) /\
    decimal ds = Z.abs v /\ Forall (fun d => 0 <= d <= 9) ds /\ ds <> [] /\ (length ds <= 10)%nat.
Proof.
  intros Hf Hv. pose proof (bytes_at_size _ _ _ Hf) as Hsz. change (length fmt_d) with 3%nat in Hsz.
  change fmt_d with [chr "%"; chr "d"; 0] in Hf. apply bytes_at_cons in Hf as [H0 Hf]. apply bytes_at_cons in Hf as [H1 Hf]. apply bytes_at_cons in Hf as [H2 _].
  destruct (convert_decimal m v args Hv) as (ds & E & Hds). exists ds. split; [|done]. unfold vprintf_chars. destruct (size m) as [|n]; [lia|].
  erewrite vprintf_conv; [|exact H0|exact H1|done|apply (parse_plain _ _ (chr "d")); [by left|exact H1]|exact H1|exact E|by apply vprintf_end]. by rewrite app_nil_r.
Qed.

(** Printing an int with %d and reading it back with atoi gives it back,
    for every int and every buffer of at least 12 bytes: snprintf stores the
    whole number, terminated, and returns its length. *)
Theorem printf_atoi_roundtrip m buf n fmt v :
  INT_MIN <= v <= INT_MAX -> bytes_at m fmt fmt_d -> buf <> NULL -> 12 <= n < 2 ^ 31 -> mapped m buf (Z.to_nat n) ->
  exists l m', snprintf m buf n fmt [v] = Ok (Z.of_nat (length l), m') /\ m' = put m buf (l ++ [0]) /\ atoi m' buf = Ok v.
Proof.
  intros Hv Hf Hnull Hn Hm. destruct (vprintf_d m fmt v [] Hf Hv) as (ds & E & Hval & Hds & Hne & Hlen).
  set (l := _ ++ _) in E. exists l. assert (length l <= 11)%nat as Hl by (subst l; rewrite length_app, length_fmap; destruct (v <? 0); simpl; lia).
  eexists. split; [|split; [reflexivity|]].
  - unfold snprintf. rewrite (vsnprintf_ok _ _ _ _ _ l E); [|unfold INT_MAX; lia|lia|done]. rewrite take_ge by lia. reflexivity.
  - assert (v = if v <? 0 then - decimal ds else decimal ds) as Hsg by (destruct (Z.ltb_spec v 0); lia). rewrite Hsg at 1.
    apply (atoi_signed _ _ [] ds 0); [done|constructor|done|done|done| |by rewrite <- Hsg].
    rewrite app_nil_l, app_assoc. apply bytes_at_put.
Qed.

Lemma printf_atoi_roundtrip_witness :
  exists l m', snprintf (put (fmt_mem "%d") 2000 (replicate 12 0)) 2000 12 1000 [INT_MIN] = Ok (Z.of_nat (length l), m')
    /\ m' = put (put (fmt_mem "%d") 2000 (replicate 12 0)) 2000 (l ++ [0]) /\ atoi m' 2000 = Ok INT_MIN.
Proof.
  apply printf_atoi_roundtrip; [unfold INT_MIN, INT_MAX; lia| |unfold NULL; lia|lia|].
  - apply bytes_at_put_disjoint; [|cbn; lia]. unfold bytes_at. reflexivity.
  - apply (bytes_at_mapped _ _ (replicate 12 0)), bytes_at_put.
Defined.

(** A format that ends in a lone % is read past its terminator: the byte
    after it is taken as the next character of the format. *)
Example lone_percent_overreads :
  vprintf_chars (map_seqZ 1000 [37; 0]) 1000 [] = Err Fault /\
  vprintf_chars (map_seqZ 1000 [37; 0; 65; 0]) 1000 [] = Ok (str "<<no %" ++ [0] ++ str " conversion>>" ++ [65]).
Proof. split; vm_compute; reflexivity. Qed.
