(* ===== verification/Ustar.v ===== *)
(** * Tar archive headers (src/lib/ustar.c)

    A header is 512 bytes of memory at the address [header]; the offsets of
    its fields are those of the packed [struct ustar_header].  The string
    literals of the program are at the addresses [lit]. *)

From Stdlib Require Import Ascii String.
From S2P Require Import Prelude Memory CString HeapSort Printf.
#[local] Close Scope string_scope.
#[local] Open Scope list_scope.
#[local] Open Scope Z_scope.

(** ** The format *)

Definition USTAR_HEADER_SIZE : Z := 512.
Definition USTAR_REGULAR : Z := chr "0".
Definition USTAR_DIRECTORY : Z := chr "5".
Definition USTAR_EOF : Z := -1.

(** A field of the header: its offset and its size. *)
Record ufield := UField { offset : Z; fsize : Z }.
Definition h_name : ufield := UField 0 100.
Definition h_mode : ufield := UField 100 8.
Definition h_uid : ufield := UField 108 8.
Definition h_gid : ufield := UField 116 8.
Definition h_size : ufield := UField 124 12.
Definition h_mtime : ufield := UField 136 12.
Definition h_chksum : ufield := UField 148 8.
Definition h_typeflag : ufield := UField 156 1.
Definition h_linkname : ufield := UField 157 100.
Definition h_magic : ufield := UField 257 6.
Definition h_version : ufield := UField 263 2.
Definition h_uname : ufield := UField 265 32.
Definition h_gname : ufield := UField 297 32.
Definition h_devmajor : ufield := UField 329 8.
Definition h_devminor : ufield := UField 337 8.
Definition h_prefix : ufield := UField 345 155.
Definition h_padding : ufield := UField 500 12.

(** The loop of calculate_chksum from byte [i] on. *)
Fixpoint chksum_loop (n : nat) (m : mem) (h i chksum : Z) : outcome Z :=
  match n with
  | O => Ok chksum
  | S n' =>
      let in_chksum_field := (offset h_chksum <=? i) && (i <? offset h_chksum + fsize h_chksum) in
      c ← (if in_chksum_field then Ok (chr " ") else load m (h + i));
      chksum_loop n' m h (i + 1) (u32 (chksum + c))
  end.
Definition calculate_chksum (m : mem) (h : Z) : outcome Z := chksum_loop (Z.to_nat USTAR_HEADER_SIZE) m h 0 0.

(** *value and whether the field is well formed. *)
Fixpoint octal_loop (n : nat) (m : mem) (s ofs value : Z) : outcome (bool * Z) :=
  match n with
  | O => Ok (false, value)
  | S n' =>
      c ← load m (s + ofs);
      if (chr "0" <=? schar c) && (schar c <=? chr "7") then
        if (2 ^ 32 - 1) / 8 <? value then Ok (false, value)
        else octal_loop n' m s (ofs + 1) (u32 (c - chr "0" + value * 8))
      else if (c =? chr " ") || (c =? 0) then Ok (0 <? ofs, value)
      else Ok (false, value)
  end.
Definition parse_octal_field (m : mem) (s size : Z) : outcome (bool * Z) := octal_loop (Z.to_nat size) m s 0 0.

Fixpoint all_zeros (cnt : nat) (m : mem) (block : Z) : outcome bool :=
  match cnt with
  | O => Ok true
  | S cnt' => b ← load m block; if negb (b =? 0) then Ok false else all_zeros cnt' m (block + 1)
  end.
Definition is_all_zeros (m : mem) (block cnt : Z) : outcome bool := all_zeros (Z.to_nat cnt) m block.

(** ** Operations *)

Section ustar.
(** The addresses of the string literals. *)
Variable lit : string -> Z.

Definition antisocial (m : mem) (file_name : Z) : outcome bool :=
  c ← load m file_name;
  if c =? chr "/" then Ok true
  else
    r ← memcmp m file_name (lit "./") 2;
    if r =? 0 then Ok true else r ← memcmp m file_name (lit "../") 3; Ok (r =? 0).

Fixpoint strip_loop (fuel : nat) (m : mem) (file_name : Z) : outcome Z :=
  match fuel with
  | O => Err Fuel
  | S fuel' =>
      a ← antisocial m file_name;
      if a : bool then p ← strchr m file_name (chr "/"); strip_loop fuel' m (p + 1) else Ok file_name
  end.

Definition strip_antisocial_prefixes (m : mem) (file_name : Z) : outcome Z :=
  file_name ← strip_loop (size m) m file_name;
  c ← load m file_name;
  if c =? 0 then Ok (lit ".")
  else r ← strcmp m file_name (lit ".."); Ok (if r =? 0 then lit "." else file_name).

Definition ustar_make_header (m : mem) (file_name type size header : Z) : outcome (bool * mem) :=
  let fld (f : ufield) := header + offset f in
  kassert ((type =? USTAR_REGULAR) || (type =? USTAR_DIRECTORY)) ≫= fun _ =>
  file_name ← strip_antisocial_prefixes m file_name;
  n ← strlen m file_name;
  if 99 <? n then Ok (false, m)
  else
    '(_, m) ← memset m header 0 USTAR_HEADER_SIZE;
    '(_, m) ← strlcpy m (fld h_name) file_name (fsize h_name);
    '(_, m) ← snprintf m (fld h_mode) (fsize h_mode) (lit "%07o") [if type =? USTAR_REGULAR then 420 else 493];
    '(_, m) ← strlcpy m (fld h_uid) (lit "0000000") (fsize h_uid);
    '(_, m) ← strlcpy m (fld h_gid) (lit "0000000") (fsize h_gid);
    '(_, m) ← snprintf m (fld h_size) (fsize h_size) (lit "%011o") [size];
    '(_, m) ← snprintf m (fld h_mtime) (fsize h_size) (lit "%011o") [1136102400];
    m ← store m (fld h_typeflag) type;
    '(_, m) ← strlcpy m (fld h_magic) (lit "ustar") (fsize h_magic);
    m ← store m (fld h_version + 1) (chr "0");
    m ← store m (fld h_version) (chr "0");
    '(_, m) ← strlcpy m (fld h_gname) (lit "root") (fsize h_gname);
    '(_, m) ← strlcpy m (fld h_uname) (lit "root") (fsize h_uname);
    chksum ← calculate_chksum m header;
    '(_, m) ← snprintf m (fld h_chksum) (fsize h_chksum) (lit "%07o") [chksum];
    Ok (true, m).

(** The error message, or the file name, the type and the size. *)
Definition ustar_parse_header (m : mem) (header : Z) : outcome (string + Z * Z * Z) :=
  let fld (f : ufield) := header + offset f in
  z ← is_all_zeros m header USTAR_HEADER_SIZE;
  if z : bool then Ok (inr (NULL, USTAR_EOF, 0))
  else
    r ← memcmp m (fld h_magic) (lit "ustar") 6;
    if negb (r =? 0) then Ok (inl "not a ustar archive"%string) else
    v0 ← load m (fld h_version); 
    bad ← (if negb (v0 =? chr "0") then Ok true else v1 ← load m (fld h_version + 1); Ok (negb (v1 =? chr "0")));
    if bad : bool then Ok (inl "invalid ustar version"%string) else
    '(ok, chksum) ← parse_octal_field m (fld h_chksum) (fsize h_chksum);
    if negb ok then Ok (inl "corrupt chksum field"%string) else
    sum ← calculate_chksum m header;
    if negb (chksum =? sum) then Ok (inl "checksum mismatch"%string) else
    c ← load m (fld h_name + fsize h_name - 1);
    long ← (if negb (c =? 0) then Ok true else c ← load m (fld h_prefix); Ok (negb (c =? 0)));
    if long : bool then Ok (inl "file name too long"%string) else
    ty ← load m (fld h_typeflag);
    if negb (ty =? USTAR_REGULAR) && negb (ty =? USTAR_DIRECTORY) then Ok (inl "unimplemented file type"%string) else
    size_ul ←
      (if ty =? USTAR_REGULAR then
         '(ok, size_ul) ← parse_octal_field m (fld h_size) (fsize h_size);
         if negb ok then Ok (inl "corrupt file size field"%string)
         else if INT_MAX <? size_ul then Ok (inl "file too large"%string) else Ok (inr size_ul)
       else Ok (inr 0));
    match size_ul with
    | inl msg => Ok (inl msg)
    | inr size_ul => file_name ← strip_antisocial_prefixes m (fld h_name); Ok (inr (file_name, ty, size_ul))
    end.
End ustar.

(** A program image with the literals, a file name and a buffer. *)
Definition ustar_lits : list (string * Z) :=
  [("./"%string, 1000); ("../"%string, 1010); (".."%string, 1020); ("."%string, 1030); ("%07o"%string, 1040);
   ("0000000"%string, 1050); ("%011o"%string, 1060); ("ustar"%string, 1070); ("root"%string, 1080)].
Definition lit0 (s : string) : Z := match List.find (fun e => String.eqb s (fst e)) ustar_lits with Some (_, a) => a | None => 0 end.
Definition image0 : mem := foldr (fun e m => put m (snd e) (str (fst e) ++ [0])) ∅ ustar_lits.
Definition mem_name (s : string) : mem := put (put image0 2000 (str s ++ [0])) 3000 (replicate 512 7).

Example ustar_header_example :
  ('(ok, m) ← ustar_make_header lit0 (mem_name "/../a/b.c") 2000 USTAR_REGULAR 1234 3000;
   r ← ustar_parse_header lit0 m 3000; Ok (ok, r)) = Ok (true, inr (3000, USTAR_REGULAR, 1234)).
Proof. vm_compute. reflexivity. Qed.

(** ** Octal numbers *)

Definition octal_format (w : nat) : list Z := if decide (w = 7%nat) then str "%07o" else str "%011o".

Lemma parse_octal m f w args : w = 7%nat \/ w = 11%nat -> bytes_at m (f + 1) (drop 1 (octal_format w)) ->
  parse_conversion m (f + 1) args = Ok (f + Z.of_nat (length (octal_format w)) - 1, conv_o (Z.of_nat w), args).
Proof.
  intros Hw Hb. pose proof (bytes_at_size _ _ _ Hb) as Hsz. unfold parse_conversion, parse_width, parse_precision, parse_type.
  destruct Hw as [-> | ->].
  - change (drop 1 (octal_format 7)) with [48; 55; 111] in *. rewrite !bytes_at_cons in Hb. destruct Hb as (H1 & H2 & H3 & _).
    destruct (size m) as [|[|k]]; [simpl in Hsz; lia..|]. cbn [parse_flags parse_number]. format_run.
    change (length (octal_format 7)) with 4%nat. do 3 f_equal; lia.
  - change (drop 1 (octal_format 11)) with [48; 49; 49; 111] in *. rewrite !bytes_at_cons in Hb. destruct Hb as (H1 & H2 & H3 & H4 & _).
    destruct (size m) as [|[|k]]; [simpl in Hsz; lia..|]. cbn [parse_flags parse_number]. format_run.
    change (length (octal_format 11)) with 5%nat. do 3 f_equal; lia.
Qed.

Lemma vprintf_octal m f w v : w = 7%nat \/ w = 11%nat -> bytes_at m f (octal_format w ++ [0]) -> 0 <= u32 v < 8 ^ Z.of_nat w ->
  exists ds, vprintf_chars m f [v] = Ok ((fun d => d + 48) <$> ds) /\
    positional 8 ds = u32 v /\ Forall (fun d => 0 <= d < 8) ds /\ length ds = w.
Proof.
  intros Hw Hb Hv. destruct (format_octal w (u32 v)) as (ds & E & Hds); [lia|done|]. exists ds. split; [|done].
  assert (exists b r, octal_format w = b :: r /\ b = chr "%" /\ exists r' , r = r' ++ [chr "o"] /\ (2 <= length r')%nat /\ hd 0 r' = chr "0") as (b & r & E1 & -> & r' & -> & Hr' & Hhd).
  { destruct Hw as [-> | ->]; [exists (chr "%"), (str "07o")|exists (chr "%"), (str "011o")]; (split; [done|split; [done|]]);
      [exists (str "07")|exists (str "011")]; vm_compute; split_and!; try done; lia. }
  pose proof (parse_octal m f w []) as Hp. pose proof (bytes_at_size _ _ _ Hb) as Hsz. rewrite E1 in *. cbn [drop app length] in *.
  apply bytes_at_cons in Hb as [H0 Hb]. pose proof Hb as Hb'. apply bytes_at_app in Hb as [Hb Hz]. apply bytes_at_cons in Hz as [Hz _].
  specialize (Hp Hw Hb). apply bytes_at_app in Hb as [Hb Ho]. apply bytes_at_cons in Ho as [Ho _].
  destruct r' as [|d0 r']; [done|]. simpl in Hhd. subst d0. apply bytes_at_cons in Hb as [H1 _].
  unfold vprintf_chars. destruct (size m) as [|k]; [lia|]. cbn [vprintf_loop].
  rewrite (load_Ok _ _ _ H0). cbn [mbind outcome_bind]. change (chr "%" =? 0) with false. change (chr "%" =? chr "%") with true. cbn [negb]. cbv zeta iota.
  rewrite (load_Ok _ _ _ H1). cbn [mbind outcome_bind]. change (chr "0" =? chr "%") with false. cbv iota.
  assert (forall a, parse_conversion m (f + 1) a = Ok (f + 1 + Z.of_nat (length (chr "0" :: r')), conv_o (Z.of_nat w), a)) as ->.
  { intros a. pose proof (parse_octal m f w a Hw) as Ha. rewrite E1 in Ha. cbn [drop] in Ha. rewrite Ha; [do 3 f_equal; cbn [length]; rewrite length_app; simpl; lia|].
    by apply bytes_at_app in Hb' as [Hb' _]. }
  cbn [mbind outcome_bind]. rewrite (load_Ok _ _ _ Ho). cbn [mbind outcome_bind].
  unfold convert. change ((chr "o" =? chr "d") || (chr "o" =? chr "i")) with false. change (chr "o" =? chr "o") with true. cbn [orb].
  cbn [type conv_o unsigned_arg va_word mbind outcome_bind]. cbv zeta. rewrite E. cbn [mbind outcome_bind].
  rewrite length_app in Hz. replace (f + 1 + Z.of_nat (length (chr "0" :: r')) + 1) with (f + 1 + Z.of_nat (length (chr "0" :: r') + length [chr "o"])) by (simpl; lia).
  rewrite (load_Ok _ _ _ Hz). cbn [mbind outcome_bind]. change (0 =? 0) with true. cbn [mbind outcome_bind]. by rewrite app_nil_r.
Qed.

(** ** Stripped names *)

(** The name without the prefixes "/", "./" and "../". *)
Fixpoint strip (s : list Z) : list Z :=
  match s with
  | [] => []
  | c :: t =>
      if c =? chr "/" then strip t
      else if c =? chr "." then
        match t with
        | d :: t' =>
            if d =? chr "/" then strip t'
            else if d =? chr "." then match t' with e :: t'' => if e =? chr "/" then strip t'' else s | [] => s end else s
        | [] => s
        end
      else s
  end.
Definition safe_name (s : list Z) : list Z :=
  let t := strip s in if decide (t = [] \/ t = str "..") then str "." else t.

(** A prefix to drop: the characters before its slash, and what follows. *)
Inductive bad_prefix : list Z -> list Z -> list Z -> Prop :=
| BadSlash t : bad_prefix (chr "/" :: t) [] t
| BadDot t : bad_prefix (chr "." :: chr "/" :: t) [chr "."] t
| BadDots t : bad_prefix (chr "." :: chr "." :: chr "/" :: t) [chr "."; chr "."] t.

Lemma strip_step s l t : bad_prefix s l t -> strip s = strip t /\ s = l ++ chr "/" :: t /\ text l /\ chr "/" ∉ l.
Proof.
  intros []; (split; [reflexivity|split; [done|split]]); try (by apply text_check); by rewrite ?elem_of_cons, elem_of_nil; intuition.
Qed.

Definition bad_lead (s : list Z) : bool :=
  bool_decide (head s = Some (chr "/")) || bool_decide (take 2 s = str "./") || bool_decide (take 3 s = str "../").

Lemma bad_lead_prefix s : bad_lead s = true -> exists l t, bad_prefix s l t.
Proof.
  unfold bad_lead. rewrite !orb_true_iff, !bool_decide_eq_true. intros [[H|H]|H].
  - destruct s as [|c s]; [done|]. injection H as ->. exists [], s. constructor.
  - destruct s as [|c [|d s]]; try done. injection H as -> ->. exists [chr "."], s. constructor.
  - destruct s as [|c [|d [|e s]]]; try done. injection H as -> -> ->. exists [chr "."; chr "."], s. constructor.
Qed.

Lemma strip_done s : bad_lead s = false -> strip s = s.
Proof.
  unfold bad_lead. rewrite !orb_false_iff, !bool_decide_eq_false. intros [[H1 H2] H3].
  destruct s as [|c s]; [done|]. cbn [strip]. destruct (Z.eqb_spec c (chr "/")) as [->|]; [done|].
  destruct (Z.eqb_spec c (chr ".")) as [->|]; [|done]. destruct s as [|d s]; [done|].
  destruct (Z.eqb_spec d (chr "/")) as [->|]; [done|]. destruct (Z.eqb_spec d (chr ".")) as [->|]; [|done].
  destruct s as [|e s]; [done|]. destruct (Z.eqb_spec e (chr "/")) as [->|]; [done|]. done.
Qed.

Lemma strip_suffix n s : (length s <= n)%nat -> exists pre, s = pre ++ strip s /\ bad_lead (strip s) = false.
Proof.
  revert s. induction n as [|n IH]; intros s Hn.
  - destruct s; [|simpl in Hn; lia]. by exists [].
  - destruct (bad_lead s) eqn:E; [|exists []; by rewrite strip_done].
    destruct (bad_lead_prefix s E) as (l & t & Hb). destruct (strip_step _ _ _ Hb) as (Hst & Hs & _).
    destruct (IH t) as (pre & Ht & Hl); [rewrite Hs, length_app in Hn; simpl in Hn; lia|].
    exists (l ++ chr "/" :: pre). rewrite Hst. split; [|done]. rewrite Hs at 1. rewrite <- app_assoc. cbn [app]. by rewrite <- Ht.
Qed.

Lemma safe_name_idem s : safe_name (safe_name s) = safe_name s.
Proof.
  unfold safe_name at 2 3. case_decide as Hd; [done|]. destruct (strip_suffix (length s) s) as (pre & _ & Hl); [done|].
  unfold safe_name. rewrite strip_done by done. by rewrite decide_False.
Qed.

(** Comparing a string with a literal by memcmp: nothing is read past the
    first difference. *)
Lemma compare_prefix l m a b s : text l -> bytes_at m b l -> cstr m a s ->
  exists r, compare_bytes (length l) m a b = Ok r /\ (r = 0 <-> take (length l) s = l).
Proof.
  intros Hl. revert a b s. induction Hl as [|c l Hc Hl IH]; intros a b s Hb Ha; cbn [length compare_bytes take]; [by exists 0|].
  apply bytes_at_cons in Hb as [Hb1 Hb]. destruct s as [|d s].
  - apply cstr_nil in Ha. rewrite (load_Ok _ _ _ Ha), (load_Ok _ _ _ Hb1). cbn [mbind outcome_bind].
    rewrite (proj2 (Z.eqb_neq 0 c)) by (destruct Hc; congruence). eexists. split; [done|]. split; [case_match; lia|done].
  - apply cstr_cons in Ha as (_ & Ha1 & Ha). rewrite (load_Ok _ _ _ Ha1), (load_Ok _ _ _ Hb1). cbn [mbind outcome_bind take].
    destruct (Z.eqb_spec d c) as [->|Hne].
    + destruct (IH _ _ _ Hb Ha) as (r & -> & Hr). exists r. split; [done|]. rewrite Hr. split; [by intros ->|by intros [= ->]].
    + eexists. split; [done|]. split; [case_match; lia|naive_solver].
Qed.

Lemma strchr_first m p c l t : 0 < p -> c <> 0 -> is_byte c -> c ∉ l -> cstr m p (l ++ c :: t) ->
  strchr m p c = Ok (p + Z.of_nat (length l)).
Proof.
  intros Hp Hc0 Hc Hin Hs. pose proof (cstr_size _ _ _ Hs) as Hsz. rewrite length_app in Hsz. destruct Hs as [Ht Hb]. unfold strchr.
  rewrite nonnull_assert by (unfold NULL; lia). cbn [mbind outcome_bind]. rewrite u8_small by (unfold is_byte in Hc; lia).
  rewrite <- app_assoc in Hb. cbn [app] in Hb. pose proof Hb as Hb'. rewrite cons_middle, app_assoc in Hb. apply bytes_at_app in Hb as [Hb _].
  apply bytes_at_app in Hb' as [_ Hb']. apply bytes_at_cons in Hb' as [Hcm _].
  rewrite (scan_stop _ _ _ _ l c); [| done| |by rewrite Z.eqb_refl|lia].
  - cbn [mbind outcome_bind]. rewrite (load_Ok _ _ _ Hcm). cbn [mbind outcome_bind]. by rewrite Z.eqb_refl.
  - apply text_app in Ht as [Ht _]. apply list.Forall_forall. intros b Hb1. pose proof (proj1 (list.Forall_forall _ _) Ht b Hb1) as [_ Hb0].
    rewrite (proj2 (Z.eqb_neq b c)) by (intros ->; done). by rewrite (proj2 (Z.eqb_neq b 0)).
Qed.

(** ** The bytes of a header *)

(** The checksum of the bytes [l] from offset [i] on. *)
Fixpoint csum (i : Z) (l : list Z) : Z :=
  match l with
  | [] => 0
  | b :: l' => (if (148 <=? i) && (i <? 156) then 32 else b) + csum (i + 1) l'
  end.

Lemma csum_bounds i l : Forall is_byte l -> 0 <= csum i l <= 255 * Z.of_nat (length l).
Proof.
  intros Hl. revert i. induction Hl as [|b l Hb _ IH]; intros i; [simpl; lia|]. cbn [csum length]. specialize (IH (i + 1)). unfold is_byte in Hb.
  destruct (_ && _); lia.
Qed.

Lemma chksum_loop_ok l m h i acc : bytes_at m (h + i) l -> Forall is_byte l -> 0 <= acc -> acc + 255 * Z.of_nat (length l) < 2 ^ 32 ->
  chksum_loop (length l) m h i acc = Ok (acc + csum i l).
Proof.
  intros Hb Hl. revert i acc Hb. induction Hl as [|b l Hbyte Hl IH]; intros i acc Hb Ha Hs; cbn [length chksum_loop csum]; [f_equal; lia|].
  apply bytes_at_cons in Hb as [Hb1 Hb]. cbn [length] in Hs. unfold is_byte in Hbyte. change (offset h_chksum) with 148. change (148 + fsize h_chksum) with 156.
  set (x := if (148 <=? i) && (i <? 156) then 32 else b). assert (0 <= x <= 255) by (subst x; destruct (_ && _); lia).
  assert ((if (148 <=? i) && (i <? 156) then Ok (chr " ") else load m (h + i)) = Ok x) as -> by (subst x; rewrite (load_Ok _ _ _ Hb1); by destruct (_ && _)).
  cbn [mbind outcome_bind]. rewrite u32_small by lia. rewrite IH; [f_equal; lia|by rewrite Z.add_assoc|lia|lia].
Qed.

Lemma csum_ext i l l' : length l = length l' ->
  (forall k, ~ 148 <= i + Z.of_nat k < 156 -> l !! k = l' !! k) -> csum i l = csum i l'.
Proof.
  revert i l'. induction l as [|b l IH]; intros i [|b' l'] Hl Hk; try done. cbn [csum]. f_equal.
  - destruct ((148 <=? i) && (i <? 156)) eqn:E; [done|]. apply andb_false_iff in E. specialize (Hk 0%nat). simpl in Hk. injection Hk; [done|lia].
  - apply IH; [simpl in Hl; lia|]. intros k Hkk. apply (Hk (S k)). lia.
Qed.

(** Byte strings at given offsets of a header. *)
Definition has (l : list Z) (fs : list (nat * list Z)) : Prop := Forall (fun f => window l (fst f) (length (snd f)) = snd f) fs.

Lemma window_splice_other {A} (l new : list A) i j n :
  (i + length new <= length l)%nat -> (i + length new <= j \/ j + n <= i)%nat -> window (splice l i new) j n = window l j n.
Proof.
  intros Hl Hd. apply list_eq. intros k. rewrite !lookup_window. case_decide; [|done]. rewrite lookup_splice by done. by rewrite decide_False by lia.
Qed.

Lemma has_splice l i new fs : (i + length new <= length l)%nat ->
  Forall (fun f => i + length new <= fst f \/ fst f + length (snd f) <= i)%nat fs -> has l fs -> has (splice l i new) ((i, new) :: fs).
Proof.
  intros Hl Hd Hh. constructor; [by apply window_splice_same|]. unfold has in *. rewrite list.Forall_forall in *. intros f Hf.
  rewrite window_splice_other; auto.
Qed.

Lemma has_lookup l fs i bs k b : has l fs -> (i, bs) ∈ fs -> bs !! k = Some b -> l !! (i + k)%nat = Some b.
Proof.
  intros Hh Hin Hb. pose proof (proj1 (list.Forall_forall _ _) Hh _ Hin) as Hw. simpl in Hw. pose proof (lookup_lt_Some _ _ _ Hb).
  rewrite <- Hw, lookup_window in Hb. by rewrite decide_True in Hb.
Qed.

Lemma put_splice m h l i new : (i + length new <= length l)%nat -> put (put m h l) (h + Z.of_nat i) new = put m h (splice l i new).
Proof.
  intros Hl. apply map_eq. intros a. rewrite !lookup_put, length_splice by done. destruct (decide (h <= a < h + Z.of_nat (length l))).
  - rewrite lookup_splice by done. case_decide; case_decide; try lia; [f_equal; lia|done].
  - by rewrite !decide_False by lia.
Qed.

Lemma bytes_has m h l fs i bs : has l fs -> (i, bs) ∈ fs -> bytes_at (put m h l) (h + Z.of_nat i) bs.
Proof.
  intros Hh Hin. apply bytes_at_lookup. intros k b Hk. rewrite lookup_put. pose proof (has_lookup _ _ _ _ _ _ Hh Hin Hk) as Hl.
  pose proof (lookup_lt_Some _ _ _ Hl). rewrite decide_True by lia. rewrite <- Hl. f_equal. lia.
Qed.

(** A field of octal digits. *)
Lemma octal_loop_ok ds m s ofs value n c :
  Forall (fun d => 0 <= d < 8) ds -> c = 0 \/ c = chr " " -> bytes_at m (s + ofs) (((fun d => d + 48) <$> ds) ++ [c]) ->
  (length ds < n)%nat -> 0 <= ofs -> 0 < ofs + Z.of_nat (length ds) -> 0 <= value ->
  fold_left (fun v d => v * 8 + d) ds value < 2 ^ 32 ->
  octal_loop n m s ofs value = Ok (true, fold_left (fun v d => v * 8 + d) ds value).
Proof.
  intros Hds Hc. revert ofs value n. induction Hds as [|d ds Hd Hds IH]; intros ofs value n Hb Hn H0 Hpos Hv Hlim; (destruct n as [|n]; [simpl in *; lia|]);
    cbn [fmap list_fmap app] in Hb; apply bytes_at_cons in Hb as [Hp Hb]; cbn [octal_loop]; rewrite (load_Ok _ _ _ Hp); cbn [mbind outcome_bind fold_left].
  - simpl in Hpos. destruct Hc as [-> | ->]; cbn; by rewrite (proj2 (Z.ltb_lt 0 ofs)) by lia.
  - unfold schar. rewrite (proj2 (Z.ltb_lt (d + 48) 128)) by lia. change (chr "0") with 48. change (chr "7") with 55.
    rewrite (proj2 (Z.leb_le 48 (d + 48))), (proj2 (Z.leb_le (d + 48) 55)) by lia. cbn [andb].
    assert (value * 8 + d <= fold_left (fun v d => v * 8 + d) ds (value * 8 + d)) as Hle.
    { assert (0 <= value * 8 + d) as Hx by lia. clear -Hds Hx. revert Hx. generalize (value * 8 + d). induction Hds as [|e ds He _ IH]; intros x Hx; cbn [fold_left]; [lia|].
      specialize (IH (x * 8 + e)). lia. }
    cbn [fold_left] in Hlim. rewrite (proj2 (Z.ltb_ge _ value)) by (apply Z.div_le_lower_bound; lia).
    replace (d + 48 - 48 + value * 8) with (value * 8 + d) by lia. rewrite u32_small by lia.
    apply IH; [by rewrite Z.add_assoc|simpl in Hn; lia|lia|simpl in *; lia|lia|done].
Qed.

Lemma parse_octal_ok m s size ds : Forall (fun d => 0 <= d < 8) ds -> bytes_at m s (((fun d => d + 48) <$> ds) ++ [0]) ->
  (0 < length ds)%nat -> Z.of_nat (length ds) < size -> positional 8 ds < 2 ^ 32 -> parse_octal_field m s size = Ok (true, positional 8 ds).
Proof.
  intros Hds Hb Hpos Hn Hlim. unfold parse_octal_field. apply (octal_loop_ok ds _ _ _ _ _ 0); [done|by left|by rewrite Z.add_0_r|lia|lia|lia|lia|exact Hlim].
Qed.

(** ** The functions on a program image *)

Section image.
Variable lit : string -> Z.

(** The literals are in memory at their addresses. *)
Definition image (m : mem) : Prop := Forall (fun s => 0 < lit s /\ cstr m (lit s) (str s)) (fst <$> ustar_lits).

Lemma image_lit m s : image m -> List.existsb (String.eqb s) (fst <$> ustar_lits) = true -> 0 < lit s /\ cstr m (lit s) (str s).
Proof.
  intros Hi Hs. apply existsb_exists in Hs as (s' & Hin & Heq). apply String.eqb_eq in Heq as <-.
  by apply (proj1 (list.Forall_forall _ _) Hi), list_elem_of_In.
Qed.

Lemma memcmp_literal m p s t : 0 < p -> cstr m p s -> image m -> List.existsb (String.eqb t) (fst <$> ustar_lits) = true ->
  exists r, memcmp m p (lit t) (Z.of_nat (length (str t))) = Ok r /\ (r = 0 <-> take (length (str t)) s = str t).
Proof.
  intros Hp Hs Hi Ht. destruct (image_lit m t Hi Ht) as [Hl Hc]. unfold memcmp.
  rewrite !kassert_true by (apply orb_true_iff; left; apply negb_true_iff, Z.eqb_neq; unfold NULL; lia). cbn [mbind outcome_bind]. rewrite Nat2Z.id.
  apply compare_prefix; [by destruct Hc|by apply cstr_bytes|done].
Qed.

Lemma cstr_head m p s : cstr m p s -> m !! p = Some (match s with [] => 0 | c :: _ => c end).
Proof. destruct s as [|c s]; [apply cstr_nil|]. intros Hs. by apply cstr_cons in Hs as (_ & Hp & _). Qed.

Lemma antisocial_ok m p s : 0 < p -> cstr m p s -> image m -> antisocial lit m p = Ok (bad_lead s).
Proof.
  intros Hp Hs Hi. unfold antisocial. rewrite (load_Ok _ _ _ (cstr_head _ _ _ Hs)). cbn [mbind outcome_bind].
  assert (bool_decide (head s = Some (chr "/")) = (match s with [] => 0 | c :: _ => c end =? chr "/")) as E.
  { destruct s as [|c s]; [done|]. cbn [head]. case_bool_decide as H; destruct (Z.eqb_spec c (chr "/")); congruence. }
  unfold bad_lead. rewrite E. destruct (_ =? chr "/"); [done|]. cbn [orb].
  destruct (memcmp_literal m p s "./" Hp Hs Hi eq_refl) as (r & Er & Hr). change (Z.of_nat (length (str "./"))) with 2 in Er. rewrite Er. cbn [mbind outcome_bind].
  change (length (str "./")) with 2%nat in Hr. destruct (Z.eqb_spec r 0) as [Hr0|Hr0]; [by rewrite bool_decide_eq_true_2 by (by apply Hr)|].
  rewrite bool_decide_eq_false_2 by (rewrite <- Hr; done). cbn [orb].
  destruct (memcmp_literal m p s "../" Hp Hs Hi eq_refl) as (r' & Er' & Hr'). change (Z.of_nat (length (str "../"))) with 3 in Er'. rewrite Er'. cbn [mbind outcome_bind].
  change (length (str "../")) with 3%nat in Hr'. f_equal. rewrite <- (bool_decide_ext _ _ Hr'). destruct (Z.eqb_spec r' 0); [by rewrite bool_decide_eq_true_2|by rewrite bool_decide_eq_false_2].
Qed.

Lemma cstr_suffix m p l s : cstr m p (l ++ s) -> cstr m (p + Z.of_nat (length l)) s.
Proof. intros [Ht Hb]. apply text_app in Ht as [_ Ht]. rewrite <- app_assoc in Hb. by apply bytes_at_app in Hb as [_ Hb]. Qed.

Lemma strip_loop_ok fuel m p s : 0 < p -> cstr m p s -> image m -> (length s < fuel)%nat ->
  strip_loop lit fuel m p = Ok (p + Z.of_nat (length s) - Z.of_nat (length (strip s))).
Proof.
  revert p s. induction fuel as [|fuel IH]; intros p s Hp Hs Hi Hf; [lia|]. cbn [strip_loop].
  rewrite (antisocial_ok _ _ s) by done. cbn [mbind outcome_bind]. destruct (bad_lead s) eqn:E.
  - destruct (bad_lead_prefix s E) as (l & t & Hb). destruct (strip_step _ _ _ Hb) as (-> & -> & Hl & Hn).
    rewrite (strchr_first _ _ _ l t) by (done || unfold is_byte; simpl; lia). cbn [mbind outcome_bind].
    rewrite cons_middle, app_assoc in Hs. apply cstr_suffix in Hs. rewrite length_app in *. cbn [length] in *.
    rewrite (IH _ t); [f_equal; lia|lia| |done|lia]. by replace (p + Z.of_nat (length l) + 1) with (p + Z.of_nat (length l + 1)) by lia.
  - rewrite strip_done by done. f_equal. lia.
Qed.

Lemma strip_ok m p s : 0 < p -> cstr m p s -> image m ->
  exists q, strip_antisocial_prefixes lit m p = Ok q /\ 0 < q /\ cstr m q (safe_name s) /\
    (q = lit "." /\ safe_name s = str "." \/ q = p + Z.of_nat (length s) - Z.of_nat (length (strip s)) /\ safe_name s = strip s).
Proof.
  intros Hp Hs Hi. unfold strip_antisocial_prefixes. rewrite (strip_loop_ok _ _ _ s); [|done..|by eapply cstr_size]. cbn [mbind outcome_bind].
  destruct (strip_suffix (length s) s) as (pre & Hpre & _); [done|]. pose proof (f_equal length Hpre) as Hlen. rewrite length_app in Hlen. set (q := p + _ - _).
  assert (cstr m q (strip s)) as Hq.
  { rewrite Hpre in Hs. apply cstr_suffix in Hs. replace q with (p + Z.of_nat (length pre)); [done|]. subst q. lia. }
  assert (0 < q) by (subst q; lia).
  destruct (image_lit m "." Hi eq_refl) as [Hd1 Hd2]. destruct (image_lit m ".." Hi eq_refl) as [Hdd1 Hdd2].
  rewrite (load_Ok _ _ _ (cstr_head _ _ _ Hq)). cbn [mbind outcome_bind]. unfold safe_name.
  destruct (strip s) as [|c t] eqn:Et; [exists (lit "."); rewrite decide_True by auto; split_and!; [done|done|done|by left]|].
  assert (c <> 0) as Hc by (by apply cstr_cons in Hq as ((_ & Hc) & _)). rewrite (proj2 (Z.eqb_neq c 0)) by done.
  rewrite (strcmp_ok _ _ _ (c :: t) (str "..")) by (done || unfold NULL; lia). cbn [mbind outcome_bind].
  destruct (Z.eqb_spec (str_order (c :: t) (str "..")) 0) as [E|E].
  - apply str_order_eq in E. exists (lit "."). rewrite decide_True by auto. split_and!; [done|done|done|by left].
  - rewrite str_order_eq in E. exists q. rewrite decide_False by (intros [|]; done). split_and!; [done|done|done|right; split; [subst q; cbn [length]; lia|done]].
Qed.
(** ** Building a header *)

(** A string outside the 512 bytes at [h]. *)
Definition apart (h p : Z) (s : list Z) : Prop := p + Z.of_nat (length s) < h \/ h + 512 <= p.

Section build.
Variables (m : mem) (h : Z).
Hypothesis Hh : 0 < h.
Hypothesis Hmap : mapped m h 512.
Hypothesis Himg : image m.
Hypothesis Hapart : Forall (fun s => apart h (lit s) (str s)) (fst <$> ustar_lits).

Lemma lit_apart s : List.existsb (String.eqb s) (fst <$> ustar_lits) = true -> apart h (lit s) (str s).
Proof.
  intros Hs. apply existsb_exists in Hs as (s' & Hin & Heq). apply String.eqb_eq in Heq as <-.
  by apply (proj1 (list.Forall_forall _ _) Hapart), list_elem_of_In.
Qed.

Lemma cstr_put l p s : length l = 512%nat -> cstr m p s -> apart h p s -> cstr (put m h l) p s.
Proof.
  intros Hl [Ht Hb] Ha. split; [done|]. apply bytes_at_put_disjoint; [done|]. rewrite length_app, Hl. unfold apart in Ha. simpl. lia.
Qed.

Lemma image_put l : length l = 512%nat -> image (put m h l).
Proof.
  intros Hl. unfold image in *. rewrite list.Forall_forall in *. intros s Hs. destruct (Himg s Hs). split; [done|]. apply cstr_put; auto.
Qed.

Lemma copy_field l i n src s : length l = 512%nat -> (i + n <= 512)%nat -> 0 < src -> cstr m src s -> (length s < n)%nat -> apart h src s ->
  strlcpy (put m h l) (h + Z.of_nat i) src (Z.of_nat n) = Ok (Z.of_nat (length s), put m h (splice l i (s ++ [0]))).
Proof.
  intros Hl Hi Hsrc Hs Hn Ha. pose proof (cstr_put l src s Hl Hs Ha) as Hs'.
  destruct (strlcpy_ok (put m h l) (h + Z.of_nat i) src s (Z.of_nat n)) as [-> _]; [lia|done|done|lia| |unfold apart in Ha; lia|].
  - apply mapped_put. intros a Hr. apply Hmap. lia.
  - rewrite take_ge by lia. by rewrite put_splice by (rewrite length_app; simpl; lia).
Qed.

Lemma copy_lit l i n s : length l = 512%nat -> (i + n <= 512)%nat -> List.existsb (String.eqb s) (fst <$> ustar_lits) = true -> (length (str s) < n)%nat ->
  strlcpy (put m h l) (h + Z.of_nat i) (lit s) (Z.of_nat n) = Ok (Z.of_nat (length (str s)), put m h (splice l i (str s ++ [0]))).
Proof. intros Hl Hi Hs Hn. destruct (image_lit m s Himg Hs). apply copy_field; try done. by apply lit_apart. Qed.

Lemma octal_field l i w v s : length l = 512%nat -> (i + S w <= 512)%nat -> List.existsb (String.eqb s) (fst <$> ustar_lits) = true ->
  w = 7%nat \/ w = 11%nat -> str s = octal_format w -> 0 <= u32 v < 8 ^ Z.of_nat w ->
  exists ds, snprintf (put m h l) (h + Z.of_nat i) (Z.of_nat (S w)) (lit s) [v] = Ok (Z.of_nat w, put m h (splice l i (((fun d => d + 48) <$> ds) ++ [0]))) /\
    positional 8 ds = u32 v /\ Forall (fun d => 0 <= d < 8) ds /\ length ds = w.
Proof.
  intros Hl Hi Hs Hw Hf Hv. destruct (image_lit m s Himg Hs) as [Hp Hc]. pose proof (cstr_put l _ _ Hl Hc (lit_apart s Hs)) as [_ Hb]. rewrite Hf in Hb.
  destruct (vprintf_octal (put m h l) (lit s) w v Hw Hb Hv) as (ds & E & Hval & Hds & Hlen). exists ds. split; [|done].
  unfold snprintf. rewrite (vsnprintf_ok _ _ _ _ _ _ E); [|rewrite length_fmap; unfold INT_MAX; lia|lia|].
  - rewrite length_fmap, Hlen, take_ge by (rewrite length_fmap; lia). by rewrite put_splice by (rewrite length_app, length_fmap; simpl; lia).
  - apply mapped_put. intros a Hr. apply Hmap. lia.
Qed.

Lemma store_field l i b : length l = 512%nat -> (i < 512)%nat -> store (put m h l) (h + Z.of_nat i) b = Ok (put m h (splice l i [b])).
Proof.
  intros Hl Hi. rewrite store_Ok by (apply (mapped_put _ _ _ h 512 Hmap); lia). by rewrite put_splice by (simpl; lia).
Qed.

(** What a header for a name, a type and a size holds. *)
Definition header_fields (name : list Z) (type : Z) (size sum : list Z) : list (nat * list Z) :=
  [(148%nat, ((fun d => d + 48) <$> sum) ++ [0]); (263%nat, [chr "0"]); (264%nat, [chr "0"]); (257%nat, str "ustar" ++ [0]);
   (156%nat, [type]); (124%nat, ((fun d => d + 48) <$> size) ++ [0]); (0%nat, name ++ [0]); (99%nat, [0]); (345%nat, [0])].

Lemma digits_bytes ds : Forall (fun d => 0 <= d < 8) ds -> Forall is_byte (((fun d => d + 48) <$> ds) ++ [0]).
Proof.
  intros Hds. apply Forall_app. split; [|by apply is_bytes]. apply Forall_fmap. eapply Forall_impl; [|exact Hds]. unfold is_byte. simpl. lia.
Qed.

(** One more field of a header under construction. *)
Definition built (l : list Z) (fs : list (nat * list Z)) : Prop := length l = 512%nat /\ Forall is_byte l /\ has l fs.

Lemma built_splice l i new fs : (i + length new <= 512)%nat -> Forall is_byte new ->
  forallb (fun f => (i + length new <=? fst f) || (fst f + length (snd f) <=? i))%nat fs = true ->
  built l fs -> built (splice l i new) ((i, new) :: fs).
Proof.
  intros Hi Hn Hd (Hl & Hb & Hf). split_and!; [rewrite length_splice; lia|by apply Forall_splice|].
  apply has_splice; [lia| |done]. rewrite forallb_forall in Hd. apply list.Forall_forall. intros f Hin.
  apply list_elem_of_In, Hd, orb_true_iff in Hin as [Hx|Hx]; apply Nat.leb_le in Hx; auto.
Qed.

Lemma built_start t : text t -> (length t <= 99)%nat ->
  built (splice (replicate 512 0) 0 (t ++ [0])) [(0%nat, t ++ [0]); (99%nat, [0]); (345%nat, [0])].
Proof.
  intros Ht Hl. assert (0 + length (t ++ [0%Z]) <= length (replicate 512 0%Z))%nat as Hfit by (rewrite length_app, length_replicate; simpl; lia).
  split_and!; [by rewrite length_splice, length_replicate|apply Forall_splice; [by apply bytes_replicate|]|].
  - apply Forall_app. split; [by eapply Forall_impl; [|exact Ht]; intros b []|by apply is_bytes].
  - assert (forall j, (length t <= j < 512)%nat -> window (splice (replicate 512 0) 0 (t ++ [0])) j 1 = [0]) as Hz.
    { intros j Hj. apply list_eq. intros [|k]; rewrite lookup_window; [|by rewrite decide_False by lia]. rewrite decide_True, Nat.add_0_r, lookup_splice by (done || lia).
      case_decide as Hd; [|by apply lookup_replicate_2; lia]. rewrite length_app in Hd. simpl in Hd. replace (j - 0)%nat with (length t) by lia.
      by rewrite lookup_app_r, Nat.sub_diag by lia. }
    constructor; [by apply window_splice_same|]. constructor; [apply (Hz 99%nat); lia|]. constructor; [apply (Hz 345%nat); lia|constructor].
Qed.

Lemma length_digits (ds : list Z) w : length ds = w -> length (((fun d => d + 48) <$> ds) ++ [0]) = S w.
Proof. intros <-. rewrite length_app, length_fmap. simpl. lia. Qed.

(** The fields already there are outside the [n] bytes at [i]. *)
Definition clear_of (i n : nat) (fs : list (nat * list Z)) : bool :=
  forallb (fun f => (i + n <=? fst f) || (fst f + length (snd f) <=? i))%nat fs.
Definition is_lit (s : string) : bool := List.existsb (String.eqb s) (fst <$> ustar_lits).

Lemma built_lit l fs f i n s : built l fs -> offset f = Z.of_nat i -> fsize f = Z.of_nat n -> (i + n <= 512)%nat -> is_lit s = true ->
  (length (str s) < n)%nat -> clear_of i (length (str s ++ [0])) fs = true -> forallb (fun b => (0 <=? b) && (b <? 256)) (str s ++ [0]) = true ->
  exists k l', strlcpy (put m h l) (h + offset f) (lit s) (fsize f) = Ok (k, put m h l') /\ built l' ((i, str s ++ [0]) :: fs).
Proof.
  intros Hb -> -> Hi Hs Hn Hc Hbs. eexists _, _. split; [apply copy_lit; [apply Hb|done..]|].
  apply built_splice; [rewrite length_app; simpl; lia|by apply is_bytes|done|done].
Qed.

Lemma built_octal l fs f i w v s : built l fs -> offset f = Z.of_nat i -> (i + S w <= 512)%nat -> is_lit s = true ->
  w = 7%nat \/ w = 11%nat -> str s = octal_format w -> 0 <= u32 v < 8 ^ Z.of_nat w -> clear_of i (S w) fs = true ->
  exists ds k l', snprintf (put m h l) (h + offset f) (Z.of_nat (S w)) (lit s) [v] = Ok (k, put m h l') /\
    l' = splice l i (((fun d => d + 48) <$> ds) ++ [0]) /\ built l' ((i, ((fun d => d + 48) <$> ds) ++ [0]) :: fs) /\
    positional 8 ds = u32 v /\ Forall (fun d => 0 <= d < 8) ds /\ length ds = w.
Proof.
  intros Hb -> Hi Hs Hw Hf Hv Hc. destruct (octal_field l i w v s) as (ds & E & Hval & Hds & Hlen); [apply Hb|done..|].
  exists ds, (Z.of_nat w), (splice l i (((fun d => d + 48) <$> ds) ++ [0])). split_and!; try done.
  apply built_splice; [rewrite (length_digits _ w) by done; done|by apply digits_bytes| |done]. unfold clear_of in Hc. rewrite (length_digits _ w) by done. exact Hc.
Qed.

Lemma built_store l fs i b : built l fs -> (i < 512)%nat -> is_byte b -> clear_of i 1 fs = true ->
  exists l', store (put m h l) (h + Z.of_nat i) b = Ok (put m h l') /\ built l' ((i, [b]) :: fs).
Proof.
  intros Hb Hi Hbyte Hc. eexists. split; [apply store_field; [apply Hb|done]|]. apply built_splice; [simpl; lia|by constructor|done|done].
Qed.

Lemma built_sub l fs fs' : built l fs -> (forall f, f ∈ fs' -> f ∈ fs) -> built l fs'.
Proof.
  intros (Hl & Hb & Hf) Hs. split_and!; [done|done|]. unfold has in *. rewrite list.Forall_forall in *. auto.
Qed.

Lemma built_tail l f fs : built l (f :: fs) -> built l fs.
Proof. intros Hb. apply (built_sub _ _ _ Hb). intros g Hg. by right. Qed.

Lemma built_chksum l fs : built l fs -> calculate_chksum (put m h l) h = Ok (csum 0 l) /\ 0 <= csum 0 l < 8 ^ 7.
Proof.
  intros (Hl & Hb & _). pose proof (csum_bounds 0 l Hb). rewrite Hl in *. split; [|lia]. unfold calculate_chksum. change (Z.to_nat USTAR_HEADER_SIZE) with 512%nat.
  rewrite <- Hl. rewrite chksum_loop_ok; [done|rewrite Z.add_0_r; apply bytes_at_put|done|lia|rewrite Hl; lia].
Qed.

Lemma csum_splice l new : length l = 512%nat -> length new = 8%nat -> csum 0 (splice l 148 new) = csum 0 l.
Proof.
  intros Hl Hn. apply csum_ext; [by rewrite length_splice by lia|]. intros k Hk. rewrite lookup_splice by lia. by rewrite decide_False by lia.
Qed.

(** The name field ends at 100; the other lengths are known. *)
Ltac solve_clear :=
  unfold clear_of; cbn [forallb fst snd];
  repeat match goal with
    | H : length (?l ++ [0]) = ?n |- context [length (?l ++ [0])] => rewrite H
    | H : forall i, (100 <= i)%nat -> _ |- _ => rewrite H by (clear; lia)
    end; vm_compute; reflexivity.

(** make_header after the name check. *)
Lemma make_fields p q t type size : type = USTAR_REGULAR \/ type = USTAR_DIRECTORY -> 0 <= size <= INT_MAX ->
  strip_antisocial_prefixes lit m p = Ok q -> 0 < q -> cstr m q t -> apart h q t -> (length t <= 99)%nat ->
  exists l size_ds sum_ds, ustar_make_header lit m p type size h = Ok (true, put m h l) /\ built l (header_fields t type size_ds sum_ds) /\
    positional 8 size_ds = size /\ Forall (fun d => 0 <= d < 8) size_ds /\ length size_ds = 11%nat /\
    positional 8 sum_ds = csum 0 l /\ Forall (fun d => 0 <= d < 8) sum_ds /\ length sum_ds = 7%nat.
Proof.
  intros Hty Hsize Hstrip Hq Ht Hq1 Hlen. unfold ustar_make_header. rewrite kassert_true by (destruct Hty as [-> | ->]; reflexivity). cbn [mbind outcome_bind].
  rewrite Hstrip. cbn [mbind outcome_bind]. rewrite (strlen_ok _ _ t) by (done || unfold NULL; lia). cbn [mbind outcome_bind].
  rewrite (proj2 (Z.ltb_ge 99 _)) by lia. change USTAR_HEADER_SIZE with (Z.of_nat 512). rewrite memset_ok by (done || unfold NULL; lia). cbn [mbind outcome_bind].
  change (u8 0) with 0. pose proof (built_start t (proj1 Ht) Hlen) as Hb.
  replace (h + offset h_name) with (h + Z.of_nat 0) by (simpl; lia). change (fsize h_name) with (Z.of_nat 100).
  rewrite (copy_field _ 0 100 q t); [|by rewrite length_replicate|lia|done|done|lia|done]. cbn [mbind outcome_bind]. revert Hb. generalize (splice (replicate 512 0) 0 (t ++ [0])). intros l Hb.
  assert (length (t ++ [0%Z]) <= 100)%nat as Hnl by (rewrite length_app; simpl; lia).
  assert (forall i, (100 <= i)%nat -> (0 + length (t ++ [0%Z]) <=? i)%nat = true) as Hname by (intros i Hi; apply Nat.leb_le; lia).
  destruct (built_octal l _ h_mode 100 7 (if type =? USTAR_REGULAR then 420 else 493) "%07o" Hb) as (d1 & k1 & l1 & E1 & _ & B1%built_tail & _);
    [done|lia|done|by left|done|destruct (type =? USTAR_REGULAR); vm_compute; intuition congruence|solve_clear|].
  change (fsize h_mode) with (Z.of_nat 8). rewrite E1. cbn [mbind outcome_bind].
  destruct (built_lit l1 _ h_uid 108 8 "0000000" B1) as (k2 & l2 & E2 & B2%built_tail); [done|done|lia|done|simpl; lia|solve_clear|done|]. rewrite E2. cbn [mbind outcome_bind].
  destruct (built_lit l2 _ h_gid 116 8 "0000000" B2) as (k3 & l3 & E3 & B3%built_tail); [done|done|lia|done|simpl; lia|solve_clear|done|]. rewrite E3. cbn [mbind outcome_bind].
  unfold INT_MAX in Hsize.
  destruct (built_octal l3 _ h_size 124 11 size "%011o" B3) as (d4 & k4 & l4 & E4 & _ & B4 & V4 & D4 & N4);
    [done|lia|done|by right|done|rewrite u32_small by lia; lia|solve_clear|].
  pose proof (length_digits d4 11 N4) as N4'. rewrite u32_small in V4 by lia.
  change (fsize h_size) with (Z.of_nat 12). rewrite E4. cbn [mbind outcome_bind].
  destruct (built_octal l4 _ h_mtime 136 11 1136102400 "%011o" B4) as (d5 & k5 & l5 & E5 & _ & B5%built_tail & _);
    [done|lia|done|by right|done|vm_compute; intuition congruence|solve_clear|]. rewrite E5. cbn [mbind outcome_bind].
  change (offset h_typeflag) with (Z.of_nat 156).
  destruct (built_store l5 _ 156 type B5) as (l6 & E6 & B6); [lia|destruct Hty as [-> | ->]; by unfold is_byte|solve_clear|]. rewrite E6. cbn [mbind outcome_bind].
  destruct (built_lit l6 _ h_magic 257 6 "ustar" B6) as (k7 & l7 & E7 & B7); [done|done|lia|done|simpl; lia|solve_clear|done|]. rewrite E7. cbn [mbind outcome_bind].
  replace (h + offset h_version + 1) with (h + Z.of_nat 264) by (simpl; lia). change (offset h_version) with (Z.of_nat 263).
  destruct (built_store l7 _ 264 (chr "0") B7) as (l8 & E8 & B8); [lia|by unfold is_byte|solve_clear|]. rewrite E8. cbn [mbind outcome_bind].
  destruct (built_store l8 _ 263 (chr "0") B8) as (l9 & E9 & B9); [lia|by unfold is_byte|solve_clear|]. rewrite E9. cbn [mbind outcome_bind].
  destruct (built_lit l9 _ h_gname 297 32 "root" B9) as (k10 & l10 & E10 & B10%built_tail); [done|done|lia|done|simpl; lia|solve_clear|done|]. rewrite E10. cbn [mbind outcome_bind].
  destruct (built_lit l10 _ h_uname 265 32 "root" B10) as (k11 & l11 & E11 & B11%built_tail); [done|done|lia|done|simpl; lia|solve_clear|done|]. rewrite E11. cbn [mbind outcome_bind].
  destruct (built_chksum l11 _ B11) as [E12 Hsum]. rewrite E12. cbn [mbind outcome_bind].
  destruct (built_octal l11 _ h_chksum 148 7 (csum 0 l11) "%07o" B11) as (d13 & k13 & l13 & E13 & L13 & B13 & V13 & D13 & N13);
    [done|lia|done|by left|done|rewrite u32_small by lia; done|solve_clear|].
  change (fsize h_chksum) with (Z.of_nat 8). rewrite E13. cbn [mbind outcome_bind]. rewrite u32_small in V13 by lia.
  exists l13, d4, d13. split_and!; try done. rewrite L13, csum_splice; [done|apply B11|by rewrite (length_digits _ 7)].
Qed.
Lemma all_zeros_false bs m' p b : b ∈ bs -> b <> 0 -> bytes_at m' p bs -> all_zeros (length bs) m' p = Ok false.
Proof.
  intros Hin Hb. revert p. induction bs as [|c bs IH]; intros p Hbs; [by apply elem_of_nil in Hin|]. cbn [length all_zeros].
  apply bytes_at_cons in Hbs as [Hp Hbs]. rewrite (load_Ok _ _ _ Hp). cbn [mbind outcome_bind].
  destruct (Z.eqb_spec c 0) as [->|]; [|done]. cbn [negb]. apply IH; [|done]. apply elem_of_cons in Hin as [->|]; done.
Qed.

Ltac in_fields := repeat first [left | right].

Lemma magic_ok l t type sz sm : built l (header_fields t type sz sm) -> memcmp (put m h l) (h + offset h_magic) (lit "ustar") 6 = Ok 0.
Proof.
  intros (Hl & _ & Hf). destruct (image_lit m "ustar" Himg eq_refl) as [Hp Hc].
  pose proof (cstr_put l _ _ Hl Hc (lit_apart "ustar" eq_refl)) as [_ Hb]. unfold memcmp.
  rewrite !kassert_true by (apply orb_true_iff; left; apply negb_true_iff, Z.eqb_neq; unfold NULL; simpl; lia). cbn [mbind outcome_bind].
  assert (bytes_at (put m h l) (h + offset h_magic) (str "ustar" ++ [0])) as Hm.
  { apply (bytes_has m h l _ 257 (str "ustar" ++ [0]) Hf). unfold header_fields. in_fields. }
  destruct (compare_bytes_ok 6 _ _ _ _ _ Hm Hb eq_refl eq_refl) as (r & Er & Hr). change (Z.to_nat 6) with 6%nat. rewrite Er. by rewrite (proj2 Hr).
Qed.

Lemma parse_fields l t type size sz sm : built l (header_fields t type sz sm) -> type = USTAR_REGULAR \/ type = USTAR_DIRECTORY ->
  text t -> safe_name t = t ->
  0 <= size <= INT_MAX -> positional 8 sz = size -> Forall (fun d => 0 <= d < 8) sz -> length sz = 11%nat ->
  positional 8 sm = csum 0 l -> Forall (fun d => 0 <= d < 8) sm -> length sm = 7%nat ->
  exists q, ustar_parse_header lit (put m h l) h = Ok (inr (q, type, if type =? USTAR_REGULAR then size else 0)) /\ 0 < q /\ cstr (put m h l) q t.
Proof.
  intros Hb Hty Ht Hsafe Hsize Vz Dz Nz Vm Dm Nm. pose proof Hb as (Hl & Hby & Hf).
  assert (forall i b, (i, [b]) ∈ header_fields t type sz sm -> load (put m h l) (h + Z.of_nat i) = Ok b) as Hload.
  { intros i b Hin. apply load_Ok. pose proof (bytes_has m h l _ _ _ Hf Hin) as Hx. by apply bytes_at_cons in Hx as [Hx _]. }
  assert (forall i bs, (i, bs) ∈ header_fields t type sz sm -> bytes_at (put m h l) (h + Z.of_nat i) bs) as Hbytes.
  { intros i bs Hin. exact (bytes_has m h l _ _ _ Hf Hin). }
  unfold header_fields in Hload, Hbytes. unfold ustar_parse_header.
  assert (is_all_zeros (put m h l) h USTAR_HEADER_SIZE = Ok false) as ->.
  { unfold is_all_zeros. change (Z.to_nat USTAR_HEADER_SIZE) with 512%nat. rewrite <- Hl. apply (all_zeros_false l _ _ (chr "0")); [|done|apply bytes_at_put].
    apply (list_elem_of_lookup_2 _ (263 + 0)), (has_lookup l _ 263 [chr "0"] 0 (chr "0") Hf); [|done]. unfold header_fields. in_fields. }
  cbn [mbind outcome_bind]. rewrite (magic_ok _ _ _ _ _ Hb). cbn [mbind outcome_bind]. change (negb (0 =? 0)) with false. cbv iota.
  change (offset h_version) with (Z.of_nat 263). rewrite (Hload 263%nat (chr "0")) by (in_fields). cbn [mbind outcome_bind].
  change (negb (chr "0" =? chr "0")) with false. cbv iota.
  replace (h + Z.of_nat 263 + 1) with (h + Z.of_nat 264) by lia. rewrite (Hload 264%nat (chr "0")) by (in_fields). cbn [mbind outcome_bind].
  change (negb (chr "0" =? chr "0")) with false. cbv iota. destruct (built_chksum l _ Hb) as [Esum Hsum].
  change (offset h_chksum) with (Z.of_nat 148). rewrite (parse_octal_ok _ (h + Z.of_nat 148) _ sm); [|done|apply (Hbytes 148%nat (((fun d => d + 48) <$> sm) ++ [0])); in_fields|lia|simpl; lia|lia].
  cbn [mbind outcome_bind negb]. rewrite Esum. cbn [mbind outcome_bind]. rewrite Vm, Z.eqb_refl. cbn [negb].
  replace (h + offset h_name + fsize h_name - 1) with (h + Z.of_nat 99) by (simpl; lia). rewrite (Hload 99%nat 0) by (in_fields).
  cbn [mbind outcome_bind]. change (negb (0 =? 0)) with false. cbv iota.
  change (offset h_prefix) with (Z.of_nat 345). rewrite (Hload 345%nat 0) by (in_fields). cbn [mbind outcome_bind]. change (negb (0 =? 0)) with false. cbv iota.
  change (offset h_typeflag) with (Z.of_nat 156). rewrite (Hload 156%nat type) by (in_fields). cbn [mbind outcome_bind].
  assert (negb (type =? USTAR_REGULAR) && negb (type =? USTAR_DIRECTORY) = false) as -> by (destruct Hty as [-> | ->]; reflexivity).
  change (offset h_size) with (Z.of_nat 124). change (fsize h_size) with 12. unfold INT_MAX in *.
  rewrite (parse_octal_ok _ (h + Z.of_nat 124) _ sz); [|done|apply (Hbytes 124%nat (((fun d => d + 48) <$> sz) ++ [0])); in_fields|lia|lia|lia]. cbn [mbind outcome_bind negb].
  rewrite Vz, (proj2 (Z.ltb_ge _ size)) by lia.
  assert (cstr (put m h l) (h + offset h_name) t) as Hname.
  { split; [done|]. change (offset h_name) with (Z.of_nat 0). apply (Hbytes 0%nat (t ++ [0])). in_fields. }
  destruct (strip_ok (put m h l) (h + offset h_name) t) as (q & Eq & Hq0 & Hq & _); [simpl; lia|done|by apply image_put|].
  rewrite Hsafe in Hq. exists q. split; [|done]. destruct Hty as [-> | ->]; cbn [mbind outcome_bind];
    [change (USTAR_REGULAR =? USTAR_REGULAR) with true|change (USTAR_DIRECTORY =? USTAR_REGULAR) with false]; cbv iota; cbn [mbind outcome_bind]; by rewrite Eq.
Qed.
(** A header sector for a name, a type and a size. *)
Definition header_of (name : list Z) (type size : Z) (l : list Z) : Prop :=
  text name /\ safe_name name = name /\ (type = USTAR_REGULAR \/ type = USTAR_DIRECTORY) /\ 0 <= size <= INT_MAX /\
  exists sz sm, built l (header_fields name type sz sm) /\ (positional 8 sz = size /\ Forall (fun d => 0 <= d < 8) sz /\ length sz = 11%nat) /\
    positional 8 sm = csum 0 l /\ Forall (fun d => 0 <= d < 8) sm /\ length sm = 7%nat.

Lemma make_header_ok p s type size : 0 < p -> cstr m p s -> type = USTAR_REGULAR \/ type = USTAR_DIRECTORY -> 0 <= size <= INT_MAX ->
  apart h p s -> (length (safe_name s) <= 99)%nat ->
  exists l, ustar_make_header lit m p type size h = Ok (true, put m h l) /\ header_of (safe_name s) type size l.
Proof.
  intros Hp Hs Hty Hsize Hps Hlen. destruct (strip_ok m p s Hp Hs Himg) as (q & Eq & Hq & Hqs & Hcase).
  assert (apart h q (safe_name s)) as Hqa.
  { destruct Hcase as [[-> Hsafe] | [Hq' Hsafe]].
    - rewrite Hsafe. by apply lit_apart.
    - destruct (strip_suffix (length s) s) as (pre & Hpre & _); [done|]. apply (f_equal length) in Hpre. rewrite length_app in Hpre.
      rewrite Hsafe. unfold apart in *. lia. }
  destruct (make_fields p q (safe_name s) type size) as (l & sz & sm & E & Hb & Hz); try done.
  exists l. split; [done|]. split; [apply Hqs|]. split; [apply safe_name_idem|]. split; [done|]. split; [done|]. exists sz, sm. tauto.
Qed.

Lemma parse_header_ok l name type size : header_of name type size l ->
  exists q, ustar_parse_header lit (put m h l) h = Ok (inr (q, type, if type =? USTAR_REGULAR then size else 0)) /\ 0 < q /\ cstr (put m h l) q name.
Proof. intros (Ht & Hs & Hty & Hsize & sz & sm & Hb & Hz). apply (parse_fields l name type size sz sm); tauto. Qed.
End build.
End image.

(** The header composed for a name, a type and a size parses back to
    them: the name with its antisocial prefixes dropped, the type, and the
    size of a regular file; a name that stays too long is refused and
    nothing is written. *)
Theorem ustar_roundtrip lit m p s type size h :
  image lit m -> 0 < p -> cstr m p s -> type = USTAR_REGULAR \/ type = USTAR_DIRECTORY -> 0 <= size <= INT_MAX ->
  0 < h -> mapped m h 512 -> apart h p s -> Forall (fun s => apart h (lit s) (str s)) (fst <$> ustar_lits) ->
  if decide (length (safe_name s) <= 99)%nat then
    exists m' q, ustar_make_header lit m p type size h = Ok (true, m') /\
      ustar_parse_header lit m' h = Ok (inr (q, type, if type =? USTAR_REGULAR then size else 0)) /\ cstr m' q (safe_name s)
  else ustar_make_header lit m p type size h = Ok (false, m).
Proof.
  intros Hi Hp Hs Hty Hsize Hh Hm Hps Hap. case_decide as Hlen.
  - destruct (make_header_ok lit m h Hh Hm Hi Hap p s type size) as (l & E & Hl); try done.
    destruct (parse_header_ok lit m h Hh Hi Hap _ _ _ _ Hl) as (q & E' & _ & Hq). by exists (put m h l), q.
  - destruct (strip_ok lit m p s Hp Hs Hi) as (q & Eq & Hq & Hqs & Hcase).
    unfold ustar_make_header. rewrite kassert_true by (destruct Hty as [-> | ->]; reflexivity). cbn [mbind outcome_bind]. rewrite Eq. cbn [mbind outcome_bind].
    rewrite (strlen_ok _ _ (safe_name s)) by (done || unfold NULL; lia). cbn [mbind outcome_bind]. by rewrite (proj2 (Z.ltb_lt 99 _)) by lia.
Qed.

Lemma ustar_roundtrip_witness :
  exists m' q, ustar_make_header lit0 (mem_name "/../a/b.c") 2000 USTAR_REGULAR INT_MAX 3000 = Ok (true, m') /\
    ustar_parse_header lit0 m' 3000 = Ok (inr (q, USTAR_REGULAR, INT_MAX)) /\ cstr m' q (str "a/b.c").
Proof.
  refine (ustar_roundtrip lit0 (mem_name "/../a/b.c") 2000 (str "/../a/b.c") USTAR_REGULAR INT_MAX 3000 _ _ _ _ _ _ _ _ _).
  - unfold image. cbn [fmap list_fmap ustar_lits fst]. repeat (apply Forall_cons; [split; [reflexivity|apply cstr_check_ok; vm_compute; reflexivity]|]). apply Forall_nil.
  - lia.
  - apply cstr_check_ok. vm_compute. reflexivity.
  - left. reflexivity.
  - unfold INT_MAX. lia.
  - lia.
  - intros a Ha. unfold mem_name. rewrite lookup_put, length_replicate, decide_True by exact Ha. rewrite lookup_replicate_2 by lia. by eexists.
  - left. vm_compute. reflexivity.
  - unfold apart. repeat constructor; vm_compute; reflexivity.
Defined.
