(* ===== verification/Intq.v ===== *)
(** * Interrupt queues (src/devices/intq.c)

    A circular queue of bytes shared by kernel threads and interrupt
    handlers, written as a monitor: every call runs with interrupts off, so
    it is one step until it blocks.  A thread blocks in lock_acquire or in
    wait; [sleepers] records the call it is in and where it blocked, and
    whether it has been made ready since.  [accepted] and [delivered] are
    the bytes that calls of intq_putc stored and calls of intq_getc
    returned, oldest first. *)

From S2P Require Import Prelude Memory Wp.

Definition INTQ_BUFSIZE : Z := 64.

(** struct intq; the lock by its holder and its waiters, a null thread
    pointer is [None]. *)
Record intq := Intq {
  lock_holder : option Z;
  lock_waiters : list Z;
  not_full : option Z;
  not_empty : option Z;
  buf : list Z;
  head : Z;
  tail : Z
}.

Inductive call := Getc | Putc (byte : Z).
Inductive point := InLock | InWait.
Record sleeper := Sleeper { in_call : call; at_point : point; woken : bool }.

Record sys := Sys { q : intq; sleepers : gmap Z sleeper; accepted : list Z; delivered : list Z }.

Definition set_q (f : intq -> intq) (s : sys) : sys := Sys (f (q s)) (sleepers s) (accepted s) (delivered s).
Definition set_sleepers (m : gmap Z sleeper) (s : sys) : sys := Sys (q s) m (accepted s) (delivered s).
Definition set_lock (h : option Z) (w : list Z) (x : intq) : intq := Intq h w (not_full x) (not_empty x) (buf x) (head x) (tail x).
Definition set_data (b : list Z) (h t : Z) (x : intq) : intq :=
  Intq (lock_holder x) (lock_waiters x) (not_full x) (not_empty x) b h t.

(** ** The queue *)

Definition next (pos : Z) : Z := Z.rem (pos + 1) INTQ_BUFSIZE.
Definition intq_init (x : intq) : intq := Intq None [] None None (buf x) 0 0.
Definition intq_empty (x : intq) : bool := head x =? tail x.
Definition intq_full (x : intq) : bool := next (head x) =? tail x.

(** The waiter a call waits for and the condition it waits to end. *)
Definition blocked (c : call) (x : intq) : bool := match c with Getc => intq_empty x | Putc _ => intq_full x end.
Definition waiter (c : call) (x : intq) : option Z := match c with Getc => not_empty x | Putc _ => not_full x end.
Definition set_waiter (c : call) (t : option Z) (x : intq) : intq :=
  match c with
  | Getc => Intq (lock_holder x) (lock_waiters x) (not_full x) t (buf x) (head x) (tail x)
  | Putc _ => Intq (lock_holder x) (lock_waiters x) t (not_empty x) (buf x) (head x) (tail x)
  end.

(** ** Blocking and waking *)

(** thread_block () of the thread [t] in [c]. *)
Definition sleep (t : Z) (c : call) (p : point) : st sys unit :=
  modify (fun s => set_sleepers (<[t := Sleeper c p false]> (sleepers s)) s).

(** thread_unblock (t), which asserts that [t] is blocked. *)
Definition wake (t : Z) : st sys unit :=
  m ← gets sleepers;
  match m !! t with
  | None => lift (Err Fault)
  | Some b =>
      kassert_st (negb (woken b)) ≫= fun _ =>
      modify (set_sleepers (<[t := Sleeper (in_call b) (at_point b) true]> m))
  end.

Definition wait (t : Z) (c : call) : st sys unit :=
  x ← gets q; kassert_st (blocked c x) ≫= fun _ =>
  modify (set_q (set_waiter c (Some t))) ≫= fun _ => sleep t c InWait.

Definition signal (c : call) : st sys unit :=
  x ← gets q; kassert_st (negb (blocked c x)) ≫= fun _ =>
  match waiter c x with
  | None => mret tt
  | Some t => wake t ≫= fun _ => modify (set_q (set_waiter c None))
  end.

(** lock_acquire by [t] in [c]: whether it got the lock without blocking. *)
Definition acquire (t : Z) (c : call) : st sys bool :=
  x ← gets q;
  kassert_st (negb (bool_decide (lock_holder x = Some t))) ≫= fun _ =>
  match lock_holder x with
  | None => modify (set_q (set_lock (Some t) (lock_waiters x))) ≫= fun _ => mret true
  | Some _ =>
      modify (set_q (set_lock (lock_holder x) (lock_waiters x ++ [t]))) ≫= fun _ =>
      sleep t c InLock ≫= fun _ => mret false
  end.

Definition release (t : Z) : st sys unit :=
  x ← gets q; kassert_st (bool_decide (lock_holder x = Some t)) ≫= fun _ =>
  match lock_waiters x with
  | [] => modify (set_q (set_lock None []))
  | w :: ws => modify (set_q (set_lock None ws)) ≫= fun _ => wake w
  end.

(** ** Calls *)

(** The end of intq_getc and intq_putc, once the loop is left. *)
Definition transfer (c : call) : st sys unit :=
  x ← gets q;
  match c with
  | Getc =>
      byte ← lift (zget (buf x) (tail x));
      modify (set_q (set_data (buf x) (head x) (next (tail x)))) ≫= fun _ =>
      signal (Putc 0) ≫= fun _ =>
      modify (fun s => Sys (q s) (sleepers s) (accepted s) (delivered s ++ [byte]))
  | Putc byte =>
      b ← lift (zset (buf x) (head x) byte);
      modify (set_q (set_data b (next (head x)) (tail x))) ≫= fun _ =>
      signal Getc ≫= fun _ =>
      modify (fun s => Sys (q s) (sleepers s) (accepted s ++ [byte]) (delivered s))
  end.

(** intq_getc and intq_putc, by the thread [who] or by an interrupt
    handler, up to where they block or return. *)
Definition intq_call (who : option Z) (c : call) : st sys unit :=
  x ← gets q;
  if blocked c x then
    match who with
    | None => lift (Err Panic) (* ASSERT (!intr_context ()) *)
    | Some t => got ← acquire t c; if got : bool then wait t c else mret tt
    end
  else transfer c.

(** A thread that was made ready runs on: in wait it releases the lock and
    tests the condition again; in lock_acquire it takes the lock if it is
    free, and then waits. *)
Definition intq_resume (t : Z) : st sys unit :=
  m ← gets sleepers;
  match m !! t with
  | Some (Sleeper c p true) =>
      modify (set_sleepers (delete t m)) ≫= fun _ =>
      match p with
      | InWait => release t ≫= fun _ => intq_call (Some t) c
      | InLock => got ← acquire t c; if got : bool then wait t c else mret tt
      end
  | _ => lift (Err Fault)
  end.

Inductive event := Call (t : Z) (c : call) | Interrupt (c : call) | Run (t : Z).
Definition perform (e : event) : st sys unit :=
  match e with Call t c => intq_call (Some t) c | Interrupt c => intq_call None c | Run t => intq_resume t end.
Fixpoint perform_all (es : list event) : st sys unit :=
  match es with [] => mret tt | e :: es' => perform e ≫= fun _ => perform_all es' end.

Definition start : sys := Sys (intq_init (Intq None [] None None (replicate 64 0) 5 9)) ∅ [] [].

Example reader_and_interrupts :
  delivered <$> (snd <$> match perform_all [Call 1 Getc; Interrupt (Putc 7); Interrupt (Putc 8); Run 1; Call 1 Getc] start with Ok r => Some r | _ => None end)
  = Some [7; 8].
Proof. vm_compute. reflexivity. Qed.

(** ** The queue holds the bytes between its two ends *)

Definition wf (x : intq) : Prop := 0 <= head x < 64 /\ 0 <= tail x < 64 /\ length (buf x) = 64%nat.
Definition count (x : intq) : Z := (head x - tail x) mod 64.
Definition contents (x : intq) : list Z := (fun i => znth 0 (buf x) ((tail x + i) mod 64)) <$> seqZ 0 (count x).

Lemma next_mod p : 0 <= p -> next p = (p + 1) mod 64.
Proof. intros Hp. unfold next, INTQ_BUFSIZE. by rewrite Z.rem_mod_nonneg by lia. Qed.

Lemma empty_count x : wf x -> intq_empty x = (count x =? 0).
Proof.
  intros (Hh & Ht & _). unfold intq_empty, count. destruct (Z.eqb_spec (head x) (tail x)) as [->|Hne]; [by rewrite Z.sub_diag|].
  symmetry. apply Z.eqb_neq. pose proof (Z.div_mod (head x - tail x) 64). pose proof (Z.mod_pos_bound (head x - tail x) 64). lia.
Qed.

Lemma full_count x : wf x -> intq_full x = (count x =? 63).
Proof.
  intros (Hh & Ht & _). unfold intq_full, count. rewrite next_mod by lia. pose proof (Z.div_mod (head x - tail x) 64). pose proof (Z.mod_pos_bound (head x - tail x) 64).
  pose proof (Z.div_mod (head x + 1) 64). pose proof (Z.mod_pos_bound (head x + 1) 64).
  destruct (Z.eqb_spec ((head x + 1) mod 64) (tail x)), (Z.eqb_spec ((head x - tail x) mod 64) 63); lia.
Qed.

Lemma count_bounds x : wf x -> 0 <= count x <= 63.
Proof. intros _. unfold count. pose proof (Z.mod_pos_bound (head x - tail x) 64). lia. Qed.

Lemma contents_put x byte : wf x -> intq_full x = false ->
  let x' := set_data (<[Z.to_nat (head x) := byte]> (buf x)) (next (head x)) (tail x) x in
  wf x' /\ intq_empty x' = false /\ contents x' = contents x ++ [byte].
Proof.
  intros Hw Hf x'. pose proof (count_bounds x Hw). rewrite full_count in Hf by done. apply Z.eqb_neq in Hf.
  pose proof Hw as (Hh & Ht & Hl). assert (wf x') as Hw'.
  { unfold wf. simpl. rewrite next_mod, length_insert by lia. pose proof (Z.mod_pos_bound (head x + 1) 64). lia. }
  assert (count x' = count x + 1) as Hc.
  { unfold count in *. simpl. rewrite next_mod by lia. rewrite Zminus_mod_idemp_l. replace (head x + 1 - tail x) with (head x - tail x + 1) by lia.
    rewrite Z.add_mod, (Z.mod_small 1), (Z.mod_small (_ + _)) by lia. done. }
  split_and!; [done| |].
  - rewrite empty_count, Hc by done. apply Z.eqb_neq. lia.
  - unfold contents. rewrite Hc, seqZ_app, fmap_app by lia. f_equal.
    + apply list_fmap_ext. intros k i Hi. apply lookup_seqZ in Hi as [-> Hi]. simpl. unfold znth. rewrite !nth_lookup, list_lookup_insert_ne; [done|].
      intros He. apply (f_equal Z.of_nat) in He. rewrite !Z2Nat.id in He by (try apply Z.mod_pos_bound; lia).
      clear Hc Hw'. unfold count in *. dlia.
    + simpl. f_equal. unfold znth. rewrite nth_lookup.
      replace ((tail x + (Z.of_nat 0 + (0 + count x))) mod 64) with (head x) by (unfold count; dlia).
      by rewrite list_lookup_insert_eq by lia.
Qed.

Lemma contents_get x : wf x -> intq_empty x = false ->
  let x' := set_data (buf x) (head x) (next (tail x)) x in
  wf x' /\ intq_full x' = false /\ contents x = znth 0 (buf x) (tail x) :: contents x'.
Proof.
  intros Hw He x'. pose proof (count_bounds x Hw). rewrite empty_count in He by done. apply Z.eqb_neq in He.
  pose proof Hw as (Hh & Ht & Hl). assert (wf x') as Hw'.
  { unfold wf. simpl. rewrite next_mod by lia. pose proof (Z.mod_pos_bound (tail x + 1) 64). lia. }
  assert (count x' = count x - 1) as Hc.
  { unfold count in *. simpl. rewrite next_mod by lia. rewrite Zminus_mod_idemp_r. replace (head x - (tail x + 1)) with (head x - tail x + (-1)) by lia.
    rewrite <- Zplus_mod_idemp_l. rewrite Z.mod_small by lia. lia. }
  split_and!; [done| |].
  - rewrite full_count, Hc by done. apply Z.eqb_neq. lia.
  - unfold contents. rewrite Hc. rewrite (seqZ_cons 0 (count x)) by lia. rewrite fmap_cons. f_equal; [by rewrite Z.add_0_r, Z.mod_small by lia|].
    rewrite <- (fmap_add_seqZ 1 0), <- list_fmap_compose. replace (Z.pred (count x)) with (count x - 1) by lia. apply list_fmap_ext. intros k i Hi.
    simpl. rewrite next_mod by lia. rewrite Zplus_mod_idemp_l. do 2 f_equal. lia.
Qed.

(** ** Bytes come out in the order they went in *)

Ltac unst H := unfold mbind, st_bind, mret, st_ret, gets, modify, lift, kassert_st in H; cbn in H.

Definition data (s : sys) := (buf (q s), head (q s), tail (q s), accepted s, delivered s).
Definition fifo (s : sys) : Prop := wf (q s) /\ accepted s = delivered s ++ contents (q s).

Lemma fifo_data s s' : data s' = data s -> fifo s -> fifo s'.
Proof.
  destruct s as [[? ? ? ? ? ? ?] ? ? ?], s' as [[? ? ? ? ? ? ?] ? ? ?]. unfold data, fifo, wf, contents, count. simpl. intros [= -> -> -> -> ->]. done.
Qed.

Lemma waiter_data c t s : data (set_q (set_waiter c t) s) = data s.
Proof. by destruct s as [[] ? ? ?], c. Qed.

Lemma wake_data t s a s' : wake t s = Ok (a, s') -> data s' = data s.
Proof. intros H. unfold wake in H. unst H. destruct (sleepers s !! t) as [[c p w]|]; [|done]. destruct w; cbn in H; [done|]. by injection H as <- <-. Qed.

Lemma wait_data t c s a s' : wait t c s = Ok (a, s') -> data s' = data s.
Proof.
  intros H. unfold wait, sleep in H. unst H. destruct (blocked c (q s)); simplify_eq/=. apply (waiter_data c (Some t) s).
Qed.

Lemma signal_data c s a s' : signal c s = Ok (a, s') -> data s' = data s.
Proof.
  intros H. unfold signal in H. unst H. destruct (blocked c (q s)); simplify_eq/=. destruct (waiter c (q s)) as [t|]; simplify_eq/=; [|done].
  destruct (wake t s) as [[[] s1]|] eqn:E; [|done]. injection H as _ <-. rewrite waiter_data. by eapply wake_data.
Qed.

Lemma acquire_data t c s a s' : acquire t c s = Ok (a, s') -> data s' = data s.
Proof. intros H. unfold acquire, sleep in H. unst H. destruct (bool_decide _); simplify_eq/=. by destruct (lock_holder (q s)); simplify_eq/=. Qed.

Lemma intq_release_data t s a s' : release t s = Ok (a, s') -> data s' = data s.
Proof.
  intros H. unfold release in H. unst H. destruct (bool_decide _); simplify_eq/=. destruct (lock_waiters (q s)); simplify_eq/=; [done|].
  by apply wake_data in H as ->.
Qed.

Lemma transfer_fifo c s a s' : fifo s -> blocked c (q s) = false -> transfer c s = Ok (a, s') -> fifo s'.
Proof.
  intros [Hw Hf] Hb H. unfold transfer in H. unst H. destruct c as [|byte]; cbn in Hb.
  - pose proof (contents_get (q s) Hw Hb) as (Hw' & _ & Hc). destruct Hw as (_ & Ht & Hl).
    rewrite (zget_znth 0) in H by lia. cbn in H. destruct (signal _ _) as [[[] s1]|] eqn:H1; [|done]. injection H as _ <-. apply signal_data in H1.
    revert H1. destruct s as [[? ? ? ? ? ? ?] ? ? ?], s1 as [[? ? ? ? ? ? ?] ? ? ?]. unfold data, fifo. simpl in *. intros [= -> -> -> -> ->]. split; [exact Hw'|].
    rewrite Hf, Hc, <- app_assoc. done.
  - pose proof (contents_put (q s) byte Hw Hb) as (Hw' & _ & Hc). destruct Hw as (Hh & _ & Hl).
    rewrite zset_Ok in H by lia. cbn in H. destruct (signal _ _) as [[[] s1]|] eqn:H1; [|done]. injection H as _ <-. apply signal_data in H1.
    revert H1. destruct s as [[? ? ? ? ? ? ?] ? ? ?], s1 as [[? ? ? ? ? ? ?] ? ? ?]. unfold data, fifo. simpl in *. intros [= -> -> -> -> ->]. split; [exact Hw'|].
    change (contents _) with (contents (set_data (<[Z.to_nat head0:=byte]> buf0) (next head0) tail0 (Intq lock_holder0 lock_waiters0 not_full0 not_empty0 buf0 head0 tail0))).
    rewrite Hf, Hc, app_assoc. done.
Qed.

Lemma call_fifo who c s a s' : fifo s -> intq_call who c s = Ok (a, s') -> fifo s'.
Proof.
  intros Hf H. unfold intq_call in H. unst H. destruct (blocked c (q s)) eqn:E; [|by eapply transfer_fifo].
  destruct who as [t|]; [|done]. destruct (acquire t c s) as [[got s1]|] eqn:H1; [|done]. apply acquire_data in H1. apply (fifo_data s); [|done]. rewrite <- H1.
  destruct got; [by eapply wait_data|]. by simplify_eq/=.
Qed.

Lemma perform_fifo e s a s' : fifo s -> perform e s = Ok (a, s') -> fifo s'.
Proof.
  intros Hf H. destruct e as [t c|c|t]; [by eapply call_fifo|by eapply call_fifo|]. cbn [perform] in H. unfold intq_resume in H. unst H.
  destruct (sleepers s !! t) as [[c p []]|]; [|done..]. cbn in H. destruct p.
  - destruct (acquire t c _) as [[got s1]|] eqn:H1; [|done]. apply acquire_data in H1. apply (fifo_data s); [|done].
    destruct got; [apply wait_data in H as ->; exact H1|]. injection H as _ <-. exact H1.
  - destruct (release t _) as [[[] s1]|] eqn:H1; [|done]. apply intq_release_data in H1. eapply call_fifo; [|exact H]. by apply (fifo_data s).
Qed.

Lemma start_fifo : fifo start.
Proof. split; [unfold wf; simpl; lia|reflexivity]. Qed.

(** An interrupt queue is a first-in first-out queue of at most 63
    bytes: whatever threads and interrupt handlers call, and in whatever
    order blocked threads run, the bytes returned so far followed by those
    in the buffer are the bytes stored, in order. *)
Theorem intq_is_fifo es s : perform_all es start = Ok (tt, s) ->
  accepted s = delivered s ++ contents (q s) /\ (length (contents (q s)) <= 63)%nat.
Proof.
  intros H. enough (fifo s) as [Hw Hf].
  { split; [done|]. pose proof (count_bounds _ Hw). unfold contents. rewrite length_fmap, length_seqZ. lia. }
  revert H. generalize start start_fifo. induction es as [|e es IH]; intros s0 H0 H; cbn [perform_all] in H; [injection H as <-; exact H0|].
  apply st_bind_Ok in H as ([] & s1 & H1 & H2). eapply IH; [|exact H2]. by eapply perform_fifo.
Qed.

Lemma intq_is_fifo_witness :
  let s := match perform_all [Call 1 Getc; Interrupt (Putc 7); Interrupt (Putc 8); Run 1; Interrupt (Putc 9)] start with Ok (_, s) => s | Err _ => start end in
  delivered s = [7] /\ accepted s = delivered s ++ contents (q s) /\ (length (contents (q s)) <= 63)%nat.
Proof. split; [vm_compute; reflexivity|]. apply (intq_is_fifo [Call 1 Getc; Interrupt (Putc 7); Interrupt (Putc 8); Run 1; Interrupt (Putc 9)]). vm_compute. reflexivity. Defined.

(** ** One thread and the interrupt handlers *)

(** A thread calls only when it is not in a call; a handler calls only when
    the call will not block; a thread runs on once it is ready. *)
Definition allowed (s : sys) (e : event) : Prop :=
  match e with
  | Call t _ => sleepers s !! t = None
  | Interrupt c => blocked c (q s) = false
  | Run t => exists c p, sleepers s !! t = Some (Sleeper c p true)
  end.

Fixpoint allowed_all (es : list event) (s : sys) : Prop :=
  match es with
  | [] => True
  | e :: es' => allowed s e /\ forall s', perform e s = Ok (tt, s') -> allowed_all es' s'
  end.

Definition thread_of (e : event) : option Z := match e with Call t _ | Run t => Some t | Interrupt _ => None end.

(** The states in which only [t] uses the queue from a thread: it is not in
    a call, it waits and nobody has signalled it, or it has been signalled
    and still holds the lock. *)
Inductive turn (t : Z) : intq -> gmap Z sleeper -> Prop :=
| Idle x : lock_holder x = None -> not_full x = None -> not_empty x = None -> turn t x ∅
| Waiting x c : lock_holder x = Some t -> blocked c x = true -> waiter c x = Some t ->
    (forall d, blocked d x = false -> waiter d x = None) -> turn t x {[t := Sleeper c InWait false]}
| Woken x c : lock_holder x = Some t -> not_full x = None -> not_empty x = None -> turn t x {[t := Sleeper c InWait true]}.

Record alone (t : Z) (s : sys) : Prop := {
  alone_wf : wf (q s);
  alone_lock : lock_waiters (q s) = [];
  alone_turn : turn t (q s) (sleepers s)
}.

Lemma blocked_waiter c d t x : blocked d (set_waiter c t x) = blocked d x.
Proof. by destruct c, d. Qed.

Lemma wait_alone t c s : wf (q s) -> lock_waiters (q s) = [] -> lock_holder (q s) = Some t -> not_full (q s) = None -> not_empty (q s) = None ->
  sleepers s = ∅ -> blocked c (q s) = true -> wp (wait t c) (fun _ => alone t) s.
Proof.
  intros Hw Hl Hh Hf He Hs Hb. unfold wait. apply wp_bind, wp_gets, wp_bind, wp_assert; [done|]. apply wp_bind, wp_modify, wp_modify.
  split; [by destruct c|by destruct c|]. cbn [set_sleepers set_q q sleepers]. rewrite Hs, insert_empty. apply (Waiting t _ c); [by destruct c|by rewrite blocked_waiter|by destruct c|].
  intros d. rewrite blocked_waiter. destruct c, d; simpl in *; congruence.
Qed.

(** A transfer signals the other end, where the thread may be waiting. *)
Lemma signal_alone t d s : wf (q s) -> lock_waiters (q s) = [] -> blocked d (q s) = false ->
  turn t (q s) (sleepers s) \/ (exists c, sleepers s = {[t := Sleeper c InWait false]} /\ lock_holder (q s) = Some t /\
    waiter d (q s) = Some t /\ set_waiter d None (q s) = Intq (Some t) [] None None (buf (q s)) (head (q s)) (tail (q s))) ->
  wp (signal d) (fun _ s' => alone t s' /\ data s' = data s) s.
Proof.
  intros Hw Hl Hb Ht. unfold signal. apply wp_bind, wp_gets, wp_bind, wp_assert; [by rewrite Hb|].
  destruct Ht as [Ht | (c & Hs & Hh & Hd & Hx)].
  - assert (waiter d (q s) = None) as ->; [|by apply wp_ret].
    destruct Ht as [x Hh Hf He|x c Hh Hc Hwt Hn|x c Hh Hf He]; [by destruct d|by apply Hn|by destruct d].
  - rewrite Hd. apply wp_bind. unfold wake. apply wp_bind, wp_gets. rewrite Hs, lookup_singleton_eq. apply wp_bind, wp_assert; [done|].
    apply wp_modify, wp_modify. destruct s as [x sl ac de]. simpl in *. subst sl. rewrite insert_singleton_eq. unfold set_q, set_sleepers, data. simpl. rewrite Hx. split; [|done].
    split; [exact Hw|done|]. by apply Woken.
Qed.

Lemma alone_history t s ac de : alone t s -> alone t (Sys (q s) (sleepers s) ac de).
Proof. intros [? ? ?]. by split. Qed.

Lemma transfer_alone t c s : alone t s -> blocked c (q s) = false -> wp (transfer c) (fun _ => alone t) s.
Proof.
  intros [Hw Hl Ht] Hb. unfold transfer. apply wp_bind, wp_gets. destruct c as [|byte]; cbn [blocked] in Hb.
  - pose proof (contents_get (q s) Hw Hb) as (Hw' & Hb' & _). pose proof Hw as (_ & Htl & Hlen).
    apply wp_bind. eapply wp_lift; [apply (zget_znth 0); lia|]. apply wp_bind, wp_modify, wp_bind. eapply wp_mono; [apply (signal_alone t)|]; [exact Hw'|exact Hl|exact Hb'| |].
    + cbn [set_q q sleepers]. destruct Ht as [x Hh Hf He|x c Hh Hc Hwt Hn|x c Hh Hf He]; [left; by apply Idle| |left; by apply Woken].
      destruct c as [|b]; [cbn in Hc; congruence|]. right. exists (Putc b). specialize (Hn Getc Hb). destruct x. simpl in *. by subst.
    + intros _ s' [Ha _]. apply wp_modify. by apply alone_history.
  - pose proof (contents_put (q s) byte Hw Hb) as (Hw' & Hb' & _). pose proof Hw as (Hhd & _ & Hlen).
    apply wp_bind. eapply wp_lift; [apply zset_Ok; lia|]. apply wp_bind, wp_modify, wp_bind. eapply wp_mono; [apply (signal_alone t)|]; [exact Hw'|exact Hl|exact Hb'| |].
    + cbn [set_q q sleepers]. destruct Ht as [x Hh Hf He|x c Hh Hc Hwt Hn|x c Hh Hf He]; [left; by apply Idle| |left; by apply Woken].
      destruct c as [|b]; [|cbn in Hc; congruence]. right. exists Getc. specialize (Hn (Putc byte) Hb). destruct x. simpl in *. by subst.
    + intros _ s' [Ha _]. apply wp_modify. by apply alone_history.
Qed.

Lemma call_alone t c s : alone t s -> sleepers s = ∅ -> wp (intq_call (Some t) c) (fun _ => alone t) s.
Proof.
  intros Ha Hs. unfold intq_call. apply wp_bind, wp_gets. destruct (blocked c (q s)) eqn:Hb; [|by apply transfer_alone].
  destruct Ha as [Hw Hl Ht]. rewrite Hs in Ht. inversion Ht as [x Hh Hf He|x c' Hh|x c' Hh]; try (by apply map_non_empty_singleton in H0 || by apply map_non_empty_singleton in H1). subst.
  apply wp_bind. unfold acquire. apply wp_bind, wp_gets, wp_bind, wp_assert; [by rewrite Hh|]. rewrite Hh. apply wp_bind, wp_modify, wp_ret.
  by apply wait_alone.
Qed.

Lemma resume_alone t c s : alone t s -> sleepers s !! t = Some (Sleeper c InWait true) -> wp (intq_resume t) (fun _ => alone t) s.
Proof.
  intros [Hw Hl Ht] Hs. unfold intq_resume. apply wp_bind, wp_gets. rewrite Hs.
  destruct s as [x sl ac de]. cbn [q sleepers] in *.
  destruct Ht as [x Hh Hf He|x c' Hh|x c' Hh Hf He]; [done|by rewrite lookup_singleton_eq in Hs|]. rewrite lookup_singleton_eq in Hs. injection Hs as ->.
  apply wp_bind, wp_modify, wp_bind. unfold release. apply wp_bind, wp_gets, wp_bind, wp_assert; [cbn; by rewrite bool_decide_eq_true_2|].
  cbn [set_sleepers q]. rewrite Hl. apply wp_modify. apply call_alone; [|apply delete_singleton_eq].
  split; [exact Hw|done|]. cbn [set_q set_sleepers q sleepers]. rewrite delete_singleton_eq. by apply Idle.
Qed.

Lemma event_alone t e s : alone t s -> allowed s e -> thread_of e = None \/ thread_of e = Some t ->
  wp (perform e) (fun _ => alone t) s.
Proof.
  intros Ha He Ht. destruct e as [t' c|c|t']; cbn [perform allowed thread_of] in *.
  - destruct Ht as [Ht|Ht]; [done|injection Ht as ->]. apply call_alone; [done|]. destruct Ha as [_ _ Ht]. destruct Ht; [done|by rewrite lookup_singleton_eq in He..].
  - unfold intq_call. apply wp_bind, wp_gets. rewrite He. by apply transfer_alone.
  - destruct Ht as [Ht|Ht]; [done|injection Ht as ->]. destruct He as (c & p & He). assert (p = InWait) as ->; [|by eapply resume_alone].
    destruct Ha as [_ _ Ht]. destruct Ht; [done|rewrite lookup_singleton_eq in He; by injection He..].
Qed.

Lemma start_alone t : alone t start.
Proof. split; [unfold wf; simpl; lia|done|by apply Idle]. Qed.

(** When a single thread uses a queue together with interrupt handlers
    that test it before they call, as the keyboard and the serial port do,
    no assertion of the monitor fails and no byte is lost, in any order of
    calls and wake-ups. *)
Theorem intq_one_thread_safe t es : allowed_all es start -> Forall (fun e => thread_of e = None \/ thread_of e = Some t) es ->
  exists s, perform_all es start = Ok (tt, s) /\ accepted s = delivered s ++ contents (q s).
Proof.
  intros Hes Ht. enough (forall s0, alone t s0 -> fifo s0 -> allowed_all es s0 -> exists s, perform_all es s0 = Ok (tt, s) /\ fifo s) as Hall.
  { destruct (Hall start (start_alone t) start_fifo Hes) as (s & Hs & _ & Hf). eauto. }
  clear Hes. induction Ht as [|e es He _ IH]; intros s0 Ha Hf Hes; [by exists s0|]. destruct Hes as [Hal Hes].
  pose proof (event_alone t e s0 Ha Hal He) as Hwp. apply wp_Ok in Hwp as ([] & s1 & E & Ha1).
  destruct (IH s1 Ha1) as (s & Hs & Hfs); [by eapply perform_fifo|by apply Hes|]. exists s. split; [|done]. cbn [perform_all].
  unfold mbind, st_bind. by rewrite E.
Qed.

Definition console_session : list event := [Call 1 Getc; Interrupt (Putc 7); Run 1; Call 1 Getc; Interrupt (Putc 8); Interrupt (Putc 9); Run 1].

Lemma intq_one_thread_safe_witness : exists s, perform_all console_session start = Ok (tt, s) /\ accepted s = delivered s ++ contents (q s).
Proof.
  apply (intq_one_thread_safe 1).
  - unfold console_session. repeat first [exact I | split; [first [reflexivity | do 2 eexists; reflexivity]|intros s' H; vm_compute in H; injection H as <-]].
  - unfold console_session. repeat (apply Forall_cons; [by auto|]). apply Forall_nil. 
Defined.

(** ** Two threads *)

(** Two threads break the monitor.  The thread that gets the lock after
    another released it waits without testing the condition again, which
    wait asserts: two readers fail this way when a byte arrives between the
    release and the second reader's turn, and a reader and a writer fail
    when the reader was woken only after the queue had filled up. *)
Theorem intq_second_thread_panics : exists es es',
  allowed_all es start /\ Forall (fun e => match e with Call _ c => c = Getc | _ => True end) es /\ perform_all es start = Err Panic /\
  allowed_all es' start /\ Forall (fun e => match e with Call t c => t = 1 <-> c = Getc | Interrupt _ => False | Run _ => True end) es' /\
  perform_all es' start = Err Panic.
Proof.
  exists [Call 1 Getc; Call 2 Getc; Interrupt (Putc 7); Run 1; Interrupt (Putc 8); Run 2],
    (Call 1 Getc :: replicate 64 (Call 2 (Putc 7)) ++ [Run 1; Run 2]).
  split_and!.
  - repeat first [exact I | split; [first [reflexivity | do 2 eexists; reflexivity]|intros s' H; vm_compute in H; first [discriminate | injection H as <-]]].
  - repeat (apply Forall_cons; [done|]). by apply Forall_nil.
  - vm_compute. reflexivity.
  - cbn [replicate app]. repeat first [exact I | split; [first [reflexivity | do 2 eexists; reflexivity]|intros s' H; vm_compute in H; first [discriminate | injection H as <-]]].
  - apply Forall_cons; [done|]. apply Forall_app. split; [apply Forall_replicate; split; [lia|done]|]. repeat (apply Forall_cons; [done|]). by apply Forall_nil.
  - vm_compute. reflexivity.
Qed.
