(* ===== verification/Serial.v ===== *)
(** * The serial port and the input buffer (src/devices/serial.c,
      src/devices/input.c)

    The UART's registers are reached through the port instructions of
    [UartPorts], a parameter whose behaviour [Uart] states.  The transmit
    queue and the input buffer are queues of Intq.v.  A thread that waits
    for room in the transmit queue lets time pass and the port interrupt,
    until the queue's monitor has woken it. *)

From S2P Require Import Prelude Memory Wp Intq.

Definition IO_BASE : Z := 0x3f8.
Definition RBR_REG : Z := IO_BASE + 0.
Definition THR_REG : Z := IO_BASE + 0.
Definition IER_REG : Z := IO_BASE + 1.
Definition LS_REG : Z := IO_BASE + 0.
Definition MS_REG : Z := IO_BASE + 1.
Definition IIR_REG : Z := IO_BASE + 2.
Definition FCR_REG : Z := IO_BASE + 2.
Definition LCR_REG : Z := IO_BASE + 3.
Definition MCR_REG : Z := IO_BASE + 4.
Definition LSR_REG : Z := IO_BASE + 5.
Definition IER_RECV : Z := 0x01.
Definition IER_XMIT : Z := 0x02.
Definition LCR_N81 : Z := 0x03.
Definition LCR_DLAB : Z := 0x80.
Definition MCR_OUT2 : Z := 0x08.
Definition LSR_DR : Z := 0x01.
Definition LSR_THRE : Z := 0x20.

Class UartPorts (H : Type) := {
  uart_inb : Z -> H -> Z * H;
  uart_outb : Z -> Z -> H -> H;
  (** Time passes up to the port's next interrupt. *)
  next_interrupt : H -> H
}.

Inductive tx_mode := UNINIT | POLL | QUEUE.

#[global] Instance tx_mode_eq_dec : EqDecision tx_mode.
Proof. solve_decision. Defined.

(** The statics of the two files, the interrupt flag and the port. *)
Record tty (H : Type) := Tty { mode : tx_mode; txq : sys; buffer : sys; intr_on : bool; uart : H }.
Arguments Tty {H} _ _ _ _ _.
Arguments mode {H} _.
Arguments txq {H} _.
Arguments buffer {H} _.
Arguments intr_on {H} _.
Arguments uart {H} _.

(** intq_getc with its result, the byte just delivered. *)
Definition intq_getc (who : option Z) : st sys Z :=
  intq_call who Getc ≫= fun _ => d ← gets delivered; match list.last d with Some b => mret b | None => lift (Err Fault) end.

Section serial.
Context {H : Type} {ports : UartPorts H}.

Definition on_tx {A} (f : st sys A) : st (tty H) A := fun s => r ← f (txq s); Ok (r.1, Tty (mode s) r.2 (buffer s) (intr_on s) (uart s)).
Definition on_buffer {A} (f : st sys A) : st (tty H) A := fun s => r ← f (buffer s); Ok (r.1, Tty (mode s) (txq s) r.2 (intr_on s) (uart s)).
Definition inb (port : Z) : st (tty H) Z := fun s => Ok ((uart_inb port (uart s)).1, Tty (mode s) (txq s) (buffer s) (intr_on s) (uart_inb port (uart s)).2).
Definition outb (port v : Z) : st (tty H) unit := modify (fun s => Tty (mode s) (txq s) (buffer s) (intr_on s) (uart_outb port (u8 v) (uart s))).
Definition set_mode (m : tx_mode) : st (tty H) unit := modify (fun s => Tty m (txq s) (buffer s) (intr_on s) (uart s)).
Definition intr_get_level : st (tty H) bool := gets intr_on.
Definition intr_set_level (l : bool) : st (tty H) unit := modify (fun s => Tty (mode s) (txq s) (buffer s) l (uart s)).
Definition intr_disable : st (tty H) bool := l ← gets intr_on; intr_set_level false ≫= fun _ => mret l.
Definition assert_off : st (tty H) unit := l ← intr_get_level; kassert_st (negb l).

(** The functions of intq.c that assert that interrupts are off. *)
Definition tx_op {A} (f : st sys A) : st (tty H) A := assert_off ≫= fun _ => on_tx f.
Definition buffer_op {A} (f : st sys A) : st (tty H) A := assert_off ≫= fun _ => on_buffer f.

(** ** Registers *)

Definition set_serial (bps : Z) : st (tty H) unit :=
  let divisor := Z.quot (1843200 / 16) bps mod 2 ^ 16 in
  kassert_st ((300 <=? bps) && (bps <=? 115200)) ≫= fun _ =>
  outb LCR_REG (Z.lor LCR_N81 LCR_DLAB) ≫= fun _ =>
  outb LS_REG (Z.land divisor 0xff) ≫= fun _ => outb MS_REG (Z.shiftr divisor 8) ≫= fun _ =>
  outb LCR_REG LCR_N81.

Definition input_full : st (tty H) bool := assert_off ≫= fun _ => x ← gets (fun s => q (buffer s)); mret (intq_full x).
Definition tx_empty : st (tty H) bool := assert_off ≫= fun _ => x ← gets (fun s => q (txq s)); mret (intq_empty x).

Definition write_ier : st (tty H) unit :=
  assert_off ≫= fun _ =>
  empty ← tx_empty; full ← input_full;
  outb IER_REG (Z.lor (if empty : bool then 0 else IER_XMIT) (if full : bool then 0 else IER_RECV)).

Fixpoint poll_loop (fuel : nat) : st (tty H) unit :=
  match fuel with
  | O => lift (Err Fuel)
  | S fuel' => v ← inb LSR_REG; if Z.land v LSR_THRE =? 0 then poll_loop fuel' else mret tt
  end.
(** [n] polls are enough for the port to have sent a byte. *)
Context (n : nat).
Definition putc_poll (byte : Z) : st (tty H) unit := assert_off ≫= fun _ => poll_loop n ≫= fun _ => outb THR_REG byte.

Definition init_poll : st (tty H) unit :=
  m ← gets mode; kassert_st (bool_decide (m = UNINIT)) ≫= fun _ =>
  outb IER_REG 0 ≫= fun _ => outb FCR_REG 0 ≫= fun _ => set_serial 9600 ≫= fun _ => outb MCR_REG MCR_OUT2 ≫= fun _ =>
  on_tx (modify (set_q intq_init)) ≫= fun _ => set_mode POLL.

(** The registration of the handler is in Interrupts.v. *)
Definition serial_init_queue : st (tty H) unit :=
  m ← gets mode; (if decide (m = UNINIT) then init_poll else mret tt) ≫= fun _ =>
  m ← gets mode; kassert_st (bool_decide (m = POLL)) ≫= fun _ =>
  set_mode QUEUE ≫= fun _ =>
  old_level ← intr_disable; write_ier ≫= fun _ => intr_set_level old_level.

Definition serial_notify : st (tty H) unit := assert_off ≫= fun _ => m ← gets mode; if decide (m = QUEUE) then write_ier else mret tt.

(** ** The input buffer *)

Definition input_init : st (tty H) unit := on_buffer (modify (set_q intq_init)).
Definition input_putc (key : Z) : st (tty H) unit :=
  assert_off ≫= fun _ => x ← gets (fun s => q (buffer s)); kassert_st (negb (intq_full x)) ≫= fun _ =>
  buffer_op (intq_call None (Putc key)) ≫= fun _ => serial_notify.
(** input_getc of the thread [t], when there is a key. *)
Definition input_getc (t : Z) : st (tty H) Z :=
  old_level ← intr_disable; key ← buffer_op (intq_getc (Some t)); serial_notify ≫= fun _ => intr_set_level old_level ≫= fun _ => mret key.

(** ** Interrupts *)

Fixpoint receive_loop (fuel : nat) : st (tty H) unit :=
  full ← input_full;
  if full : bool then mret tt
  else v ← inb LSR_REG;
    if Z.land v LSR_DR =? 0 then mret tt
    else match fuel with O => lift (Err Fuel) | S fuel' => b ← inb RBR_REG; input_putc b ≫= fun _ => receive_loop fuel' end.
Fixpoint transmit_loop (fuel : nat) : st (tty H) unit :=
  empty ← tx_empty;
  if empty : bool then mret tt
  else v ← inb LSR_REG;
    if Z.land v LSR_THRE =? 0 then mret tt
    else match fuel with O => lift (Err Fuel) | S fuel' => b ← tx_op (intq_getc None); outb THR_REG b ≫= fun _ => transmit_loop fuel' end.
Definition serial_interrupt : st (tty H) unit :=
  inb IIR_REG ≫= fun _ => receive_loop 63 ≫= fun _ => transmit_loop 63 ≫= fun _ => write_ier.

(** ** Output *)

(** While the thread [t] sleeps in intq_putc. *)
Fixpoint sleep_loop (fuel : nat) (t : Z) : st (tty H) unit :=
  m ← gets (fun s => sleepers (txq s));
  match m !! t with
  | None => mret tt
  | Some b =>
      match fuel with
      | O => lift (Err Fuel)
      | S fuel' =>
          (if woken b then on_tx (intq_resume t)
           else modify (fun s => Tty (mode s) (txq s) (buffer s) (intr_on s) (next_interrupt (uart s))) ≫= fun _ => serial_interrupt) ≫= fun _ =>
          sleep_loop fuel' t
      end
  end.

(** serial_putc and serial_flush, by the thread [t]. *)
Definition serial_putc (t byte : Z) : st (tty H) unit :=
  old_level ← intr_disable;
  m ← gets mode;
  (if decide (m <> QUEUE) then (if decide (m = UNINIT) then init_poll else mret tt) ≫= fun _ => putc_poll byte
   else
     x ← gets (fun s => q (txq s));
     (if negb old_level && intq_full x then b ← tx_op (intq_getc (Some t)); putc_poll b else mret tt) ≫= fun _ =>
     tx_op (intq_call (Some t) (Putc byte)) ≫= fun _ => sleep_loop 2 t ≫= fun _ => write_ier) ≫= fun _ =>
  intr_set_level old_level.

Fixpoint flush_loop (fuel : nat) (t : Z) : st (tty H) unit :=
  empty ← tx_empty;
  if empty : bool then mret tt
  else match fuel with O => lift (Err Fuel) | S fuel' => b ← tx_op (intq_getc (Some t)); putc_poll b ≫= fun _ => flush_loop fuel' t end.
Definition serial_flush (t : Z) : st (tty H) unit := old_level ← intr_disable; flush_loop 63 t ≫= fun _ => intr_set_level old_level.
End serial.
