(* ===== verification/SerialLaws.v ===== *)
(** * Laws of the serial port

    Every byte given to serial_putc reaches the wire, once and in order, in
    polling mode and through the transmit queue, whatever interrupts come
    in between. *)

From S2P Require Import Prelude Memory Wp Intq Serial.

(** ** Calls of a queue that one thread uses *)

(** How the sleeping thread changes: not at all, or a signal wakes it. *)
Definition woke (m m' : gmap Z sleeper) : Prop :=
  m' = m \/ exists t b, m !! t = Some b /\ m' = <[t := Sleeper (in_call b) (at_point b) true]> m.

Lemma signal_woke c s a s' : signal c s = Ok (a, s') -> woke (sleepers s) (sleepers s').
Proof.
  intros E. unfold signal in E. unst E. destruct (negb _); [|done]. destruct (waiter c (q s)) as [t|]; [|injection E as _ <-; by left].
  unfold wake in E. unst E. destruct (sleepers s !! t) as [b|] eqn:Hb; [|done]. unst E. destruct (negb (woken b)); [|done]. injection E as _ <-. right. by exists t, b.
Qed.

Lemma wp_put t who b s : alone t s -> intq_full (q s) = false ->
  wp (intq_call who (Putc b)) (fun _ s' => alone t s' /\ contents (q s') = contents (q s) ++ [b] /\ woke (sleepers s) (sleepers s')) s.
Proof.
  intros Ha Hf. unfold intq_call. apply wp_bind, wp_gets. simpl blocked. rewrite Hf. pose proof (transfer_alone t (Putc b) s Ha Hf) as Hwp.
  apply wp_Ok in Hwp as ([] & s' & E & Ha'). unfold wp. rewrite E. split; [done|]. pose proof (alone_wf _ _ Ha) as Hw. pose proof Hw as (Hh & _ & Hl).
  pose proof (contents_put (q s) b Hw Hf) as (_ & _ & Hc). unfold transfer in E. unst E. rewrite zset_Ok in E by lia. cbn in E.
  destruct (signal _ _) as [[[] s1]|] eqn:H1; [|done]. injection E as <-. split; [|by apply signal_woke in H1]. apply signal_data in H1. rewrite <- Hc.
  destruct s as [[] ? ? ?], s1 as [[] ? ? ?]. unfold data in H1. simpl in *. injection H1 as -> -> -> -> ->. done.
Qed.

Lemma wp_get t who s b l : alone t s -> contents (q s) = b :: l ->
  wp (intq_getc who) (fun r s' => r = b /\ alone t s' /\ contents (q s') = l /\ intq_full (q s') = false /\ woke (sleepers s) (sleepers s')) s.
Proof.
  intros Ha Hcon. pose proof (alone_wf _ _ Ha) as Hw. assert (intq_empty (q s) = false) as He.
  { rewrite empty_count by done. apply Z.eqb_neq. intros E. unfold contents in Hcon. by rewrite E in Hcon. }
  unfold intq_getc, intq_call. apply wp_bind, wp_bind, wp_gets. simpl blocked. rewrite He. pose proof (transfer_alone t Getc s Ha He) as Hwp.
  apply wp_Ok in Hwp as ([] & s' & E & Ha'). unfold wp at 1. rewrite E. pose proof Hw as (_ & Ht & Hl).
  pose proof (contents_get (q s) Hw He) as (_ & Hnf & Hc). unfold transfer in E. unst E. rewrite (zget_znth 0) in E by lia. cbn in E.
  destruct (signal _ _) as [[[] s1]|] eqn:H1; [|done]. injection E as <-. apply wp_bind, wp_gets. simpl delivered. rewrite last_snoc. apply wp_ret.
  rewrite Hcon in Hc. injection Hc as -> ->. split; [done|]. split; [done|]. apply signal_woke in H1 as Hwk. apply signal_data in H1.
  destruct s as [[] ? ? ?], s1 as [[] ? ? ?]. unfold data in H1. simpl in *. injection H1 as -> -> -> -> ->. done.
Qed.

Lemma empty_contents t s : alone t s -> intq_empty (q s) = bool_decide (contents (q s) = []).
Proof.
  intros Ha. pose proof (alone_wf _ _ Ha) as Hw. rewrite empty_count by done. pose proof (count_bounds _ Hw). unfold contents. destruct (Z.eqb_spec (count (q s)) 0) as [->|Hne].
  - by rewrite bool_decide_eq_true_2.
  - rewrite bool_decide_eq_false_2; [done|]. intros E%(f_equal length). rewrite length_fmap, length_seqZ in E. simpl in E. lia.
Qed.
Lemma contents_length t s : alone t s -> (length (contents (q s)) <= 63)%nat.
Proof. intros Ha. pose proof (count_bounds _ (alone_wf _ _ Ha)). unfold contents. rewrite length_fmap, length_seqZ. lia. Qed.

Lemma contents_room t s : alone t s -> (length (contents (q s)) < 63)%nat -> intq_full (q s) = false.
Proof. intros Ha. pose proof (alone_wf _ _ Ha) as Hw. pose proof (count_bounds _ Hw). rewrite full_count by done. unfold contents. rewrite length_fmap, length_seqZ. intros. lia. Qed.

(** A queue in which no thread waits. *)
Definition quiet (s : sys) : Prop := (forall t, alone t s) /\ sleepers s = ∅.

Lemma alone_quiet t s : alone t s -> sleepers s = ∅ -> quiet s.
Proof.
  intros [Hw Hl Ht] Hs. split; [|done]. intros t'. split; [done|done|]. rewrite Hs in *. inversion Ht as [x Hh Hf He| |]; subst. by apply Idle.
Qed.
Lemma woke_empty m : woke ∅ m -> m = ∅.
Proof. intros [->|(t & b & Hb & _)]; [done|]. by rewrite lookup_empty in Hb. Qed.

Lemma quiet_put who b s : quiet s -> intq_full (q s) = false -> wp (intq_call who (Putc b)) (fun _ s' => quiet s' /\ contents (q s') = contents (q s) ++ [b]) s.
Proof.
  intros [Ha Hs] Hf. eapply wp_mono; [apply (wp_put 0 who b s); auto|]. intros _ s' (Ha' & Hc & Hwk). rewrite Hs in Hwk. apply woke_empty in Hwk. split; [by apply (alone_quiet 0)|done].
Qed.
Lemma quiet_get who s b l : quiet s -> contents (q s) = b :: l -> wp (intq_getc who) (fun r s' => r = b /\ quiet s' /\ contents (q s') = l) s.
Proof.
  intros [Ha Hs] Hc. eapply wp_mono; [apply (wp_get 0 who s b l); auto|]. intros r s' (Hr & Ha' & Hc' & _ & Hwk). rewrite Hs in Hwk. apply woke_empty in Hwk.
  split; [done|]. split; [by apply (alone_quiet 0)|done].
Qed.

(** ** A thread asleep in intq_putc *)

Definition dozes (t b : Z) (m : gmap Z sleeper) : Prop := exists w, m = {[t := Sleeper (Putc b) InWait w]}.
Lemma dozes_woke t b m m' : dozes t b m -> woke m m' -> dozes t b m'.
Proof.
  intros [w ->] [->|(t' & b' & Hb & ->)]; [by exists w|]. apply lookup_singleton_Some in Hb as [<- <-]. exists true. by rewrite insert_singleton_eq.
Qed.
Lemma quiet_woke m m' : m = ∅ -> woke m m' -> m' = ∅.
Proof. intros -> Hm. by apply woke_empty. Qed.

Lemma wp_block t b s : quiet s -> intq_full (q s) = true ->
  wp (intq_call (Some t) (Putc b)) (fun _ s' => alone t s' /\ sleepers s' = {[t := Sleeper (Putc b) InWait false]} /\ contents (q s') = contents (q s) /\ intq_full (q s') = true) s.
Proof.
  intros [Ha Hs] Hf. pose proof (call_alone t (Putc b) s (Ha t) Hs) as Hwp. apply wp_Ok in Hwp as ([] & s' & E & Ha'). unfold wp. rewrite E. split; [done|].
  destruct (Ha t) as [_ _ Ht]. rewrite Hs in Ht. inversion Ht as [x Hh| |]; subst. unfold intq_call in E. unst E. rewrite Hf in E. unfold acquire in E. unst E. rewrite Hh in E.
  rewrite bool_decide_eq_false_2 in E by done. unfold wait in E. unst E. unfold intq_full in *. simpl in E. rewrite Hf in E. unfold sleep in E. unst E. injection E as <-.
  split; [simpl; rewrite Hs; by rewrite insert_empty|]. done.
Qed.

Lemma wp_intq_resume t b s : alone t s -> sleepers s = {[t := Sleeper (Putc b) InWait true]} -> intq_full (q s) = false ->
  wp (intq_resume t) (fun _ s' => quiet s' /\ contents (q s') = contents (q s) ++ [b]) s.
Proof.
  intros [Hw Hl Ht] Hs Hf. unfold intq_resume. apply wp_bind, wp_gets. rewrite Hs, lookup_singleton_eq, delete_singleton_eq.
  assert (lock_holder (q s) = Some t /\ not_full (q s) = None /\ not_empty (q s) = None) as (Hh & Hn1 & Hn2).
  { destruct Ht as [x|x c Hh _ _ _|x c Hh Hn1 Hn2]; [by symmetry in Hs; apply map_non_empty_singleton in Hs| |done].
    apply (f_equal (fun m : gmap Z sleeper => m !! t)) in Hs. by rewrite !lookup_singleton_eq in Hs. }
  apply wp_bind, wp_modify, wp_bind. unfold release. apply wp_bind, wp_gets, wp_bind, wp_assert; [simpl; rewrite Hh; by apply bool_decide_eq_true_2|].
  cbn [set_sleepers q]. rewrite Hl. apply wp_modify. eapply wp_mono; [apply quiet_put|].
  - apply (alone_quiet t); [|done]. split; [exact Hw|done|]. by apply Idle.
  - exact Hf.
  - intros _ s' [Hq Hc]. split; [done|]. exact Hc.
Qed.

(** ** The port

    The bytes on the wire, the bytes received and not read, whether the
    transmitter is free and how often it may be polled before it is, the
    divisor latch bit and the interrupt enable register.  Reading a
    register lets bytes arrive and the transmitter finish. *)

Class Uart (H : Type) {ports : UartPorts H} := {
  wire : H -> list Z;
  rx : H -> list Z;
  ready : H -> bool;
  busy : H -> nat;
  dlab : H -> bool;
  ier : H -> Z;
  polls : nat;
  busy_polls : forall h, (busy h < polls)%nat;
  lsr_ok : forall h v h', uart_inb LSR_REG h = (v, h') ->
    wire h' = wire h /\ dlab h' = dlab h /\ ier h' = ier h /\
    Z.testbit v 0 = negb (bool_decide (rx h' = [])) /\ Z.testbit v 5 = ready h' /\
    (ready h = true -> ready h' = true) /\ (ready h' = false -> (busy h' < busy h)%nat);
  rbr_ok : forall h v h', uart_inb RBR_REG h = (v, h') -> wire h' = wire h /\ dlab h' = dlab h /\ ier h' = ier h /\ ready h' = ready h;
  iir_ok : forall h v h', uart_inb IIR_REG h = (v, h') -> wire h' = wire h /\ dlab h' = dlab h /\ ier h' = ier h /\ ready h' = ready h;
  thr_ok : forall h b, dlab h = false -> ready h = true ->
    wire (uart_outb THR_REG b h) = wire h ++ [b] /\ dlab (uart_outb THR_REG b h) = false /\ ier (uart_outb THR_REG b h) = ier h;
  latch_ok : forall h b, dlab h = true -> wire (uart_outb LS_REG b h) = wire h /\ dlab (uart_outb LS_REG b h) = true;
  ier_ok : forall h v, wire (uart_outb IER_REG v h) = wire h /\ dlab (uart_outb IER_REG v h) = dlab h /\ ready (uart_outb IER_REG v h) = ready h /\
    (dlab h = false -> ier (uart_outb IER_REG v h) = v);
  control_ok : forall h p v, p = FCR_REG \/ p = MCR_REG -> wire (uart_outb p v h) = wire h /\ dlab (uart_outb p v h) = dlab h;
  lcr_ok : forall h v, wire (uart_outb LCR_REG v h) = wire h /\ dlab (uart_outb LCR_REG v h) = Z.testbit v 7;
  (** With the transmit interrupt enabled, the port interrupts once the
      transmitter is free. *)
  next_ok : forall h, wire (next_interrupt h) = wire h /\ dlab (next_interrupt h) = dlab h /\ ier (next_interrupt h) = ier h /\
    (Z.testbit (ier h) 1 = true -> ready (next_interrupt h) = true)
}.

(** ** Sessions

    Calls of the driver by threads, changes of the interrupt level, and the
    interrupts of the port (once its handler is registered) and of the
    keyboard, which come while interrupts are on. *)

Inductive event :=
| Send (t b : Z)
| Flush (t : Z)
| Init_queue
| Level (on : bool)
| Irq
| Key (k : Z)
| Read_key (t : Z).

#[global] Instance event_eq_dec : EqDecision event.
Proof. solve_decision. Defined.

Section laws.
Context {H : Type} {ports : UartPorts H} {port : Uart H}.
Implicit Types (s : tty H).

(** ** Registers *)

Definition with_uart (h : H) (s : tty H) : tty H := Tty (mode s) (txq s) (buffer s) (intr_on s) h.
Definition with_txq (x : sys) (s : tty H) : tty H := Tty (mode s) x (buffer s) (intr_on s) (uart s).
Definition with_buffer (x : sys) (s : tty H) : tty H := Tty (mode s) (txq s) x (intr_on s) (uart s).

Lemma wp_off (Q : unit -> tty H -> Prop) s : intr_on s = false -> Q tt s -> wp assert_off Q s.
Proof. intros Hs HQ. apply wp_bind, wp_gets. rewrite Hs. by apply wp_assert. Qed.
Lemma wp_inb p (Q : Z -> tty H -> Prop) s : (forall v h, uart_inb p (uart s) = (v, h) -> Q v (with_uart h s)) -> wp (inb p) Q s.
Proof. intros HQ. unfold wp, inb. destruct (uart_inb p (uart s)) as [v h] eqn:E. simpl. by apply HQ. Qed.
Lemma wp_outb p v (Q : unit -> tty H -> Prop) s : Q tt (with_uart (uart_outb p (u8 v) (uart s)) s) -> wp (outb p v) Q s.
Proof. done. Qed.
Lemma wp_on_tx {A} (f : st sys A) (P : A -> sys -> Prop) (Q : A -> tty H -> Prop) s :
  intr_on s = false -> wp f P (txq s) -> (forall a x, P a x -> Q a (with_txq x s)) -> wp (tx_op f) Q s.
Proof.
  intros Hs Hf HQ. apply wp_bind, wp_off; [done|]. unfold wp, on_tx in *. destruct (f (txq s)) as [[a x]|]; [|done]. by apply HQ.
Qed.
Lemma wp_on_buffer {A} (f : st sys A) (P : A -> sys -> Prop) (Q : A -> tty H -> Prop) s :
  intr_on s = false -> wp f P (buffer s) -> (forall a x, P a x -> Q a (with_buffer x s)) -> wp (buffer_op f) Q s.
Proof.
  intros Hs Hf HQ. apply wp_bind, wp_off; [done|]. unfold wp, on_buffer in *. destruct (f (buffer s)) as [[a x]|]; [|done]. by apply HQ.
Qed.
Lemma wp_tx_empty (Q : bool -> tty H -> Prop) s : intr_on s = false -> Q (intq_empty (q (txq s))) s -> wp tx_empty Q s.
Proof. intros Hs HQ. apply wp_bind, wp_off; [done|]. apply wp_bind, wp_gets. by apply wp_ret. Qed.
Lemma wp_input_full (Q : bool -> tty H -> Prop) s : intr_on s = false -> Q (intq_full (q (buffer s))) s -> wp input_full Q s.
Proof. intros Hs HQ. apply wp_bind, wp_off; [done|]. apply wp_bind, wp_gets. by apply wp_ret. Qed.

(** write_ier changes the interrupt enable register only, and enables the
    transmit interrupt when there is a byte to send. *)
Lemma wp_write_ier (Q : unit -> tty H -> Prop) s : intr_on s = false ->
  (forall h, wire h = wire (uart s) -> dlab h = dlab (uart s) -> ready h = ready (uart s) ->
     (dlab h = false -> Z.testbit (ier h) 1 = negb (intq_empty (q (txq s)))) -> Q tt (with_uart h s)) -> wp write_ier Q s.
Proof.
  intros Hs HQ. apply wp_bind, wp_off; [done|]. apply wp_bind, wp_tx_empty; [done|]. apply wp_bind, wp_input_full; [done|]. apply wp_outb.
  destruct (ier_ok (uart s) (u8 (Z.lor (if intq_empty (q (txq s)) then 0 else IER_XMIT) (if intq_full (q (buffer s)) then 0 else IER_RECV)))) as (E1 & E2 & E3 & E4).
  apply HQ; [done..|]. rewrite E2. intros Hd. rewrite E4 by done. by destruct (intq_empty _), (intq_full _).
Qed.
Lemma wp_notify (Q : unit -> tty H -> Prop) s : intr_on s = false ->
  (forall h, wire h = wire (uart s) -> dlab h = dlab (uart s) -> ready h = ready (uart s) ->
     (dlab h = false -> mode s = QUEUE -> Z.testbit (ier h) 1 = negb (intq_empty (q (txq s)))) -> Q tt (with_uart h s)) -> wp serial_notify Q s.
Proof.
  intros Hs HQ. apply wp_bind, wp_off; [done|]. apply wp_bind, wp_gets. destruct (decide (mode s = QUEUE)).
  - apply wp_write_ier; [done|]. intros h E1 E2 E3 E4. apply HQ; auto.
  - apply wp_ret. replace s with (with_uart (uart s) s) by (by destruct s). apply HQ; [done..|]. done.
Qed.

(** ** Polling *)

Lemma wp_poll fuel (Q : unit -> tty H -> Prop) s : (busy (uart s) < fuel)%nat ->
  (forall h, wire h = wire (uart s) -> dlab h = dlab (uart s) -> ier h = ier (uart s) -> ready h = true -> Q tt (with_uart h s)) -> wp (poll_loop fuel) Q s.
Proof.
  revert s. induction fuel as [|fuel IH]; intros s Hf HQ; [lia|]. cbn [poll_loop]. apply wp_bind, wp_inb. intros v h E. apply lsr_ok in E as (Ew & Ed & Ei & _ & Er & _ & Hb).
  rewrite (land_bit v LSR_THRE 5), Er by done. destruct (ready h) eqn:Ehr; simpl.
  - by apply wp_ret, HQ.
  - specialize (Hb eq_refl). apply IH; [simpl; lia|]. intros h' Ew' Ed' Ei' Hr. simpl in Ew', Ed', Ei'. change (with_uart h' (with_uart h s)) with (with_uart h' s). apply HQ; congruence.
Qed.

Lemma wp_putc_poll b (Q : unit -> tty H -> Prop) s : intr_on s = false -> dlab (uart s) = false -> is_byte b ->
  (forall h, wire h = wire (uart s) ++ [b] -> dlab h = false -> ier h = ier (uart s) -> Q tt (with_uart h s)) -> wp (putc_poll polls b) Q s.
Proof.
  intros Hs Hd Hb HQ. apply wp_bind, wp_off; [done|]. apply wp_bind, wp_poll; [apply busy_polls|]. intros h Ew Ed Ei Hr. apply wp_outb. rewrite u8_small by (unfold is_byte in Hb; lia).
  change (with_uart ?a (with_uart h s)) with (with_uart a s). destruct (thr_ok h b) as (E1 & E2 & E3); [congruence|done|]. apply HQ; simpl; congruence.
Qed.

Lemma wp_init_poll (Q : unit -> tty H -> Prop) s : mode s = UNINIT ->
  (forall h, wire h = wire (uart s) -> dlab h = false -> Q tt (Tty POLL (set_q intq_init (txq s)) (buffer s) (intr_on s) h)) -> wp init_poll Q s.
Proof.
  intros Hm HQ. apply wp_bind, wp_gets, wp_bind, wp_assert; [by apply bool_decide_eq_true_2|].
  apply wp_bind, wp_outb, wp_bind, wp_outb, wp_bind. unfold set_serial. apply wp_bind, wp_assert; [done|].
  apply wp_bind, wp_outb, wp_bind, wp_outb, wp_bind, wp_outb, wp_outb, wp_bind, wp_outb, wp_bind, wp_modify, wp_modify. simpl uart. apply HQ.
  - rewrite (proj1 (control_ok _ MCR_REG _ (or_intror eq_refl))), (proj1 (lcr_ok _ _)). change MS_REG with IER_REG. rewrite (proj1 (ier_ok _ _)).
    rewrite (fun h b Hd => proj1 (latch_ok h b Hd)) by (by rewrite (proj2 (lcr_ok _ _))). rewrite (proj1 (lcr_ok _ _)), (proj1 (control_ok _ FCR_REG _ (or_introl eq_refl))). apply ier_ok.
  - by rewrite (proj2 (control_ok _ MCR_REG _ (or_intror eq_refl))), (proj2 (lcr_ok _ _)).
Qed.

(** ** The input buffer *)

Lemma wp_input_putc k (Q : unit -> tty H -> Prop) s : intr_on s = false -> quiet (buffer s) -> intq_full (q (buffer s)) = false ->
  (forall x h, quiet x -> contents (q x) = contents (q (buffer s)) ++ [k] -> wire h = wire (uart s) -> dlab h = dlab (uart s) -> ready h = ready (uart s) ->
     (dlab h = false -> mode s = QUEUE -> Z.testbit (ier h) 1 = negb (intq_empty (q (txq s)))) -> Q tt (with_uart h (with_buffer x s))) ->
  wp (input_putc k) Q s.
Proof.
  intros Hs Hq Hf HQ. apply wp_bind, wp_off; [done|]. apply wp_bind, wp_gets, wp_bind, wp_assert; [by rewrite Hf|].
  apply wp_bind. eapply wp_on_buffer; [done|by apply quiet_put|]. intros [] x [Hx Hc]. apply wp_notify; [done|]. intros h E1 E2 E3 E4. by apply HQ.
Qed.

(** What the port has received goes to the input buffer while there is
    room; the transmit queue and the wire stay as they are. *)
Lemma wp_receive fuel (Q : unit -> tty H -> Prop) s :
  intr_on s = false -> quiet (buffer s) -> (63 - length (contents (q (buffer s))) <= fuel)%nat ->
  (forall x h, quiet x -> wire h = wire (uart s) -> dlab h = dlab (uart s) -> (ready (uart s) = true -> ready h = true) -> Q tt (with_uart h (with_buffer x s))) ->
  wp (receive_loop fuel) Q s.
Proof.
  revert s. induction fuel as [|fuel IH]; intros s Hs Hq Hf HQ; cbn [receive_loop]; (apply wp_bind, wp_input_full; [done|]).
  - destruct (intq_full (q (buffer s))) eqn:Efull.
    + apply wp_ret. replace s with (with_uart (uart s) (with_buffer (buffer s) s)) by (by destruct s). by apply HQ.
    + exfalso. pose proof (alone_wf _ _ (proj1 Hq 0)) as Hw. rewrite full_count in Efull by done. pose proof (count_bounds _ Hw). unfold contents in Hf. rewrite length_fmap, length_seqZ in Hf. lia.
  - destruct (intq_full (q (buffer s))) eqn:Efull.
    + apply wp_ret. replace s with (with_uart (uart s) (with_buffer (buffer s) s)) by (by destruct s). by apply HQ.
    + apply wp_bind, wp_inb. intros v h E. apply lsr_ok in E as (Ew & Ed & _ & _ & _ & Hr & _). destruct (Z.land v LSR_DR =? 0).
      { apply wp_ret. change (with_uart h s) with (with_uart h (with_buffer (buffer s) s)). by apply HQ. }
      apply wp_bind, wp_inb. intros b h1 E1. apply rbr_ok in E1 as (Ew1 & Ed1 & _ & Hr1). simpl uart in *.
      apply wp_bind, wp_input_putc; [done..|]. intros x h2 Hx Hcx Ew2 Ed2 Hr2 _. simpl in Ew2, Ed2, Hr2, Hcx. apply IH; [done|done|simpl; rewrite Hcx, length_app; simpl; lia|].
      intros x3 h3 Hx3 Ew3 Ed3 Hr3. simpl in Ew3, Ed3, Hr3. change (with_uart h3 _) with (with_uart h3 (with_buffer x3 s)). apply HQ; [done|congruence|congruence|]. intros Hrdy. apply Hr3. rewrite Hr2, Hr1. auto.
Qed.

(** ** The transmit queue *)

(** The bytes of the transmit queue go to the wire while the transmitter
    takes them; if it is free at least one does. *)
Lemma wp_transmit t P fuel (Q : unit -> tty H -> Prop) s :
  (forall m m', P m -> woke m m' -> P m') ->
  intr_on s = false -> dlab (uart s) = false -> alone t (txq s) -> P (sleepers (txq s)) -> Forall is_byte (contents (q (txq s))) -> (length (contents (q (txq s))) <= fuel)%nat ->
  (forall x h, alone t x -> P (sleepers x) -> wire h ++ contents (q x) = wire (uart s) ++ contents (q (txq s)) -> dlab h = false -> suffix (contents (q x)) (contents (q (txq s))) ->
     (ready (uart s) = true -> contents (q (txq s)) <> [] -> intq_full (q x) = false) -> Q tt (with_uart h (with_txq x s))) ->
  wp (transmit_loop fuel) Q s.
Proof.
  intros HP. revert s Q. induction fuel as [|fuel IH]; intros s Q Hs Hd Ha Hp Hb Hf HQ; cbn [transmit_loop]; (apply wp_bind, wp_tx_empty; [done|]); rewrite (empty_contents t) by done.
  - destruct (contents (q (txq s))) eqn:Ec; [|simpl in Hf; lia]. rewrite bool_decide_eq_true_2 by done. apply wp_ret.
    replace s with (with_uart (uart s) (with_txq (txq s) s)) by (by destruct s). apply HQ; rewrite ?Ec; done.
  - destruct (contents (q (txq s))) as [|b l] eqn:Ec.
    { rewrite bool_decide_eq_true_2 by done. apply wp_ret. replace s with (with_uart (uart s) (with_txq (txq s) s)) by (by destruct s). apply HQ; rewrite ?Ec; done. }
    rewrite bool_decide_eq_false_2 by done. apply wp_bind, wp_inb. intros v h E. apply lsr_ok in E as (Ew & Ed & _ & _ & Er & Hr & _).
    rewrite (land_bit v LSR_THRE 5), Er by done. destruct (ready h) eqn:Erdy; simpl negb; cbn match.
    + apply wp_bind. eapply wp_on_tx; [done|by apply (wp_get t)|]. intros r x (-> & Hax & Hcx & Hnf & Hwk). apply list.Forall_cons in Hb as [Hbyte Hb].
      apply wp_bind, wp_outb. rewrite u8_small by (unfold is_byte in Hbyte; lia). destruct (thr_ok h b) as (E1 & E2 & _); [congruence|done|].
      apply IH; simpl; [done|done|done|by eapply HP|by rewrite Hcx|rewrite Hcx; simpl in Hf; lia|].
      intros x2 h2 Ha2 Hp2 Ew2 Ed2 Hsuf Hnf2. rewrite E1, Hcx in Ew2. change (with_uart h2 _) with (with_uart h2 (with_txq x2 s)).
      assert (intq_full (q x2) = false) as Hnf3.
      { pose proof (alone_wf _ _ Ha2) as Hw2. pose proof (alone_wf _ _ Hax) as Hw1. rewrite full_count in * by done. apply suffix_length in Hsuf. unfold contents in Hsuf. rewrite !length_fmap, !length_seqZ in Hsuf.
        pose proof (count_bounds _ Hw1). pose proof (count_bounds _ Hw2). lia. }
      apply HQ; rewrite ?Ec; [done|done|rewrite Ew2, Ew, <- app_assoc; done|done|rewrite Hcx in Hsuf; destruct Hsuf as [l0 ->]; by exists (b :: l0)|done].
    + apply wp_ret. change (with_uart h s) with (with_uart h (with_txq (txq s) s)). apply HQ; rewrite ?Ec; [done|done|by rewrite Ew|congruence|done|]. intros Hrdy. specialize (Hr Hrdy). congruence.
Qed.

Lemma wp_serial_interrupt t P (Q : unit -> tty H -> Prop) s :
  (forall m m', P m -> woke m m' -> P m') ->
  intr_on s = false -> dlab (uart s) = false -> alone t (txq s) -> P (sleepers (txq s)) -> quiet (buffer s) -> Forall is_byte (contents (q (txq s))) ->
  (forall x y h, alone t x -> P (sleepers x) -> quiet y -> wire h ++ contents (q x) = wire (uart s) ++ contents (q (txq s)) -> dlab h = false -> suffix (contents (q x)) (contents (q (txq s))) ->
     (ready (uart s) = true -> contents (q (txq s)) <> [] -> intq_full (q x) = false) -> Z.testbit (ier h) 1 = negb (intq_empty (q x)) -> Q tt (Tty (mode s) x y false h)) ->
  wp serial_interrupt Q s.
Proof.
  intros HP Hs Hd Ha Hp Hq Hb HQ. apply wp_bind, wp_inb. intros v h E. apply iir_ok in E as (Ew & Ed & _ & Er).
  apply wp_bind, wp_receive; [done|done|simpl; lia|]. intros y h1 Hy Ew1 Ed1 Hr1. simpl in Ew1, Ed1, Hr1.
  apply wp_bind, (wp_transmit t P); [done|done|simpl; congruence|done|done|done|simpl; by apply (contents_length t)|].
  intros x h2 Hx Hpx Ew2 Ed2 Hsuf Hnf. simpl in Ew2, Hsuf, Hnf. apply wp_write_ier; [done|]. intros h3 Ew3 Ed3 _ Hier. simpl in Ew3, Ed3, Hier.
  change (with_uart h3 _) with (Tty (mode s) x y (intr_on s) h3). rewrite Hs. apply HQ; [done|done|done|congruence|congruence|done| |apply Hier; congruence].
  intros Hrdy. apply Hnf, Hr1. congruence.
Qed.

(** ** The driver's invariant

    [w] are the bytes given to the driver so far. *)

Record inv (w : list Z) (s : tty H) : Prop := {
  i_tx : quiet (txq s);
  i_buffer : quiet (buffer s);
  i_wire : wire (uart s) ++ contents (q (txq s)) = w;
  i_bytes : Forall is_byte (contents (q (txq s)));
  i_dlab : mode s <> UNINIT -> dlab (uart s) = false;
  i_idle : mode s <> QUEUE -> contents (q (txq s)) = [];
  i_ier : mode s = QUEUE -> contents (q (txq s)) <> [] -> Z.testbit (ier (uart s)) 1 = true
}.

Lemma quiet_init x : quiet x -> quiet (set_q intq_init x) /\ contents (q (set_q intq_init x)) = [].
Proof.
  intros [Ha Hs]. split; [|done]. apply (alone_quiet 0); [|done]. destruct (alone_wf _ _ (Ha 0)) as (_ & _ & Hl). split; [split_and!; [done..|exact Hl]|done|]. simpl. rewrite Hs. by apply Idle.
Qed.

Lemma inv_level w l s : inv w s -> inv w (Tty (mode s) (txq s) (buffer s) l (uart s)).
Proof. intros [? ? ? ? ? ? ?]. by split. Qed.
Lemma wp_intr_disable (Q : bool -> tty H -> Prop) s : Q (intr_on s) (Tty (mode s) (txq s) (buffer s) false (uart s)) -> wp intr_disable Q s.
Proof. done. Qed.

(** A thread that sleeps for room is woken by the first interrupt and stores
    its byte. *)
Lemma wp_putc_sleeps t b w s (Q : unit -> tty H -> Prop) :
  intr_on s = false -> mode s = QUEUE -> dlab (uart s) = false -> alone t (txq s) -> sleepers (txq s) = {[t := Sleeper (Putc b) InWait false]} -> intq_full (q (txq s)) = true ->
  quiet (buffer s) -> Forall is_byte (contents (q (txq s))) -> wire (uart s) ++ contents (q (txq s)) = w -> Z.testbit (ier (uart s)) 1 = true -> is_byte b ->
  (forall x y h, quiet x -> quiet y -> Forall is_byte (contents (q x)) -> wire h ++ contents (q x) = w ++ [b] -> dlab h = false -> Q tt (Tty QUEUE x y false h)) ->
  wp (sleep_loop 2 t) Q s.
Proof.
  intros Hs Hm Hd Ha Hz Hfull Hq Hb Hw Hx Hbyte HQ. assert (contents (q (txq s)) <> []) as Hne.
  { pose proof (alone_wf _ _ Ha) as Hwf. rewrite full_count in Hfull by done. intros E%(f_equal length). unfold contents in E. rewrite length_fmap, length_seqZ in E. simpl in E. lia. }
  cbn [sleep_loop]. apply wp_bind, wp_gets. rewrite Hz, lookup_singleton_eq. cbn [woken]. apply wp_bind, wp_bind, wp_modify.
  destruct (next_ok (uart s)) as (Ew & Ed & Ei & Hrdy). apply (wp_serial_interrupt t (dozes t b)); simpl.
  { apply dozes_woke. } { done. } { congruence. } { done. } { rewrite Hz. by exists false. } { done. } { done. }
  intros x y h Hax [w0 Hzx] Hy Ewx Edx Hsuf Hnf _. specialize (Hnf (Hrdy Hx) Hne). apply wp_bind, wp_gets. simpl. rewrite Hzx, lookup_singleton_eq.
  assert (w0 = true) as ->.
  { destruct w0; [done|]. exfalso. destruct Hax as [_ _ Ht]. rewrite Hzx in Ht. remember ({[t := _]} : gmap Z sleeper) as m eqn:Em. destruct Ht as [x0|x0 c _ Hblk _ _|x0 c _ _ _].
    - symmetry in Em. by apply map_non_empty_singleton in Em.
    - apply (f_equal (fun m : gmap Z sleeper => m !! t)) in Em. rewrite !lookup_singleton_eq in Em. injection Em as ->. cbn [blocked] in Hblk. congruence.
    - apply (f_equal (fun m : gmap Z sleeper => m !! t)) in Em. by rewrite !lookup_singleton_eq in Em. }
  cbn [woken]. apply wp_bind. unfold wp, on_tx. cbn [txq]. pose proof (wp_intq_resume t b x Hax Hzx Hnf) as Hwp. apply wp_Ok in Hwp as ([] & x' & -> & Hq' & Hc').
  cbv [mbind st_bind gets outcome_bind]. cbn [txq fst snd]. rewrite (proj2 Hq'), lookup_empty. cbv [mret st_ret]. rewrite Hm. apply HQ; [done|done| |cbn [uart]; by rewrite Hc', app_assoc, Ewx, Ew, Hw|done].
  rewrite Hc'. apply Forall_app. split; [|by apply Forall_singleton]. destruct Hsuf as [l0 E]. rewrite E in Hb. by apply Forall_app in Hb as [_ Hb].
Qed.

(** ** Output *)

Lemma wp_tx_put {A} t b w s (k : unit -> st (tty H) A) (Q : A -> tty H -> Prop) :
  intr_on s = false -> mode s = QUEUE -> quiet (txq s) -> Forall is_byte (contents (q (txq s))) -> wire (uart s) ++ contents (q (txq s)) = w -> dlab (uart s) = false ->
  intq_full (q (txq s)) = false -> is_byte b ->
  (forall x h, quiet x -> Forall is_byte (contents (q x)) -> wire h ++ contents (q x) = w ++ [b] -> dlab h = false -> wp (k tt) Q (Tty QUEUE x (buffer s) false h)) ->
  wp (tx_op (intq_call (Some t) (Putc b))) (fun _ => wp (sleep_loop 2 t ≫= k) Q) s.
Proof.
  intros Hs Hm Htx Hb Hw Hd Hf Hbyte HQ. eapply wp_on_tx; [done|by apply quiet_put|]. intros [] x [Hx Hc]. cbn [sleep_loop]. apply wp_bind, wp_bind, wp_gets. cbn [with_txq txq].
  rewrite (proj2 Hx), lookup_empty. apply wp_ret. unfold with_txq. rewrite Hs, Hm. apply HQ; [done| | |done].
  - rewrite Hc. apply Forall_app. split; [done|by apply Forall_singleton].
  - by rewrite Hc, app_assoc, Hw.
Qed.

Lemma inv_queue w x y h l : quiet x -> quiet y -> Forall is_byte (contents (q x)) -> wire h ++ contents (q x) = w -> dlab h = false ->
  (contents (q x) <> [] -> Z.testbit (ier h) 1 = true) -> inv w (Tty QUEUE x y l h).
Proof. intros. by split. Qed.

Lemma wp_write_ier_inv w x y h l : quiet x -> quiet y -> Forall is_byte (contents (q x)) -> wire h ++ contents (q x) = w -> dlab h = false ->
  wp write_ier (fun _ => wp (intr_set_level l) (fun _ s' => inv w s' /\ mode s' = QUEUE)) (Tty QUEUE x y false h).
Proof.
  intros Hx Hy Hb Hw Hd. apply wp_write_ier; [done|]. intros h' E1 E2 _ Hier. cbn [uart txq] in *. apply wp_modify. split; [|done].
  cbn [with_uart mode txq buffer uart]. apply inv_queue; [done|done|done|congruence|congruence|]. intros Hne. rewrite Hier by congruence. by rewrite (empty_contents 0), bool_decide_eq_false_2 by (done || apply Hx).
Qed.

(** In queue mode: there is room, the thread polls a byte out, or it
    sleeps. *)
Lemma wp_putc_queue t b w s : mode s = QUEUE -> inv w s -> is_byte b -> wp (serial_putc polls t b) (fun _ s' => inv (w ++ [b]) s' /\ mode s' = QUEUE) s.
Proof.
  intros Hm Hi Hbyte. apply wp_bind, wp_intr_disable. set (s0 := Tty (mode s) (txq s) (buffer s) false (uart s)). assert (inv w s0) as Hi0 by (by apply inv_level).
  apply wp_bind, wp_gets, wp_bind. cbn [mode s0]. rewrite Hm. rewrite decide_False by (intros E; by apply E). apply wp_bind, wp_gets. cbn [txq s0].
  pose proof Hi as [Htx Hbf Hw Hb Hd _ Hier]. rewrite Hm in Hd, Hier. specialize (Hd ltac:(done)). specialize (Hier eq_refl).
  destruct (intq_full (q (txq s))) eqn:Ef.
  - assert (exists c l, contents (q (txq s)) = c :: l) as (c & l & Ec).
    { pose proof (alone_wf _ _ (proj1 Htx 0)) as Hwf. rewrite full_count in Ef by done. destruct (contents (q (txq s))) as [|c l] eqn:Ec; [|by exists c, l]. unfold contents in Ec.
      apply (f_equal length) in Ec. rewrite length_fmap, length_seqZ in Ec. simpl in Ec. lia. }
    destruct (intr_on s); cbn [negb andb].
    + apply wp_bind, wp_ret, wp_bind. eapply wp_on_tx; [done|by apply wp_block|]. intros [] x (Hax & Hsl & Hcx & Hfx). apply wp_bind.
      apply (wp_putc_sleeps t b w); cbn [with_txq txq buffer uart intr_on mode s0]; rewrite ?Hcx; try done.
      * apply Hier. by rewrite Ec.
      * intros x' y h Hx' Hy Hb' Hw' Hd'. apply wp_write_ier_inv; done.
    + rewrite Ec in Hb, Hw. apply list.Forall_cons in Hb as [Hc Hb]. apply wp_bind, wp_bind. eapply wp_on_tx; [done|by apply (quiet_get _ _ c l)|]. intros r x (-> & Hx & Hcx).
      apply wp_putc_poll; [done|done|done|]. intros h Ew Ed _. cbn [with_txq with_uart uart mode txq buffer intr_on s0] in *.
      apply wp_bind, (wp_tx_put t b w); [done|done|done|cbn [with_uart with_txq txq]; by rewrite Hcx|cbn [with_uart with_txq txq uart]; by rewrite Ew, Hcx, <- app_assoc|done| |done|].
      { cbn [with_uart with_txq txq]. apply (contents_room 0); [apply Hx|]. rewrite Hcx. pose proof (contents_length 0 _ (proj1 Htx 0)) as Hl. rewrite Ec in Hl. simpl in Hl. lia. }
      intros x' h' Hx' Hb' Hw' Hd'. by apply wp_write_ier_inv.
  - rewrite andb_false_r. apply wp_bind, wp_ret, wp_bind. apply (wp_tx_put t b w); [done..|]. intros x' h' Hx' Hb' Hw' Hd'. by apply wp_write_ier_inv.
Qed.

Lemma wp_init_inv w s (Q : unit -> tty H -> Prop) : mode s = UNINIT -> inv w s ->
  (forall s', inv w s' -> mode s' = POLL -> intr_on s' = intr_on s -> Q tt s') -> wp init_poll Q s.
Proof.
  intros Hm [Htx Hbf Hw Hb Hd Hidle _] HQ. apply wp_init_poll; [done|]. intros h Ew Ed. destruct (quiet_init _ Htx) as [Hx Hc]. rewrite Hm in Hidle. specialize (Hidle ltac:(done)).
  apply HQ; [|done|done]. split; cbn [txq buffer uart mode]; rewrite ?Hc; try done. by rewrite Ew, <- Hw, Hidle.
Qed.

Lemma wp_poll_inv b w s l : mode s = POLL -> inv w s -> intr_on s = false -> is_byte b ->
  wp (putc_poll polls b) (fun _ => wp (intr_set_level l) (fun _ s' => inv (w ++ [b]) s' /\ mode s' = POLL)) s.
Proof.
  intros Hm [Htx Hbf Hw Hb Hd Hidle _] Hs Hbyte. rewrite Hm in Hd, Hidle. specialize (Hd ltac:(done)). specialize (Hidle ltac:(done)).
  apply wp_putc_poll; [done..|]. intros h Ew Ed _. apply wp_modify. cbn [with_uart mode txq buffer uart]. split; [|done]. split; cbn [txq buffer uart mode]; rewrite ?Hm, ?Hidle; try done.
  rewrite Hidle, app_nil_r in Hw. by rewrite Ew, Hw, app_nil_r.
Qed.

Lemma wp_serial_putc t b w s : inv w s -> is_byte b ->
  wp (serial_putc polls t b) (fun _ s' => inv (w ++ [b]) s' /\ mode s' = (if decide (mode s = QUEUE) then QUEUE else POLL)) s.
Proof.
  intros Hi Hbyte. destruct (decide (mode s = QUEUE)) as [Hq|Hq]; [by apply wp_putc_queue|].
  apply wp_bind, wp_intr_disable, wp_bind, wp_gets. cbn [mode]. rewrite decide_True by done. pose proof (inv_level w false s Hi) as Hi0. apply wp_bind, wp_bind.
  destruct (decide (mode s = UNINIT)) as [Hu|Hu].
  - apply (wp_init_inv w); [done|done|]. intros s' Hi' Hm' Hs'. by apply wp_poll_inv.
  - apply wp_ret. apply wp_poll_inv; [by destruct s as [[] ? ? ? ?]|done|done|done].
Qed.

(** serial_flush empties the queue onto the wire. *)
Lemma wp_flush_loop t fuel w s (Q : unit -> tty H -> Prop) : inv w s -> mode s = QUEUE -> intr_on s = false -> (length (contents (q (txq s))) <= fuel)%nat ->
  (forall x h, quiet x -> contents (q x) = [] -> wire h = w -> dlab h = false -> Q tt (Tty QUEUE x (buffer s) false h)) ->
  wp (flush_loop polls fuel t) Q s.
Proof.
  intros Hi Hm Hs Hf HQ. destruct Hi as [Htx Hbf Hw Hb Hd _ _]. rewrite Hm in Hd. specialize (Hd ltac:(done)).
  revert s Hm Hs Hf HQ Htx Hbf Hw Hb Hd. induction fuel as [|fuel IH]; intros s Hm Hs Hf HQ Htx Hbf Hw Hb Hd; cbn [flush_loop]; (apply wp_bind, wp_tx_empty; [done|]); rewrite (empty_contents 0) by apply Htx.
  - destruct (contents (q (txq s))) eqn:Ec; [|simpl in Hf; lia]. rewrite bool_decide_eq_true_2 by done. apply wp_ret. rewrite app_nil_r in Hw.
    destruct s. cbn in *. subst. by apply HQ.
  - destruct (contents (q (txq s))) as [|c l] eqn:Ec.
    { rewrite bool_decide_eq_true_2 by done. apply wp_ret. rewrite app_nil_r in Hw. destruct s. cbn in *. subst. by apply HQ. }
    rewrite bool_decide_eq_false_2 by done. apply list.Forall_cons in Hb as [Hc Hb]. apply wp_bind. eapply wp_on_tx; [done|by apply (quiet_get _ _ c l)|]. intros r x (-> & Hx & Hcx).
    apply wp_bind, wp_putc_poll; [done|done|done|]. intros h Ew Ed Ei. cbn [with_txq with_uart uart mode txq buffer intr_on] in *.
    apply IH; cbn [with_txq with_uart uart mode txq buffer intr_on]; rewrite ?Hcx; try done; [simpl in Hf; lia|by rewrite Ew, <- app_assoc].
Qed.
Lemma wp_flush t w s : inv w s ->
  wp (serial_flush polls t) (fun _ s' => inv w s' /\ mode s' = mode s /\ contents (q (txq s')) = []) s.
Proof.
  intros Hi. apply wp_bind, wp_intr_disable. destruct (decide (mode s = QUEUE)) as [Hq|Hq].
  - apply wp_bind, (wp_flush_loop t _ w); [by apply inv_level|done|done|cbn [txq]; apply (contents_length 0), (i_tx _ _ Hi)|]. intros x h Hx Hc Hw Hd. apply wp_modify.
    cbn [mode txq buffer uart]. split; [|done]. apply inv_queue; rewrite ?Hc, ?app_nil_r; try done. apply (i_buffer _ _ Hi).
  - apply wp_bind. change 63%nat with (S 62). cbn [flush_loop]. apply wp_bind, wp_tx_empty; [done|]. cbn [txq]. rewrite (empty_contents 0) by apply (i_tx _ _ Hi).
    pose proof (i_idle _ _ Hi Hq) as Hc. rewrite Hc, bool_decide_eq_true_2 by done. apply wp_ret, wp_modify. cbn [mode txq buffer uart].
    split; [by apply inv_level|done].
Qed.

Definition in_interrupt (f : st (tty H) unit) : st (tty H) unit :=
  l ← intr_get_level; if l : bool then intr_set_level false ≫= fun _ => f ≫= fun _ => intr_set_level true else mret tt.
Definition step (e : event) : st (tty H) unit :=
  match e with
  | Send t b => serial_putc polls t b
  | Flush t => serial_flush polls t
  | Init_queue => serial_init_queue
  | Level l => intr_set_level l
  | Irq => m ← gets mode; if decide (m = QUEUE) then in_interrupt serial_interrupt else mret tt
  | Key k => in_interrupt (full ← input_full; if full : bool then mret tt else input_putc k)
  | Read_key t => x ← gets (fun s => q (buffer s)); if intq_empty x then mret tt else input_getc t ≫= fun _ => mret tt
  end.
Fixpoint run (es : list event) : st (tty H) unit := match es with [] => mret tt | e :: es' => step e ≫= fun _ => run es' end.

(** The bytes a session sends, and its calls of serial_init_queue. *)
Definition sent (es : list event) : list Z := omap (fun e => match e with Send _ b => Some b | _ => None end) es.
Definition inits (es : list event) : list event := filter (fun e => e = Init_queue) es.

Definition byte_event (e : event) : Prop := match e with Send _ b => is_byte b | _ => True end.

Lemma wp_in_interrupt (f : st (tty H) unit) (P : tty H -> Prop) s : P s ->
  (intr_on s = true -> wp f (fun _ s' => P (Tty (mode s') (txq s') (buffer s') true (uart s'))) (Tty (mode s) (txq s) (buffer s) false (uart s))) -> wp (in_interrupt f) (fun _ => P) s.
Proof.
  intros Hs Hf. apply wp_bind, wp_gets. destruct (intr_on s); [|by apply wp_ret]. apply wp_bind, wp_modify, wp_bind. eapply wp_mono; [by apply Hf|]. intros [] s' Hs'. by apply wp_modify.
Qed.

(** Input changes the input buffer and the interrupt enable register. *)
Lemma inv_input w x h l s : inv w s -> quiet x -> wire h = wire (uart s) -> dlab h = dlab (uart s) ->
  (dlab h = false -> mode s = QUEUE -> Z.testbit (ier h) 1 = negb (intq_empty (q (txq s)))) -> inv w (Tty (mode s) (txq s) x l h).
Proof.
  intros [Htx Hbf Hw Hb Hd Hidle Hier] Hx Ew Ed Hi. split; cbn [txq buffer uart mode]; try done; [congruence| |].
  - intros Hm. rewrite Ed. auto.
  - intros Hm Hne. rewrite Hi; [|rewrite Ed; apply Hd; congruence|done]. by rewrite (empty_contents 0), bool_decide_eq_false_2 by (done || apply Htx).
Qed.

Lemma wp_init_queue w s : inv w s -> mode s <> QUEUE -> wp serial_init_queue (fun _ s' => inv w s' /\ mode s' = QUEUE) s.
Proof.
  intros Hi Hm. apply wp_bind, wp_gets, wp_bind. assert (forall s', inv w s' -> mode s' = POLL ->
    wp (m ← gets mode; kassert_st (bool_decide (m = POLL)) ≫= fun _ => set_mode QUEUE ≫= fun _ => old_level ← intr_disable; write_ier ≫= fun _ => intr_set_level old_level)
       (fun _ s' => inv w s' /\ mode s' = QUEUE) s') as Hpoll.
  { intros s' [Htx Hbf Hw Hb Hd _ _] Hm'. rewrite Hm' in Hd. apply wp_bind, wp_gets, wp_bind, wp_assert; [by apply bool_decide_eq_true_2|]. apply wp_bind, wp_modify, wp_bind, wp_intr_disable, wp_bind.
    cbn [mode txq buffer uart intr_on]. apply wp_write_ier_inv; auto. }
  destruct (decide (mode s = UNINIT)) as [Hu|Hu]; [apply (wp_init_inv w); auto|]. apply wp_ret, Hpoll; [done|]. by destruct s as [[] ? ? ? ?].
Qed.

Lemma wp_step w e s : inv w s -> byte_event e -> (e = Init_queue -> mode s <> QUEUE) ->
  wp (step e) (fun _ s' => inv (w ++ sent [e]) s' /\ (e <> Init_queue -> mode s' = QUEUE -> mode s = QUEUE)) s.
Proof.
  intros Hi Hb Hm. destruct e as [t b|t| |l| |k|t]; cbn [step sent omap list_omap byte_event] in *; rewrite ?app_nil_r.
  - eapply wp_mono; [by apply (wp_serial_putc t b w)|]. intros _ s' [Hi' ->]. split; [done|]. by destruct (decide _).
  - eapply wp_mono; [by apply (wp_flush t w)|]. intros _ s' (Hi' & -> & _). done.
  - eapply wp_mono; [by apply (wp_init_queue w); auto|]. intros _ s' [Hi' _]. done.
  - apply wp_modify. split; [by apply inv_level|done].
  - apply wp_bind, wp_gets. destruct (decide (mode s = QUEUE)) as [Hq|]; [|by apply wp_ret]. apply (wp_in_interrupt _ (fun s' => inv w s' /\ (_ -> mode s' = QUEUE -> mode s = QUEUE))); [done|]. intros _.
    destruct Hi as [Htx Hbf Hw Hby Hd _ _]. rewrite Hq in *. specialize (Hd ltac:(done)). apply (wp_serial_interrupt 0 (fun m => m = ∅)); cbn [txq buffer uart mode intr_on]; try done.
    { apply quiet_woke. } { apply Htx. } { apply Htx. }
    intros x y h Hx Hs Hy Ew Ed Hsuf _ Hier. split; [|done]. apply inv_queue; try done; [by apply (alone_quiet 0)| |congruence|].
    + destruct Hsuf as [l0 E]. rewrite E in Hby. by apply Forall_app in Hby as [_ Hby].
    + intros Hne. by rewrite Hier, (empty_contents 0), bool_decide_eq_false_2 by done.
  - apply (wp_in_interrupt _ (fun s' => inv w s' /\ (_ -> mode s' = QUEUE -> mode s = QUEUE))); [done|]. intros _. apply wp_bind, wp_input_full; [done|]. cbn [buffer].
    destruct (intq_full (q (buffer s))) eqn:Ef; [apply wp_ret; cbn [mode txq buffer uart]; split; [by apply inv_level|done]|].
    apply wp_input_putc; cbn [txq buffer uart mode intr_on]; [done|apply (i_buffer _ _ Hi)|done|]. intros x h Hx _ Ew Ed _ Hier. cbn [with_uart with_buffer mode txq buffer uart]. split; [|done]. by apply inv_input.
  - apply wp_bind, wp_gets. pose proof (i_buffer _ _ Hi) as Hbf. rewrite (empty_contents 0) by apply Hbf. destruct (contents (q (buffer s))) as [|c l] eqn:Ec; [by rewrite bool_decide_eq_true_2 by done; apply wp_ret|].
    rewrite bool_decide_eq_false_2 by done. apply wp_bind, wp_bind, wp_intr_disable, wp_bind. eapply wp_on_buffer; [done|by apply (quiet_get _ _ c l)|]. intros r x (-> & Hx & _).
    apply wp_bind, wp_notify; [done|]. intros h Ew Ed _ Hier. apply wp_bind, wp_modify, wp_ret, wp_ret. cbn [with_uart with_buffer mode txq buffer uart] in *. split; [|done]. by apply inv_input.
Qed.

Lemma wp_run es w s : inv w s -> Forall byte_event es -> (mode s = QUEUE -> inits es = []) -> (length (inits es) <= 1)%nat ->
  wp (run es) (fun _ s' => inv (w ++ sent es) s') s.
Proof.
  revert w s. induction es as [|e es IH]; intros w s Hi Hb Hm Hl; [apply wp_ret; by rewrite app_nil_r|]. apply list.Forall_cons in Hb as [Hbe Hb]. cbn [run]. apply wp_bind.
  assert (inits (e :: es) = if decide (e = Init_queue) then e :: inits es else inits es) as E by (unfold inits; rewrite filter_cons; done). rewrite E in Hm, Hl.
  eapply wp_mono; [apply (wp_step w e s Hi Hbe)|].
  - intros -> Hq. specialize (Hm Hq). by rewrite decide_True in Hm.
  - intros _ s' [Hi' Hm']. replace (w ++ sent (e :: es)) with ((w ++ sent [e]) ++ sent es) by (rewrite <- app_assoc; f_equal; by destruct e).
    apply IH; [done|done| |].
    + intros Hq. destruct (decide (e = Init_queue)) as [->|Hne]; [|auto]. simpl in Hl. destruct (inits es); [done|simpl in Hl; lia].
    + destruct (decide (e = Init_queue)); simpl in Hl; lia.
Qed.
End laws.

(** ** Claim *)

(** The queues as the loader leaves them, and the driver before its first
    use. *)
Definition bss_queue : sys := Sys (Intq None [] None None (replicate 64 0) 0 0) ∅ [] [].
Definition before_use {H} (h : H) : tty H := Tty UNINIT bss_queue bss_queue false h.

Lemma bss_quiet : quiet bss_queue.
Proof. apply (alone_quiet 0); [|done]. split; [by unfold wf|done|by apply Idle]. Qed.
Lemma before_use_inv {H} {ports : UartPorts H} {port : Uart H} (h : H) : inv (wire h) (before_use h).
Proof. split; try done; try apply bss_quiet. apply app_nil_r. Qed.


(** A port that needs up to three polls to send a byte. *)
Record sim := Sim { out : list Z; shifting : nat; inbox : list Z; latch : bool; enabled : Z }.
#[export] Instance sim_ports : UartPorts sim := {
  uart_inb := fun p u =>
    if p =? LSR_REG then let k := pred (Nat.min (shifting u) 3) in
      ((if inbox u is [] then 0 else 1) + (if k is O then 0x20 else 0), Sim (out u) k (inbox u) (latch u) (enabled u))
    else if p =? RBR_REG then (match inbox u with b :: _ => b | [] => 0 end, Sim (out u) (shifting u) (drop 1 (inbox u)) (latch u) (enabled u))
    else (0xc1, u);
  uart_outb := fun p v u =>
    if p =? THR_REG then (if latch u then u else Sim (out u ++ [v]) 3 (inbox u) (latch u) (enabled u))
    else if p =? IER_REG then (if latch u then u else Sim (out u) (shifting u) (inbox u) (latch u) v)
    else if p =? LCR_REG then Sim (out u) (shifting u) (inbox u) (Z.testbit v 7) (enabled u) else u;
  next_interrupt := fun u => Sim (out u) 0 (inbox u) (latch u) (enabled u)
}.
#[export, refine] Instance sim_uart : Uart sim := {
  wire := out; rx := inbox; ready := fun u => Nat.eqb (shifting u) 0; busy := fun u => Nat.min (shifting u) 3; dlab := latch; ier := enabled; polls := 4
}.
Proof.
  - intros u. lia.
  - intros u v u' [= <- <-]. simpl. destruct (inbox u); simpl; (destruct (pred (Nat.min (shifting u) 3)) eqn:E; simpl; split_and!; try done; intros; rewrite ?Nat.eqb_eq in *; try lia).
  - intros u v u' [= <- <-]. done.
  - intros u v u' [= <- <-]. done.
  - intros u b Hl Hr. cbn. rewrite Hl. done.
  - intros u b Hl. cbn. by rewrite Hl.
  - intros u v. cbn. by destruct (latch u) eqn:E.
  - intros u p v [->| ->]; done.
  - done.
  - done.
Defined.

(** A byte by polling, then 65 bytes in queue mode with interrupts on (the
    last has to wait for room) and two with interrupts off, with a received
    byte and a key in between. *)
Definition session : list event :=
  [Send 1 72; Init_queue; Level true; Key 97; Irq; Read_key 1] ++ (Send 1 <$> seqZ 0 65) ++ [Level false; Send 1 200; Irq; Send 2 201; Level true; Irq].
Definition line : sim := Sim [] 0 [33] false 0.
Example session_queued :
  match run session (before_use line) with Ok (_, s) => (length (wire (uart s)), length (contents (q (txq s)))) = (5, 63)%nat | Err _ => False end.
Proof. vm_compute. reflexivity. Qed.
