(* ===== verification/Kbd.v ===== *)
(** * The keyboard (src/devices/kbd.c)

    keyboard_interrupt turns scancodes into characters and puts them in the
    input buffer of Serial.v.  [scan] are the bytes the controller has
    ready.  shutdown_reboot does not return: the handler's result tells
    whether it was called. *)

From Stdlib Require Import Ascii String.
From S2P Require Import Prelude Memory Wp Intq Serial SerialLaws.
#[local] Close Scope string_scope.
#[local] Open Scope list_scope.
#[local] Open Scope Z_scope.

(** The statics of the file. *)
Record kbd := Kbd {
  left_shift : bool;
  right_shift : bool;
  left_alt : bool;
  right_alt : bool;
  left_ctrl : bool;
  right_ctrl : bool;
  caps_lock : bool;
  key_cnt : Z
}.

(** struct keymap: the first scancode and the characters. *)
Definition keymap : Type := list (Z * list Z).
Definition chars (s : string) : list Z := (fun c => Z.of_N (N_of_ascii c)) <$> list_ascii_of_string s.

Definition invariant_keymap : keymap :=
  [(0x01, [27]); (0x0e, [8]); (0x0f, 9 :: chars "QWERTYUIOP"%string); (0x1c, [13]); (0x1e, chars "ASDFGHJKL"%string); (0x2c, chars "ZXCVBNM"%string);
   (0x37, chars "*"%string); (0x39, chars " "%string); (0x53, [127])].
Definition unshifted_keymap : keymap :=
  [(0x02, chars "1234567890-="%string); (0x1a, chars "[]"%string); (0x27, chars ";'`"%string); (0x2b, chars "\"%string); (0x33, chars ",./"%string)].
Definition shifted_keymap : keymap :=
  [(0x02, chars "!@#$%^&*()_+"%string); (0x1a, chars "{}"%string); (0x27, [58; 34; 126]); (0x2b, chars "|"%string); (0x33, chars "<>?"%string)].

Fixpoint map_key (k : keymap) (scancode : Z) : option Z :=
  match k with
  | [] => None
  | (first, cs) :: k' =>
      if (first <=? scancode) && (scancode <? first + Z.of_nat (length cs)) then cs !! Z.to_nat (scancode - first) else map_key k' scancode
  end.

Definition tolower (c : Z) : Z := if (65 <=? c) && (c <=? 90) then c - 65 + 97 else c.

(** The table of shift keys: what a press or release of [code] sets. *)
Definition set_shift (code : Z) (down : bool) (k : kbd) : kbd :=
  let '(Kbd ls rs la ra lc rc caps n) := k in
  if code =? 0x2a then Kbd down rs la ra lc rc caps n
  else if code =? 0x36 then Kbd ls down la ra lc rc caps n
  else if code =? 0x38 then Kbd ls rs down ra lc rc caps n
  else if code =? 0xe038 then Kbd ls rs la down lc rc caps n
  else if code =? 0x1d then Kbd ls rs la ra down rc caps n
  else if code =? 0xe01d then Kbd ls rs la ra lc down caps n
  else k.
Definition set_caps (b : bool) (k : kbd) : kbd :=
  Kbd (left_shift k) (right_shift k) (left_alt k) (right_alt k) (left_ctrl k) (right_ctrl k) b (key_cnt k).
Definition count_key (k : kbd) : kbd :=
  Kbd (left_shift k) (right_shift k) (left_alt k) (right_alt k) (left_ctrl k) (right_ctrl k) (caps_lock k) (key_cnt k + 1).

Inductive action := Nothing | Char (c : Z) | Reboot.

#[global] Instance action_eq_dec : EqDecision action.
Proof. solve_decision. Defined.

(** keyboard_interrupt after the scancode has been read. *)
Definition interpret (code : Z) (k : kbd) : kbd * action :=
  let shift := left_shift k || right_shift k in
  let alt := left_alt k || right_alt k in
  let ctrl := left_ctrl k || right_ctrl k in
  let release := negb (Z.land code 0x80 =? 0) in
  let code := Z.land code (Z.lnot 0x80) in
  if code =? 0x3a then (if release then k else set_caps (negb (caps_lock k)) k, Nothing)
  else
    match (match map_key invariant_keymap code with
           | Some c => Some c
           | None => if shift then map_key shifted_keymap code else map_key unshifted_keymap code
           end) with
    | Some c =>
        if release then (k, Nothing)
        else if (c =? 127) && ctrl && alt then (k, Reboot)
        else
          let c := if ctrl && (0x40 <=? c) && (c <? 0x60) then c - 0x40 else if Bool.eqb shift (caps_lock k) then tolower c else c in
          (k, Char (if alt then u8 (c + 0x80) else c))
    | None => (set_shift code (negb release) k, Nothing)
    end.

Section keyboard.
Context {H : Type} {ports : UartPorts H}.

Record console := Console { keys : kbd; scan : list Z; line : tty H }.

Definition on_line {A} (f : st (tty H) A) : st console A := fun s => r ← f (line s); Ok (r.1, Console (keys s) (scan s) r.2).
Definition set_keys (k : kbd) : st console unit := modify (fun s => Console k (scan s) (line s)).
(** inb (DATA_REG), when the controller has a byte. *)
Definition read_data : st console Z := fun s => match scan s with b :: l => Ok (b, Console (keys s) l (line s)) | [] => Err Fault end.

Definition keyboard_interrupt : st console bool :=
  code ← read_data;
  code ← (if code =? 0xe0 then b ← read_data; mret (Z.lor (Z.shiftl code 8) b) else mret code);
  k ← gets keys;
  let '(k', a) := interpret code k in
  set_keys k' ≫= fun _ =>
  match a with
  | Nothing => mret false
  | Reboot => mret true
  | Char c =>
      full ← on_line input_full;
      if full : bool then mret false
      else set_keys (count_key k') ≫= fun _ => on_line (input_putc c) ≫= fun _ => mret false
  end.

(** The interrupts for the bytes of [scan], each taken with interrupts on. *)
Fixpoint type_loop (fuel : nat) : st console bool :=
  l ← gets scan;
  match l, fuel with
  | [], _ => mret false
  | _, O => lift (Err Fuel)
  | _, S fuel' =>
      on_line (intr_set_level false) ≫= fun _ =>
      reboot ← keyboard_interrupt;
      on_line (intr_set_level true) ≫= fun _ =>
      if reboot : bool then mret true else type_loop fuel'
  end.
End keyboard.
Arguments console : clear implicits.

(** ** What a sequence of scancodes types *)

(** The handler on a sequence of one-byte scancodes, with room for every
    character; [None] if it reboots. *)
Fixpoint feed (l : list Z) (k : kbd) : option (kbd * list Z) :=
  match l with
  | [] => Some (k, [])
  | b :: l' =>
      let '(k', a) := interpret b k in
      match a with
      | Nothing => feed l' k'
      | Char c => '(k2, cs) ← feed l' (count_key k'); Some (k2, c :: cs)
      | Reboot => None
      end
  end.

(** No shift, Alt or Ctrl key is down. *)
Definition at_rest (caps : bool) (n : Z) : kbd := Kbd false false false false false false caps n.

(** The key for a character, alone or with the left Shift key. *)
Definition find_code (shift : bool) (c : Z) : option Z :=
  list.head (filter (fun code => (interpret code (Kbd shift false false false false false false 0)).2 = Char c) (seqZ 1 88)).
Definition keystrokes (c : Z) : list Z :=
  match find_code false c, find_code true c with
  | Some k, _ => [k; k + 0x80]
  | None, Some k => [0x2a; k; k + 0x80; 0x2a + 0x80]
  | None, None => []
  end.
Definition swap_case (c : Z) : Z := if (65 <=? c) && (c <=? 90) then c + 32 else if (97 <=? c) && (c <=? 122) then c - 32 else c.
(** The printable characters, Backspace, Tab, Enter, Escape and Delete. *)
Definition typable : list Z := [8; 9; 13; 27; 127] ++ seqZ 32 95.

Lemma keystrokes_feed caps n c : c ∈ typable -> feed (keystrokes c) (at_rest caps n) = Some (at_rest caps (n + 1), [if caps then swap_case c else c]).
Proof.
  intros Hc. assert (Forall (fun c => feed (keystrokes c) (at_rest caps n) = Some (at_rest caps (n + 1), [if caps then swap_case c else c])) typable) as Hall.
  { let l := eval vm_compute in typable in change typable with l. destruct caps; repeat (apply Forall_cons; [vm_compute; reflexivity|]); apply Forall_nil. }
  by apply (proj1 (list.Forall_forall _ _) Hall).
Qed.
Lemma keystrokes_plain c : c ∈ typable -> Forall (fun b => b <> 0xe0) (keystrokes c).
Proof.
  intros Hc. assert (forallb (fun c => forallb (fun b => negb (b =? 0xe0)) (keystrokes c)) typable = true) as Hall by (vm_compute; reflexivity).
  rewrite forallb_forall in Hall. specialize (Hall c ltac:(by apply list_elem_of_In)). rewrite forallb_forall in Hall. apply list.Forall_forall. intros b Hb. apply list_elem_of_In in Hb. specialize (Hall b Hb). lia.
Qed.
Lemma feed_app l l' k : feed (l ++ l') k = ('(k1, cs) ← feed l k; '(k2, cs') ← feed l' k1; Some (k2, cs ++ cs')).
Proof.
  revert k. induction l as [|b l IH]; intros k; cbn [feed app]; [cbn [mbind option_bind app]; by destruct (feed l' k) as [[]|]|]. destruct (interpret b k) as [k' []]; [by rewrite IH| |done].
  rewrite IH. destruct (feed l (count_key k')) as [[k1 cs]|]; [|done]. cbn. by destruct (feed l' k1) as [[]|].
Qed.
Lemma text_feed caps n text : Forall (fun c => c ∈ typable) text ->
  feed (mjoin (keystrokes <$> text)) (at_rest caps n) = Some (at_rest caps (n + Z.of_nat (length text)), (if caps then swap_case else id) <$> text).
Proof.
  intros Ht. revert n. induction Ht as [|c text Hc _ IH]; intros n; [cbn; by rewrite Z.add_0_r|]. cbn [fmap list_fmap mjoin list_join]. rewrite feed_app, keystrokes_feed by done. cbn [mbind option_bind].
  rewrite IH. cbn [mbind option_bind length]. replace (n + 1 + Z.of_nat (length text)) with (n + Z.of_nat (S (length text))) by lia. by destruct caps.
Qed.

(** ** The handler *)

Section laws.
Context {H : Type} {ports : UartPorts H} {port : Uart H}.
Implicit Types (s : console H).

Lemma wp_on_line {A} (f : st (tty H) A) (P : A -> tty H -> Prop) (Q : A -> console H -> Prop) s :
  wp f P (line s) -> (forall a x, P a x -> Q a (Console (keys s) (scan s) x)) -> wp (on_line f) Q s.
Proof. intros Hf HQ. unfold wp, on_line in *. destruct (f (line s)) as [[a x]|]; [|done]. by apply HQ. Qed.

(** One scancode: the keys change as [interpret] says, and its character is
    added to the buffer. *)
Lemma wp_scancode w b l k k' a x (Q : bool -> console H -> Prop) :
  b <> 0xe0 -> interpret b k = (k', a) -> a <> Reboot -> inv w x -> intr_on x = false -> (length (contents (q (buffer x))) < 63)%nat ->
  (forall x', inv w x' -> intr_on x' = false ->
     match a with Char c => contents (q (buffer x')) = contents (q (buffer x)) ++ [c] | _ => contents (q (buffer x')) = contents (q (buffer x)) end ->
     Q false (Console (match a with Char _ => count_key k' | _ => k' end) l x')) ->
  wp keyboard_interrupt Q (Console k (b :: l) x).
Proof.
  intros Hb Hk Ha Hi Hon Hroom HQ. unfold keyboard_interrupt. apply wp_bind. unfold wp at 1, read_data. cbn [scan]. rewrite (proj2 (Z.eqb_neq b 0xe0)) by done.
  apply wp_bind, wp_ret, wp_bind, wp_gets. cbn [keys]. rewrite Hk. apply wp_bind, wp_modify. cbn [keys scan line]. destruct a as [|c|]; [apply wp_ret; by apply HQ| |done].
  pose proof (contents_room 0 _ (proj1 (i_buffer _ _ Hi) 0) Hroom) as Hf. apply wp_bind. apply (wp_on_line _ (fun r x' => r = false /\ x' = x)); cbn [line].
  { apply wp_input_full; [done|]. by rewrite Hf. }
  intros r x' [-> ->]. apply wp_bind, wp_modify. cbn [keys scan line]. apply wp_bind.
  apply (wp_on_line _ (fun _ x' => inv w x' /\ intr_on x' = false /\ contents (q (buffer x')) = contents (q (buffer x)) ++ [c])); cbn [line].
  { apply wp_input_putc; [done|apply (i_buffer _ _ Hi)|done|]. intros y h Hy Hc Ew Ed _ Hier. cbn [with_uart with_buffer mode txq buffer uart]. split; [by apply (inv_input w y h _ x)|done]. }
  intros _ x' (Hi' & Hon' & Hc). apply wp_ret. by apply HQ.
Qed.

Lemma wp_type w l k k' cs x :
  Forall (fun b => b <> 0xe0) l -> feed l k = Some (k', cs) -> inv w x -> (length (contents (q (buffer x))) + length cs < 63)%nat -> intr_on x = true ->
  wp (type_loop (length l)) (fun r s' => r = false /\ keys s' = k' /\ inv w (line s') /\ contents (q (buffer (line s'))) = contents (q (buffer x)) ++ cs) (Console k l x).
Proof.
  intros Hl. revert k cs x. induction Hl as [|b l Hb _ IH]; intros k cs x Hf Hi Hroom Hon; cbn [feed] in Hf.
  - injection Hf as <- <-. cbn [length type_loop]. apply wp_bind, wp_gets, wp_ret. cbn. by rewrite app_nil_r.
  - cbn [length type_loop]. apply wp_bind, wp_gets. cbn [scan]. apply wp_bind, (wp_on_line _ (fun _ y => y = Tty (mode x) (txq x) (buffer x) false (uart x))); [done|]. intros _ y ->. cbn [keys scan line].
    destruct (interpret b k) as [k1 a] eqn:Ek. apply wp_bind. eapply (wp_scancode w b l k k1 a); [done|done|by destruct a|by apply inv_level|done|cbn [buffer]; lia|]. intros x' Hi' Hoff Hc. cbn [buffer] in Hc.
    apply wp_bind, (wp_on_line _ (fun _ y => y = Tty (mode x') (txq x') (buffer x') true (uart x'))); [done|]. intros _ y ->. cbn [keys scan line].
    destruct a as [|c|]; [| |done].
    + eapply wp_mono; [apply IH; [exact Hf|by apply inv_level|cbn [buffer]; by rewrite Hc|done]|]. intros r s' (-> & -> & Hi2 & Hc2). cbn [buffer] in Hc2. rewrite Hc in Hc2. done.
    + destruct (feed l (count_key k1)) as [[k2 cs']|] eqn:Ef; [|done]. cbn in Hf. injection Hf as <- <-. simpl in Hroom.
      eapply wp_mono; [apply IH; [exact Ef|by apply inv_level|cbn [buffer]; rewrite Hc, length_app; simpl; lia|done]|]. intros r s' (-> & -> & Hi2 & Hc2). cbn [buffer] in Hc2.
      rewrite Hc, <- app_assoc in Hc2. done.
Qed.
End laws.


Definition listening : tty sim := Tty POLL bss_queue bss_queue true (Sim [] 0 [] false 0).
(** Ctrl and Alt, and Ctrl+Alt+Delete. *)
Example control_keys : feed [0x1d; 0x2e; 0xae; 0x38; 0x1e; 0x9e; 0xb8; 0x9d] (at_rest false 0) = Some (at_rest false 2, [3; 0x81]).
Proof. reflexivity. Qed.
Example reboot_keys : feed [0x1d; 0x38; 0x53] (at_rest false 0) = None.
Proof. reflexivity. Qed.
