(* ===== verification/Vga.v ===== *)
(** * The text display (src/devices/vga.c)

    The framebuffer as its cells in memory order, [fb[y][x]] at index
    [80 y + x], a character and an attribute each; the two registers of the
    controller that hold the cursor.  Interrupts are off during a call, and
    the beep of the speaker does not touch the display. *)

From S2P Require Import Prelude Memory Wp.

Definition COL_CNT : Z := 80.
Definition ROW_CNT : Z := 25.
Definition GRAY_ON_BLACK : Z := 0x07.

Definition cell : Type := Z * Z.
Definition blank : cell := (32, GRAY_ON_BLACK).
Record vga := Vga { fb : list cell; cx : Z; cy : Z; inited : bool; crtc : Z -> Z }.

Definition set_fb (f : list cell) (s : vga) : vga := Vga f (cx s) (cy s) (inited s) (crtc s).
Definition set_pos (x y : Z) (s : vga) : vga := Vga (fb s) x y (inited s) (crtc s).
(** outw to port 0x3d4: the low byte selects a register, the high byte is
    stored in it. *)
Definition outw (v : Z) : st vga unit :=
  modify (fun s => Vga (fb s) (cx s) (cy s) (inited s) (fun r => if r =? v mod 256 then v / 256 mod 256 else crtc s r)).

Definition put_cell (y x : Z) (c : cell) : st vga unit := fun s => f ← zset (fb s) (COL_CNT * y + x) c; Ok (tt, set_fb f s).

Definition clear_row (y : Z) : st vga unit := fun s =>
  f ← for_range 80 0 (fun x f => zset f (COL_CNT * y + x) blank) (fb s); Ok (tt, set_fb f s).
Definition move_cursor : st vga unit := fun s =>
  let cp := u32 (cx s + COL_CNT * cy s) mod 2 ^ 16 in
  (outw (Z.lor 0x0e (Z.land cp 0xff00)) ≫= fun _ => outw (Z.lor 0x0f (Z.shiftl cp 8) mod 2 ^ 16)) s.
Definition find_cursor : st vga (Z * Z) := fun s =>
  let cp := Z.lor (Z.shiftl (crtc s 0x0e) 8 mod 2 ^ 16) (crtc s 0x0f) in Ok ((cp mod COL_CNT, cp / COL_CNT), s).

(** memmove of all rows but the first onto all rows but the last. *)
Definition scroll (f : list cell) : list cell := drop 80 f ++ drop (80 * 24) f.
Definition newline : st vga unit :=
  s ← gets id;
  if ROW_CNT <=? cy s + 1 then
    modify (set_pos 0 (ROW_CNT - 1)) ≫= fun _ => modify (fun s => set_fb (scroll (fb s)) s) ≫= fun _ => clear_row (ROW_CNT - 1)
  else modify (set_pos 0 (cy s + 1)).
Fixpoint cls_loop (n : nat) (y : Z) : st vga unit := match n with O => mret tt | S n' => clear_row y ≫= fun _ => cls_loop n' (y + 1) end.
Definition cls : st vga unit := cls_loop 25 0 ≫= fun _ => modify (set_pos 0 0) ≫= fun _ => move_cursor.
Definition init : st vga unit :=
  i ← gets inited;
  if i : bool then mret tt else '(x, y) ← find_cursor; modify (fun s => Vga (fb s) x y true (crtc s)).

Definition vga_putc (c : Z) : st vga unit :=
  init ≫= fun _ =>
  s ← gets id;
  (if c =? 10 then newline
   else if c =? 12 then cls
   else if c =? 8 then (if 0 <? cx s then modify (set_pos (cx s - 1) (cy s)) else mret tt)
   else if c =? 13 then modify (set_pos 0 (cy s))
   else if c =? 9 then
     let x := ROUND_UP (u32 (cx s + 1)) 8 in
     modify (set_pos x (cy s)) ≫= fun _ => if COL_CNT <=? x then newline else mret tt
   else if c =? 7 then mret tt
   else
     put_cell (cy s) (cx s) (u8 c, GRAY_ON_BLACK) ≫= fun _ =>
     modify (set_pos (cx s + 1) (cy s)) ≫= fun _ => if COL_CNT <=? cx s + 1 then newline else mret tt) ≫= fun _ =>
  move_cursor.
Fixpoint putc_all (l : list Z) : st vga unit := match l with [] => mret tt | c :: l' => vga_putc c ≫= fun _ => putc_all l' end.

(** ** A tape

    The terminal as an endless strip of cells in rows of eighty, of which
    the display shows the last twenty-five rows. *)

Record tape := Tape { cells : list cell; pos : Z }.
(** A position past the end starts a new row. *)
Definition goto (p : Z) (a : tape) : tape :=
  Tape (if p <? Z.of_nat (length (cells a)) then cells a else cells a ++ replicate 80 blank) p.
Definition write (c : Z) (a : tape) : tape :=
  if c =? 10 then goto ((pos a / 80 + 1) * 80) a
  else if c =? 12 then Tape (cells a ++ replicate 2000 blank) (Z.of_nat (length (cells a)))
  else if c =? 8 then (if pos a mod 80 =? 0 then a else goto (pos a - 1) a)
  else if c =? 13 then goto (pos a / 80 * 80) a
  else if c =? 9 then goto ((pos a / 8 + 1) * 8) a
  else if c =? 7 then a
  else goto (pos a + 1) (Tape (<[Z.to_nat (pos a) := (u8 c, GRAY_ON_BLACK)]> (cells a)) (pos a)).

(** The display shows the end of the tape. *)
Record shows (s : vga) (a : tape) : Prop := {
  s_fb : length (fb s) = 2000%nat;
  s_x : 0 <= cx s < 80;
  s_y : 0 <= cy s < 25;
  s_inited : inited s = true;
  s_cells : exists above, (80 | Z.of_nat (length above)) /\ cells a = above ++ fb s /\ pos a = Z.of_nat (length above) + 80 * cy s + cx s
}.
Definition cursor_at (s : vga) (p : Z) : Prop := crtc s 0x0e = p / 256 /\ crtc s 0x0f = p mod 256.

(** ** Rows *)

Lemma clear_from n (f : list cell) y x : 0 <= y -> 0 <= x -> 80 * y + x + Z.of_nat n <= Z.of_nat (length f) ->
  for_range n x (fun x f => zset f (COL_CNT * y + x) blank) f = Ok (splice f (Z.to_nat (80 * y + x)) (replicate n blank)).
Proof.
  unfold COL_CNT. revert f x. induction n as [|n IH]; intros f x Hy Hx Hl; cbn [for_range replicate]; [by rewrite splice_nil|].
  rewrite zset_Ok by lia. cbn [mbind outcome_bind]. rewrite IH by (rewrite ?length_insert; lia).
  replace (Z.to_nat (80 * y + (x + 1))) with (S (Z.to_nat (80 * y + x))) by lia. rewrite splice_cons by (rewrite length_replicate; lia). done.
Qed.
Lemma clear_row_fb y s : 0 <= y < 25 -> length (fb s) = 2000%nat -> clear_row y s = Ok (tt, set_fb (splice (fb s) (Z.to_nat (80 * y)) (replicate 80 blank)) s).
Proof. intros Hy Hl. unfold clear_row. rewrite clear_from by lia. by rewrite Z.add_0_r. Qed.
Lemma splice_row_length (f : list cell) y : 0 <= y < 25 -> length f = 2000%nat -> length (splice f (Z.to_nat (80 * y)) (replicate 80 blank)) = 2000%nat.
Proof. intros. rewrite length_splice; rewrite ?length_replicate; lia. Qed.

Lemma wp_newline (Q : unit -> vga -> Prop) s a above :
  length (fb s) = 2000%nat -> 0 <= cy s < 25 -> inited s = true -> (80 | Z.of_nat (length above)) -> cells a = above ++ fb s ->
  (forall s', shows s' (goto (Z.of_nat (length above) + 80 * (cy s + 1)) a) -> Q tt s') -> wp newline Q s.
Proof.
  intros Hl Hy Hi Hd Hc HQ. unfold newline, ROW_CNT. apply wp_bind, wp_gets. cbn [id]. unfold goto in HQ. rewrite Hc, length_app, Hl in HQ. destruct (Z.leb_spec 25 (cy s + 1)) as [H1|H1].
  - apply wp_bind, wp_modify, wp_bind, wp_modify. unfold wp. rewrite clear_row_fb by (cbn [fb set_fb set_pos]; unfold scroll; rewrite ?length_app, ?length_drop; lia).
    apply HQ. destruct (Z.ltb_spec (Z.of_nat (length above) + 80 * (cy s + 1)) (Z.of_nat (length above + 2000))) as [?|_]; [lia|].
    assert (splice (scroll (fb s)) (Z.to_nat (80 * (25 - 1))) (replicate 80 blank) = drop 80 (fb s) ++ replicate 80 blank) as E.
    { unfold splice, scroll. rewrite length_replicate. change (Z.to_nat (80 * (25 - 1))) with (1920)%nat. rewrite take_app_length' by (rewrite length_drop; lia).
      rewrite (drop_ge (drop 80 (fb s) ++ _)) by (rewrite length_app, !length_drop; lia). by rewrite app_nil_r. }
    cbn [fb set_fb set_pos cx cy inited]. rewrite E. split; cbn [fb set_fb set_pos cx cy inited]; [rewrite length_app, length_drop, length_replicate; lia|lia|lia|done|].
    exists (above ++ take 80 (fb s)). cbn [cells pos]. rewrite length_app, length_take, Hl. split_and!.
    + destruct Hd as [k Hd]. exists (k + 1). lia.
    + rewrite <- !app_assoc. f_equal. rewrite app_assoc, take_drop. done.
    + lia.
  - apply wp_modify, HQ. destruct (Z.ltb_spec (Z.of_nat (length above) + 80 * (cy s + 1)) (Z.of_nat (length above + 2000))) as [_|?]; [|lia].
    split; cbn [fb set_fb set_pos cx cy inited]; [done|lia|lia|done|]. exists above. cbn [cells pos]. split_and!; [done|done|lia].
Qed.

(** cls clears row after row. *)
Lemma cls_loop_fb n y s : 0 <= y -> y + Z.of_nat n = 25 -> length (fb s) = 2000%nat -> take (Z.to_nat (80 * y)) (fb s) = replicate (Z.to_nat (80 * y)) blank ->
  cls_loop n y s = Ok (tt, set_fb (replicate 2000 blank) s).
Proof.
  revert y s. induction n as [|n IH]; intros y s Hy Hn Hl Ht; cbn [cls_loop].
  - assert (y = 25) as -> by lia. change (Z.to_nat (80 * 25)) with 2000%nat in Ht. rewrite take_ge in Ht by lia. destruct s. cbn in *. by subst.
  - unfold mbind, st_bind. rewrite clear_row_fb by lia. rewrite (IH (y + 1)); [done|lia|lia|cbn [fb set_fb]; apply splice_row_length; lia|]. cbn [fb set_fb]. unfold splice. rewrite Ht, length_replicate.
    replace (Z.to_nat (80 * (y + 1))) with (Z.to_nat (80 * y) + 80)%nat by lia. rewrite app_assoc, replicate_add. rewrite take_app_length' by (rewrite length_app, !length_replicate; lia). done.
Qed.

(** ** The cursor *)

Definition cursor_words (p : Z) : bool :=
  let e := Z.lor 0x0e (Z.land p 0xff00) in let f := Z.lor 0x0f (Z.shiftl p 8) mod 2 ^ 16 in
  (e mod 256 =? 0x0e) && (e / 256 mod 256 =? p / 256) && (f mod 256 =? 0x0f) && (f / 256 mod 256 =? p mod 256) && (Z.lor (Z.shiftl (p / 256) 8 mod 2 ^ 16) (p mod 256) =? p).
Lemma cursor_words_ok p : 0 <= p < 2000 -> cursor_words p = true.
Proof.
  intros Hp. assert (forallb cursor_words (seqZ 0 2000) = true) as Hall by (vm_compute; reflexivity).
  rewrite forallb_forall in Hall. apply Hall, list_elem_of_In, elem_of_seqZ. lia.
Qed.
Lemma wp_move_cursor a s (Q : unit -> vga -> Prop) : shows s a -> (forall s', shows s' a -> cursor_at s' (80 * cy s' + cx s') -> fb s' = fb s -> Q tt s') -> wp move_cursor Q s.
Proof.
  intros Hs HQ. pose proof Hs as [Hl Hx Hy Hi Hc]. unfold move_cursor, wp, COL_CNT. rewrite u32_small by lia. rewrite (Z.mod_small (_ + _)) by lia.
  pose proof (cursor_words_ok (cx s + 80 * cy s) ltac:(lia)) as Hw. unfold cursor_words in Hw. rewrite !andb_true_iff, !Z.eqb_eq in Hw. destruct Hw as [[[[H1 H2] H3] H4] _].
  cbn -[Z.lor Z.land Z.shiftl Z.modulo Z.div Z.mul Z.pow]. apply HQ; [by split|split|done]; cbn [crtc cx cy].
  - rewrite H3, H1. change (14 =? 15) with false. change (14 =? 14) with true. rewrite H2. f_equal. lia.
  - rewrite H3, Z.eqb_refl, H4. f_equal. lia.
Qed.

(** ** Every character *)

Lemma shows_goto s a p : shows s a -> cells (goto p a) = cells a -> pos a - cx s <= p < pos a - cx s + 80 ->
  shows (set_pos (p - (pos a - cx s)) (cy s) s) (goto p a).
Proof.
  intros [Hl Hx Hy Hi (above & Hd & Hc & Hp)] E Hr. split; cbn [fb set_pos cx cy inited]; try done; try lia. exists above. rewrite E. cbn [pos goto]. split_and!; [done|done|lia].
Qed.
Lemma goto_inside s a p : shows s a -> p < pos a - cx s + 80 -> cells (goto p a) = cells a.
Proof.
  intros [Hl Hx Hy Hi (above & Hd & Hc & Hp)] Hr. unfold goto. cbn [cells]. rewrite Hc, length_app, Hl. destruct (Z.ltb_spec p (Z.of_nat (length above + 2000))); [done|lia].
Qed.
Lemma pos_row s a : shows s a -> exists k, pos a = 80 * k + cx s.
Proof. intros [_ _ _ _ (above & [k Hd] & _ & Hp)]. exists (k + cy s). lia. Qed.

Lemma wp_next_row s s0 a (Q : unit -> vga -> Prop) : shows s a -> fb s0 = fb s -> cy s0 = cy s -> inited s0 = true ->
  (forall s', shows s' (goto (pos a - cx s + 80) a) -> Q tt s') -> wp newline Q s0.
Proof.
  intros [Hl Hx Hy Hi (above & Hd & Hc & Hp)] Ef Ey Ei HQ. apply (wp_newline _ _ a above); rewrite ?Ef, ?Ey; try done.
  intros s' Hs'. apply HQ. replace (pos a - cx s + 80) with (Z.of_nat (length above) + 80 * (cy s + 1)) by lia. done.
Qed.

Lemma shows_put s a c : shows s a -> 0 <= pos a /\
  wp (put_cell (cy s) (cx s) c) (fun _ s' => shows s' (Tape (<[Z.to_nat (pos a) := c]> (cells a)) (pos a)) /\ cx s' = cx s /\ cy s' = cy s) s.
Proof.
  intros [Hl Hx Hy Hi (above & Hd & Hc & Hp)]. split; [lia|]. unfold wp, put_cell, COL_CNT. rewrite zset_Ok by lia. cbn. split; [|done].
  split; cbn [fb set_fb cx cy inited]; rewrite ?length_insert; try done; try lia. exists above. cbn [cells pos]. split; [done|]. split; [|done].
  rewrite Hc, Hp. rewrite insert_app_r_alt by lia. do 2 f_equal. lia.
Qed.

Lemma wp_character c s a (Q : unit -> vga -> Prop) : shows s a -> c <> 10 -> c <> 12 -> c <> 8 -> c <> 13 -> c <> 9 -> c <> 7 ->
  (forall s', shows s' (write c a) -> Q tt s') ->
  wp (put_cell (cy s) (cx s) (u8 c, GRAY_ON_BLACK) ≫= fun _ => modify (set_pos (cx s + 1) (cy s)) ≫= fun _ => if COL_CNT <=? cx s + 1 then newline else mret tt) Q s.
Proof.
  intros Hs H10 H12 H8 H13 H9 H7 HQ. unfold write in HQ. rewrite !(proj2 (Z.eqb_neq c _)) in HQ by done.
  destruct (shows_put s a (u8 c, GRAY_ON_BLACK) Hs) as [Hpos Hwp]. set (a' := Tape (<[Z.to_nat (pos a) := (u8 c, GRAY_ON_BLACK)]> (cells a)) (pos a)) in *.
  apply wp_bind. eapply wp_mono; [exact Hwp|]. intros [] s1 (Hs1 & Ex & Ey). apply wp_bind, wp_modify. pose proof (s_x _ _ Hs1) as Hx. unfold COL_CNT. destruct (Z.leb_spec 80 (cx s + 1)) as [Hle|Hlt].
  - apply (wp_next_row s1 _ a'); [done|done|cbn [cy set_pos]; lia|apply (s_inited _ _ Hs1)|]. intros s' Hs'. apply HQ. replace (pos a + 1) with (pos a' - cx s1 + 80) by (cbn [pos a']; lia). done.
  - apply wp_ret, HQ. pose proof (goto_inside s1 a' (pos a + 1) Hs1 ltac:(cbn [pos a']; lia)) as E. pose proof (shows_goto s1 a' (pos a + 1) Hs1 E ltac:(cbn [pos a']; lia)) as Hg.
    replace (pos a + 1 - (pos a' - cx s1)) with (cx s + 1) in Hg by (cbn [pos a']; lia). by rewrite Ey in Hg.
Qed.

Lemma wp_tab s a (Q : unit -> vga -> Prop) : shows s a -> (forall s', shows s' (goto ((pos a / 8 + 1) * 8) a) -> Q tt s') ->
  wp (modify (set_pos (ROUND_UP (u32 (cx s + 1)) 8) (cy s)) ≫= fun _ => if COL_CNT <=? ROUND_UP (u32 (cx s + 1)) 8 then newline else mret tt) Q s.
Proof.
  intros Hs HQ. pose proof (s_x _ _ Hs) as Hx. destruct (pos_row s a Hs) as [k Hk].
  assert (ROUND_UP (u32 (cx s + 1)) 8 = (cx s / 8 + 1) * 8) as ->.
  { unfold ROUND_UP. rewrite (u32_small (cx s + 1)), (u32_small (cx s + 1 + 8 - 1)) by lia. rewrite u32_small by dlia. dlia. }
  assert ((pos a / 8 + 1) * 8 = pos a - cx s + (cx s / 8 + 1) * 8) as Ep by dlia.
  apply wp_bind, wp_modify. unfold COL_CNT. destruct (Z.leb_spec 80 ((cx s / 8 + 1) * 8)) as [Hle|Hlt].
  - apply (wp_next_row s _ a); [done|done|done|apply (s_inited _ _ Hs)|]. intros s' Hs'. apply HQ. rewrite Ep. replace ((cx s / 8 + 1) * 8) with 80 by dlia. done.
  - apply wp_ret, HQ. pose proof (goto_inside s a ((pos a / 8 + 1) * 8) Hs ltac:(lia)) as E. pose proof (shows_goto s a _ Hs E ltac:(dlia)) as Hg.
    replace ((pos a / 8 + 1) * 8 - (pos a - cx s)) with ((cx s / 8 + 1) * 8) in Hg by lia. done.
Qed.

Lemma wp_cls s a (Q : unit -> vga -> Prop) : shows s a -> (forall s', shows s' (Tape (cells a ++ replicate 2000 blank) (Z.of_nat (length (cells a)))) -> Q tt s') -> wp cls Q s.
Proof.
  intros [Hl Hx Hy Hi (above & [k Hd] & Hc & Hp)] HQ. apply wp_bind. unfold wp at 1. rewrite (cls_loop_fb 25 0) by done. apply wp_bind, wp_modify.
  apply (wp_move_cursor (Tape (cells a ++ replicate 2000 blank) (Z.of_nat (length (cells a))))); [|intros s' Hs' _ _; by apply HQ].
  split; cbn [fb set_fb set_pos cx cy inited]; [by rewrite length_replicate|lia|lia|done|]. exists (cells a). cbn [cells pos]. rewrite Hc at 1. rewrite length_app, Hl. split_and!; [exists (k + 25); lia|done|lia].
Qed.

Lemma wp_vga_putc c s a : shows s a -> wp (vga_putc c) (fun _ s' => shows s' (write c a) /\ cursor_at s' (80 * cy s' + cx s')) s.
Proof.
  intros Hs. apply wp_bind. unfold init. apply wp_bind, wp_gets. rewrite (s_inited _ _ Hs). apply wp_ret, wp_bind, wp_gets. cbn [id].
  pose proof (s_x _ _ Hs) as Hx. destruct (pos_row s a Hs) as [k Hk]. apply wp_bind.
  assert (forall s', shows s' (write c a) -> wp move_cursor (fun _ s' => shows s' (write c a) /\ cursor_at s' (80 * cy s' + cx s')) s') as Hmove.
  { intros s' Hs'. apply (wp_move_cursor (write c a)); [done|]. intros s2 Hs2 Hcur _. done. }
  destruct (Z.eqb_spec c 10) as [->|H10]. { apply (wp_next_row s s a); try done; [apply (s_inited _ _ Hs)|]. intros s' Hs'. apply Hmove. cbn [write Z.eqb Pos.eqb]. replace ((pos a / 80 + 1) * 80) with (pos a - cx s + 80) by dlia. done. }
  destruct (Z.eqb_spec c 12) as [->|H12]. { by apply (wp_cls s a). }
  destruct (Z.eqb_spec c 8) as [->|H8].
  { cbn [write Z.eqb Pos.eqb] in Hmove. destruct (Z.ltb_spec 0 (cx s)) as [Hpos|Hzero].
    - assert ((pos a mod 80 =? 0) = false) as E0 by (apply Z.eqb_neq; dlia). cbn [write Z.eqb Pos.eqb]. rewrite E0 in *. apply wp_modify, Hmove.
      pose proof (goto_inside s a (pos a - 1) Hs ltac:(lia)) as E. pose proof (shows_goto s a _ Hs E ltac:(lia)) as Hg. replace (pos a - 1 - (pos a - cx s)) with (cx s - 1) in Hg by lia. done.
    - assert ((pos a mod 80 =? 0) = true) as E0 by (apply Z.eqb_eq; dlia). cbn [write Z.eqb Pos.eqb]. rewrite E0 in *. by apply wp_ret, Hmove. }
  destruct (Z.eqb_spec c 13) as [->|H13].
  { apply wp_modify, Hmove. cbn [write Z.eqb Pos.eqb]. replace (pos a / 80 * 80) with (pos a - cx s) by dlia. pose proof (goto_inside s a (pos a - cx s) Hs ltac:(lia)) as E.
    pose proof (shows_goto s a _ Hs E ltac:(lia)) as Hg. by rewrite Z.sub_diag in Hg. }
  destruct (Z.eqb_spec c 9) as [->|H9]. { by apply (wp_tab s a). }
  destruct (Z.eqb_spec c 7) as [->|H7]. { by apply wp_ret, Hmove. }
  by apply (wp_character c s a).
Qed.

(** ** Claim *)

Definition write_all (l : list Z) (a : tape) : tape := fold_left (fun a c => write c a) l a.
(** The display as the loader leaves it, the cursor at [p]. *)
Definition powered_on (f : list cell) (p : Z) : vga := Vga f 0 0 false (fun r => if r =? 0x0e then p / 256 else if r =? 0x0f then p mod 256 else 0).

(** C27: The display is the end of a tape.  Whatever bytes are printed, from
    a cursor on the screen, vga_putc never writes outside the framebuffer,
    and the framebuffer holds the last twenty-five rows of the tape on which
    the bytes are written one after the other, with the hardware cursor at
    the tape's position. *)
Theorem vga_shows_tape (f : list cell) (p : Z) (c : Z) (l : list Z) :
  length f = 2000%nat -> 0 <= p < 2000 ->
  exists s, putc_all (c :: l) (powered_on f p) = Ok (tt, s) /\ 
    let a := write_all (c :: l) (Tape f p) in
    fb s = drop (length (cells a) - 2000) (cells a) /\ cursor_at s (pos a - (Z.of_nat (length (cells a)) - 2000)) /\ 0 <= cx s < 80 /\ 0 <= cy s < 25.
Proof.
  intros Hf Hp.
  assert (forall l s a, shows s a -> cursor_at s (80 * cy s + cx s) -> wp (putc_all l) (fun _ s' => shows s' (write_all l a) /\ cursor_at s' (80 * cy s' + cx s')) s) as Hall.
  { clear. induction l as [|c l IH]; intros s a Hs Hc; [by apply wp_ret|]. cbn [putc_all]. apply wp_bind. eapply wp_mono; [by apply (wp_vga_putc c s a)|]. intros [] s' [Hs' Hc']. by apply IH. }
  set (s0 := Vga f (p mod 80) (p / 80) true (crtc (powered_on f p))). assert (shows s0 (Tape f p)) as Hs0.
  { split; cbn [fb cx cy inited s0]; try done; try dlia. exists []. cbn [cells pos length]. split; [exists 0; done|]. split; [done|dlia]. }
  assert (init (powered_on f p) = Ok (tt, s0)) as Ei.
  { pose proof (cursor_words_ok p Hp) as Hw. unfold cursor_words in Hw. rewrite !andb_true_iff, !Z.eqb_eq in Hw. destruct Hw as [_ E].
    change (init (powered_on f p)) with (let cp := Z.lor (Z.shiftl (p / 256) 8 mod 2 ^ 16) (p mod 256) in Ok (tt, Vga f (cp mod 80) (cp / 80) true (crtc (powered_on f p)))).
    cbv zeta. by rewrite E. }
  assert (vga_putc c (powered_on f p) = vga_putc c s0) as E0 by (unfold vga_putc; unfold mbind at 1 11, st_bind at 1 11; rewrite Ei; reflexivity).
  pose proof (wp_vga_putc c s0 _ Hs0) as Hwp. apply wp_unit_Ok in Hwp as (s1 & E1 & Hs1 & Hc1). pose proof (Hall l s1 _ Hs1 Hc1) as Hwp. apply wp_unit_Ok in Hwp as (s & E2 & Hs & Hc2).
  exists s. split; [cbn [putc_all]; unfold mbind, st_bind; by rewrite E0, E1|]. cbv zeta. change (write_all (c :: l) (Tape f p)) with (write_all l (write c (Tape f p))).
  destruct Hs as [Hl Hx Hy Hi (above & Hd & Hc & Hpos)]. rewrite Hc, Hpos, length_app, Hl. split_and!; try lia.
  2:{ replace (Z.of_nat (length above) + 80 * cy s + cx s - (Z.of_nat (length above + 2000) - 2000)) with (80 * cy s + cx s) by lia. done. }
  replace (length above + 2000 - 2000)%nat with (length above) by lia. by rewrite drop_app_length.
Qed.

(** Twenty-six lines from the top of a cleared screen: the first has scrolled
    away and the cursor is on the last row. *)
Lemma vga_shows_tape_witness : 
  let l := mjoin (replicate 26 [65; 66; 9; 67; 8; 68; 10]) ++ [69; 7; 13; 70] in let f := replicate 2000 (0, 0) in
  exists s, putc_all (12 :: l) (powered_on f 100) = Ok (tt, s) /\
    let a := write_all (12 :: l) (Tape f 100) in
    fb s = drop (length (cells a) - 2000) (cells a) /\ cursor_at s (pos a - (Z.of_nat (length (cells a)) - 2000)) /\ 0 <= cx s < 80 /\ 0 <= cy s < 25.
Proof. apply (vga_shows_tape (replicate 2000 (0, 0)) 100 12); [apply length_replicate|lia]. Defined.
Example twenty_six_lines :
  match putc_all (12 :: mjoin (replicate 26 [65; 66; 9; 67; 8; 68; 10])) (powered_on (replicate 2000 (0, 0)) 100) with
  | Ok (_, s) => cy s = 24 /\ cx s = 0 /\ fst <$> take 10 (fb s) = [65; 66; 32; 32; 32; 32; 32; 32; 68; 32]
  | Err _ => False
  end.
Proof. vm_compute. done. Qed.
