(* ===== verification/Console.v ===== *)
(** * The console (src/lib/kernel/console.c)

    Output to the serial port of Serial.v and the display of Vga.v under the
    console lock, with its depth for recursive use.  The functions are those
    of the thread [t]; a call that finds the lock with another thread waits,
    which is the outcome [Err Fuel] of [lock_acquire] here. *)

From S2P Require Import Prelude Memory Wp Printf Intq Serial SerialLaws Vga.

Section console.
Context {H : Type} {ports : UartPorts H} (n : nat).

(** console_lock by its holder, console_lock_depth, use_console_lock,
    write_cnt, whether an external interrupt is being handled, and the
    devices. *)
Record con := Con { holder : option Z; depth : Z; use_lock : bool; write_cnt : Z; in_intr : bool; serial : tty H; screen : vga }.

Definition set_lock (h : option Z) (d : Z) : st con unit := modify (fun s => Con h d (use_lock s) (write_cnt s) (in_intr s) (serial s) (screen s)).
Definition on_serial (f : st (tty H) unit) : st con unit := fun s =>
  r ← f (serial s); Ok (tt, Con (holder s) (depth s) (use_lock s) (write_cnt s) (in_intr s) r.2 (screen s)).
Definition on_screen (f : st vga unit) : st con unit := fun s =>
  r ← f (screen s); Ok (tt, Con (holder s) (depth s) (use_lock s) (write_cnt s) (in_intr s) (serial s) r.2).

Definition console_init : st con unit := modify (fun s => Con None (depth s) true (write_cnt s) (in_intr s) (serial s) (screen s)).
Definition console_panic : st con unit := modify (fun s => Con (holder s) (depth s) false (write_cnt s) (in_intr s) (serial s) (screen s)).

Definition held_by (t : Z) (s : con) : bool := bool_decide (holder s = Some t).
Definition lock_acquire (t : Z) : st con unit :=
  s ← gets id; match holder s with None => set_lock (Some t) (depth s) | Some _ => lift (Err Fuel) end.
Definition lock_release (t : Z) : st con unit :=
  s ← gets id; kassert_st (held_by t s) ≫= fun _ => set_lock None (depth s).

Definition acquire_console (t : Z) : st con unit :=
  s ← gets id;
  if negb (in_intr s) && use_lock s then
    if held_by t s then set_lock (holder s) (depth s + 1) else lock_acquire t
  else mret tt.
Definition release_console (t : Z) : st con unit :=
  s ← gets id;
  if negb (in_intr s) && use_lock s then
    if 0 <? depth s then set_lock (holder s) (depth s - 1) else lock_release t
  else mret tt.
Definition console_locked_by_current_thread (t : Z) (s : con) : bool := in_intr s || negb (use_lock s) || held_by t s.

Definition putchar_have_lock (t c : Z) : st con unit :=
  s ← gets id; kassert_st (console_locked_by_current_thread t s) ≫= fun _ =>
  modify (fun s => Con (holder s) (depth s) (use_lock s) (write_cnt s + 1) (in_intr s) (serial s) (screen s)) ≫= fun _ =>
  on_serial (serial_putc n t (u8 c)) ≫= fun _ => on_screen (vga_putc (u8 c)).
Fixpoint put_all (t : Z) (l : list Z) : st con unit := match l with [] => mret tt | c :: l' => putchar_have_lock t c ≫= fun _ => put_all t l' end.

(** The buffer and the string as their bytes. *)
Definition putbuf (t : Z) (buffer : list Z) : st con unit := acquire_console t ≫= fun _ => put_all t buffer ≫= fun _ => release_console t.
Definition puts (t : Z) (s : list Z) : st con Z :=
  acquire_console t ≫= fun _ => put_all t s ≫= fun _ => putchar_have_lock t 10 ≫= fun _ => release_console t ≫= fun _ => mret 0.
Definition putchar (t c : Z) : st con Z := acquire_console t ≫= fun _ => putchar_have_lock t c ≫= fun _ => release_console t ≫= fun _ => mret c.
(** vprintf: vprintf_helper counts and puts each character of __vprintf. *)
Definition vprintf (t : Z) (m : mem) (format : Z) (args : list Z) : st con Z :=
  acquire_console t ≫= fun _ =>
  l ← lift (vprintf_chars m format args);
  put_all t l ≫= fun _ => release_console t ≫= fun _ => mret (Z.of_nat (length l)).
End console.
Arguments con : clear implicits.

(** ** Output reaches both devices *)

Section laws.
Context {H : Type} {ports : UartPorts H} {port : Uart H}.
Implicit Types (s : con H).

(** The state after [l] has been printed, from serial output [w] and tape
    [a]. *)
Record printed (l w : list Z) (a : tape) (s s' : con H) : Prop := {
  p_lock : holder s' = holder s /\ depth s' = depth s /\ use_lock s' = use_lock s /\ in_intr s' = in_intr s;
  p_count : write_cnt s' = write_cnt s + Z.of_nat (length l);
  p_serial : inv (w ++ l) (serial s');
  p_screen : shows (screen s') (write_all l a)
}.

Lemma wp_putchar_have_lock t c w a s (Q : unit -> con H -> Prop) :
  console_locked_by_current_thread t s = true -> is_byte c -> inv w (serial s) -> shows (screen s) a ->
  (forall s', printed [c] w a s s' -> Q tt s') -> wp (putchar_have_lock polls t c) Q s.
Proof.
  intros Hl Hc Hi Hs HQ. apply wp_bind, wp_gets, wp_bind, wp_assert; [done|]. apply wp_bind, wp_modify, wp_bind. rewrite u8_small by (unfold is_byte in Hc; lia).
  pose proof (wp_serial_putc t c w _ Hi Hc) as Hwp. apply wp_unit_Ok in Hwp as (x & Ex & Hx & _). unfold wp, on_serial. cbn [serial]. rewrite Ex.
  pose proof (wp_vga_putc c _ a Hs) as Hwp. apply wp_unit_Ok in Hwp as (v & Ev & Hv & _). cbv [mbind outcome_bind]. unfold on_screen. cbn [screen snd]. rewrite Ev. apply HQ. by split.
Qed.

Lemma wp_put_all t l w a s (Q : unit -> con H -> Prop) :
  console_locked_by_current_thread t s = true -> Forall is_byte l -> inv w (serial s) -> shows (screen s) a ->
  (forall s', printed l w a s s' -> Q tt s') -> wp (put_all polls t l) Q s.
Proof.
  intros Hl Hb. revert w a s Hl. induction Hb as [|c l Hc _ IH]; intros w a s Hl Hi Hs HQ.
  - apply wp_ret, HQ. split; [done|simpl; lia|by rewrite app_nil_r|done].
  - cbn [put_all]. apply wp_bind, (wp_putchar_have_lock t c w a); [done..|]. intros s1 [(E1 & E2 & E3 & E4) Ec Hi1 Hs1].
    apply (IH (w ++ [c]) (write_all [c] a)); [|done|done|].
    + unfold console_locked_by_current_thread, held_by in *. by rewrite E1, E3, E4.
    + intros s2 [(F1 & F2 & F3 & F4) Fc Hi2 Hs2]. apply HQ. split; [by rewrite F1, F2, F3, F4|rewrite Fc, Ec; simpl length; lia|by rewrite <- app_assoc in Hi2|done].
Qed.

(** The lock is free, or the thread has it. *)
Definition may_print (t : Z) (s : con H) : Prop := (holder s = None /\ depth s = 0) \/ (holder s = Some t /\ 0 <= depth s).

Lemma wp_with_lock {A} t (f : st (con H) A) s (P : A -> con H -> Prop) :
  may_print t s ->
  (forall s1, console_locked_by_current_thread t s1 = true -> serial s1 = serial s -> screen s1 = screen s -> write_cnt s1 = write_cnt s ->
     wp f (fun r s2 => (holder s2 = holder s1 /\ depth s2 = depth s1 /\ use_lock s2 = use_lock s1 /\ in_intr s2 = in_intr s1) /\
       P r (Con (holder s) (depth s) (use_lock s) (write_cnt s2) (in_intr s) (serial s2) (screen s2))) s1) ->
  wp (acquire_console t ≫= fun _ => r ← f; release_console t ≫= fun _ => mret r) P s.
Proof.
  intros Hm Hf. apply wp_bind. unfold acquire_console. apply wp_bind, wp_gets. cbn [id]. destruct (negb (in_intr s) && use_lock s) eqn:Eu.
  - unfold held_by. destruct Hm as [[Hh Hd]|[Hh Hd]]; rewrite Hh.
    + rewrite bool_decide_eq_false_2 by done. unfold lock_acquire. apply wp_bind, wp_gets. cbn [id]. rewrite Hh. apply wp_modify. apply wp_bind. eapply wp_mono; [apply Hf; try done|].
      { unfold console_locked_by_current_thread, held_by. cbn. rewrite bool_decide_eq_true_2 by done. by rewrite orb_true_r. }
      intros r s2 [(E1 & E2 & E3 & E4) HP]. cbn in E1, E2, E3, E4. apply wp_bind. unfold release_console. apply wp_bind, wp_gets. cbn [id]. rewrite E2, E3, E4, Eu, Hd. cbn [Z.ltb Z.compare].
      unfold lock_release. apply wp_bind, wp_gets, wp_bind, wp_assert; [unfold held_by; cbn [id]; rewrite E1; by apply bool_decide_eq_true_2|]. apply wp_modify, wp_ret. cbn [id]. rewrite E2, E3, E4, <- Hh. exact HP.
    + rewrite bool_decide_eq_true_2 by done. apply wp_modify, wp_bind. eapply wp_mono; [apply Hf; try done|].
      { unfold console_locked_by_current_thread, held_by. cbn. rewrite bool_decide_eq_true_2 by done. by rewrite orb_true_r. }
      intros r s2 [(E1 & E2 & E3 & E4) HP]. cbn in E1, E2, E3, E4. apply wp_bind. unfold release_console. apply wp_bind, wp_gets. cbn [id]. rewrite E2, E3, E4, Eu.
      destruct (Z.ltb_spec 0 (depth s + 1)); [|lia]. apply wp_modify, wp_ret. rewrite E1, E3, E4. replace (depth s + 1 - 1) with (depth s) by lia. rewrite Hh in HP. exact HP.
  - apply wp_ret, wp_bind. eapply wp_mono; [apply Hf; try done|].
    { unfold console_locked_by_current_thread. destruct (in_intr s), (use_lock s); done. }
    intros r s2 [(E1 & E2 & E3 & E4) HP]. apply wp_bind. unfold release_console. apply wp_bind, wp_gets. cbn [id]. rewrite E3, E4, Eu. apply wp_ret, wp_ret. destruct s2. cbn in *. subst. exact HP.
Qed.

(** ** The output functions *)

Inductive op := Putbuf (l : list Z) | Puts (l : list Z) | Putchar (c : Z) | Print (m : mem) (format : Z) (args : list Z).
Definition chars (o : op) : outcome (list Z) :=
  match o with Putbuf l => Ok l | Puts l => Ok (l ++ [10]) | Putchar c => Ok [c] | Print m format args => vprintf_chars m format args end.
(** A call and its result, if it has one. *)
Definition call (t : Z) (o : op) : st (con H) Z :=
  match o with
  | Putbuf l => putbuf polls t l ≫= fun _ => mret 0
  | Puts l => puts polls t l
  | Putchar c => putchar polls t c
  | Print m format args => vprintf polls t m format args
  end.

Lemma wp_print_unlock {A} t (m : st (con H) unit) (r : A) (P : A -> con H -> Prop) s :
  wp (acquire_console t ≫= fun _ => x ← (m ≫= fun _ => mret r); release_console t ≫= fun _ => mret x) P s ->
  wp (acquire_console t ≫= fun _ => m ≫= fun _ => release_console t ≫= fun _ => mret r) P s.
Proof. unfold wp, mbind, st_bind. destruct (acquire_console t s) as [[[] s1]|]; [|done]. by destruct (m s1) as [[[] s2]|]. Qed.

Lemma printed_trans l1 l2 w a s s1 s2 : printed l1 w a s s1 -> printed l2 (w ++ l1) (write_all l1 a) s1 s2 -> printed (l1 ++ l2) w a s s2.
Proof.
  intros [(E1 & E2 & E3 & E4) Ec Hi Hs] [(F1 & F2 & F3 & F4) Fc Hi2 Hs2]. split; [by rewrite F1, F2, F3, F4|rewrite Fc, Ec, length_app; lia|by rewrite app_assoc|]. unfold write_all in *. by rewrite fold_left_app.
Qed.
Lemma printed_frame l w a s s1 s2 : serial s1 = serial s -> screen s1 = screen s -> write_cnt s1 = write_cnt s -> printed l w a s1 s2 ->
  printed l w a s (Con (holder s) (depth s) (use_lock s) (write_cnt s2) (in_intr s) (serial s2) (screen s2)).
Proof. intros E1 E2 E3 [_ Ec Hi Hs]. split; cbn; [done|congruence|done|done]. Qed.

Lemma wp_call t o l w a s : may_print t s -> chars o = Ok l -> Forall is_byte l -> inv w (serial s) -> shows (screen s) a ->
  wp (call t o) (fun _ s' => printed l w a s s') s.
Proof.
  intros Hm Ho Hb Hi Hs.
  assert (forall r : Z, wp (acquire_console t ≫= fun _ => put_all polls t l ≫= fun _ => release_console t ≫= fun _ => mret r) (fun _ s' => printed l w a s s') s) as Hall.
  { intros r. apply wp_print_unlock, wp_with_lock; [done|]. intros s1 Hl E1 E2 E3. apply wp_bind, (wp_put_all t l w a); [done|done|by rewrite E1|by rewrite E2|]. intros s2 Hp. apply wp_ret.
    split; [apply Hp|]. by apply (printed_frame l w a s s1 s2). }
  destruct o as [l0|l0|c|m format args]; cbn [chars call] in *.
  - injection Ho as ->. specialize (Hall 0). unfold putbuf, wp, mbind, st_bind in *. destruct (acquire_console t s) as [[[] s1]|]; [|done]. by destruct (put_all polls t l s1) as [[[] s2]|].
  - injection Ho as <-. apply Forall_app in Hb as [Hb _]. unfold puts. specialize (Hall 0). unfold wp, mbind, st_bind in *. destruct (acquire_console t s) as [[[] s1]|]; [|done].
    assert (put_all polls t (l0 ++ [10]) s1 = match put_all polls t l0 s1 with Ok (_, s2) => putchar_have_lock polls t 10 s2 | Err e => Err e end) as E.
    { clear. revert s1. induction l0 as [|c l IH]; intros s1; cbn [put_all app]; unfold mbind, st_bind; [cbn; by destruct (putchar_have_lock polls t 10 s1) as [[[] ?]|]|].
      destruct (putchar_have_lock polls t c s1) as [[[] s2]|]; [|done]. apply IH. }
    rewrite E in Hall. destruct (put_all polls t l0 s1) as [[[] s2]|]; [|done]. by destruct (putchar_have_lock polls t 10 s2) as [[[] s3]|].
  - injection Ho as <-. unfold putchar. specialize (Hall c). unfold wp, mbind, st_bind in *. destruct (acquire_console t s) as [[[] s1]|]; [|done]. cbn [put_all] in Hall. unfold mbind, st_bind in Hall.
    by destruct (putchar_have_lock polls t c s1) as [[[] s2]|].
  - specialize (Hall (Z.of_nat (length l))). unfold vprintf. rewrite Ho. exact Hall.
Qed.

(** Calls by several threads one after the other. *)
Fixpoint call_all (es : list (Z * op)) : st (con H) unit := match es with [] => mret tt | (t, o) :: es' => call t o ≫= fun _ => call_all es' end.
Fixpoint chars_all (es : list (Z * op)) : outcome (list Z) := match es with [] => Ok [] | (_, o) :: es' => l ← chars o; l' ← chars_all es'; Ok (l ++ l') end.
End laws.

(** C28: What is printed is what both devices show.  For any sequence of
    calls of putbuf, puts, putchar and vprintf by any threads, nested in
    printing of the same thread or not, the characters reach the serial port
    and the display completely and in order, the count of characters grows
    by their number, and the console lock and its depth are afterwards as
    they were. *)
Theorem console_prints {H} {ports : UartPorts H} {port : Uart H} (es : list (Z * op)) (l w : list Z) (a : tape) (s : con H) :
  chars_all es = Ok l -> Forall is_byte l -> Forall (fun e => may_print e.1 s) es -> inv w (serial s) -> shows (screen s) a ->
  exists s', call_all es s = Ok (tt, s') /\ holder s' = holder s /\ depth s' = depth s /\ write_cnt s' = write_cnt s + Z.of_nat (length l) /\
    wire (uart (serial s')) ++ contents (q (txq (serial s'))) = w ++ l /\ shows (screen s') (write_all l a).
Proof.
  intros Hl Hb Hm Hi Hs. enough (wp (call_all es) (fun _ s' => printed l w a s s') s) as Hwp.
  { apply wp_unit_Ok in Hwp as (s' & E & [(E1 & E2 & _) Ec Hi' Hs']). exists s'. split_and!; try done. apply Hi'. }
  revert l w a s Hl Hb Hm Hi Hs. induction es as [|[t o] es IH]; intros l w a s Hl Hb Hm Hi Hs; cbn [chars_all call_all] in *.
  - injection Hl as <-. apply wp_ret. split; [done|simpl; lia|by rewrite app_nil_r|done].
  - destruct (chars o) as [l1|] eqn:E1; [|done]. cbn [mbind outcome_bind] in Hl. destruct (chars_all es) as [l2|] eqn:E2; [|done]. injection Hl as <-. apply Forall_app in Hb as [Hb1 Hb2].
    apply list.Forall_cons in Hm as [Hm1 Hm2]. apply wp_bind. eapply wp_mono; [by apply (wp_call t o l1 w a)|]. intros r s1 Hp. pose proof Hp as [(F1 & F2 & _) _ Hi1 Hs1].
    eapply wp_mono; [apply (IH l2 (w ++ l1) (write_all l1 a)); try done|]. { eapply list.Forall_impl; [exact Hm2|]. intros [t' o']. unfold may_print. cbn. by rewrite F1, F2. }
    intros [] s2 Hp2. by apply (printed_trans l1 l2 w a s s1 s2).
Qed.

(** Thread 3, which holds the lock, and then puts by the same thread. *)
Definition busy_console : con sim := Con (Some 3) 0 true 10 false (Tty POLL bss_queue bss_queue true (Sim [] 0 [] false 0)) (Vga (replicate 2000 blank) 0 0 true (fun _ => 0)).
Lemma console_prints_witness : exists s', call_all [(3, Putbuf [72; 105]); (3, Puts [33])] busy_console = Ok (tt, s') /\ holder s' = Some 3 /\ depth s' = 0 /\ write_cnt s' = 10 + 4 /\
  wire (uart (serial s')) ++ contents (q (txq (serial s'))) = [] ++ [72; 105; 33; 10] /\ shows (screen s') (write_all [72; 105; 33; 10] (Tape (replicate 2000 blank) 0)).
Proof.
  apply (console_prints [(3, Putbuf [72; 105]); (3, Puts [33])] [72; 105; 33; 10] [] (Tape (replicate 2000 blank) 0) busy_console); [done| | | |].
  - repeat (apply Forall_cons; [unfold is_byte; lia|]). apply Forall_nil_2.
  - repeat (apply Forall_cons; [right; done|]). apply Forall_nil_2.
  - split; try done; try apply bss_quiet.
  - split; cbn [fb cx cy inited screen busy_console]; try done; try lia. exists []. split; [by exists 0|done].
Defined.
