(* ===== verification/KList.v ===== *)
(** * Doubly linked lists (src/lib/kernel/list.c)

    The lists of the kernel link structures that embed a struct
    list_elem.  Memory is the two fields of every list_elem, by the
    address of the element; a struct list at address [l] holds its head
    element at [l] and its tail element at [l + 8].  The comparison
    function is a parameter, a function of the addresses of two elements:
    it reads the enclosing structures, which the list functions do not
    change.  Loops take fuel; the theorems give a sufficient amount. *)

From S2P Require Import Prelude Memory.

Record heap := Heap { prevs : gmap Z Z; nexts : gmap Z Z }.

Definition get_prev (e : Z) : st heap Z := fun h =>
  match prevs h !! e with Some x => Ok (x, h) | None => Err Fault end.
Definition get_next (e : Z) : st heap Z := fun h =>
  match nexts h !! e with Some x => Ok (x, h) | None => Err Fault end.
Definition put_prev (e x : Z) : st heap unit := fun h =>
  match prevs h !! e with Some _ => Ok (tt, Heap (<[e := x]> (prevs h)) (nexts h)) | None => Err Fault end.
Definition put_next (e x : Z) : st heap unit := fun h =>
  match nexts h !! e with Some _ => Ok (tt, Heap (prevs h) (<[e := x]> (nexts h))) | None => Err Fault end.

Definition no_fuel {A} : st heap A := fun _ => Err Fuel.

Definition head_of (l : Z) : Z := l.
Definition tail_of (l : Z) : Z := l + 8.

(** [&&] stops at the first false operand. *)
Definition is_head (e : Z) : st heap bool :=
  if e =? NULL then mret false
  else p ← get_prev e; if negb (p =? NULL) then mret false else n ← get_next e; mret (negb (n =? NULL)).
Definition is_interior (e : Z) : st heap bool :=
  if e =? NULL then mret false
  else p ← get_prev e; if p =? NULL then mret false else n ← get_next e; mret (negb (n =? NULL)).
Definition is_tail (e : Z) : st heap bool :=
  if e =? NULL then mret false
  else p ← get_prev e; if p =? NULL then mret false else n ← get_next e; mret (n =? NULL).

(** ASSERT (a || b). *)
Definition assert_either (a b : st heap bool) : st heap unit :=
  x ← a; if x : bool then mret tt else y ← b; kassert_st y.

Definition list_init (l : Z) : st heap unit :=
  kassert_st (negb (l =? NULL)) ≫= fun _ =>
  put_prev (head_of l) NULL ≫= fun _ =>
  put_next (head_of l) (tail_of l) ≫= fun _ =>
  put_prev (tail_of l) (head_of l) ≫= fun _ =>
  put_next (tail_of l) NULL.

Definition list_begin (l : Z) : st heap Z := kassert_st (negb (l =? NULL)) ≫= fun _ => get_next (head_of l).
Definition list_next (e : Z) : st heap Z := assert_either (is_head e) (is_interior e) ≫= fun _ => get_next e.
Definition list_end (l : Z) : st heap Z := kassert_st (negb (l =? NULL)) ≫= fun _ => mret (tail_of l).
Definition list_rbegin (l : Z) : st heap Z := kassert_st (negb (l =? NULL)) ≫= fun _ => get_prev (tail_of l).
Definition list_prev (e : Z) : st heap Z := assert_either (is_interior e) (is_tail e) ≫= fun _ => get_prev e.
Definition list_rend (l : Z) : st heap Z := kassert_st (negb (l =? NULL)) ≫= fun _ => mret (head_of l).
Definition list_head (l : Z) : st heap Z := kassert_st (negb (l =? NULL)) ≫= fun _ => mret (head_of l).
Definition list_tail (l : Z) : st heap Z := kassert_st (negb (l =? NULL)) ≫= fun _ => mret (tail_of l).

Definition list_insert (before elem : Z) : st heap unit :=
  assert_either (is_interior before) (is_tail before) ≫= fun _ =>
  kassert_st (negb (elem =? NULL)) ≫= fun _ =>
  p ← get_prev before; put_prev elem p ≫= fun _ =>
  put_next elem before ≫= fun _ =>
  p ← get_prev before; put_next p elem ≫= fun _ =>
  put_prev before elem.

Definition list_splice (before first last : Z) : st heap unit :=
  assert_either (is_interior before) (is_tail before) ≫= fun _ =>
  if first =? last then mret tt
  else
    last ← list_prev last;
    b ← is_interior first; kassert_st b ≫= fun _ =>
    b ← is_interior last; kassert_st b ≫= fun _ =>
    p ← get_prev first; n ← get_next last; put_next p n ≫= fun _ =>
    n ← get_next last; p ← get_prev first; put_prev n p ≫= fun _ =>
    p ← get_prev before; put_prev first p ≫= fun _ =>
    put_next last before ≫= fun _ =>
    p ← get_prev before; put_next p first ≫= fun _ =>
    put_prev before last.

Definition list_push_front (l elem : Z) : st heap unit := b ← list_begin l; list_insert b elem.
Definition list_push_back (l elem : Z) : st heap unit := e ← list_end l; list_insert e elem.

Definition list_remove (elem : Z) : st heap Z :=
  b ← is_interior elem; kassert_st b ≫= fun _ =>
  p ← get_prev elem; n ← get_next elem; put_next p n ≫= fun _ =>
  n ← get_next elem; p ← get_prev elem; put_prev n p ≫= fun _ =>
  get_next elem.

Definition list_empty (l : Z) : st heap bool := b ← list_begin l; e ← list_end l; mret (b =? e).
Definition list_front (l : Z) : st heap Z := b ← list_empty l; kassert_st (negb b) ≫= fun _ => get_next (head_of l).
Definition list_back (l : Z) : st heap Z := b ← list_empty l; kassert_st (negb b) ≫= fun _ => get_prev (tail_of l).
Definition list_pop_front (l : Z) : st heap Z := front ← list_front l; list_remove front ≫= fun _ => mret front.
Definition list_pop_back (l : Z) : st heap Z := back ← list_back l; list_remove back ≫= fun _ => mret back.

(** [for (e = from; e != to; e = list_next (e)) body]. *)
Fixpoint for_each {A} (n : nat) (to : Z) (body : Z -> A -> st heap A) (e : Z) (a : A) : st heap A :=
  if e =? to then mret a
  else match n with
       | O => no_fuel
       | S n' => a' ← body e a; e' ← list_next e; for_each n' to body e' a'
       end.

Definition list_size (n : nat) (l : Z) : st heap Z :=
  b ← list_begin l; e ← list_end l; for_each n e (fun _ cnt => mret (u32 (cnt + 1))) b 0.

(** The loop of list_reverse goes through the swapped [prev] links. *)
Fixpoint reverse_loop (n : nat) (to e : Z) : st heap unit :=
  if e =? to then mret tt
  else match n with
       | O => no_fuel
       | S n' =>
           p ← get_prev e; x ← get_next e; put_prev e x ≫= fun _ => put_next e p ≫= fun _ =>
           e' ← get_prev e; reverse_loop n' to e'
       end.
Definition list_reverse (n : nat) (l : Z) : st heap unit :=
  b ← list_empty l;
  if b : bool then mret tt
  else
    e ← list_begin l; to ← list_end l; reverse_loop n to e ≫= fun _ =>
    x ← get_next (head_of l); y ← get_prev (tail_of l);
    put_next (head_of l) y ≫= fun _ => put_prev (tail_of l) x ≫= fun _ =>
    f ← get_next (head_of l); g ← get_prev (tail_of l);
    x ← get_prev f; y ← get_next g;
    put_prev f y ≫= fun _ => put_next g x.

Section ordered.
Variable less : Z -> Z -> bool.

(** The loop of is_sorted, at element [a]. *)
Fixpoint sorted_loop (n : nat) (a b : Z) : st heap bool :=
  a' ← list_next a;
  if a' =? b then mret true
  else match n with
       | O => no_fuel
       | S n' => p ← list_prev a'; if less a' p then mret false else sorted_loop n' a' b
       end.
Definition is_sorted (n : nat) (a b : Z) : st heap bool :=
  if negb (a =? b) then sorted_loop n a b else mret true.

Fixpoint run_loop (n : nat) (a b : Z) : st heap Z :=
  a' ← list_next a;
  if a' =? b then mret a'
  else
    p ← list_prev a';
    if less a' p then mret a'
    else match n with O => no_fuel | S n' => run_loop n' a' b end.
Definition find_end_of_run (n : nat) (a b : Z) : st heap Z :=
  kassert_st (negb (a =? NULL)) ≫= fun _ =>
  kassert_st (negb (b =? NULL)) ≫= fun _ =>
  kassert_st (negb (a =? b)) ≫= fun _ => run_loop n a b.

Fixpoint merge_loop (n : nat) (a0 a1b0 b1 : Z) : st heap unit :=
  if (a0 =? a1b0) || (a1b0 =? b1) then mret tt
  else match n with
       | O => no_fuel
       | S n' =>
           if negb (less a1b0 a0) then a0' ← list_next a0; merge_loop n' a0' a1b0 b1
           else
             a1b0' ← list_next a1b0;
             p ← list_prev a1b0';
             list_splice a0 p a1b0' ≫= fun _ => merge_loop n' a0 a1b0' b1
       end.
Definition inplace_merge (n : nat) (a0 a1b0 b1 : Z) : st heap unit :=
  kassert_st (negb (a0 =? NULL)) ≫= fun _ =>
  kassert_st (negb (a1b0 =? NULL)) ≫= fun _ =>
  kassert_st (negb (b1 =? NULL)) ≫= fun _ =>
  s ← is_sorted n a0 a1b0; kassert_st s ≫= fun _ =>
  s ← is_sorted n a1b0 b1; kassert_st s ≫= fun _ =>
  merge_loop n a0 a1b0 b1.

(** One pass of list_sort from [a0]; returns output_run_cnt. *)
Fixpoint sort_pass (n : nat) (l a0 cnt : Z) : st heap Z :=
  to ← list_end l;
  if a0 =? to then mret cnt
  else match n with
       | O => no_fuel
       | S n' =>
           let cnt := u32 (cnt + 1) in
           to ← list_end l; a1b0 ← find_end_of_run n a0 to;
           to ← list_end l;
           if a1b0 =? to then mret cnt
           else
             to ← list_end l; b1 ← find_end_of_run n a1b0 to;
             inplace_merge n a0 a1b0 b1 ≫= fun _ => sort_pass n' l b1 cnt
       end.
Fixpoint sort_loop (n m : nat) (l : Z) : st heap unit :=
  match m with
  | O => no_fuel
  | S m' => a0 ← list_begin l; cnt ← sort_pass n l a0 0; if 1 <? cnt then sort_loop n m' l else mret tt
  end.
Definition list_sort (n : nat) (l : Z) : st heap unit :=
  kassert_st (negb (l =? NULL)) ≫= fun _ =>
  sort_loop n n l ≫= fun _ =>
  b ← list_begin l; e ← list_end l; s ← is_sorted n b e; kassert_st s.

(** The loop of list_insert_ordered: the first element that [elem] is
    less than. *)
Fixpoint ordered_loop (n : nat) (elem to e : Z) : st heap Z :=
  if e =? to then mret e
  else match n with
       | O => no_fuel
       | S n' => if less elem e then mret e else e' ← list_next e; ordered_loop n' elem to e'
       end.
Definition list_insert_ordered (n : nat) (l elem : Z) : st heap unit :=
  kassert_st (negb (l =? NULL)) ≫= fun _ =>
  kassert_st (negb (elem =? NULL)) ≫= fun _ =>
  b ← list_begin l; to ← list_end l; e ← ordered_loop n elem to b; list_insert e elem.

Fixpoint unique_loop (n : nat) (l duplicates elem : Z) : st heap unit :=
  next ← list_next elem; to ← list_end l;
  if next =? to then mret tt
  else match n with
       | O => no_fuel
       | S n' =>
           if negb (less elem next) && negb (less next elem) then
             list_remove next ≫= fun _ =>
             (if negb (duplicates =? NULL) then list_push_back duplicates next else mret tt) ≫= fun _ =>
             unique_loop n' l duplicates elem
           else unique_loop n' l duplicates next
       end.
Definition list_unique (n : nat) (l duplicates : Z) : st heap unit :=
  kassert_st (negb (l =? NULL)) ≫= fun _ =>
  b ← list_empty l;
  if b : bool then mret tt else elem ← list_begin l; unique_loop n l duplicates elem.

Definition list_max (n : nat) (l : Z) : st heap Z :=
  max ← list_begin l; to ← list_end l;
  if negb (max =? to) then
    e ← list_next max; for_each n to (fun e max => mret (if less max e then e else max)) e max
  else mret max.
Definition list_min (n : nat) (l : Z) : st heap Z :=
  min ← list_begin l; to ← list_end l;
  if negb (min =? to) then
    e ← list_next min; for_each n to (fun e min => mret (if less e min then e else min)) e min
  else mret min.
End ordered.
