(* ===== verification/KListLaws.v ===== *)
(** * The linked lists represent sequences

    [dll h l xs] says that the struct list at [l] links the elements
    [xs], in this order, between its head and its tail.  Insertion,
    removal and splicing change the sequence as their comments say, and
    list_sort leaves the sorted permutation of the sequence. *)

From S2P Require Import Prelude Memory Wp KList.

(** ** Chains of links *)

Definition setp (h : heap) (e x : Z) : heap := Heap (<[e := x]> (prevs h)) (nexts h).
Definition setn (h : heap) (e x : Z) : heap := Heap (prevs h) (<[e := x]> (nexts h)).

Section chains.
Implicit Types (h : heap) (L M : list Z).

Definition link h (a b : Z) : Prop := nexts h !! a = Some b /\ prevs h !! b = Some a.

Fixpoint chain h L : Prop :=
  match L with
  | x :: r => match r with y :: _ => link h x y /\ chain h r | [] => True end
  | [] => True
  end.

Lemma chain_split h L x M : chain h (L ++ x :: M) <-> chain h (L ++ [x]) /\ chain h (x :: M).
Proof.
  induction L as [|a L IH]; [by simpl; tauto|]. destruct L as [|b L]; cbn [app] in *; simpl in *; [tauto|]. rewrite IH. tauto.
Qed.

Lemma chain_join h L a b M : chain h (L ++ [a]) -> link h a b -> chain h (b :: M) -> chain h (L ++ a :: b :: M).
Proof. intros H1 H2 H3. apply chain_split. split; [done|]. by split. Qed.

Lemma chain_link h L a b M : chain h (L ++ a :: b :: M) -> link h a b.
Proof. intros [_ [H _]]%chain_split. done. Qed.

Lemma chain_left h L M : chain h (L ++ M) -> chain h L.
Proof.
  destruct M as [|x M]; [by rewrite app_nil_r|]. intros [H _]%chain_split. revert H. induction L as [|a L IH]; [done|].
  destruct L as [|b L]; [done|]. cbn [app chain] in *. intros [? H]. split; [done|]. apply IH, H.
Qed.
Lemma chain_right h L M : chain h (L ++ M) -> chain h M.
Proof. destruct M as [|x M]; [done|]. by intros [_ H]%chain_split. Qed.

(** A write outside the links that a chain reads. *)
Lemma chain_setp h L e x : e ∉ tail L -> chain h L -> chain (setp h e x) L.
Proof.
  induction L as [|a L IH]; [done|]. destruct L as [|b L]; [done|]. simpl. intros Hn [[H1 H2] H3].
  apply not_elem_of_cons in Hn as [Hb Hn]. split; [split; [done|]|apply IH; [done|done]].
  simpl. by rewrite lookup_insert_ne.
Qed.
Lemma chain_setn h L e x : e ∉ removelast L -> chain h L -> chain (setn h e x) L.
Proof.
  induction L as [|a L IH]; [done|]. destruct L as [|b L]; [done|]. intros Hn [[H1 H2] H3]. change (removelast (a :: b :: L)) with (a :: removelast (b :: L)) in Hn.
  apply not_elem_of_cons in Hn as [Hb Hn]. split; [split; [|done]|by apply IH]. simpl. by rewrite lookup_insert_ne.
Qed.

Lemma link_setp_eq h a b : nexts h !! a = Some b -> link (setp h b a) a b.
Proof. intros H. split; [done|]. simpl. by rewrite lookup_insert_eq. Qed.
Lemma link_setn_eq h a b : prevs h !! b = Some a -> link (setn h a b) a b.
Proof. intros H. split; [|done]. simpl. by rewrite lookup_insert_eq. Qed.
End chains.

(** ** Removing and inserting a run of elements *)

Section moves.
Implicit Types (h : heap) (L M A B : list Z).

(** A nonempty list with its first and last element. *)
Definition run_of (f t : Z) M : Prop := exists M1 M2, M = f :: M1 /\ M = M2 ++ [t].

Lemma run_single x : run_of x x [x].
Proof. by exists [], []. Qed.

Lemma removelast_in L (x : Z) : x ∈ removelast L -> x ∈ L.
Proof.
  destruct L as [|y L]; [done|]. intros H. rewrite (app_removelast_last y (l := y :: L)) by done. apply elem_of_app. by left.
Qed.

Lemma NoDup_cut A B (x : Z) : NoDup (A ++ x :: B) -> (x ∉ A) /\ x ∉ B.
Proof. intros (_ & H & [? _]%list.NoDup_cons)%list.NoDup_app. split; [|done]. intros Hx. apply (H x Hx). by left. Qed.
Lemma NoDup_apart A B (x : Z) : NoDup (A ++ B) -> x ∈ A -> x ∉ B.
Proof. intros (_ & H & _)%list.NoDup_app. auto. Qed.
Lemma NoDup_drop_mid A M B : NoDup (A ++ M ++ B) -> NoDup (A ++ B).
Proof.
  intros (HA & Hd & (_ & _ & HB)%list.NoDup_app)%list.NoDup_app. apply list.NoDup_app. split_and!; [done| |done].
  intros x Hx. specialize (Hd x Hx). rewrite elem_of_app in Hd. tauto.
Qed.

Lemma chain_out h A a M f t b B : chain h (A ++ a :: M ++ b :: B) -> run_of f t M -> NoDup (A ++ a :: M ++ b :: B) ->
  link h a f /\ link h t b /\ chain h M /\ chain h (A ++ [a]) /\ chain h (b :: B) /\
  chain (setp (setn h a b) b a) (A ++ a :: b :: B) /\ chain (setp (setn h a b) b a) M.
Proof.
  intros Hc (M1 & M2 & E1 & E2) Hnd.
  assert (chain h (A ++ [a]) /\ chain h (b :: B) /\ chain h M) as (HA & HB & HM).
  { pose proof Hc as [? H1]%chain_split. split; [done|]. change (a :: M ++ b :: B) with ([a] ++ (M ++ b :: B)) in H1. apply chain_right in H1. split.
    - by apply chain_right in H1.
    - by apply chain_left in H1. }
  apply NoDup_cut in Hnd as Ha. destruct Ha as [HaA Ha]. apply not_elem_of_app in Ha as [HaM [Hab HaB]%not_elem_of_cons].
  assert (NoDup ((A ++ a :: M) ++ b :: B)) as Hnd' by (by rewrite <- app_assoc).
  apply NoDup_cut in Hnd' as [HbA HbB]. apply not_elem_of_app in HbA as [HbA [Hba HbM]%not_elem_of_cons].
  split_and!; try done.
  - rewrite E1 in Hc. cbn [app] in Hc. by apply chain_link in Hc.
  - rewrite E2, <- app_assoc in Hc. cbn [app] in Hc. change (A ++ a :: M2 ++ t :: b :: B) with (A ++ (a :: M2) ++ t :: b :: B) in Hc.
    rewrite app_assoc in Hc. by apply chain_link in Hc.
  - apply chain_join.
    + apply chain_setp; [|apply chain_setn; [by rewrite removelast_last|done]]. destruct A as [|c A]; [by apply not_elem_of_nil|]. simpl.
      rewrite elem_of_app, list_elem_of_singleton. apply not_elem_of_cons in HbA as [_ ?]. naive_solver.
    + apply link_setp_eq. simpl. by rewrite lookup_insert_eq.
    + apply chain_setp; [done|]. apply chain_setn; [|done]. intros Hin%removelast_in. set_solver.
  - apply chain_setp; [|apply chain_setn; [|done]].
    + rewrite E1. simpl. rewrite E1 in HbM. set_solver.
    + rewrite E2, removelast_last. rewrite E2 in HaM. set_solver.
Qed.

Lemma chain_in h A a M f t b B : chain h (A ++ [a]) -> chain h M -> chain h (b :: B) -> run_of f t M -> NoDup (A ++ a :: M ++ b :: B) ->
  chain (setp (setn (setn (setp h f a) t b) a f) b t) (A ++ a :: M ++ b :: B).
Proof.
  intros HA HM HB (M1 & M2 & E1 & E2) Hnd.
  apply NoDup_cut in Hnd as Ha. destruct Ha as [HaA Ha]. apply not_elem_of_app in Ha as [HaM [Hab HaB]%not_elem_of_cons].
  assert (NoDup ((A ++ a :: M) ++ b :: B)) as Hnd' by (by rewrite <- app_assoc).
  pose proof Hnd' as [HbA HbB]%NoDup_cut. apply not_elem_of_app in HbA as [HbA [Hba HbM]%not_elem_of_cons].
  assert (f ∈ M) as Hf by (rewrite E1; by left). assert (t ∈ M) as Ht by (rewrite E2; apply elem_of_app; right; by apply list_elem_of_singleton).
  assert (forall x, x ∈ M -> (x ∉ A) /\ x <> a /\ x <> b /\ x ∉ B) as Hout.
  { intros x Hx. pose proof Hnd as (_ & H1 & H2)%list.NoDup_app. apply list.NoDup_cons in H2 as [_ H2]. pose proof (NoDup_apart _ _ x H2 Hx) as [? ?]%not_elem_of_cons.
    split_and!; [|by intros ->|done|done]. intros HxA. apply (H1 x HxA). right. apply elem_of_app. by left. }
  destruct (Hout f Hf) as (Hf1 & Hf2 & Hf3 & Hf4). destruct (Hout t Ht) as (Ht1 & Ht2 & Ht3 & Ht4).
  assert (NoDup M) as HndM by (apply list.NoDup_app in Hnd as (_ & _ & [_ (? & _)%list.NoDup_app]%list.NoDup_cons); done).
  set (h' := setp _ b t).
  assert (link h' a f) as L1.
  { split; simpl; [by rewrite lookup_insert_eq|]. rewrite lookup_insert_ne by congruence. by rewrite lookup_insert_eq. }
  assert (link h' t b) as L2.
  { split; simpl; [|by rewrite lookup_insert_eq]. rewrite lookup_insert_ne by congruence. by rewrite lookup_insert_eq. }
  assert (chain h' (A ++ [a])) as CA.
  { unfold h'. apply chain_setp; [|apply chain_setn; [|apply chain_setn; [|apply chain_setp; [|done]]]]; rewrite ?removelast_last; try done.
    all: destruct A as [|c A]; [by apply not_elem_of_nil|]; simpl; rewrite elem_of_app, list_elem_of_singleton; set_solver. }
  assert (chain h' (b :: B)) as CB.
  { assert (forall x, x <> b -> x ∉ B -> x ∉ removelast (b :: B)) as Hrl.
    { intros x Hxb HxB Hin%removelast_in. set_solver. }
    unfold h'. apply chain_setp; [done|]. apply chain_setn; [by apply Hrl|]. apply chain_setn; [by apply Hrl|]. by apply chain_setp. }
  assert (chain h' M) as CM.
  { unfold h'. apply chain_setp; [|apply chain_setn; [|apply chain_setn; [|apply chain_setp; [|done]]]].
    - rewrite E1 in HbM |- *. simpl. set_solver.
    - rewrite E2, removelast_last. rewrite E2 in HaM. set_solver.
    - rewrite E2, removelast_last. rewrite E2 in HndM. apply list.NoDup_app in HndM as (_ & H & _). intros Hin. apply (H t Hin). by apply list_elem_of_singleton.
    - rewrite E1. simpl. rewrite E1 in HndM. by apply list.NoDup_cons in HndM as [? _]. }
  rewrite E1. cbn [app]. apply chain_join; [done|done|]. change (f :: M1 ++ b :: B) with ((f :: M1) ++ b :: B). rewrite <- E1, E2, <- app_assoc.
  cbn [app]. apply chain_join; [by rewrite <- E2|done|done].
Qed.
End moves.

(** ** Lists *)

Section lists.
Implicit Types (h : heap) (l : Z) (X Y M : list Z).

Definition nodes l X : list Z := l :: X ++ [l + 8].

Record dll h l X : Prop := {
  d_chain : chain h (nodes l X);
  d_head : prevs h !! l = Some NULL;
  d_tail : nexts h !! (l + 8) = Some NULL;
  d_nodup : NoDup (nodes l X);
  d_null : NULL ∉ nodes l X
}.

(** The nodes around a cut of the sequence. *)
Definition pred l X : Z := List.last X l.
Definition succ l Y : Z := hd (l + 8) Y.
Definition front l X : list Z := removelast (l :: X).
Definition rest l Y : list Z := tail (Y ++ [l + 8]).

Lemma front_pred l X : front l X ++ [pred l X] = l :: X.
Proof.
  unfold front, pred.
  transitivity (removelast (l :: X) ++ [List.last (l :: X) l]); [by destruct X|]. symmetry. by apply app_removelast_last.
Qed.
Lemma succ_rest l Y : succ l Y :: rest l Y = Y ++ [l + 8].
Proof. by destruct Y. Qed.

Lemma nodes_cut l X Y : nodes l (X ++ Y) = front l X ++ pred l X :: succ l Y :: rest l Y.
Proof.
  unfold nodes. rewrite succ_rest. change (pred l X :: Y ++ [l + 8]) with ([pred l X] ++ (Y ++ [l + 8])).
  rewrite (app_assoc (front l X)), front_pred. cbn [app]. by rewrite <- app_assoc.
Qed.
Lemma nodes_cut_mid l X M Y : nodes l (X ++ M ++ Y) = front l X ++ pred l X :: M ++ succ l Y :: rest l Y.
Proof.
  rewrite succ_rest. change (pred l X :: M ++ Y ++ [l + 8]) with ([pred l X] ++ (M ++ Y ++ [l + 8])).
  rewrite (app_assoc (front l X)), front_pred. unfold nodes. cbn [app]. by rewrite <- !app_assoc.
Qed.

Lemma pred_in l X : pred l X ∈ l :: X.
Proof. rewrite <- front_pred. apply elem_of_app. right. by apply list_elem_of_singleton. Qed.
Lemma succ_in l Y : succ l Y ∈ Y ++ [l + 8].
Proof. rewrite <- succ_rest. by left. Qed.

Lemma nodes_apart h l X Y x : dll h l (X ++ Y) -> x ∈ l :: X -> x ∉ Y ++ [l + 8].
Proof. intros Hd. apply NoDup_apart. pose proof (d_nodup _ _ _ Hd) as H. unfold nodes in H. by rewrite <- app_assoc in H. Qed.

Lemma dll_null h l X x : dll h l X -> x ∈ nodes l X -> x <> NULL.
Proof. intros Hd Hx ->. by apply (d_null _ _ _ Hd). Qed.

Lemma pred_node l X Y : pred l X ∈ nodes l (X ++ Y).
Proof. rewrite nodes_cut. set_solver. Qed.
Lemma succ_node l X Y : succ l Y ∈ nodes l (X ++ Y).
Proof. rewrite nodes_cut. set_solver. Qed.

Lemma cut_link h l X Y : dll h l (X ++ Y) -> link h (pred l X) (succ l Y).
Proof. intros Hd. pose proof (d_chain _ _ _ Hd) as H. rewrite nodes_cut in H. by apply chain_link in H. Qed.

(** Every node is allocated. *)
Lemma dll_prev h l X Y : dll h l (X ++ Y) -> is_Some (prevs h !! pred l X) .
Proof.
  intros Hd. destruct X as [|x X] using rev_ind; [unfold pred; simpl; rewrite (d_head _ _ _ Hd); eauto|].
  rewrite <- app_assoc in Hd. destruct (cut_link h l X ([x] ++ Y) Hd) as [_ H]. unfold pred. rewrite last_last. simpl in H. eauto.
Qed.
Lemma dll_next h l X Y : dll h l (X ++ Y) -> is_Some (nexts h !! succ l Y).
Proof.
  intros Hd. destruct Y as [|y Y]; [unfold succ; simpl; rewrite (d_tail _ _ _ Hd); eauto|].
  replace (X ++ y :: Y) with ((X ++ [y]) ++ Y) in Hd by (by rewrite <- app_assoc).
  destruct (cut_link h l (X ++ [y]) Y Hd) as [H _]. unfold pred in H. rewrite last_last in H. simpl. eauto.
Qed.

Lemma wp_get_prev e x Q h : prevs h !! e = Some x -> Q x h -> wp (get_prev e) Q h.
Proof. unfold wp, get_prev. by intros ->. Qed.
Lemma wp_get_next e x Q h : nexts h !! e = Some x -> Q x h -> wp (get_next e) Q h.
Proof. unfold wp, get_next. by intros ->. Qed.
Lemma wp_put_prev e x Q h : is_Some (prevs h !! e) -> Q tt (setp h e x) -> wp (put_prev e x) Q h.
Proof. unfold wp, put_prev. by intros [? ->]. Qed.
Lemma wp_put_next e x Q h : is_Some (nexts h !! e) -> Q tt (setn h e x) -> wp (put_next e x) Q h.
Proof. unfold wp, put_next. by intros [? ->]. Qed.

(** The three tests of an element with known links. *)
Lemma wp_test p n e h : e <> NULL -> prevs h !! e = Some p -> nexts h !! e = Some n ->
  (forall Q, Q ((p =? NULL) && negb (n =? NULL)) h -> wp (is_head e) Q h) /\
  (forall Q, Q (negb (p =? NULL) && negb (n =? NULL)) h -> wp (is_interior e) Q h) /\
  (forall Q, Q (negb (p =? NULL) && (n =? NULL)) h -> wp (is_tail e) Q h).
Proof.
  intros He Hp Hn. unfold is_head, is_interior, is_tail. rewrite (proj2 (Z.eqb_neq e NULL)) by done.
  split_and!; intros Q HQ; apply wp_bind; (eapply wp_get_prev; [exact Hp|]); destruct (p =? NULL); simpl in *; try exact HQ;
    apply wp_bind; (eapply wp_get_next; [exact Hn|]); exact HQ.
Qed.

(** ASSERT (is_interior (e) || is_tail (e)). *)
Lemma wp_has_prev p e Q h : e <> NULL -> p <> NULL -> prevs h !! e = Some p -> is_Some (nexts h !! e) -> Q tt h ->
  wp (assert_either (is_interior e) (is_tail e)) Q h.
Proof.
  intros He Hp Hpe [n Hn] HQ. destruct (wp_test p n e h He Hpe Hn) as (_ & Hi & Ht). apply wp_bind, Hi.
  rewrite (proj2 (Z.eqb_neq p NULL)) by done. destruct (n =? NULL) eqn:E; simpl; [|exact HQ].
  apply wp_bind, Ht. rewrite (proj2 (Z.eqb_neq p NULL)) by done. exact HQ.
Qed.
Lemma wp_prev p e Q h : e <> NULL -> p <> NULL -> prevs h !! e = Some p -> is_Some (nexts h !! e) -> Q p h -> wp (list_prev e) Q h.
Proof. intros. apply wp_bind. eapply wp_has_prev; [done..|]. by eapply wp_get_prev. Qed.
Lemma wp_next n e Q h : e <> NULL -> n <> NULL -> nexts h !! e = Some n -> is_Some (prevs h !! e) -> Q n h -> wp (list_next e) Q h.
Proof.
  intros He Hn Hne [p Hp] HQ. destruct (wp_test p n e h He Hp Hne) as (Hh & Hi & _). apply wp_bind, wp_bind, Hh.
  rewrite (proj2 (Z.eqb_neq n NULL)) by done. destruct (p =? NULL) eqn:E; simpl; [by eapply wp_get_next|].
  apply wp_bind, Hi. rewrite (proj2 (Z.eqb_neq n NULL)) by done. by eapply wp_get_next.
Qed.
Lemma wp_interior p n e Q h : e <> NULL -> p <> NULL -> n <> NULL -> prevs h !! e = Some p -> nexts h !! e = Some n -> Q true h ->
  wp (is_interior e) Q h.
Proof.
  intros He Hp Hn Hpe Hne HQ. destruct (wp_test p n e h He Hpe Hne) as (_ & Hi & _). apply Hi.
  by rewrite (proj2 (Z.eqb_neq p NULL)), (proj2 (Z.eqb_neq n NULL)).
Qed.

(** list_next and list_prev across a cut. *)
Lemma wp_next_cut l X Y Q h : dll h l (X ++ Y) -> Q (succ l Y) h -> wp (list_next (pred l X)) Q h.
Proof.
  intros Hd HQ. destruct (cut_link h l X Y Hd) as [Hn Hp]. eapply wp_next; [| |exact Hn|by eapply dll_prev|exact HQ].
  - eapply dll_null; [exact Hd|apply pred_node].
  - eapply dll_null; [exact Hd|apply succ_node].
Qed.
Lemma wp_prev_cut l X Y Q h : dll h l (X ++ Y) -> Q (pred l X) h -> wp (list_prev (succ l Y)) Q h.
Proof.
  intros Hd HQ. destruct (cut_link h l X Y Hd) as [Hn Hp]. eapply wp_prev; [| |exact Hp|by eapply dll_next|exact HQ].
  - eapply dll_null; [exact Hd|apply succ_node].
  - eapply dll_null; [exact Hd|apply pred_node].
Qed.

(** *** Taking a run out, putting a run in *)

Definition taken_out h l X Y : heap := setp (setn h (pred l X) (succ l Y)) (succ l Y) (pred l X).
Definition put_in h l X f t Y : heap :=
  setp (setn (setn (setp h f (pred l X)) t (succ l Y)) (pred l X) f) (succ l Y) t.

Lemma nodes_ends l X Y : NoDup (nodes l (X ++ Y)) -> l <> succ l Y /\ l + 8 <> pred l X.
Proof.
  intros H. assert (NoDup ((l :: X) ++ (Y ++ [l + 8]))) as Hn by (unfold nodes in H; by rewrite <- app_assoc in H). split; intros E.
  - apply (NoDup_apart _ _ l Hn); [by left|]. pose proof (succ_in l Y) as Hi. by rewrite <- E in Hi.
  - apply (NoDup_apart _ _ (l + 8) Hn); [pose proof (pred_in l X) as Hi; by rewrite <- E in Hi|]. set_solver.
Qed.

Lemma nodes_elem l X x : x ∈ nodes l X <-> x = l \/ x ∈ X \/ x = l + 8.
Proof. unfold nodes. rewrite elem_of_cons, elem_of_app, list_elem_of_singleton. tauto. Qed.

Lemma dll_out h l X M f t Y : dll h l (X ++ M ++ Y) -> run_of f t M ->
  dll (taken_out h l X Y) l (X ++ Y) /\ chain (taken_out h l X Y) M /\ link h (pred l X) f /\ link h t (succ l Y).
Proof.
  intros [Hc Hh Ht Hnd Hn] Hr. rewrite nodes_cut_mid in Hc.
  assert (NoDup (nodes l (X ++ Y))) as Hnd2.
  { unfold nodes in *. rewrite <- !app_assoc in Hnd. rewrite <- app_assoc. exact (NoDup_drop_mid (l :: X) M (Y ++ [l + 8]) Hnd). }
  destruct (nodes_ends l X Y Hnd2) as [E1 E2]. rewrite nodes_cut_mid in Hnd.
  destruct (chain_out h _ _ M f t _ _ Hc Hr Hnd) as (L1 & L2 & _ & _ & _ & C1 & C2). split_and!; [|done..].
  split; [by rewrite nodes_cut| | |done|].
  - simpl. by rewrite lookup_insert_ne by congruence.
  - simpl. by rewrite lookup_insert_ne by congruence.
  - rewrite nodes_elem in Hn |- *. rewrite !elem_of_app in Hn. rewrite elem_of_app. tauto.
Qed.

Lemma dll_in h l X M f t Y : dll h l (X ++ Y) -> chain h M -> run_of f t M -> NoDup M -> NULL ∉ M -> (forall x, x ∈ M -> x ∉ nodes l (X ++ Y)) ->
  dll (put_in h l X f t Y) l (X ++ M ++ Y).
Proof.
  intros [Hc Hh Ht Hnd Hn] HM Hr HndM HnM Hdis. destruct (nodes_ends l X Y Hnd) as [E1 E2].
  assert (NoDup (nodes l (X ++ M ++ Y))) as Hnd2.
  { assert (NoDup (M ++ nodes l (X ++ Y))) as H by (apply list.NoDup_app; split_and!; [done| |done]; intros x Hx Hy; by eapply Hdis).
    assert (nodes l (X ++ M ++ Y) ≡ₚ M ++ nodes l (X ++ Y)) as -> by (unfold nodes; solve_Permutation). done. }
  assert (f ∈ M /\ t ∈ M) as [Hf Htm].
  { destruct Hr as (M1 & M2 & F1 & F2). split; [rewrite F1; by left|rewrite F2; set_solver]. }
  pose proof (Hdis f Hf) as Hdf. pose proof (Hdis t Htm) as Hdt. rewrite nodes_elem in Hdf, Hdt.
  rewrite nodes_cut in Hc. pose proof Hc as [Ha Hb]%chain_split. change (pred l X :: succ l Y :: rest l Y) with ([pred l X] ++ succ l Y :: rest l Y) in Hb.
  apply chain_right in Hb. rewrite nodes_cut_mid in Hnd2.
  split; [rewrite nodes_cut_mid; by apply chain_in| | |by rewrite nodes_cut_mid|].
  - simpl. rewrite lookup_insert_ne by congruence. rewrite lookup_insert_ne; [done|]. intros ->. tauto.
  - simpl. rewrite lookup_insert_ne by congruence. rewrite lookup_insert_ne; [done|]. intros ->. tauto.
  - rewrite nodes_elem in Hn |- *. rewrite !elem_of_app. rewrite elem_of_app in Hn. tauto.
Qed.

(** *** list_insert, list_remove, list_splice *)

Definition allocated h (e : Z) : Prop := is_Some (prevs h !! e) /\ is_Some (nexts h !! e).

Lemma wp_insert l X Y e Q h : dll h l (X ++ Y) -> e <> NULL -> e ∉ nodes l (X ++ Y) -> allocated h e ->
  (dll (put_in h l X e e Y) l (X ++ e :: Y) -> Q tt (put_in h l X e e Y)) -> wp (list_insert (succ l Y) e) Q h.
Proof.
  intros Hd He Hne [Hp Hn] HQ. destruct (cut_link h l X Y Hd) as [Hcn Hcp].
  assert (e <> succ l Y) as H1 by (intros ->; apply Hne, succ_node). assert (e <> pred l X) as H2 by (intros ->; apply Hne, pred_node).
  unfold list_insert. apply wp_bind.
  eapply wp_has_prev; [by eapply dll_null; [|apply succ_node]|by eapply dll_null; [|apply pred_node]|exact Hcp|by eapply dll_next|].
  apply wp_bind, wp_assert; [by rewrite (proj2 (Z.eqb_neq _ _))|]. apply wp_bind. eapply wp_get_prev; [exact Hcp|].
  apply wp_bind, wp_put_prev; [done|]. apply wp_bind, wp_put_next; [done|]. apply wp_bind.
  eapply wp_get_prev; [simpl; rewrite lookup_insert_ne by done; exact Hcp|].
  apply wp_bind, wp_put_next; [simpl; rewrite lookup_insert_ne by done; by eauto|].
  apply wp_put_prev; [simpl; rewrite lookup_insert_ne by done; by eauto|]. apply HQ.
  apply (dll_in h l X [e] e e Y); [done|done|apply run_single|apply NoDup_singleton|set_solver|]. by intros x ->%list_elem_of_singleton.
Qed.

Lemma wp_remove l X Y e Q h : dll h l (X ++ e :: Y) ->
  (dll (taken_out h l X Y) l (X ++ Y) -> Q (succ l Y) (taken_out h l X Y)) -> wp (list_remove e) Q h.
Proof.
  intros Hd HQ. destruct (dll_out h l X [e] e e Y Hd (run_single e)) as (Hd' & _ & [Ln Lp] & [Rn Rp]).
  assert (pred l X <> NULL) by (eapply dll_null; [exact Hd|apply pred_node]).
  assert (succ l Y <> NULL) by (eapply dll_null; [exact Hd'|apply succ_node]).
  assert (e <> NULL) by (eapply dll_null; [exact Hd|]; apply nodes_elem; rewrite elem_of_app; set_solver).
  assert (e <> pred l X /\ e <> succ l Y) as [Hne1 Hne2].
  { pose proof (d_nodup _ _ _ Hd) as Hnd. change (e :: Y) with ([e] ++ Y) in Hnd. rewrite nodes_cut_mid in Hnd. cbn [app] in Hnd.
    apply list.NoDup_app in Hnd as (_ & _ & [Ha [Hb _]%list.NoDup_cons]%list.NoDup_cons). set_solver. }
  unfold list_remove. apply wp_bind. eapply wp_interior; [| | |exact Lp|exact Rn|]; [done..|].
  apply wp_bind, wp_assert; [done|]. apply wp_bind. eapply wp_get_prev; [exact Lp|]. apply wp_bind. eapply wp_get_next; [exact Rn|].
  apply wp_bind, wp_put_next; [by eauto|]. apply wp_bind. eapply wp_get_next; [simpl; rewrite lookup_insert_ne by done; exact Rn|].
  apply wp_bind. eapply wp_get_prev; [exact Lp|]. apply wp_bind, wp_put_prev; [by eauto|].
  eapply wp_get_next; [simpl; rewrite lookup_insert_ne by done; exact Rn|]. by apply HQ.
Qed.

(** Elements [M], from [f] up to the element before [succ l Y], move in
    front of [succ l V]. *)
Lemma wp_splice l X M f t Y U V Q h : dll h l (X ++ M ++ Y) -> run_of f t M -> X ++ Y = U ++ V ->
  (forall h', dll h' l (U ++ M ++ V) -> Q tt h') -> wp (list_splice (succ l V) f (succ l Y)) Q h.
Proof.
  intros Hd Hr E HQ. destruct (dll_out h l X M f t Y Hd Hr) as (Hd' & HM & [Ln Lp] & [Rn Rp]).
  assert (forall x, x ∈ M -> x ∉ nodes l (X ++ Y)) as Hdis.
  { intros x Hx Hin. pose proof (d_nodup _ _ _ Hd) as Hnd. unfold nodes in Hnd, Hin. rewrite <- !app_assoc in Hnd. rewrite <- app_assoc in Hin.
    rewrite app_comm_cons in Hnd, Hin. apply list.NoDup_app in Hnd as (_ & Hn1 & (_ & Hn2 & _)%list.NoDup_app).
    apply elem_of_app in Hin as [Hin|Hin]; [|by apply (Hn2 x)]. apply (Hn1 x Hin). apply elem_of_app. by left. }
  assert (NoDup M /\ NULL ∉ M) as [HndM HnM].
  { pose proof (d_nodup _ _ _ Hd) as Hnd. pose proof (d_null _ _ _ Hd) as Hnn. rewrite nodes_cut_mid in Hnd. rewrite nodes_elem, !elem_of_app in Hnn.
    apply list.NoDup_app in Hnd as (_ & _ & [_ (? & _)%list.NoDup_app]%list.NoDup_cons). split; [done|tauto]. }
  assert (f ∈ M /\ t ∈ M) as [Hf Htm].
  { destruct Hr as (M1 & M2 & F1 & F2). split; [rewrite F1; by left|rewrite F2; set_solver]. }
  assert (forall x, x ∈ nodes l (X ++ Y) -> x <> f /\ x <> t) as Hout.
  { intros x Hx. split; intros ->; [exact (Hdis _ Hf Hx)|exact (Hdis _ Htm Hx)]. }
  assert (f <> NULL /\ t <> NULL) as [Hf0 Ht0] by (split; intros E0; rewrite E0 in *; done).
  assert (forall x, x ∈ nodes l (X ++ Y) -> x <> NULL) as Hnz by (intros x; by eapply dll_null).
  pose proof (pred_node l X Y) as NpX. pose proof (succ_node l X Y) as NsY.
  pose proof (pred_node l U V) as NpU. pose proof (succ_node l U V) as NsV. rewrite <- E in NpU, NsV.
  assert (is_Some (prevs h !! f) /\ is_Some (nexts h !! t)) as [Sf St] by eauto.
  assert (exists p, prevs h !! t = Some p /\ p <> NULL) as (pt & Hpt & Hpt0).
  { destruct Hr as (M1 & M2 & F1 & F2). destruct M2 as [|z M2 _] using rev_ind.
    - rewrite F2 in F1. injection F1 as E3 _. rewrite E3. exists (pred l X). split; [done|]. by apply Hnz.
    - exists z. pose proof (d_chain _ _ _ Hd) as Hc. rewrite F2 in Hc. replace (X ++ ((M2 ++ [z]) ++ [t]) ++ Y) with ((X ++ M2 ++ [z]) ++ (t :: Y)) in Hc by (by rewrite <- !app_assoc).
      rewrite nodes_cut in Hc. apply chain_link in Hc as [_ Hc]. unfold pred in Hc. rewrite app_assoc, last_last in Hc. split; [done|].
      intros ->. apply HnM. rewrite F2, !elem_of_app, !list_elem_of_singleton. tauto. }
  assert (exists n, nexts h !! f = Some n /\ n <> NULL) as (nf & Hnf & Hnf0).
  { destruct Hr as (M1 & M2 & F1 & F2). destruct M1 as [|z M1].
    - rewrite F1 in F2. destruct M2 as [|? M2]; [|by destruct M2]. injection F2 as E3. rewrite E3. exists (succ l Y). split; [done|]. by apply Hnz.
    - exists z. pose proof (d_chain _ _ _ Hd) as Hc. rewrite F1 in Hc. replace (X ++ (f :: z :: M1) ++ Y) with ((X ++ [f]) ++ (z :: M1 ++ Y)) in Hc by (by rewrite <- !app_assoc).
      rewrite nodes_cut in Hc. apply chain_link in Hc as [Hc _]. unfold pred in Hc. rewrite last_last in Hc. split; [done|].
      intros ->. apply HnM. rewrite F1. right. by left. }
  assert (is_Some (nexts h !! succ l V) /\ prevs (taken_out h l X Y) !! succ l V = Some (pred l U) /\
          is_Some (nexts (taken_out h l X Y) !! succ l V)) as (Snv & Hpv & _).
  { rewrite E in Hd'. destruct (cut_link _ l U V Hd') as [_ Hcp]. pose proof (dll_next _ l U V Hd') as Hnx. split_and!; [|done|done].
    unfold taken_out in Hnx. simpl in Hnx. destruct (decide (pred l X = succ l V)) as [Eq|Hne]; [rewrite <- Eq; by eauto|]. by rewrite lookup_insert_ne in Hnx. }
  assert (exists p, prevs h !! succ l V = Some p /\ p <> NULL) as (pv & Hpv0 & Hpvz).
  { unfold taken_out in Hpv. simpl in Hpv. destruct (decide (succ l Y = succ l V)) as [Eq|Hne].
    - rewrite <- Eq. exists t. done.
    - rewrite lookup_insert_ne in Hpv by done. exists (pred l U). split; [done|]. by apply Hnz. }
  unfold list_splice. apply wp_bind. eapply wp_has_prev; [by apply Hnz|exact Hpvz|exact Hpv0|done|].
  rewrite (proj2 (Z.eqb_neq f (succ l Y))) by (apply not_eq_sym; by apply Hout).
  apply wp_bind. eapply wp_prev; [by apply Hnz|exact Ht0|exact Rp| |].
  { pose proof (dll_next h l (X ++ M) Y) as H. rewrite <- app_assoc in H. by apply H. }
  apply wp_bind. eapply wp_interior; [done| |exact Hnf0|exact Lp|exact Hnf|]; [by apply Hnz|]. apply wp_bind, wp_assert; [done|].
  apply wp_bind. eapply wp_interior; [done|exact Hpt0| |exact Hpt|exact Rn|]; [by apply Hnz|]. apply wp_bind, wp_assert; [done|].
  destruct (Hout _ NpX) as [X1 X2]. destruct (Hout _ NsY) as [Y1 Y2]. destruct (Hout _ NpU) as [U1 U2]. destruct (Hout _ NsV) as [V1 V2].
  apply wp_bind. eapply wp_get_prev; [exact Lp|]. apply wp_bind. eapply wp_get_next; [exact Rn|]. apply wp_bind, wp_put_next; [by eauto|].
  apply wp_bind. eapply wp_get_next; [simpl; rewrite lookup_insert_ne by done; exact Rn|]. apply wp_bind. eapply wp_get_prev; [exact Lp|].
  apply wp_bind, wp_put_prev; [by eauto|]. fold (taken_out h l X Y). set (h1 := taken_out h l X Y) in *.
  assert (is_Some (prevs h1 !! f) /\ is_Some (nexts h1 !! t)) as [S1f S1t] by (unfold h1, taken_out; simpl; rewrite !lookup_insert_ne by done; by eauto).
  rewrite E in Hd', Hdis. destruct (cut_link _ l U V Hd') as [Hcn Hcp].
  apply wp_bind. eapply wp_get_prev; [exact Hcp|]. apply wp_bind, wp_put_prev; [done|]. apply wp_bind, wp_put_next; [done|].
  apply wp_bind. eapply wp_get_prev; [simpl; rewrite lookup_insert_ne by done; exact Hcp|].
  apply wp_bind, wp_put_next; [simpl; rewrite lookup_insert_ne by done; by eauto|].
  apply wp_put_prev; [simpl; rewrite lookup_insert_ne by done; by eauto|].
  apply HQ. by apply dll_in.
Qed.

(** *** Queues *)

Lemma dll_addr h l X : dll h l X -> l <> NULL /\ l + 8 <> NULL.
Proof. intros Hd. split; (eapply dll_null; [exact Hd|]; apply nodes_elem; tauto). Qed.

Lemma wp_end l Q h : l <> NULL -> Q (l + 8) h -> wp (list_end l) Q h.
Proof. intros Hl HQ. apply wp_bind, wp_assert; [by rewrite (proj2 (Z.eqb_neq _ _))|]. exact HQ. Qed.
Lemma wp_begin l X Q h : dll h l X -> Q (succ l X) h -> wp (list_begin l) Q h.
Proof.
  intros Hd HQ. apply wp_bind, wp_assert; [rewrite (proj2 (Z.eqb_neq _ _)); [done|by eapply dll_addr]|].
  destruct (cut_link h l [] X Hd) as [Hn _]. eapply wp_get_next; [exact Hn|exact HQ].
Qed.

Lemma wp_push_back l X e Q h : dll h l X -> e <> NULL -> e ∉ nodes l X -> allocated h e ->
  (forall h', dll h' l (X ++ [e]) -> Q tt h') -> wp (list_push_back l e) Q h.
Proof.
  intros Hd He Hne Ha HQ. unfold list_push_back, list_end. apply wp_bind, wp_bind, wp_assert.
  - rewrite (proj2 (Z.eqb_neq _ _)); [done|]. eapply dll_null; [exact Hd|]. apply nodes_elem. by left.
  - apply wp_ret. change (tail_of l) with (succ l []). apply (wp_insert l X []); rewrite ?app_nil_r; auto.
Qed.

Lemma wp_pop_front l x X Q h : dll h l (x :: X) -> (forall h', dll h' l X -> Q x h') -> wp (list_pop_front l) Q h.
Proof.
  intros Hd HQ. destruct (cut_link h l [] (x :: X) Hd) as [Hn _]. change (succ l (x :: X)) with x in Hn. change (pred l []) with l in Hn.
  assert (l <> NULL) as Hl by (eapply dll_null; [exact Hd|]; apply nodes_elem; by left).
  assert (x <> l + 8) as Hx.
  { pose proof (d_nodup _ _ _ Hd) as [_ [Hnd _]%list.NoDup_cons]%list.NoDup_cons. intros ->. apply Hnd. set_solver. }
  unfold list_pop_front, list_front, list_empty, list_begin, list_end.
  do 4 apply wp_bind. apply wp_assert; [by rewrite (proj2 (Z.eqb_neq _ _))|]. eapply wp_get_next; [exact Hn|].
  do 2 apply wp_bind. apply wp_assert; [by rewrite (proj2 (Z.eqb_neq _ _))|]. apply wp_ret, wp_ret. apply wp_bind.
  apply wp_assert; [unfold tail_of; by rewrite (proj2 (Z.eqb_neq _ _))|]. eapply wp_get_next; [exact Hn|].
  apply wp_bind. apply (wp_remove l [] X x); [done|]. intros Hd'. apply wp_ret. by apply HQ.
Qed.

(** A list is a FIFO queue.  list_push_back appends an element that is
    in no list to the sequence, list_pop_front returns the first element
    and leaves the rest, and neither fails an assertion. *)
Theorem list_is_fifo h l X e : dll h l X -> e <> NULL -> e ∉ nodes l X -> allocated h e ->
  exists h1 h2 x X', list_push_back l e h = Ok (tt, h1) /\ dll h1 l (X ++ [e]) /\
    X ++ [e] = x :: X' /\ list_pop_front l h1 = Ok (x, h2) /\ dll h2 l X'.
Proof.
  intros Hd He Hne Ha. destruct (wp_Ok (list_push_back l e) (fun _ h' => dll h' l (X ++ [e])) h) as ([] & h1 & Hp & Hd1).
  { by apply (wp_push_back l X). }
  destruct (X ++ [e]) as [|x X'] eqn:E; [by destruct X|].
  destruct (wp_Ok (list_pop_front l) (fun y h' => y = x /\ dll h' l X') h1) as (y & h2 & Hf & -> & Hd2).
  { by apply (wp_pop_front l x X'). }
  exists h1, h2, x, X'. split_and!; done.
Qed.

(** *** Reversal *)

(** [h] is [h0] with the two links of the elements of [S] exchanged. *)
Definition swapped (S : list Z) h0 h : Prop :=
  forall x, if decide (x ∈ S) then prevs h !! x = nexts h0 !! x /\ nexts h !! x = prevs h0 !! x
            else prevs h !! x = prevs h0 !! x /\ nexts h !! x = nexts h0 !! x.

Lemma wp_reverse_loop n l P X h0 h : dll h0 l (P ++ X) -> (length X <= n)%nat -> swapped P h0 h ->
  wp (reverse_loop n (l + 8) (succ l X)) (fun _ h' => swapped (P ++ X) h0 h') h.
Proof.
  revert n P h. induction X as [|x X IH]; intros n P h Hd Hn Hs.
  - destruct n; cbn [reverse_loop]; unfold succ; simpl; rewrite Z.eqb_refl, app_nil_r; done.
  - destruct n as [|n]; [simpl in Hn; lia|]. cbn [reverse_loop]. change (succ l (x :: X)) with x.
    assert (NoDup ((l :: P) ++ (x :: X) ++ [l + 8])) as Hnd by (pose proof (d_nodup _ _ _ Hd) as H; unfold nodes in H; by rewrite <- app_assoc in H).
    assert ((x ∉ P) /\ x <> l + 8) as [HxP Hx8].
    { split; [intros Hx; apply (NoDup_apart _ _ x Hnd); [by right|by left]|]. apply list.NoDup_app in Hnd as (_ & _ & [Hx _]%list.NoDup_cons).
      apply not_elem_of_app in Hx as [_ Hx]. set_solver. }
    rewrite (proj2 (Z.eqb_neq _ _)) by done. destruct (cut_link h0 l P (x :: X) Hd) as [_ Hp].
    replace (P ++ x :: X) with ((P ++ [x]) ++ X) in Hd |- * by (by rewrite <- app_assoc).
    destruct (cut_link h0 l (P ++ [x]) X Hd) as [Hnx _]. change (succ l (x :: X)) with x in Hp. unfold pred in Hnx. rewrite last_last in Hnx.
    pose proof (Hs x) as Hsx. rewrite decide_False in Hsx by done. destruct Hsx as [Hpx Hnxx]. rewrite Hp in Hpx. rewrite Hnx in Hnxx.
    apply wp_bind. eapply wp_get_prev; [exact Hpx|]. apply wp_bind. eapply wp_get_next; [exact Hnxx|]. apply wp_bind, wp_put_prev; [by eauto|].
    apply wp_bind, wp_put_next; [by eauto|]. apply wp_bind. eapply wp_get_prev; [simpl; by rewrite lookup_insert_eq|].
    apply IH; [done|simpl in Hn; lia|]. intros y. destruct (decide (x = y)) as [<-|Hxy].
    + rewrite decide_True by set_solver. simpl. by rewrite !lookup_insert_eq, Hp, Hnx.
    + simpl. rewrite !lookup_insert_ne by done. pose proof (Hs y) as Hsy. destruct (decide (y ∈ P)).
      * by rewrite decide_True by (apply elem_of_app; by left).
      * rewrite decide_False; [done|]. rewrite elem_of_app, list_elem_of_singleton. naive_solver.
Qed.

Lemma chain_rev h h' X : chain h X -> (forall x, x ∈ X -> prevs h' !! x = nexts h !! x /\ nexts h' !! x = prevs h !! x) -> chain h' (rev X).
Proof.
  induction X as [|x X IH]; [done|]. destruct X as [|y X]; [done|]. intros [[H1 H2] Hc] Hsw. cbn [rev] in *.
  rewrite <- app_assoc. apply chain_join; [apply IH; [done|]; intros; apply Hsw; by right| |done].
  destruct (Hsw x) as [Ex _]; [by left|]. destruct (Hsw y) as [_ Ey]; [right; by left|]. split; congruence.
Qed.

(** The first and last element of a nonempty list. *)
Lemma nonempty_run x X : run_of x (List.last X x) (x :: X).
Proof.
  exists X, (removelast (x :: X)). split; [done|]. transitivity (removelast (x :: X) ++ [List.last (x :: X) x]); [by apply app_removelast_last|]. by destruct X.
Qed.

(** List_reverse reverses the sequence that the list links, without a
    failed assertion, after one step of its loop per element. *)
Theorem list_reverse_reverses n h l X : dll h l X -> (length X <= n)%nat ->
  exists h', list_reverse n l h = Ok (tt, h') /\ dll h' l (rev X).
Proof.
  intros Hd Hn. assert (l <> NULL) as Hl by (eapply dll_null; [exact Hd|]; apply nodes_elem; by left).
  destruct (cut_link h l [] X Hd) as [Hb _]. change (pred l []) with l in Hb.
  assert (wp (list_reverse n l) (fun _ h' => dll h' l (rev X)) h) as Hwp; [|by destruct (wp_Ok _ _ _ Hwp) as ([] & h' & ? & ?); eauto].
  unfold list_reverse, list_empty, list_begin, list_end. do 3 apply wp_bind. apply wp_assert; [by rewrite (proj2 (Z.eqb_neq _ _))|].
  eapply wp_get_next; [exact Hb|]. do 2 apply wp_bind. apply wp_assert; [by rewrite (proj2 (Z.eqb_neq _ _))|]. apply wp_ret, wp_ret.
  destruct X as [|f X]; [unfold succ, tail_of; simpl; rewrite Z.eqb_refl; by apply wp_ret|].
  change (succ l (f :: X)) with f in *. unfold tail_of. set (g := List.last X f). destruct (nonempty_run f X) as (M1 & M2 & _ & E2). fold g in E2.
  pose proof (d_nodup _ _ _ Hd) as Hnd. pose proof (d_null _ _ _ Hd) as Hnull.
  assert (forall x, x ∈ f :: X -> x <> l /\ x <> l + 8) as Hin.
  { intros x Hx. unfold nodes in Hnd. pose proof Hnd as [Hn1 (_ & Hn2 & _)%list.NoDup_app]%list.NoDup_cons. split.
    - intros ->. apply Hn1. apply elem_of_app. by left.
    - intros ->. apply (Hn2 _ Hx). by apply list_elem_of_singleton. }
  assert (l <> l + 8) as Hlt by lia.
  assert (f ∈ f :: X /\ g ∈ f :: X) as [Hf Hg] by (split; [by left|rewrite E2; set_solver]).
  destruct (Hin f Hf) as [F1 F2]. destruct (Hin g Hg) as [G1 G2].
  rewrite (proj2 (Z.eqb_neq f (l + 8))) by done.
  do 2 apply wp_bind. apply wp_assert; [by rewrite (proj2 (Z.eqb_neq _ _))|]. eapply wp_get_next; [exact Hb|].
  do 2 apply wp_bind. apply wp_assert; [by rewrite (proj2 (Z.eqb_neq _ _))|]. apply wp_ret. apply wp_bind.
  eapply wp_mono; [apply (wp_reverse_loop n l [] (f :: X) h h Hd Hn)|].
  { intros x. rewrite decide_False by apply not_elem_of_nil. done. }
  intros [] h1 Hs. cbn [app] in Hs.
  assert (forall x, x ∉ f :: X -> prevs h1 !! x = prevs h !! x /\ nexts h1 !! x = nexts h !! x) as Ho.
  { intros x Hx. pose proof (Hs x) as H. by rewrite decide_False in H. }
  assert (forall x, x ∈ f :: X -> prevs h1 !! x = nexts h !! x /\ nexts h1 !! x = prevs h !! x) as Hi.
  { intros x Hx. pose proof (Hs x) as H. by rewrite decide_True in H. }
  assert ((l ∉ f :: X) /\ l + 8 ∉ f :: X) as [Ol Ot] by (split; intros H; by destruct (Hin _ H)).
  destruct (Ho l Ol) as [Pl Nl]. destruct (Ho _ Ot) as [Pt Nt]. destruct (Hi f Hf) as [Pf Nf]. destruct (Hi g Hg) as [Pg Ng].
  destruct (cut_link h l [] (f :: X) Hd) as [_ Hfl]. change (succ l (f :: X)) with f in Hfl. change (pred l []) with l in Hfl.
  pose proof (cut_link h l (f :: X) []) as Hgt. rewrite app_nil_r in Hgt. destruct (Hgt Hd) as [Hgn Hgp]. clear Hgt.
  assert (pred l (f :: X) = g) as Eg by (unfold pred; rewrite E2; apply last_last). rewrite Eg in Hgn, Hgp. change (succ l []) with (l + 8) in *.
  rewrite Hb in Nl. rewrite Hgp in Pt. rewrite Hfl in Nf. rewrite Hgn in Pg.
  unfold head_of. apply wp_bind. eapply wp_get_next; [exact Nl|]. apply wp_bind. eapply wp_get_prev; [exact Pt|].
  apply wp_bind, wp_put_next; [by eauto|]. apply wp_bind, wp_put_prev; [by eauto|]. apply wp_bind. eapply wp_get_next; [simpl; by rewrite lookup_insert_eq|].
  apply wp_bind. eapply wp_get_prev; [simpl; by rewrite lookup_insert_eq|].
  apply wp_bind. eapply wp_get_prev; [simpl; rewrite lookup_insert_ne by done; exact Pg|].
  apply wp_bind. eapply wp_get_next; [simpl; rewrite lookup_insert_ne by done; exact Nf|].
  apply wp_bind, wp_put_prev; [simpl; rewrite lookup_insert_ne by done; by eauto|].
  apply wp_put_next; [simpl; rewrite lookup_insert_ne by done; by eauto|].
  assert (nodes l (rev (f :: X)) ≡ₚ nodes l (f :: X)) as Hperm by (unfold nodes; rewrite <- Permutation_rev; done).
  split; [| | |by rewrite Hperm|by rewrite Hperm].
  - unfold nodes. assert (rev (f :: X) = g :: rev M2) as Er by (rewrite E2, rev_app_distr; done).
    rewrite Er. cbn [app]. split; [|].
    { split; simpl; [rewrite lookup_insert_ne by done; by rewrite lookup_insert_eq|by rewrite lookup_insert_eq]. }
    change (g :: rev M2 ++ [l + 8]) with ((g :: rev M2) ++ [l + 8]). rewrite <- Er. cbn [rev]. rewrite <- app_assoc.
    apply chain_join; [|split; simpl; [by rewrite lookup_insert_eq|rewrite lookup_insert_ne by done; by rewrite lookup_insert_eq]|done].
    change (rev X ++ [f]) with (rev (f :: X)).
    assert (NoDup (rev (f :: X))) as Hndr by (rewrite <- Permutation_rev; unfold nodes in Hnd; by apply list.NoDup_cons in Hnd as [_ (? & _)%list.NoDup_app]).
    assert (forall x, x ∈ rev (f :: X) -> x <> l /\ x <> l + 8) as Hinr by (intros x; rewrite <- Permutation_rev; apply Hin).
    assert (chain h1 (rev (f :: X))) as Hc1.
    { apply (chain_rev h); [|done]. pose proof (d_chain _ _ _ Hd) as Hc. unfold nodes in Hc. change (l :: (f :: X) ++ [l + 8]) with ([l] ++ ((f :: X) ++ [l + 8])) in Hc.
      apply chain_right in Hc. by apply chain_left in Hc. }
    apply chain_setn; [cbn [rev]; rewrite removelast_last; cbn [rev] in Hndr; apply list.NoDup_app in Hndr as (_ & Hx & _); intros H; by apply (Hx f H), list_elem_of_singleton|].
    apply chain_setp; [rewrite Er in Hndr |- *; simpl; by apply list.NoDup_cons in Hndr as [? _]|].
    apply chain_setp; [intros H; destruct (Hinr (l + 8)) as [_ ?]; [|done]; rewrite Er in H |- *; by right|].
    apply chain_setn; [|done]. intros H%removelast_in. by destruct (Hinr l H).
  - simpl. rewrite !lookup_insert_ne by done. by rewrite Pl, (d_head _ _ _ Hd).
  - simpl. rewrite !lookup_insert_ne by done. by rewrite Nt, (d_tail _ _ _ Hd).
Qed.
End lists.

(** ** A concrete list *)

(** The list at 1000 links elements 300, 100 and 200; 400 is unlinked. *)
Definition sample_heap : heap :=
  Heap (<[1000 := NULL]> (<[300 := 1000]> (<[100 := 300]> (<[200 := 100]> (<[1008 := 200]> {[400 := NULL]})))))
       (<[1000 := 300]> (<[300 := 100]> (<[100 := 200]> (<[200 := 1008]> (<[1008 := NULL]> {[400 := NULL]}))))).

Lemma sample_dll : dll sample_heap 1000 [300; 100; 200].
Proof.
  split; [repeat split; vm_compute; reflexivity|reflexivity|reflexivity| |];
    [apply (bool_decide_unpack _); vm_compute; exact I|intros H; by apply (bool_decide_pack _) in H; vm_compute in H].
Qed.

Lemma list_is_fifo_witness : exists h1 h2, list_push_back 1000 400 sample_heap = Ok (tt, h1) /\ list_pop_front 1000 h1 = Ok (300, h2) /\
  dll h2 1000 [100; 200; 400].
Proof.
  destruct (list_is_fifo sample_heap 1000 [300; 100; 200] 400) as (h1 & h2 & x & X' & H1 & H2 & E & H3 & H4).
  - apply sample_dll.
  - discriminate.
  - intros H. by apply (bool_decide_pack _) in H; vm_compute in H.
  - split; vm_compute; eauto.
  - injection E as <- <-. by exists h1, h2.
Defined.

Lemma list_reverse_reverses_witness : exists h', list_reverse 3 1000 sample_heap = Ok (tt, h') /\ dll h' 1000 [200; 100; 300].
Proof. apply (list_reverse_reverses 3 sample_heap 1000 [300; 100; 200]); [apply sample_dll|simpl; lia]. Defined.
