(* ===== verification/KListSort.v ===== *)
(** * list_sort sorts

    The merge sort of list.c against its reference on sequences: the
    loops over the links compute [split_run], [merge] and passes that
    merge adjacent runs; each pass lowers the number of runs until one is
    left. *)

From Stdlib Require Import Sorting.Sorted.
From S2P Require Import Prelude Memory Wp KList KListLaws.

Section sort.
Variable less : Z -> Z -> bool.

(** [x] may stand before [y].  The comparison is asymmetric; nothing else
    is needed for neighbours to be in order. *)
Definition le (x y : Z) : Prop := less y x = false.
Hypothesis less_asym : forall x y, less x y = true -> le x y.

Implicit Types (h : heap) (l : Z) (X Y P A B : list Z).

(** ** Sequences *)

(** The rest of the nondecreasing run that starts at [a], and what follows. *)
Fixpoint split_run (a : Z) X : list Z * list Z :=
  match X with
  | [] => ([], [])
  | x :: X' => if less x a then ([], X) else let '(r, s) := split_run x X' in (x :: r, s)
  end.

Fixpoint merge A : list Z -> list Z :=
  match A with
  | [] => fun B => B
  | a :: A' =>
      fix merge_b B := match B with
      | [] => A
      | b :: B' => if less b a then b :: merge_b B' else a :: merge A' B
      end
  end.

(** The number of maximal nondecreasing runs. *)
Fixpoint runs X : Z :=
  match X with
  | [] => 0
  | x :: r => match r with [] => 1 | y :: _ => (if less y x then 1 else 0) + runs r end
  end.

Lemma merge_nil A : merge A [] = A.
Proof. by destruct A. Qed.

Lemma merge_cons a A b B : merge (a :: A) (b :: B) = if less b a then b :: merge (a :: A) B else a :: merge A (b :: B).
Proof. done. Qed.

Lemma merge_perm A B : merge A B ≡ₚ A ++ B.
Proof.
  revert B. induction A as [|a A IHA]; intros B; [done|]. induction B as [|b B IHB]; [by rewrite merge_nil, app_nil_r|].
  rewrite merge_cons. destruct (less b a).
  - rewrite IHB. solve_Permutation.
  - rewrite IHA. done.
Qed.

Lemma HdRel_merge x A B : HdRel le x A -> HdRel le x B -> HdRel le x (merge A B).
Proof.
  destruct A as [|a A]; [done|]. destruct B as [|b B]; [by rewrite merge_nil|]. rewrite merge_cons. intros Ha Hb.
  inversion_clear Ha. inversion_clear Hb. destruct (less b a); by constructor.
Qed.

Lemma merge_sorted A B : Sorted le A -> Sorted le B -> Sorted le (merge A B).
Proof.
  revert B. induction A as [|a A IHA]; intros B HA HB; [done|]. induction B as [|b B IHB]; [by rewrite merge_nil|].
  rewrite merge_cons. inversion_clear HA as [|? ? HA1 HA2]. inversion_clear HB as [|? ? HB1 HB2]. destruct (less b a) eqn:E.
  - constructor; [by apply IHB|]. apply HdRel_merge; [constructor; by apply less_asym|done].
  - constructor; [apply IHA; [done|by constructor]|]. apply HdRel_merge; [done|by constructor].
Qed.

Lemma split_run_ok a X r s : split_run a X = (r, s) -> X = r ++ s /\ Sorted le (a :: r) /\ runs (a :: X) = 1 + runs s.
Proof.
  revert a r s. induction X as [|x X IH]; intros a r s; cbn [split_run].
  - intros [= <- <-]. split_and!; [done|repeat constructor|done].
  - destruct (less x a) eqn:E.
    + intros [= <- <-]. split_and!; [done|repeat constructor|]. cbn [runs]. by rewrite E.
    + destruct (split_run x X) as [r' s'] eqn:F. intros [= <- <-]. destruct (IH _ _ _ F) as (-> & Hs & Hr). split_and!; [done| |].
      * constructor; [done|]. by constructor.
      * change (runs (a :: x :: r' ++ s')) with ((if less x a then 1 else 0) + runs (x :: r' ++ s')). rewrite E, Hr. lia.
Qed.

Lemma runs_nonneg X : 0 <= runs X.
Proof. induction X as [|x X IH]; [done|]. destruct X as [|y X]; [done|]. cbn [runs] in *. destruct (less y x); lia. Qed.
Lemma runs_pos x X : 1 <= runs (x :: X).
Proof. revert x. induction X as [|y X IH]; intros x; [done|]. specialize (IH y). cbn [runs] in *. destruct (less y x); lia. Qed.
Lemma runs_length X : runs X <= Z.of_nat (length X).
Proof. induction X as [|x X IH]; [done|]. destruct X as [|y X]; [done|]. cbn [runs length] in *. destruct (less y x); lia. Qed.

Lemma runs_app X Y : runs (X ++ Y) <= runs X + runs Y.
Proof.
  induction X as [|x X IH]; cbn [app]; [cbn; lia|]. destruct X as [|y X].
  - cbn [app runs]. destruct Y as [|y Y]; [done|]. destruct (less y x); lia.
  - cbn [app] in *. change (runs (x :: y :: X ++ Y)) with ((if less y x then 1 else 0) + runs (y :: X ++ Y)).
    change (runs (x :: y :: X)) with ((if less y x then 1 else 0) + runs (y :: X)). lia.
Qed.

Lemma sorted_runs X : Sorted le X -> runs X <= 1.
Proof.
  induction 1 as [|x X Hs IH Hh]; [done|]. destruct X as [|y X]; [done|]. inversion_clear Hh as [|? ? Hle].
  change (runs (x :: y :: X)) with ((if less y x then 1 else 0) + runs (y :: X)). unfold le in Hle. rewrite Hle. lia.
Qed.
Lemma runs_sorted X : runs X <= 1 -> Sorted le X.
Proof.
  induction X as [|x X IH]; [constructor|]. destruct X as [|y X]; [repeat constructor|].
  change (runs (x :: y :: X)) with ((if less y x then 1 else 0) + runs (y :: X)). pose proof (runs_pos y X).
  destruct (less y x) eqn:E; [lia|]. intros. constructor; [apply IH; lia|]. by constructor.
Qed.

(** ** The loops *)

Lemma pred_snoc l X a : pred l (X ++ [a]) = a.
Proof. unfold pred. apply last_last. Qed.

(** Nodes at different positions differ. *)
Lemma succ_diff h l P x X Y : dll h l (P ++ x :: X ++ Y) -> x <> succ l Y.
Proof.
  intros Hd E. replace (P ++ x :: X ++ Y) with ((P ++ x :: X) ++ Y) in Hd by (by rewrite <- app_assoc).
  apply (nodes_apart h l (P ++ x :: X) Y x Hd); [right; apply elem_of_app; right; by left|]. rewrite E. apply succ_in.
Qed.

Lemma elem_diff h l P x y X Y : dll h l (P ++ x :: X ++ y :: Y) -> x <> y.
Proof. intros Hd. exact (succ_diff h l P x X (y :: Y) Hd). Qed.

Lemma wp_next_at l P a X Q h : dll h l (P ++ a :: X) -> Q (succ l X) h -> wp (list_next a) Q h.
Proof.
  intros Hd HQ. replace (P ++ a :: X) with ((P ++ [a]) ++ X) in Hd by (by rewrite <- app_assoc).
  rewrite <- (pred_snoc l P a) at 1. by eapply wp_next_cut.
Qed.
Lemma wp_prev_at l P a X Q h : dll h l (P ++ a :: X) -> Q a h -> wp (list_prev (succ l X)) Q h.
Proof.
  intros Hd HQ. replace (P ++ a :: X) with ((P ++ [a]) ++ X) in Hd by (by rewrite <- app_assoc).
  eapply wp_prev_cut; [exact Hd|]. by rewrite pred_snoc.
Qed.

Lemma wp_run_loop n l P a X h : dll h l (P ++ a :: X) -> (length X <= n)%nat ->
  wp (run_loop less n a (l + 8)) (fun r h' => h' = h /\ r = succ l (snd (split_run a X))) h.
Proof.
  revert n P a. induction X as [|x X IH]; intros n P a Hd Hn.
  - destruct n; cbn [run_loop]; apply wp_bind; (eapply wp_next_at; [exact Hd|]); unfold succ; simpl; rewrite Z.eqb_refl; done.
  - assert (x <> l + 8) as Hx.
    { replace (P ++ a :: x :: X) with ((P ++ [a]) ++ x :: X ++ []) in Hd by (by rewrite app_nil_r, <- app_assoc). exact (succ_diff h l _ x X [] Hd). }
    destruct n as [|n]; [simpl in Hn; lia|]. cbn [run_loop]. apply wp_bind. eapply wp_next_at; [exact Hd|].
    change (succ l (x :: X)) with x. rewrite (proj2 (Z.eqb_neq x (l + 8))) by done.
    apply wp_bind. change x with (succ l (x :: X)) at 1. eapply wp_prev_at; [exact Hd|]. cbn [split_run]. destruct (less x a) eqn:E; [done|].
    destruct (split_run x X) as [r s] eqn:F. cbn [snd].
    specialize (IH n (P ++ [a]) x). rewrite F in IH. apply IH; [by rewrite <- app_assoc|simpl in Hn; lia].
Qed.

Lemma wp_sorted_loop n l P a X Y h : dll h l (P ++ a :: X ++ Y) -> (length X <= n)%nat -> Sorted le (a :: X) ->
  wp (sorted_loop less n a (succ l Y)) (fun r h' => h' = h /\ r = true) h.
Proof.
  revert n P a. induction X as [|x X IH]; intros n P a Hd Hn Hs.
  - destruct n; cbn [sorted_loop]; apply wp_bind; (eapply wp_next_at; [exact Hd|]); simpl; rewrite Z.eqb_refl; done.
  - assert (x <> succ l Y) as Hx.
    { replace (P ++ a :: (x :: X) ++ Y) with ((P ++ [a]) ++ x :: X ++ Y) in Hd by (by rewrite <- app_assoc). exact (succ_diff h l _ x X Y Hd). }
    destruct n as [|n]; [simpl in Hn; lia|]. cbn [sorted_loop]. apply wp_bind. eapply wp_next_at; [exact Hd|].
    change (succ l ((x :: X) ++ Y)) with x. rewrite (proj2 (Z.eqb_neq x (succ l Y))) by done.
    apply wp_bind. change x with (succ l ((x :: X) ++ Y)) at 1. eapply wp_prev_at; [exact Hd|].
    inversion_clear Hs as [|? ? Hs1 Hh]. inversion_clear Hh as [|? ? Hle]. unfold le in Hle. rewrite Hle.
    apply (IH n (P ++ [a])); [by rewrite <- app_assoc|simpl in Hn; lia|done].
Qed.

Lemma wp_is_sorted n l P X Y h : dll h l (P ++ X ++ Y) -> (length X <= n)%nat -> Sorted le X ->
  wp (is_sorted less n (succ l (X ++ Y)) (succ l Y)) (fun r h' => h' = h /\ r = true) h.
Proof.
  intros Hd Hn Hs. unfold is_sorted. destruct X as [|x X]; [simpl; by rewrite Z.eqb_refl|].
  change (succ l ((x :: X) ++ Y)) with x. rewrite (proj2 (Z.eqb_neq _ _)) by (exact (succ_diff h l P x X Y Hd)).
  apply (wp_sorted_loop n l P x X Y); [done|simpl in Hn; lia|done].
Qed.

Lemma wp_merge_loop n l P A B Y h : dll h l (P ++ A ++ B ++ Y) -> (length A + length B <= n)%nat ->
  wp (merge_loop less n (succ l (A ++ B ++ Y)) (succ l (B ++ Y)) (succ l Y)) (fun _ h' => dll h' l (P ++ merge A B ++ Y)) h.
Proof.
  revert P A B h. induction n as [|n IH]; intros P A B h Hd Hn.
  - destruct A, B; simpl in Hn; try lia. cbn [merge_loop]. by rewrite Z.eqb_refl.
  - destruct A as [|a A]; [cbn [merge_loop]; by rewrite Z.eqb_refl|].
    destruct B as [|b B]; [cbn [merge_loop app]; rewrite (Z.eqb_refl (succ l Y)), orb_true_r, merge_nil; by apply wp_ret|].
    cbn [merge_loop]. change (succ l ((a :: A) ++ (b :: B) ++ Y)) with a. change (succ l ((b :: B) ++ Y)) with b.
    rewrite (proj2 (Z.eqb_neq a b)) by (exact (elem_diff h l P a b A (B ++ Y) Hd)).
    assert (dll h l ((P ++ a :: A) ++ b :: B ++ Y)) as Hd2 by (rewrite <- app_assoc; exact Hd).
    rewrite (proj2 (Z.eqb_neq b (succ l Y))) by (exact (succ_diff h l _ b B Y Hd2)). cbn [orb].
    rewrite merge_cons. destruct (less b a) eqn:E; cbn [negb].
    + apply wp_bind. eapply wp_next_at; [exact Hd2|]. apply wp_bind. eapply wp_prev_at; [exact Hd2|]. apply wp_bind.
      change a with (succ l (a :: A ++ B ++ Y)) at 1.
      eapply (wp_splice l (P ++ a :: A) [b] b b (B ++ Y) P (a :: A ++ B ++ Y)); [exact Hd2|apply run_single|by rewrite <- app_assoc|].
      intros h' Hd'. specialize (IH (P ++ [b]) (a :: A) B h'). rewrite <- !app_assoc in IH. cbn [app] in IH.
      eapply wp_mono; [apply IH; [exact Hd'|simpl in *; lia]|]. intros [] h'' H. exact H.
    + apply wp_bind. eapply wp_next_at; [exact Hd|]. specialize (IH (P ++ [a]) A (b :: B) h). rewrite <- !app_assoc in IH. cbn [app] in IH.
      eapply wp_mono; [apply IH; [exact Hd|simpl in *; lia]|]. intros [] h'' H. exact H.
Qed.

Lemma wp_find_end_of_run n l P a X h : dll h l (P ++ a :: X) -> (length X <= n)%nat ->
  wp (find_end_of_run less n a (l + 8)) (fun r h' => h' = h /\ r = succ l (snd (split_run a X))) h.
Proof.
  intros Hd Hn. destruct (dll_addr _ _ _ Hd) as [_ Ht].
  assert (a <> NULL) by (eapply dll_null; [exact Hd|]; apply nodes_elem; rewrite elem_of_app; set_solver).
  assert (a <> l + 8) by (replace (P ++ a :: X) with (P ++ a :: X ++ []) in Hd by (by rewrite app_nil_r); exact (succ_diff h l P a X [] Hd)).
  unfold find_end_of_run. do 3 (apply wp_bind, wp_assert; [by rewrite (proj2 (Z.eqb_neq _ _))|]). by eapply wp_run_loop.
Qed.

Lemma succ_null h l P X : dll h l (P ++ X) -> succ l X <> NULL.
Proof. intros Hd. eapply dll_null; [exact Hd|apply succ_node]. Qed.

Lemma wp_inplace_merge n l P A B Y h : dll h l (P ++ A ++ B ++ Y) -> (length A + length B <= n)%nat -> Sorted le A -> Sorted le B ->
  wp (inplace_merge less n (succ l (A ++ B ++ Y)) (succ l (B ++ Y)) (succ l Y)) (fun _ h' => dll h' l (P ++ merge A B ++ Y)) h.
Proof.
  intros Hd Hn HA HB. assert (dll h l ((P ++ A) ++ B ++ Y)) as Hd1 by (by rewrite <- app_assoc).
  assert (dll h l ((P ++ A ++ B) ++ Y)) as Hd2 by (by rewrite <- !app_assoc). unfold inplace_merge.
  apply wp_bind, wp_assert; [rewrite (proj2 (Z.eqb_neq _ _)); [done|by eapply succ_null]|].
  apply wp_bind, wp_assert; [rewrite (proj2 (Z.eqb_neq _ _)); [done|by eapply succ_null]|].
  apply wp_bind, wp_assert; [rewrite (proj2 (Z.eqb_neq _ _)); [done|by eapply succ_null]|].
  apply wp_bind. eapply wp_mono; [apply (wp_is_sorted n l P A (B ++ Y)); [done|lia|done]|]. intros r h' [-> ->]. apply wp_bind, wp_assert; [done|].
  apply wp_bind. eapply wp_mono; [apply (wp_is_sorted n l (P ++ A) B Y); [done|lia|done]|]. intros r h' [-> ->]. apply wp_bind, wp_assert; [done|].
  by apply wp_merge_loop.
Qed.

(** What a pass leaves of the elements [X] it has yet to see: it returns
    the number [k] of runs it wrote, fewer than the runs it read unless
    there was only one. *)
Definition passed X (k : Z) Y : Prop :=
  Y ≡ₚ X /\ 0 <= k /\ runs Y <= k <= runs X /\ (2 <= runs X -> k < runs X).

Lemma passed_merge A B X k Y : Sorted le A -> Sorted le B -> passed X k Y -> runs (A ++ B ++ X) = 2 + runs X ->
  passed (A ++ B ++ X) (1 + k) (merge A B ++ Y).
Proof.
  intros HA HB (Hp & Hk0 & Hk & Hlt) Hr. pose proof (sorted_runs _ (merge_sorted A B HA HB)). pose proof (runs_app (merge A B) Y).
  split_and!; [|lia..]. by rewrite merge_perm, Hp, <- app_assoc.
Qed.

Lemma wp_sort_pass n l P X cnt h : dll h l (P ++ X) -> (length X <= n)%nat -> 0 <= cnt -> cnt + Z.of_nat (length X) < 2 ^ 32 ->
  wp (sort_pass less n l (succ l X) cnt) (fun c h' => exists k Y, c = cnt + k /\ passed X k Y /\ dll h' l (P ++ Y)) h.
Proof.
  revert P X cnt h. induction n as [|n IH]; intros P X cnt h Hd Hn Hc0 Hc; destruct (dll_addr _ _ _ Hd) as [Hl _].
  - destruct X; [|simpl in Hn; lia]. cbn [sort_pass]. apply wp_bind, wp_end; [done|]. unfold succ. simpl. rewrite Z.eqb_refl.
    apply wp_ret. exists 0, []. split_and!; [lia|split_and!; simpl; lia || done|done].
  - destruct X as [|a X]; cbn [sort_pass]; (apply wp_bind, wp_end; [done|]).
    { unfold succ. simpl. rewrite Z.eqb_refl. apply wp_ret. exists 0, []. split_and!; [lia|split_and!; simpl; lia || done|done]. }
    change (succ l (a :: X)) with a.
    assert (a <> l + 8) by (replace (P ++ a :: X) with (P ++ a :: X ++ []) in Hd by (by rewrite app_nil_r); exact (succ_diff h l P a X [] Hd)).
    rewrite (proj2 (Z.eqb_neq _ _)) by done. apply wp_bind, wp_end; [done|]. simpl length in *.
    apply wp_bind. eapply wp_mono; [eapply wp_find_end_of_run; [exact Hd|lia]|]. intros r h' [-> ->]. destruct (split_run a X) as [A R] eqn:F1.
    destruct (split_run_ok _ _ _ _ F1) as (-> & HsA & Hr1). cbn [snd]. apply wp_bind, wp_end; [done|]. rewrite u32_small by lia.
    destruct R as [|b R].
    { unfold succ. simpl hd. rewrite Z.eqb_refl. apply wp_ret. exists 1, (a :: A). rewrite app_nil_r in *.
      split_and!; [done| |done]. assert (runs (a :: A) = 1) as Hr by exact Hr1. unfold passed. rewrite Hr. split_and!; [done|lia..]. }
    assert (dll h l ((P ++ a :: A) ++ b :: R)) as Hd1 by (rewrite <- app_assoc; exact Hd). change (succ l (b :: R)) with b.
    assert (b <> l + 8) by (replace ((P ++ a :: A) ++ b :: R) with ((P ++ a :: A) ++ b :: R ++ []) in Hd1 by (by rewrite app_nil_r); exact (succ_diff h l _ b R [] Hd1)).
    rewrite (proj2 (Z.eqb_neq _ _)) by done. apply wp_bind, wp_end; [done|]. rewrite length_app in Hn, Hc. simpl in Hn, Hc.
    apply wp_bind. eapply wp_mono; [eapply wp_find_end_of_run; [exact Hd1|lia]|]. intros r h' [-> ->]. destruct (split_run b R) as [B T] eqn:F2.
    destruct (split_run_ok _ _ _ _ F2) as (-> & HsB & Hr2). cbn [snd]. rewrite length_app in Hn, Hc. apply wp_bind.
    eapply wp_mono; [apply (wp_inplace_merge (S n) l P (a :: A) (b :: B) T); [exact Hd|simpl; lia|done|done]|]. intros [] h' Hd'.
    specialize (IH (P ++ merge (a :: A) (b :: B)) T (cnt + 1) h'). rewrite <- app_assoc in IH.
    eapply wp_mono; [apply IH; [done|lia|lia|lia]|]. intros c h'' (k & Y & -> & Hp & Hd'').
    exists (1 + k), (merge (a :: A) (b :: B) ++ Y). split_and!; [lia| |by rewrite <- app_assoc in Hd''].
    apply (passed_merge (a :: A) (b :: B)); [done|done|done|]. cbn [app] in *. lia.
Qed.

Lemma wp_sort_loop n m l X h : dll h l X -> (length X <= n)%nat -> Z.of_nat (length X) < 2 ^ 32 -> (1 <= m)%nat -> runs X <= Z.of_nat m ->
  wp (sort_loop less n m l) (fun _ h' => exists Y, Y ≡ₚ X /\ Sorted le Y /\ dll h' l Y) h.
Proof.
  revert X h. induction m as [|m IH]; intros X h Hd Hn Hlen Hm Hr; [lia|]. cbn [sort_loop]. apply wp_bind. eapply wp_begin; [exact Hd|].
  apply wp_bind. eapply wp_mono; [apply (wp_sort_pass n l [] X 0); [done|done|lia|lia]|].
  intros c h' (k & Y & -> & (Hp & Hk0 & Hk & Hlt) & Hd'). destruct (Z.ltb_spec 1 (0 + k)).
  - assert (length Y = length X) as El by (by rewrite Hp).
    eapply wp_mono; [apply (IH Y h'); [done|lia|lia|lia|lia]|]. intros [] h'' (Z & HZ & Hs & Hd''). exists Z. split_and!; [by rewrite HZ|done|done].
  - apply wp_ret. exists Y. split_and!; [done|apply runs_sorted; lia|done].
Qed.

(** C15: list_sort terminates and sorts.  For every list and every
    asymmetric comparison it returns, no assertion (its own check of the result
    included) fails, and the list then links a permutation of its
    elements in nondecreasing order.  A loop bound of the length of the
    list suffices (1 for the empty list). *)
Theorem list_sort_sorts n l X h : dll h l X -> (length X < n)%nat -> Z.of_nat (length X) < 2 ^ 32 ->
  exists h' Y, list_sort less n l h = Ok (tt, h') /\ dll h' l Y /\ Y ≡ₚ X /\ Sorted le Y.
Proof.
  intros Hd Hn Hlen. destruct (dll_addr _ _ _ Hd) as [Hl _].
  assert (wp (list_sort less n l) (fun _ h' => exists Y, dll h' l Y /\ Y ≡ₚ X /\ Sorted le Y) h) as H.
  { unfold list_sort. apply wp_bind, wp_assert; [by rewrite (proj2 (Z.eqb_neq _ _))|]. apply wp_bind. pose proof (runs_length X).
    eapply wp_mono; [apply (wp_sort_loop n n l X); [done|lia|lia|lia|lia]|]. intros [] h' (Y & Hp & Hs & Hd').
    assert (length Y = length X) as El by (by rewrite Hp).
    apply wp_bind. eapply wp_begin; [exact Hd'|]. apply wp_bind, wp_end; [done|]. apply wp_bind.
    pose proof (wp_is_sorted n l [] Y [] h') as His. rewrite app_nil_r in His. cbn [app] in His.
    eapply wp_mono; [apply His; [done|lia|done]|]. intros r h'' [-> ->]. apply wp_assert; [done|]. eauto. }
  destruct (wp_Ok _ _ _ H) as ([] & h' & ? & Y & ? & ? & ?). eauto 10.
Qed.

(** ** list_insert_ordered *)

(** The elements that come before a new one. *)
Fixpoint before_new (e : Z) X : list Z :=
  match X with [] => [] | x :: X' => if less e x then [] else x :: before_new e X' end.
Fixpoint after_new (e : Z) X : list Z :=
  match X with [] => [] | x :: X' => if less e x then X else after_new e X' end.

Lemma before_after e X : X = before_new e X ++ after_new e X.
Proof. induction X as [|x X IH]; [done|]. cbn. destruct (less e x); [done|]. cbn. by f_equal. Qed.

Lemma insert_sorted e X : Sorted le X -> Sorted le (before_new e X ++ e :: after_new e X).
Proof.
  induction 1 as [|x X Hs IH Hh]; cbn; [repeat constructor|]. destruct (less e x) eqn:E; cbn.
  - constructor; [by constructor|]. constructor. by apply less_asym.
  - constructor; [done|]. destruct X as [|y X]; cbn; [by constructor|]. inversion_clear Hh. destruct (less e y); cbn; by constructor.
Qed.

Lemma wp_ordered_loop n l e P X h : dll h l (P ++ X) -> (length X <= n)%nat ->
  wp (ordered_loop less n e (l + 8) (succ l X)) (fun r h' => h' = h /\ r = succ l (after_new e X)) h.
Proof.
  revert n P. induction X as [|x X IH]; intros n P Hd Hn.
  - destruct n; cbn [ordered_loop]; unfold succ; simpl; rewrite Z.eqb_refl; done.
  - destruct n as [|n]; [simpl in Hn; lia|]. cbn [ordered_loop after_new]. change (succ l (x :: X)) with x.
    assert (x <> l + 8) by (replace (P ++ x :: X) with (P ++ x :: X ++ []) in Hd by (by rewrite app_nil_r); exact (succ_diff h l P x X [] Hd)).
    rewrite (proj2 (Z.eqb_neq _ _)) by done. destruct (less e x); [done|]. apply wp_bind. eapply wp_next_at; [exact Hd|].
    apply (IH n (P ++ [x])); [by rewrite <- app_assoc|simpl in Hn; lia].
Qed.

(** List_insert_ordered keeps a sorted list sorted: the new element is
    linked in after the elements that are not greater, and the other
    elements keep their order. *)
Theorem list_insert_ordered_sorted n l e X h : dll h l X -> e <> NULL -> e ∉ nodes l X -> allocated h e -> (length X <= n)%nat ->
  exists h' A B, list_insert_ordered less n l e h = Ok (tt, h') /\ X = A ++ B /\ dll h' l (A ++ e :: B) /\
    (Sorted le X -> Sorted le (A ++ e :: B)) /\ (forall b, head B = Some b -> less e b = true) /\ Forall (fun a => less e a = false) A.
Proof.
  intros Hd He Hne Ha Hn. destruct (dll_addr _ _ _ Hd) as [Hl _]. pose proof (before_after e X) as E.
  assert (wp (list_insert_ordered less n l e) (fun _ h' => dll h' l (before_new e X ++ e :: after_new e X)) h) as H.
  { unfold list_insert_ordered. do 2 (apply wp_bind, wp_assert; [by rewrite (proj2 (Z.eqb_neq _ _))|]).
    apply wp_bind. eapply wp_begin; [exact Hd|]. apply wp_bind, wp_end; [done|]. apply wp_bind.
    eapply wp_mono; [apply (wp_ordered_loop n l e [] X); done|]. intros r h' [-> ->].
    eapply (wp_insert l (before_new e X) (after_new e X)); rewrite <- ?E; done. }
  destruct (wp_Ok _ _ _ H) as ([] & h' & ? & Hd'). exists h', (before_new e X), (after_new e X). split_and!; [done..| | |].
  - apply insert_sorted.
  - clear. induction X as [|x X IH]; [done|]. cbn. destruct (less e x) eqn:F; [by intros b [= <-]|done].
  - clear. induction X as [|x X IH]; [constructor|]. cbn. destruct (less e x) eqn:F; [constructor|by constructor].
Qed.
End sort.

(** ** Witnesses *)

Lemma list_sort_sorts_witness : exists h' Y, list_sort Z.ltb 4 1000 sample_heap = Ok (tt, h') /\ dll h' 1000 Y /\
  Y ≡ₚ [300; 100; 200] /\ Sorted (le Z.ltb) Y.
Proof.
  apply (list_sort_sorts Z.ltb) with (X := [300; 100; 200]); [|apply sample_dll|simpl; lia|simpl; lia].
  intros x y Hxy. unfold le. lia.
Defined.

Lemma list_insert_ordered_sorted_witness : exists h' A B, list_insert_ordered Z.ltb 3 1000 400 sample_heap = Ok (tt, h') /\
  [300; 100; 200] = A ++ B /\ dll h' 1000 (A ++ 400 :: B).
Proof.
  destruct (list_insert_ordered_sorted Z.ltb ltac:(intros x y Hxy; unfold le; lia) 3 1000 400 [300; 100; 200] sample_heap) as (h' & A & B & H1 & H2 & H3 & _).
  - apply sample_dll.
  - discriminate.
  - intros H. by apply (bool_decide_pack _) in H; vm_compute in H.
  - split; vm_compute; eauto.
  - simpl. lia.
  - by exists h', A, B.
Defined.
