(* ===== verification/KHash.v ===== *)
(** * Hash tables (src/lib/kernel/hash.c)

    A table with chaining over the doubly linked lists of KList.v.  The
    state is the memory of list elements and the struct hash itself; a
    struct hash_elem is the address of its list element, an array of
    struct list the address of its first list, each list 16 bytes long.
    The hash and comparison functions are parameters on addresses.  Every
    call that may allocate takes the address malloc returns, [NULL] when
    memory is exhausted: the new block is mapped with unspecified links,
    free unmaps it. *)

From S2P Require Import Prelude Memory KList.

Record hash := Hash { elem_cnt : Z; bucket_cnt : Z; buckets : Z }.

(** The memory and the table. *)
Record table := Table { mem_of : heap; hash_of : hash }.

Definition out_of_fuel {S A} : st S A := fun _ => Err Fuel.
Definition on_mem {A} (m : st heap A) : st table A := fun s =>
  match m (mem_of s) with Ok (a, h) => Ok (a, Table h (hash_of s)) | Err e => Err e end.
Definition set_hash (f : hash -> hash) : st table unit := modify (fun s => Table (mem_of s) (f (hash_of s))).

(** ** malloc and free of an array of lists *)

Definition LIST_SIZE : Z := 16.
Definition JUNK : Z := 0xcccccccc.
Definition bucket_addr (b i : Z) : Z := b + LIST_SIZE * i.

(** The list elements of [n] lists at [b]. *)
Definition block_elems (b : Z) (n : nat) : list Z :=
  mjoin ((fun i => [bucket_addr b i; bucket_addr b i + 8]) <$> seqZ 0 (Z.of_nat n)).

Definition map_elems (es : list Z) (h : heap) : heap :=
  Heap (foldr (fun e m => <[e := JUNK]> m) (prevs h) es) (foldr (fun e m => <[e := JUNK]> m) (nexts h) es).
Definition unmap_elems (es : list Z) (h : heap) : heap :=
  Heap (foldr (fun e m => delete e m) (prevs h) es) (foldr (fun e m => delete e m) (nexts h) es).

(** malloc (sizeof (struct list) * n) that returned [p]. *)
Definition malloc_lists (p n : Z) : st table Z :=
  (if p =? NULL then mret tt else modify (fun s => Table (map_elems (block_elems p (Z.to_nat n)) (mem_of s)) (hash_of s))) ≫= fun _ =>
  mret p.
Definition free_lists (p n : Z) : st table unit :=
  if p =? NULL then mret tt else modify (fun s => Table (unmap_elems (block_elems p (Z.to_nat n)) (mem_of s)) (hash_of s)).

(** ** Hash functions *)

Definition FNV_32_PRIME : Z := 16777619.
Definition FNV_32_BASIS : Z := 2166136261.

Definition fnv_step (hash b : Z) : Z := Z.lxor (u32 (hash * FNV_32_PRIME)) b.

Fixpoint hash_loop (n : nat) (m : mem) (buf hash : Z) : outcome Z :=
  match n with
  | O => Ok hash
  | S n' => b ← load m buf; hash_loop n' m (buf + 1) (fnv_step hash b)
  end.
Definition hash_bytes (m : mem) (buf_ size : Z) : outcome Z :=
  kassert (negb (buf_ =? NULL)) ≫= fun _ => hash_loop (Z.to_nat size) m buf_ FNV_32_BASIS.

Fixpoint hash_string_loop (fuel : nat) (m : mem) (s hash : Z) : outcome Z :=
  match fuel with
  | O => Err Fuel
  | S fuel' => b ← load m s; if b =? 0 then Ok hash else hash_string_loop fuel' m (s + 1) (fnv_step hash b)
  end.
Definition hash_string (m : mem) (s_ : Z) : outcome Z :=
  kassert (negb (s_ =? NULL)) ≫= fun _ => hash_string_loop (size m) m s_ FNV_32_BASIS.

(** The int is a local of its own. *)
Definition hash_int (i : Z) : outcome Z := hash_bytes (map_seqZ 1 (le_bytes 4 i)) 1 4.

(** ** Bucket counts *)

Definition turn_off_least_1bit (x : Z) : Z := Z.land x (u32 (x - 1)).
Definition is_power_of_2 (x : Z) : bool := negb (x =? 0) && (turn_off_least_1bit x =? 0).

Definition BEST_ELEMS_PER_BUCKET : Z := 2.

(** [while (!is_power_of_2 (n)) n = turn_off_least_1bit (n)]: at most one
    turn per bit. *)
Fixpoint round_to_power (fuel : nat) (n : Z) : outcome Z :=
  match fuel with
  | O => Err Fuel
  | S fuel' => if is_power_of_2 n then Ok n else round_to_power fuel' (turn_off_least_1bit n)
  end.

Definition ideal_bucket_cnt (elem_cnt : Z) : outcome Z :=
  let n := elem_cnt / BEST_ELEMS_PER_BUCKET in
  round_to_power 33 (if n <? 4 then 4 else n).

Section table.
Context (hash_fn : Z -> Z) (less : Z -> Z -> bool).

Definition find_bucket (e : Z) : st table Z :=
  h ← gets hash_of;
  let bucket_idx := Z.land (hash_fn e) (u32 (bucket_cnt h - 1)) in
  mret (bucket_addr (buckets h) bucket_idx).

(** The loop of find_elem; [n] bounds the length of the bucket. *)
Fixpoint find_loop (n : nat) (to e i : Z) : st heap Z :=
  if i =? to then mret NULL
  else match n with
       | O => no_fuel
       | S n' =>
           if negb (less i e) && negb (less e i) then mret i
           else i' ← list_next i; find_loop n' to e i'
       end.
Definition find_elem (n : nat) (bucket e : Z) : st table Z :=
  on_mem (i ← list_begin bucket; to ← list_end bucket; find_loop n to e i).

Definition insert_elem (bucket e : Z) : st table unit :=
  set_hash (fun h => Hash (u32 (elem_cnt h + 1)) (bucket_cnt h) (buckets h)) ≫= fun _ =>
  on_mem (list_push_front bucket e).

Definition remove_elem (e : Z) : st table unit :=
  set_hash (fun h => Hash (u32 (elem_cnt h - 1)) (bucket_cnt h) (buckets h)) ≫= fun _ =>
  on_mem (list_remove e) ≫= fun _ => mret tt.

(** [for (i = 0; i < cnt; i++) body (&b[i])]. *)
Fixpoint for_buckets (cnt : nat) (b : Z) (body : Z -> st table unit) : st table unit :=
  match cnt with
  | O => mret tt
  | S cnt' => body b ≫= fun _ => for_buckets cnt' (b + LIST_SIZE) body
  end.

(** The inner loop of rehash over one old bucket. *)
Fixpoint move_loop (n : nat) (old_bucket elem : Z) : st table unit :=
  to ← on_mem (list_end old_bucket);
  if elem =? to then mret tt
  else match n with
       | O => out_of_fuel
       | S n' =>
           new_bucket ← find_bucket elem;
           next ← on_mem (list_next elem);
           on_mem (list_remove elem) ≫= fun _ =>
           on_mem (list_push_front new_bucket elem) ≫= fun _ =>
           move_loop n' old_bucket next
       end.
Definition move_bucket (n : nat) (old_bucket : Z) : st table unit :=
  elem ← on_mem (list_begin old_bucket); move_loop n old_bucket elem.

(** [new] is what malloc returns, if it is called. *)
Definition rehash (n : nat) (new : Z) : st table unit :=
  h ← gets hash_of;
  let old_buckets := buckets h in
  let old_bucket_cnt := bucket_cnt h in
  new_bucket_cnt ← lift (ideal_bucket_cnt (elem_cnt h));
  if new_bucket_cnt =? old_bucket_cnt then mret tt
  else
    new_buckets ← malloc_lists new new_bucket_cnt;
    if new_buckets =? NULL then mret tt
    else
      for_buckets (Z.to_nat new_bucket_cnt) new_buckets (fun b => on_mem (list_init b)) ≫= fun _ =>
      set_hash (fun h => Hash (elem_cnt h) new_bucket_cnt new_buckets) ≫= fun _ =>
      for_buckets (Z.to_nat old_bucket_cnt) old_buckets (move_bucket n) ≫= fun _ =>
      free_lists old_buckets old_bucket_cnt.

Definition hash_insert (n : nat) (malloc_ret new : Z) : st table Z :=
  bucket ← find_bucket new;
  old ← find_elem n bucket new;
  (if old =? NULL then insert_elem bucket new else mret tt) ≫= fun _ =>
  rehash n malloc_ret ≫= fun _ => mret old.

Definition hash_replace (n : nat) (malloc_ret new : Z) : st table Z :=
  bucket ← find_bucket new;
  old ← find_elem n bucket new;
  (if negb (old =? NULL) then remove_elem old else mret tt) ≫= fun _ =>
  insert_elem bucket new ≫= fun _ =>
  rehash n malloc_ret ≫= fun _ => mret old.

Definition hash_find (n : nat) (e : Z) : st table Z :=
  bucket ← find_bucket e; find_elem n bucket e.

Definition hash_delete (n : nat) (malloc_ret e : Z) : st table Z :=
  bucket ← find_bucket e;
  found ← find_elem n bucket e;
  (if negb (found =? NULL) then remove_elem found ≫= fun _ => rehash n malloc_ret else mret tt) ≫= fun _ =>
  mret found.
End table.

(** ** Life cycle and iteration *)

Section actions.
(** Destructors and actions work on a state of the caller's own. *)
Context {A : Type} (action : Z -> A -> A).

Definition st_acc : Type := st (table * A) unit.
Definition on_table {B} (m : st table B) : st (table * A) B := fun s =>
  match m s.1 with Ok (b, t) => Ok (b, (t, s.2)) | Err e => Err e end.
Definition act (e : Z) : st (table * A) unit := modify (fun s => (s.1, action e s.2)).

Fixpoint for_buckets_acc (cnt : nat) (b : Z) (body : Z -> st_acc) : st_acc :=
  match cnt with
  | O => mret tt
  | S cnt' => body b ≫= fun _ => for_buckets_acc cnt' (b + LIST_SIZE) body
  end.

(** [while (!list_empty (bucket)) destructor (list_pop_front (bucket))]. *)
Fixpoint destroy_loop (n : nat) (bucket : Z) : st_acc :=
  empty ← on_table (on_mem (list_empty bucket));
  if empty : bool then mret tt
  else match n with
       | O => out_of_fuel
       | S n' => e ← on_table (on_mem (list_pop_front bucket)); act e ≫= fun _ => destroy_loop n' bucket
       end.

(** [with_destructor] is [destructor != NULL]. *)
Definition hash_clear (n : nat) (with_destructor : bool) : st_acc :=
  h ← on_table (gets hash_of);
  for_buckets_acc (Z.to_nat (bucket_cnt h)) (buckets h) (fun bucket =>
    (if with_destructor then destroy_loop n bucket else mret tt) ≫= fun _ =>
    on_table (on_mem (list_init bucket))) ≫= fun _ =>
  on_table (set_hash (fun h => Hash 0 (bucket_cnt h) (buckets h))).

Definition hash_destroy (n : nat) (with_destructor : bool) : st_acc :=
  (if with_destructor then hash_clear n true else mret tt) ≫= fun _ =>
  h ← on_table (gets hash_of);
  on_table (free_lists (buckets h) (bucket_cnt h)).

Definition hash_init (n : nat) (malloc_ret : Z) : st (table * A) bool :=
  on_table (set_hash (fun h => Hash 0 4 (buckets h))) ≫= fun _ =>
  p ← on_table (malloc_lists malloc_ret 4);
  on_table (set_hash (fun h => Hash (elem_cnt h) (bucket_cnt h) p)) ≫= fun _ =>
  if negb (p =? NULL) then hash_clear n false ≫= fun _ => mret true else mret false.

(** The inner loop of hash_apply. *)
Fixpoint apply_loop (n : nat) (bucket elem : Z) : st_acc :=
  to ← on_table (on_mem (list_end bucket));
  if elem =? to then mret tt
  else match n with
       | O => out_of_fuel
       | S n' =>
           next ← on_table (on_mem (list_next elem));
           act elem ≫= fun _ => apply_loop n' bucket next
       end.
Definition hash_apply (n : nat) : st_acc :=
  h ← on_table (gets hash_of);
  for_buckets_acc (Z.to_nat (bucket_cnt h)) (buckets h) (fun bucket =>
    elem ← on_table (on_mem (list_begin bucket)); apply_loop n bucket elem).
End actions.

(** A struct hash_iterator over the table in the state. *)
Record hash_iterator := Iter { it_bucket : Z; it_elem : Z }.

Definition hash_first : st table hash_iterator :=
  h ← gets hash_of; e ← on_mem (list_head (buckets h)); mret (Iter (buckets h) e).

(** The loop of hash_next over empty buckets; [k] bounds the buckets left. *)
Fixpoint next_loop (k : nat) (i : hash_iterator) : st table hash_iterator :=
  to ← on_mem (list_end (it_bucket i));
  if it_elem i =? to then
    h ← gets hash_of;
    let b := it_bucket i + LIST_SIZE in
    if bucket_addr (buckets h) (bucket_cnt h) <=? b then mret (Iter b NULL)
    else match k with
         | O => out_of_fuel
         | S k' => e ← on_mem (list_begin b); next_loop k' (Iter b e)
         end
  else mret i.
Definition hash_next (i : hash_iterator) : st table (Z * hash_iterator) :=
  e ← on_mem (list_next (it_elem i));
  h ← gets hash_of;
  i ← next_loop (Z.to_nat (bucket_cnt h)) (Iter (it_bucket i) e);
  mret (it_elem i, i).
(** The iteration idiom of the comment before hash_first: the elements that
    the loop [while (hash_next (&i)) ... hash_cur (&i) ...] visits. *)
Fixpoint iterate (fuel : nat) (i : hash_iterator) : st table (list Z) :=
  match fuel with
  | O => out_of_fuel
  | S fuel' =>
      r ← hash_next i;
      if r.1 =? NULL then mret []
      else l ← iterate fuel' r.2; mret (it_elem r.2 :: l)
  end.
Definition hash_cur (i : hash_iterator) : Z := it_elem i.

Definition hash_size : st table Z := h ← gets hash_of; mret (elem_cnt h).
Definition hash_empty : st table bool := h ← gets hash_of; mret (elem_cnt h =? 0).
