(* ===== verification/KHashLaws.v ===== *)
(** * Theorems about hash tables

    A table refines a set of elements no two of which are equal for the
    comparison function.  The abstract state is the contents [C] and the
    elements [U] that the caller owns and that are in no list: insertion
    moves an element from [U] to [C], deletion moves it back. *)

From stdpp Require Import sorting.
From S2P Require Import Prelude Memory Wp KList KListLaws KHash.

(** ** Bucket counts are powers of two *)

Lemma testbit_split a b j i : 0 <= j -> 0 <= i -> 0 <= b < 2 ^ j ->
  Z.testbit (a * 2 ^ j + b) i = if i <? j then Z.testbit b i else Z.testbit a (i - j).
Proof.
  intros Hj Hi Hb. destruct (Z.ltb_spec i j).
  - rewrite <- (Z.mod_pow2_bits_low (a * 2 ^ j + b) j i) by lia.
    by rewrite Z.add_comm, Z.mod_add, Z.mod_small by lia.
  - replace i with (i - j + j) at 1 by lia. rewrite <- Z.div_pow2_bits by lia.
    by rewrite Z.add_comm, Z.div_add, Z.div_small by lia.
Qed.

Lemma land_split a b c d j : 0 <= j -> 0 <= b < 2 ^ j -> 0 <= d < 2 ^ j ->
  Z.land (a * 2 ^ j + b) (c * 2 ^ j + d) = Z.land a c * 2 ^ j + Z.land b d.
Proof.
  intros Hj Hb Hd. assert (0 <= Z.land b d < 2 ^ j) as Hbd.
  { split; [apply Z.land_nonneg; lia|]. destruct (decide (Z.land b d = 0)) as [->|]; [lia|].
    apply Z.log2_lt_pow2; [pose proof (Z.land_nonneg b d); lia|].
    pose proof (Z.log2_land b d ltac:(lia) ltac:(lia)). destruct (decide (b = 0)) as [->|]; [by rewrite Z.land_0_l in *|].
    assert (Z.log2 b < j) by (apply Z.log2_lt_pow2; lia). lia. }
  apply Z.bits_inj'. intros i Hi. rewrite Z.land_spec, !testbit_split by lia.
  destruct (Z.ltb_spec i j); by rewrite Z.land_spec.
Qed.

(** Turning off the least bit of an odd multiple of [2 ^ k]. *)
Lemma turn_off_bit m k : 0 <= m -> 0 <= k -> (2 * m + 1) * 2 ^ k < 2 ^ 32 ->
  turn_off_least_1bit ((2 * m + 1) * 2 ^ k) = 2 * m * 2 ^ k.
Proof.
  intros Hm Hk Hn. assert (0 < 2 ^ k) by (apply Z.pow_pos_nonneg; lia). unfold turn_off_least_1bit.
  rewrite u32_small by nia.
  replace ((2 * m + 1) * 2 ^ k) with (m * 2 ^ (k + 1) + 2 ^ k) at 1 by (rewrite Z.pow_add_r by lia; lia).
  replace ((2 * m + 1) * 2 ^ k - 1) with (m * 2 ^ (k + 1) + (2 ^ k - 1)) by (rewrite Z.pow_add_r by lia; lia).
  rewrite land_split by (rewrite ?Z.pow_add_r; lia). rewrite Z.land_diag.
  replace (2 ^ k - 1) with (Z.ones k) by (rewrite Z.ones_equiv; lia).
  rewrite Z.land_ones, Z_mod_same_full by lia. rewrite Z.pow_add_r by lia. lia.
Qed.

Lemma round_to_power_ok k fuel m :
  (k <= 32)%nat -> (33 - k <= fuel)%nat -> 0 < m -> 4 <= m * 2 ^ Z.of_nat k < 2 ^ 32 ->
  exists p, 2 <= p < 32 /\ round_to_power fuel (m * 2 ^ Z.of_nat k) = Ok (2 ^ p) /\ 2 ^ p <= m * 2 ^ Z.of_nat k.
Proof.
  intros Hk. remember (32 - k)%nat as d eqn:Hd. revert k fuel m Hk Hd.
  induction d as [|d IH]; intros k fuel m Hk Hd Hf Hm Hn.
  - assert (k = 32%nat) as -> by lia. change (2 ^ Z.of_nat 32) with (2 ^ 32) in Hn. nia.
  - assert (0 < 2 ^ Z.of_nat k) as H2 by (apply Z.pow_pos_nonneg; lia).
    destruct (Z.Even_or_Odd m) as [[m' ->]|[m' ->]].
    + replace (2 * m' * 2 ^ Z.of_nat k) with (m' * 2 ^ Z.of_nat (S k)) in * by (rewrite Nat2Z.inj_succ, Z.pow_succ_r by lia; lia).
      apply (IH (S k)); lia.
    + destruct fuel as [|fuel]; [lia|]. cbn [round_to_power]. unfold is_power_of_2. rewrite turn_off_bit by lia.
      rewrite (proj2 (Z.eqb_neq ((2 * m' + 1) * 2 ^ Z.of_nat k) 0)) by nia. cbn [negb andb].
      destruct (Z.eqb_spec (2 * m' * 2 ^ Z.of_nat k) 0) as [E|E].
      * assert (m' = 0) as -> by nia. exists (Z.of_nat k). replace ((2 * 0 + 1) * 2 ^ Z.of_nat k) with (2 ^ Z.of_nat k) in * by lia.
        split_and!; [|apply (Z.pow_lt_mono_r_iff 2); lia|done|lia].
        destruct (decide (Z.of_nat k < 2)) as [Hlt|]; [|lia].
        assert (2 ^ Z.of_nat k <= 2 ^ 1) by (apply Z.pow_le_mono_r; lia). lia.
      * replace (2 * m' * 2 ^ Z.of_nat k) with (m' * 2 ^ Z.of_nat (S k)) in * by (rewrite Nat2Z.inj_succ, Z.pow_succ_r by lia; lia).
        assert (4 <= m' * 2 ^ Z.of_nat (S k)).
        { rewrite Nat2Z.inj_succ, Z.pow_succ_r in * by lia. destruct k as [|[|k]]; [change (2 ^ Z.of_nat 0) with 1 in *; lia|change (2 ^ Z.of_nat 1) with 2 in *; lia|].
          assert (2 ^ 2 <= 2 ^ Z.of_nat (S (S k))) by (apply Z.pow_le_mono_r; lia). nia. }
        assert (m' * 2 ^ Z.of_nat (S k) <= (2 * m' + 1) * 2 ^ Z.of_nat k) by (rewrite Nat2Z.inj_succ, Z.pow_succ_r by lia; lia).
        destruct (IH (S k) fuel m') as (p & Hp & Hr & Hle); [lia|lia|lia|nia|lia|]. exists p. split_and!; [lia|lia|done|lia].
Qed.

Lemma ideal_bucket_cnt_ok c : 0 <= c < 2 ^ 32 ->
  exists p, 2 <= p < 32 /\ ideal_bucket_cnt c = Ok (2 ^ p).
Proof.
  intros Hc. unfold ideal_bucket_cnt, BEST_ELEMS_PER_BUCKET. set (n := if _ : bool then 4 else _).
  assert (4 <= n < 2 ^ 32) as Hn by (subst n; destruct (Z.ltb_spec (c / 2) 4); dlia).
  destruct (round_to_power_ok 0 33 n) as (p & Hp & Hr & _); [lia|lia|lia|simpl; lia|].
  simpl Z.of_nat in Hr. rewrite Z.mul_1_r in Hr. eauto.
Qed.

(** ** Families of lists and unlinked elements *)

Lemma perm_NoDup {A} (l l' : list A) : l ≡ₚ l' -> NoDup l' -> NoDup l.
Proof. by intros ->. Qed.

Section families.
Implicit Types (F : list (Z * list Z)) (U : list Z) (h : heap).

Definition fam_nodes F : list Z := mjoin ((fun p => nodes p.1 p.2) <$> F).

Record lists h F U : Prop := {
  ls_dll : Forall (fun p => dll h p.1 p.2) F;
  ls_free : Forall (allocated h) U;
  ls_nodup : NoDup (fam_nodes F ++ U);
  ls_null : NULL ∉ U
}.

Lemma fam_nodes_cons p F : fam_nodes (p :: F) = nodes p.1 p.2 ++ fam_nodes F.
Proof. done. Qed.

Lemma fam_nodes_app F F' : fam_nodes (F ++ F') = fam_nodes F ++ fam_nodes F'.
Proof. unfold fam_nodes. by rewrite fmap_app, join_app. Qed.

#[global] Instance fam_nodes_proper : Proper ((≡ₚ) ==> (≡ₚ)) fam_nodes.
Proof. intros F F' E. unfold fam_nodes. by rewrite E. Qed.

#[global] Instance lists_proper h : Proper ((≡ₚ) ==> (≡ₚ) ==> iff) (lists h).
Proof.
  intros F F' E U U' E'. split; intros [H1 H2 H3 H4]; split; [by rewrite <- E|by rewrite <- E'|by rewrite <- E, <- E'|by rewrite <- E'
    |by rewrite E|by rewrite E'|by rewrite E, E'|by rewrite E'].
Qed.

(** Two memories that agree outside the nodes [D]. *)
Definition agree_off (D : list Z) h h' : Prop :=
  forall a, a ∉ D -> prevs h' !! a = prevs h !! a /\ nexts h' !! a = nexts h !! a.

Lemma chain_agree h h' L : (forall a, a ∈ L -> prevs h' !! a = prevs h !! a /\ nexts h' !! a = nexts h !! a) ->
  chain h L -> chain h' L.
Proof.
  intros Ha. induction L as [|a [|b L] IH]; [done..|]. intros [[Hn Hp] Hc].
  split; [|apply IH; [|done]; intros x Hx; apply Ha; by right].
  split; [by rewrite (proj2 (Ha a ltac:(by left)))|by rewrite (proj1 (Ha b ltac:(right; by left)))].
Qed.

Lemma dll_agree h h' l X : (forall a, a ∈ nodes l X -> prevs h' !! a = prevs h !! a /\ nexts h' !! a = nexts h !! a) ->
  dll h l X -> dll h' l X.
Proof.
  intros Ha [H1 H2 H3 H4 H5]. split; [by apply (chain_agree h)| | |done|done].
  - by rewrite (proj1 (Ha l ltac:(apply nodes_elem; auto))).
  - by rewrite (proj2 (Ha (l + 8) ltac:(apply nodes_elem; auto))).
Qed.

Lemma allocated_agree h h' a : prevs h' !! a = prevs h !! a /\ nexts h' !! a = nexts h !! a -> allocated h a -> allocated h' a.
Proof. unfold allocated. by intros [-> ->]. Qed.

(** The lists and elements that a step leaves alone. *)
Lemma lists_agree h h' D F U : agree_off D h h' -> (forall a, a ∈ D -> a ∉ fam_nodes F ++ U) ->
  Forall (fun p => dll h p.1 p.2) F -> Forall (allocated h) U ->
  Forall (fun p => dll h' p.1 p.2) F /\ Forall (allocated h') U.
Proof.
  intros Ha Hd HF HU. split; apply list.Forall_forall.
  - intros [l X] Hin. apply (dll_agree h); [|by apply (proj1 (list.Forall_forall _ _) HF (l, X))].
    intros a Hx. apply Ha. intros HD. apply (Hd a HD). apply elem_of_app. left. unfold fam_nodes. apply list_elem_of_join.
    exists (nodes l X). split; [done|]. by apply (list_elem_of_fmap_2 (fun p => nodes p.1 p.2) F (l, X)).
  - intros a Hin. apply (allocated_agree h); [|by apply (proj1 (list.Forall_forall _ _) HU)].
    apply Ha. intros HD. apply (Hd a HD). apply elem_of_app. by right.
Qed.

Lemma put_in_off h l X e Y : agree_off (e :: nodes l (X ++ Y)) h (put_in h l X e e Y).
Proof.
  intros a Ha. assert (a <> e /\ a <> pred l X /\ a <> succ l Y) as (H1 & H2 & H3).
  { apply not_elem_of_cons in Ha as [Ha Hn]. split_and!; [done|..]; intros ->; apply Hn; [apply pred_node|apply succ_node]. }
  unfold put_in. simpl. by rewrite !lookup_insert_ne by done.
Qed.

Lemma taken_out_off h l X Y : agree_off (nodes l (X ++ Y)) h (taken_out h l X Y).
Proof.
  intros a Ha. assert (a <> pred l X /\ a <> succ l Y) as [H1 H2].
  { split; intros ->; apply Ha; [apply pred_node|apply succ_node]. }
  unfold taken_out. simpl. by rewrite !lookup_insert_ne by done.
Qed.

Lemma nodes_insert l X e Y : nodes l (X ++ e :: Y) ≡ₚ e :: nodes l (X ++ Y).
Proof. unfold nodes. solve_Permutation. Qed.

Lemma lists_put_in h l X Y e F U : lists h ((l, X ++ Y) :: F) (e :: U) ->
  dll (put_in h l X e e Y) l (X ++ e :: Y) -> lists (put_in h l X e e Y) ((l, X ++ e :: Y) :: F) U.
Proof.
  intros [HF HU Hnd Hnull] Hd. apply Forall_cons_1 in HF as [_ HF]. apply Forall_cons_1 in HU as [_ HU].
  rewrite fam_nodes_cons in Hnd. cbn [fst snd] in Hnd.
  assert (NoDup ((e :: nodes l (X ++ Y)) ++ fam_nodes F ++ U)) as Hnd' by (eapply perm_NoDup; [|exact Hnd]; solve_Permutation).
  destruct (lists_agree h (put_in h l X e e Y) _ F U (put_in_off h l X e Y)) as [HF' HU'].
  { intros a Ha Hin. by apply (NoDup_apart _ _ a Hnd'). } { done. } { done. }
  split; [by constructor|done| |].
  - rewrite fam_nodes_cons. cbn [fst snd]. rewrite nodes_insert, <- app_assoc. exact Hnd'.
  - intros Hn. apply Hnull. by right.
Qed.

Lemma lists_taken_out h l X Y e F U : lists h ((l, X ++ e :: Y) :: F) U ->
  dll (taken_out h l X Y) l (X ++ Y) -> lists (taken_out h l X Y) ((l, X ++ Y) :: F) (e :: U).
Proof.
  intros [HF HU Hnd Hnull] Hd. apply Forall_cons_1 in HF as [Hold HF]. cbn [fst snd] in Hold.
  rewrite fam_nodes_cons in Hnd. cbn [fst snd] in Hnd. rewrite nodes_insert in Hnd.
  assert (NoDup (nodes l (X ++ Y) ++ fam_nodes F ++ e :: U)) as Hnd' by (eapply perm_NoDup; [|exact Hnd]; solve_Permutation).
  destruct (dll_out h l X [e] e e Y Hold (run_single e)) as (_ & _ & [Hn1 Hp1] & [Hn2 Hp2]).
  destruct (lists_agree h (taken_out h l X Y) _ F (e :: U) (taken_out_off h l X Y)) as [HF' HU'].
  { intros a Ha Hin. by apply (NoDup_apart _ _ a Hnd'). } { done. } { constructor; [|done]. split; eauto. }
  split; [by constructor|done| |].
  - rewrite fam_nodes_cons. cbn [fst snd]. by rewrite <- app_assoc.
  - intros [Hn|Hn]%elem_of_cons; [|done]. apply (dll_null _ _ _ e Hold); [|done]. apply nodes_elem. rewrite elem_of_app, elem_of_cons. auto.
Qed.
End families.

(** ** Rules for the list operations on a family *)

Section rules.
Implicit Types (F : list (Z * list Z)) (U : list Z) (h : heap).

Lemma lists_head h l X F U : lists h ((l, X) :: F) U -> dll h l X.
Proof. intros H. by apply (Forall_inv (ls_dll _ _ _ H)). Qed.

(** No address becomes mapped. *)
Definition no_new h h' : Prop :=
  forall a, (prevs h !! a = None -> prevs h' !! a = None) /\ (nexts h !! a = None -> nexts h' !! a = None).

Lemma no_new_trans h h1 h2 : no_new h h1 -> no_new h1 h2 -> no_new h h2.
Proof. intros H1 H2 a. destruct (H1 a), (H2 a). auto. Qed.

Lemma no_new_setp h e x : is_Some (prevs h !! e) -> no_new h (setp h e x).
Proof. intros [y Hy] a. split; [|done]. simpl. intros Ha. rewrite lookup_insert_ne; [done|]. intros ->. congruence. Qed.
Lemma no_new_setn h e x : is_Some (nexts h !! e) -> no_new h (setn h e x).
Proof. intros [y Hy] a. split; [done|]. simpl. intros Ha. rewrite lookup_insert_ne; [done|]. intros ->. congruence. Qed.

Lemma some_insert (m : gmap Z Z) a b x : is_Some (m !! b) -> is_Some (<[a := x]> m !! b).
Proof. intros Hb. destruct (decide (a = b)) as [->|]; [rewrite lookup_insert_eq; eauto|by rewrite lookup_insert_ne]. Qed.

Lemma put_in_no_new h l X e Y : dll h l (X ++ Y) -> allocated h e -> no_new h (put_in h l X e e Y).
Proof.
  intros Hd [Hp Hn]. destruct (cut_link h l X Y Hd) as [Ln Lp]. unfold put_in.
  set (h1 := setp h e (pred l X)). set (h2 := setn h1 e (succ l Y)). set (h3 := setn h2 (pred l X) e).
  apply (no_new_trans h h1); [by apply no_new_setp|]. apply (no_new_trans h1 h2); [by apply no_new_setn|].
  apply (no_new_trans h2 h3); [apply no_new_setn, some_insert; by eauto|]. apply no_new_setp, some_insert. by eauto.
Qed.

Lemma taken_out_no_new h l X Y : is_Some (nexts h !! pred l X) -> is_Some (prevs h !! succ l Y) -> no_new h (taken_out h l X Y).
Proof. intros Hn Hp. eapply no_new_trans; [by apply no_new_setn|]. by apply no_new_setp. Qed.

Lemma wp_push_front l X e F U Q h : lists h ((l, X) :: F) (e :: U) ->
  (forall h', lists h' ((l, e :: X) :: F) U -> no_new h h' -> Q tt h') -> wp (list_push_front l e) Q h.
Proof.
  intros Hl HQ. pose proof (lists_head _ _ _ _ _ Hl) as Hd. unfold list_push_front. apply wp_bind.
  eapply wp_begin; [exact Hd|]. apply (wp_insert l [] X e).
  - exact Hd.
  - intros ->. apply (ls_null _ _ _ Hl). by left.
  - intros Hin. apply (NoDup_apart _ _ e (ls_nodup _ _ _ Hl)); [|by left]. rewrite fam_nodes_cons. apply elem_of_app. by left.
  - apply (Forall_inv (ls_free _ _ _ Hl)).
  - intros Hd'. apply HQ; [by apply (lists_put_in h l [] X e F U)|]. apply (put_in_no_new h l [] e X); [done|]. apply (Forall_inv (ls_free _ _ _ Hl)).
Qed.

Lemma wp_remove_fam l X Y e F U Q h : lists h ((l, X ++ e :: Y) :: F) U ->
  (forall h', lists h' ((l, X ++ Y) :: F) (e :: U) -> no_new h h' -> Q (succ l Y) h') -> wp (list_remove e) Q h.
Proof.
  intros Hl HQ. pose proof (lists_head _ _ _ _ _ Hl) as Hd0. apply (wp_remove l X Y e); [done|]. intros Hd.
  apply HQ; [by apply lists_taken_out|]. destruct (dll_out h l X [e] e e Y Hd0 (run_single e)) as (_ & _ & [Hn _] & [_ Hp]).
  apply taken_out_no_new; eauto.
Qed.

(** Every node of a list is allocated. *)
Lemma nodes_allocated h l X a : dll h l X -> a ∈ nodes l X -> allocated h a.
Proof.
  intros Hd [->|[Ha| ->]]%nodes_elem.
  - split; [rewrite (d_head _ _ _ Hd); eauto|]. destruct (cut_link h l [] X Hd) as [Hn _]. eauto.
  - apply list_elem_of_split in Ha as (X1 & X2 & ->).
    destruct (dll_out h l X1 [a] a a X2 Hd (run_single a)) as (_ & _ & [_ Hp] & [Hn _]). split; eauto.
  - split; [|rewrite (d_tail _ _ _ Hd); eauto]. rewrite <- (app_nil_r X) in Hd. destruct (cut_link h l X [] Hd) as [_ Hp]. eauto.
Qed.

Lemma lists_allocated h F U a : lists h F U -> a ∈ fam_nodes F ++ U -> allocated h a.
Proof.
  intros Hl [Ha|Ha]%elem_of_app; [|by apply (proj1 (list.Forall_forall _ _) (ls_free _ _ _ Hl))].
  apply list_elem_of_join in Ha as (L & Ha & HL). apply list_elem_of_fmap in HL as ([l X] & -> & HF).
  eapply nodes_allocated; [|exact Ha]. by apply (proj1 (list.Forall_forall _ _) (ls_dll _ _ _ Hl) (l, X)).
Qed.

(** A list can be taken apart: its nodes become unlinked elements. *)
Lemma lists_dissolve h l X F U : lists h ((l, X) :: F) U -> lists h F (nodes l X ++ U).
Proof.
  intros Hl. pose proof (lists_head _ _ _ _ _ Hl) as Hd. destruct Hl as [HF HU Hnd Hn]. split.
  - by apply Forall_cons_1 in HF as [_ HF].
  - apply Forall_app. split; [|done]. apply list.Forall_forall. intros a Ha. by eapply nodes_allocated.
  - eapply perm_NoDup; [|exact Hnd]. rewrite fam_nodes_cons. cbn [fst snd]. solve_Permutation.
  - intros [Ha|Ha]%elem_of_app; [|done]. by apply (d_null _ _ _ Hd).
Qed.

Lemma lists_forget h F F' U : lists h (F ++ F') U -> lists h F' (fam_nodes F ++ U).
Proof.
  revert U. induction F as [|[l X] F IH]; intros U Hl; [done|]. rewrite fam_nodes_cons. cbn [fst snd app] in *.
  apply lists_dissolve, IH in Hl. eapply lists_proper; [reflexivity| |exact Hl]. solve_Permutation.
Qed.

Lemma wp_init_fam l F U Q h : lists h F (l :: l + 8 :: U) ->
  (forall h', lists h' ((l, []) :: F) U -> Q tt h') -> wp (list_init l) Q h.
Proof.
  intros [HF HU Hnd Hnull] HQ.
  apply Forall_cons_1 in HU as [[Hp1 Hn1] HU]. apply Forall_cons_1 in HU as [[Hp2 Hn2] HU].
  assert (NoDup ([l; l + 8] ++ fam_nodes F ++ U)) as Hnd' by (eapply perm_NoDup; [|exact Hnd]; solve_Permutation).
  assert (l <> l + 8) as Hne by lia. apply not_elem_of_cons in Hnull as [N1 [N2 N3]%not_elem_of_cons].
  set (h' := setn (setp (setn (setp h l NULL) l (l + 8)) (l + 8) l) (l + 8) NULL).
  assert (dll h' l []) as Hd.
  { split; simpl.
    - split; [|done]. split; simpl; [by rewrite lookup_insert_ne, lookup_insert_eq|by rewrite lookup_insert_eq].
    - by rewrite lookup_insert_ne, lookup_insert_eq.
    - by rewrite lookup_insert_eq.
    - apply list.NoDup_cons. split; [intros E%list_elem_of_singleton; lia|apply NoDup_singleton].
    - intros [E|E%list_elem_of_singleton]%elem_of_cons; done. }
  destruct (lists_agree h h' [l; l + 8] F U) as [HF' HU'].
  { intros a [Ha1 [Ha2 _]%not_elem_of_cons]%not_elem_of_cons. subst h'. simpl. by rewrite !lookup_insert_ne by done. }
  { intros a Ha Hin. by apply (NoDup_apart _ _ a Hnd'). } { done. } { done. }
  unfold list_init, head_of, tail_of. apply wp_bind, wp_assert; [by rewrite (proj2 (Z.eqb_neq _ _))|].
  apply wp_bind, wp_put_prev; [done|]. apply wp_bind, wp_put_next; [done|].
  apply wp_bind, wp_put_prev; [simpl; by rewrite lookup_insert_ne|].
  apply wp_put_next; [simpl; by rewrite lookup_insert_ne|]. apply HQ. fold h'. split; [by constructor|done| |done].
  rewrite fam_nodes_cons. cbn [fst snd nodes app]. exact Hnd'.
Qed.

(** Unmapping elements that no list uses. *)
Lemma lists_unmap h F U es : lists h F (es ++ U) -> lists (unmap_elems es h) F U.
Proof.
  intros [HF HU Hnd Hnull]. apply Forall_app in HU as [_ HU].
  assert (NoDup (es ++ fam_nodes F ++ U)) as Hnd' by (eapply perm_NoDup; [|exact Hnd]; solve_Permutation).
  assert (agree_off es h (unmap_elems es h)) as Ha.
  { intros a Ha. unfold unmap_elems. simpl. clear -Ha. induction es as [|e es IH]; simpl; [done|].
    apply not_elem_of_cons in Ha as [Hne Ha]. rewrite !lookup_delete_ne by done. by apply IH. }
  destruct (lists_agree h (unmap_elems es h) es F U Ha) as [HF' HU']; [|done..|].
  { intros a He Hin. by apply (NoDup_apart _ _ a Hnd'). }
  split; [done|done| |].
  - by apply list.NoDup_app in Hnd' as (_ & _ & ?).
  - intros Hn. apply Hnull, elem_of_app. by right.
Qed.

(** Mapping fresh elements. *)
Lemma lists_map h F U es : lists h F U -> NoDup es -> NULL ∉ es ->
  (forall e, e ∈ es -> prevs h !! e = None /\ nexts h !! e = None) -> lists (map_elems es h) F (es ++ U).
Proof.
  intros Hl Hes Hnull Hfresh.
  assert (forall a, a ∈ es -> a ∉ fam_nodes F ++ U) as Hdis.
  { intros a Ha Hin. destruct (lists_allocated _ _ _ _ Hl Hin) as [[x Hx] _]. by rewrite (proj1 (Hfresh a Ha)) in Hx. }
  assert (agree_off es h (map_elems es h)) as Ha.
  { intros a Ha. unfold map_elems. simpl. clear -Ha. induction es as [|e es IH]; simpl; [done|].
    apply not_elem_of_cons in Ha as [Hne Ha]. rewrite !lookup_insert_ne by done. by apply IH. }
  destruct (lists_agree h (map_elems es h) es F U Ha Hdis) as [HF' HU']; [apply Hl..|].
  split; [done| | |].
  - apply Forall_app. split; [|done]. apply list.Forall_forall. intros e He. unfold allocated, map_elems. simpl.
    clear -He. induction es as [|e' es IH]; [by apply elem_of_nil in He|]. simpl.
    destruct (decide (e' = e)) as [->|]; [by rewrite !lookup_insert_eq; eauto|]. rewrite !lookup_insert_ne by done.
    apply IH. apply elem_of_cons in He as [->|]; done.
  - eapply perm_NoDup; [assert (fam_nodes F ++ es ++ U ≡ₚ es ++ fam_nodes F ++ U) as -> by solve_Permutation; reflexivity|].
    apply list.NoDup_app. split_and!; [done|done|apply Hl].
  - intros [?|Hn]%elem_of_app; [done|]. by apply (ls_null _ _ _ Hl).
Qed.
End rules.

(** ** Arrays of buckets *)

Fixpoint fam (b : Z) (B : list (list Z)) : list (Z * list Z) :=
  match B with [] => [] | X :: B' => (b, X) :: fam (b + LIST_SIZE) B' end.

Lemma fam_pick b B i X : B !! i = Some X ->
  exists R, forall X', fam b (<[i := X']> B) ≡ₚ (bucket_addr b (Z.of_nat i), X') :: R.
Proof.
  revert b i. induction B as [|Y B IH]; intros b [|i] HX; [done|done| |]; simpl in HX.
  - exists (fam (b + LIST_SIZE) B). intros X'. simpl. unfold bucket_addr. by replace (b + LIST_SIZE * Z.of_nat 0) with b by lia.
  - destruct (IH (b + LIST_SIZE) i HX) as [R HR]. exists ((b, Y) :: R). intros X'. simpl. rewrite HR.
    unfold bucket_addr. replace (b + LIST_SIZE + LIST_SIZE * Z.of_nat i) with (b + LIST_SIZE * Z.of_nat (S i)) by lia. apply Permutation_swap.
Qed.

Lemma join_pick (B : list (list Z)) i X : B !! i = Some X ->
  exists R, forall X', mjoin (<[i := X']> B) ≡ₚ X' ++ R.
Proof.
  revert i. induction B as [|Y B IH]; intros [|i] HX; [done|done| |]; simpl in HX.
  - exists (mjoin B). done.
  - destruct (IH i HX) as [R HR]. exists (Y ++ R). intros X'. simpl.
    change (mjoin (Y :: <[i := X']> B)) with (Y ++ mjoin (<[i := X']> B)). rewrite HR. solve_Permutation.
Qed.

Lemma block_elems_S b n : block_elems b (S n) = b :: b + 8 :: block_elems (b + LIST_SIZE) n.
Proof.
  unfold block_elems. rewrite Nat2Z.inj_succ, seqZ_cons by lia. rewrite fmap_cons.
  change (mjoin (?x :: ?y)) with (x ++ mjoin y). unfold bucket_addr at 1 2. rewrite Z.mul_0_r, Z.add_0_r. cbn [app]. do 3 f_equal.
  replace (Z.pred (Z.succ (Z.of_nat n))) with (Z.of_nat n) by lia.
  rewrite <- (fmap_add_seqZ 1 0), <- list_fmap_compose. apply list_fmap_ext. intros i x Hx. simpl.
  unfold bucket_addr. repeat (f_equal; try lia).
Qed.

Lemma fam_nodes_empty b n : fam_nodes (fam b (replicate n [])) = block_elems b n.
Proof.
  revert b. induction n as [|n IH]; intros b; [done|]. rewrite block_elems_S. simpl. rewrite fam_nodes_cons. simpl. by rewrite IH.
Qed.

Lemma block_elems_range b n a : a ∈ block_elems b n -> b <= a.
Proof.
  intros Ha. apply list_elem_of_join in Ha as (L & Ha & HL). apply list_elem_of_fmap in HL as (i & -> & Hi). apply elem_of_seqZ in Hi.
  unfold bucket_addr, LIST_SIZE in Ha. apply elem_of_cons in Ha as [Ha|Ha%list_elem_of_singleton]; lia.
Qed.

Lemma block_elems_NoDup b n : NoDup (block_elems b n).
Proof.
  revert b. induction n as [|n IH]; intros b; [constructor|]. rewrite block_elems_S. apply list.NoDup_cons. split.
  - intros [E|Ha]%elem_of_cons; [lia|]. apply block_elems_range in Ha. unfold LIST_SIZE in Ha. lia.
  - apply list.NoDup_cons. split; [|done]. intros Ha. apply block_elems_range in Ha. unfold LIST_SIZE in Ha. lia.
Qed.

(** ** The table *)

Lemma wp_on_mem {A} (m : st heap A) Q s : wp m (fun a h => Q a (Table h (hash_of s))) (mem_of s) -> wp (on_mem m) Q s.
Proof. unfold wp, on_mem. by destruct (m (mem_of s)) as [[]|]. Qed.

(** What the caller promises of its hash and comparison functions. *)
Definition same (less : Z -> Z -> bool) (x y : Z) : bool := negb (less x y) && negb (less y x).

Class HashFns (hash_fn : Z -> Z) (less : Z -> Z -> bool) := {
  hash_range e : 0 <= hash_fn e < 2 ^ 32;
  same_refl x : same less x x = true;
  same_trans x y z : same less x y = true -> same less y z = true -> same less x z = true;
  same_hash x y : same less x y = true -> hash_fn x = hash_fn y }.

Lemma same_sym less x y : same less x y = same less y x.
Proof. unfold same. apply andb_comm. Qed.

Section laws.
Context (hash_fn : Z -> Z) (less : Z -> Z -> bool) `{!HashFns hash_fn less}.
Implicit Types (s : table) (B : list (list Z)) (C U X : list Z).

Definition index (cnt e : Z) : Z := Z.land (hash_fn e) (u32 (cnt - 1)).

Lemma index_range p e : 0 <= p < 32 -> 0 <= index (2 ^ p) e < 2 ^ p.
Proof.
  intros Hp. assert (0 < 2 ^ p) by (apply Z.pow_pos_nonneg; lia).
  assert (2 ^ p < 2 ^ 32) by (apply Z.pow_lt_mono_r; lia). unfold index. rewrite u32_small by lia.
  replace (2 ^ p - 1) with (Z.ones p) by (rewrite Z.ones_equiv; lia). rewrite Z.land_ones by lia. apply Z.mod_pos_bound. lia.
Qed.

(** The elements of bucket [i] are those with index [i]. *)
Definition sorted_by_index (cnt : Z) B : Prop :=
  forall i X e, B !! i = Some X -> e ∈ X -> index cnt e = Z.of_nat i.

Definition power_cnt (cnt : Z) : Prop := exists p, 2 <= p < 32 /\ cnt = 2 ^ p.

Record rep s B U : Prop := {
  rp_lists : lists (mem_of s) (fam (buckets (hash_of s)) B) U;
  rp_cnt : bucket_cnt (hash_of s) = Z.of_nat (length B);
  rp_pow : power_cnt (bucket_cnt (hash_of s));
  rp_elems : elem_cnt (hash_of s) = Z.of_nat (length (mjoin B));
  rp_index : sorted_by_index (bucket_cnt (hash_of s)) B }.

(** The table holds the elements [C], no two of them equal. *)
Definition represents s C U : Prop :=
  exists B, rep s B U /\ mjoin B ≡ₚ C /\ (forall x y, x ∈ C -> y ∈ C -> same less x y = true -> x = y) /\
    Z.of_nat (length C) < 2 ^ 32.

Lemma bucket_of s B U e : rep s B U ->
  exists i X, B !! i = Some X /\ index (bucket_cnt (hash_of s)) e = Z.of_nat i.
Proof.
  intros Hr. destruct (rp_pow _ _ _ Hr) as (p & Hp & Ep). pose proof (index_range p e ltac:(lia)) as Hi. rewrite <- Ep in Hi.
  pose proof (rp_cnt _ _ _ Hr) as Ec. exists (Z.to_nat (index (bucket_cnt (hash_of s)) e)).
  destruct (lookup_lt_is_Some_2 B (Z.to_nat (index (bucket_cnt (hash_of s)) e))) as [X HX]; [lia|]. exists X. split; [done|lia].
Qed.

Lemma wp_find_bucket e i Q s : index (bucket_cnt (hash_of s)) e = Z.of_nat i ->
  Q (bucket_addr (buckets (hash_of s)) (Z.of_nat i)) s -> wp (find_bucket hash_fn e) Q s.
Proof. intros Hi HQ. unfold find_bucket. apply wp_bind, wp_gets. apply wp_ret. cbn zeta. fold (index (bucket_cnt (hash_of s)) e). by rewrite Hi. Qed.

(** *** Search *)

Lemma wp_find_loop n l P Y e Q h : dll h l (P ++ Y) -> (length Y <= n)%nat ->
  (forall x, x ∈ Y -> same less x e = true -> Q x h) ->
  ((forall x, x ∈ Y -> same less x e = false) -> Q NULL h) ->
  wp (find_loop less n (l + 8) e (succ l Y)) Q h.
Proof.
  revert n P. induction Y as [|y Y IH]; intros n P Hd Hn Hyes Hno.
  - unfold succ. simpl. destruct n; cbn [find_loop]; rewrite Z.eqb_refl; apply wp_ret, Hno; intros x Hx; by apply elem_of_nil in Hx.
  - change (succ l (y :: Y)) with y. simpl in Hn. destruct n as [|n]; [lia|]. cbn [find_loop].
    assert (y <> l + 8) as Hy.
    { pose proof (d_nodup _ _ _ Hd) as Hnd. unfold nodes in Hnd. rewrite <- app_assoc in Hnd.
      apply list.NoDup_cons in Hnd as [_ (_ & _ & Hnd)%list.NoDup_app]. cbn [app] in Hnd. apply list.NoDup_cons in Hnd as [Hnd _].
      intros ->. apply Hnd, elem_of_app. right. by left. }
    rewrite (proj2 (Z.eqb_neq _ _)) by done. destruct (negb (less y e) && negb (less e y)) eqn:Es.
    + apply wp_ret, Hyes; [by left|exact Es].
    + apply wp_bind. change (y :: Y) with ([y] ++ Y) in Hd. rewrite app_assoc in Hd.
      replace y with (pred l (P ++ [y])) at 1 by (unfold pred; by rewrite last_last). eapply wp_next_cut; [exact Hd|].
      apply (IH n (P ++ [y])); [done|lia| |].
      * intros x Hx. apply Hyes. by right.
      * intros Hall. apply Hno. intros x [->|Hx]%elem_of_cons; [exact Es|by apply Hall].
Qed.

Lemma wp_find_elem n s l X F U e Q : lists (mem_of s) ((l, X) :: F) U -> (length X <= n)%nat ->
  (forall x, x ∈ X -> same less x e = true -> Q x s) ->
  ((forall x, x ∈ X -> same less x e = false) -> Q NULL s) ->
  wp (find_elem less n l e) Q s.
Proof.
  intros Hl Hn Hyes Hno. pose proof (lists_head _ _ _ _ _ Hl) as Hd. unfold find_elem. apply wp_on_mem, wp_bind.
  eapply wp_begin; [exact Hd|]. apply wp_bind, wp_end; [by eapply dll_addr|].
  destruct s as [h0 hh]. apply (wp_find_loop n l [] X); [exact Hd|done|done|done].
Qed.

(** *** Insertion and removal in a bucket *)

Lemma lists_pick h b B i X U : lists h (fam b B) U -> B !! i = Some X ->
  exists R, lists h ((bucket_addr b (Z.of_nat i), X) :: R) U /\
    forall h' X' U', lists h' ((bucket_addr b (Z.of_nat i), X') :: R) U' -> lists h' (fam b (<[i := X']> B)) U'.
Proof.
  intros Hl HX. destruct (fam_pick b B i X HX) as [R HR]. exists R. split.
  - by rewrite <- HR, list_insert_id.
  - intros h' X' U' Hl'. by rewrite HR.
Qed.

Lemma join_length B i X X' : B !! i = Some X ->
  Z.of_nat (length (mjoin (<[i := X']> B))) = Z.of_nat (length (mjoin B)) - Z.of_nat (length X) + Z.of_nat (length X').
Proof.
  intros HX. destruct (join_pick B i X HX) as [R HR]. rewrite (HR X'). pose proof (HR X) as H. rewrite list_insert_id in H by done.
  rewrite H, !length_app. lia.
Qed.

Lemma index_insert cnt B i X X' : sorted_by_index cnt B -> B !! i = Some X ->
  (forall e, e ∈ X' -> e ∈ X \/ index cnt e = Z.of_nat i) -> sorted_by_index cnt (<[i := X']> B).
Proof.
  intros Hs HX Hin j Y e HY He. apply list_lookup_insert_Some in HY as [(-> & -> & _)|[_ HY]]; [|by eapply Hs].
  destruct (Hin e He); [by eapply Hs|done].
Qed.

Lemma wp_insert_elem s B i X e U Q : rep s B (e :: U) -> B !! i = Some X ->
  index (bucket_cnt (hash_of s)) e = Z.of_nat i -> Z.of_nat (length (mjoin B)) + 1 < 2 ^ 32 ->
  (forall s', rep s' (<[i := e :: X]> B) U -> no_new (mem_of s) (mem_of s') -> Q tt s') ->
  wp (insert_elem (bucket_addr (buckets (hash_of s)) (Z.of_nat i)) e) Q s.
Proof.
  intros [Hl Hc Hp He Hi] HX Hie Hsm HQ. destruct (lists_pick _ _ _ _ _ _ Hl HX) as (R & Hl1 & Hback).
  unfold insert_elem. apply wp_bind, wp_modify. apply wp_on_mem. cbn [mem_of hash_of].
  eapply wp_push_front; [exact Hl1|]. intros h' Hl' Hnew. apply HQ; [|done]. split; cbn [mem_of hash_of elem_cnt bucket_cnt buckets].
  - by apply Hback.
  - by rewrite length_insert.
  - done.
  - rewrite (join_length B i X) by done. rewrite He, u32_small by lia. simpl. lia.
  - eapply index_insert; [done|done|]. intros e' [->|?]%elem_of_cons; auto.
Qed.

Lemma wp_remove_elem s B i X1 x X2 U Q : rep s B U -> B !! i = Some (X1 ++ x :: X2) ->
  Z.of_nat (length (mjoin B)) < 2 ^ 32 ->
  (forall s', rep s' (<[i := X1 ++ X2]> B) (x :: U) -> bucket_cnt (hash_of s') = bucket_cnt (hash_of s) ->
     buckets (hash_of s') = buckets (hash_of s) -> no_new (mem_of s) (mem_of s') -> Q tt s') ->
  wp (remove_elem x) Q s.
Proof.
  intros [Hl Hc Hp He Hi] HX Hsm HQ. destruct (lists_pick _ _ _ _ _ _ Hl HX) as (R & Hl1 & Hback).
  unfold remove_elem. apply wp_bind, wp_modify. apply wp_bind, wp_on_mem. cbn [mem_of hash_of].
  eapply wp_remove_fam; [exact Hl1|]. intros h' Hl' Hnew. apply wp_ret, HQ; [|done|done|done].
  pose proof (join_length B i (X1 ++ x :: X2) (X1 ++ X2) HX) as Hlen. rewrite !length_app in Hlen. simpl in Hlen.
  split; cbn [mem_of hash_of elem_cnt bucket_cnt buckets].
  - by apply Hback.
  - by rewrite length_insert.
  - done.
  - rewrite Hlen, He, u32_small by lia. lia.
  - eapply index_insert; [done|done|]. intros e' He'. left. rewrite elem_of_app in He'. rewrite elem_of_app, elem_of_cons. tauto.
Qed.

(** *** rehash *)

Lemma wp_for_init n b F U Q s : lists (mem_of s) F (block_elems b n ++ U) ->
  (forall h', lists h' (fam b (replicate n []) ++ F) U -> Q tt (Table h' (hash_of s))) ->
  wp (for_buckets n b (fun b => on_mem (list_init b))) Q s.
Proof.
  revert b F s. induction n as [|n IH]; intros b F s Hl HQ; cbn [for_buckets].
  - apply wp_ret. destruct s. by apply HQ.
  - rewrite block_elems_S in Hl. apply wp_bind, wp_on_mem. eapply wp_init_fam; [exact Hl|]. intros h1 Hl1.
    apply (IH _ ((b, []) :: F)); [exact Hl1|]. intros h2 Hl2. apply HQ. simpl.
    assert ((b, []) :: fam (b + LIST_SIZE) (replicate n []) ++ F ≡ₚ fam (b + LIST_SIZE) (replicate n []) ++ (b, []) :: F) as -> by solve_Permutation.
    exact Hl2.
Qed.

(** The new buckets [NB] at [nb] and the lists [G] around them while
    elements move in. *)
Record moving (s : table) (nb : Z) (NB : list (list Z)) : Prop := {
  mv_cnt : bucket_cnt (hash_of s) = Z.of_nat (length NB);
  mv_pow : power_cnt (bucket_cnt (hash_of s));
  mv_at : buckets (hash_of s) = nb;
  mv_index : sorted_by_index (bucket_cnt (hash_of s)) NB }.

Lemma moving_bucket s nb NB e : moving s nb NB ->
  exists i X, NB !! i = Some X /\ index (bucket_cnt (hash_of s)) e = Z.of_nat i.
Proof.
  intros [Ec (p & Hp & Ep) _ _]. pose proof (index_range p e ltac:(lia)) as Hi. rewrite <- Ep in Hi.
  exists (Z.to_nat (index (bucket_cnt (hash_of s)) e)).
  destruct (lookup_lt_is_Some_2 NB (Z.to_nat (index (bucket_cnt (hash_of s)) e))) as [X HX]; [lia|]. exists X. split; [done|lia].
Qed.

Lemma wp_move_loop n l X nb NB G U Q s : moving s nb NB -> lists (mem_of s) ((l, X) :: fam nb NB ++ G) U -> (length X <= n)%nat ->
  (forall h' NB', moving (Table h' (hash_of s)) nb NB' -> lists h' ((l, []) :: fam nb NB' ++ G) U -> mjoin NB' ≡ₚ X ++ mjoin NB ->
     Q tt (Table h' (hash_of s))) ->
  wp (move_loop hash_fn n l (succ l X)) Q s.
Proof.
  revert n NB s. induction X as [|e X IH]; intros n NB s Hm Hl Hn HQ; pose proof (lists_head _ _ _ _ _ Hl) as Hd.
  - unfold succ. simpl. destruct n; cbn [move_loop]; (apply wp_bind, wp_on_mem, wp_end; [by eapply dll_addr|]);
      rewrite Z.eqb_refl; apply wp_ret; destruct s; by apply HQ with NB.
  - change (succ l (e :: X)) with e. simpl in Hn. destruct n as [|n]; [lia|]. cbn [move_loop].
    apply wp_bind, wp_on_mem, wp_end; [by eapply dll_addr|]. rewrite (proj2 (Z.eqb_neq _ _)).
    2:{ pose proof (d_nodup _ _ _ Hd) as [_ [Hnd _]%list.NoDup_cons]%list.NoDup_cons. intros ->. apply Hnd, elem_of_app. right. by left. }
    destruct s as [h0 hh]. cbn [mem_of hash_of] in *. destruct (moving_bucket _ _ _ e Hm) as (i & Y & HY & Hi). cbn [hash_of] in Hi.
    apply wp_bind. eapply wp_find_bucket; [exact Hi|]. pose proof (mv_at _ _ _ Hm) as Em. cbn [hash_of] in Em |- *. rewrite Em.
    apply wp_bind, wp_on_mem. replace e with (pred l [e]) at 1 by done. eapply (wp_next_cut l [e] X); [exact Hd|]. cbn [mem_of hash_of].
    apply wp_bind, wp_on_mem. eapply (wp_remove_fam l [] X e); [exact Hl|]. intros h1 Hl1 _. cbn [mem_of hash_of app] in *.
    destruct (fam_pick nb NB i Y HY) as [R HR]. pose proof (HR Y) as HRY. rewrite list_insert_id in HRY by done.
    apply wp_bind, wp_on_mem. eapply (wp_push_front _ Y e ((l, X) :: R ++ G) U).
    { assert ((bucket_addr nb (Z.of_nat i), Y) :: (l, X) :: R ++ G ≡ₚ (l, X) :: fam nb NB ++ G) as -> by (rewrite HRY; solve_Permutation). exact Hl1. }
    intros h2 Hl2 _. cbn [mem_of hash_of]. apply (IH n (<[i := e :: Y]> NB)).
    + destruct Hm as [M1 M2 M3 M4]. split; cbn [hash_of] in *; [by rewrite length_insert|done|done|].
      eapply index_insert; [done|done|]. intros e' [->|?]%elem_of_cons; auto.
    + cbn [mem_of]. assert ((l, X) :: fam nb (<[i := e :: Y]> NB) ++ G ≡ₚ (bucket_addr nb (Z.of_nat i), e :: Y) :: (l, X) :: R ++ G) as -> by (rewrite HR; solve_Permutation).
      exact Hl2.
    + lia.
    + intros h' NB' Hm' Hl' Hj. apply HQ with NB'; [done|done|]. rewrite Hj. destruct (join_pick NB i Y HY) as [S HS].
      pose proof (HS Y) as HSY. rewrite list_insert_id in HSY by done. rewrite (HS (e :: Y)), HSY. solve_Permutation.
Qed.

Lemma wp_for_move n OB ob nb NB G U Q s : moving s nb NB -> lists (mem_of s) (fam ob OB ++ fam nb NB ++ G) U ->
  (length (mjoin OB) <= n)%nat ->
  (forall h' NB', moving (Table h' (hash_of s)) nb NB' -> lists h' (fam ob (replicate (length OB) []) ++ fam nb NB' ++ G) U ->
     mjoin NB' ≡ₚ mjoin OB ++ mjoin NB -> Q tt (Table h' (hash_of s))) ->
  wp (for_buckets (length OB) ob (move_bucket hash_fn n)) Q s.
Proof.
  revert ob NB G s. induction OB as [|X OB IH]; intros ob NB G s Hm Hl Hn HQ; cbn [for_buckets length].
  - apply wp_ret. destruct s. by apply HQ with NB.
  - change (mjoin (X :: OB)) with (X ++ mjoin OB) in *. rewrite length_app in Hn. cbn [fam app] in Hl.
    assert (lists (mem_of s) ((ob, X) :: fam nb NB ++ fam (ob + LIST_SIZE) OB ++ G) U) as Hl0.
    { assert ((ob, X) :: fam nb NB ++ fam (ob + LIST_SIZE) OB ++ G ≡ₚ (ob, X) :: fam (ob + LIST_SIZE) OB ++ fam nb NB ++ G) as -> by solve_Permutation. exact Hl. }
    apply wp_bind. unfold move_bucket at 1. apply wp_bind, wp_on_mem. eapply wp_begin; [by eapply lists_head|].
    destruct s as [h0 hh]. cbn [mem_of hash_of] in *. eapply wp_move_loop; [done|exact Hl0|lia|].
    cbn [hash_of]. intros h1 NB1 Hm1 Hl1 Hj1. apply (IH _ NB1 ((ob, []) :: G)); [done| |lia|].
    + cbn [mem_of]. assert (fam (ob + LIST_SIZE) OB ++ fam nb NB1 ++ (ob, []) :: G ≡ₚ (ob, []) :: fam nb NB1 ++ fam (ob + LIST_SIZE) OB ++ G) as -> by solve_Permutation. exact Hl1.
    + cbn [hash_of]. intros h2 NB2 Hm2 Hl2 Hj2. apply HQ with NB2; [done| |].
      * cbn [replicate fam app]. assert ((ob, []) :: fam (ob + LIST_SIZE) (replicate (length OB) []) ++ fam nb NB2 ++ G ≡ₚ
          fam (ob + LIST_SIZE) (replicate (length OB) []) ++ fam nb NB2 ++ (ob, []) :: G) as -> by solve_Permutation. exact Hl2.
      * rewrite Hj2, Hj1. solve_Permutation.
Qed.

(** The block malloc returned for [c] elements is not mapped yet. *)
Definition fresh_block h (p c : Z) : Prop :=
  p = NULL \/ 0 < p /\ forall n e, ideal_bucket_cnt c = Ok n -> e ∈ block_elems p (Z.to_nat n) -> prevs h !! e = None /\ nexts h !! e = None.

Lemma fresh_block_no_new h h' p c : no_new h h' -> fresh_block h p c -> fresh_block h' p c.
Proof. intros Hn [->|[Hp Hf]]; [by left|]. right. split; [done|]. intros n e Hc He. destruct (Hf n e Hc He). destruct (Hn e). auto. Qed.

Lemma empty_index cnt k : sorted_by_index cnt (replicate k []).
Proof. intros i X e HX He. apply lookup_replicate in HX as [-> _]. by apply elem_of_nil in He. Qed.

Lemma join_empty k : mjoin (replicate k (@nil Z)) = [].
Proof. by induction k. Qed.

Lemma wp_rehash n p s B U Q : rep s B U -> Z.of_nat (length (mjoin B)) < 2 ^ 32 -> (length (mjoin B) <= n)%nat ->
  fresh_block (mem_of s) p (Z.of_nat (length (mjoin B))) ->
  (forall s' B', rep s' B' U -> mjoin B' ≡ₚ mjoin B -> Q tt s') -> wp (rehash hash_fn n p) Q s.
Proof.
  intros Hr Hsm Hn Hfr HQ. unfold rehash. apply wp_bind, wp_gets. cbn zeta. rewrite (rp_elems _ _ _ Hr).
  destruct (ideal_bucket_cnt_ok (Z.of_nat (length (mjoin B)))) as (q & Hq & Hid); [lia|]. rewrite Hid.
  apply wp_bind. change (lift (Ok (2 ^ q))) with (@mret (st table) _ _ (2 ^ q)). apply wp_ret.
  destruct (Z.eqb_spec (2 ^ q) (bucket_cnt (hash_of s))) as [|Hne]; [apply wp_ret; by apply HQ with B|].
  apply wp_bind. unfold malloc_lists. destruct Hfr as [->|[Hp Hfr]].
  { rewrite Z.eqb_refl. apply wp_bind, wp_ret, wp_ret. rewrite Z.eqb_refl. apply wp_ret. by apply HQ with B. }
  assert (p <> NULL) as Hp0 by (unfold NULL; lia). rewrite (proj2 (Z.eqb_neq p NULL)) by done.
  apply wp_bind, wp_modify, wp_ret. rewrite (proj2 (Z.eqb_neq p NULL)) by done.
  assert (0 < 2 ^ q) by (apply Z.pow_pos_nonneg; lia). destruct Hr as [Hl Hc Hpw He Hi].
  set (k := Z.to_nat (2 ^ q)) in *. apply wp_bind.
  eapply (wp_for_init k p (fam (buckets (hash_of s)) B) U).
  { cbn [mem_of]. apply lists_map; [done|apply block_elems_NoDup| |by intros e; apply Hfr].
    intros Hin%block_elems_range. unfold NULL in Hin. lia. }
  cbn [mem_of hash_of]. intros h1 Hl1. apply wp_bind, wp_modify. cbn [mem_of hash_of elem_cnt bucket_cnt buckets].
  apply wp_bind. assert (Z.to_nat (bucket_cnt (hash_of s)) = length B) as -> by lia.
  eapply (wp_for_move n B (buckets (hash_of s)) p (replicate k []) [] U).
  { split; cbn [hash_of bucket_cnt buckets]; [rewrite length_replicate; lia|by exists q|done|apply empty_index]. }
  { cbn [mem_of]. rewrite app_nil_r. by rewrite (Permutation_app_comm (fam (buckets (hash_of s)) B)). }
  { done. }
  cbn [hash_of]. intros h2 NB [M1 M2 _ M4] Hl2 Hj. cbn [hash_of bucket_cnt] in M1, M2, M4. rewrite join_empty, app_nil_r in Hj.
  unfold free_lists. destruct (Z.eqb_spec (buckets (hash_of s)) NULL) as [E0|_].
  { exfalso. destruct B as [|X B]; [rewrite Hc in Hpw; destruct Hpw as (q' & Hq' & E); assert (0 < 2 ^ q') by (apply Z.pow_pos_nonneg; lia); simpl in E; lia|].
    cbn [fam] in Hl. apply lists_head in Hl. by apply dll_addr in Hl as [? _]. }
  apply wp_modify. cbn [mem_of hash_of]. assert (Z.to_nat (bucket_cnt (hash_of s)) = length B) as -> by lia.
  apply HQ with NB; [|done]. split; cbn [mem_of hash_of elem_cnt bucket_cnt buckets]; [|done|done|by rewrite Hj|done].
  apply lists_unmap. rewrite <- fam_nodes_empty. rewrite app_nil_r in Hl2. by apply lists_forget.
Qed.

(** *** The operations *)

(** Searching the bucket of [e] is searching the table. *)
Lemma locate s B U e n : rep s B U -> (length (mjoin B) <= n)%nat ->
  exists i X r, B !! i = Some X /\ index (bucket_cnt (hash_of s)) e = Z.of_nat i /\
    (forall Q, Q r s -> wp (find_elem less n (bucket_addr (buckets (hash_of s)) (Z.of_nat i)) e) Q s) /\
    ((r <> NULL /\ r ∈ X /\ same less r e = true) \/ (r = NULL /\ forall x, x ∈ mjoin B -> same less x e = false)).
Proof.
  intros Hr Hn. destruct (bucket_of s B U e Hr) as (i & X & HX & Hi).
  destruct (lists_pick _ _ _ _ _ _ (rp_lists _ _ _ Hr) HX) as (R & Hl & _). pose proof (lists_head _ _ _ _ _ Hl) as Hd.
  assert (length X <= n)%nat as HnX.
  { destruct (join_pick B i X HX) as [S HS]. specialize (HS X). rewrite list_insert_id in HS by done. rewrite HS, length_app in Hn. lia. }
  set (P := fun r (s' : table) => s' = s /\ ((r <> NULL /\ r ∈ X /\ same less r e = true) \/ (r = NULL /\ forall x, x ∈ X -> same less x e = false))).
  assert (wp (find_elem less n (bucket_addr (buckets (hash_of s)) (Z.of_nat i)) e) P s) as Hw.
  { eapply wp_find_elem; [exact Hl|done| |].
    - intros x Hx Hs. split; [done|]. left. split_and!; [|done|done]. eapply dll_null; [exact Hd|]. apply nodes_elem. auto.
    - intros Hall. split; [done|]. by right. }
  destruct (wp_Ok _ _ _ Hw) as (r & s' & Er & -> & Hcase). exists i, X, r. split_and!; [done|done| |].
  - intros Q HQ. unfold wp. by rewrite Er.
  - destruct Hcase as [?|[-> Hall]]; [by left|]. right. split; [done|]. intros x Hx.
    apply list_elem_of_join in Hx as (Y & Hx & HY). apply list_elem_of_lookup in HY as [j HY].
    destruct (same less x e) eqn:Es; [|done]. exfalso. apply same_hash in Es as Eh.
    assert (Z.of_nat j = Z.of_nat i) as Eij by (rewrite <- Hi, <- (rp_index _ _ _ Hr j Y x HY Hx); unfold index; by rewrite Eh).
    apply Nat2Z.inj in Eij as ->. rewrite HX in HY. injection HY as ->. by rewrite Hall in Es.
Qed.

Lemma join_insert_cons B i X e C : B !! i = Some X -> mjoin B ≡ₚ C -> mjoin (<[i := e :: X]> B) ≡ₚ e :: C.
Proof.
  intros HX HC. destruct (join_pick B i X HX) as [R HR]. pose proof (HR X) as H0. rewrite list_insert_id in H0 by done.
  by rewrite HR, <- HC, H0.
Qed.

Lemma join_remove B i X1 x X2 C : B !! i = Some (X1 ++ x :: X2) -> mjoin B ≡ₚ C ->
  exists C', C ≡ₚ x :: C' /\ mjoin (<[i := X1 ++ X2]> B) ≡ₚ C'.
Proof.
  intros HX HC. destruct (join_pick B i _ HX) as [R HR]. pose proof (HR (X1 ++ x :: X2)) as H0. rewrite list_insert_id in H0 by done.
  exists (X1 ++ X2 ++ R). split; [rewrite <- HC, H0; solve_Permutation|]. rewrite HR. by rewrite app_assoc.
Qed.

(** A set without two equal elements. *)
Definition distinct C : Prop := forall x y, x ∈ C -> y ∈ C -> same less x y = true -> x = y.

Lemma distinct_cons e C : distinct C -> (forall x, x ∈ C -> same less x e = false) -> distinct (e :: C).
Proof.
  intros Hd He x y [->|Hx]%elem_of_cons [->|Hy]%elem_of_cons Hs; [done| | |by apply Hd].
  - rewrite same_sym, He in Hs; done.
  - rewrite He in Hs; done.
Qed.

Lemma distinct_sub C x C' : C ≡ₚ x :: C' -> distinct C -> distinct C'.
Proof. intros E Hd a b Ha Hb. apply Hd; rewrite E; by right. Qed.

(** After the one equal element has been taken out, none is left. *)
Lemma distinct_others C x C' e : C ≡ₚ x :: C' -> NoDup C -> distinct C -> same less x e = true ->
  forall y, y ∈ C' -> same less y e = false.
Proof.
  intros E Hnd Hd Hx y Hy. destruct (same less y e) eqn:Es; [|done]. exfalso. rewrite E in Hnd. apply list.NoDup_cons in Hnd as [Hnot _].
  apply Hnot. enough (x = y) as -> by done. apply Hd; [rewrite E; by left|rewrite E; by right|].
  apply same_trans with e; [done|]. by rewrite same_sym.
Qed.

Lemma contents_NoDup s B U : rep s B U -> NoDup (mjoin B).
Proof.
  intros Hr. pose proof (ls_nodup _ _ _ (rp_lists _ _ _ Hr)) as Hnd. apply list.NoDup_app in Hnd as (Hnd & _ & _).
  generalize dependent (buckets (hash_of s)). clear. induction B as [|X B IH]; intros b Hnd; [constructor|].
  cbn [fam] in Hnd. rewrite fam_nodes_cons in Hnd. cbn [fst snd] in Hnd. unfold nodes in Hnd.
  change (mjoin (X :: B)) with (X ++ mjoin B).
  assert (NoDup (X ++ fam_nodes (fam (b + LIST_SIZE) B))) as H1.
  { eapply (proj2 (proj2 (proj1 (list.NoDup_app [b; b + 8] _) _))). Unshelve. eapply perm_NoDup; [|exact Hnd]. solve_Permutation. }
  apply list.NoDup_app in H1 as (HX & Hdis & HB). apply list.NoDup_app. split_and!; [done| |by eapply IH].
  intros x Hx Hin. apply (Hdis x Hx). clear -Hin. revert b. induction B as [|Y B IH]; intros b; [by apply elem_of_nil in Hin|].
  cbn [fam]. rewrite fam_nodes_cons. apply elem_of_app. change (mjoin (Y :: B)) with (Y ++ mjoin B) in Hin.
  apply elem_of_app in Hin as [Hin|Hin]; [left; apply nodes_elem; auto|right; by apply IH].
Qed.

Definition absent C e : Prop := forall x, x ∈ C -> same less x e = false.

(** The block malloc may be asked for, whatever the call does. *)
Definition malloc_ready s p C : Prop :=
  forall c, Z.of_nat (length C) - 1 <= c <= Z.of_nat (length C) + 1 -> fresh_block (mem_of s) p c.

Lemma insert_ok n p s C U e : represents s C (e :: U) -> Z.of_nat (length C) + 1 < 2 ^ 32 -> (length C < n)%nat -> malloc_ready s p C ->
  exists old s', hash_insert hash_fn less n p e s = Ok (old, s') /\
    ((old = NULL /\ absent C e /\ represents s' (e :: C) U) \/
     (old ∈ C /\ same less old e = true /\ represents s' C (e :: U))).
Proof.
  intros (B & Hr & HC & Hd & _) Hsm Hn Hm. assert (length (mjoin B) = length C) as El by (by rewrite HC).
  destruct (locate s B _ e n Hr) as (i & X & r & HX & Hi & Hf & Hcase); [lia|].
  apply (wp_Ok (hash_insert hash_fn less n p e) (fun old s' => (old = NULL /\ absent C e /\ represents s' (e :: C) U) \/
     (old ∈ C /\ same less old e = true /\ represents s' C (e :: U)))).
  unfold hash_insert. apply wp_bind. eapply wp_find_bucket; [exact Hi|]. apply wp_bind, Hf.
  destruct Hcase as [(Hr0 & HrX & Hs)|[-> Habs]].
  - rewrite (proj2 (Z.eqb_neq _ _)) by done. apply wp_bind, wp_ret. apply wp_bind.
    eapply wp_rehash; [exact Hr|lia|lia|rewrite El; apply Hm; lia|]. intros s' B' Hr' HB'. apply wp_ret. right.
    split_and!; [|done|].
    + rewrite <- HC. apply list_elem_of_join. exists X. split; [done|]. by eapply list_elem_of_lookup_2.
    + exists B'. split_and!; [done|by rewrite HB'|done|lia].
  - rewrite Z.eqb_refl. apply wp_bind. eapply wp_insert_elem; [exact Hr|exact HX|exact Hi|lia|]. intros s1 Hr1 Hnew.
    pose proof (join_insert_cons B i X e C HX HC) as Hj. apply wp_bind.
    eapply wp_rehash; [exact Hr1|rewrite Hj; simpl; lia|rewrite Hj; simpl; lia| |].
    { rewrite Hj. eapply fresh_block_no_new; [exact Hnew|]. apply Hm. simpl. lia. }
    intros s' B' Hr' HB'. apply wp_ret. left.
    assert (absent C e) as Ha by (intros x Hx; apply Habs; by rewrite HC). split_and!; [done|done|].
    exists B'. split_and!; [done|by rewrite HB'|by apply distinct_cons|simpl; lia].
Qed.

Lemma find_ok n s C U e : represents s C U -> (length C <= n)%nat ->
  exists r, hash_find hash_fn less n e s = Ok (r, s) /\
    ((r = NULL /\ absent C e) \/ (r ∈ C /\ same less r e = true)).
Proof.
  intros (B & Hr & HC & _) Hn. assert (length (mjoin B) = length C) as El by (by rewrite HC).
  destruct (locate s B _ e n Hr) as (i & X & r & HX & Hi & Hf & Hcase); [lia|]. exists r.
  assert (wp (hash_find hash_fn less n e) (fun r' s' => r' = r /\ s' = s) s) as Hw.
  { unfold hash_find. apply wp_bind. eapply wp_find_bucket; [exact Hi|]. by apply Hf. }
  destruct (wp_Ok _ _ _ Hw) as (? & ? & E & -> & ->). split; [done|].
  destruct Hcase as [(_ & HrX & Hs)|[-> Habs]].
  - right. split; [|done]. rewrite <- HC. apply list_elem_of_join. exists X. split; [done|]. by eapply list_elem_of_lookup_2.
  - left. split; [done|]. intros x Hx. apply Habs. by rewrite HC.
Qed.

Lemma delete_ok n p s C U e : represents s C U -> (length C <= n)%nat -> malloc_ready s p C ->
  exists r s', hash_delete hash_fn less n p e s = Ok (r, s') /\
    ((r = NULL /\ absent C e /\ s' = s) \/
     (exists C', C ≡ₚ r :: C' /\ same less r e = true /\ represents s' C' (r :: U))).
Proof.
  intros (B & Hr & HC & Hd & Hsm) Hn Hm. assert (length (mjoin B) = length C) as El by (by rewrite HC).
  destruct (locate s B _ e n Hr) as (i & X & r & HX & Hi & Hf & Hcase); [lia|].
  apply (wp_Ok (hash_delete hash_fn less n p e) (fun r s' => (r = NULL /\ absent C e /\ s' = s) \/
     (exists C', C ≡ₚ r :: C' /\ same less r e = true /\ represents s' C' (r :: U)))).
  unfold hash_delete. apply wp_bind. eapply wp_find_bucket; [exact Hi|]. apply wp_bind, Hf.
  destruct Hcase as [(Hr0 & HrX & Hs)|[-> Habs]].
  - rewrite (proj2 (Z.eqb_neq _ _)) by done. cbn [negb]. apply list_elem_of_split in HrX as (X1 & X2 & ->).
    destruct (join_remove B i X1 r X2 C HX HC) as (C' & EC & HC'). assert (length C = S (length C')) as EC' by (by rewrite EC).
    apply wp_bind, wp_bind. eapply wp_remove_elem; [exact Hr|exact HX|lia|]. intros s1 Hr1 _ _ Hnew.
    eapply wp_rehash; [exact Hr1|rewrite HC'; lia|rewrite HC'; lia| |].
    { rewrite HC'. eapply fresh_block_no_new; [exact Hnew|]. apply Hm. lia. }
    intros s' B' Hr' HB'. apply wp_ret. right. exists C'. split_and!; [done|done|].
    exists B'. split_and!; [done|by rewrite HB'|by apply (distinct_sub C r C' EC)|lia].
  - rewrite Z.eqb_refl. cbn [negb]. apply wp_bind, wp_ret, wp_ret. left. split_and!; [done| |done]. intros x Hx. apply Habs. by rewrite HC.
Qed.

Lemma replace_ok n p s C U e : represents s C (e :: U) -> Z.of_nat (length C) + 1 < 2 ^ 32 -> (length C < n)%nat -> malloc_ready s p C ->
  exists old s', hash_replace hash_fn less n p e s = Ok (old, s') /\
    ((old = NULL /\ absent C e /\ represents s' (e :: C) U) \/
     (exists C', C ≡ₚ old :: C' /\ same less old e = true /\ represents s' (e :: C') (old :: U))).
Proof.
  intros (B & Hr & HC & Hd & _) Hsm Hn Hm. assert (length (mjoin B) = length C) as El by (by rewrite HC).
  destruct (locate s B _ e n Hr) as (i & X & r & HX & Hi & Hf & Hcase); [lia|].
  apply (wp_Ok (hash_replace hash_fn less n p e) (fun old s' => (old = NULL /\ absent C e /\ represents s' (e :: C) U) \/
     (exists C', C ≡ₚ old :: C' /\ same less old e = true /\ represents s' (e :: C') (old :: U)))).
  unfold hash_replace. apply wp_bind. eapply wp_find_bucket; [exact Hi|]. apply wp_bind, Hf.
  destruct Hcase as [(Hr0 & HrX & Hs)|[-> Habs]].
  - rewrite (proj2 (Z.eqb_neq _ _)) by done. cbn [negb]. apply list_elem_of_split in HrX as (X1 & X2 & ->).
    destruct (join_remove B i X1 r X2 C HX HC) as (C' & EC & HC'). assert (length C = S (length C')) as EC' by (by rewrite EC).
    apply wp_bind. eapply wp_remove_elem; [exact Hr|exact HX|lia|]. intros s1 Hr1 Ec Eb Hnew1.
    assert (rep s1 (<[i:=X1 ++ X2]> B) (e :: r :: U)) as Hr1'.
    { destruct Hr1 as [R1 R2 R3 R4 R5]. split; try done. eapply lists_proper; [reflexivity| |exact R1]. apply Permutation_swap. }
    assert (<[i:=X1 ++ X2]> B !! i = Some (X1 ++ X2)) as HX1 by (apply list_lookup_insert_eq; by eapply lookup_lt_Some).
    rewrite <- Eb. rewrite <- Ec in Hi. apply wp_bind. eapply wp_insert_elem; [exact Hr1'|exact HX1|exact Hi|rewrite HC'; lia|]. intros s2 Hr2 Hnew2.
    pose proof (join_insert_cons _ i _ e C' HX1 HC') as Hj. apply wp_bind.
    eapply wp_rehash; [exact Hr2|rewrite Hj; simpl; lia|rewrite Hj; simpl; lia| |].
    { rewrite Hj. eapply fresh_block_no_new; [exact Hnew2|]. eapply fresh_block_no_new; [exact Hnew1|]. apply Hm. simpl. lia. }
    intros s' B' Hr' HB'. apply wp_ret. right. exists C'. split_and!; [done|done|].
    exists B'. split_and!; [done|by rewrite HB'| |simpl; lia]. apply distinct_cons; [by apply (distinct_sub C r C' EC)|].
    eapply distinct_others; [exact EC| |done|done]. rewrite <- HC. by eapply contents_NoDup.
  - rewrite Z.eqb_refl. cbn [negb]. apply wp_bind, wp_ret. apply wp_bind. eapply wp_insert_elem; [exact Hr|exact HX|exact Hi|lia|]. intros s1 Hr1 Hnew.
    pose proof (join_insert_cons B i X e C HX HC) as Hj. apply wp_bind.
    eapply wp_rehash; [exact Hr1|rewrite Hj; simpl; lia|rewrite Hj; simpl; lia| |].
    { rewrite Hj. eapply fresh_block_no_new; [exact Hnew|]. apply Hm. simpl. lia. }
    intros s' B' Hr' HB'. apply wp_ret. left.
    assert (absent C e) as Ha by (intros x Hx; apply Habs; by rewrite HC). split_and!; [done|done|].
    exists B'. split_and!; [done|by rewrite HB'|by apply distinct_cons|simpl; lia].
Qed.

(** *** Iteration *)

Lemma fam_app b B1 B2 : fam b (B1 ++ B2) = fam b B1 ++ fam (bucket_addr b (Z.of_nat (length B1))) B2.
Proof.
  revert b. induction B1 as [|X B1 IH]; intros b; simpl; unfold bucket_addr.
  - by replace (b + LIST_SIZE * Z.of_nat 0) with b by lia.
  - rewrite IH. unfold bucket_addr. do 3 f_equal. lia.
Qed.

Lemma rep_bucket s B1 X B2 U : rep s (B1 ++ X :: B2) U -> dll (mem_of s) (bucket_addr (buckets (hash_of s)) (Z.of_nat (length B1))) X.
Proof.
  intros Hr. pose proof (rp_lists _ _ _ Hr) as Hl. rewrite fam_app in Hl. cbn [fam] in Hl.
  pose proof (ls_dll _ _ _ Hl) as HF. apply Forall_app in HF as [_ HF]. by apply Forall_inv in HF.
Qed.

Lemma interior_not_end h l P x Y : dll h l (P ++ x :: Y) -> x <> l + 8.
Proof.
  intros Hd ->. pose proof (d_nodup _ _ _ Hd) as Hnd. unfold nodes in Hnd. rewrite <- app_assoc in Hnd.
  apply list.NoDup_cons in Hnd as [_ (_ & _ & Hnd)%list.NoDup_app]. cbn [app] in Hnd. apply list.NoDup_cons in Hnd as [Hnd _].
  apply Hnd, elem_of_app. right. by left.
Qed.

(** Where the iterator stands: after [P] in the bucket after [B1]. *)
Definition standing s B1 (P Y : list Z) B2 U (i : hash_iterator) : Prop :=
  rep s (B1 ++ (P ++ Y) :: B2) U /\
  i = Iter (bucket_addr (buckets (hash_of s)) (Z.of_nat (length B1))) (pred (bucket_addr (buckets (hash_of s)) (Z.of_nat (length B1))) P).

Lemma wp_next_loop s B1 P Y B2 U k Q : rep s (B1 ++ (P ++ Y) :: B2) U -> (length B2 <= k)%nat ->
  let l := bucket_addr (buckets (hash_of s)) (Z.of_nat (length B1)) in
  (Y ++ mjoin B2 = [] -> forall b, Q (Iter b NULL) s) ->
  (forall x rest B1' P' Y' B2' i, Y ++ mjoin B2 = x :: rest -> standing s B1' (P' ++ [x]) Y' B2' U i -> it_elem i = x -> Y' ++ mjoin B2' = rest -> Q i s) ->
  wp (next_loop k (Iter l (succ l Y))) Q s.
Proof.
  revert B1 P Y k. induction B2 as [|Z B2 IH]; intros B1 P Y k Hr Hk l Hend Hmore; pose proof (rep_bucket _ _ _ _ _ Hr) as Hd; fold l in Hd;
    (destruct (dll_addr _ _ _ Hd) as [Hl0 _]); (destruct Y as [|x Y];
      [|destruct k; cbn [next_loop it_bucket it_elem]; (apply wp_bind, wp_on_mem, wp_end; [done|]); change (succ l (x :: Y)) with x;
        rewrite (proj2 (Z.eqb_neq _ _)) by (by eapply interior_not_end); apply wp_ret; destruct s as [h0 hh]; cbn [mem_of hash_of] in *;
        (eapply (Hmore x _ B1 P Y _ (Iter l x)); [reflexivity| |done|done]); (split; [by rewrite <- app_assoc|]); fold l; unfold pred; by rewrite last_last]).
  - pose proof (rp_cnt _ _ _ Hr) as Hc. rewrite length_app in Hc. simpl in Hc.
    destruct k; cbn [next_loop it_bucket it_elem]; (apply wp_bind, wp_on_mem, wp_end; [done|]); change (succ l []) with (l + 8);
      rewrite Z.eqb_refl; destruct s as [h0 hh]; cbn [mem_of hash_of] in *; apply wp_bind, wp_gets; cbn zeta; cbn [hash_of];
      (rewrite (proj2 (Z.leb_le _ _)) by (subst l; unfold bucket_addr, LIST_SIZE; lia)); apply wp_ret; by apply Hend.
  - simpl in Hk. destruct k as [|k]; [lia|]. pose proof (rp_cnt _ _ _ Hr) as Hc. rewrite length_app in Hc. simpl in Hc.
    cbn [next_loop it_bucket it_elem]. apply wp_bind, wp_on_mem, wp_end; [done|]. change (succ l []) with (l + 8).
    rewrite Z.eqb_refl. destruct s as [h0 hh]. cbn [mem_of hash_of] in *. apply wp_bind, wp_gets. cbn zeta. cbn [hash_of].
    rewrite (proj2 (Z.leb_gt _ _)) by (subst l; unfold bucket_addr, LIST_SIZE; lia).
    assert (rep (Table h0 hh) ((B1 ++ [P ++ []]) ++ ([] ++ Z) :: B2) U) as Hr' by (by rewrite <- app_assoc).
    assert (l + LIST_SIZE = bucket_addr (buckets hh) (Z.of_nat (length (B1 ++ [P ++ []])))) as Eb.
    { subst l. unfold bucket_addr. rewrite length_app. simpl. lia. }
    rewrite Eb. apply wp_bind, wp_on_mem. eapply wp_begin; [exact (rep_bucket _ _ _ _ _ Hr')|].
    apply (IH (B1 ++ [P ++ []]) [] Z k Hr'); [lia| |].
    + intros E b. by apply Hend.
    + intros y rest B1' P' Y' B2' i E. by apply (Hmore y rest).
Qed.

Lemma wp_iterate fuel rest s B1 P Y B2 U i Q : standing s B1 P Y B2 U i -> Y ++ mjoin B2 = rest -> (length rest < fuel)%nat ->
  Q rest s -> wp (iterate fuel i) Q s.
Proof.
  revert B1 P Y B2 i fuel Q. induction rest as [|x rest IH]; intros B1 P Y B2 i fuel Q [Hr ->] E Hf HQ; (destruct fuel as [|fuel]; [lia|]);
    cbn [iterate]; apply wp_bind; unfold hash_next; cbn [it_elem it_bucket]; apply wp_bind, wp_on_mem;
    (eapply wp_next_cut; [exact (rep_bucket _ _ _ _ _ Hr)|]); destruct s as [h0 hh]; cbn [mem_of hash_of] in *; apply wp_bind, wp_gets; cbn zeta;
    apply wp_bind; pose proof (rp_cnt _ _ _ Hr) as Hc; rewrite length_app in Hc; cbn [hash_of length] in Hc |- *;
    (eapply (wp_next_loop (Table h0 hh) B1 P Y B2 U); [exact Hr|lia| |]).
  - intros _ b. apply wp_ret. cbn [fst it_elem]. rewrite Z.eqb_refl. by apply wp_ret.
  - intros y r ? ? ? ? ? E'. rewrite E in E'. done.
  - intros E'. rewrite E in E'. done.
  - intros y r B1' P' Y' B2' i' E' Hst Hi' Hrest. rewrite E in E'. injection E' as <- <-. apply wp_ret. cbn [fst snd]. rewrite Hi'.
    destruct Hst as [Hr' Ei']. rewrite (proj2 (Z.eqb_neq _ _)).
    2:{ rewrite <- app_assoc in Hr'. eapply dll_null; [exact (rep_bucket _ _ _ _ _ Hr')|]. apply nodes_elem. right; left. apply elem_of_app. right. by left. }
    apply wp_bind. eapply (IH B1' (P' ++ [x]) Y' B2'); [by split|done|simpl in Hf; lia|]. apply wp_ret. exact HQ.
Qed.
End laws.

(** ** An empty table *)

Section init.
Context {A : Type} (action : Z -> A -> A) (hash_fn : Z -> Z) (less : Z -> Z -> bool).

Lemma wp_on_table {R} (m : st table R) Q (s : table * A) : wp m (fun r t => Q r (t, s.2)) s.1 -> wp (on_table m) Q s.
Proof. unfold wp, on_table. by destruct (m s.1) as [[]|]. Qed.

Lemma wp_for_clear n b F U Q s a : lists (mem_of s) F (block_elems b n ++ U) ->
  (forall h', lists h' (fam b (replicate n []) ++ F) U -> Q tt (Table h' (hash_of s), a)) ->
  wp (for_buckets_acc (A := A) n b (fun bucket => mret tt ≫= fun _ => on_table (on_mem (list_init bucket)))) Q (s, a).
Proof.
  revert b F s. induction n as [|n IH]; intros b F s Hl HQ; cbn [for_buckets_acc].
  - apply wp_ret. destruct s. by apply HQ.
  - rewrite block_elems_S in Hl. apply wp_bind, wp_bind, wp_ret, wp_on_table, wp_on_mem. eapply wp_init_fam; [exact Hl|]. intros h1 Hl1.
    apply (IH _ ((b, []) :: F)); [exact Hl1|]. intros h2 Hl2. apply HQ. simpl.
    assert ((b, []) :: fam (b + LIST_SIZE) (replicate n []) ++ F ≡ₚ fam (b + LIST_SIZE) (replicate n []) ++ (b, []) :: F) as -> by solve_Permutation.
    exact Hl2.
Qed.

Lemma empty_represents h b k U : lists h (fam b (replicate (Z.to_nat k) [])) U -> power_cnt k ->
  represents hash_fn less (Table h (Hash 0 k b)) [] U.
Proof.
  intros Hl Hp. exists (replicate (Z.to_nat k) []). split_and!.
  - destruct Hp as (q & Hq & ->). assert (0 < 2 ^ q) by (apply Z.pow_pos_nonneg; lia).
    split; cbn [mem_of hash_of elem_cnt bucket_cnt buckets]; [done|rewrite length_replicate; lia|by exists q|by rewrite join_empty|apply empty_index].
  - by rewrite join_empty.
  - intros x y Hx. by apply elem_of_nil in Hx.
  - simpl. lia.
Qed.

(** hash_init with the block [p] of four lists: an empty table. *)
Lemma hash_init_ok n p h hh a U : lists h [] U -> 0 < p ->
  (forall e, e ∈ block_elems p 4 -> prevs h !! e = None /\ nexts h !! e = None) ->
  exists s', hash_init action n p (Table h hh, a) = Ok (true, (s', a)) /\ represents hash_fn less s' [] U.
Proof.
  intros Hl Hp Hf. assert (p <> NULL) as Hp0 by (unfold NULL; lia).
  assert (wp (hash_init action n p) (fun b s => b = true /\ s.2 = a /\ represents hash_fn less s.1 [] U) (Table h hh, a)) as Hw.
  { unfold hash_init. apply wp_bind, wp_on_table, wp_modify. apply wp_bind, wp_on_table. unfold malloc_lists.
    rewrite (proj2 (Z.eqb_neq p NULL)) by done. apply wp_bind, wp_modify, wp_ret. apply wp_bind, wp_on_table, wp_modify.
    rewrite (proj2 (Z.eqb_neq p NULL)) by done. cbn [negb fst snd mem_of hash_of elem_cnt bucket_cnt buckets].
    apply wp_bind. unfold hash_clear. apply wp_bind, wp_on_table, wp_gets. cbn [fst snd hash_of bucket_cnt buckets]. apply wp_bind.
    eapply (wp_for_clear (Z.to_nat 4) p [] U).
    { cbn [mem_of]. apply lists_map; [done|apply block_elems_NoDup| |exact Hf]. intros Hin%block_elems_range. unfold NULL in Hin. lia. }
    intros h' Hl'. rewrite app_nil_r in Hl'. apply wp_on_table, wp_modify. cbn [fst snd mem_of hash_of elem_cnt bucket_cnt buckets].
    apply wp_ret. split_and!; [done|done|]. apply empty_represents; [done|]. exists 2. split; [lia|done]. }
  destruct (wp_Ok _ _ _ Hw) as (b & [s' a'] & E & -> & Ea & Hr). simpl in Ea, Hr. subst a'. eauto.
Qed.

Lemma fam_nodes_fam b B : fam_nodes (fam b B) ≡ₚ block_elems b (length B) ++ mjoin B.
Proof.
  revert b. induction B as [|X B IH]; intros b; [done|]. cbn [fam length]. rewrite fam_nodes_cons, block_elems_S, IH.
  change (mjoin (X :: B)) with (X ++ mjoin B). cbn [fst snd]. unfold nodes. solve_Permutation.
Qed.

(** hash_clear without a destructor: the elements are unlinked. *)
Lemma hash_clear_ok n s C U a : represents hash_fn less s C U ->
  exists s', hash_clear action n false (s, a) = Ok (tt, (s', a)) /\ represents hash_fn less s' [] (C ++ U).
Proof.
  intros (B & Hr & HC & _). destruct s as [h hh].
  assert (wp (hash_clear action n false) (fun _ s => s.2 = a /\ represents hash_fn less s.1 [] (C ++ U)) (Table h hh, a)) as Hw.
  { unfold hash_clear. apply wp_bind, wp_on_table, wp_gets. cbn [fst snd hash_of]. apply wp_bind.
    pose proof (rp_cnt _ _ _ _ Hr) as Hc. cbn [hash_of] in Hc.
    eapply (wp_for_clear (Z.to_nat (bucket_cnt hh)) (buckets hh) [] (C ++ U)).
    { cbn [mem_of]. pose proof (rp_lists _ _ _ _ Hr) as Hl. cbn [mem_of hash_of] in Hl. rewrite <- (app_nil_r (fam _ _)) in Hl.
      apply lists_forget in Hl. rewrite fam_nodes_fam, HC, <- app_assoc in Hl.
      by replace (Z.to_nat (bucket_cnt hh)) with (length B) by lia. }
    intros h' Hl'. rewrite app_nil_r in Hl'. apply wp_on_table, wp_modify. cbn [fst snd mem_of hash_of elem_cnt bucket_cnt buckets].
    split; [done|]. apply empty_represents; [done|]. apply (rp_pow _ _ _ _ Hr). }
  destruct (wp_Ok _ _ _ Hw) as ([] & [s' a'] & E & Ea & Hr'). simpl in Ea, Hr'. subst a'. eauto.
Qed.
End init.

(** ** Theorems *)

(** C8: A hash table refines a set.  On a table with contents [C], no two
    of them equal, [hash_find] returns an element equal to the key or NULL
    when there is none; [hash_insert] adds a new element unless an equal one
    is there; [hash_replace] adds it and takes an equal one out;
    [hash_delete] takes out the element equal to the key.  No call fails,
    the number of buckets changing or malloc returning NULL included. *)
Theorem hash_table_refines_set hash_fn less n p s C U e :
  HashFns hash_fn less -> represents hash_fn less s C (e :: U) ->
  Z.of_nat (length C) + 1 < 2 ^ 32 -> (length C < n)%nat -> malloc_ready s p C ->
  let absent := forall x, x ∈ C -> same less x e = false in
  (exists r, hash_find hash_fn less n e s = Ok (r, s) /\ ((r = NULL /\ absent) \/ (r ∈ C /\ same less r e = true))) /\
  (exists old s', hash_insert hash_fn less n p e s = Ok (old, s') /\
    ((old = NULL /\ absent /\ represents hash_fn less s' (e :: C) U) \/
     (old ∈ C /\ same less old e = true /\ represents hash_fn less s' C (e :: U)))) /\
  (exists old s', hash_replace hash_fn less n p e s = Ok (old, s') /\
    ((old = NULL /\ absent /\ represents hash_fn less s' (e :: C) U) \/
     (exists C', C ≡ₚ old :: C' /\ same less old e = true /\ represents hash_fn less s' (e :: C') (old :: U)))) /\
  (exists r s', hash_delete hash_fn less n p e s = Ok (r, s') /\
    ((r = NULL /\ absent /\ s' = s) \/
     (exists C', C ≡ₚ r :: C' /\ same less r e = true /\ represents hash_fn less s' C' (r :: e :: U)))).
Proof.
  intros Hf Hr Hsm Hn Hm. split_and!.
  - eapply find_ok; [done|exact Hr|lia].
  - by apply insert_ok.
  - by apply replace_ok.
  - apply delete_ok; [done|exact Hr|lia|done].
Qed.

(** Iteration with hash_first and hash_next visits every element of the
    table exactly once, ends with a null pointer and changes nothing. *)
Theorem hash_iteration_complete hash_fn less n s C U :
  represents hash_fn less s C U -> (length C < n)%nat ->
  exists i l, hash_first s = Ok (i, s) /\ iterate n i s = Ok (l, s) /\ l ≡ₚ C.
Proof.
  intros (B & Hr & HC & _) Hn.
  destruct B as [|X B].
  { pose proof (rp_cnt _ _ _ _ Hr) as Hc. destruct (rp_pow _ _ _ _ Hr) as (q & Hq & E). assert (0 < 2 ^ q) by (apply Z.pow_pos_nonneg; lia). simpl in Hc. lia. }
  assert (buckets (hash_of s) <> NULL) as Hb.
  { pose proof (rep_bucket hash_fn s [] X B U Hr) as Hd. apply dll_addr in Hd as [Hd _]. unfold bucket_addr in Hd. simpl in Hd. by rewrite Z.add_0_r in Hd. }
  exists (Iter (buckets (hash_of s)) (buckets (hash_of s))), (X ++ mjoin B). split_and!; [|  |exact HC].
  - destruct s as [h0 hh]. unfold hash_first, mbind, st_bind, gets, on_mem, list_head. cbn [mem_of hash_of] in *. unfold kassert_st.
    rewrite (proj2 (Z.eqb_neq _ _)) by done. done.
  - assert (wp (iterate n (Iter (buckets (hash_of s)) (buckets (hash_of s)))) (fun l s' => l = X ++ mjoin B /\ s' = s) s) as Hw.
    { eapply (wp_iterate hash_fn n (X ++ mjoin B) s [] [] X B U); [|done| |done].
      - split; [done|]. unfold bucket_addr. simpl. by rewrite Z.add_0_r.
      - change (X ++ mjoin B) with (mjoin (X :: B)). by rewrite HC. }
    destruct (wp_Ok _ _ _ Hw) as (? & ? & ? & -> & ->). done.
Qed.

(** ** Witnesses

    Elements by their address; six unlinked elements, an empty table at
    1000. *)
Definition addr_less (a b : Z) : bool := a <? b.

#[global] Instance addr_fns : HashFns u32 addr_less.
Proof.
  split; unfold same, addr_less.
  - intros e. apply u32_range.
  - intros x. rewrite Z.ltb_irrefl. done.
  - intros x y z H1 H2. apply andb_true_iff in H1, H2. apply andb_true_iff. lia.
  - intros x y H1. apply andb_true_iff in H1. f_equal. lia.
Qed.

Definition six : list Z := [16; 32; 48; 64; 80; 96].
Definition free_heap : heap := map_elems six (Heap ∅ ∅).

Lemma free_lists_six : lists free_heap [] six.
Proof.
  split; [constructor| | |].
  - apply list.Forall_forall. intros x Hx. repeat (apply elem_of_cons in Hx as [->|Hx]; [split; vm_compute; eauto|]). by apply elem_of_nil in Hx.
  - by apply (bool_decide_unpack _).
  - by apply (bool_decide_unpack _).
Qed.

Definition no_table : table := Table free_heap (Hash 0 0 0).
Definition empty_table : table :=
  match hash_init (A := unit) (fun _ a => a) 1 1000 (no_table, tt) with Ok (_, (s, _)) => s | Err _ => no_table end.

Lemma empty_table_represents : represents u32 addr_less empty_table [] six.
Proof.
  destruct (hash_init_ok (A := unit) (fun _ a => a) u32 addr_less 1 1000 free_heap (Hash 0 0 0) tt six) as (s' & E & Hr).
  - apply free_lists_six.
  - lia.
  - intros e He. vm_compute in He. repeat (apply elem_of_cons in He as [->|He]; [split; vm_compute; reflexivity|]). by apply elem_of_nil in He.
  - unfold empty_table. change (Table free_heap (Hash 0 0 0)) with no_table in E. by rewrite E.
Qed.

Lemma hash_table_refines_set_witness :
  exists old s', hash_insert u32 addr_less 1 NULL 16 empty_table = Ok (old, s') /\ old = NULL /\
    represents u32 addr_less s' [16] [32; 48; 64; 80; 96].
Proof.
  destruct (hash_table_refines_set u32 addr_less 1 NULL empty_table [] [32; 48; 64; 80; 96] 16 addr_fns empty_table_represents)
    as (_ & (old & s' & E & [(H1 & _ & H2)|(H1 & _)]) & _).
  - simpl. lia.
  - simpl. lia.
  - intros c _. by left.
  - exists old, s'. split; [exact E|]. split; [exact H1|exact H2].
  - exfalso. exact (not_elem_of_nil _ H1).
Defined.

Lemma hash_iteration_complete_witness : exists i l, hash_first empty_table = Ok (i, empty_table) /\ iterate 1 i empty_table = Ok (l, empty_table) /\ l ≡ₚ [].
Proof. apply (hash_iteration_complete u32 addr_less 1 empty_table [] six empty_table_represents). simpl. lia. Defined.

(** Sixteen insertions double the number of buckets; iteration then visits
    the sixteen elements. *)
Definition sixteen : list Z := (fun i => 16 * i) <$> seqZ 1 16.
Example sixteen_insertions :
  match hash_init (A := unit) (fun _ a => a) 17 1000 (Table (map_elems sixteen (Heap ∅ ∅)) (Hash 0 0 0), tt) with
  | Ok (_, (s, _)) =>
      s ← foldl (fun s e => s ← s; '(_, s) ← hash_insert (fun e => e / 16) addr_less 17 2000 e s; Ok s) (Ok s) sixteen;
      '(i, s) ← hash_first s; '(l, s) ← iterate 17 i s; Ok (bucket_cnt (hash_of s), elem_cnt (hash_of s), merge_sort Z.le l)
  | Err e => Err e
  end = Ok (8, 16, sixteen).
Proof. vm_compute. reflexivity. Qed.
