(* ===== verification/Bitmap.v ===== *)
(** * Bitmap (src/lib/kernel/bitmap.c)

    The bitmap over an array of 32-bit elements, with every ASSERT of the
    code and the wrap-around of size_t.  [to_bools] is the abstract
    contents; the refinement theorems state each operation on it. *)

From S2P Require Import Prelude.

(** [unsigned long] is 32 bits wide on the target (i386). *)
Definition ELEM_BITS : Z := 32.

(** struct bitmap *)
Record bitmap := Bitmap { bit_cnt : Z; bits : list Z }.

Definition BITMAP_ERROR : Z := 2 ^ 32 - 1.

Definition elem_idx (bit_idx : Z) : Z := bit_idx / ELEM_BITS.
Definition bit_mask (bit_idx : Z) : Z := u32 (Z.shiftl 1 (bit_idx mod ELEM_BITS)).
Definition elem_cnt (bit_cnt : Z) : Z := DIV_ROUND_UP bit_cnt ELEM_BITS.
Definition byte_cnt (bit_cnt : Z) : Z := u32 (4 * elem_cnt bit_cnt).
Definition last_mask (b : bitmap) : Z :=
  let last_bits := bit_cnt b mod ELEM_BITS in
  if last_bits =? 0 then u32 (-1) else u32 (u32 (Z.shiftl 1 last_bits) - 1).

Definition bitmap_size (b : bitmap) : Z := bit_cnt b.

(** [asm ("orl")], [asm ("andl")], [asm ("xorl")] on one element. *)
Definition bitmap_mark (b : bitmap) (bit_idx : Z) : outcome bitmap :=
  let idx := elem_idx bit_idx in
  let mask := bit_mask bit_idx in
  w ← zget (bits b) idx;
  l ← zset (bits b) idx (Z.lor w mask);
  Ok (Bitmap (bit_cnt b) l).

Definition bitmap_reset (b : bitmap) (bit_idx : Z) : outcome bitmap :=
  let idx := elem_idx bit_idx in
  let mask := bit_mask bit_idx in
  w ← zget (bits b) idx;
  l ← zset (bits b) idx (Z.land w (u32 (Z.lnot mask)));
  Ok (Bitmap (bit_cnt b) l).

Definition bitmap_flip (b : bitmap) (bit_idx : Z) : outcome bitmap :=
  let idx := elem_idx bit_idx in
  let mask := bit_mask bit_idx in
  w ← zget (bits b) idx;
  l ← zset (bits b) idx (Z.lxor w mask);
  Ok (Bitmap (bit_cnt b) l).

Definition bitmap_set (b : bitmap) (idx : Z) (value : bool) : outcome bitmap :=
  kassert (idx <? bit_cnt b) ≫= fun _ =>
  if value then bitmap_mark b idx else bitmap_reset b idx.

Definition bitmap_test (b : bitmap) (idx : Z) : outcome bool :=
  kassert (idx <? bit_cnt b) ≫= fun _ =>
  w ← zget (bits b) (elem_idx idx);
  Ok (negb (Z.land w (bit_mask idx) =? 0)).

Definition bitmap_set_multiple (b : bitmap) (start cnt : Z) (value : bool) : outcome bitmap :=
  kassert (start <=? bit_cnt b) ≫= fun _ =>
  kassert (u32 (start + cnt) <=? bit_cnt b) ≫= fun _ =>
  for_range (Z.to_nat cnt) 0 (fun i b => bitmap_set b (u32 (start + i)) value) b.

Definition bitmap_set_all (b : bitmap) (value : bool) : outcome bitmap :=
  bitmap_set_multiple b 0 (bitmap_size b) value.

Definition bitmap_count (b : bitmap) (start cnt : Z) (value : bool) : outcome Z :=
  kassert (start <=? bit_cnt b) ≫= fun _ =>
  kassert (u32 (start + cnt) <=? bit_cnt b) ≫= fun _ =>
  for_range (Z.to_nat cnt) 0
    (fun i value_cnt =>
       v ← bitmap_test b (u32 (start + i));
       Ok (if Bool.eqb v value then u32 (value_cnt + 1) else value_cnt)) 0.

Definition bitmap_contains (b : bitmap) (start cnt : Z) (value : bool) : outcome bool :=
  kassert (start <=? bit_cnt b) ≫= fun _ =>
  kassert (u32 (start + cnt) <=? bit_cnt b) ≫= fun _ =>
  r ← find_range (Z.to_nat cnt) 0
        (fun i => v ← bitmap_test b (u32 (start + i)); Ok (Bool.eqb v value));
  Ok (bool_decide (is_Some r)).

Definition bitmap_any (b : bitmap) (start cnt : Z) : outcome bool :=
  bitmap_contains b start cnt true.
Definition bitmap_none (b : bitmap) (start cnt : Z) : outcome bool :=
  r ← bitmap_contains b start cnt true; Ok (negb r).
Definition bitmap_all (b : bitmap) (start cnt : Z) : outcome bool :=
  r ← bitmap_contains b start cnt false; Ok (negb r).

Definition bitmap_scan (b : bitmap) (start cnt : Z) (value : bool) : outcome Z :=
  kassert (start <=? bit_cnt b) ≫= fun _ =>
  if cnt <=? bit_cnt b then
    let last := bit_cnt b - cnt in
    r ← find_range (Z.to_nat (last - start + 1)) start
          (fun i => c ← bitmap_contains b i cnt (negb value); Ok (negb c));
    Ok (default BITMAP_ERROR r)
  else Ok BITMAP_ERROR.

Definition bitmap_scan_and_flip (b : bitmap) (start cnt : Z) (value : bool)
  : outcome (Z * bitmap) :=
  idx ← bitmap_scan b start cnt value;
  if idx =? BITMAP_ERROR then Ok (idx, b)
  else b' ← bitmap_set_multiple b idx cnt (negb value); Ok (idx, b').

(** Creation.  [malloc_b] says whether the header allocation succeeds and
    [malloc_bits] is the uninitialised array the second allocation
    returns, if it does. *)
Definition bitmap_create (malloc_b : bool) (malloc_bits : option (list Z)) (bit_cnt : Z)
  : outcome (option bitmap) :=
  if malloc_b then
    match malloc_bits with
    | Some l => b ← bitmap_set_all (Bitmap bit_cnt l) false; Ok (Some b)
    | None =>
        if bit_cnt =? 0 then b ← bitmap_set_all (Bitmap bit_cnt []) false; Ok (Some b)
        else Ok None
    end
  else Ok None.

Definition bitmap_buf_size (bit_cnt : Z) : Z := u32 (8 + byte_cnt bit_cnt).

(** [block] is the storage after the header, as elements. *)
Definition bitmap_create_in_buf (bit_cnt : Z) (block : list Z) (block_size : Z)
  : outcome bitmap :=
  kassert (bitmap_buf_size bit_cnt <=? block_size) ≫= fun _ =>
  bitmap_set_all (Bitmap bit_cnt block) false.

Definition bitmap_file_size (b : bitmap) : Z := byte_cnt (bit_cnt b).

(** The bytes bitmap_write hands to the file, and the array bitmap_read
    obtains from [byte_cnt] bytes of the file. *)
Definition bitmap_bytes (b : bitmap) : list Z := words_to_bytes (bits b).
Definition bitmap_of_bytes (b : bitmap) (data : list Z) : outcome bitmap :=
  let l := bytes_to_words (Z.to_nat (elem_cnt (bit_cnt b))) data in
  w ← zget l (elem_cnt (bit_cnt b) - 1);
  l' ← zset l (elem_cnt (bit_cnt b) - 1) (Z.land w (last_mask b));
  Ok (Bitmap (bit_cnt b) l').

(** ** Abstract contents *)

(** Bit [i] of the bitmap. *)
Definition bit (b : bitmap) (i : Z) : bool :=
  Z.testbit (znth 0 (bits b) (i / ELEM_BITS)) (i mod ELEM_BITS).

Definition to_bools (b : bitmap) : list bool := bit b <$> seqZ 0 (bit_cnt b).

(** Well-formedness: the array has exactly the elements the bit count
    needs.  The bound keeps [bit_cnt + 31] inside size_t. *)
Record bitmap_wf (b : bitmap) : Prop := {
  wf_cnt : 0 <= bit_cnt b <= 2 ^ 32 - 32;
  wf_len : Z.of_nat (length (bits b)) = elem_cnt (bit_cnt b);
  wf_words : Forall is_word (bits b)
}.

(** A run of [cnt] bits equal to [value] at [i]. *)
Definition run (l : list bool) (i cnt : nat) (value : bool) : Prop :=
  forall k, (i <= k < i + cnt)%nat -> l !! k = Some value.

(** ** Words and bits *)

Lemma is_word_bits w : 0 <= w -> is_word w <-> forall n, 32 <= n -> Z.testbit w n = false.
Proof.
  intros Hw. unfold is_word. rewrite <- (Z.bounded_iff_bits_nonneg' 32) by lia. lia.
Qed.

Lemma bit_mask_pow i : bit_mask i = 2 ^ (i mod ELEM_BITS).
Proof.
  unfold bit_mask, ELEM_BITS. pose proof (Z.mod_pos_bound i 32).
  rewrite Z.shiftl_1_l. apply u32_small. split; [lia|].
  apply Z.pow_lt_mono_r; lia.
Qed.

Lemma bit_mask_testbit i n :
  0 <= n -> Z.testbit (bit_mask i) n = bool_decide (n = i mod ELEM_BITS).
Proof.
  intros Hn. unfold ELEM_BITS in *. rewrite bit_mask_pow.
  pose proof (Z.mod_pos_bound i 32). unfold ELEM_BITS.
  rewrite Z.pow2_bits_eqb by lia. case_bool_decide; lia.
Qed.

Lemma is_word_lor w m : is_word w -> is_word m -> is_word (Z.lor w m).
Proof.
  intros Hw Hm. assert (0 <= w /\ 0 <= m) as [? ?] by (unfold is_word in *; lia).
  apply is_word_bits; [by apply Z.lor_nonneg|]. intros n Hn.
  rewrite Z.lor_spec. rewrite (proj1 (is_word_bits w ltac:(done)) Hw n Hn).
  by rewrite (proj1 (is_word_bits m ltac:(done)) Hm n Hn).
Qed.

Lemma is_word_land w m : is_word w -> is_word (Z.land w m).
Proof.
  intros Hw. assert (0 <= w) by (unfold is_word in *; lia).
  apply is_word_bits; [apply Z.land_nonneg; by left|]. intros n Hn.
  rewrite Z.land_spec. by rewrite (proj1 (is_word_bits w ltac:(done)) Hw n Hn).
Qed.

Lemma is_word_lxor w m : is_word w -> is_word m -> is_word (Z.lxor w m).
Proof.
  intros Hw Hm. assert (0 <= w /\ 0 <= m) as [? ?] by (unfold is_word in *; lia).
  apply is_word_bits; [by apply Z.lxor_nonneg|]. intros n Hn.
  rewrite Z.lxor_spec. rewrite (proj1 (is_word_bits w ltac:(done)) Hw n Hn).
  by rewrite (proj1 (is_word_bits m ltac:(done)) Hm n Hn).
Qed.

Lemma is_word_bit_mask i : is_word (bit_mask i).
Proof. apply u32_range. Qed.

Lemma wf_index b i :
  bitmap_wf b -> 0 <= i < bit_cnt b -> 0 <= i / ELEM_BITS < Z.of_nat (length (bits b)).
Proof.
  intros Hwf Hi. rewrite (wf_len _ Hwf). unfold elem_cnt, ELEM_BITS.
  pose proof (wf_cnt _ Hwf).
  destruct (DIV_ROUND_UP_bounds (bit_cnt b) 32) as [? ?]; [lia..|].
  split; [apply Z.div_pos; lia|]. apply Z.div_lt_upper_bound; lia.
Qed.

Lemma wf_word b i :
  bitmap_wf b -> 0 <= i < bit_cnt b -> is_word (znth 0 (bits b) (i / ELEM_BITS)).
Proof.
  intros Hwf Hi. eapply Forall_lookup_1; [apply (wf_words _ Hwf)|].
  by apply znth_lookup, wf_index.
Qed.

Lemma index_split i j : i / ELEM_BITS = j / ELEM_BITS -> i mod ELEM_BITS = j mod ELEM_BITS -> i = j.
Proof.
  unfold ELEM_BITS. intros.
  rewrite (Z.div_mod i 32), (Z.div_mod j 32) by lia. congruence.
Qed.

(** ** The abstract view *)

Lemma length_to_bools b : length (to_bools b) = Z.to_nat (bit_cnt b).
Proof. unfold to_bools. by rewrite length_fmap, length_seqZ. Qed.

Lemma lookup_to_bools b i :
  0 <= i < bit_cnt b -> to_bools b !! Z.to_nat i = Some (bit b i).
Proof.
  intros Hi. unfold to_bools. rewrite list_lookup_fmap.
  rewrite lookup_seqZ_lt by lia. simpl. do 2 f_equal. lia.
Qed.

Lemma lookup_to_bools_nat b k v :
  to_bools b !! k = Some v <-> Z.of_nat k < bit_cnt b /\ bit b (Z.of_nat k) = v.
Proof.
  destruct (decide (Z.of_nat k < bit_cnt b)) as [Hk|Hk].
  - rewrite <- (Nat2Z.id k) at 1. rewrite lookup_to_bools by lia. naive_solver.
  - rewrite lookup_ge_None_2 by (rewrite length_to_bools; lia). naive_solver.
Qed.

Lemma to_bools_ext b l :
  length l = Z.to_nat (bit_cnt b) ->
  (forall i, 0 <= i < bit_cnt b -> l !! Z.to_nat i = Some (bit b i)) -> to_bools b = l.
Proof.
  intros Hlen Hl. apply list_eq_same_length with (Z.to_nat (bit_cnt b)); [done|apply length_to_bools|].
  intros k x y Hk Hx Hy. apply lookup_to_bools_nat in Hx as [? <-].
  specialize (Hl (Z.of_nat k)). rewrite Nat2Z.id in Hl.
  rewrite Hl in Hy by lia. congruence.
Qed.

(** Replacing one element by a word that differs in one bit. *)
Lemma update_word b i w' v :
  bitmap_wf b -> 0 <= i < bit_cnt b -> is_word w' ->
  (forall n, 0 <= n -> Z.testbit w' n =
     if decide (n = i mod ELEM_BITS) then v
     else Z.testbit (znth 0 (bits b) (i / ELEM_BITS)) n) ->
  let b' := Bitmap (bit_cnt b) (<[Z.to_nat (i / ELEM_BITS) := w']> (bits b)) in
  bitmap_wf b' /\ to_bools b' = <[Z.to_nat i := v]> (to_bools b).
Proof.
  intros Hwf Hi Hw' Hbits b'. pose proof (wf_index b i Hwf Hi) as Hidx.
  assert (forall j, 0 <= j < bit_cnt b -> bit b' j = if decide (i = j) then v else bit b j) as Hj.
  { intros j Hj. unfold bit, b'. simpl. unfold ELEM_BITS in *.
    rewrite znth_insert by (try lia; apply Z.div_pos; lia).
    pose proof (Z.mod_pos_bound j 32).
    destruct (decide (i / 32 = j / 32)) as [Hd|Hd].
    - rewrite Hbits by lia. destruct (decide (j mod 32 = i mod 32)) as [Hm|Hm].
      + by rewrite decide_True by (by apply index_split).
      + rewrite decide_False by (intros ->; lia). by rewrite Hd.
    - by rewrite decide_False by (intros ->; lia). }
  split.
  - destruct Hwf as [Hc Hl Hw]. split; simpl; [done|by rewrite length_insert|].
    by apply Forall_insert.
  - apply to_bools_ext; simpl.
    + by rewrite length_insert, length_to_bools.
    + intros j Hjr. rewrite Hj by done. case_decide as E.
      * subst j. apply list_lookup_insert_eq. rewrite length_to_bools. lia.
      * rewrite list_lookup_insert_ne by lia. by apply lookup_to_bools.
Qed.

Section word_ops.
Context (b : bitmap) (i : Z) (Hwf : bitmap_wf b) (Hi : 0 <= i < bit_cnt b).

Local Ltac word_op v :=
  unfold elem_idx; rewrite (zget_znth 0) by (by apply wf_index); simpl;
  rewrite zset_Ok by (by apply wf_index); simpl; eexists; split; [reflexivity|];
  apply (update_word b i _ v Hwf Hi);
  [auto using is_word_lor, is_word_land, is_word_lxor, is_word_bit_mask, wf_word|];
  intros n Hn.

Lemma bitmap_mark_spec :
  exists b', bitmap_mark b i = Ok b' /\ bitmap_wf b' /\
    to_bools b' = <[Z.to_nat i := true]> (to_bools b).
Proof.
  unfold bitmap_mark. word_op true.
  rewrite Z.lor_spec, bit_mask_testbit by lia.
  case_decide; case_bool_decide; try lia; by rewrite ?orb_true_r, ?orb_false_r.
Qed.

Lemma bitmap_reset_spec :
  exists b', bitmap_reset b i = Ok b' /\ bitmap_wf b' /\
    to_bools b' = <[Z.to_nat i := false]> (to_bools b).
Proof.
  unfold bitmap_reset. word_op false.
  rewrite Z.land_spec. unfold u32.
  destruct (decide (n < 32)).
  - rewrite Z.mod_pow2_bits_low, Z.lnot_spec, bit_mask_testbit by lia.
    case_decide; case_bool_decide; try lia; by rewrite ?andb_true_r, ?andb_false_r.
  - rewrite Z.mod_pow2_bits_high, andb_false_r by lia.
    pose proof (wf_word b i Hwf Hi) as Hw. case_decide; [done|].
    symmetry. apply is_word_bits; [unfold is_word in Hw; lia|done|lia].
Qed.

(** Flipping exchanges the bit with its negation. *)
Lemma bitmap_flip_spec :
  exists b', bitmap_flip b i = Ok b' /\ bitmap_wf b' /\
    to_bools b' = <[Z.to_nat i := negb (bit b i)]> (to_bools b).
Proof.
  unfold bitmap_flip. word_op (negb (bit b i)).
  rewrite Z.lxor_spec, bit_mask_testbit by lia. unfold bit.
  case_decide; case_bool_decide; try lia; subst; by rewrite ?xorb_true_r, ?xorb_false_r.
Qed.

Lemma bitmap_set_spec v :
  exists b', bitmap_set b i v = Ok b' /\ bitmap_wf b' /\
    to_bools b' = <[Z.to_nat i := v]> (to_bools b).
Proof.
  unfold bitmap_set. rewrite kassert_true by lia. simpl.
  destruct v; [apply bitmap_mark_spec|apply bitmap_reset_spec].
Qed.

Lemma bitmap_test_spec : bitmap_test b i = Ok (bit b i).
Proof.
  unfold bitmap_test. rewrite kassert_true by lia. simpl.
  unfold elem_idx. rewrite (zget_znth 0) by (by apply wf_index). simpl. f_equal.
  unfold bit. set (w := znth _ _ _). pose proof (Z.mod_pos_bound i 32).
  destruct (Z.testbit w (i mod ELEM_BITS)) eqn:E.
  - apply negb_true_iff, Z.eqb_neq. intros H0.
    assert (Z.testbit (Z.land w (bit_mask i)) (i mod ELEM_BITS) = false) as Hf
      by (rewrite H0; apply Z.bits_0).
    rewrite Z.land_spec, E, bit_mask_testbit in Hf by (unfold ELEM_BITS; lia).
    by rewrite bool_decide_true in Hf.
  - apply negb_false_iff, Z.eqb_eq, Z.bits_inj'. intros n Hn.
    rewrite Z.land_spec, Z.bits_0, bit_mask_testbit by lia.
    case_bool_decide; [subst n; by rewrite E|apply andb_false_r].
Qed.
End word_ops.

Lemma bit_cnt_to_bools b b' :
  bitmap_wf b -> bitmap_wf b' -> length (to_bools b') = length (to_bools b) ->
  bit_cnt b' = bit_cnt b.
Proof.
  intros H1 H2. rewrite !length_to_bools.
  pose proof (wf_cnt _ H1). pose proof (wf_cnt _ H2). lia.
Qed.

(** ** Ranges of bits *)

(** The contents after [cnt] bits from [start] are set. *)
Definition set_run (l : list bool) (start cnt : nat) (v : bool) : list bool :=
  splice l start (replicate cnt v).

Lemma set_run_S l start cnt v :
  (start + S cnt <= length l)%nat ->
  <[(start + cnt)%nat := v]> (set_run l start cnt v) = set_run l start (S cnt) v.
Proof.
  intros Hl. unfold set_run. apply list_eq. intros k.
  assert (length (splice l start (replicate cnt v)) = length l) as Hlen
    by (apply length_splice; rewrite length_replicate; lia).
  rewrite lookup_splice by (rewrite length_replicate; lia). rewrite length_replicate.
  destruct (decide (k = start + cnt)%nat) as [->|Hk].
  - rewrite list_lookup_insert_eq by lia. rewrite decide_True by lia.
    symmetry. apply lookup_replicate_2. lia.
  - rewrite list_lookup_insert_ne by lia.
    rewrite lookup_splice by (rewrite length_replicate; lia). rewrite length_replicate.
    repeat case_decide; try lia; try done.
    rewrite !lookup_replicate_2 by lia. done.
Qed.

Section ranges.
Context (b : bitmap) (start cnt : Z) (Hwf : bitmap_wf b).
Context (Hs : 0 <= start) (Hc : 0 <= cnt) (Hsc : start + cnt <= bit_cnt b).

Lemma range_no_wrap : u32 (start + cnt) = start + cnt.
Proof. pose proof (wf_cnt _ Hwf). apply u32_small. lia. Qed.

Lemma bitmap_set_multiple_spec v :
  exists b', bitmap_set_multiple b start cnt v = Ok b' /\ bitmap_wf b' /\
    to_bools b' = set_run (to_bools b) (Z.to_nat start) (Z.to_nat cnt) v.
Proof.
  unfold bitmap_set_multiple. rewrite range_no_wrap.
  rewrite !kassert_true by lia. simpl. pose proof (wf_cnt _ Hwf).
  destruct (for_range_inv (fun i b' => bitmap_wf b' /\
      to_bools b' = set_run (to_bools b) (Z.to_nat start) (Z.to_nat i) v)
      (Z.to_nat cnt) 0 (fun i b => bitmap_set b (u32 (start + i)) v) b) as (b' & Hr & Hwf' & Hb').
  - split; [done|]. unfold set_run, splice. simpl.
    by rewrite Nat.add_0_r, take_drop.
  - intros k b1 Hk [Hwf1 Hb1].
    assert (bit_cnt b1 = bit_cnt b) as Hcnt.
    { apply bit_cnt_to_bools; [done..|]. rewrite Hb1. unfold set_run.
      apply length_splice. rewrite length_replicate, length_to_bools. lia. }
    rewrite u32_small by lia.
    destruct (bitmap_set_spec b1 (start + k) Hwf1 ltac:(lia) v) as (b2 & -> & Hwf2 & Hb2).
    exists b2. split_and!; [done..|]. rewrite Hb2, Hb1.
    replace (Z.to_nat (start + k)) with (Z.to_nat start + Z.to_nat k)%nat by lia.
    replace (Z.to_nat (k + 1)) with (S (Z.to_nat k)) by lia.
    apply set_run_S. rewrite length_to_bools. lia.
  - exists b'. split_and!; [done..|]. rewrite Hb'. f_equal. lia.
Qed.

Lemma bitmap_contains_spec v :
  exists r, bitmap_contains b start cnt v = Ok r /\
    (r = true <-> exists k, start <= k < start + cnt /\ bit b k = v).
Proof.
  unfold bitmap_contains. rewrite range_no_wrap.
  rewrite !kassert_true by lia. simpl. pose proof (wf_cnt _ Hwf).
  destruct (find_range_spec (fun k => bit b (start + k) = v) (Z.to_nat cnt) 0
     (fun i => v0 ← bitmap_test b (u32 (start + i)); Ok (Bool.eqb v0 v)))
    as [(j & -> & Hj & Hbit & _)|[-> Hno]]; simpl.
  - intros k Hk. rewrite u32_small by lia. rewrite bitmap_test_spec by (done || lia).
    simpl. eexists; split; [done|]. apply eqb_true_iff.
  - exists true. split; [done|]. split; [|done]. intros _. exists (start + j). split; [lia|done].
  - exists false. split; [done|]. split; [done|]. intros (k & Hk & Hb).
    destruct (Hno (k - start)); [lia|]. by replace (start + (k - start)) with k by lia.
Qed.

Lemma not_contains_run v :
  (~ exists k, start <= k < start + cnt /\ bit b k = negb v) <->
  run (to_bools b) (Z.to_nat start) (Z.to_nat cnt) v.
Proof.
  split.
  - intros Hno k Hk. apply lookup_to_bools_nat. split; [lia|].
    destruct (bit b (Z.of_nat k)) eqn:E, v; try done; destruct Hno;
      exists (Z.of_nat k); split; (done || lia).
  - intros Hrun (k & Hk & Hb). specialize (Hrun (Z.to_nat k) ltac:(lia)).
    rewrite lookup_to_bools in Hrun by lia. injection Hrun as Hrun.
    destruct v; simpl in *; congruence.
Qed.

(** [bitmap_all] and friends decide whether the range is constant. *)
Lemma bitmap_all_spec :
  exists r, bitmap_all b start cnt = Ok r /\
    (r = true <-> run (to_bools b) (Z.to_nat start) (Z.to_nat cnt) true).
Proof.
  unfold bitmap_all. destruct (bitmap_contains_spec false) as (r & -> & Hr). simpl.
  exists (negb r). split; [done|]. rewrite <- not_contains_run. simpl.
  rewrite <- Hr. destruct r; naive_solver.
Qed.

Lemma bitmap_none_spec :
  exists r, bitmap_none b start cnt = Ok r /\
    (r = true <-> run (to_bools b) (Z.to_nat start) (Z.to_nat cnt) false).
Proof.
  unfold bitmap_none. destruct (bitmap_contains_spec true) as (r & -> & Hr). simpl.
  exists (negb r). split; [done|]. rewrite <- not_contains_run. simpl.
  rewrite <- Hr. destruct r; naive_solver.
Qed.

(** [bitmap_count] counts the bits of the range equal to the value. *)
Lemma bitmap_count_spec v :
  bitmap_count b start cnt v =
    Ok (Z.of_nat (length (filter (fun x => x = v)
          (window (to_bools b) (Z.to_nat start) (Z.to_nat cnt))))).
Proof.
  unfold bitmap_count. rewrite range_no_wrap.
  rewrite !kassert_true by lia. simpl. pose proof (wf_cnt _ Hwf).
  set (W := fun i => window (to_bools b) (Z.to_nat start) i).
  destruct (for_range_inv (fun i c =>
      c = Z.of_nat (length (filter (fun x => x = v) (W (Z.to_nat i)))))
      (Z.to_nat cnt) 0
      (fun i value_cnt => v0 ← bitmap_test b (u32 (start + i));
       Ok (if Bool.eqb v0 v then u32 (value_cnt + 1) else value_cnt)) 0)
    as (c & -> & ->); [done| |by replace (0 + Z.of_nat (Z.to_nat cnt)) with cnt by lia].
  intros k c Hk ->. rewrite (u32_small (start + k)) by lia. rewrite bitmap_test_spec by (done || lia).
  simpl. eexists; split; [done|].
  replace (Z.to_nat (k + 1)) with (S (Z.to_nat k)) by lia. unfold W, window.
  rewrite (take_S_r _ _ (bit b (start + k))).
  2: { rewrite lookup_drop. replace (Z.to_nat start + Z.to_nat k)%nat with (Z.to_nat (start + k)) by lia.
       apply lookup_to_bools. lia. }
  rewrite list.filter_app, length_app.
  assert (length (filter (fun x => x = v) (take (Z.to_nat k) (drop (Z.to_nat start) (to_bools b))))
          <= Z.to_nat k)%nat.
  { etrans; [apply length_filter|]. rewrite length_take. lia. }
  destruct (Bool.eqb (bit b (start + k)) v) eqn:E.
  - apply eqb_prop in E. rewrite filter_cons_True by done. simpl.
    rewrite u32_small by lia. lia.
  - apply eqb_false_iff in E. rewrite filter_cons_False by done. simpl. lia.
Qed.
End ranges.

(** ** Scanning *)

(** A range of at least one bit that does not fit in the bitmap cannot be
    a run. *)
Lemma run_fits b i cnt v :
  run (to_bools b) i cnt v -> (0 < cnt)%nat -> Z.of_nat (i + cnt) <= bit_cnt b.
Proof.
  intros Hrun Hc. specialize (Hrun (i + cnt - 1)%nat ltac:(lia)).
  apply lookup_to_bools_nat in Hrun. lia.
Qed.

(** [bitmap_scan] returns the least index at or after [start] of a run of
    [cnt] bits equal to [value], and BITMAP_ERROR exactly when there is
    none. *)
Lemma bitmap_scan_spec b start cnt v :
  bitmap_wf b -> 0 <= start <= bit_cnt b -> 0 < cnt ->
  (exists i, bitmap_scan b start cnt v = Ok i /\ i <> BITMAP_ERROR /\
     start <= i /\ i + cnt <= bit_cnt b /\
     run (to_bools b) (Z.to_nat i) (Z.to_nat cnt) v /\
     forall k, start <= k < i -> ~ run (to_bools b) (Z.to_nat k) (Z.to_nat cnt) v) \/
  (bitmap_scan b start cnt v = Ok BITMAP_ERROR /\
     forall k, start <= k -> ~ run (to_bools b) (Z.to_nat k) (Z.to_nat cnt) v).
Proof.
  intros Hwf Hs Hc. pose proof (wf_cnt _ Hwf). unfold bitmap_scan, BITMAP_ERROR.
  rewrite kassert_true by lia. simpl.
  destruct (Z.leb_spec cnt (bit_cnt b)) as [Hle|Hgt].
  2: { right. split; [done|]. intros k Hk Hr. apply run_fits in Hr; lia. }
  destruct (find_range_spec
     (fun k => run (to_bools b) (Z.to_nat k) (Z.to_nat cnt) v)
     (Z.to_nat (bit_cnt b - cnt - start + 1)) start
     (fun i => c ← bitmap_contains b i cnt (negb v); Ok (negb c)))
    as [(j & -> & Hj & Hrun & Hfirst)|[-> Hno]]; simpl.
  - intros k Hk. destruct (bitmap_contains_spec b k cnt Hwf ltac:(lia) ltac:(lia) ltac:(lia) (negb v))
      as (r & -> & Hr). simpl. exists (negb r). split; [done|].
    rewrite <- (not_contains_run b k cnt) by lia. rewrite <- Hr. destruct r; naive_solver.
  - left. exists j. split_and!; try (done || lia).
  - right. split; [done|]. intros k Hk Hr.
    pose proof (run_fits _ _ _ _ Hr ltac:(lia)). apply (Hno k); [lia|done].
Qed.

(** [bitmap_scan_and_flip] flips exactly the run it returns. *)
Lemma bitmap_scan_and_flip_spec b start cnt v :
  bitmap_wf b -> 0 <= start <= bit_cnt b -> 0 < cnt ->
  (exists i b', bitmap_scan_and_flip b start cnt v = Ok (i, b') /\ i <> BITMAP_ERROR /\
     start <= i /\ i + cnt <= bit_cnt b /\ bitmap_wf b' /\
     run (to_bools b) (Z.to_nat i) (Z.to_nat cnt) v /\
     (forall k, start <= k < i -> ~ run (to_bools b) (Z.to_nat k) (Z.to_nat cnt) v) /\
     to_bools b' = set_run (to_bools b) (Z.to_nat i) (Z.to_nat cnt) (negb v)) \/
  (bitmap_scan_and_flip b start cnt v = Ok (BITMAP_ERROR, b) /\
     forall k, start <= k -> ~ run (to_bools b) (Z.to_nat k) (Z.to_nat cnt) v).
Proof.
  intros Hwf Hs Hc. unfold bitmap_scan_and_flip.
  destruct (bitmap_scan_spec b start cnt v Hwf Hs Hc)
    as [(i & -> & Hi & Hsi & Hic & Hrun & Hfirst)|[-> Hno]]; simpl; [left|by right].
  destruct (Z.eqb_spec i BITMAP_ERROR) as [|_]; [done|].
  destruct (bitmap_set_multiple_spec b i cnt Hwf ltac:(lia) ltac:(lia) Hic (negb v))
    as (b' & -> & Hwf' & Hb'). simpl. eauto 12.
Qed.

(** ** Creation and the on-disk form *)

Lemma bitmap_create_spec n l :
  0 <= n <= 2 ^ 32 - 32 -> Z.of_nat (length l) = elem_cnt n -> Forall is_word l ->
  exists b, bitmap_create true (Some l) n = Ok (Some b) /\ bitmap_wf b /\
    to_bools b = replicate (Z.to_nat n) false.
Proof.
  intros Hn Hl Hw. unfold bitmap_create, bitmap_set_all, bitmap_size. simpl.
  assert (bitmap_wf (Bitmap n l)) as Hwf by done.
  destruct (bitmap_set_multiple_spec (Bitmap n l) 0 n Hwf ltac:(lia) ltac:(lia) ltac:(simpl; lia) false)
    as (b & -> & Hb & Heq). simpl. exists b. split_and!; [done..|].
  rewrite Heq. unfold set_run, splice. simpl. rewrite length_replicate.
  rewrite drop_ge by (rewrite length_to_bools; simpl; lia). apply app_nil_r.
Qed.

Lemma last_mask_testbit b n :
  0 <= n < 32 -> Z.testbit (last_mask b) n =
    bool_decide (bit_cnt b mod 32 = 0 \/ n < bit_cnt b mod 32).
Proof.
  intros Hn. unfold last_mask, ELEM_BITS. pose proof (Z.mod_pos_bound (bit_cnt b) 32).
  destruct (Z.eqb_spec (bit_cnt b mod 32) 0) as [->|Hz].
  - unfold u32. rewrite Z.mod_pow2_bits_low by lia. rewrite Z.bits_m1 by lia.
    by rewrite bool_decide_true by lia.
  - assert (0 < 2 ^ (bit_cnt b mod 32) < 2 ^ 32) by (split; [lia|apply Z.pow_lt_mono_r; lia]).
    rewrite Z.shiftl_1_l, !u32_small by (rewrite ?u32_small; lia).
    replace (2 ^ (bit_cnt b mod 32) - 1) with (Z.ones (bit_cnt b mod 32))
      by (rewrite Z.ones_equiv; lia).
    case_bool_decide.
    + apply Z.ones_spec_low. lia.
    + apply Z.ones_spec_high. lia.
Qed.

(** Writing a non-empty bitmap to its file and reading it back gives a
    bitmap with the same bits. *)
Lemma bitmap_bytes_roundtrip b b0 :
  bitmap_wf b -> bit_cnt b0 = bit_cnt b -> 0 < bit_cnt b ->
  exists b', bitmap_of_bytes b0 (bitmap_bytes b) = Ok b' /\ bitmap_wf b' /\
    to_bools b' = to_bools b.
Proof.
  intros Hwf Hcnt Hpos. unfold bitmap_of_bytes, bitmap_bytes.
  rewrite Hcnt, <- (wf_len _ Hwf), Nat2Z.id.
  rewrite <- (app_nil_r (words_to_bytes _)), bytes_to_words_to_bytes by apply Hwf.
  pose proof (wf_cnt _ Hwf). pose proof (wf_len _ Hwf) as Hlen.
  destruct (DIV_ROUND_UP_bounds (bit_cnt b) 32) as [Hd1 Hd2]; [lia..|].
  unfold elem_cnt, ELEM_BITS in Hlen.
  set (last := Z.of_nat (length (bits b)) - 1).
  rewrite (zget_znth 0) by lia. simpl. rewrite zset_Ok by lia. simpl.
  eexists; split; [reflexivity|]. split.
  - split; simpl; [done|by rewrite length_insert, Hlen|].
    apply Forall_insert; [apply Hwf|]. apply is_word_land.
    eapply Forall_lookup_1; [apply Hwf|]. apply znth_lookup. lia.
  - apply to_bools_ext; [by rewrite length_to_bools|simpl]. intros i Hi.
    rewrite lookup_to_bools by done. f_equal. unfold bit. simpl.
    pose proof (wf_index b i Hwf Hi) as Hidx. unfold ELEM_BITS in *.
    rewrite znth_insert by lia. case_decide as E; [|done].
    rewrite Z.land_spec. pose proof (Z.mod_pos_bound i 32).
    rewrite last_mask_testbit by lia. rewrite Hcnt, E, bool_decide_true; [by rewrite andb_true_r|].
    destruct (decide (bit_cnt b mod 32 = 0)) as [|Hm]; [by left|right].
    pose proof (Z.div_mod i 32 ltac:(lia)). pose proof (Z.div_mod (bit_cnt b) 32 ltac:(lia)).
    pose proof (Z.mod_pos_bound (bit_cnt b) 32 ltac:(lia)). lia.
Qed.

(** ** Sequences of operations against a list of booleans *)

Inductive bitmap_op :=
| OpSet (i : Z) (v : bool)
| OpFlip (i : Z)
| OpTest (i : Z)
| OpSetMultiple (start cnt : Z) (v : bool)
| OpCount (start cnt : Z) (v : bool).

(** The number an operation returns; 0 for void. *)
Definition run_bitmap_op (o : bitmap_op) (b : bitmap) : outcome (Z * bitmap) :=
  match o with
  | OpSet i v => b' ← bitmap_set b i v; Ok (0, b')
  | OpFlip i => b' ← bitmap_flip b i; Ok (0, b')
  | OpTest i => r ← bitmap_test b i; Ok (Z.b2z r, b)
  | OpSetMultiple start cnt v => b' ← bitmap_set_multiple b start cnt v; Ok (0, b')
  | OpCount start cnt v => r ← bitmap_count b start cnt v; Ok (r, b)
  end.

Definition ref_bitmap_op (o : bitmap_op) (l : list bool) : Z * list bool :=
  match o with
  | OpSet i v => (0, <[Z.to_nat i := v]> l)
  | OpFlip i => (0, alter negb (Z.to_nat i) l)
  | OpTest i => (Z.b2z (znth false l i), l)
  | OpSetMultiple start cnt v => (0, set_run l (Z.to_nat start) (Z.to_nat cnt) v)
  | OpCount start cnt v =>
      (Z.of_nat (length (filter (fun x => x = v) (window l (Z.to_nat start) (Z.to_nat cnt)))), l)
  end.

Definition bitmap_op_valid (n : Z) (o : bitmap_op) : Prop :=
  match o with
  | OpSet i _ | OpFlip i | OpTest i => 0 <= i < n
  | OpSetMultiple start cnt _ | OpCount start cnt _ => 0 <= start /\ 0 <= cnt /\ start + cnt <= n
  end.

Fixpoint run_bitmap_ops (os : list bitmap_op) (b : bitmap) : outcome (list Z * bitmap) :=
  match os with
  | [] => Ok ([], b)
  | o :: os' => r ← run_bitmap_op o b; rs ← run_bitmap_ops os' r.2; Ok (r.1 :: rs.1, rs.2)
  end.

Fixpoint ref_bitmap_ops (os : list bitmap_op) (l : list bool) : list Z * list bool :=
  match os with
  | [] => ([], l)
  | o :: os' => let r := ref_bitmap_op o l in let rs := ref_bitmap_ops os' r.2 in (r.1 :: rs.1, rs.2)
  end.

Lemma run_bitmap_op_refines o b :
  bitmap_wf b -> bitmap_op_valid (bit_cnt b) o ->
  exists b', run_bitmap_op o b = Ok ((ref_bitmap_op o (to_bools b)).1, b') /\ bitmap_wf b' /\
    bit_cnt b' = bit_cnt b /\ to_bools b' = (ref_bitmap_op o (to_bools b)).2.
Proof.
  intros Hwf Hv.
  assert (forall b', bitmap_wf b' -> length (to_bools b') = length (to_bools b) -> bit_cnt b' = bit_cnt b)
    as Hc by (intros; by apply bit_cnt_to_bools).
  destruct o as [i v|i|i|s c v|s c v]; simpl in *.
  - destruct (bitmap_set_spec b i Hwf Hv v) as (b' & -> & Hw & Hb). exists b'. simpl.
    split_and!; try done. apply Hc; [done|]. by rewrite Hb, length_insert.
  - destruct (bitmap_flip_spec b i Hwf Hv) as (b' & -> & Hw & Hb). exists b'. simpl.
    split_and!; try done; [apply Hc; [done|]; by rewrite Hb, length_insert|].
    rewrite Hb. apply list_eq. intros k. destruct (decide (Z.to_nat i = k)) as [<-|Hk].
    + rewrite list_lookup_insert_eq by (rewrite length_to_bools; lia).
      by rewrite list_lookup_alter_eq, lookup_to_bools by done.
    + by rewrite list_lookup_insert_ne, list_lookup_alter_ne.
  - rewrite (bitmap_test_spec b i Hwf Hv). simpl. exists b. split_and!; try done.
    do 3 f_equal. unfold znth. by rewrite nth_lookup, lookup_to_bools.
  - destruct Hv as (H1 & H2 & H3).
    destruct (bitmap_set_multiple_spec b s c Hwf H1 H2 H3 v) as (b' & -> & Hw & Hb). exists b'. simpl.
    split_and!; try done. apply Hc; [done|]. rewrite Hb. unfold set_run.
    rewrite length_splice; [done|]. rewrite length_replicate, length_to_bools. lia.
  - destruct Hv as (H1 & H2 & H3). rewrite (bitmap_count_spec b s c Hwf H1 H2 H3 v). simpl. by exists b.
Qed.

(** ** Properties *)

(** C24: any sequence of bitmap_set, bitmap_flip, bitmap_test,
    bitmap_set_multiple and bitmap_count calls inside the bitmap runs
    without a failed assertion and returns what the same calls return on
    a plain list of booleans, and the bitmap afterwards represents that
    list. *)
Theorem bitmap_ops_refine os b :
  bitmap_wf b -> Forall (bitmap_op_valid (bit_cnt b)) os ->
  exists b', run_bitmap_ops os b = Ok ((ref_bitmap_ops os (to_bools b)).1, b') /\ bitmap_wf b' /\
    to_bools b' = (ref_bitmap_ops os (to_bools b)).2.
Proof.
  revert b; induction os as [|o os IH]; intros b Hwf Hv; simpl; [by exists b|].
  apply Forall_cons_1 in Hv as [Ho Hos].
  destruct (run_bitmap_op_refines o b Hwf Ho) as (b1 & -> & Hw1 & Hc1 & Hb1). simpl.
  destruct (IH b1) as (b2 & -> & Hw2 & Hb2); [done|by rewrite Hc1|].
  exists b2. simpl. by rewrite <- Hb1.
Qed.

Lemma bitmap_ops_refine_witness :
  exists b', run_bitmap_ops [OpSet 3 true; OpFlip 33; OpCount 0 40 true; OpSetMultiple 2 31 false; OpTest 33]
    (Bitmap 40 [0; 0]) = Ok ([0; 0; 2; 0; 1], b').
Proof.
  destruct (bitmap_ops_refine [OpSet 3 true; OpFlip 33; OpCount 0 40 true; OpSetMultiple 2 31 false; OpTest 33]
    (Bitmap 40 [0; 0])) as (b' & Hrun & _).
  - split; [simpl; lia|reflexivity|]. repeat constructor; unfold is_word; lia.
  - simpl. repeat constructor; simpl; lia.
  - exists b'. rewrite Hrun. reflexivity.
Defined.

(** Bitmap_scan_and_flip from bit 0 finds the first group of [cnt]
    clear bits, if there is one, and marks exactly it: the group passes
    the bitmap_all test of free_map_release, clearing it again restores
    the contents, and no earlier group was clear.  If there is none it
    returns BITMAP_ERROR and changes nothing. *)
Theorem bitmap_allocate_release b cnt :
  bitmap_wf b -> 0 < cnt ->
  (exists i b1 b2, bitmap_scan_and_flip b 0 cnt false = Ok (i, b1) /\
     0 <= i /\ i + cnt <= bit_cnt b /\
     to_bools b1 = set_run (to_bools b) (Z.to_nat i) (Z.to_nat cnt) true /\
     (forall k, 0 <= k < i -> ~ run (to_bools b) (Z.to_nat k) (Z.to_nat cnt) false) /\
     bitmap_all b1 i cnt = Ok true /\
     bitmap_set_multiple b1 i cnt false = Ok b2 /\ to_bools b2 = to_bools b) \/
  (bitmap_scan_and_flip b 0 cnt false = Ok (BITMAP_ERROR, b) /\
     forall k, 0 <= k -> ~ run (to_bools b) (Z.to_nat k) (Z.to_nat cnt) false).
Proof.
  intros Hwf Hc.
  destruct (bitmap_scan_and_flip_spec b 0 cnt false) as
    [(i & b1 & Hrun & _ & Hi & Hin & Hw1 & Hr & Hleast & Hb1)|?]; [done|split; [lia|apply (wf_cnt _ Hwf)]|done| |by right].
  left. assert (Z.to_nat i + Z.to_nat cnt <= length (to_bools b))%nat as Hfit
    by (rewrite length_to_bools; lia).
  assert (bit_cnt b1 = bit_cnt b) as Hcnt.
  { apply bit_cnt_to_bools; [done..|]. rewrite Hb1. unfold set_run.
    rewrite length_splice; [done|]. by rewrite length_replicate. }
  destruct (bitmap_all_spec b1 i cnt Hw1) as (r & Hall & Hr1); [lia..|].
  destruct (bitmap_set_multiple_spec b1 i cnt Hw1) with (v := false) as (b2 & Hset & Hw2 & Hb2); [lia..|].
  exists i, b1, b2. split_and!; try done.
  - rewrite Hall. f_equal. apply Hr1. intros k Hk. rewrite Hb1. unfold set_run.
    rewrite lookup_splice, length_replicate by (by rewrite length_replicate).
    rewrite decide_True by lia. apply lookup_replicate. split; [done|lia].
  - rewrite Hb2, Hb1. unfold set_run. apply list_eq. intros k.
    rewrite lookup_splice, length_replicate;
      [|rewrite length_splice; by rewrite length_replicate].
    case_decide as Hk.
    + rewrite (Hr k Hk). apply lookup_replicate. split; [done|lia].
    + rewrite lookup_splice, length_replicate by (by rewrite length_replicate).
      by rewrite decide_False.
Qed.

Lemma bitmap_allocate_release_witness :
  bitmap_wf (Bitmap 40 [Z.ones 31; 5]) /\
  exists b1, bitmap_scan_and_flip (Bitmap 40 [Z.ones 31; 5]) 0 2 false = Ok (35, b1).
Proof.
  assert (bitmap_wf (Bitmap 40 [Z.ones 31; 5])) as Hwf.
  { split; [simpl; lia|reflexivity|]. repeat constructor; unfold is_word; vm_compute; done. }
  split; [done|].
  destruct (bitmap_allocate_release (Bitmap 40 [Z.ones 31; 5]) 2 Hwf) as [(i & b1 & _ & H & _)|[H _]].
  - lia.
  - exists b1. rewrite H. vm_compute in H. vm_compute. by injection H as <- <-.
  - vm_compute in H. done.
Defined.

(** Reading back the bytes that bitmap_write stores, into any bitmap
    of the same bit count, gives the same contents (bits past bit_cnt in
    the last element are masked off). *)
Theorem bitmap_file_roundtrip b b0 :
  bitmap_wf b -> bit_cnt b0 = bit_cnt b -> 0 < bit_cnt b ->
  Z.of_nat (length (bitmap_bytes b)) = bitmap_file_size b /\
  exists b', bitmap_of_bytes b0 (bitmap_bytes b) = Ok b' /\ bitmap_wf b' /\ to_bools b' = to_bools b.
Proof.
  intros Hwf Hb0 Hpos. split; [|by apply bitmap_bytes_roundtrip].
  unfold bitmap_bytes, bitmap_file_size, byte_cnt. rewrite length_words_to_bytes.
  pose proof (wf_len _ Hwf) as Hl. pose proof (wf_cnt _ Hwf).
  destruct (DIV_ROUND_UP_bounds (bit_cnt b) 32) as [? ?]; [lia..|].
  unfold elem_cnt, ELEM_BITS in *. rewrite u32_small; lia.
Qed.

Lemma bitmap_file_roundtrip_witness :
  exists b', bitmap_of_bytes (Bitmap 40 [7; 7]) (bitmap_bytes (Bitmap 40 [2 ^ 31; 256 + 255])) = Ok b' /\
    to_bools b' = to_bools (Bitmap 40 [2 ^ 31; 255]).
Proof.
  destruct (bitmap_file_roundtrip (Bitmap 40 [2 ^ 31; 256 + 255]) (Bitmap 40 [7; 7])) as (_ & b' & H & _ & Hb).
  - split; [simpl; lia|reflexivity|]. repeat constructor; unfold is_word; vm_compute; done.
  - reflexivity.
  - simpl; lia.
  - exists b'. split; [exact H|]. rewrite Hb. vm_compute. reflexivity.
Defined.
