(* ===== verification/Block.v ===== *)
(** * Block devices (src/devices/block.c, block.h and the driver side of
      src/devices/partition.c)

    A block device is a descriptor over a driver.  The driver
    (struct block_operations, filled in by ide.c or partition.c) is the
    interface [BlockDriver]; what a driver promises is [BlockDriverLaws].
    A registered block is itself a driver that satisfies the laws, and so
    is a partition of a block, which is how the file system device is
    stacked on the disk. *)

From S2P Require Import Prelude.

Definition BLOCK_SECTOR_SIZE : Z := 512.
Definition sector_bytes : nat := 512.

(** ** The driver interface *)

(** struct block_operations: [read] and [write] of one sector. *)
Class BlockDriver (D : Type) := {
  drv_read : Z -> st D (list Z);
  drv_write : Z -> list Z -> st D unit
}.

(** What the layers above rely on: below [drv_size] a read returns the
    sector's contents and changes no contents, a write replaces the
    contents of one sector. *)
Class BlockDriverLaws (D : Type) `{BlockDriver D} := {
  drv_size : D -> Z;
  drv_content : D -> Z -> list Z;
  drv_ok : D -> Prop;
  drv_content_len : forall d s, drv_ok d -> 0 <= s < drv_size d ->
    length (drv_content d s) = sector_bytes;
  drv_content_bytes : forall d s, drv_ok d -> 0 <= s < drv_size d ->
    Forall is_byte (drv_content d s);
  drv_read_ok : forall d s, drv_ok d -> 0 <= s < drv_size d ->
    exists d', drv_read s d = Ok (drv_content d s, d') /\
      drv_ok d' /\ drv_size d' = drv_size d /\
      forall s', 0 <= s' < drv_size d -> drv_content d' s' = drv_content d s';
  drv_write_ok : forall d s buf, drv_ok d -> 0 <= s < drv_size d ->
    length buf = sector_bytes -> Forall is_byte buf ->
    exists d', drv_write s buf d = Ok (tt, d') /\
      drv_ok d' /\ drv_size d' = drv_size d /\
      forall s', 0 <= s' < drv_size d ->
        drv_content d' s' = if decide (s = s') then buf else drv_content d s'
}.

(** A disk held in memory, the reference driver. *)
Definition ramdisk : Type := list (list Z).

#[global] Instance ramdisk_driver : BlockDriver ramdisk := {|
  drv_read s := fun d => x ← zget d s; Ok (x, d);
  drv_write s buf := fun d => d' ← zset d s buf; Ok (tt, d')
|}.

#[global] Program Instance ramdisk_laws : BlockDriverLaws ramdisk := {|
  drv_size d := Z.of_nat (length d);
  drv_content d s := znth [] d s;
  drv_ok d := Forall (fun x => length x = sector_bytes /\ Forall is_byte x) d
|}.
Next Obligation.
  intros d s Hok Hs. eapply Forall_lookup_1 in Hok; [apply Hok|]. by apply znth_lookup.
Qed.
Next Obligation.
  intros d s Hok Hs. eapply Forall_lookup_1 in Hok; [apply Hok|]. by apply znth_lookup.
Qed.
Next Obligation.
  intros d s Hok Hs. simpl. rewrite (zget_znth []) by done. simpl. eauto.
Qed.
Next Obligation.
  intros d s buf Hok Hs Hl Hb. simpl. rewrite zset_Ok by done. simpl.
  eexists; split; [done|]. rewrite length_insert. split_and!; [by apply Forall_insert|done|].
  intros s' Hs'. rewrite znth_insert by lia. done.
Qed.

(** ** Block descriptors *)

(** enum block_type; BLOCK_ROLE_CNT equals BLOCK_RAW. *)
Inductive block_type :=
| BLOCK_KERNEL | BLOCK_FILESYS | BLOCK_SCRATCH | BLOCK_SWAP | BLOCK_RAW | BLOCK_FOREIGN.

#[global] Instance block_type_eq_dec : EqDecision block_type.
Proof. solve_decision. Defined.

(** The enumerator's value. *)
Definition type_no (t : block_type) : Z :=
  match t with
  | BLOCK_KERNEL => 0 | BLOCK_FILESYS => 1 | BLOCK_SCRATCH => 2
  | BLOCK_SWAP => 3 | BLOCK_RAW => 4 | BLOCK_FOREIGN => 5
  end.
Definition BLOCK_ROLE_CNT : Z := 4.

Section block.
Context {D : Type} `{BlockDriver D}.

(** struct block; [driver] stands for the pair ops, aux. *)
Record block := Block {
  b_name : list Z;
  b_type : block_type;
  b_size : Z;
  driver : D;
  read_cnt : Z;
  write_cnt : Z
}.

Definition block_size (b : block) : Z := b_size b.
Definition block_name (b : block) : list Z := b_name b.

(** PANIC if the sector is past the end of the device. *)
Definition check_sector (b : block) (sector : Z) : outcome unit :=
  if b_size b <=? sector then Err Panic else Ok tt.

Definition block_read (sector : Z) : st block (list Z) := fun b =>
  check_sector b sector ≫= fun _ =>
  r ← drv_read sector (driver b);
  Ok (r.1, Block (b_name b) (b_type b) (b_size b) r.2
             (u64 (read_cnt b + 1)) (write_cnt b)).

Definition block_write (sector : Z) (buffer : list Z) : st block unit := fun b =>
  check_sector b sector ≫= fun _ =>
  kassert (bool_decide (b_type b <> BLOCK_FOREIGN)) ≫= fun _ =>
  r ← drv_write sector buffer (driver b);
  Ok (tt, Block (b_name b) (b_type b) (b_size b) r.2
            (read_cnt b) (u64 (write_cnt b + 1))).

(** ** The registry: all_blocks in probe order and block_by_role.
    A struct block pointer is the index of its descriptor, which is
    allocated once and never freed. *)
Record blocks := Blocks {
  all_blocks : list block;
  block_by_role : list (option nat)
}.

Definition blocks_init (bs : blocks) : blocks := Blocks [] (block_by_role bs).

Definition block_get_role (bs : blocks) (role : block_type) : outcome (option nat) :=
  kassert (type_no role <? BLOCK_ROLE_CNT) ≫= fun _ =>
  zget (block_by_role bs) (type_no role).

Definition block_set_role (bs : blocks) (role : block_type) (p : option nat) : outcome blocks :=
  kassert (type_no role <? BLOCK_ROLE_CNT) ≫= fun _ =>
  l ← zset (block_by_role bs) (type_no role) p; Ok (Blocks (all_blocks bs) l).

Definition block_first (bs : blocks) : option nat :=
  match all_blocks bs with [] => None | _ :: _ => Some 0%nat end.

Definition block_next (bs : blocks) (p : nat) : option nat :=
  if bool_decide (S p < length (all_blocks bs))%nat then Some (S p) else None.

Fixpoint find_name (name : list Z) (p : nat) (l : list block) : option nat :=
  match l with
  | [] => None
  | b :: l' => if bool_decide (name = b_name b) then Some p else find_name name (S p) l'
  end.

Definition block_get_by_name (bs : blocks) (name : list Z) : option nat :=
  find_name name 0 (all_blocks bs).

(** strlcpy into the 16-byte name field. *)
Definition block_register (bs : blocks) (name : list Z) (type : block_type)
    (size : Z) (d : D) : nat * blocks :=
  let b := Block (take 15 name) type size d 0 0 in
  (length (all_blocks bs), Blocks (all_blocks bs ++ [b]) (block_by_role bs)).
End block.
Arguments block D : clear implicits.
Arguments blocks D : clear implicits.

(** ** Partitions (partition.c): sector [s] of the partition is sector
    [start + s] of the block underneath. *)
Section partition.
Context {D : Type} `{BlockDriver D}.

Record partition := Partition { p_block : block D; p_start : Z }.

Definition partition_read (sector : Z) : st partition (list Z) := fun p =>
  r ← block_read (u32 (p_start p + sector)) (p_block p);
  Ok (r.1, Partition r.2 (p_start p)).

Definition partition_write (sector : Z) (buffer : list Z) : st partition unit := fun p =>
  r ← block_write (u32 (p_start p + sector)) buffer (p_block p);
  Ok (tt, Partition r.2 (p_start p)).
End partition.
Arguments partition D : clear implicits.

#[global] Instance block_driver {D} `{BlockDriver D} : BlockDriver (block D) :=
  {| drv_read := block_read; drv_write := block_write |}.
#[global] Instance partition_driver {D} `{BlockDriver D} : BlockDriver (partition D) :=
  {| drv_read := partition_read; drv_write := partition_write |}.

(** ** A block is a driver that keeps the laws *)
Section laws.
Context {D : Type} `{BlockDriverLaws D}.
Implicit Types (b : block D) (p : partition D).

(** The descriptor promises no more sectors than the driver has. *)
Definition block_ok (b : block D) : Prop :=
  drv_ok (driver b) /\ 0 <= b_size b <= drv_size (driver b) /\ b_type b <> BLOCK_FOREIGN.

Lemma check_sector_ok b s : 0 <= s < b_size b -> check_sector b s = Ok tt.
Proof. intros. unfold check_sector. by rewrite (proj2 (Z.leb_gt _ _)) by lia. Qed.

Lemma check_sector_panic b s : b_size b <= s -> check_sector b s = Err Panic.
Proof. intros. unfold check_sector. by rewrite (proj2 (Z.leb_le _ _)) by lia. Qed.

Lemma block_read_ok b s :
  block_ok b -> 0 <= s < b_size b ->
  exists b', block_read s b = Ok (drv_content (driver b) s, b') /\ block_ok b' /\
    b_size b' = b_size b /\
    forall s', 0 <= s' < b_size b -> drv_content (driver b') s' = drv_content (driver b) s'.
Proof.
  intros (Hd & Hsz & Ht) Hs. unfold block_read. rewrite check_sector_ok by done. simpl.
  destruct (drv_read_ok (driver b) s Hd ltac:(lia)) as (d' & -> & Hd' & Hsz' & Hc).
  simpl. eexists; split; [done|]. split_and!; simpl; [split_and!; simpl; (done || lia)|done|].
  intros s' Hs'. apply Hc. lia.
Qed.

Lemma block_write_ok b s buf :
  block_ok b -> 0 <= s < b_size b -> length buf = sector_bytes -> Forall is_byte buf ->
  exists b', block_write s buf b = Ok (tt, b') /\ block_ok b' /\ b_size b' = b_size b /\
    forall s', 0 <= s' < b_size b ->
      drv_content (driver b') s' = if decide (s = s') then buf else drv_content (driver b) s'.
Proof.
  intros (Hd & Hsz & Ht) Hs Hl Hb. unfold block_write. rewrite check_sector_ok by done. simpl.
  rewrite kassert_true by (by apply bool_decide_eq_true). simpl.
  destruct (drv_write_ok (driver b) s buf Hd ltac:(lia) Hl Hb) as (d' & -> & Hd' & Hsz' & Hc).
  simpl. eexists; split; [done|]. split_and!; simpl; [split_and!; simpl; (done || lia)|done|].
  intros s' Hs'. apply Hc. lia.
Qed.

#[global] Program Instance block_laws : BlockDriverLaws (block D) := {|
  drv_size := b_size;
  drv_content b s := drv_content (driver b) s;
  drv_ok := block_ok
|}.
Next Obligation. intros b s (? & ? & ?) ?. apply drv_content_len; [done|lia]. Qed.
Next Obligation. intros b s (? & ? & ?) ?. apply drv_content_bytes; [done|lia]. Qed.
Next Obligation. intros b s. apply block_read_ok. Qed.
Next Obligation. intros b s buf. apply block_write_ok. Qed.

(** A partition that found_partition registered lies inside its block;
    [n] is the size it was registered with. *)
Definition partition_ok (p : partition D) : Prop :=
  block_ok (p_block p) /\ 0 <= p_start p <= b_size (p_block p) /\ b_size (p_block p) < 2 ^ 32.

#[global] Program Instance partition_laws : BlockDriverLaws (partition D) := {|
  drv_size p := b_size (p_block p) - p_start p;
  drv_content p s := drv_content (p_block p) (p_start p + s);
  drv_ok := partition_ok
|}.
Next Obligation. intros p s (? & ? & ?) ?. apply (drv_content_len (D := block D)); [done|simpl; lia]. Qed.
Next Obligation. intros p s (? & ? & ?) ?. apply (drv_content_bytes (D := block D)); [done|simpl; lia]. Qed.
Next Obligation.
  intros p s (Hb & Hst & Hsz) Hs. simpl. unfold partition_read. rewrite u32_small by lia.
  destruct (block_read_ok (p_block p) (p_start p + s) Hb ltac:(lia)) as (b' & -> & Hb' & Hsz' & Hc).
  simpl. eexists; split; [done|]. split_and!; simpl; [split_and!; simpl; (done || lia)|lia|].
  intros s' Hs'. apply Hc. lia.
Qed.
Next Obligation.
  intros p s buf (Hb & Hst & Hsz) Hs Hl Hby. simpl. unfold partition_write. rewrite u32_small by lia.
  destruct (block_write_ok (p_block p) (p_start p + s) buf Hb ltac:(lia) Hl Hby)
    as (b' & -> & Hb' & Hsz' & Hc).
  simpl. eexists; split; [done|]. split_and!; simpl; [split_and!; simpl; (done || lia)|lia|].
  intros s' Hs'. rewrite Hc by lia. repeat case_decide; try lia; done.
Qed.
End laws.
