(* ===== verification/Partition.v ===== *)
(** * Partition tables (src/devices/partition.c)

    The scan of a disk for partitions: the walk over the partition table of
    sector 0 and over extended partitions, and the registration of what it
    finds.  The descriptor of the scanned disk, the count of partitions and
    the registered partitions are the state; the messages are left out.
    Reading and writing through a partition is in Block.v. *)

From Stdlib Require Import Ascii String.
From S2P Require Import Prelude Memory Wp CString HeapSort Printf Block.
#[local] Close Scope string_scope.
#[local] Open Scope list_scope.
#[local] Open Scope Z_scope.

(** The named partition types. *)
Definition type_names : list (Z * string) :=
  [(0, "Empty"%string); (1, "FAT12"%string); (2, "XENIX root"%string); (3, "XENIX usr"%string); (4, "FAT16 <32M"%string);
   (5, "Extended"%string); (6, "FAT16"%string); (7, "HPFS/NTFS"%string); (8, "AIX"%string); (9, "AIX bootable"%string);
   (10, "OS/2 Boot Manager"%string); (11, "W95 FAT32"%string); (12, "W95 FAT32 (LBA)"%string); (14, "W95 FAT16 (LBA)"%string);
   (15, "W95 Ext'd (LBA)"%string); (16, "OPUS"%string); (17, "Hidden FAT12"%string); (18, "Compaq diagnostics"%string);
   (20, "Hidden FAT16 <32M"%string); (22, "Hidden FAT16"%string); (23, "Hidden HPFS/NTFS"%string); (24, "AST SmartSleep"%string);
   (27, "Hidden W95 FAT32"%string); (28, "Hidden W95 FAT32 (LBA)"%string); (30, "Hidden W95 FAT16 (LBA)"%string);
   (32, "Pintos OS kernel"%string); (33, "Pintos file system"%string); (34, "Pintos scratch"%string); (35, "Pintos swap"%string);
   (36, "NEC DOS"%string); (57, "Plan 9"%string); (60, "PartitionMagic recovery"%string); (64, "Venix 80286"%string);
   (65, "PPC PReP Boot"%string); (66, "SFS"%string); (77, "QNX4.x"%string); (78, "QNX4.x 2nd part"%string);
   (79, "QNX4.x 3rd part"%string); (80, "OnTrack DM"%string); (81, "OnTrack DM6 Aux1"%string); (82, "CP/M"%string);
   (83, "OnTrack DM6 Aux3"%string); (84, "OnTrackDM6"%string); (85, "EZ-Drive"%string); (86, "Golden Bow"%string);
   (92, "Priam Edisk"%string); (97, "SpeedStor"%string); (99, "GNU HURD or SysV"%string); (100, "Novell Netware 286"%string);
   (101, "Novell Netware 386"%string); (112, "DiskSecure Multi-Boot"%string); (117, "PC/IX"%string); (128, "Old Minix"%string);
   (129, "Minix / old Linux"%string); (130, "Linux swap / Solaris"%string); (131, "Linux"%string);
   (132, "OS/2 hidden C: drive"%string); (133, "Linux extended"%string); (134, "NTFS volume set"%string);
   (135, "NTFS volume set"%string); (136, "Linux plaintext"%string); (142, "Linux LVM"%string); (147, "Amoeba"%string);
   (148, "Amoeba BBT"%string); (159, "BSD/OS"%string); (160, "IBM Thinkpad hibernation"%string); (165, "FreeBSD"%string);
   (166, "OpenBSD"%string); (167, "NeXTSTEP"%string); (168, "Darwin UFS"%string); (169, "NetBSD"%string);
   (171, "Darwin boot"%string); (183, "BSDI fs"%string); (184, "BSDI swap"%string); (187, "Boot Wizard hidden"%string);
   (190, "Solaris boot"%string); (191, "Solaris"%string); (193, "DRDOS/sec (FAT-12)"%string);
   (196, "DRDOS/sec (FAT-16 < 32M)"%string); (198, "DRDOS/sec (FAT-16)"%string); (199, "Syrinx"%string);
   (218, "Non-FS data"%string); (219, "CP/M / CTOS / ..."%string); (222, "Dell Utility"%string); (223, "BootIt"%string);
   (225, "DOS access"%string); (227, "DOS R/O"%string); (228, "SpeedStor"%string); (235, "BeOS fs"%string);
   (238, "EFI GPT"%string); (239, "EFI (FAT-12/16/32)"%string); (240, "Linux/PA-RISC boot"%string); (241, "SpeedStor"%string);
   (244, "SpeedStor"%string); (242, "DOS secondary"%string); (253, "Linux raid autodetect"%string); (254, "LANstep"%string);
   (255, "BBT"%string)].

Definition partition_type_name (type : Z) : string :=
  match List.find (fun e => fst e =? type) type_names with Some (_, n) => n | None => "Unknown"%string end.

(** ** Tables *)

Record partition_table_entry := Entry { e_type : Z; e_offset : Z; e_size : Z }.

(** Entry [i] of the table in a sector; the loader takes 446 bytes. *)
Definition entry (pt : list Z) (i : nat) : partition_table_entry :=
  let e := window pt (446 + 16 * i) 16 in
  Entry (znth 0 e 4) (le_value (window e 8 4)) (le_value (window e 12 4)).
Definition signature (pt : list Z) : Z := le_value (window pt 510 2).

Definition is_extended (type : Z) : bool := (type =? 5) || (type =? 15) || (type =? 133) || (type =? 197).
Definition is_empty (e : partition_table_entry) : bool := (e_size e =? 0) || (e_type e =? 0).

Definition block_type_of (part_type : Z) : block_type :=
  if part_type =? 32 then BLOCK_KERNEL else if part_type =? 33 then BLOCK_FILESYS
  else if part_type =? 34 then BLOCK_SCRATCH else if part_type =? 35 then BLOCK_SWAP else BLOCK_FOREIGN.

(** snprintf of a string argument and a number, into [size] bytes. *)
Definition format2 (size : nat) (fmt : string) (s : list Z) (n : Z) : outcome (list Z) :=
  l ← vprintf_chars (put (fmt_mem fmt) 2000 (s ++ [0])) 1000 [2000; n]; Ok (take (size - 1) l).

Section scan.
Context {D : Type} `{BlockDriver D}.
(** Whether the calls of malloc succeed; the kernel panics if not. *)
Variable malloc_ok : bool.

(** A registered partition: the arguments of block_register and the start
    of the struct partition. *)
Record part := Part { pt_name : list Z; pt_type : block_type; pt_info : list Z; pt_size : Z; pt_start : Z }.
Record scan := Scan { disk : block D; part_nr : Z; parts : list part }.

Definition disk_read (sector : Z) : st scan (list Z) := fun s =>
  r ← block_read sector (disk s); Ok (r.1, Scan r.2 (part_nr s) (parts s)).

Definition found_partition (part_type start size : Z) : st scan unit :=
  b ← gets disk;
  nr ← gets part_nr;
  if block_size b <=? start then mret tt
  else if (u32 (start + size) <? start) || (block_size b <? u32 (start + size)) then mret tt
  else
    let type := block_type_of part_type in
    kassert_st malloc_ok ≫= fun _ =>
    name ← lift (format2 16 "%s%d" (block_name b) nr);
    info ← lift (format2 128 "%s (%02x)" (str (partition_type_name part_type)) part_type);
    modify (fun s => Scan (disk s) (part_nr s) (parts s ++ [Part name type info size start])).

(** Entry [i] of the table [pt] of [sector]; [rec] is the recursive call. *)
Definition parse_entry (rec : Z -> Z -> st scan unit) (pt : list Z) (sector primary : Z) (i : nat) : st scan unit :=
  let e := entry pt i in
  if is_empty e then mret tt
  else if is_extended (e_type e) then
    if sector =? 0 then rec (e_offset e) (e_offset e) else rec (u32 (e_offset e + primary)) primary
  else
    modify (fun s => Scan (disk s) (part_nr s + 1) (parts s)) ≫= fun _ =>
    found_partition (e_type e) (u32 (e_offset e + sector)) (e_size e).

(** The loop over the entries of [todo]. *)
Fixpoint entries_loop (rec : Z -> Z -> st scan unit) (pt : list Z) (sector primary : Z) (todo : list nat) : st scan unit :=
  match todo with
  | [] => mret tt
  | i :: todo' => parse_entry rec pt sector primary i ≫= fun _ => entries_loop rec pt sector primary todo'
  end.

Fixpoint read_partition_table (fuel : nat) (sector primary : Z) : st scan unit :=
  match fuel with
  | O => fun _ => Err Fuel
  | S fuel' =>
      b ← gets disk;
      if block_size b <=? sector then mret tt
      else
        kassert_st malloc_ok ≫= fun _ =>
        pt ← disk_read 0;
        if negb (signature pt =? 43605) then mret tt
        else entries_loop (read_partition_table fuel') pt sector primary [0%nat; 1%nat; 2%nat; 3%nat]
  end.

Definition partition_scan (fuel : nat) (b : block D) : outcome scan :=
  r ← read_partition_table fuel 0 0 (Scan b 0 []); Ok r.2.
End scan.
Arguments scan D : clear implicits.
Arguments Scan {D}.

(** ** Names *)

Definition format_mem (fmt : string) (s : list Z) : mem := put (fmt_mem fmt) 2000 (s ++ [0]).

Lemma format_mem_ok fmt s : (length (str fmt) < 1000)%nat -> text s ->
  bytes_at (format_mem fmt s) 1000 (str fmt ++ [0]) /\ cstr (format_mem fmt s) 2000 s.
Proof.
  intros Hl Ht. split; [|split; [done|apply bytes_at_put]]. apply bytes_at_put_disjoint; [unfold bytes_at; reflexivity|]. rewrite length_app. simpl. lia.
Qed.

Ltac fmt_bytes H :=
  repeat (let Hx := fresh "Hx" in apply bytes_at_cons in H as [Hx H]).

Lemma name_ok s nr : text s -> Z.of_nat (length s) < 2 ^ 32 -> 0 <= nr <= INT_MAX ->
  exists ds, format2 16 "%s%d" s nr = Ok (take 15 (s ++ ((fun d => d + 48) <$> ds))) /\ decimal ds = nr /\ Forall (fun d => 0 <= d <= 9) ds.
Proof.
  intros Ht Hl Hn. destruct (format_mem_ok "%s%d" s) as [Hf Hs]; [simpl; lia|done|]. pose proof (bytes_at_size _ _ _ Hf) as Hsz. unfold format2. fold (format_mem "%s%d" s).
  destruct (convert_decimal (format_mem "%s%d" s) nr []) as (ds & E & Hval & Hds & _); [unfold INT_MIN; lia|]. exists ds. rewrite (proj2 (Z.ltb_ge nr 0)) in E by lia.
  split; [|split; [lia|done]]. change (str "%s%d" ++ [0]) with [37; 115; 37; 100; 0] in *. fmt_bytes Hf.
  unfold vprintf_chars. destruct (size (format_mem "%s%d" s)) as [|[|k]]; [simpl in Hsz; lia..|].
  erewrite vprintf_conv; [|exact Hx|exact Hx0|done|apply (parse_plain _ _ (chr "s")); [by right|exact Hx0]|exact Hx0|by apply convert_string|
    eapply vprintf_conv; [exact Hx1|exact Hx2|done|apply (parse_plain _ _ (chr "d")); [by left|exact Hx2]|exact Hx2|exact E|by apply vprintf_end]].
  cbn [mbind outcome_bind app]. by rewrite app_nil_r.
Qed.

Lemma parse_02x m f args : m !! f = Some 48 -> m !! (f + 1) = Some 50 -> m !! (f + 1 + 1) = Some 120 ->
  (1 <= size m)%nat -> parse_conversion m f args = Ok (f + 1 + 1, Conv ZERO 2 (-1) INT, args).
Proof.
  intros H1 H2 H3 Hsz. unfold parse_conversion, parse_width, parse_precision, parse_type. destruct (size m) as [|k]; [lia|]. cbn [parse_flags parse_number]. format_run. reflexivity.
Qed.

Lemma info_ok type : is_byte type -> exists l, format2 128 "%s (%02x)" (str (partition_type_name type)) type = Ok l.
Proof.
  intros Hb. set (s := str (partition_type_name type)).
  assert (text s /\ (length s < 100)%nat) as [Ht Hl].
  { assert (forallb (fun e => forallb (fun b => (0 <? b) && (b <? 256)) (str (snd e)) && (length (str (snd e)) <? 100)%nat) type_names = true) as Hall by (vm_compute; reflexivity).
    subst s. unfold partition_type_name. destruct (List.find _ _) as [[k n]|] eqn:E; [|split; [by apply text_check|simpl; lia]].
    apply find_some in E as [E _]. rewrite forallb_forall in Hall. apply Hall, andb_true_iff in E as [Et El]. split; [by apply text_check|by apply Nat.ltb_lt]. }
  destruct (format_mem_ok "%s (%02x)" s) as [Hf Hs]; [simpl; lia|done|]. pose proof (bytes_at_size _ _ _ Hf) as Hsz. unfold format2. fold (format_mem "%s (%02x)" s).
  destruct (format_integer_buf type (Conv ZERO 2 (-1) INT) base_x) as (b1 & b2 & b3 & E1 & E2 & E3 & _); [by right; right; left|unfold is_byte in Hb; lia|].
  assert (exists out, convert (format_mem "%s (%02x)" s) (chr "x") (Conv ZERO 2 (-1) INT) [type] = Ok (out, [])) as (out & Hout).
  { unfold convert. format_run. cbn [orb unsigned_arg Printf.type va_word mbind outcome_bind]. rewrite u32_small by (unfold is_byte in Hb; lia).
    unfold format_integer. rewrite E1. cbn [mbind outcome_bind]. rewrite E2. cbn [mbind outcome_bind]. rewrite E3. cbn [mbind outcome_bind]. eexists. reflexivity. }
  change (str "%s (%02x)" ++ [0]) with [37; 115; 32; 40; 37; 48; 50; 120; 41; 0] in *. fmt_bytes Hf. simpl in Hsz.
  unfold vprintf_chars. destruct (size (format_mem "%s (%02x)" s)) as [|[|[|[|[|k]]]]] eqn:Esz; [lia..|].
  eexists. erewrite vprintf_conv; [|exact Hx|exact Hx0|done|apply (parse_plain _ _ (chr "s")); [by right|exact Hx0]|exact Hx0|apply convert_string; [lia|exact Hs|lia]|
    eapply vprintf_char; [exact Hx1|done|done|]; eapply vprintf_char; [exact Hx2|done|done|];
    eapply vprintf_conv; [exact Hx3|exact Hx4|done|apply parse_02x; [exact Hx4|exact Hx5|exact Hx6|lia]|exact Hx6|exact Hout|];
    eapply vprintf_char; [exact Hx7|done|done|]; by apply vprintf_end].
  reflexivity.
Qed.

(** ** The scan *)

Section laws.
Context {D : Type} `{BlockDriverLaws D}.
Implicit Types (b d : block D) (s : scan D).

(** The scanned disk: only the counters of its descriptor change. *)
Definition same_disk b d : Prop :=
  block_ok d /\ b_size d = b_size b /\ b_name d = b_name b /\
  forall k, 0 <= k < b_size b -> drv_content (driver d) k = drv_content (driver b) k.

Lemma same_disk_refl b : block_ok b -> same_disk b b.
Proof. intros Hb. by split_and!. Qed.

Lemma disk_read_ok b s : same_disk b (disk s) -> 0 < b_size b ->
  exists d, disk_read 0 s = Ok (drv_content (driver b) 0, Scan d (part_nr s) (parts s)) /\ same_disk b d.
Proof.
  intros (Hd & Hsz & Hn & Hc) Hpos. destruct (block_read_ok (disk s) 0 Hd) as (d & E & Hd' & Hsz' & Hc'); [lia|]. exists d. split.
  - unfold disk_read. rewrite E. cbn [mbind outcome_bind fst snd]. by rewrite Hc by lia.
  - split_and!; [done|lia| |intros k Hk; rewrite Hc' by lia; by apply Hc]. rewrite <- Hn. unfold block_read in E. inv_outcome. done.
Qed.

(** A computation that leaves the disk as it was. *)
Definition keeps {A} b (m : st (scan D) A) : Prop := forall s a s', same_disk b (disk s) -> m s = Ok (a, s') -> same_disk b (disk s').

Lemma scan_keeps_ret {A} b (a : A) : keeps b (mret a).
Proof. intros s a' s' Hs E. by injection E as <- <-. Qed.
Lemma scan_keeps_bind {A B} b (m : st (scan D) A) (f : A -> st (scan D) B) : keeps b m -> (forall a, keeps b (f a)) -> keeps b (m ≫= f).
Proof. intros Hm Hf s x s' Hs E. apply st_bind_Ok in E as (a & s1 & E1 & E2). eapply Hf; [|exact E2]. by eapply Hm. Qed.
Lemma keeps_gets {A} b (f : scan D -> A) : keeps b (gets f).
Proof. intros s a s' Hs E. by injection E as <- <-. Qed.
Lemma keeps_assert b c : keeps b (kassert_st (S := scan D) c).
Proof. intros s a s' Hs E. unfold kassert_st in E. destruct c; [by injection E as <- <-|done]. Qed.
Lemma keeps_lift {A} b (o : outcome A) : keeps b (lift (S := scan D) o).
Proof. intros s a s' Hs E. unfold lift in E. destruct o; [by injection E as <- <-|done]. Qed.
Lemma keeps_modify b f : (forall s, disk (f s) = disk s) -> keeps b (modify f).
Proof. intros Hf s a s' Hs E. injection E as <- <-. by rewrite Hf. Qed.
Lemma scan_keeps_read b : 0 < b_size b -> keeps b (disk_read 0).
Proof. intros Hb s a s' Hs E. destruct (disk_read_ok b s Hs Hb) as (d & E' & Hd). rewrite E' in E. by injection E as <- <-. Qed.

Lemma keeps_found b mok ty start size : keeps b (found_partition mok ty start size).
Proof.
  unfold found_partition. apply scan_keeps_bind; [apply keeps_gets|]. intros d. apply scan_keeps_bind; [apply keeps_gets|]. intros nr.
  destruct (_ <=? _); [apply scan_keeps_ret|]. destruct (_ || _); [apply scan_keeps_ret|]. cbv zeta. apply scan_keeps_bind; [apply keeps_assert|]. intros _.
  apply scan_keeps_bind; [apply keeps_lift|]. intros name. apply scan_keeps_bind; [apply keeps_lift|]. intros info. by apply keeps_modify.
Qed.

Lemma keeps_entry b mok rec pt sector primary i : (forall x y, keeps b (rec x y)) -> keeps b (parse_entry mok rec pt sector primary i).
Proof.
  intros Hrec. unfold parse_entry. cbv zeta. destruct (is_empty _); [apply scan_keeps_ret|]. destruct (is_extended _); [destruct (sector =? 0); apply Hrec|].
  apply scan_keeps_bind; [by apply keeps_modify|]. intros _. apply keeps_found.
Qed.

Lemma keeps_entries b mok rec pt sector primary todo : (forall x y, keeps b (rec x y)) -> keeps b (entries_loop mok rec pt sector primary todo).
Proof.
  intros Hrec. induction todo as [|i todo IH]; cbn [entries_loop]; [apply scan_keeps_ret|]. apply scan_keeps_bind; [by apply keeps_entry|intros _; exact IH].
Qed.

Lemma scan_keeps_table b mok fuel sector primary : 0 < b_size b -> keeps b (read_partition_table mok fuel sector primary).
Proof.
  intros Hb. revert sector primary. induction fuel as [|fuel IH]; intros sector primary; cbn [read_partition_table]; [by intros s a s' _|].
  apply scan_keeps_bind; [apply keeps_gets|]. intros d. destruct (_ <=? _); [apply scan_keeps_ret|]. apply scan_keeps_bind; [apply keeps_assert|]. intros _.
  apply scan_keeps_bind; [by apply scan_keeps_read|]. intros pt. destruct (negb _); [apply scan_keeps_ret|]. by apply keeps_entries.
Qed.

(** ** Extended partitions *)

(** An entry for an extended partition [off] sectors into the disk. *)
Definition extended_at (pt : list Z) (i : nat) (off : Z) : Prop :=
  is_empty (entry pt i) = false /\ is_extended (e_type (entry pt i)) = true /\ e_offset (entry pt i) = off.

Lemma extended_loops b i off mok fuel :
  block_ok b -> b_size b < 2 ^ 32 -> (i < 4)%nat -> signature (drv_content (driver b) 0) = 43605 ->
  extended_at (drv_content (driver b) 0) i off -> 0 < off -> 2 * off < b_size b ->
  forall sector primary s a s', same_disk b (disk s) -> sector = 0 \/ 0 < sector < b_size b /\ primary = off ->
  read_partition_table mok fuel sector primary s <> Ok (a, s').
Proof.
  intros Hb Hsz Hi Hsig (He & Hx & Ho) Hoff Hfit. induction fuel as [|fuel IH]; intros sector primary s a s' Hs Hsec E; [done|]. cbn [read_partition_table] in E.
  apply st_bind_Ok in E as (d & s0 & E0 & E). injection E0 as <- <-. pose proof Hs as (_ & Hsize & _).
  unfold block_size in E. rewrite Hsize, (proj2 (Z.leb_gt _ sector)) in E by lia. apply st_bind_Ok in E as ([] & s1 & E1 & E).
  unfold kassert_st in E1. destruct mok; [injection E1 as <-|done]. apply st_bind_Ok in E as (pt & s2 & E2 & E).
  destruct (disk_read_ok b s Hs) as (d & E2' & Hd); [lia|]. rewrite E2' in E2. injection E2 as <- <-. rewrite Hsig in E. cbn [negb Z.eqb Pos.eqb] in E.
  assert (i ∈ [0%nat; 1%nat; 2%nat; 3%nat]) as Hin by (destruct i as [|[|[|[|]]]]; [repeat first [left|right]..|lia]).
  revert E. generalize (Scan d (part_nr s) (parts s)) (Hd : same_disk b (disk (Scan d (part_nr s) (parts s)))). clear Hd. intros s3 Hs3.
  revert s3 Hs3 Hin. generalize [0%nat; 1%nat; 2%nat; 3%nat]. intros todo. induction todo as [|j todo IHt]; intros s3 Hs3 Hin E; [by apply elem_of_nil in Hin|].
  cbn [entries_loop] in E. apply st_bind_Ok in E as ([] & s4 & E4 & E). apply elem_of_cons in Hin as [<-|Hin].
  - unfold parse_entry in E4. rewrite He, Hx, Ho in E4. destruct (Z.eqb_spec sector 0) as [Hz|Hz].
    + revert E4. apply IH; [done|right; lia].
    + destruct Hsec as [|[Hsec ->]]; [done|]. rewrite u32_small in E4 by lia. revert E4. apply IH; [done|right; lia].
  - apply (IHt s4); [|done|done]. eapply keeps_entry; [|exact Hs3|exact E4]. intros x y. apply scan_keeps_table. lia.
Qed.


(** ** Primary partitions *)

Definition fits b (e : partition_table_entry) : bool := (e_offset e <? b_size b) && (e_offset e + e_size e <=? b_size b).

(** The partitions of a table without extended ones that are registered,
    with their numbers: empty entries are skipped, the others are numbered
    from 1, and those that do not fit on the device are dropped. *)
Fixpoint expected b (nr : Z) (es : list partition_table_entry) : list (Z * partition_table_entry) :=
  match es with
  | [] => []
  | e :: es' =>
      if is_empty e then expected b nr es'
      else (if fits b e then [(nr + 1, e)] else []) ++ expected b (nr + 1) es'
  end.

Definition registered b (ne : Z * partition_table_entry) (p : part) : Prop :=
  pt_type p = block_type_of (e_type ne.2) /\ pt_start p = e_offset ne.2 /\ pt_size p = e_size ne.2 /\ 0 <= pt_start p /\ 0 < pt_size p /\ fits b ne.2 = true /\
  exists ds, pt_name p = take 15 (b_name b ++ ((fun k => k + 48) <$> ds)) /\ decimal ds = ne.1.

Definition entry_ok (e : partition_table_entry) : Prop := is_byte (e_type e) /\ 0 <= e_offset e < 2 ^ 32 /\ 0 <= e_size e < 2 ^ 32.

Lemma entry_bytes pt i : length pt = sector_bytes -> Forall is_byte pt -> (i < 4)%nat -> entry_ok (entry pt i).
Proof.
  intros Hl Hb Hi. unfold sector_bytes in Hl. unfold entry. set (e := window pt (446 + 16 * i) 16).
  assert (length e = 16%nat) as He by (apply length_window; lia). assert (Forall is_byte e) as Hbe by (by apply Forall_take, Forall_drop).
  assert (forall k, (k + 4 <= 16)%nat -> 0 <= le_value (window e k 4) < 2 ^ 32) as Hw.
  { intros k Hk. assert (length (window e k 4) = 4%nat) as Hl4 by (apply length_window; lia).
    assert (Forall is_byte (window e k 4)) as Hb4 by (by apply Forall_take, Forall_drop). pose proof (le_value_range _ Hb4). rewrite Hl4 in *. lia. }
  split_and!; cbn [e_type e_offset e_size]; [|apply Hw; lia..]. eapply (proj1 (list.Forall_forall _ _) Hbe), list_elem_of_lookup_2, znth_lookup. lia.
Qed.

Lemma found_ok b e s : same_disk b (disk s) -> text (b_name b) -> (length (b_name b) <= 15)%nat -> 0 <= b_size b < 2 ^ 32 ->
  entry_ok e -> is_empty e = false -> 0 <= part_nr s <= INT_MAX ->
  exists ps, found_partition true (e_type e) (e_offset e) (e_size e) s = Ok (tt, Scan (disk s) (part_nr s) (parts s ++ ps)) /\
    Forall2 (registered b) (if fits b e then [(part_nr s, e)] else []) ps.
Proof.
  intros (Hd & Hsz & Hn & _) Ht Hl Hb (Hty & Ho & He) Hne Hnr. apply orb_false_iff in Hne as [Hne _]. apply Z.eqb_neq in Hne.
  unfold found_partition, fits. unfold mbind, st_bind, gets, mret, st_ret. unfold block_size. rewrite Hsz. destruct s as [d nr ps]. cbn [disk part_nr parts] in *.
  destruct (Z.leb_spec (b_size b) (e_offset e)) as [Hge|Hlt].
  { exists []. rewrite app_nil_r, (proj2 (Z.ltb_ge (e_offset e) (b_size b))) by lia. split; [done|constructor]. }
  rewrite (proj2 (Z.ltb_lt (e_offset e) (b_size b))) by lia. cbn [andb].
  assert ((u32 (e_offset e + e_size e) <? e_offset e) || (b_size b <? u32 (e_offset e + e_size e)) = negb (e_offset e + e_size e <=? b_size b)) as ->.
  { destruct (decide (e_offset e + e_size e < 2 ^ 32)).
    - rewrite u32_small by lia. rewrite (proj2 (Z.ltb_ge _ (e_offset e))) by lia. cbn [orb]. by rewrite Z.leb_antisym, negb_involutive.
    - assert (u32 (e_offset e + e_size e) = e_offset e + e_size e - 2 ^ 32) as -> by (unfold u32; dlia).
      rewrite (proj2 (Z.ltb_lt _ (e_offset e))) by lia. cbn [orb]. by rewrite (proj2 (Z.leb_gt _ _)) by lia. }
  destruct (Z.leb_spec (e_offset e + e_size e) (b_size b)) as [Hfit|Hfit]; cbn [negb]; [|exists []; rewrite app_nil_r; split; [done|constructor]].
  unfold kassert_st, lift, modify, block_name. rewrite Hn.
  destruct (name_ok (b_name b) nr Ht) as (ds & -> & Hval & _); [lia|done|]. destruct (info_ok (e_type e) Hty) as (info & ->).
  eexists. split; [reflexivity|]. constructor; [|constructor]. split_and!; cbn; [done|done|done|lia|lia| |].
  - unfold fits. cbn. by rewrite (proj2 (Z.ltb_lt _ _)), (proj2 (Z.leb_le _ _)) by lia.
  - by exists ds.
Qed.

Lemma primary_loop b rec pt primary todo s : same_disk b (disk s) -> text (b_name b) -> (length (b_name b) <= 15)%nat -> 0 <= b_size b < 2 ^ 32 ->
  Forall (fun i => entry_ok (entry pt i) /\ (is_empty (entry pt i) = false -> is_extended (e_type (entry pt i)) = false)) todo ->
  0 <= part_nr s -> part_nr s + Z.of_nat (length todo) <= INT_MAX ->
  exists ps nr, entries_loop true rec pt 0 primary todo s = Ok (tt, Scan (disk s) nr (parts s ++ ps)) /\
    Forall2 (registered b) (expected b (part_nr s) (entry pt <$> todo)) ps.
Proof.
  intros Hs Ht Hl Hb Htodo. revert s Hs. induction Htodo as [|i todo [Hok Hx] _ IH]; intros s Hs Hn0 Hn; cbn [entries_loop].
  - exists [], (part_nr s). rewrite app_nil_r. destruct s. by split.
  - unfold mbind at 1, st_bind at 1. unfold parse_entry. cbv zeta. cbn [length] in Hn. rewrite fmap_cons. cbn [expected]. destruct (is_empty (entry pt i)) eqn:Hemp.
    + destruct (IH s) as (ps & nr & E & HF); [done|lia|lia|]. exists ps, nr. unfold mret, st_ret. by split.
    + rewrite Hx by done. unfold modify. unfold mbind at 1, st_bind at 1. destruct Hok as (Hty & Ho & Hsize). rewrite Z.add_0_r, u32_small by lia.
      destruct (found_ok b (entry pt i) (Scan (disk s) (part_nr s + 1) (parts s))) as (ps1 & E1 & HF1); try done; [cbn; lia|]. rewrite E1. cbn [disk part_nr parts] in *.
      destruct (IH (Scan (disk s) (part_nr s + 1) (parts s ++ ps1))) as (ps & nr & E & HF); [done|cbn; lia|cbn; lia|]. cbn [disk part_nr parts] in *.
      exists (ps1 ++ ps), nr. rewrite E, <- app_assoc. split; [done|]. by apply Forall2_app.
Qed.

(** C35: A disk without extended partitions is scanned in one pass: exactly
    the non-empty entries that fit on the device are registered, in order,
    numbered over all non-empty entries, with the type, start and size of
    the entry; and a registered partition of a type of this kernel is a
    block device whose every sector is a sector of the disk. *)
Theorem primary_partitions_registered b fuel :
  block_ok b -> 0 < b_size b < 2 ^ 32 -> text (b_name b) -> (length (b_name b) <= 15)%nat ->
  let pt := drv_content (driver b) 0 in
  signature pt = 43605 -> (forall i, (i < 4)%nat -> is_empty (entry pt i) = false -> is_extended (e_type (entry pt i)) = false) ->
  exists s, partition_scan true (S fuel) b = Ok s /\
    Forall2 (registered b) (expected b 0 (entry pt <$> [0%nat; 1%nat; 2%nat; 3%nat])) (parts s) /\
    Forall (fun p => pt_type p <> BLOCK_FOREIGN -> block_ok (Block (pt_name p) (pt_type p) (pt_size p) (Partition (disk s) (pt_start p)) 0 0)) (parts s).
Proof.
  intros Hb Hsz Ht Hl pt Hsig Hx. pose proof (same_disk_refl b Hb) as Hsame. destruct Hb as (Hd & Hdsz & Hraw).
  assert (length pt = sector_bytes /\ Forall is_byte pt) as [Hptl Hptb] by (split; [apply drv_content_len|apply drv_content_bytes]; (done || lia)).
  unfold partition_scan. cbn [read_partition_table]. unfold mbind at 2, st_bind, gets, block_size. cbn [disk]. rewrite (proj2 (Z.leb_gt (b_size b) 0)) by lia.
  unfold mbind at 2, st_bind, kassert_st. destruct (disk_read_ok b (Scan b 0 [])) as (d & E & Hsd); [done|lia|]. unfold mbind at 2, st_bind. rewrite E. fold pt. rewrite Hsig.
  cbn [negb Z.eqb Pos.eqb part_nr parts].
  destruct (primary_loop b (read_partition_table true fuel) pt 0 [0%nat; 1%nat; 2%nat; 3%nat] (Scan d 0 [])) as (ps & nr & E2 & HF); [done|done|done|lia| |cbn; lia|cbn; unfold INT_MAX; lia|].
  - assert (forall i, (i < 4)%nat -> entry_ok (entry pt i) /\ (is_empty (entry pt i) = false -> is_extended (e_type (entry pt i)) = false)) as Hall.
    { intros i Hi. split; [by apply entry_bytes|by apply Hx]. }
    repeat (apply Forall_cons; [apply Hall; lia|]). apply Forall_nil.
  - rewrite E2. cbn [mbind outcome_bind snd disk parts part_nr app] in *. eexists. split; [reflexivity|]. cbn [parts disk]. split; [exact HF|].
    clear E2. induction HF as [|[n e] p es ps' (Hpt & Hst & Hps & Hst0 & Hps0 & Hfit & _) _ IH]; constructor; [|exact IH]. intros Hty. cbn [snd] in *.
    destruct Hsd as (Hdok & Hdsize & _). apply andb_true_iff in Hfit as [Hf1%Z.ltb_lt Hf2%Z.leb_le]. unfold block_ok. cbn. unfold partition_ok. cbn. rewrite Hdsize. split_and!; (done || lia).
Qed.
End laws.

(** A disk of three sectors with a table of two entries: a file system of
    two sectors after the table, and a swap partition that does not fit. *)
Definition table (es : list (list Z)) : list Z :=
  replicate 446 0 ++ concat es ++ replicate (16 * (4 - length es)) 0 ++ [85; 170].
Definition raw_entry (type off size : Z) : list Z := [0; 0; 0; 0; type; 0; 0; 0] ++ le_bytes 4 off ++ le_bytes 4 size.
Definition disk_of (n : nat) (es : list (list Z)) : block ramdisk :=
  Block (str "hda") BLOCK_RAW (Z.of_nat (S n)) (table es :: replicate n (replicate 512 0)) 0 0.

Lemma disk_of_ok n es : length (table es) = 512%nat -> forallb (fun b => (0 <=? b) && (b <? 256)) (table es) = true -> block_ok (disk_of n es).
Proof.
  intros Hl Hb. unfold block_ok, disk_of. cbn [driver b_size b_type drv_ok ramdisk_laws drv_size length]. split_and!; [|lia|rewrite length_replicate; lia|done].
  apply Forall_cons; [split; [done|by apply is_bytes]|]. apply Forall_replicate. split; [done|by apply bytes_replicate].
Qed.

Lemma primary_partitions_registered_witness :
  exists s, partition_scan true 1 (disk_of 2 [raw_entry 33 1 2; raw_entry 35 2 9]) = Ok s /\
    (fun p => (pt_name p, pt_type p, pt_start p, pt_size p)) <$> parts s = [(str "hda1", BLOCK_FILESYS, 1, 2)] /\
    Forall (fun p => pt_type p <> BLOCK_FOREIGN -> block_ok (Block (pt_name p) (pt_type p) (pt_size p) (Partition (disk s) (pt_start p)) 0 0)) (parts s).
Proof.
  destruct (primary_partitions_registered (disk_of 2 [raw_entry 33 1 2; raw_entry 35 2 9]) 0) as (s & E & _ & H).
  - apply disk_of_ok; vm_compute; reflexivity.
  - vm_compute. split; reflexivity.
  - apply text_check. reflexivity.
  - cbn. lia.
  - vm_compute. reflexivity.
  - intros [|[|[|[|i]]]] Hi; [vm_compute; auto..|lia].
  - exists s. split; [exact E|]. split; [|exact H]. vm_compute in E. injection E as <-. vm_compute. reflexivity.
Defined.

