(* ===== verification/Ide.v ===== *)
(** * The ATA driver (src/devices/ide.c)

    The registers of the controllers are reached through the port
    instructions of [AtaPorts], a parameter: a read returns a byte and may
    change the hardware, and hardware time passes in the sleeps of the
    timer and while a thread waits for the semaphore.  A controller's
    interrupt is edge-triggered: the handler runs when the line has risen,
    after the access that raised it (interrupts are on in the code of this
    file; [intr_on] is what the assertion of issue_pio_command tests).
    Messages are left out. *)

From S2P Require Import Prelude Memory Wp Block HeapSort.

Class AtaPorts (H : Type) := {
  port_inb : Z -> H -> Z * H;
  port_outb : Z -> Z -> H -> H;
  (** rep insw and rep outsw: the words as their bytes. *)
  port_insw : Z -> nat -> H -> list Z * H;
  port_outsw : Z -> list Z -> H -> H;
  (** [ns] nanoseconds pass. *)
  elapse : Z -> H -> H;
  (** The interrupt line with this vector number. *)
  irq_line : Z -> H -> bool
}.

(** struct ata_disk, less its channel, and struct channel; the lock by
    whether it is held, the semaphore by its value. *)
Record ata_disk := Disk { d_name : list Z; dev_no : Z; is_ata : bool }.
Record channel := Channel {
  c_name : list Z;
  reg_base : Z;
  irq : Z;
  locked : bool;
  expecting_interrupt : bool;
  completion_wait : Z;
  devices : list ata_disk
}.

Definition STA_BSY : Z := 0x80.
Definition STA_DRDY : Z := 0x40.
Definition STA_DRQ : Z := 0x08.
Definition CTL_SRST : Z := 0x04.
Definition DEV_MBS : Z := 0xa0.
Definition DEV_LBA : Z := 0x40.
Definition DEV_DEV : Z := 0x10.
Definition CMD_IDENTIFY_DEVICE : Z := 0xec.
Definition CMD_READ_SECTOR_RETRY : Z := 0x20.
Definition CMD_WRITE_SECTOR_RETRY : Z := 0x30.
Definition CHANNEL_CNT : nat := 2.

Definition reg_data (c : channel) : Z := reg_base c + 0.
Definition reg_error (c : channel) : Z := reg_base c + 1.
Definition reg_nsect (c : channel) : Z := reg_base c + 2.
Definition reg_lbal (c : channel) : Z := reg_base c + 3.
Definition reg_lbam (c : channel) : Z := reg_base c + 4.
Definition reg_lbah (c : channel) : Z := reg_base c + 5.
Definition reg_device (c : channel) : Z := reg_base c + 6.
Definition reg_status (c : channel) : Z := reg_base c + 7.
Definition reg_command (c : channel) : Z := reg_status c.
Definition reg_ctl (c : channel) : Z := reg_base c + 0x206.
Definition reg_alt_status (c : channel) : Z := reg_ctl c.

Definition set_locked (b : bool) (c : channel) : channel := Channel (c_name c) (reg_base c) (irq c) b (expecting_interrupt c) (completion_wait c) (devices c).
Definition set_expecting (b : bool) (c : channel) : channel := Channel (c_name c) (reg_base c) (irq c) (locked c) b (completion_wait c) (devices c).
Definition set_completion (n : Z) (c : channel) : channel := Channel (c_name c) (reg_base c) (irq c) (locked c) (expecting_interrupt c) n (devices c).
Definition set_is_ata (i : nat) (b : bool) (c : channel) : channel :=
  Channel (c_name c) (reg_base c) (irq c) (locked c) (expecting_interrupt c) (completion_wait c) (alter (fun d => Disk (d_name d) (dev_no d) b) i (devices c)).

(** The driver and the hardware. *)
Record ide (H : Type) := Ide { channels : list channel; intr_on : bool; hardware : H }.
Arguments Ide {H} _ _ _.
Arguments channels {H} _.
Arguments intr_on {H} _.
Arguments hardware {H} _.

(** ** Identification strings *)

(** descramble_ata_string on the bytes of the string. *)
Fixpoint swap_pairs (l : list Z) : list Z := match l with a :: b :: l' => b :: a :: swap_pairs l' | _ => l end.
Fixpoint last_kept (size : nat) (l : list Z) : nat :=
  match size with
  | O => O
  | S n => match l !! n with Some c => if negb (c =? 0) && negb (isspace c) then size else last_kept n l | None => O end
  end.
Definition descramble_ata_string (l : list Z) : list Z :=
  let l' := swap_pairs l in take (last_kept (length l - 1) l') l'.

(** A disk identify_ata_device hands to block_register. *)
Record identity := Identity { id_name : list Z; id_model : list Z; id_serial : list Z; id_capacity : Z }.

Section ide.
Context {H : Type} `{AtaPorts H}.

(** A [struct ata_disk *]: the index of the channel and of the device. *)
Definition disk_ptr : Type := nat * nat.

Definition get_channel (c : nat) : st (ide H) channel := fun s => match channels s !! c with Some x => Ok (x, s) | None => Err Fault end.
Definition get_disk (d : disk_ptr) : st (ide H) ata_disk :=
  c ← get_channel d.1; match devices c !! d.2 with Some x => mret x | None => lift (Err Fault) end.
Definition on_channel (c : nat) (f : channel -> channel) : st (ide H) unit := modify (fun s => Ide (alter f c (channels s)) (intr_on s) (hardware s)).

(** ** Interrupts *)

(** interrupt_handler, for the vector [vec]. *)
Fixpoint handle_from (cs : list channel) (k : nat) (vec : Z) : st (ide H) unit :=
  match cs with
  | [] => lift (Err Panic)
  | c :: cs' =>
      if vec =? irq c then
        if expecting_interrupt c then
          modify (fun s => Ide (channels s) (intr_on s) (port_inb (reg_status c) (hardware s)).2) ≫= fun _ =>
          on_channel k (fun c => set_completion (completion_wait c + 1) c)
        else mret tt
      else handle_from cs' (S k) vec
  end.
Definition interrupt_handler (vec : Z) : st (ide H) unit := fun s => handle_from (channels s) 0 vec s.

(** The handler runs for every line that has risen. *)
Fixpoint deliver (vecs : list Z) (before : H) : st (ide H) unit :=
  match vecs with
  | [] => mret tt
  | v :: vecs' =>
      after ← gets hardware;
      (if irq_line v after && negb (irq_line v before) then interrupt_handler v else mret tt) ≫= fun _ => deliver vecs' before
  end.
Definition access {A} (f : H -> A * H) : st (ide H) A := fun s =>
  (deliver [14 + 0x20; 15 + 0x20] (hardware s) ≫= fun _ => mret (f (hardware s)).1) (Ide (channels s) (intr_on s) (f (hardware s)).2).

Definition inb (port : Z) : st (ide H) Z := access (port_inb port).
Definition outb (port v : Z) : st (ide H) unit := access (fun h => (tt, port_outb port (u8 v) h)).
Definition timer_nsleep (ns : Z) : st (ide H) unit := access (fun h => (tt, elapse ns h)).
Definition timer_usleep (us : Z) : st (ide H) unit := timer_nsleep (us * 1000).
Definition timer_msleep (ms : Z) : st (ide H) unit := timer_nsleep (ms * 1000000).

(** ** Synchronisation *)

Definition lock_acquire (c : nat) : st (ide H) unit :=
  x ← get_channel c; kassert_st (negb (locked x)) ≫= fun _ => on_channel c (set_locked true).
Definition lock_release (c : nat) : st (ide H) unit :=
  x ← get_channel c; kassert_st (locked x) ≫= fun _ => on_channel c (set_locked false).
(** sema_down: a waiting thread sleeps; [fuel] bounds the timer ticks, of
    10 ms, it does so. *)
Fixpoint sema_down (fuel : nat) (c : nat) : st (ide H) unit :=
  x ← get_channel c;
  if 0 <? completion_wait x then on_channel c (set_completion (completion_wait x - 1))
  else match fuel with O => lift (Err Fuel) | S fuel' => timer_msleep 10 ≫= fun _ => sema_down fuel' c end.

(** ** Low-level primitives *)

Fixpoint idle_loop (n : nat) (c : channel) : st (ide H) unit :=
  match n with
  | O => mret tt
  | S n' => v ← inb (reg_status c); if Z.land v (Z.lor STA_BSY STA_DRQ) =? 0 then mret tt else timer_usleep 10 ≫= fun _ => idle_loop n' c
  end.
Definition wait_until_idle (d : disk_ptr) : st (ide H) unit := c ← get_channel d.1; idle_loop 1000 c.

Fixpoint busy_loop (n : nat) (c : channel) : st (ide H) bool :=
  match n with
  | O => mret false
  | S n' =>
      v ← inb (reg_alt_status c);
      if Z.land v STA_BSY =? 0 then w ← inb (reg_alt_status c); mret (negb (Z.land w STA_DRQ =? 0))
      else timer_msleep 10 ≫= fun _ => busy_loop n' c
  end.
Definition wait_while_busy (d : disk_ptr) : st (ide H) bool := c ← get_channel d.1; busy_loop 3000 c.

Definition select_device (d : disk_ptr) : st (ide H) unit :=
  c ← get_channel d.1; x ← get_disk d;
  outb (reg_device c) (if dev_no x =? 1 then Z.lor DEV_MBS DEV_DEV else DEV_MBS) ≫= fun _ =>
  inb (reg_alt_status c) ≫= fun _ => timer_nsleep 400.

Definition select_device_wait (d : disk_ptr) : st (ide H) unit :=
  wait_until_idle d ≫= fun _ => select_device d ≫= fun _ => wait_until_idle d.

(** ** Sectors *)

Definition select_sector (d : disk_ptr) (sec_no : Z) : st (ide H) unit :=
  c ← get_channel d.1; x ← get_disk d;
  kassert_st (sec_no <? Z.shiftl 1 28) ≫= fun _ =>
  select_device_wait d ≫= fun _ =>
  outb (reg_nsect c) 1 ≫= fun _ =>
  outb (reg_lbal c) sec_no ≫= fun _ =>
  outb (reg_lbam c) (Z.shiftr sec_no 8) ≫= fun _ =>
  outb (reg_lbah c) (Z.shiftr sec_no 16) ≫= fun _ =>
  outb (reg_device c) (Z.lor (Z.lor (Z.lor DEV_MBS DEV_LBA) (if dev_no x =? 1 then DEV_DEV else 0)) (Z.shiftr sec_no 24)).

Definition issue_pio_command (c : nat) (command : Z) : st (ide H) unit :=
  on ← gets intr_on; kassert_st on ≫= fun _ =>
  on_channel c (set_expecting true) ≫= fun _ =>
  x ← get_channel c; outb (reg_command x) command.

Definition input_sector (c : nat) : st (ide H) (list Z) := x ← get_channel c; access (port_insw (reg_data x) 256).
Definition output_sector (c : nat) (sector : list Z) : st (ide H) unit := x ← get_channel c; access (fun h => (tt, port_outsw (reg_data x) sector h)).

(** Ticks a thread waits for the completion of a command: 30 seconds. *)
Definition patience : nat := 3000.

Definition ide_read (d : disk_ptr) (sec_no : Z) : st (ide H) (list Z) :=
  lock_acquire d.1 ≫= fun _ =>
  select_sector d sec_no ≫= fun _ =>
  issue_pio_command d.1 CMD_READ_SECTOR_RETRY ≫= fun _ =>
  sema_down patience d.1 ≫= fun _ =>
  ok ← wait_while_busy d;
  if negb ok then lift (Err Panic)
  else buffer ← input_sector d.1; lock_release d.1 ≫= fun _ => mret buffer.

Definition ide_write (d : disk_ptr) (sec_no : Z) (buffer : list Z) : st (ide H) unit :=
  lock_acquire d.1 ≫= fun _ =>
  select_sector d sec_no ≫= fun _ =>
  issue_pio_command d.1 CMD_WRITE_SECTOR_RETRY ≫= fun _ =>
  ok ← wait_while_busy d;
  if negb ok then lift (Err Panic)
  else output_sector d.1 buffer ≫= fun _ => sema_down patience d.1 ≫= fun _ => lock_release d.1.

(** ** Detection *)

(** Whether device [i] answers in its registers. *)
Definition probe (c i : nat) : st (ide H) bool :=
  x ← get_channel c;
  select_device (c, i) ≫= fun _ =>
  outb (reg_nsect x) 0x55 ≫= fun _ => outb (reg_lbal x) 0xaa ≫= fun _ =>
  outb (reg_nsect x) 0xaa ≫= fun _ => outb (reg_lbal x) 0x55 ≫= fun _ =>
  outb (reg_nsect x) 0x55 ≫= fun _ => outb (reg_lbal x) 0xaa ≫= fun _ =>
  a ← inb (reg_nsect x); if a =? 0x55 then b ← inb (reg_lbal x); mret (b =? 0xaa) else mret false.

Fixpoint slave_loop (n : nat) (x : channel) : st (ide H) unit :=
  match n with
  | O => mret tt
  | S n' =>
      a ← inb (reg_nsect x);
      done ← (if a =? 1 then b ← inb (reg_lbal x); mret (b =? 1) else mret false);
      if done : bool then mret tt else timer_msleep 10 ≫= fun _ => slave_loop n' x
  end.

Definition reset_channel (c : nat) : st (ide H) unit :=
  x ← get_channel c;
  present0 ← probe c 0; present1 ← probe c 1;
  outb (reg_ctl x) 0 ≫= fun _ => timer_usleep 10 ≫= fun _ =>
  outb (reg_ctl x) CTL_SRST ≫= fun _ => timer_usleep 10 ≫= fun _ =>
  outb (reg_ctl x) 0 ≫= fun _ => timer_msleep 150 ≫= fun _ =>
  (if present0 : bool then select_device (c, 0%nat) ≫= fun _ => wait_while_busy (c, 0%nat) ≫= fun _ => mret tt else mret tt) ≫= fun _ =>
  (if present1 : bool then select_device (c, 1%nat) ≫= fun _ => slave_loop 3000 x ≫= fun _ => wait_while_busy (c, 1%nat) ≫= fun _ => mret tt else mret tt).

Definition check_device_type (d : disk_ptr) : st (ide H) bool :=
  c ← get_channel d.1; x ← get_disk d;
  select_device d ≫= fun _ =>
  error ← inb (reg_error c); lbam ← inb (reg_lbam c); lbah ← inb (reg_lbah c); status ← inb (reg_status c);
  if (negb (error =? 1) && (negb (error =? 0x81) || (dev_no x =? 1))) || (Z.land status STA_DRDY =? 0) || negb (Z.land status STA_BSY =? 0) then
    on_channel d.1 (set_is_ata d.2 false) ≫= fun _ => mret (negb (error =? 0x81))
  else
    on_channel d.1 (set_is_ata d.2 (((lbam =? 0) && (lbah =? 0)) || ((lbam =? 0x3c) && (lbah =? 0xc3)))) ≫= fun _ => mret true.

(** The disk to register, or nothing. *)
Definition identify_ata_device (d : disk_ptr) : st (ide H) (option identity) :=
  x ← get_disk d;
  kassert_st (is_ata x) ≫= fun _ =>
  select_device_wait d ≫= fun _ =>
  issue_pio_command d.1 CMD_IDENTIFY_DEVICE ≫= fun _ =>
  sema_down patience d.1 ≫= fun _ =>
  ok ← wait_while_busy d;
  if negb ok then on_channel d.1 (set_is_ata d.2 false) ≫= fun _ => mret None
  else
    id ← input_sector d.1;
    let capacity := le_value (take 4 (drop 120 id)) in
    let model := descramble_ata_string (take 20 (drop 20 id)) in
    let serial := descramble_ata_string (take 40 (drop 54 id)) in
    if 1024 * 1024 * 1024 / BLOCK_SECTOR_SIZE <=? capacity then on_channel d.1 (set_is_ata d.2 false) ≫= fun _ => mret None
    else mret (Some (Identity (d_name x) model serial capacity)).

(** A channel of ide_init, with the disks found on it; the registration
    and the scan of their partitions are in Block.v and Partition.v. *)
Definition fresh_channel (n : nat) (x : channel) : channel :=
  let no := Z.of_nat n in
  Channel [105; 100; 101; 48 + no] (if no =? 0 then 0x1f0 else 0x170) (if no =? 0 then 14 + 0x20 else 15 + 0x20) false false 0
    [Disk [104; 100; 97 + no * 2] 0 false; Disk [104; 100; 97 + no * 2 + 1] 1 false].
Definition identify_if_ata (d : disk_ptr) : st (ide H) (list identity) :=
  x ← get_disk d; if is_ata x then r ← identify_ata_device d; mret (match r with Some i => [i] | None => [] end) else mret [].
Definition init_channel (c : nat) : st (ide H) (list identity) :=
  on_channel c (fresh_channel c) ≫= fun _ =>
  reset_channel c ≫= fun _ =>
  more ← check_device_type (c, 0%nat);
  (if more : bool then check_device_type (c, 1%nat) ≫= fun _ => mret tt else mret tt) ≫= fun _ =>
  r0 ← identify_if_ata (c, 0%nat); r1 ← identify_if_ata (c, 1%nat); mret (r0 ++ r1).
Definition ide_init : st (ide H) (list identity) := r0 ← init_channel 0; r1 ← init_channel 1; mret (r0 ++ r1).
End ide.
