(* ===== verification/IdeLaws.v ===== *)
(** * The ATA driver implements a block device (src/devices/ide.c)

    [AtaProtocol] states what the standard says of a controller: which
    status a command block shows in each phase of a command, when it
    interrupts, and what its data register transfers.  Against it ide_read
    and ide_write satisfy [BlockDriverLaws], the interface the block layer
    and everything above it is proved against. *)

From S2P Require Import Prelude Memory Wp Block HeapSort Ide.

(** ** A controller as the standard describes it *)

(** The phases of a command; [n] bounds the timer ticks it still takes. *)
Inductive phase :=
| Ready
| Reading (n : nat) (dev s : Z)
| DataIn (dev s : Z)
| Accepting (n : nat) (dev s : Z)
| DataOut (dev s : Z)
| Writing (n : nat) (dev s : Z) (l : list Z).

Record ata := Ata {
  ph : phase;
  nsect : Z; lbal : Z; lbam : Z; lbah : Z; device : Z;
  line : bool;
  store : Z -> Z -> list Z;
  capacity : Z -> Z
}.

Definition set_ph (p : phase) (a : ata) : ata := Ata p (nsect a) (lbal a) (lbam a) (lbah a) (device a) (line a) (store a) (capacity a).
Definition set_line (b : bool) (a : ata) : ata := Ata (ph a) (nsect a) (lbal a) (lbam a) (lbah a) (device a) b (store a) (capacity a).
Definition put_sector (dev s : Z) (l : list Z) (a : ata) : ata :=
  Ata (ph a) (nsect a) (lbal a) (lbam a) (lbah a) (device a) (line a) (fun d t => if decide (d = dev /\ t = s) then l else store a d t) (capacity a).
Definition set_reg (r v : Z) (a : ata) : ata :=
  Ata (ph a) (if r =? 2 then v else nsect a) (if r =? 3 then v else lbal a) (if r =? 4 then v else lbam a) (if r =? 5 then v else lbah a)
    (if r =? 6 then v else device a) (line a) (store a) (capacity a).

(** The device and the sector the registers select. *)
Definition selected (a : ata) : Z := if Z.testbit (device a) 4 then 1 else 0.
Definition lba (a : ata) : Z := lbal a + 2 ^ 8 * lbam a + 2 ^ 16 * lbah a + 2 ^ 24 * (device a mod 16).

Definition busy (p : phase) : bool := match p with Reading _ _ _ | Accepting _ _ _ | Writing _ _ _ _ => true | _ => false end.
Definition wants_data (p : phase) : bool := match p with DataIn _ _ | DataOut _ _ => true | _ => false end.
Definition status_of (a : ata) (v : Z) : Prop := Z.testbit v 7 = busy (ph a) /\ Z.testbit v 3 = wants_data (ph a).

(** A tick of the system timer, in nanoseconds. *)
Definition tick : Z := 10000000.
(** What the passing of time does. *)
Definition elapsed (ns : Z) (a a' : ata) : Prop :=
  match ph a with
  | Reading n dev s => (exists n', (n' <= n)%nat /\ (tick <= ns -> (n' < n)%nat) /\ a' = set_ph (Reading n' dev s) a) \/ a' = set_line true (set_ph (DataIn dev s) a)
  | Accepting n dev s => (exists n', (n' <= n)%nat /\ (tick <= ns -> (n' < n)%nat) /\ a' = set_ph (Accepting n' dev s) a) \/ a' = set_ph (DataOut dev s) a
  | Writing n dev s l =>
      (exists n', (n' <= n)%nat /\ (tick <= ns -> (n' < n)%nat) /\ a' = set_ph (Writing n' dev s l) a) \/ a' = set_line true (put_sector dev s l (set_ph Ready a))
  | _ => a' = a
  end.

Definition base (c : bool) : Z := if c then 0x170 else 0x1f0.
Definition vector (c : bool) : Z := if c then 47 else 46.

(** The registers select sector [s] of device [dev], in LBA mode. *)
Definition addressed (a : ata) (dev s : Z) : Prop :=
  ph a = Ready /\ nsect a = 1 /\ Z.testbit (device a) 6 = true /\ selected a = dev /\ lba a = s /\ 0 <= s < capacity a dev.

Class AtaProtocol (H : Type) `{AtaPorts H} := {
  view : bool -> H -> ata;
  at_line : forall c h, irq_line (vector c) h = line (view c h);
  at_status : forall c h, status_of (view c h) (port_inb (base c + 7) h).1 /\ view c (port_inb (base c + 7) h).2 = set_line false (view c h) /\
    view (negb c) (port_inb (base c + 7) h).2 = view (negb c) h;
  at_alt_status : forall c h, status_of (view c h) (port_inb (base c + 0x206) h).1 /\ forall c', view c' (port_inb (base c + 0x206) h).2 = view c' h;
  at_register : forall c h r v, 2 <= r <= 6 -> ph (view c h) = Ready ->
    view c (port_outb (base c + r) v h) = set_reg r v (view c h) /\ view (negb c) (port_outb (base c + r) v h) = view (negb c) h;
  at_read : forall c h dev s, addressed (view c h) dev s ->
    (exists n, (n < patience)%nat /\ view c (port_outb (base c + 7) CMD_READ_SECTOR_RETRY h) = set_ph (Reading n dev s) (view c h)) /\
    view (negb c) (port_outb (base c + 7) CMD_READ_SECTOR_RETRY h) = view (negb c) h;
  at_write : forall c h dev s, addressed (view c h) dev s ->
    (exists n, (S n < patience)%nat /\ view c (port_outb (base c + 7) CMD_WRITE_SECTOR_RETRY h) = set_ph (Accepting n dev s) (view c h)) /\
    view (negb c) (port_outb (base c + 7) CMD_WRITE_SECTOR_RETRY h) = view (negb c) h;
  at_data_in : forall c h dev s, ph (view c h) = DataIn dev s ->
    (port_insw (base c + 0) 256 h).1 = store (view c h) dev s /\ view c (port_insw (base c + 0) 256 h).2 = set_ph Ready (view c h) /\
    view (negb c) (port_insw (base c + 0) 256 h).2 = view (negb c) h;
  at_data_out : forall c h dev s l, ph (view c h) = DataOut dev s -> length l = sector_bytes ->
    (exists n, (n < patience)%nat /\ view c (port_outsw (base c + 0) l h) = set_ph (Writing n dev s l) (view c h)) /\
    view (negb c) (port_outsw (base c + 0) l h) = view (negb c) h;
  at_elapse : forall c ns h, 0 <= ns -> elapsed ns (view c h) (view c (elapse ns h))
}.

Section laws.
Context {H : Type} {ports : AtaPorts H} {proto : AtaProtocol H}.
Implicit Types (s : ide H) (h : H) (a o : ata) (x y : channel).

(** The channel [c] is [x] with its controller in [a]; the other channel
    is [y], its controller ready and in [o]. *)
Record ide_at (c : bool) x a y o s : Prop := {
  ia_channels : channels s = if c then [y; x] else [x; y];
  ia_x : reg_base x = base c /\ irq x = vector c;
  ia_y : reg_base y = base (negb c) /\ irq y = vector (negb c);
  ia_on : intr_on s = true;
  ia_view : view c (hardware s) = a;
  ia_other : view (negb c) (hardware s) = o;
  ia_quiet : ph o = Ready /\ line o = false
}.

Definition chan_no (c : bool) : nat := if c then 1%nat else 0%nat.
Definition with_hw h s : ide H := Ide (channels s) (intr_on s) h.

Lemma wp_get_channel c x a y o s Q : ide_at c x a y o s -> Q x s -> wp (get_channel (chan_no c)) Q s.
Proof. intros Hat HQ. unfold wp, get_channel. rewrite (ia_channels _ _ _ _ _ _ Hat). by destruct c. Qed.
Lemma wp_get_disk c x a y o s i d Q : ide_at c x a y o s -> devices x !! i = Some d -> Q d s -> wp (get_disk (chan_no c, i)) Q s.
Proof. intros Hat Hd HQ. unfold get_disk. apply wp_bind. eapply wp_get_channel; [exact Hat|]. cbn [fst snd]. by rewrite Hd. Qed.

Lemma wp_on_channel c x a y o s f Q : ide_at c x a y o s -> reg_base (f x) = reg_base x -> irq (f x) = irq x ->
  (forall s', ide_at c (f x) a y o s' -> Q tt s') -> wp (on_channel (chan_no c) f) Q s.
Proof.
  intros Hat Hr Hi HQ. apply wp_modify, HQ. destruct Hat as [E1 E2 E3 E4 E5 E6 E7]. split; cbn [channels intr_on hardware]; rewrite ?Hr, ?Hi; try done. rewrite E1. by destruct c.
Qed.

(** ** Accesses *)

Lemma vectors (c : bool) : [14 + 0x20; 15 + 0x20] = if c then [vector (negb c); vector c] else [vector c; vector (negb c)].
Proof. by destruct c. Qed.

(** An access that raises no line. *)
Lemma wp_access_quiet {A} (f : H -> A * H) c x a y o s Q : ide_at c x a y o s ->
  view (negb c) (f (hardware s)).2 = o -> (line (view c (f (hardware s)).2) = true -> line a = true) ->
  (forall s', ide_at c x (view c (f (hardware s)).2) y o s' -> Q (f (hardware s)).1 s') -> wp (access f) Q s.
Proof.
  intros Hat Ho Hl HQ. pose proof Hat as [E1 E2 E3 E4 E5 E6 [E7 E8]]. set (s' := with_hw (f (hardware s)).2 s).
  assert (wp (deliver [14 + 0x20; 15 + 0x20] (hardware s)) (fun _ s'' => s'' = s') s') as Hd.
  { assert (forall b, irq_line (vector b) (f (hardware s)).2 && negb (irq_line (vector b) (hardware s)) = false) as Hq.
    { intros b. rewrite !at_line. destruct (decide (b = c)) as [->|Hne].
      - rewrite E5. destruct (line (view c _)) eqn:El; [|done]. by rewrite Hl.
      - assert (b = negb c) as -> by (destruct b, c; done). by rewrite Ho, E8. }
    change [14 + 0x20; 15 + 0x20] with [vector false; vector true]. cbn [deliver]. apply wp_bind, wp_gets, wp_bind. cbn [s' with_hw hardware]. rewrite Hq. apply wp_ret.
    apply wp_bind, wp_gets, wp_bind. cbn [s' with_hw hardware]. rewrite Hq. apply wp_ret. by apply wp_ret. }
  unfold wp, access. unfold mbind at 1, st_bind at 1. fold (with_hw (f (hardware s)).2 s). fold s'. unfold wp in Hd. destruct (deliver _ _ s') as [[u s'']|]; [subst s''|done].
  cbn. apply HQ. split; try done.
Qed.

(** An access that raises the line of the channel: the handler reads the
    status and ups the semaphore. *)
Lemma wp_access_rise {A} (f : H -> A * H) c x a y o s Q : ide_at c x a y o s -> expecting_interrupt x = true ->
  view (negb c) (f (hardware s)).2 = o -> line a = false -> line (view c (f (hardware s)).2) = true ->
  (forall s', ide_at c (set_completion (completion_wait x + 1) x) (set_line false (view c (f (hardware s)).2)) y o s' -> Q (f (hardware s)).1 s') -> wp (access f) Q s.
Proof.
  intros Hat Hex Ho Hla Hl HQ. pose proof Hat as [E1 [E2 E2'] [E3 E3'] E4 E5 E6 [E7 E8]]. set (h' := (f (hardware s)).2) in *.
  destruct (at_status c h') as (_ & Hv & Hv'). set (h2 := (port_inb (base c + 7) h').2) in *.
  set (s2 := Ide (if c then [y; set_completion (completion_wait x + 1) x] else [set_completion (completion_wait x + 1) x; y]) (intr_on s) h2).
  assert (wp (deliver [14 + 0x20; 15 + 0x20] (hardware s)) (fun _ s'' => s'' = s2) (with_hw h' s)) as Hd.
  { assert (irq_line (vector c) h' && negb (irq_line (vector c) (hardware s)) = true) as Hr by (rewrite !at_line, E5, Hla, Hl; done).
    assert (forall h, view (negb c) h = o -> irq_line (vector (negb c)) h && negb (irq_line (vector (negb c)) (hardware s)) = false) as Hq by (intros h Hh; rewrite !at_line, Hh, E8; done).
    assert (wp (interrupt_handler (vector c)) (fun _ s'' => s'' = s2) (with_hw h' s)) as Hh.
    { unfold wp, interrupt_handler. cbn [with_hw channels]. rewrite E1. destruct c; cbn [handle_from]; rewrite ?E3', ?E2'; cbn [vector negb Z.eqb Pos.eqb];
        rewrite Hex; unfold reg_status; rewrite E2; unfold mbind, st_bind, on_channel, modify; cbn [with_hw channels intr_on hardware]; rewrite E1; reflexivity. }
    rewrite (vectors c). destruct c; cbn [deliver].
    - apply wp_bind, wp_gets, wp_bind. cbn [with_hw hardware]. rewrite Hq by done. apply wp_ret, wp_bind, wp_gets, wp_bind. cbn [with_hw hardware]. rewrite Hr.
      eapply wp_mono; [exact Hh|]. intros _ s'' ->. by apply wp_ret.
    - apply wp_bind, wp_gets, wp_bind. cbn [with_hw hardware]. rewrite Hr. eapply wp_mono; [exact Hh|]. intros _ s'' ->. apply wp_bind, wp_gets, wp_bind. cbn [s2 hardware]. rewrite Hq by congruence.
      apply wp_ret. by apply wp_ret. }
  unfold wp, access. unfold mbind at 1, st_bind at 1. fold h'. fold (with_hw h' s). unfold wp in Hd. destruct (deliver _ _ _) as [[u s'']|]; [subst s''|done].
  cbn. apply HQ. split; cbn [s2 channels intr_on hardware set_completion reg_base irq]; try done. congruence.
Qed.

(** ** Register accesses *)

Lemma line_false a : line a = false -> set_line false a = a.
Proof. destruct a. cbn. by intros ->. Qed.

Lemma land_mask v m : (forall i, 0 <= i -> Z.testbit m i = true -> Z.testbit v i = false) -> Z.land v m = 0.
Proof. intros Hm. apply Z.bits_inj'. intros i Hi. rewrite Z.land_spec, Z.bits_0. destruct (Z.testbit m i) eqn:E; [by rewrite Hm|by rewrite andb_false_r]. Qed.
Lemma idle_status v : Z.testbit v 7 = false -> Z.testbit v 3 = false -> (Z.land v (Z.lor STA_BSY STA_DRQ) =? 0) = true.
Proof.
  intros H7 H3. apply Z.eqb_eq, land_mask. intros i Hi. change (Z.lor STA_BSY STA_DRQ) with (Z.lor (2 ^ 7) (2 ^ 3)). rewrite Z.lor_spec, !Z.pow2_bits_eqb by done.
  intros [<-%Z.eqb_eq|<-%Z.eqb_eq]%orb_true_iff; done.
Qed.

Lemma wp_outb_reg c x a y o s r v Q : ide_at c x a y o s -> ph a = Ready -> 2 <= r <= 6 ->
  (forall s', ide_at c x (set_reg r (u8 v) a) y o s' -> Q tt s') -> wp (outb (reg_base x + r) v) Q s.
Proof.
  intros Hat Hp Hr HQ. rewrite (proj1 (ia_x _ _ _ _ _ _ Hat)). destruct (at_register c (hardware s) r (u8 v) Hr) as [Hv Hv']; [by rewrite (ia_view _ _ _ _ _ _ Hat)|].
  rewrite (ia_view _ _ _ _ _ _ Hat) in Hv. rewrite (ia_other _ _ _ _ _ _ Hat) in Hv'. eapply wp_access_quiet; [exact Hat|done|cbn [snd]; by rewrite Hv|]. cbn [fst snd]. rewrite Hv. done.
Qed.

Lemma wp_alt_status c x a y o s Q : ide_at c x a y o s -> (forall v s', status_of a v -> ide_at c x a y o s' -> Q v s') -> wp (inb (reg_alt_status x)) Q s.
Proof.
  intros Hat HQ. unfold reg_alt_status, reg_ctl. rewrite (proj1 (ia_x _ _ _ _ _ _ Hat)). destruct (at_alt_status c (hardware s)) as [Hs Hv]. rewrite (ia_view _ _ _ _ _ _ Hat) in Hs.
  pose proof (Hv c) as Hc. pose proof (Hv (negb c)) as Hc'. rewrite (ia_view _ _ _ _ _ _ Hat) in Hc. rewrite (ia_other _ _ _ _ _ _ Hat) in Hc'.
  eapply wp_access_quiet; [exact Hat|done|by rewrite Hc|]. rewrite Hc. intros s' Hs'. by apply HQ.
Qed.

Lemma wp_idle n c x a y o s Q : ide_at c x a y o s -> ph a = Ready -> line a = false -> (forall s', ide_at c x a y o s' -> Q tt s') -> wp (idle_loop (S n) x) Q s.
Proof.
  intros Hat Hp Hl HQ. cbn [idle_loop]. apply wp_bind. unfold reg_status. rewrite (proj1 (ia_x _ _ _ _ _ _ Hat)). destruct (at_status c (hardware s)) as ([H7 H3] & Hv & Hv').
  rewrite (ia_view _ _ _ _ _ _ Hat), line_false in Hv by done. rewrite (ia_view _ _ _ _ _ _ Hat), Hp in H7, H3. rewrite (ia_other _ _ _ _ _ _ Hat) in Hv'.
  eapply wp_access_quiet; [exact Hat|done|by rewrite Hv|]. intros s' Hat'. rewrite Hv in Hat'. rewrite idle_status by done. apply wp_ret. by apply HQ.
Qed.

(** A sleep while the controller is ready. *)
Lemma wp_sleep c x a y o s ns Q : ide_at c x a y o s -> ph a = Ready -> 0 <= ns -> (forall s', ide_at c x a y o s' -> Q tt s') -> wp (timer_nsleep ns) Q s.
Proof.
  intros Hat Hp Hn HQ. pose proof (at_elapse c ns (hardware s) Hn) as Hc. pose proof (at_elapse (negb c) ns (hardware s) Hn) as Hc'. unfold elapsed in Hc, Hc'.
  rewrite (ia_view _ _ _ _ _ _ Hat), Hp in Hc. rewrite (ia_other _ _ _ _ _ _ Hat), (proj1 (ia_quiet _ _ _ _ _ _ Hat)) in Hc'.
  eapply wp_access_quiet; [exact Hat|done|cbn [snd]; by rewrite Hc|]. cbn [fst snd]. rewrite Hc. done.
Qed.

Lemma set_reg_ready r v a : ph a = Ready -> ph (set_reg r v a) = Ready.
Proof. done. Qed.

Lemma wp_select c x a y o s i d Q : ide_at c x a y o s -> ph a = Ready -> line a = false -> devices x !! i = Some d ->
  (forall s', ide_at c x (set_reg 6 (u8 (if dev_no d =? 1 then Z.lor DEV_MBS DEV_DEV else DEV_MBS)) a) y o s' -> Q tt s') -> wp (select_device_wait (chan_no c, i)) Q s.
Proof.
  intros Hat Hp Hl Hd HQ. unfold select_device_wait, wait_until_idle, select_device. cbn [fst].
  apply wp_bind, wp_bind. eapply wp_get_channel; [exact Hat|]. eapply wp_idle; [exact Hat|done|done|]. intros s1 H1.
  apply wp_bind, wp_bind. eapply wp_get_channel; [exact H1|]. apply wp_bind. eapply wp_get_disk; [exact H1|exact Hd|]. apply wp_bind. unfold reg_device. eapply wp_outb_reg; [exact H1|done|lia|]. intros s2 H2.
  apply wp_bind. eapply wp_alt_status; [exact H2|]. intros v s3 _ H3. eapply wp_sleep; [exact H3|done|lia|]. intros s4 H4.
  apply wp_bind. eapply wp_get_channel; [exact H4|]. eapply wp_idle; [exact H4|done|done|]. exact HQ.
Qed.

(** ** Selecting a sector *)

Definition device_byte (dev t : Z) : Z := Z.lor (Z.lor (Z.lor DEV_MBS DEV_LBA) (if dev =? 1 then DEV_DEV else 0)) t.
Definition aim (dev sec a' : Z) (a : ata) : ata :=
  set_reg 6 (u8 (device_byte dev (Z.shiftr sec 24))) (set_reg 5 (u8 (Z.shiftr sec 16)) (set_reg 4 (u8 (Z.shiftr sec 8)) (set_reg 3 (u8 sec) (set_reg 2 1 (set_reg 6 a' a))))).

Lemma device_byte_ok dev t : dev = 0 \/ dev = 1 -> 0 <= t < 16 ->
  u8 (device_byte dev t) mod 16 = t /\ Z.testbit (u8 (device_byte dev t)) 6 = true /\ (if Z.testbit (u8 (device_byte dev t)) 4 then 1 else 0) = dev.
Proof.
  intros Hd Ht. assert (t = 0 \/ t = 1 \/ t = 2 \/ t = 3 \/ t = 4 \/ t = 5 \/ t = 6 \/ t = 7 \/ t = 8 \/ t = 9 \/ t = 10 \/ t = 11 \/ t = 12 \/ t = 13 \/ t = 14 \/ t = 15) as Hc by lia.
  destruct Hd as [->| ->]; destruct_or! Hc; subst t; vm_compute; done.
Qed.

Lemma aim_addressed dev sec v a : dev = 0 \/ dev = 1 -> 0 <= sec < 2 ^ 28 -> sec < capacity a dev -> ph a = Ready -> addressed (aim dev sec v a) dev sec.
Proof.
  intros Hd Hs Hc Hp. assert (0 <= Z.shiftr sec 24 < 16) as Ht by (rewrite Z.shiftr_div_pow2 by lia; dlia). destruct (device_byte_ok dev (Z.shiftr sec 24) Hd Ht) as (E1 & E2 & E3).
  assert (device (aim dev sec v a) = u8 (device_byte dev (Z.shiftr sec 24))) as Ed by reflexivity. assert (lbal (aim dev sec v a) = u8 sec) as El by reflexivity.
  assert (lbam (aim dev sec v a) = u8 (Z.shiftr sec 8)) as Em by reflexivity. assert (lbah (aim dev sec v a) = u8 (Z.shiftr sec 16)) as Eh by reflexivity.
  unfold addressed, selected, lba. rewrite Ed, El, Em, Eh. clear Ed El Em Eh. split_and!; [done|done|done|done| |lia|done]. rewrite E1. rewrite !Z.shiftr_div_pow2 by lia. unfold u8. dlia.
Qed.

Lemma wp_select_sector c x a y o s i d sec Q : ide_at c x a y o s -> ph a = Ready -> line a = false -> devices x !! i = Some d -> 0 <= sec < 2 ^ 28 ->
  (forall v s', ide_at c x (aim (dev_no d) sec v a) y o s' -> Q tt s') -> wp (select_sector (chan_no c, i) sec) Q s.
Proof.
  intros Hat Hp Hl Hd Hs HQ. unfold select_sector. cbn [fst]. apply wp_bind. eapply wp_get_channel; [exact Hat|]. apply wp_bind. eapply wp_get_disk; [exact Hat|exact Hd|].
  apply wp_bind, wp_assert; [apply Z.ltb_lt; rewrite Z.shiftl_mul_pow2; lia|]. apply wp_bind. eapply wp_select; [exact Hat|done|done|exact Hd|]. intros s1 H1.
  unfold reg_nsect, reg_lbal, reg_lbam, reg_lbah, reg_device. apply wp_bind. eapply wp_outb_reg; [exact H1|done|lia|]. intros s2 H2. apply wp_bind. eapply wp_outb_reg; [exact H2|done|lia|]. intros s3 H3.
  apply wp_bind. eapply wp_outb_reg; [exact H3|done|lia|]. intros s4 H4. apply wp_bind. eapply wp_outb_reg; [exact H4|done|lia|]. intros s5 H5. eapply wp_outb_reg; [exact H5|done|lia|]. apply HQ.
Qed.

(** ** Waiting *)

(** A command in progress, [fin] when it is complete. *)
Definition in_progress (P : nat -> ata) (fin : ata) : Prop :=
  forall n ns a', elapsed ns (P n) a' -> (exists n', (n' <= n)%nat /\ (tick <= ns -> (n' < n)%nat) /\ a' = P n') \/ a' = fin.

Lemma wp_tick (P : nat -> ata) fin c x n y o s Q : in_progress P (set_line true fin) -> (forall n, line (P n) = false) -> line fin = false -> ide_at c x (P n) y o s -> expecting_interrupt x = true ->
  (forall n' s', (n' < n)%nat -> ide_at c x (P n') y o s' -> Q tt s') -> (forall s', ide_at c (set_completion (completion_wait x + 1) x) fin y o s' -> Q tt s') -> wp (timer_msleep 10) Q s.
Proof.
  intros HP Hl Hf Hat Hex HQ1 HQ2. unfold timer_msleep. set (ns := 10 * 1000000). pose proof (at_elapse c ns (hardware s) ltac:(unfold ns; lia)) as Hc. pose proof (at_elapse (negb c) ns (hardware s) ltac:(unfold ns; lia)) as Hc'.
  rewrite (ia_view _ _ _ _ _ _ Hat) in Hc. unfold elapsed in Hc'. rewrite (ia_other _ _ _ _ _ _ Hat), (proj1 (ia_quiet _ _ _ _ _ _ Hat)) in Hc'.
  destruct (HP n ns _ Hc) as [(n' & _ & Hlt & E)|E].
  - eapply wp_access_quiet; [exact Hat|done|cbn [snd]; by rewrite E, Hl|]. cbn [fst snd]. rewrite E. intros s'. apply HQ1, Hlt. unfold tick, ns. lia.
  - eapply wp_access_rise; [exact Hat|done|done|done|cbn [snd]; by rewrite E|]. cbn [fst snd]. rewrite E. replace (set_line false (set_line true fin)) with fin by (destruct fin; cbn in Hf; by rewrite Hf). exact HQ2.
Qed.

Lemma wp_ide_sema_down (P : nat -> ata) fin c y o Q : in_progress P (set_line true fin) -> (forall n, line (P n) = false) -> line fin = false -> forall fuel n x s, (n < fuel)%nat ->
  ide_at c x (P n) y o s -> expecting_interrupt x = true -> completion_wait x = 0 -> (forall s', ide_at c x fin y o s' -> Q tt s') -> wp (sema_down fuel (chan_no c)) Q s.
Proof.
  intros HP Hl Hf. induction fuel as [|fuel IH]; intros n x s Hn Hat Hex H0 HQ; [lia|]. cbn [sema_down]. apply wp_bind. eapply wp_get_channel; [exact Hat|]. rewrite H0. cbn [Z.ltb Z.compare].
  apply wp_bind. eapply wp_tick; [exact HP|done|done|exact Hat|done| |].
  - intros n' s' Hn' Hat'. eapply IH; [|exact Hat'|done|done|done]. lia.
  - intros s' Hat'. destruct fuel as [|fuel]; cbn [sema_down]; (apply wp_bind; eapply wp_get_channel; [exact Hat'|]; cbn [set_completion completion_wait]; rewrite H0; change (0 <? 0 + 1) with true; cbv iota).
    all: eapply wp_on_channel; [exact Hat'|done|done|]; intros s'' Hat''; apply HQ; destruct x; cbn in *; by subst.
Qed.

Lemma wp_busy_data n c x a y o s Q : ide_at c x a y o s -> wants_data (ph a) = true -> (forall s', ide_at c x a y o s' -> Q true s') -> wp (busy_loop (S n) x) Q s.
Proof.
  intros Hat Hw HQ. cbn [busy_loop]. apply wp_bind. eapply wp_alt_status; [exact Hat|]. intros v s1 [H7 _] H1. rewrite (land_bit v STA_BSY 7), H7 by done.
  assert (busy (ph a) = false) as -> by (by destruct (ph a)). cbn [negb]. apply wp_bind. eapply wp_alt_status; [exact H1|]. intros w s2 [_ H3] H2. apply wp_ret. rewrite (land_bit w STA_DRQ 3), H3, Hw by done. by apply HQ.
Qed.

Lemma wp_busy_accept c x a y o dev sec Q : line a = false -> forall fuel n s, (S n < fuel)%nat -> ide_at c x (set_ph (Accepting n dev sec) a) y o s ->
  (forall s', ide_at c x (set_ph (DataOut dev sec) a) y o s' -> Q true s') -> wp (busy_loop fuel x) Q s.
Proof.
  intros Hl. induction fuel as [|fuel IH]; intros n s Hn Hat HQ; [lia|]. cbn [busy_loop]. apply wp_bind. eapply wp_alt_status; [exact Hat|]. intros v s1 [H7 _] H1. rewrite (land_bit v STA_BSY 7), H7 by done.
  cbn [set_ph ph busy negb]. apply wp_bind. unfold timer_msleep. set (ns := 10 * 1000000). pose proof (at_elapse c ns (hardware s1) ltac:(unfold ns; lia)) as Hc. pose proof (at_elapse (negb c) ns (hardware s1) ltac:(unfold ns; lia)) as Hc'.
  unfold elapsed in Hc, Hc'. rewrite (ia_view _ _ _ _ _ _ H1) in Hc. cbn [set_ph ph] in Hc. rewrite (ia_other _ _ _ _ _ _ H1), (proj1 (ia_quiet _ _ _ _ _ _ H1)) in Hc'.
  destruct Hc as [(n' & _ & Hlt & E)|E]; (eapply wp_access_quiet; [exact H1|done|cbn [snd]; rewrite E; cbn; by rewrite Hl|]); cbn [fst snd]; rewrite E; intros s2 H2.
  - eapply (IH n'); [|exact H2|done]. assert (n' < n)%nat by (apply Hlt; unfold tick, ns; lia). lia.
  - destruct fuel as [|fuel]; [lia|]. eapply wp_busy_data; [exact H2|done|exact HQ].
Qed.

(** ** Commands *)

Definition marked x : channel := set_expecting true (set_locked false x).

Lemma wp_lock c x a y o s Q : ide_at c x a y o s -> locked x = false -> (forall s', ide_at c (set_locked true x) a y o s' -> Q tt s') -> wp (lock_acquire (chan_no c)) Q s.
Proof.
  intros Hat Hl HQ. unfold lock_acquire. apply wp_bind. eapply wp_get_channel; [exact Hat|]. apply wp_bind, wp_assert; [by rewrite Hl|]. eapply wp_on_channel; [exact Hat|done|done|exact HQ].
Qed.
Lemma wp_unlock c x a y o s Q : ide_at c x a y o s -> locked x = true -> (forall s', ide_at c (set_locked false x) a y o s' -> Q tt s') -> wp (lock_release (chan_no c)) Q s.
Proof.
  intros Hat Hl HQ. unfold lock_release. apply wp_bind. eapply wp_get_channel; [exact Hat|]. apply wp_bind, wp_assert; [done|]. eapply wp_on_channel; [exact Hat|done|done|exact HQ].
Qed.

(** issue_pio_command, with what the protocol says of the command. *)
Lemma wp_issue (P : nat -> ata) bound c x a y o s command Q : ide_at c x a y o s -> u8 command = command -> line a = false -> (forall n, line (P n) = false) ->
  (exists n, (n < bound)%nat /\ view c (port_outb (base c + 7) command (hardware s)) = P n) /\ view (negb c) (port_outb (base c + 7) command (hardware s)) = view (negb c) (hardware s) ->
  (forall n s', (n < bound)%nat -> ide_at c (set_expecting true x) (P n) y o s' -> Q tt s') -> wp (issue_pio_command (chan_no c) command) Q s.
Proof.
  intros Hat Hu Hl HP [(n & Hn & Hv) Hv'] HQ. unfold issue_pio_command. apply wp_bind, wp_gets. apply wp_bind, wp_assert; [apply (ia_on _ _ _ _ _ _ Hat)|]. apply wp_bind.
  assert (ide_at c (set_expecting true x) a y o (Ide (alter (set_expecting true) (chan_no c) (channels s)) (intr_on s) (hardware s))) as H1.
  { destruct Hat as [E1 E2 E3 E4 E5 E6 E7]. split; cbn [channels intr_on hardware]; try done. rewrite E1. by destruct c. }
  apply wp_modify. apply wp_bind. eapply wp_get_channel; [exact H1|]. unfold outb, reg_command, reg_status. rewrite (proj1 (ia_x _ _ _ _ _ _ H1)), Hu.
  eapply wp_access_quiet; [exact H1|cbn [snd hardware]; by rewrite Hv', (ia_other _ _ _ _ _ _ Hat)|cbn [snd hardware]; by rewrite Hv, HP|]. cbn [fst snd hardware]. rewrite Hv. intros s'. by apply HQ.
Qed.

Definition disk_at (c : bool) (i : nat) x : Prop := exists d, devices x !! i = Some d /\ dev_no d = Z.of_nat i /\ (i < 2)%nat.

Lemma ph_ready a : ph a = Ready -> set_ph Ready a = a.
Proof. destruct a. cbn. by intros ->. Qed.

Lemma wp_ide_read c i x a y o s sec Q : ide_at c x a y o s -> ph a = Ready -> line a = false -> locked x = false -> completion_wait x = 0 -> disk_at c i x ->
  0 <= sec < 2 ^ 28 -> sec < capacity a (Z.of_nat i) ->
  (forall v s', ide_at c (marked x) (aim (Z.of_nat i) sec v a) y o s' -> Q (store a (Z.of_nat i) sec) s') -> wp (ide_read (chan_no c, i) sec) Q s.
Proof.
  intros Hat Hp Hl Hk H0 (d & Hd & Hdn & Hi) Hs Hc HQ. unfold ide_read. cbn [fst]. apply wp_bind. eapply wp_lock; [exact Hat|done|]. intros s1 H1.
  apply wp_bind. eapply wp_select_sector; [exact H1|done|done|exact Hd|done|]. rewrite Hdn. intros v s2 H2. set (a2 := aim (Z.of_nat i) sec v a) in *.
  assert (addressed a2 (Z.of_nat i) sec) as Ha2 by (apply aim_addressed; [lia|done|done|done]). pose proof H2 as Hv2. apply ia_view in Hv2. rewrite <- Hv2 in Ha2.
  apply wp_bind. eapply (wp_issue (fun n => set_ph (Reading n (Z.of_nat i) sec) a2) patience); [exact H2|done|done|done|rewrite <- Hv2; by apply at_read|]. intros n s3 Hn H3.
  apply wp_bind. eapply (wp_ide_sema_down (fun n => set_ph (Reading n (Z.of_nat i) sec) a2) (set_ph (DataIn (Z.of_nat i) sec) a2)); [intros ? ? ? He; exact He|done|done|exact Hn|exact H3|done|done|].
  intros s4 H4. apply wp_bind. unfold wait_while_busy. apply wp_bind. eapply wp_get_channel; [exact H4|]. change 3000%nat with (S 2999). eapply wp_busy_data; [exact H4|done|]. intros s5 H5. cbn [negb].
  apply wp_bind. unfold input_sector. apply wp_bind. eapply wp_get_channel; [exact H5|]. unfold reg_data. rewrite (proj1 (ia_x _ _ _ _ _ _ H5)).
  destruct (at_data_in c (hardware s5) (Z.of_nat i) sec) as (E1 & E2 & E3); [by rewrite (ia_view _ _ _ _ _ _ H5)|]. rewrite (ia_view _ _ _ _ _ _ H5) in E1, E2. rewrite (ia_other _ _ _ _ _ _ H5) in E3.
  eapply wp_access_quiet; [exact H5|done|by rewrite E2|]. rewrite E1, E2. intros s6 H6. apply wp_bind. eapply wp_unlock; [exact H6|done|]. intros s7 H7. apply wp_ret. apply (HQ v). change (set_ph Ready (set_ph (DataIn (Z.of_nat i) sec) a2)) with (set_ph Ready a2) in H7. by rewrite ph_ready in H7.
Qed.

Lemma wp_ide_write c i x a y o s sec l Q : ide_at c x a y o s -> ph a = Ready -> line a = false -> locked x = false -> completion_wait x = 0 -> disk_at c i x ->
  0 <= sec < 2 ^ 28 -> sec < capacity a (Z.of_nat i) -> length l = sector_bytes ->
  (forall v s', ide_at c (marked x) (put_sector (Z.of_nat i) sec l (aim (Z.of_nat i) sec v a)) y o s' -> Q tt s') -> wp (ide_write (chan_no c, i) sec l) Q s.
Proof.
  intros Hat Hp Hl Hk H0 (d & Hd & Hdn & Hi) Hs Hc Hlen HQ. unfold ide_write. cbn [fst]. apply wp_bind. eapply wp_lock; [exact Hat|done|]. intros s1 H1.
  apply wp_bind. eapply wp_select_sector; [exact H1|done|done|exact Hd|done|]. rewrite Hdn. intros v s2 H2. set (a2 := aim (Z.of_nat i) sec v a) in *.
  assert (addressed a2 (Z.of_nat i) sec) as Ha2 by (apply aim_addressed; [lia|done|done|done]). pose proof H2 as Hv2. apply ia_view in Hv2. rewrite <- Hv2 in Ha2.
  apply wp_bind. eapply (wp_issue (fun n => set_ph (Accepting n (Z.of_nat i) sec) a2) (patience - 1)%nat); [exact H2|done|done|done| |].
  { destruct (at_write c (hardware s2) _ _ Ha2) as [(n & Hn & Hv) Hv']. rewrite Hv2 in Hv. split; [|done]. exists n. split; [lia|done]. }
  intros n s3 Hn H3. apply wp_bind. unfold wait_while_busy. apply wp_bind. eapply wp_get_channel; [exact H3|]. eapply (wp_busy_accept c _ a2); [done| |exact H3|]; [unfold patience in Hn; lia|]. intros s4 H4. cbn [negb].
  apply wp_bind. unfold output_sector. apply wp_bind. eapply wp_get_channel; [exact H4|]. unfold reg_data. rewrite (proj1 (ia_x _ _ _ _ _ _ H4)).
  destruct (at_data_out c (hardware s4) (Z.of_nat i) sec l) as [(n2 & Hn2 & E2) E3]; [by rewrite (ia_view _ _ _ _ _ _ H4)|done|]. rewrite (ia_view _ _ _ _ _ _ H4) in E2. rewrite (ia_other _ _ _ _ _ _ H4) in E3.
  eapply wp_access_quiet; [exact H4|done|cbn [snd]; by rewrite E2|]. cbn [fst snd]. rewrite E2. intros s5 H5.
  apply wp_bind. eapply (wp_ide_sema_down (fun n => set_ph (Writing n (Z.of_nat i) sec l) a2) (put_sector (Z.of_nat i) sec l (set_ph Ready a2))); [intros ? ? ? He; exact He|done|done|exact Hn2|exact H5|done|done|].
  intros s6 H6. eapply wp_unlock; [exact H6|done|]. intros s7 H7. apply (HQ v). by rewrite ph_ready in H7.
Qed.

(** ** The drive as a block device *)

(** The drive [i] of channel [c] in a driver that is between commands. *)
Definition drive (c : bool) (i : nat) : Type := ide H.
Definition contents (c : bool) (i : nat) s (sec : Z) : list Z := store (view c (hardware s)) (Z.of_nat i) sec.
Definition sectors (c : bool) (i : nat) s : Z := capacity (view c (hardware s)) (Z.of_nat i).
Definition drive_ok (c : bool) (i : nat) s : Prop :=
  (exists x y a o, ide_at c x a y o s /\ ph a = Ready /\ line a = false /\ locked x = false /\ completion_wait x = 0 /\ disk_at c i x) /\
  sectors c i s <= 2 ^ 28 /\ forall sec, 0 <= sec < sectors c i s -> length (contents c i s sec) = sector_bytes /\ Forall is_byte (contents c i s sec).

(** The other drives keep their contents. *)
Definition others_kept (c : bool) (i : nat) s s' : Prop :=
  forall c' i' sec, (c', i') <> (c, i) -> contents c' i' s' sec = contents c' i' s sec.

Lemma read_refines c i s sec : drive_ok c i s -> 0 <= sec < sectors c i s ->
  exists s', ide_read (chan_no c, i) sec s = Ok (contents c i s sec, s') /\ drive_ok c i s' /\ sectors c i s' = sectors c i s /\
    (forall t, contents c i s' t = contents c i s t) /\ others_kept c i s s'.
Proof.
  intros [(x & y & a & o & Hat & Hp & Hl & Hk & H0 & Hd) [Hcap Hlen]] Hs. pose proof (ia_view _ _ _ _ _ _ Hat) as Hv. pose proof (ia_other _ _ _ _ _ _ Hat) as Ho.
  set (R := fun r s' => r = contents c i s sec /\ exists v, ide_at c (marked x) (aim (Z.of_nat i) sec v a) y o s').
  destruct (wp_Ok (ide_read (chan_no c, i) sec) R s) as (r & s' & E & -> & v & Hat').
  { eapply wp_ide_read; [exact Hat|done..|unfold sectors in *; lia|unfold sectors in Hs; rewrite Hv in Hs; lia|]. intros v s' Hat'. unfold R, contents. rewrite Hv. split; [done|]. by exists v. }
  exists s'. pose proof (ia_view _ _ _ _ _ _ Hat') as Hv'. pose proof (ia_other _ _ _ _ _ _ Hat') as Ho'.
  assert (forall c' i' t, contents c' i' s' t = contents c' i' s t) as Hc.
  { intros c' i' t. unfold contents. destruct (decide (c' = c)) as [->|Hne]; [by rewrite Hv, Hv'|]. assert (c' = negb c) as -> by (by destruct c, c'). by rewrite Ho, Ho'. }
  assert (sectors c i s' = sectors c i s) as Hsz by (unfold sectors; by rewrite Hv, Hv').
  split_and!; [done| |done|by intros|by intros c' i' t _]. split; [|split].
  - exists (marked x), y, (aim (Z.of_nat i) sec v a), o. split_and!; done.
  - by rewrite Hsz.
  - intros t Ht. rewrite Hsz in Ht. rewrite Hc. by apply Hlen.
Qed.

Lemma write_refines c i s sec l : drive_ok c i s -> 0 <= sec < sectors c i s -> length l = sector_bytes -> Forall is_byte l ->
  exists s', ide_write (chan_no c, i) sec l s = Ok (tt, s') /\ drive_ok c i s' /\ sectors c i s' = sectors c i s /\
    (forall t, contents c i s' t = if decide (sec = t) then l else contents c i s t) /\ others_kept c i s s'.
Proof.
  intros [(x & y & a & o & Hat & Hp & Hl & Hk & H0 & Hd) [Hcap Hlen]] Hs Hll Hlb. pose proof (ia_view _ _ _ _ _ _ Hat) as Hv. pose proof (ia_other _ _ _ _ _ _ Hat) as Ho.
  set (R := fun (_ : unit) s' => exists v, ide_at c (marked x) (put_sector (Z.of_nat i) sec l (aim (Z.of_nat i) sec v a)) y o s').
  destruct (wp_Ok (ide_write (chan_no c, i) sec l) R s) as ([] & s' & E & v & Hat').
  { eapply wp_ide_write; [exact Hat|done..|unfold sectors in *; lia|unfold sectors in Hs; rewrite Hv in Hs; lia|done|]. intros v s' Hat'. by exists v. }
  exists s'. pose proof (ia_view _ _ _ _ _ _ Hat') as Hv'. pose proof (ia_other _ _ _ _ _ _ Hat') as Ho'.
  assert (forall t, contents c i s' t = if decide (sec = t) then l else contents c i s t) as Hc.
  { intros t. unfold contents. rewrite Hv, Hv'. cbn [put_sector store]. destruct (decide (sec = t)) as [->|Hne]; [by rewrite decide_True|]. rewrite decide_False by naive_solver. done. }
  assert (sectors c i s' = sectors c i s) as Hsz by (unfold sectors; by rewrite Hv, Hv').
  split_and!; [done| |done|done|]; [split; [|split]|].
  - exists (marked x), y, (put_sector (Z.of_nat i) sec l (aim (Z.of_nat i) sec v a)), o. split_and!; done.
  - by rewrite Hsz.
  - intros t Ht. rewrite Hsz in Ht. rewrite Hc. destruct (decide (sec = t)); [done|]. by apply Hlen.
  - intros c' i' t Hne. unfold contents. destruct (decide (c' = c)) as [->|Hnc].
    + rewrite Hv, Hv'. cbn [put_sector store]. rewrite decide_False; [done|]. intros [Ei ->]. apply Hne. f_equal. lia.
    + assert (c' = negb c) as -> by (by destruct c, c'). by rewrite Ho, Ho'.
Qed.

#[global] Instance drive_driver c i : BlockDriver (drive c i) := {|
  drv_read sec := ide_read (chan_no c, i) sec;
  drv_write sec l := ide_write (chan_no c, i) sec l
|}.

#[global] Program Instance drive_laws c i : BlockDriverLaws (drive c i) := {|
  drv_size := sectors c i;
  drv_content := contents c i;
  drv_ok := drive_ok c i
|}.
Next Obligation. intros c i s sec [_ [_ Hb]] Hs. by apply Hb. Qed.
Next Obligation. intros c i s sec [_ [_ Hb]] Hs. by apply Hb. Qed.
Next Obligation. intros c i s sec Hok Hs. destruct (read_refines c i s sec Hok Hs) as (s' & E & H1 & H2 & H3 & _). exists s'. split_and!; try done; intros t _; apply H3. Qed.
Next Obligation. intros c i s sec l Hok Hs Hl Hb. destruct (write_refines c i s sec l Hok Hs Hl Hb) as (s' & E & H1 & H2 & H3 & _). exists s'. split_and!; try done; intros t _; apply H3. Qed.
End laws.

(** C9: the driver makes a block device of a drive: against any hardware
    that follows the protocol, ide_read of a sector below the capacity
    returns its contents and changes none, and ide_write replaces the
    contents of that sector; both return, without a panic, with the channel
    unlocked and ready for the next command, and neither changes another
    drive. *)
Theorem ide_implements_drive {H : Type} `{AtaProtocol H} c i (s : ide H) sec l : drive_ok c i s -> 0 <= sec < sectors c i s -> length l = sector_bytes -> Forall is_byte l ->
  (exists s', ide_read (chan_no c, i) sec s = Ok (contents c i s sec, s') /\ drive_ok c i s' /\ (forall t, contents c i s' t = contents c i s t) /\ others_kept c i s s') /\
  (exists s', ide_write (chan_no c, i) sec l s = Ok (tt, s') /\ drive_ok c i s' /\
     (forall t, contents c i s' t = if decide (sec = t) then l else contents c i s t) /\ others_kept c i s s').
Proof.
  intros Hok Hs Hl Hb. split.
  - destruct (read_refines c i s sec Hok Hs) as (s' & E & Hok' & _ & Hc & Ho). by exists s'.
  - destruct (write_refines c i s sec l Hok Hs Hl Hb) as (s' & E & Hok' & _ & Hc & Ho). by exists s'.
Qed.

(** ** A controller

    Commands take two ticks. *)

Definition controllers : Type := ata * ata.
Definition side (c : bool) (h : controllers) : ata := if c then h.2 else h.1.
Definition on_side (c : bool) (f : ata -> ata) (h : controllers) : controllers := if c then (h.1, f h.2) else (f h.1, h.2).
Definition decode (port : Z) : option (bool * Z) :=
  if (base false <=? port) && (port <=? base false + 7) then Some (false, port - base false)
  else if (base true <=? port) && (port <=? base true + 7) then Some (true, port - base true)
  else if port =? base false + 0x206 then Some (false, 0x206)
  else if port =? base true + 0x206 then Some (true, 0x206) else None.

Definition status_byte (a : ata) : Z := (if busy (ph a) then 128 else 0) + 64 + (if wants_data (ph a) then 8 else 0).
Definition is_addressed (a : ata) : bool :=
  (nsect a =? 1) && Z.testbit (device a) 6 && (0 <=? lba a) && (lba a <? capacity a (selected a)).
Definition command (v : Z) (a : ata) : ata :=
  match ph a with
  | Ready =>
      if is_addressed a then
        if v =? CMD_READ_SECTOR_RETRY then set_ph (Reading 1 (selected a) (lba a)) a
        else if v =? CMD_WRITE_SECTOR_RETRY then set_ph (Accepting 1 (selected a) (lba a)) a else a
      else a
  | _ => a
  end.
Definition advance (ns : Z) (a : ata) : ata :=
  if ns <? tick then a
  else match ph a with
       | Reading (S n) dev s => set_ph (Reading n dev s) a
       | Reading O dev s => set_line true (set_ph (DataIn dev s) a)
       | Accepting (S n) dev s => set_ph (Accepting n dev s) a
       | Accepting O dev s => set_ph (DataOut dev s) a
       | Writing (S n) dev s l => set_ph (Writing n dev s l) a
       | Writing O dev s l => set_line true (put_sector dev s l (set_ph Ready a))
       | _ => a
       end.

#[global] Instance controllers_ports : AtaPorts controllers := {|
  port_inb port h := match decode port with
                     | Some (c, 7) => (status_byte (side c h), on_side c (set_line false) h)
                     | Some (c, _) => (status_byte (side c h), h)
                     | None => (0xff, h)
                     end;
  port_outb port v h := match decode port with
                        | Some (c, r) =>
                            if r =? 7 then on_side c (command v) h
                            else if (2 <=? r) && (r <=? 6) then on_side c (fun a => match ph a with Ready => set_reg r v a | _ => a end) h
                            else h
                        | None => h
                        end;
  port_insw port n h := match decode port with
                        | Some (c, 0) => match ph (side c h) with DataIn dev s => (store (side c h) dev s, on_side c (set_ph Ready) h) | _ => ([], h) end
                        | _ => ([], h)
                        end;
  port_outsw port l h := match decode port with
                         | Some (c, 0) => match ph (side c h) with DataOut dev s => on_side c (set_ph (Writing 1 dev s l)) h | _ => h end
                         | _ => h
                         end;
  elapse ns h := (advance ns h.1, advance ns h.2);
  irq_line v h := if v =? 46 then line h.1 else if v =? 47 then line h.2 else false
|}.

Lemma status_byte_ok a : status_of a (status_byte a).
Proof. unfold status_of, status_byte. by destruct (ph a). Qed.
Lemma advance_ok ns a : elapsed ns a (advance ns a).
Proof.
  unfold elapsed, advance. destruct (Z.ltb_spec ns tick) as [Hlt|Hge].
  - destruct (ph a) as [|n dev s|dev s|n dev s|dev s|n dev s l] eqn:E; try done; left; exists n; (split_and!; [lia|lia|]); destruct a; cbn in E; by subst.
  - destruct (ph a) as [|[|n] dev s|dev s|[|n] dev s|dev s|[|n] dev s l] eqn:E; try done; try by right.
    all: left; exists n; split_and!; [lia|lia|done].
Qed.
Lemma decode_reg c r : 0 <= r <= 7 -> decode (base c + r) = Some (c, r).
Proof. intros Hr. assert (r = 0 \/ r = 1 \/ r = 2 \/ r = 3 \/ r = 4 \/ r = 5 \/ r = 6 \/ r = 7) as Hc by lia. destruct_or! Hc; subst r; by destruct c. Qed.

Lemma addressed_true a dev s : addressed a dev s -> ph a = Ready /\ is_addressed a = true /\ selected a = dev /\ lba a = s.
Proof.
  intros (Hp & Hn & Hd & Hs & Hl & Hc). split_and!; try done. unfold is_addressed. rewrite Hn, Hd, Hl, Hs. cbn. apply andb_true_iff. split; [apply Z.leb_le|apply Z.ltb_lt]; lia.
Qed.

#[global] Program Instance controllers_protocol : AtaProtocol controllers := {| view := side |}.
Next Obligation. by intros [] h. Qed.
Next Obligation. intros c h. unfold port_inb, controllers_ports. rewrite decode_reg by lia. destruct c; split_and!; try done; apply status_byte_ok. Qed.
Next Obligation. intros c h. destruct c; split; try done; apply status_byte_ok. Qed.
Next Obligation.
  intros c h r v Hr Hp. unfold port_outb, controllers_ports. rewrite decode_reg by lia. rewrite (proj2 (Z.eqb_neq r 7)), (proj2 (Z.leb_le 2 r)), (proj2 (Z.leb_le r 6)) by lia. cbn [andb].
  destruct c; cbn [side on_side negb fst snd] in *; by rewrite Hp.
Qed.
Next Obligation.
  intros c h dev s Ha. destruct (addressed_true _ _ _ Ha) as (Hp & Hi & Es & El). unfold port_outb, controllers_ports. rewrite decode_reg by lia. cbn [Z.eqb Pos.eqb].
  split; [|by destruct c]. exists 1%nat. split; [unfold patience; lia|]. destruct c; cbn [side on_side fst snd] in *; unfold command; rewrite Hp, Hi, Es, El; done.
Qed.
Next Obligation.
  intros c h dev s Ha. destruct (addressed_true _ _ _ Ha) as (Hp & Hi & Es & El). unfold port_outb, controllers_ports. rewrite decode_reg by lia. cbn [Z.eqb Pos.eqb].
  split; [|by destruct c]. exists 1%nat. split; [unfold patience; lia|]. destruct c; cbn [side on_side fst snd] in *; unfold command; rewrite Hp, Hi, Es, El; done.
Qed.
Next Obligation. intros c h dev s Hp. unfold port_insw, controllers_ports. rewrite decode_reg by lia. rewrite Hp. by destruct c. Qed.
Next Obligation.
  intros c h dev s l Hp Hl. unfold port_outsw, controllers_ports. rewrite decode_reg by lia. rewrite Hp. split; [|by destruct c]. exists 1%nat. split; [unfold patience; lia|]. by destruct c.
Qed.
Next Obligation. intros c ns h _. destruct c; apply advance_ok. Qed.

(** Two drives of 100 sectors on the first channel. *)
Definition blank : ata := Ata Ready 0 0 0 0 0 false (fun _ _ => replicate 512 0) (fun _ => 100).
Definition two_drives : ide controllers := Ide [fresh_channel 0 (Channel [] 0 0 false false 0 []); fresh_channel 1 (Channel [] 0 0 false false 0 [])] true (blank, blank).

Lemma two_drives_ok i : (i < 2)%nat -> drive_ok false i two_drives.
Proof.
  intros Hi. split; [|split].
  - eexists _, _, blank, blank. split_and!; try done. destruct i as [|[|i]]; [by eexists|by eexists|lia].
  - vm_compute. congruence.
  - intros t _. change (contents false i two_drives t) with (replicate 512 0). split; [reflexivity|by apply Forall_replicate].
Qed.

Lemma ide_implements_drive_witness : exists s', ide_write (0%nat, 1%nat) 77 (replicate 512 5) two_drives = Ok (tt, s') /\ contents false 1 s' 77 = replicate 512 5 /\ contents false 0 s' 77 = replicate 512 0.
Proof.
  destruct (ide_implements_drive false 1 two_drives 77 (replicate 512 5)) as [_ (s' & E & _ & Hc & Ho)].
  - apply two_drives_ok. lia.
  - split; [lia|]. vm_compute. reflexivity.
  - reflexivity.
  - apply Forall_replicate. unfold is_byte. lia.
  - exists s'. split; [exact E|]. split; [rewrite (Hc 77); rewrite decide_True by reflexivity; reflexivity|]. rewrite (Ho false 0%nat 77); [reflexivity|congruence].
Defined.

(** ** Identification strings *)

Lemma swap_pairs_twice l : swap_pairs (swap_pairs l) = l.
Proof.
  assert (forall n l, (length l <= n)%nat -> swap_pairs (swap_pairs l) = l) as Hn; [|by apply (Hn (length l))]. clear l.
  induction n as [|n IH]; intros [|a [|b l]] Hl; cbn in *; try done; [lia|]. by rewrite IH by lia.
Qed.
Lemma length_swap_pairs l : length (swap_pairs l) = length l.
Proof.
  assert (forall n l, (length l <= n)%nat -> length (swap_pairs l) = length l) as Hn; [|by apply (Hn (length l))]. clear l.
  induction n as [|n IH]; intros [|a [|b l]] Hl; cbn in *; try done; [lia|]. by rewrite IH by lia.
Qed.

Definition blank_char (c : Z) : Prop := c = 0 \/ isspace c = true.
Lemma last_kept_pad t pad : Forall blank_char pad -> list.last t <> Some 0 -> (forall c, list.last t = Some c -> isspace c = false) -> forall n, (length t <= n <= length (t ++ pad))%nat -> last_kept n (t ++ pad) = length t.
Proof.
  intros Hpad H0 Hsp. induction n as [|n IH]; intros Hn; cbn [last_kept]; [lia|]. destruct (decide (length t = S n)) as [E|Hne].
  - assert (list.last t = t !! n) as El by (rewrite last_lookup; f_equal; lia). rewrite lookup_app_l by lia. destruct (lookup_lt_is_Some_2 t n ltac:(lia)) as [c Hc]. rewrite Hc, El in *.
    rewrite (proj2 (Z.eqb_neq c 0)), (Hsp c) by congruence. cbn. lia.
  - rewrite length_app in Hn. rewrite lookup_app_r by lia. destruct (lookup_lt_is_Some_2 pad (n - length t) ltac:(lia)) as [c Hc]. rewrite Hc.
    assert (negb (c =? 0) && negb (isspace c) = false) as ->. { destruct (Forall_lookup_1 _ _ _ _ Hpad Hc) as [->|Hs]; [done|]. by rewrite Hs, andb_false_r. }
    apply IH. rewrite length_app. lia.
Qed.

(** A padded string comes out of the scrambled order without its padding. *)
Lemma descramble_padded t pad : Forall blank_char pad -> pad <> [] -> list.last t <> Some 0 -> (forall c, list.last t = Some c -> isspace c = false) ->
  descramble_ata_string (swap_pairs (t ++ pad)) = t.
Proof.
  intros Hpad Hne H0 Hsp. unfold descramble_ata_string. rewrite swap_pairs_twice, length_swap_pairs, last_kept_pad; [apply take_app_length|done..|].
  rewrite length_app. destruct pad; [done|]. cbn [length]. lia.
Qed.

(** A string that fills its field loses its last character. *)
Example full_string_truncated : descramble_ata_string (swap_pairs [65; 66; 67; 68]) = [65; 66; 67].
Proof. reflexivity. Qed.

(** expecting_interrupt is never cleared: after a first command an interrupt
    no command caused still ups the semaphore, and the next command does
    not wait. *)
Example stray_interrupt_counted :
  match ide_read (0%nat, 0%nat) 3 two_drives with
  | Ok (_, s) => match interrupt_handler 46 s with Ok (_, s') => completion_wait <$> head (channels s') = Some 1 | Err _ => False end
  | Err _ => False
  end.
Proof. vm_compute. reflexivity. Qed.
