(* ===== verification/CommandLine.v ===== *)
(** * The kernel's command line and block device roles (src/threads/init.c)

    The words the boot loader leaves in memory, the options, the actions
    after them, and the choice of the devices for the roles, in the
    configuration of the file system project (USERPROG and FILESYS).
    Strings are in byte memory; a comparison with a literal is on the bytes
    of the string.  Messages are left out; -h prints help and powers off.
    Running an action is recorded, with the pointers it is given. *)

From Stdlib Require Import Ascii String.
From S2P Require Import Prelude Memory CString HeapSort Block.
#[local] Close Scope string_scope.
#[local] Open Scope list_scope.
#[local] Open Scope Z_scope.

Definition LOADER_END : Z := 0x7e00.
Definition LOADER_SIG_LEN : Z := 2.
Definition LOADER_PARTS_LEN : Z := 64.
Definition LOADER_ARGS_LEN : Z := 128.
Definition LOADER_ARG_CNT_LEN : Z := 4.
Definition LOADER_SIG : Z := LOADER_END - LOADER_SIG_LEN.
Definition LOADER_PARTS : Z := LOADER_SIG - LOADER_PARTS_LEN.
Definition LOADER_ARGS : Z := LOADER_PARTS - LOADER_ARGS_LEN.
Definition LOADER_ARG_CNT : Z := LOADER_ARGS - LOADER_ARG_CNT_LEN.
(** ptov of these. *)
Definition args_base : Z := 0xc0000000 + LOADER_ARGS.
Definition arg_cnt : Z := 0xc0000000 + LOADER_ARG_CNT.

Definition lit (s : string) : list Z := (fun c => Z.of_N (N_of_ascii c)) <$> list_ascii_of_string s.

(** ** Words *)

(** The loop of read_command_line; [argv] are the entries written so far. *)
Definition argv_len : nat := 65.
Fixpoint read_loop (n : nat) (m : mem) (p : Z) (argv : list Z) : outcome (list Z) :=
  match n with
  | O => Ok argv
  | S n' =>
      if args_base + LOADER_ARGS_LEN <=? p then Err Panic
      else if bool_decide (length argv < argv_len)%nat then
        l ← strnlen m p (args_base + LOADER_ARGS_LEN - p); read_loop n' m (p + l + 1) (argv ++ [p])
      else Err Fault
  end.
(** The pointers before the null pointer that ends argv. *)
Definition read_command_line (m : mem) : outcome (list Z) :=
  b0 ← load m arg_cnt; b1 ← load m (arg_cnt + 1); b2 ← load m (arg_cnt + 2); b3 ← load m (arg_cnt + 3);
  let argc := s32 (le_value [b0; b1; b2; b3]) in
  argv ← read_loop (Z.to_nat argc) m args_base [];
  if (0 <=? argc) && (argc <? Z.of_nat argv_len) then Ok argv else Err Fault.

(** ** Options *)

Inductive shutdown_type := SHUTDOWN_NONE | SHUTDOWN_POWER_OFF | SHUTDOWN_REBOOT.

(** What the options set: how to shut down, the statics of init.c,
    thread_mlfqs, and the seeds given to random_init, in order. *)
Record settings := Settings {
  how : shutdown_type;
  format_filesys : bool;
  filesys_bdev_name : Z;
  scratch_bdev_name : Z;
  thread_mlfqs : bool;
  user_page_limit : Z;
  seeds : list Z
}.
Definition defaults : settings := Settings SHUTDOWN_NONE false NULL NULL false (2 ^ 32 - 1) [].
Definition set_how (h : shutdown_type) (o : settings) : settings := Settings h (format_filesys o) (filesys_bdev_name o) (scratch_bdev_name o) (thread_mlfqs o) (user_page_limit o) (seeds o).
Definition set_format (o : settings) : settings := Settings (how o) true (filesys_bdev_name o) (scratch_bdev_name o) (thread_mlfqs o) (user_page_limit o) (seeds o).
Definition set_filesys (p : Z) (o : settings) : settings := Settings (how o) (format_filesys o) p (scratch_bdev_name o) (thread_mlfqs o) (user_page_limit o) (seeds o).
Definition set_scratch (p : Z) (o : settings) : settings := Settings (how o) (format_filesys o) (filesys_bdev_name o) p (thread_mlfqs o) (user_page_limit o) (seeds o).
Definition set_mlfqs (o : settings) : settings := Settings (how o) (format_filesys o) (filesys_bdev_name o) (scratch_bdev_name o) true (user_page_limit o) (seeds o).
Definition set_limit (n : Z) (o : settings) : settings := Settings (how o) (format_filesys o) (filesys_bdev_name o) (scratch_bdev_name o) (thread_mlfqs o) n (seeds o).
Definition random_init (seed : Z) (o : settings) : settings := Settings (how o) (format_filesys o) (filesys_bdev_name o) (scratch_bdev_name o) (thread_mlfqs o) (user_page_limit o) (seeds o ++ [u32 seed]).

(** The bytes of the C string at [p]. *)
Definition cstring (m : mem) (p : Z) : outcome (list Z) := n ← strlen m p; read_bytes (Z.to_nat n) m p.

Section options.
(** The addresses of the literals "=" and "", and the result of
    rtc_get_time. *)
Context (equals empty now : Z).

(** One option; [None] if it powers the machine off. *)
Definition set_option (m : mem) (name : list Z) (value : Z) (o : settings) : outcome (option settings) :=
  if bool_decide (name = lit "-h"%string) then Ok None
  else if bool_decide (name = lit "-q"%string) then Ok (Some (set_how SHUTDOWN_POWER_OFF o))
  else if bool_decide (name = lit "-r"%string) then Ok (Some (set_how SHUTDOWN_REBOOT o))
  else if bool_decide (name = lit "-f"%string) then Ok (Some (set_format o))
  else if bool_decide (name = lit "-filesys"%string) then Ok (Some (set_filesys value o))
  else if bool_decide (name = lit "-scratch"%string) then Ok (Some (set_scratch value o))
  else if bool_decide (name = lit "-rs"%string) then n ← atoi m value; Ok (Some (random_init n o))
  else if bool_decide (name = lit "-mlfqs"%string) then Ok (Some (set_mlfqs o))
  else if bool_decide (name = lit "-ul"%string) then n ← atoi m value; Ok (Some (set_limit (u32 n) o))
  else Err Panic.

(** The remaining words, the memory and the settings. *)
Fixpoint parse_options (argv : list Z) (m : mem) (o : settings) : outcome (option (list Z * mem * settings)) :=
  match argv with
  | [] => Ok (Some ([], m, random_init now o))
  | p :: rest =>
      c ← load m p;
      if c =? 45 then
        '(name, save, m) ← strtok_r m p equals 0;
        '(value, save, m) ← strtok_r m NULL empty save;
        s ← cstring m name;
        r ← set_option m s value o;
        match r with Some o => parse_options rest m o | None => Ok None end
      else Ok (Some (argv, m, random_init now o))
  end.
End options.

(** ** Actions *)

(** The table of actions: the name and the number of arguments, the name
    included. *)
Definition actions : list (list Z * nat) :=
  [(lit "run"%string, 2); (lit "ls"%string, 1); (lit "cat"%string, 2); (lit "rm"%string, 2); (lit "extract"%string, 1); (lit "append"%string, 2)]%nat.

Fixpoint find_action (table : list (list Z * nat)) (name : list Z) (k : nat) : option (nat * nat) :=
  match table with
  | [] => None
  | (s, argc) :: table' => if bool_decide (name = s) then Some (k, argc) else find_action table' name (S k)
  end.

(** The actions run, each by its number in the table with its argument
    pointers, and whether the kernel panicked after them. *)
Fixpoint run_actions (fuel : nat) (argv : list Z) (m : mem) : outcome (list (nat * list Z) * bool) :=
  match argv with
  | [] => Ok ([], false)
  | p :: _ =>
      match fuel with
      | O => Err Fuel
      | S fuel' =>
          s ← cstring m p;
          match find_action actions s 0 with
          | None => Ok ([], true)
          | Some (k, argc) =>
              if bool_decide (length argv < argc)%nat then Ok ([], true)
              else '(l, bad) ← run_actions fuel' (drop argc argv) m; Ok ((k, take argc argv) :: l, bad)
          end
      end
  end.

(** ** Roles *)

Section roles.
Context {D : Type} `{BlockDriver D}.

(** The loop over the devices from [p]. *)
Fixpoint find_type (fuel : nat) (bs : blocks D) (role : block_type) (p : option nat) : outcome (option nat) :=
  match p with
  | None => Ok None
  | Some i =>
      match all_blocks bs !! i with
      | None => Err Fault
      | Some b =>
          if bool_decide (b_type b = role) then Ok (Some i)
          else match fuel with O => Err Fuel | S fuel' => find_type fuel' bs role (block_next bs i) end
      end
  end.
Definition locate_block_device (role : block_type) (name : option (list Z)) (bs : blocks D) : outcome (blocks D) :=
  p ← (match name with
       | Some s => match block_get_by_name bs s with Some i => Ok (Some i) | None => Err Panic end
       | None => find_type (length (all_blocks bs)) bs role (block_first bs)
       end);
  match p with Some i => block_set_role bs role (Some i) | None => Ok bs end.

(** The name a static points to. *)
Definition device_name (m : mem) (p : Z) : outcome (option (list Z)) := if p =? NULL then Ok None else s ← cstring m p; Ok (Some s).
Definition locate_block_devices (m : mem) (o : settings) (bs : blocks D) : outcome (blocks D) :=
  n ← device_name m (filesys_bdev_name o); bs ← locate_block_device BLOCK_FILESYS n bs;
  n ← device_name m (scratch_bdev_name o); locate_block_device BLOCK_SCRATCH n bs.
End roles.

(** ** Words in memory *)

Fixpoint words_at (m : mem) (p : Z) (ws : list (list Z)) : Prop :=
  match ws with [] => True | w :: ws' => cstr m p w /\ words_at m (p + Z.of_nat (length w) + 1) ws' end.
Fixpoint ptrs (p : Z) (ws : list (list Z)) : list Z :=
  match ws with [] => [] | w :: ws' => p :: ptrs (p + Z.of_nat (length w) + 1) ws' end.
Fixpoint span (ws : list (list Z)) : Z := match ws with [] => 0 | w :: ws' => Z.of_nat (length w) + 1 + span ws' end.

Lemma span_nonneg ws : Z.of_nat (length ws) <= span ws.
Proof. induction ws as [|w ws IH]; simpl length; cbn [span]; lia. Qed.
Lemma span_app ws ws' : span (ws ++ ws') = span ws + span ws'.
Proof. induction ws as [|w ws IH]; cbn [span app]; lia. Qed.
Lemma ptrs_app p ws ws' : ptrs p (ws ++ ws') = ptrs p ws ++ ptrs (p + span ws) ws'.
Proof. revert p. induction ws as [|w ws IH]; intros p; cbn [ptrs span app]; [by rewrite Z.add_0_r|]. rewrite IH. do 3 f_equal. lia. Qed.
Lemma length_ptrs p ws : length (ptrs p ws) = length ws.
Proof. revert p. induction ws as [|w ws IH]; intros p; cbn [ptrs length]; [done|]. by rewrite IH. Qed.
Lemma words_at_app m p ws ws' : words_at m p (ws ++ ws') <-> words_at m p ws /\ words_at m (p + span ws) ws'.
Proof.
  revert p. induction ws as [|w ws IH]; intros p; cbn [words_at span app]; [rewrite Z.add_0_r; tauto|]. rewrite IH.
  replace (p + Z.of_nat (length w) + 1 + span ws) with (p + (Z.of_nat (length w) + 1 + span ws)) by lia. tauto.
Qed.

(** The memories agree from [lo] on, or below it. *)
Definition same_from (lo : Z) (m m' : mem) : Prop := forall a, lo <= a -> m' !! a = m !! a.
Definition same_below (hi : Z) (m m' : mem) : Prop := forall a, a < hi -> m' !! a = m !! a.
Lemma words_at_frame m m' p ws : words_at m p ws -> same_from p m m' -> words_at m' p ws.
Proof.
  revert p. induction ws as [|w ws IH]; intros p Hw Hs; [done|]. destruct Hw as [Hc Hw]. split; [eapply cstr_frame; [done|]; intros a Ha; apply Hs; lia|]. apply IH; [done|]. intros a Ha. apply Hs. lia.
Qed.

Lemma cstring_ok m p s : p <> NULL -> cstr m p s -> cstring m p = Ok s.
Proof. intros Hp Hs. unfold cstring. rewrite (strlen_ok _ _ s) by done. cbn [mbind outcome_bind]. rewrite Nat2Z.id. by apply read_bytes_ok, cstr_bytes. Qed.

Lemma argv_loop_ok m p ws argv :
  words_at m p ws -> p + span ws <= args_base + LOADER_ARGS_LEN -> (length argv + length ws <= argv_len)%nat ->
  read_loop (length ws) m p argv = Ok (argv ++ ptrs p ws).
Proof.
  revert p argv. induction ws as [|w ws IH]; intros p argv Hw Hs Hl; cbn [length read_loop ptrs]; [by rewrite app_nil_r|]. destruct Hw as [Hc Hw]. cbn [span] in Hs. pose proof (span_nonneg ws). simpl length in Hl.
  destruct (Z.leb_spec (args_base + LOADER_ARGS_LEN) p); [lia|]. rewrite bool_decide_eq_true_2 by lia. rewrite (strnlen_ok _ _ w) by (done || lia). cbn [mbind outcome_bind].
  rewrite IH; [by rewrite <- app_assoc|done|lia|rewrite length_app; simpl; lia].
Qed.

(** What the loader leaves: the words and their number. *)
Record loaded (m : mem) (ws : list (list Z)) : Prop := {
  l_words : words_at m args_base ws;
  l_nonempty : Forall (fun w => w <> []) ws;
  l_fits : span ws <= LOADER_ARGS_LEN;
  l_count : bytes_at m arg_cnt (le_bytes 4 (Z.of_nat (length ws)))
}.
Lemma nonempty_span ws : Forall (fun w : list Z => w <> []) ws -> 2 * Z.of_nat (length ws) <= span ws.
Proof. induction 1 as [|w ws Hw _ IH]; [done|]. cbn [span length]. destruct w; [done|]. simpl length. lia. Qed.

Lemma read_command_line_ok m ws : loaded m ws -> read_command_line m = Ok (ptrs args_base ws).
Proof.
  intros [Hw Hne Hf Hc]. pose proof (nonempty_span ws Hne). unfold LOADER_ARGS_LEN in Hf. unfold read_command_line.
  assert (le_value (le_bytes 4 (Z.of_nat (length ws))) = Z.of_nat (length ws)) as Ev by (rewrite le_value_bytes32, u32_small; lia). unfold le_bytes in Hc, Ev.
  apply bytes_at_cons in Hc as [H0 Hc]. apply bytes_at_cons in Hc as [H1 Hc]. apply bytes_at_cons in Hc as [H2 Hc]. apply bytes_at_cons in Hc as [H3 _].
  replace (arg_cnt + 1 + 1) with (arg_cnt + 2) in * by lia. replace (arg_cnt + 2 + 1) with (arg_cnt + 3) in * by lia.
  rewrite (load_Ok _ _ _ H0), (load_Ok _ _ _ H1), (load_Ok _ _ _ H2), (load_Ok _ _ _ H3). cbn [mbind outcome_bind]. rewrite Ev, s32_small by lia. rewrite Nat2Z.id.
  rewrite (argv_loop_ok m args_base ws []); [|done|unfold LOADER_ARGS_LEN; lia|unfold argv_len; simpl; lia]. cbn [mbind outcome_bind].
  destruct (Z.leb_spec 0 (Z.of_nat (length ws))), (Z.ltb_spec (Z.of_nat (length ws)) (Z.of_nat argv_len)); unfold argv_len in *; (done || lia).
Qed.

(** ** The options of a command line *)

Inductive opt := Quit | Reboot | Format | Filesys (v : list Z) | Scratch (v : list Z) | Seed (ds : list Z) | Mlfqs | Limit (ds : list Z).
Definition opt_name (o : opt) : list Z :=
  lit (match o with Quit => "-q" | Reboot => "-r" | Format => "-f" | Filesys _ => "-filesys" | Scratch _ => "-scratch" | Seed _ => "-rs" | Mlfqs => "-mlfqs" | Limit _ => "-ul" end)%string.
Definition digit_chars (ds : list Z) : list Z := (fun d => d + 48) <$> ds.
Definition opt_value (o : opt) : option (list Z) :=
  match o with Filesys v | Scratch v => Some v | Seed ds | Limit ds => Some (digit_chars ds) | _ => None end.
Definition render (o : opt) : list Z := opt_name o ++ match opt_value o with Some v => 61 :: v | None => [] end.
Definition opt_ok (o : opt) : Prop :=
  match o with
  | Filesys v | Scratch v => text v /\ v <> []
  | Seed ds | Limit ds => Forall (fun d => 0 <= d <= 9) ds /\ ds <> [] /\ decimal ds <= INT_MAX
  | _ => True
  end.

(** The settings the options ask for, the last of a kind winning; the names
    of devices are strings. *)
Record wishes := Wishes {
  w_how : shutdown_type; w_format : bool; w_filesys : option (list Z); w_scratch : option (list Z); w_mlfqs : bool; w_limit : Z; w_seeds : list Z }.
Definition no_wishes : wishes := Wishes SHUTDOWN_NONE false None None false (2 ^ 32 - 1) [].
Definition wish (w : wishes) (o : opt) : wishes :=
  let '(Wishes h f fs sc ml li se) := w in
  match o with
  | Quit => Wishes SHUTDOWN_POWER_OFF f fs sc ml li se
  | Reboot => Wishes SHUTDOWN_REBOOT f fs sc ml li se
  | Format => Wishes h true fs sc ml li se
  | Filesys v => Wishes h f (Some v) sc ml li se
  | Scratch v => Wishes h f fs (Some v) ml li se
  | Seed ds => Wishes h f fs sc ml li (se ++ [decimal ds])
  | Mlfqs => Wishes h f fs sc true li se
  | Limit ds => Wishes h f fs sc ml (decimal ds) se
  end.

(** A static that holds the name [s], in memory below [hi]. *)
Definition names (m : mem) (hi p : Z) (s : option (list Z)) : Prop :=
  match s with None => p = NULL | Some s => 0 < p /\ p + Z.of_nat (length s) < hi /\ cstr m p s end.
Record granted (m : mem) (hi : Z) (w : wishes) (o : settings) : Prop := {
  g_how : how o = w_how w;
  g_format : format_filesys o = w_format w;
  g_filesys : names m hi (filesys_bdev_name o) (w_filesys w);
  g_scratch : names m hi (scratch_bdev_name o) (w_scratch w);
  g_mlfqs : thread_mlfqs o = w_mlfqs w;
  g_limit : user_page_limit o = w_limit w;
  g_seeds : seeds o = w_seeds w
}.

Lemma names_frame m m' hi hi' p s : names m hi p s -> same_below hi m m' -> hi <= hi' -> names m' hi' p s.
Proof. destruct s as [s|]; [|done]. intros (Hp & Hh & Hs) Hm Hle. split; [done|]. split; [lia|]. eapply cstr_frame; [done|]. intros a Ha. apply Hm. lia. Qed.
Lemma granted_frame m m' hi hi' w o : granted m hi w o -> same_below hi m m' -> hi <= hi' -> granted m' hi' w o.
Proof. intros [? ? ? ? ? ? ?] Hm Hle. split; try done; by eapply names_frame. Qed.

Lemma digits_text ds : Forall (fun d => 0 <= d <= 9) ds -> text (digit_chars ds).
Proof. intros Hd. unfold text, digit_chars. apply Forall_fmap. eapply list.Forall_impl; [done|]. intros d Hr. unfold compose, is_byte. cbn beta in *. lia. Qed.
Lemma opt_value_text o v : opt_ok o -> opt_value o = Some v -> text v /\ v <> [].
Proof.
  intros Ho. destruct o; intros [= <-]; cbn in Ho; try done; destruct Ho as (Hd & Hne & _); (split; [by apply digits_text|by destruct ds]).
Qed.
Lemma opt_name_text o : text (opt_name o).
Proof. apply text_check. by destruct o. Qed.
Lemma opt_name_plain o : Forall (.∉ [61]) (opt_name o).
Proof.
  assert (forallb (fun c => negb (c =? 61)) (opt_name o) = true) as Hall by (by destruct o). rewrite forallb_forall in Hall.
  apply list.Forall_forall. intros c Hc. rewrite list_elem_of_singleton. intros ->. apply list_elem_of_In in Hc. by specialize (Hall 61 Hc).
Qed.

Lemma atoi_digits m p ds : 0 < p -> Forall (fun d => 0 <= d <= 9) ds -> ds <> [] -> decimal ds <= INT_MAX -> cstr m p (digit_chars ds) -> atoi m p = Ok (decimal ds).
Proof.
  intros Hp Hd Hne Hm [_ Hb]. apply (atoi_signed m p [] ds 0 false); try done; [unfold NULL; lia|]. pose proof (decimal_nonneg ds Hd). unfold INT_MIN. lia.
Qed.

Section parsing.
Context (equals empty now : Z).

(** The literals are in memory, outside the words that start at [p]. *)
Record literals (m : mem) (p : Z) : Prop := {
  t_equals : 0 < equals < p - 1 /\ cstr m equals [61];
  t_empty : 0 < empty < p /\ cstr m empty []
}.
Lemma literals_frame m m' p p' : literals m p -> same_below p m m' -> p <= p' -> literals m' p'.
Proof.
  intros [[He1 He2] [Hm1 Hm2]] Hs Hle. split; (split; [lia|]); (eapply cstr_frame; [done|]); intros a Ha; apply Hs; simpl in Ha; lia.
Qed.

(** The two calls of strtok_r split a word at its first '='. *)
Lemma split_option m p o : 0 < p -> literals m p -> opt_ok o -> cstr m p (render o) ->
  exists m' save save', strtok_r m p equals 0 = Ok (p, save, m') /\
    let value := match opt_value o with Some _ => save | None => NULL end in
    strtok_r m' NULL empty save = Ok (value, save', m') /\
    cstr m' p (opt_name o) /\ match opt_value o with Some v => save = p + Z.of_nat (length (opt_name o)) + 1 /\ cstr m' save v | None => True end /\
    same_below p m m' /\ same_from (p + Z.of_nat (length (render o)) + 1) m m'.
Proof.
  intros Hp Hlit Hok Hs. pose proof Hlit as [[He1 He2] [Hm1 Hm2]]. set (rest := match opt_value o with Some v => 61 :: v | None => [] end).
  assert (render o = [] ++ opt_name o ++ rest) as Er by done. rewrite Er in Hs.
  assert (tok_start p 0 = p) as Ets by (unfold tok_start, NULL; destruct (Z.eqb_spec p 0); [lia|done]).
  pose proof (strtok_some m p 0 equals [61] [] (opt_name o) rest) as Hsome. cbv zeta in Hsome. rewrite Ets in Hsome. simpl length in Hsome. rewrite Z.add_0_r in Hsome.
  destruct Hsome as (m1 & Hn & Hv & Ht & Hmem); [lia|lia|done|done|apply Forall_nil_2|by destruct o|apply opt_name_plain|unfold rest; destruct (opt_value o); [by apply bool_decide_eq_false_2; rewrite list_elem_of_singleton; intros []|done]|].
  assert (forall a, a <> p + Z.of_nat (length (opt_name o)) -> m1 !! a = m !! a) as Hsame.
  { intros a Ha. destruct Hmem as [->|[-> _]]; [done|]. rewrite lookup_put. rewrite decide_False by (simpl; lia). done. }
  assert (0 < Z.of_nat (length (opt_name o))) as Hlen by (by destruct o).
  assert (Z.of_nat (length (opt_name o)) <= Z.of_nat (length (render o))) as Hle by (rewrite Er, !length_app; lia).
  assert (cstr m1 empty []) as Hm2' by (eapply cstr_frame; [done|]; intros a Ha; apply Hsame; simpl in Ha; lia).
  set (save := p + Z.of_nat (length (opt_name o)) + Z.of_nat (length (take 1 rest))) in *. assert (tok_start NULL save = save) as Ets2 by done.
  assert (same_below p m m1 /\ same_from (p + Z.of_nat (length (render o)) + 1) m m1) as Hframe by (split; intros a Ha; apply Hsame; lia).
  destruct (opt_value o) as [v|] eqn:Ev; unfold rest in *.
  - destruct (opt_value_text o v Hok Ev) as [Htv Hne]. cbn [take drop length] in *. rewrite drop_0 in Hv.
    destruct (strtok_some m1 NULL save empty [] [] v []) as (m2 & _ & _ & Ht2 & Hmem2); rewrite ?Ets2; try done; [unfold save; lia|lia|by rewrite app_nil_r|apply list.Forall_forall; intros c _; apply not_elem_of_nil|].
    destruct Hmem2 as [->|[_ Hf]]; [|done]. rewrite Ets2 in Ht2. simpl length in Ht2. rewrite Z.add_0_r in Ht2.
    exists m1, save, (save + Z.of_nat (length v) + 0). split; [done|]. split; [exact Ht2|]. split; [done|]. split; [split; [unfold save; rewrite take_0; simpl; lia|done]|]. exact Hframe.
  - exists m1, save, save. split; [done|]. split; [|by split_and!; try done; apply Hframe]. cbn [take drop length] in *.
    pose proof (strtok_none m1 NULL save empty [] []) as Hnone. rewrite Ets2 in Hnone. rewrite Hnone; [by rewrite Z.add_0_r|unfold save; lia|lia|done|done|apply Forall_nil_2].
Qed.

Lemma set_option_ok m hi w st o value : opt_ok o -> granted m hi w st ->
  match opt_value o with Some v => 0 < value /\ value + Z.of_nat (length v) < hi /\ cstr m value v | None => True end ->
  exists st', set_option m (opt_name o) value st = Ok (Some st') /\ granted m hi (wish w o) st'.
Proof.
  intros Hok [H1 H2 H3 H4 H5 H6 H7] Hv. destruct w as [h f fs sc ml li se]. cbn in H1, H2, H3, H4, H5, H6, H7.
  destruct o as [| | |v|v|ds| |ds]; cbn [opt_value opt_ok] in Hv, Hok; try (eexists; split; [reflexivity|]; by split).
  - destruct Hok as (Hd & Hne & Hm). destruct Hv as (Hp & _ & Hc). pose proof (decimal_nonneg ds Hd). unfold INT_MAX in *.
    exists (random_init (decimal ds) st). split; [change (set_option m (opt_name (Seed ds)) value st) with (n ← atoi m value; Ok (Some (random_init n st))); by rewrite (atoi_digits m value ds)|].
    split; try done. cbn. rewrite H7, u32_small by lia. done.
  - destruct Hok as (Hd & Hne & Hm). destruct Hv as (Hp & _ & Hc). pose proof (decimal_nonneg ds Hd). unfold INT_MAX in *.
    exists (set_limit (u32 (decimal ds)) st). split; [change (set_option m (opt_name (Limit ds)) value st) with (n ← atoi m value; Ok (Some (set_limit (u32 n) st))); by rewrite (atoi_digits m value ds)|].
    split; try done. cbn. by rewrite u32_small by lia.
Qed.

Definition no_option (ws : list (list Z)) : Prop := match ws with [] => True | w :: _ => exists c w', w = c :: w' /\ c <> 45 end.

Lemma parse_options_ok opts ws p m w st :
  0 < p -> literals m p -> Forall opt_ok opts -> words_at m p ((render <$> opts) ++ ws) -> no_option ws -> granted m p w st ->
  let q := p + span (render <$> opts) in
  exists m' st', parse_options equals empty now (ptrs p ((render <$> opts) ++ ws)) m st = Ok (Some (ptrs q ws, m', random_init now st')) /\
    granted m' q (fold_left wish opts w) st' /\ words_at m' q ws.
Proof.
  intros Hp Hlit Hok. revert p m w st Hp Hlit. induction Hok as [|o opts Ho _ IH]; intros p m w st Hp Hlit Hw Hno Hg q.
  - unfold q. cbn [fmap list_fmap span app]. rewrite Z.add_0_r. exists m, st. split; [|done]. destruct ws as [|s ws]; [done|]. cbn [ptrs parse_options]. destruct Hno as (c & s' & -> & Hc). destruct Hw as [Hs _].
    apply cstr_cons in Hs as (_ & Hl & _). rewrite (load_Ok _ _ _ Hl). cbn [mbind outcome_bind]. by rewrite (proj2 (Z.eqb_neq c 45)).
  - cbn [fmap list_fmap app] in Hw |- *. destruct Hw as [Hs Hw]. cbn [ptrs parse_options].
    assert (m !! p = Some 45) as Hl. { assert (exists s', render o = 45 :: s') as [s' Es] by (destruct o; eexists; reflexivity). rewrite Es in Hs. by apply cstr_cons in Hs as (_ & Hl & _). }
    rewrite (load_Ok _ _ _ Hl). cbn [mbind outcome_bind Z.eqb Pos.eqb].
    destruct (split_option m p o Hp Hlit Ho Hs) as (m1 & save & save' & E1 & E2 & Hn & Hv & Hbelow & Hfrom). rewrite E1. cbn [mbind outcome_bind]. rewrite E2. cbn [mbind outcome_bind].
    rewrite (cstring_ok m1 p (opt_name o)) by (done || (unfold NULL; lia)). cbn [mbind outcome_bind]. set (p1 := p + Z.of_nat (length (render o)) + 1) in *.
    destruct (set_option_ok m1 p1 w st o (match opt_value o with Some _ => save | None => NULL end)) as (st1 & Es & Hg1); [done|eapply granted_frame; [done..|unfold p1; lia]| |].
    { unfold p1, render. destruct (opt_value o) as [v|]; [|done]. destruct Hv as [-> Hv]. split; [lia|]. split; [rewrite length_app; simpl; lia|done]. }
    rewrite Es. cbn [mbind outcome_bind]. destruct (IH p1 m1 (wish w o) st1) as (m' & st' & E & Hg' & Hw').
    + unfold p1; lia.
    + eapply literals_frame; [done..|unfold p1; lia].
    + by apply (words_at_frame m).
    + done.
    + done.
    + exists m', st'. cbn [span fold_left]. assert (q = p1 + span (render <$> opts)) as -> by (unfold q, p1; cbn [fmap list_fmap span]; lia). rewrite E. done.
Qed.
End parsing.

(** ** The actions of a command line *)

(** An action by its number, with its words, the name first. *)
Definition act_ok (a : nat * list (list Z)) : Prop := exists name argc rest, actions !! a.1 = Some (name, argc) /\ a.2 = name :: rest /\ length a.2 = argc.
Definition ran (m : mem) (l : nat * list Z) (a : nat * list (list Z)) : Prop := l.1 = a.1 /\ Forall2 (cstr m) l.2 a.2.

Lemma find_action_ok k name argc : actions !! k = Some (name, argc) -> find_action actions name 0 = Some (k, argc).
Proof. do 6 (destruct k as [|k]; [intros [= <- <-]; reflexivity|]). done. Qed.
Lemma words_at_ptrs m p ws : words_at m p ws -> Forall2 (cstr m) (ptrs p ws) ws.
Proof. revert p. induction ws as [|w ws IH]; intros p Hw; [constructor|]. destruct Hw as [Hc Hw]. constructor; [done|]. by apply IH. Qed.

Lemma run_actions_ok acts fuel p m : 0 < p -> Forall act_ok acts -> words_at m p (mjoin (snd <$> acts)) -> (length acts <= fuel)%nat ->
  exists l, run_actions fuel (ptrs p (mjoin (snd <$> acts))) m = Ok (l, false) /\ Forall2 (ran m) l acts.
Proof.
  intros Hp Ha. revert fuel p Hp. induction Ha as [|[k ws] acts (name & argc & rest & Hk & Hws & Hl) _ IH]; intros fuel p Hp Hw Hf; [exists []; split; [by destruct fuel|constructor]|].
  change (mjoin (snd <$> (k, ws) :: acts)) with (ws ++ mjoin (snd <$> acts)) in *. cbn [fst snd] in *. destruct fuel as [|fuel]; [simpl in Hf; lia|]. apply words_at_app in Hw as [Hw1 Hw2]. rewrite ptrs_app.
  assert (ptrs p ws = p :: ptrs (p + Z.of_nat (length name) + 1) rest) as Ep by (by rewrite Hws). pose proof (length_ptrs p ws) as Hlp. rewrite Hl in Hlp.
  destruct (IH fuel (p + span ws)) as (l & E & Hall); [pose proof (span_nonneg ws); lia|done|simpl in Hf; lia|].
  exists ((k, ptrs p ws) :: l). split; [|constructor; [split; [done|by apply words_at_ptrs]|done]].
  rewrite Ep at 1. cbn [app run_actions]. rewrite (cstring_ok m p name) by (unfold NULL; first [lia|rewrite Hws in Hw1; apply Hw1]). cbn [mbind outcome_bind]. rewrite (find_action_ok k name argc) by done.
  rewrite app_comm_cons, <- Ep. rewrite bool_decide_eq_false_2 by (rewrite length_app; lia). rewrite drop_app_length', take_app_length' by done. by rewrite E.
Qed.


Definition demo_opts : list opt := [Quit; Filesys (lit "hdb1"%string); Seed [4; 2]; Format; Filesys (lit "hda2"%string)].
Definition demo_acts : list (nat * list (list Z)) := [(4%nat, [lit "extract"%string]); (0%nat, [lit "run"%string; lit "echo x"%string]); (1%nat, [lit "ls"%string])].
Definition demo_words : list (list Z) := (render <$> demo_opts) ++ mjoin (snd <$> demo_acts).
Definition demo_mem : mem :=
  put (put (put (put (map_seqZ args_base (replicate 128 0)) args_base (mjoin ((fun w => w ++ [0]) <$> demo_words))) arg_cnt (le_bytes 4 (Z.of_nat (length demo_words)))) 100 [61; 0]) 200 [0].
Definition demo_result : outcome (shutdown_type * bool * list Z * list Z * list nat) :=
  argv ← read_command_line demo_mem; r ← parse_options 100 200 77 argv demo_mem defaults;
  match r with
  | Some (rest, m, st) => '(l, _) ← run_actions (length rest) rest m; n ← cstring m (filesys_bdev_name st); Ok (how st, format_filesys st, n, seeds st, List.map fst l)
  | None => Err Panic
  end.

(** ** Roles *)

Section locate.
Context {D : Type} `{BlockDriver D}.
Implicit Types (bs : blocks D).

(** The search finds the first device of the type in probe order. *)
Lemma find_type_ok bs role fuel i : (i < length (all_blocks bs))%nat -> (length (all_blocks bs) - i <= fuel)%nat ->
  find_type fuel bs role (Some i) = Ok ((fun r => (i + r.1)%nat) <$> list_find (fun b => b_type b = role) (drop i (all_blocks bs))).
Proof.
  revert i. induction fuel as [|fuel IH]; intros i Hi Hf; [lia|]. destruct (lookup_lt_is_Some_2 _ _ Hi) as [b Hb]. rewrite (drop_S _ b) by done. cbn [find_type list_find]. rewrite Hb.
  destruct (decide (b_type b = role)) as [Ht|Ht]; [rewrite bool_decide_eq_true_2 by done; cbn; by rewrite Nat.add_0_r|]. rewrite bool_decide_eq_false_2 by done.
  unfold block_next. destruct (decide (S i < length (all_blocks bs))%nat) as [Hn|Hn].
  - rewrite bool_decide_eq_true_2 by done. rewrite IH by lia. f_equal. rewrite <- option_fmap_compose. apply option_fmap_ext. intros [k x]. simpl. lia.
  - rewrite bool_decide_eq_false_2 by done. rewrite drop_ge by lia. by destruct fuel.
Qed.

(** A role is given to the device named for it, or else to the first of its
    type, or left as it is. *)
Lemma locate_block_device_ok bs role name : type_no role < BLOCK_ROLE_CNT -> length (block_by_role bs) = 4%nat ->
  (forall s, name = Some s -> is_Some (block_get_by_name bs s)) ->
  let found := match name with Some s => block_get_by_name bs s | None => fst <$> list_find (fun b => b_type b = role) (all_blocks bs) end in
  exists bs', locate_block_device role name bs = Ok bs' /\ all_blocks bs' = all_blocks bs /\
    block_by_role bs' = match found with Some i => <[Z.to_nat (type_no role) := Some i]> (block_by_role bs) | None => block_by_role bs end.
Proof.
  intros Hr Hl Hname found. assert (0 <= type_no role) by (by destruct role). unfold BLOCK_ROLE_CNT in Hr.
  assert (locate_block_device role name bs = match found with Some i => block_set_role bs role (Some i) | None => Ok bs end) as ->.
  { unfold locate_block_device, found. destruct name as [s|].
    - destruct (Hname s eq_refl) as [i ->]. done.
    - unfold block_first. destruct (all_blocks bs) as [|b l] eqn:E; [by destruct (length _)|]. rewrite <- E. rewrite find_type_ok by (rewrite E; simpl; lia). rewrite drop_0. cbn [mbind outcome_bind].
      by destruct (list_find _ _) as [[]|]. }
  destruct found as [i|]; [|by exists bs]. unfold block_set_role, BLOCK_ROLE_CNT. rewrite kassert_true by lia. cbn [mbind outcome_bind]. rewrite zset_Ok by lia. eexists. split; [reflexivity|done].
Qed.
End locate.

(** More than 64 empty words overrun the array of pointers. *)
Definition empty_words : mem := put (map_seqZ args_base (replicate 128 0)) arg_cnt (le_bytes 4 66).
Example empty_words_overrun : read_command_line empty_words = Err Fault.
Proof. vm_compute. reflexivity. Qed.
