(* ===== verification/BufferCache.v ===== *)
(** * The buffer cache (src/filesys/buffer-cache.c)

    A table of 64 sector copies with write-back, in front of fs_device.
    Each operation runs between lock_acquire and lock_release of
    cache_lock, so it is one atomic step of the model.  The abstract
    contract is a flat array of sectors ([logical]): the cache refines it. *)

From S2P Require Import Prelude Block.

Definition CACHE_SIZE : Z := 64.

(** struct cache_table_entry *)
Record cache_entry := Entry {
  occupied : bool;
  open_cnt : Z;
  accessed : bool;
  dirty : bool;
  blk : list Z;
  disk_sector : Z
}.

Definition set_occupied (v : bool) (e : cache_entry) : cache_entry :=
  Entry v (open_cnt e) (accessed e) (dirty e) (blk e) (disk_sector e).
Definition set_dirty (v : bool) (e : cache_entry) : cache_entry :=
  Entry (occupied e) (open_cnt e) (accessed e) v (blk e) (disk_sector e).
Definition set_accessed (v : bool) (e : cache_entry) : cache_entry :=
  Entry (occupied e) (open_cnt e) v (dirty e) (blk e) (disk_sector e).
Definition set_sector (v : Z) (e : cache_entry) : cache_entry :=
  Entry (occupied e) (open_cnt e) (accessed e) (dirty e) (blk e) v.
Definition set_blk (v : list Z) (e : cache_entry) : cache_entry :=
  Entry (occupied e) (open_cnt e) (accessed e) (dirty e) v (disk_sector e).
(** The four resets of cache_init, cache_evict and the last write-back. *)
Definition reset_entry (e : cache_entry) : cache_entry :=
  Entry false 0 false false (blk e) (disk_sector e).

Section cache.
Context {D : Type} `{BlockDriver D}.

(** The file-scope state of buffer-cache.c and the device under it. *)
Record cache := Cache {
  cache_table : list cache_entry;
  round_robin_idx : Z;
  fs_device : block D
}.

Definition with_table (t : list cache_entry) (c : cache) : cache :=
  Cache t (round_robin_idx c) (fs_device c).
Definition with_device (d : block D) (c : cache) : cache :=
  Cache (cache_table c) (round_robin_idx c) d.

(** cache_table[i] and its in-place update. *)
Definition entry_at (i : Z) : st cache cache_entry := fun c =>
  e ← zget (cache_table c) i; Ok (e, c).
Definition update_entry (i : Z) (f : cache_entry -> cache_entry) : st cache unit := fun c =>
  e ← zget (cache_table c) i;
  t ← zset (cache_table c) i (f e);
  Ok (tt, with_table t c).

(** block_read and block_write on fs_device. *)
Definition dev_read (s : Z) : st cache (list Z) := fun c =>
  r ← block_read s (fs_device c); Ok (r.1, with_device r.2 c).
Definition dev_write (s : Z) (buf : list Z) : st cache unit := fun c =>
  r ← block_write s buf (fs_device c); Ok (tt, with_device r.2 c).

(** Loop body of cache_writeback. *)
Definition flush_entry (i : Z) (e : cache_entry) : st cache unit :=
  if occupied e && dirty e then
    dev_write (disk_sector e) (blk e) ≫= fun _ => update_entry i (set_dirty false)
  else mret tt.
Definition writeback_entry (last_write_back : bool) (i : Z) : st cache unit :=
  e ← entry_at i;
  flush_entry i e ≫= fun _ =>
  if last_write_back then update_entry i reset_entry else mret tt.

Definition cache_writeback (last_write_back : bool) : st cache unit := fun c =>
  c' ← for_range (Z.to_nat CACHE_SIZE) 0
         (fun i c => r ← writeback_entry last_write_back i c; Ok r.2) c;
  Ok (tt, c').

(** cache_init without the thread it starts. *)
Definition cache_init : st cache unit := fun c =>
  c' ← for_range (Z.to_nat CACHE_SIZE) 0
         (fun i c => r ← update_entry i reset_entry c; Ok r.2) c;
  Ok (tt, c').

Definition cache_lookup (s : Z) : st cache Z := fun c =>
  r ← find_range (Z.to_nat CACHE_SIZE) 0
        (fun i => e ← zget (cache_table c) i;
                  Ok (bool_decide (disk_sector e = s) && occupied e));
  Ok (default (-1) r, c).

Definition cache_get_free_entry : st cache Z := fun c =>
  r ← find_range (Z.to_nat CACHE_SIZE) 0
        (fun i => e ← zget (cache_table c) i; Ok (negb (occupied e)));
  match r with
  | Some i => x ← update_entry i (set_occupied true) c; Ok (i, x.2)
  | None => Ok (-1, c)
  end.

(** [(++round_robin_idx) % CACHE_SIZE] on int. *)
Definition cache_evict : st cache Z :=
  idx ← cache_get_free_entry;
  if idx =? -1 then
    modify (fun c => Cache (cache_table c) (s32 (round_robin_idx c + 1)) (fs_device c)) ≫= fun _ =>
    idx ← gets (fun c => Z.rem (round_robin_idx c) CACHE_SIZE);
    e ← entry_at idx;
    (if dirty e then dev_write (disk_sector e) (blk e) else mret tt) ≫= fun _ =>
    update_entry idx reset_entry ≫= fun _ =>
    mret idx
  else mret idx.

(** The miss path that cache_read and cache_write share; [clear_dirty] is
    the extra assignment of cache_read. *)
Definition cache_fill (s : Z) (clear_dirty : bool) : st cache Z :=
  idx ← cache_evict;
  update_entry idx (set_occupied true) ≫= fun _ =>
  update_entry idx (set_sector s) ≫= fun _ =>
  (if clear_dirty then update_entry idx (set_dirty false) else mret tt) ≫= fun _ =>
  b ← dev_read s;
  update_entry idx (set_blk b) ≫= fun _ =>
  mret idx.

(** memcpy into the block of a table entry: the window must lie inside. *)
Definition blit (b : list Z) (ofs : Z) (src : list Z) : outcome (list Z) :=
  if bool_decide (0 <= ofs /\ ofs + Z.of_nat (length src) <= Z.of_nat (length b))
  then Ok (splice b (Z.to_nat ofs) src) else Err Fault.
Definition slice (b : list Z) (ofs size : Z) : outcome (list Z) :=
  if bool_decide (0 <= ofs /\ 0 <= size /\ ofs + size <= Z.of_nat (length b))
  then Ok (window b (Z.to_nat ofs) (Z.to_nat size)) else Err Fault.

Definition cache_write (s : Z) (source : list Z) (sector_ofs : Z) : st cache unit :=
  idx ← cache_lookup s;
  idx ← (if idx =? -1 then cache_fill s false else mret idx);
  update_entry idx (set_accessed true) ≫= fun _ =>
  update_entry idx (set_dirty true) ≫= fun _ =>
  e ← entry_at idx;
  b ← lift (blit (blk e) sector_ofs source);
  update_entry idx (set_blk b).

Definition cache_read (s : Z) (sector_ofs size : Z) : st cache (list Z) :=
  idx ← cache_lookup s;
  idx ← (if idx =? -1 then cache_fill s true else mret idx);
  update_entry idx (set_accessed true) ≫= fun _ =>
  e ← entry_at idx;
  lift (slice (blk e) sector_ofs size).

Definition cache_write_block (s : Z) (source : list Z) : st cache unit := cache_write s source 0.
Definition cache_read_block (s : Z) : st cache (list Z) := cache_read s 0 BLOCK_SECTOR_SIZE.
End cache.
Arguments cache D : clear implicits.

(** ** The contract: a flat array of sectors *)
Section spec.
Context {D : Type} `{BlockDriverLaws D}.
Implicit Types (c : cache D) (e : cache_entry) (i : nat).

Definition disk c (s : Z) : list Z := drv_content (driver (fs_device c)) s.
Definition sectors c : Z := b_size (fs_device c).

Definition holds (s : Z) (e : cache_entry) : Prop := occupied e = true /\ disk_sector e = s.
#[global] Instance holds_dec s e : Decision (holds s e).
Proof. unfold holds. apply _. Defined.

(** What a client of the cache sees in sector [s]. *)
Definition logical c (s : Z) : list Z :=
  match list_find (holds s) (cache_table c) with
  | Some (_, e) => blk e
  | None => disk c s
  end.

(** An occupied slot: a sector of the device, a full block, and equal to
    the device's copy when it is not dirty. *)
Record slot_ok (d : block D) e : Prop := {
  slot_range : 0 <= disk_sector e < b_size d;
  slot_len : length (blk e) = sector_bytes;
  slot_bytes : Forall is_byte (blk e);
  slot_clean : dirty e = false -> blk e = drv_content (driver d) (disk_sector e)
}.

Record cache_inv c : Prop := {
  inv_dev : block_ok (fs_device c);
  inv_len : length (cache_table c) = Z.to_nat CACHE_SIZE;
  inv_slot : forall i e, cache_table c !! i = Some e -> occupied e = true -> slot_ok (fs_device c) e;
  inv_free : forall i e, cache_table c !! i = Some e -> occupied e = false -> dirty e = false;
  inv_uniq : forall i j e e' s, cache_table c !! i = Some e -> cache_table c !! j = Some e' ->
    holds s e -> holds s e' -> i = j
}.

(** [n] further evictions keep round_robin_idx inside int. *)
Definition evictions_left (n : Z) c : Prop := 0 <= round_robin_idx c /\ round_robin_idx c + n < 2 ^ 31.

Lemma logical_cached c i e s :
  cache_inv c -> cache_table c !! i = Some e -> holds s e -> logical c s = blk e.
Proof.
  intros Hinv He Hh. unfold logical.
  destruct (list_find (holds s) (cache_table c)) as [[j e']|] eqn:E.
  - apply list_find_Some in E as (Hj & Hh' & _).
    assert (i = j) as -> by (by eapply inv_uniq). congruence.
  - apply list_find_None in E. rewrite Forall_lookup in E. by destruct (E i e He).
Qed.

Definition uncached c s : Prop := forall i e, cache_table c !! i = Some e -> ~ holds s e.

Lemma logical_uncached c s : uncached c s -> logical c s = disk c s.
Proof.
  intros Hno. unfold logical.
  destruct (list_find (holds s) (cache_table c)) as [[j e']|] eqn:E; [|done].
  apply list_find_Some in E as (Hj & Hh' & _). by destruct (Hno j e').
Qed.

Lemma cached_or_not c s :
  (exists i e, cache_table c !! i = Some e /\ holds s e) \/ uncached c s.
Proof.
  destruct (list_find (holds s) (cache_table c)) as [[j e']|] eqn:E.
  - apply list_find_Some in E as (Hj & Hh' & _). left. eauto.
  - right. apply list_find_None in E. rewrite Forall_lookup in E. exact E.
Qed.

Lemma logical_len c s :
  cache_inv c -> 0 <= s < sectors c -> length (logical c s) = sector_bytes /\ Forall is_byte (logical c s).
Proof.
  intros Hinv Hs. destruct (cached_or_not c s) as [(i & e & He & Hh)|Hno].
  - rewrite (logical_cached c i e s) by done.
    destruct (inv_slot _ Hinv i e He) as [_ ? ? _]; [apply Hh|done].
  - rewrite logical_uncached by done. destruct (inv_dev _ Hinv) as (Hd & Hsz & _).
    unfold sectors in Hs. split; [apply drv_content_len|apply drv_content_bytes].
    all: (done || lia).
Qed.

(** *** Slot updates *)

Lemma update_entry_run c i e f :
  cache_table c !! i = Some e ->
  update_entry (Z.of_nat i) f c = Ok (tt, with_table (<[i := f e]> (cache_table c)) c).
Proof.
  intros He. unfold update_entry. pose proof (lookup_lt_Some _ _ _ He).
  rewrite (proj2 (zget_Ok _ _ e)) by (rewrite Nat2Z.id; split; (done || lia)). simpl.
  rewrite zset_Ok by lia. simpl. by rewrite Nat2Z.id.
Qed.

Lemma entry_at_run c i e : cache_table c !! i = Some e -> entry_at (Z.of_nat i) c = Ok (e, c).
Proof.
  intros He. unfold entry_at.
  by rewrite (proj2 (zget_Ok _ _ e)) by (rewrite Nat2Z.id; split; (done || lia)).
Qed.

(** Changing the block of a slot that holds [s] changes sector [s] only. *)
Lemma modify_slot c i e e' s :
  cache_inv c -> cache_table c !! i = Some e -> holds s e -> holds s e' ->
  slot_ok (fs_device c) e' ->
  let c' := with_table (<[i := e']> (cache_table c)) c in
  cache_inv c' /\ forall s', logical c' s' = if decide (s = s') then blk e' else logical c s'.
Proof.
  intros Hinv He Hh Hh' Hok c'. pose proof (lookup_lt_Some _ _ _ He) as Hlt.
  assert (cache_inv c') as Hinv'.
  { destruct Hinv as [Hdev Hlen Hslot Hfree Huniq]. split; simpl.
    - done.
    - by rewrite length_insert.
    - intros j x Hj Ho. apply list_lookup_insert_Some in Hj as [(-> & -> & _)|[_ Hj]]; [done|].
      by apply (Hslot j x).
    - intros j x Hj Ho. apply list_lookup_insert_Some in Hj as [(-> & -> & _)|[_ Hj]]; [|by eapply Hfree].
      destruct Hh' as [Hh' _]. congruence.
    - intros j k x y t Hj Hk Hx Hy.
      apply list_lookup_insert_Some in Hj as [(-> & -> & _)|[Hnj Hj]];
        apply list_lookup_insert_Some in Hk as [(-> & -> & _)|[Hnk Hk]]; try done.
      + assert (t = s) as -> by (destruct Hx, Hh'; congruence). by eapply Huniq.
      + assert (t = s) as -> by (destruct Hy, Hh'; congruence). by eapply Huniq.
      + by eapply Huniq. }
  split; [done|]. intros s'. case_decide as Hs.
  - subst s'. apply (logical_cached c' i); [done| |done]. by apply list_lookup_insert_eq.
  - destruct (cached_or_not c s') as [(j & x & Hj & Hx)|Hno].
    + assert (j <> i) by (intros ->; destruct Hx, Hh; congruence).
      rewrite (logical_cached c j x s') by done. apply (logical_cached c' j); [done| |done].
      simpl. by rewrite list_lookup_insert_ne.
    + rewrite !logical_uncached; [done|done|]. intros j x Hj.
      apply list_lookup_insert_Some in Hj as [(-> & -> & _)|[_ Hj]]; [|by eapply Hno].
      intros [_ ?]. destruct Hh' as [_ ?]. congruence.
Qed.

(** Reusing slot [i], whose old contents have been flushed, for a sector
    that no slot holds. *)
Lemma replace_slot c c' i e0 e' s :
  cache_inv c -> cache_table c !! i = Some e0 -> uncached c s ->
  0 <= s < sectors c ->
  block_ok (fs_device c') -> sectors c' = sectors c ->
  (forall t, 0 <= t < sectors c ->
     disk c' t = if decide (holds t e0 /\ dirty e0 = true) then blk e0 else disk c t) ->
  cache_table c' = <[i := e']> (cache_table c) ->
  holds s e' -> dirty e' = false -> blk e' = disk c s ->
  cache_inv c' /\ forall t, 0 <= t < sectors c -> logical c' t = logical c t.
Proof.
  intros Hinv He0 Hun Hs Hdev' Hsz Hdisk Htab Hh' Hd' Hb'.
  pose proof (lookup_lt_Some _ _ _ He0) as Hlt.
  assert (disk c' s = disk c s) as Hds.
  { rewrite Hdisk by done. destruct (decide (holds s e0 /\ _)) as [X|X]; [|done]. destruct (Hun i e0 He0 (proj1 X)). }
  assert (forall j x t, j <> i -> cache_table c !! j = Some x -> holds t x -> disk c' t = disk c t) as Hother.
  { intros j x t Hji Hj Hx.
    assert (0 <= t < sectors c).
    { destruct Hx as [Ho <-]. by destruct (inv_slot _ Hinv j x Hj Ho). }
    rewrite Hdisk by done. destruct (decide (holds t e0 /\ _)) as [X|X]; [|done].
    destruct Hji. eapply (inv_uniq _ Hinv); [done..|apply X]. }
  assert (cache_inv c') as Hinv'.
  { destruct Hinv as [Hdev Hlen Hslot Hfree Huniq]. split.
    - done.
    - by rewrite Htab, length_insert.
    - rewrite Htab. intros j x Hj Ho.
      apply list_lookup_insert_Some in Hj as [(-> & -> & _)|[Hji Hj]].
      + destruct Hh' as [_ Hse]. destruct Hdev as (? & ? & ?).
        split; rewrite ?Hse; fold (sectors c') (disk c' s); [by rewrite Hsz|..].
        * rewrite Hb'. apply drv_content_len; [done|unfold sectors in *; lia].
        * rewrite Hb'. apply drv_content_bytes; [done|unfold sectors in *; lia].
        * intros _. by rewrite Hb', Hds.
      + destruct (Hslot j x Hj Ho) as [? ? ? Hc].
        split; [fold (sectors c'); by rewrite Hsz|done|done|].
        intros Hd. rewrite (Hc Hd). symmetry. eapply Hother; [by symmetry|done|by split].
    - rewrite Htab. intros j x Hj Ho.
      apply list_lookup_insert_Some in Hj as [(-> & -> & _)|[Hji Hj]]; [done|by eapply Hfree].
    - rewrite Htab. intros j k x y t Hj Hk Hx Hy.
      apply list_lookup_insert_Some in Hj as [(-> & -> & _)|[Hnj Hj]];
        apply list_lookup_insert_Some in Hk as [(-> & -> & _)|[Hnk Hk]]; try done.
      + assert (t = s) as -> by (destruct Hx, Hh'; congruence). by destruct (Hun k y).
      + assert (t = s) as -> by (destruct Hy, Hh'; congruence). by destruct (Hun j x).
      + by eapply Huniq. }
  split; [done|]. intros t Ht.
  destruct (decide (t = s)) as [->|Hts].
  { rewrite (logical_uncached c) by done. rewrite <- Hb'.
    apply (logical_cached c' i); [done| |done]. rewrite Htab. by apply list_lookup_insert_eq. }
  destruct (decide (holds t e0)) as [Hte|Hte].
  - rewrite (logical_cached c i e0 t) by done. rewrite logical_uncached.
    + rewrite Hdisk by done. destruct (decide (holds t e0 /\ _)) as [X|X]; [done|].
      destruct (inv_slot _ Hinv i e0 He0) as [_ _ _ Hc]; [apply Hte|].
      destruct Hte as [Hoc <-]. symmetry. apply Hc. destruct (dirty e0); [|done]. by destruct X.
    + intros j x. rewrite Htab. intros Hj Hx.
      apply list_lookup_insert_Some in Hj as [(-> & -> & _)|[Hji Hj]].
      * destruct Hx, Hh'. congruence.
      * destruct Hji. by eapply (inv_uniq _ Hinv).
  - destruct (cached_or_not c t) as [(j & x & Hj & Hx)|Hno].
    + assert (i <> j) by (intros ->; congruence).
      rewrite (logical_cached c j x t) by done. apply (logical_cached c' j); [done| |done].
      by rewrite Htab, list_lookup_insert_ne.
    + rewrite !logical_uncached; [|done|].
      * rewrite Hdisk by done. destruct (decide (holds t e0 /\ _)) as [X|X]; [|done]. by destruct X.
      * intros j x. rewrite Htab. intros Hj Hx.
        apply list_lookup_insert_Some in Hj as [(-> & -> & _)|[Hji Hj]].
        -- destruct Hx, Hh'. congruence.
        -- by eapply Hno.
Qed.

(** A sector other than [s] that no slot held is still in no slot. *)
Definition keeps_uncached (s : Z) c c' : Prop := forall t, t <> s -> uncached c t -> uncached c' t.

Lemma insert_keeps_uncached c c' i e' s :
  cache_table c' = <[i := e']> (cache_table c) -> holds s e' -> keeps_uncached s c c'.
Proof.
  intros Htab Hh t Hts Hun j x. rewrite Htab. intros Hj.
  apply list_lookup_insert_Some in Hj as [(_ & -> & _)|[_ Hj]]; [|by eapply Hun].
  intros [_ ?]. destruct Hh. congruence.
Qed.

(** *** Device accesses *)

Lemma dev_read_run c s :
  block_ok (fs_device c) -> 0 <= s < sectors c ->
  exists c', dev_read s c = Ok (disk c s, c') /\ block_ok (fs_device c') /\
    cache_table c' = cache_table c /\ round_robin_idx c' = round_robin_idx c /\
    sectors c' = sectors c /\ forall t, 0 <= t < sectors c -> disk c' t = disk c t.
Proof.
  intros Hok Hs. unfold dev_read.
  destruct (block_read_ok (fs_device c) s Hok Hs) as (b' & -> & Hok' & Hsz & Hc).
  simpl. eexists; split; [done|]. split_and!; done.
Qed.

Lemma dev_write_run c s buf :
  block_ok (fs_device c) -> 0 <= s < sectors c ->
  length buf = sector_bytes -> Forall is_byte buf ->
  exists c', dev_write s buf c = Ok (tt, c') /\ block_ok (fs_device c') /\
    cache_table c' = cache_table c /\ round_robin_idx c' = round_robin_idx c /\
    sectors c' = sectors c /\
    forall t, 0 <= t < sectors c -> disk c' t = if decide (s = t) then buf else disk c t.
Proof.
  intros Hok Hs Hl Hb. unfold dev_write.
  destruct (block_write_ok (fs_device c) s buf Hok Hs Hl Hb) as (b' & -> & Hok' & Hsz & Hc).
  simpl. eexists; split; [done|]. split_and!; done.
Qed.

(** *** Lookup, free slots, eviction *)

Lemma cache_lookup_spec c s :
  cache_inv c ->
  (exists i e, cache_lookup s c = Ok (Z.of_nat i, c) /\ cache_table c !! i = Some e /\ holds s e) \/
  (cache_lookup s c = Ok (-1, c) /\ uncached c s).
Proof.
  intros Hinv. unfold cache_lookup. pose proof (inv_len _ Hinv) as Hlen.
  destruct (find_range_spec (fun k => exists e, cache_table c !! Z.to_nat k = Some e /\ holds s e)
    (Z.to_nat CACHE_SIZE) 0
    (fun k => e ← zget (cache_table c) k; Ok (bool_decide (disk_sector e = s) && occupied e)))
    as [(j & -> & Hj & (e & He & Hh) & _)|[-> Hno]]; simpl.
  - intros k Hk. destruct (lookup_lt_is_Some_2 (cache_table c) (Z.to_nat k)) as [e He]; [lia|].
    rewrite (proj2 (zget_Ok _ _ e)) by (split; [lia|done]). simpl. eexists; split; [done|].
    rewrite andb_true_iff, bool_decide_eq_true. unfold holds. rewrite He. naive_solver.
  - left. exists (Z.to_nat j), e. rewrite Z2Nat.id by lia. done.
  - right. split; [done|]. intros i e He Hh. pose proof (lookup_lt_Some _ _ _ He).
    destruct (Hno (Z.of_nat i)); [lia|]. exists e. by rewrite Nat2Z.id.
Qed.

Lemma cache_get_free_entry_spec c :
  cache_inv c ->
  (exists i e, cache_get_free_entry c =
      Ok (Z.of_nat i, with_table (<[i := set_occupied true e]> (cache_table c)) c) /\
      cache_table c !! i = Some e /\ occupied e = false) \/
  (cache_get_free_entry c = Ok (-1, c) /\
      forall i e, cache_table c !! i = Some e -> occupied e = true).
Proof.
  intros Hinv. unfold cache_get_free_entry. pose proof (inv_len _ Hinv) as Hlen.
  destruct (find_range_spec (fun k => exists e, cache_table c !! Z.to_nat k = Some e /\ occupied e = false)
    (Z.to_nat CACHE_SIZE) 0 (fun k => e ← zget (cache_table c) k; Ok (negb (occupied e))))
    as [(j & -> & Hj & (e & He & Hh) & _)|[-> Hno]]; simpl.
  - intros k Hk. destruct (lookup_lt_is_Some_2 (cache_table c) (Z.to_nat k)) as [e He]; [lia|].
    rewrite (proj2 (zget_Ok _ _ e)) by (split; [lia|done]). simpl. eexists; split; [done|].
    rewrite negb_true_iff, He. naive_solver.
  - left. exists (Z.to_nat j), e.
    pose proof (update_entry_run c (Z.to_nat j) e (set_occupied true) He) as Hu.
    rewrite Z2Nat.id in Hu by lia. by rewrite Hu, Z2Nat.id by lia.
  - right. split; [done|]. intros i e He. destruct (occupied e) eqn:E; [done|].
    pose proof (lookup_lt_Some _ _ _ He).
    destruct (Hno (Z.of_nat i)); [lia|]. exists e. by rewrite Nat2Z.id.
Qed.

(** Eviction frees a slot and flushes what it held. *)
Lemma cache_evict_spec c :
  cache_inv c -> evictions_left 1 c ->
  exists i e0 e1 c1, cache_evict c = Ok (Z.of_nat i, c1) /\
    cache_table c !! i = Some e0 /\ cache_table c1 = <[i := e1]> (cache_table c) /\
    dirty e1 = false /\ block_ok (fs_device c1) /\ sectors c1 = sectors c /\
    round_robin_idx c <= round_robin_idx c1 <= round_robin_idx c + 1 /\
    forall t, 0 <= t < sectors c ->
      disk c1 t = if decide (holds t e0 /\ dirty e0 = true) then blk e0 else disk c t.
Proof.
  intros Hinv [Hr0 Hr1]. unfold cache_evict, mbind, st_bind, modify, gets, mret, st_ret.
  destruct (cache_get_free_entry_spec c Hinv) as [(i & e & -> & He & Hocc)|[-> Hall]].
  - rewrite (proj2 (Z.eqb_neq _ _)) by lia.
    eexists i, e, _, _. split; [done|]. split; [done|]. split; [done|].
    pose proof (inv_free _ Hinv i e He Hocc) as Hd.
    split_and!; try (done || simpl; lia || apply (inv_dev _ Hinv)).
    intros t Ht. rewrite decide_False; [done|]. intros [[? _] _]. congruence.
  - simpl. rewrite s32_small by lia.
    set (k := Z.rem (round_robin_idx c + 1) CACHE_SIZE).
    assert (0 <= k < 64) as Hk by (apply Z.rem_bound_pos; unfold CACHE_SIZE; lia).
    set (c0 := Cache _ _ _).
    destruct (lookup_lt_is_Some_2 (cache_table c) (Z.to_nat k)) as [e He].
    { rewrite (inv_len _ Hinv). unfold CACHE_SIZE. lia. }
    rewrite <- (Z2Nat.id k) by lia. set (i := Z.to_nat k) in *.
    rewrite (entry_at_run c0 i e) by done.
    pose proof (Hall i e He) as Hocc. destruct (inv_slot _ Hinv i e He Hocc) as [Hrng Hlen Hby _].
    destruct (dirty e) eqn:Hd.
    + destruct (dev_write_run c0 (disk_sector e) (blk e)) as (c1 & -> & Hok & Htab & Hrr & Hsz & Hdk);
        [apply Hinv|done..|].
      rewrite (update_entry_run c1 i e) by (by rewrite Htab).
      eexists i, e, _, _. split; [done|]. split; [done|]. simpl. rewrite Htab. split; [done|].
      split_and!; try (done || simpl in *; lia).
      intros t Ht. transitivity (disk c1 t); [done|]. rewrite (Hdk t) by done.
      change (disk c0 t) with (disk c t).
      destruct (decide (disk_sector e = t)) as [E|E].
      * by rewrite decide_True.
      * rewrite decide_False; [done|]. intros [[_ ?] _]. done.
    + rewrite (update_entry_run c0 i e) by done.
      eexists i, e, _, _. split; [done|]. split; [done|]. split; [done|].
      split_and!; try (done || simpl; lia || apply (inv_dev _ Hinv)).
      intros t Ht. rewrite decide_False; [done|]. intros [_ ?]. congruence.
Qed.

(** The miss path brings the sector in and leaves every sector's logical
    contents as they were. *)
Lemma cache_fill_spec c s cd :
  cache_inv c -> evictions_left 1 c -> 0 <= s < sectors c -> uncached c s ->
  exists i e c', cache_fill s cd c = Ok (Z.of_nat i, c') /\ cache_inv c' /\
    cache_table c' !! i = Some e /\ holds s e /\ sectors c' = sectors c /\
    round_robin_idx c <= round_robin_idx c' <= round_robin_idx c + 1 /\ keeps_uncached s c c' /\
    forall t, 0 <= t < sectors c -> logical c' t = logical c t.
Proof.
  intros Hinv Hev Hs Hun. unfold cache_fill, mbind, st_bind, mret, st_ret.
  destruct (cache_evict_spec c Hinv Hev) as (i & e0 & e1 & c1 & -> & He0 & Htab & Hd & Hok & Hsz & Hrr & Hdk).
  pose proof (lookup_lt_Some _ _ _ He0) as Hlt.
  assert (cache_table c1 !! i = Some e1) as He1 by (rewrite Htab; by apply list_lookup_insert_eq).
  rewrite (update_entry_run c1 i e1) by done. set (c2 := with_table _ c1).
  assert (cache_table c2 !! i = Some (set_occupied true e1)) as He2
    by (apply list_lookup_insert_eq; by rewrite Htab, length_insert).
  rewrite (update_entry_run c2 i _ _ He2). set (c3 := with_table _ c2).
  set (e3 := set_sector s (set_occupied true e1)).
  assert (cache_table c3 !! i = Some e3) as He3
    by (apply list_lookup_insert_eq; simpl; by rewrite length_insert, Htab, length_insert).
  assert (exists c4, (if cd then update_entry (Z.of_nat i) (set_dirty false) else fun s0 => Ok (tt, s0)) c3
     = Ok (tt, c4) /\ fs_device c4 = fs_device c1 /\ round_robin_idx c4 = round_robin_idx c1 /\
       cache_table c4 = <[i := set_dirty false e3]> (cache_table c)) as (c4 & -> & Hdev4 & Hrr4 & Htab4).
  { destruct cd.
    - rewrite (update_entry_run c3 i _ _ He3). eexists; split; [done|]. split_and!; [done..|].
      simpl. by rewrite Htab, !list_insert_insert_eq.
    - eexists; split; [done|]. split_and!; [done..|]. simpl.
      rewrite Htab, !list_insert_insert_eq. f_equal.
      unfold e3, set_sector, set_occupied, set_dirty. simpl. by rewrite Hd. }
  assert (disk c4 s = disk c s) as Hds.
  { unfold disk at 1. rewrite Hdev4. fold (disk c1 s). rewrite Hdk by done.
    rewrite decide_False; [done|]. intros [? _]. by destruct (Hun i e0 He0). }
  destruct (dev_read_run c4 s) as (c5 & -> & Hok5 & Htab5 & Hrr5 & Hsz5 & Hdk5).
  { by rewrite Hdev4. } { unfold sectors. rewrite Hdev4. fold (sectors c1). lia. }
  assert (sectors c4 = sectors c) as Hsz4 by (unfold sectors; rewrite Hdev4; exact Hsz).
  assert (cache_table c5 !! i = Some (set_dirty false e3)) as He5
    by (rewrite Htab5, Htab4; by apply list_lookup_insert_eq).
  rewrite (update_entry_run c5 i _ _ He5). set (c6 := with_table _ c5).
  destruct (replace_slot c c6 i e0 (set_blk (disk c4 s) (set_dirty false e3)) s) as [Hinv6 Hlog6]; try done.
  - transitivity (sectors c5); [done|congruence].
  - intros t Ht. change (disk c6 t) with (disk c5 t). rewrite Hdk5 by lia.
    unfold disk at 1. rewrite Hdev4. by apply Hdk.
  - unfold c6. simpl. by rewrite Htab5, Htab4, list_insert_insert_eq.
  - eexists i, _, c6. split; [done|]. split; [done|].
    split; [apply list_lookup_insert_eq; by rewrite Htab5, Htab4, length_insert|].
    split_and!; try done; [transitivity (sectors c5); [done|congruence]|unfold c6; simpl; lia|
      unfold c6; simpl; lia|].
    eapply (insert_keeps_uncached _ _ i);
      [unfold c6; simpl; by rewrite Htab5, Htab4, list_insert_insert_eq|done].
Qed.

(** Hit or miss, the slot found holds the sector. *)
Lemma cache_locate_spec c s cd :
  cache_inv c -> evictions_left 1 c -> 0 <= s < sectors c ->
  exists i e c', (cache_lookup s ≫= fun idx =>
      if idx =? -1 then cache_fill s cd else mret idx) c = Ok (Z.of_nat i, c') /\
    cache_inv c' /\ cache_table c' !! i = Some e /\ holds s e /\ sectors c' = sectors c /\
    round_robin_idx c <= round_robin_idx c' <= round_robin_idx c + 1 /\ keeps_uncached s c c' /\
    forall t, 0 <= t < sectors c -> logical c' t = logical c t.
Proof.
  intros Hinv Hev Hs. unfold mbind, st_bind.
  destruct (cache_lookup_spec c s Hinv) as [(i & e & -> & He & Hh)|[-> Hun]].
  - rewrite (proj2 (Z.eqb_neq _ _)) by lia. exists i, e, c. split_and!; (done || lia || by intros ?).
  - simpl. by apply cache_fill_spec.
Qed.

Lemma cache_read_spec c s ofs size :
  cache_inv c -> evictions_left 1 c -> 0 <= s < sectors c ->
  0 <= ofs -> 0 <= size -> ofs + size <= BLOCK_SECTOR_SIZE ->
  exists c', cache_read s ofs size c =
      Ok (window (logical c s) (Z.to_nat ofs) (Z.to_nat size), c') /\
    cache_inv c' /\ sectors c' = sectors c /\
    round_robin_idx c <= round_robin_idx c' <= round_robin_idx c + 1 /\ keeps_uncached s c c' /\
    forall t, 0 <= t < sectors c -> logical c' t = logical c t.
Proof.
  intros Hinv Hev Hs Ho Hz Hoz.
  destruct (cache_locate_spec c s true Hinv Hev Hs) as (i & e & c1 & Hloc & Hinv1 & He & Hh & Hsz & Hrr & Hkeep & Hlog).
  unfold cache_read. unfold mbind, st_bind in Hloc |- *.
  destruct (cache_lookup s c) as [[idx c0]|]; [|done]. rewrite Hloc.
  rewrite (update_entry_run c1 i e) by done.
  destruct (inv_slot _ Hinv1 i e He (proj1 Hh)) as [Hr Hl Hb Hc].
  destruct (modify_slot c1 i e (set_accessed true e) s) as [Hinv2 Hlog2]; [done..|].
  rewrite (entry_at_run _ i (set_accessed true e))
    by (apply list_lookup_insert_eq; eapply lookup_lt_Some, He).
  unfold lift, slice. simpl. rewrite Hl. unfold BLOCK_SECTOR_SIZE in Hoz.
  rewrite bool_decide_eq_true_2 by (unfold sector_bytes; lia).
  eexists; split; [do 3 f_equal|].
  - rewrite <- Hlog by done. symmetry. by apply (logical_cached c1 i).
  - split_and!; try (done || simpl; lia).
    { intros t Hts Hu. eapply (insert_keeps_uncached c1); [done|by apply Hh|done|]. by apply Hkeep. }
    intros t Ht. rewrite Hlog2. case_decide as E; [|by apply Hlog].
    subst t. simpl. rewrite <- Hlog by done. symmetry. by apply (logical_cached c1 i).
Qed.

Lemma cache_write_spec c s src ofs :
  cache_inv c -> evictions_left 1 c -> 0 <= s < sectors c ->
  0 <= ofs -> ofs + Z.of_nat (length src) <= BLOCK_SECTOR_SIZE -> Forall is_byte src ->
  exists c', cache_write s src ofs c = Ok (tt, c') /\ cache_inv c' /\ sectors c' = sectors c /\
    round_robin_idx c <= round_robin_idx c' <= round_robin_idx c + 1 /\ keeps_uncached s c c' /\
    forall t, 0 <= t < sectors c ->
      logical c' t = if decide (s = t) then splice (logical c s) (Z.to_nat ofs) src else logical c t.
Proof.
  intros Hinv Hev Hs Ho Hoz Hby.
  destruct (cache_locate_spec c s false Hinv Hev Hs) as (i & e & c1 & Hloc & Hinv1 & He & Hh & Hsz & Hrr & Hkeep & Hlog).
  unfold cache_write. unfold mbind, st_bind in Hloc |- *.
  destruct (cache_lookup s c) as [[idx c0]|]; [|done]. rewrite Hloc.
  pose proof (lookup_lt_Some _ _ _ He) as Hlt.
  rewrite (update_entry_run c1 i e) by done. set (c2 := with_table _ c1).
  assert (cache_table c2 !! i = Some (set_accessed true e)) as He2 by (by apply list_lookup_insert_eq).
  rewrite (update_entry_run c2 i _ _ He2). set (c3 := with_table _ c2).
  set (e3 := set_dirty true (set_accessed true e)).
  assert (cache_table c3 !! i = Some e3) as He3
    by (apply list_lookup_insert_eq; simpl; by rewrite length_insert).
  rewrite (entry_at_run c3 i _ He3).
  destruct (inv_slot _ Hinv1 i e He (proj1 Hh)) as [Hr Hl Hb Hc].
  unfold lift, blit. simpl. rewrite Hl. unfold BLOCK_SECTOR_SIZE in Hoz.
  rewrite bool_decide_eq_true_2 by (unfold sector_bytes; lia).
  rewrite (update_entry_run c3 i _ _ He3).
  set (nb := splice (blk e) (Z.to_nat ofs) src).
  assert (blk e = logical c s) as Hbe
    by (rewrite <- Hlog by done; symmetry; by apply (logical_cached c1 i)).
  destruct (modify_slot c1 i e (set_blk nb e3) s) as [Hinv4 Hlog4]; try done.
  { split; simpl; [done| | |done].
    - unfold nb. rewrite length_splice; [done|]. rewrite Hl. unfold sector_bytes. lia.
    - unfold nb, splice. rewrite !Forall_app. auto using Forall_take, Forall_drop. }
  replace (with_table (<[i := set_blk nb e3]> (cache_table c3)) c3)
    with (with_table (<[i := set_blk nb e3]> (cache_table c1)) c1)
    by (unfold with_table; simpl; by rewrite !list_insert_insert_eq).
  eexists; split; [done|]. split_and!; try (done || simpl; lia).
  { intros t Hts Hu. eapply (insert_keeps_uncached c1); [done|by apply Hh|done|]. by apply Hkeep. }
  intros t Ht. rewrite Hlog4. case_decide; [|by apply Hlog].
  unfold nb. simpl. by rewrite Hbe.
Qed.

(** *** Write-back *)

(** Writing a slot's block to the device changes no logical contents. *)
Lemma flush_slot c c' i e :
  cache_inv c -> cache_table c !! i = Some e -> occupied e = true ->
  cache_table c' = cache_table c -> block_ok (fs_device c') -> sectors c' = sectors c ->
  (forall t, 0 <= t < sectors c ->
     disk c' t = if decide (disk_sector e = t) then blk e else disk c t) ->
  cache_inv c' /\ slot_ok (fs_device c') (set_dirty false e) /\
  forall t, 0 <= t < sectors c -> logical c' t = logical c t.
Proof.
  intros Hinv He Hocc Htab Hok Hsz Hdk.
  destruct (inv_slot _ Hinv i e He Hocc) as [Hr Hl Hb Hc].
  assert (disk c' (disk_sector e) = blk e) as Hde by (rewrite Hdk by done; by rewrite decide_True).
  assert (slot_ok (fs_device c') (set_dirty false e)) as Hok'.
  { split; simpl; try done. fold (sectors c'). by rewrite Hsz. }
  assert (cache_inv c') as Hinv'.
  { destruct Hinv as [Hdev Hlen Hslot Hfree Huniq]. split; rewrite ?Htab; try done.
    intros j x Hj Ho. destruct (Hslot j x Hj Ho) as [Hxr ? ? Hxc].
    split; [fold (sectors c'); by rewrite Hsz|done|done|].
    intros Hd. fold (disk c' (disk_sector x)). rewrite Hdk by done. case_decide as E.
    - assert (j = i) as -> by (eapply (Huniq j i x e (disk_sector x)); [done|done|by split|by split]).
      congruence.
    - by apply Hxc. }
  split; [done|]. split; [done|]. intros t Ht.
  destruct (cached_or_not c t) as [(j & x & Hj & Hx)|Hno].
  - rewrite (logical_cached c j x t) by done. apply (logical_cached c' j); [done|by rewrite Htab|done].
  - rewrite !logical_uncached; [|done|intros j x; rewrite Htab; apply Hno].
    rewrite Hdk by done. rewrite decide_False; [done|]. intros E.
    by destruct (Hno i e He).
Qed.

(** Dropping a clean slot changes no logical contents. *)
Lemma drop_slot c i e e' :
  cache_inv c -> cache_table c !! i = Some e -> dirty e = false ->
  occupied e' = false -> dirty e' = false ->
  let c' := with_table (<[i := e']> (cache_table c)) c in
  cache_inv c' /\ forall t, 0 <= t < sectors c -> logical c' t = logical c t.
Proof.
  intros Hinv He Hcl Ho' Hd' c'. pose proof (lookup_lt_Some _ _ _ He) as Hlt.
  assert (cache_inv c') as Hinv'.
  { destruct Hinv as [Hdev Hlen Hslot Hfree Huniq]. split; simpl.
    - done.
    - by rewrite length_insert.
    - intros j x Hj Ho. apply list_lookup_insert_Some in Hj as [(-> & -> & _)|[_ Hj]]; [congruence|].
      by apply (Hslot j x).
    - intros j x Hj Ho. by apply list_lookup_insert_Some in Hj as [(-> & -> & _)|[_ Hj]]; [|eapply Hfree].
    - intros j k x y t Hj Hk Hx Hy.
      apply list_lookup_insert_Some in Hj as [(-> & -> & _)|[Hnj Hj]];
        apply list_lookup_insert_Some in Hk as [(-> & -> & _)|[Hnk Hk]]; try done.
      + destruct Hx. congruence.
      + destruct Hy. congruence.
      + by eapply Huniq. }
  split; [done|]. intros t Ht.
  assert (uncached c' t -> logical c' t = disk c t) as Hunc by (intros; by rewrite logical_uncached).
  destruct (cached_or_not c t) as [(j & x & Hj & Hx)|Hno].
  - rewrite (logical_cached c j x t) by done. destruct (decide (j = i)) as [->|Hji].
    + assert (x = e) as -> by congruence.
      destruct (inv_slot _ Hinv i e He (proj1 Hx)) as [_ _ _ Hc].
      rewrite (Hc Hcl), (proj2 Hx). apply Hunc. intros k y Hk Hy. simpl in Hk.
      apply list_lookup_insert_Some in Hk as [(-> & -> & _)|[Hki Hk]].
      * destruct Hy. congruence.
      * destruct Hki. by eapply (inv_uniq _ Hinv).
    + apply (logical_cached c' j); [done| |done]. simpl. by rewrite list_lookup_insert_ne.
  - rewrite (logical_uncached c) by done. apply Hunc. intros k y Hk Hy. simpl in Hk.
    apply list_lookup_insert_Some in Hk as [(-> & -> & _)|[Hki Hk]].
    + destruct Hy. congruence.
    + by eapply Hno.
Qed.

(** One iteration of the write-back loop. *)
Lemma writeback_entry_spec last c i :
  cache_inv c -> (i < Z.to_nat CACHE_SIZE)%nat ->
  exists c', writeback_entry last (Z.of_nat i) c = Ok (tt, c') /\ cache_inv c' /\
    sectors c' = sectors c /\ round_robin_idx c' = round_robin_idx c /\
    (exists e', cache_table c' = <[i := e']> (cache_table c) /\ dirty e' = false /\
       (last = true -> occupied e' = false)) /\
    forall t, 0 <= t < sectors c -> logical c' t = logical c t.
Proof.
  intros Hinv Hi. destruct (lookup_lt_is_Some_2 (cache_table c) i) as [e He];
    [by rewrite (inv_len _ Hinv)|].
  unfold writeback_entry, mbind, st_bind. rewrite (entry_at_run c i e He).
  assert (exists c1 e1, flush_entry (Z.of_nat i) e c = Ok (tt, c1) /\ cache_inv c1 /\
      sectors c1 = sectors c /\
      round_robin_idx c1 = round_robin_idx c /\
      cache_table c1 = <[i := e1]> (cache_table c) /\ dirty e1 = false /\
      forall t, 0 <= t < sectors c -> logical c1 t = logical c t)
    as (c1 & e1 & Hrun & Hinv1 & Hsz1 & Hrr1 & Htab1 & Hd1 & Hlog1).
  { unfold flush_entry, mbind, st_bind. destruct (occupied e && dirty e) eqn:E.
    - apply andb_true_iff in E as [Hocc Hd]. destruct (inv_slot _ Hinv i e He Hocc) as [Hr Hl Hb _].
      destruct (dev_write_run c (disk_sector e) (blk e)) as (c0 & -> & Hok & Htab & Hrr & Hsz & Hdk);
        [apply (inv_dev _ Hinv)|done..|].
      destruct (flush_slot c c0 i e) as (Hinv0 & Hok0 & Hlog0); [done..|].
      assert (cache_table c0 !! i = Some e) as He0 by (by rewrite Htab).
      rewrite (update_entry_run c0 i e _ He0).
      destruct (modify_slot c0 i e (set_dirty false e) (disk_sector e)) as [Hinv2 Hlog2]; [done..|].
      eexists _, (set_dirty false e). split; [done|]. split; [done|]. split_and!; try done.
      + simpl. by rewrite Htab.
      + intros t Ht. rewrite Hlog2, <- Hlog0 by done. case_decide as E; [|done].
        subst t. simpl. symmetry. by apply (logical_cached c0 i).
    - exists c, e. split_and!; try done.
      + by rewrite list_insert_id.
      + destruct (occupied e) eqn:Ho; [done|]. by eapply (inv_free _ Hinv). }
  rewrite Hrun. pose proof (lookup_lt_Some _ _ _ He) as Hlt. destruct last; [|exists c1; split_and!; try done; by exists e1].
  assert (cache_table c1 !! i = Some e1) as He1 by (rewrite Htab1; by apply list_lookup_insert_eq).
  rewrite (update_entry_run c1 i e1 _ He1).
  destruct (drop_slot c1 i e1 (reset_entry e1)) as [Hinv2 Hlog2]; [done..|].
  eexists; split; [done|]. split_and!; try done.
  - exists (reset_entry e1). simpl. by rewrite Htab1, list_insert_insert_eq.
  - intros t Ht. rewrite Hlog2 by lia. by apply Hlog1.
Qed.

(** After cache_writeback no slot is dirty (none is occupied, if it was
    the last), and no logical contents have changed. *)
Lemma cache_writeback_spec last c :
  cache_inv c ->
  exists c', cache_writeback last c = Ok (tt, c') /\ cache_inv c' /\ sectors c' = sectors c /\
    round_robin_idx c' = round_robin_idx c /\
    (forall i e, cache_table c' !! i = Some e -> dirty e = false /\ (last = true -> occupied e = false)) /\
    forall t, 0 <= t < sectors c -> logical c' t = logical c t.
Proof.
  intros Hinv. unfold cache_writeback.
  destruct (for_range_inv (fun k c' => cache_inv c' /\ sectors c' = sectors c /\
      round_robin_idx c' = round_robin_idx c /\
      (forall i e, Z.of_nat i < k -> cache_table c' !! i = Some e ->
         dirty e = false /\ (last = true -> occupied e = false)) /\
      forall t, 0 <= t < sectors c -> logical c' t = logical c t)
      (Z.to_nat CACHE_SIZE) 0
      (fun k c => r ← writeback_entry last k c; Ok r.2) c)
    as (c' & -> & Hinv' & Hsz' & Hrr' & Hcl' & Hlog').
  - split_and!; try done. intros i e Hi. lia.
  - intros k c1 Hk (Hinv1 & Hsz1 & Hrr1 & Hcl1 & Hlog1).
    destruct (writeback_entry_spec last c1 (Z.to_nat k) Hinv1 ltac:(lia))
      as (c2 & Hrun & Hinv2 & Hsz2 & Hrr2 & (e' & Htab2 & Hd' & Ho') & Hlog2).
    rewrite Z2Nat.id in Hrun by lia. rewrite Hrun. simpl.
    exists c2. split; [done|]. split_and!; try congruence.
    + intros i e Hi. rewrite Htab2. intros He.
      apply list_lookup_insert_Some in He as [(_ & -> & _)|[Hne He]]; [done|].
      apply (Hcl1 i); [|done]. lia.
    + intros t Ht. rewrite Hlog2 by lia. by apply Hlog1.
  - simpl. eexists; split; [done|]. split_and!; try done. intros i e He.
    apply (Hcl' i); [|done]. apply lookup_lt_Some in He. rewrite (inv_len _ Hinv') in He. lia.
Qed.

(** With every slot clean, the device holds the logical contents. *)
Lemma clean_disk c :
  cache_inv c -> (forall i e, cache_table c !! i = Some e -> dirty e = false) ->
  forall t, 0 <= t < sectors c -> disk c t = logical c t.
Proof.
  intros Hinv Hcl t Ht. destruct (cached_or_not c t) as [(i & e & He & Hh)|Hno].
  - rewrite (logical_cached c i e t) by done.
    destruct (inv_slot _ Hinv i e He (proj1 Hh)) as [_ _ _ Hc].
    rewrite (Hc (Hcl i e He)). by destruct Hh as [_ ->].
  - by rewrite logical_uncached.
Qed.

(** ** Sequences of operations against the flat array *)

Inductive cache_op :=
| OpRead (s ofs size : Z)
| OpWrite (s : Z) (src : list Z) (ofs : Z)
| OpWriteback (last : bool).

(** The bytes an operation delivers. *)
Definition run_op (o : cache_op) : st (cache D) (list Z) :=
  match o with
  | OpRead s ofs size => cache_read s ofs size
  | OpWrite s src ofs => cache_write s src ofs ≫= fun _ => mret []
  | OpWriteback last => cache_writeback last ≫= fun _ => mret []
  end.

Fixpoint run_ops (os : list cache_op) : st (cache D) (list (list Z)) :=
  match os with
  | [] => mret []
  | o :: os' => r ← run_op o; rs ← run_ops os'; mret (r :: rs)
  end.

(** The same operations on an array of sectors without a cache. *)
Definition flat : Type := Z -> list Z.
Definition flat_op (o : cache_op) (f : flat) : list Z * flat :=
  match o with
  | OpRead s ofs size => (window (f s) (Z.to_nat ofs) (Z.to_nat size), f)
  | OpWrite s src ofs =>
      ([], fun t => if decide (s = t) then splice (f s) (Z.to_nat ofs) src else f t)
  | OpWriteback _ => ([], f)
  end.

Fixpoint flat_ops (os : list cache_op) (f : flat) : list (list Z) * flat :=
  match os with
  | [] => ([], f)
  | o :: os' =>
      let r := flat_op o f in
      let rs := flat_ops os' r.2 in
      (r.1 :: rs.1, rs.2)
  end.

(** The accesses inode.c makes: inside the device and inside a sector. *)
Definition op_valid (n : Z) (o : cache_op) : Prop :=
  match o with
  | OpRead s ofs size =>
      0 <= s < n /\ 0 <= ofs /\ 0 <= size /\ ofs + size <= BLOCK_SECTOR_SIZE
  | OpWrite s src ofs =>
      0 <= s < n /\ 0 <= ofs /\ ofs + Z.of_nat (length src) <= BLOCK_SECTOR_SIZE /\
      Forall is_byte src
  | OpWriteback _ => True
  end.

(** The simulation relation. *)
Definition simulates c (f : flat) : Prop := forall t, 0 <= t < sectors c -> logical c t = f t.

Lemma run_op_simulates o c f :
  cache_inv c -> evictions_left 1 c -> op_valid (sectors c) o -> simulates c f ->
  exists c', run_op o c = Ok ((flat_op o f).1, c') /\ cache_inv c' /\
    sectors c' = sectors c /\ round_robin_idx c <= round_robin_idx c' <= round_robin_idx c + 1 /\
    simulates c' (flat_op o f).2.
Proof.
  intros Hinv Hev Hv Hsim. unfold simulates.
  destruct o as [s ofs size|s src ofs|last]; simpl in Hv |- *.
  - destruct Hv as (Hs & Ho & Hz & Hoz).
    destruct (cache_read_spec c s ofs size Hinv Hev Hs Ho Hz Hoz) as (c' & -> & Hi & Hsz & Hr & _ & Hl).
    exists c'. rewrite Hsz. split; [by rewrite Hsim|]. split_and!; try (done || lia).
    intros t Ht. by rewrite Hl, Hsim.
  - destruct Hv as (Hs & Ho & Hoz & Hb). unfold mbind, st_bind.
    destruct (cache_write_spec c s src ofs Hinv Hev Hs Ho Hoz Hb) as (c' & -> & Hi & Hsz & Hr & _ & Hl).
    exists c'. rewrite Hsz. split_and!; try (done || lia).
    intros t Ht. rewrite Hl by done. rewrite !Hsim by done. done.
  - unfold mbind, st_bind.
    destruct (cache_writeback_spec last c Hinv) as (c' & -> & Hi & Hsz & Hr & _ & Hl).
    exists c'. rewrite Hsz. split_and!; try (done || lia).
    intros t Ht. by rewrite Hl, Hsim.
Qed.

Lemma run_ops_simulates os c f :
  cache_inv c -> evictions_left (Z.of_nat (length os)) c ->
  Forall (op_valid (sectors c)) os -> simulates c f ->
  exists c', run_ops os c = Ok ((flat_ops os f).1, c') /\ cache_inv c' /\
    sectors c' = sectors c /\ simulates c' (flat_ops os f).2.
Proof.
  revert c f; induction os as [|o os IH]; intros c f Hinv [Hr0 Hr1] Hv Hsim; simpl.
  - by exists c.
  - apply Forall_cons_1 in Hv as [Ho Hos]. simpl in Hr1.
    destruct (run_op_simulates o c f Hinv) as (c1 & Hrun & Hinv1 & Hsz1 & Hr & Hsim1);
      [split; lia|done..|].
    destruct (IH c1 (flat_op o f).2) as (c2 & Hrun2 & Hinv2 & Hsz2 & Hsim2);
      [done|split; lia|by rewrite Hsz1|done|].
    exists c2. unfold mbind, st_bind. rewrite Hrun, Hrun2. split_and!; try done. lia.
Qed.

(** *** Raw device accesses around the cache *)

(** inode.c also writes sectors with block_write.  On a sector that no
    slot holds this is coherent. *)
Lemma raw_write_uncached c s buf :
  cache_inv c -> uncached c s -> 0 <= s < sectors c ->
  length buf = sector_bytes -> Forall is_byte buf ->
  exists c', dev_write s buf c = Ok (tt, c') /\ cache_inv c' /\ sectors c' = sectors c /\
    round_robin_idx c' = round_robin_idx c /\ cache_table c' = cache_table c /\
    forall t, 0 <= t < sectors c -> logical c' t = if decide (s = t) then buf else logical c t.
Proof.
  intros Hinv Hun Hs Hl Hb.
  destruct (dev_write_run c s buf) as (c' & -> & Hok & Htab & Hrr & Hsz & Hdk);
    [apply (inv_dev _ Hinv)|done..|].
  exists c'. split; [done|]. split_and!; try done.
  - destruct Hinv as [Hdev Hlen Hslot Hfree Huniq]. split; rewrite ?Htab; try done.
    intros i e He Ho. destruct (Hslot i e He Ho) as [Hr ? ? Hc].
    split; [fold (sectors c'); by rewrite Hsz|done|done|]. intros Hd.
    fold (disk c' (disk_sector e)). rewrite Hdk by done.
    rewrite decide_False by (intros ->; by destruct (Hun i e He)). by apply Hc.
  - intros t Ht. case_decide as E.
    + subst t. rewrite logical_uncached by (unfold uncached; by rewrite Htab).
      rewrite Hdk by done. by rewrite decide_True.
    + destruct (cached_or_not c t) as [(i & e & He & Hh)|Hno].
      * unfold logical. rewrite Htab.
        destruct (list_find (holds t) (cache_table c)) as [[k x]|] eqn:F; [done|].
        apply list_find_None in F. rewrite Forall_lookup in F. by destruct (F i e He).
      * rewrite !logical_uncached; [|done|by unfold uncached; rewrite Htab].
        rewrite Hdk by done. by rewrite decide_False.
Qed.

(** Resetting every slot establishes the invariant. *)
Lemma empty_cache_inv t r d :
  block_ok d -> length t = Z.to_nat CACHE_SIZE -> (forall e, e ∈ t -> occupied e = false /\ dirty e = false) ->
  cache_inv (Cache t r d) /\ forall s, logical (Cache t r d) s = drv_content (driver d) s.
Proof.
  intros Hd Hl He. split; [split; simpl; try done|].
  - intros i e Hi Ho. apply list_elem_of_lookup_2 in Hi. destruct (He e Hi). congruence.
  - intros i e Hi _. apply list_elem_of_lookup_2 in Hi. by apply He.
  - intros i j e e' s Hi _ [Ho _] _. apply list_elem_of_lookup_2 in Hi. destruct (He e Hi). congruence.
  - intros s. apply logical_uncached. intros i e Hi [Ho _]. simpl in Hi.
    apply list_elem_of_lookup_2 in Hi. destruct (He e Hi). congruence.
Qed.

Lemma cache_init_run c :
  length (cache_table c) = Z.to_nat CACHE_SIZE ->
  cache_init c = Ok (tt, with_table (reset_entry <$> cache_table c) c).
Proof.
  intros Hl. unfold cache_init.
  destruct (for_range_inv (fun k c' => fs_device c' = fs_device c /\ round_robin_idx c' = round_robin_idx c /\
     cache_table c' = (reset_entry <$> take (Z.to_nat k) (cache_table c)) ++ drop (Z.to_nat k) (cache_table c))
     (Z.to_nat CACHE_SIZE) 0 (fun k c => r ← update_entry k reset_entry c; Ok r.2) c)
    as (c' & -> & Hdev & Hrr & Htab).
  - done.
  - intros k c1 Hk (Hdev & Hrr & Htab).
    destruct (lookup_lt_is_Some_2 (cache_table c) (Z.to_nat k)) as [e He]; [lia|].
    assert (length (reset_entry <$> take (Z.to_nat k) (cache_table c)) = Z.to_nat k) as Hlen
      by (rewrite length_fmap, length_take; lia).
    assert (cache_table c1 !! Z.to_nat k = Some e) as He1.
    { rewrite Htab, lookup_app_r, Hlen by lia. rewrite lookup_drop. rewrite <- He. f_equal. lia. }
    pose proof (update_entry_run c1 _ e reset_entry He1) as Hu. rewrite Z2Nat.id in Hu by lia.
    rewrite Hu. simpl. eexists; split; [done|]. split_and!; [done..|]. simpl.
    replace (Z.to_nat (k + 1)) with (S (Z.to_nat k)) by lia.
    rewrite Htab, (take_S_r _ _ e He), (drop_S _ e _ He).
    rewrite insert_app_r_alt by lia. rewrite Hlen, Nat.sub_diag. simpl.
    by rewrite fmap_app, <- app_assoc.
  - simpl. do 2 f_equal. destruct c, c'; unfold with_table; simpl in *. subst. f_equal.
    rewrite take_ge, drop_ge by lia. by rewrite app_nil_r.
Qed.

(** A block_write to a sector that a dirty slot holds changes no logical
    contents. *)
Lemma raw_write_dirty c i e buf :
  cache_inv c -> cache_table c !! i = Some e -> occupied e = true -> dirty e = true ->
  length buf = sector_bytes -> Forall is_byte buf ->
  exists c', dev_write (disk_sector e) buf c = Ok (tt, c') /\ cache_inv c' /\
    sectors c' = sectors c /\ round_robin_idx c' = round_robin_idx c /\
    logical c' (disk_sector e) = logical c (disk_sector e).
Proof.
  intros Hinv He Ho Hd Hl Hb. destruct (inv_slot _ Hinv i e He Ho) as [Hr _ _ _].
  destruct (dev_write_run c (disk_sector e) buf) as (c' & -> & Hok & Htab & Hrr & Hsz & Hdk);
    [apply (inv_dev _ Hinv)|done..|].
  assert (cache_inv c') as Hinv'.
  { destruct Hinv as [Hdev Hlen Hslot Hfree Huniq]. split; rewrite ?Htab; try done.
    intros j x Hj Hox. destruct (Hslot j x Hj Hox) as [Hxr ? ? Hc].
    split; [fold (sectors c'); by rewrite Hsz|done|done|]. intros Hdx.
    fold (disk c' (disk_sector x)). rewrite Hdk by done. case_decide as E; [|by apply Hc].
    assert (j = i) as -> by (eapply (Huniq j i x e (disk_sector x)); [done|done|by split|by split]).
    congruence. }
  exists c'. split_and!; try done.
  rewrite (logical_cached c i e) by done. apply (logical_cached c' i); [done|by rewrite Htab|done].
Qed.
End spec.

(** ** Properties *)

(** C3: start the cache on a device, run any sequence of cache_read,
    cache_write and write-backs inside the device, and shut it down with
    cache_writeback (true): every read delivered what an array of sectors
    without a cache delivers, and the device ends up with that array's
    contents.  Fewer than 2^31 operations keep round_robin_idx inside
    int. *)
Theorem cache_refines_array {D} `{BlockDriverLaws D} (c : cache D) os :
  length (cache_table c) = Z.to_nat CACHE_SIZE -> block_ok (fs_device c) -> round_robin_idx c = 0 ->
  Forall (op_valid (sectors c)) os -> Z.of_nat (length os) < 2 ^ 31 ->
  exists c0 c1 c2, cache_init c = Ok (tt, c0) /\
    run_ops os c0 = Ok ((flat_ops os (disk c)).1, c1) /\
    cache_writeback true c1 = Ok (tt, c2) /\ sectors c2 = sectors c /\
    forall t, 0 <= t < sectors c -> disk c2 t = (flat_ops os (disk c)).2 t.
Proof.
  intros Hl Hok Hrr Hv Hn. rewrite cache_init_run by done. set (c0 := with_table _ c).
  destruct (empty_cache_inv (reset_entry <$> cache_table c) (round_robin_idx c) (fs_device c)) as [Hinv0 Hlog0].
  { done. } { by rewrite length_fmap. }
  { intros e He. by apply list_elem_of_fmap in He as (e' & -> & _). }
  destruct (run_ops_simulates os c0 (disk c)) as (c1 & Hrun & Hinv1 & Hsz1 & Hsim1);
    [done|split; simpl; lia|done|by intros t Ht; apply Hlog0|].
  destruct (cache_writeback_spec true c1 Hinv1) as (c2 & Hwb & Hinv2 & Hsz2 & _ & Hcl & Hlog2).
  exists c0, c1, c2. split_and!; try done; [by rewrite Hsz2, Hsz1|].
  intros t Ht. rewrite (clean_disk c2 Hinv2) by
    ((intros i e He; by destruct (Hcl i e He)) || (rewrite Hsz2, Hsz1; done)).
  rewrite Hlog2 by (by rewrite Hsz1). apply Hsim1. by rewrite Hsz1.
Qed.

(** A device of [n] zero sectors and a cache whose memory is not yet
    initialised. *)
Definition sample_cache (n : nat) : cache ramdisk :=
  Cache (replicate 64 (Entry true 3 true true [] 1)) 0
    (Block [] BLOCK_FILESYS (Z.of_nat n) (replicate n (replicate sector_bytes 0)) 0 0).

Lemma sample_block_ok n : block_ok (fs_device (sample_cache n)).
Proof.
  split; [|split; [|done]].
  - apply Forall_replicate. split; [done|]. by apply bytes_replicate.
  - cbn [fs_device sample_cache b_size driver drv_size ramdisk_laws]. rewrite length_replicate. lia.
Qed.

Lemma cache_refines_array_witness :
  exists c0 c1 c2, cache_init (sample_cache 3) = Ok (tt, c0) /\
    run_ops [OpWrite 2 [7; 8; 9] 4; OpRead 2 3 4; OpRead 1 0 1] c0 = Ok ([[]; [0; 7; 8; 9]; [0]], c1) /\
    cache_writeback true c1 = Ok (tt, c2) /\ znth 0 (disk c2 2) 5 = 8.
Proof.
  destruct (cache_refines_array (sample_cache 3) [OpWrite 2 [7; 8; 9] 4; OpRead 2 3 4; OpRead 1 0 1])
    as (c0 & c1 & c2 & H0 & H1 & H2 & _ & H3).
  - reflexivity.
  - apply sample_block_ok.
  - reflexivity.
  - unfold sectors; simpl. repeat constructor; simpl; unfold is_byte, BLOCK_SECTOR_SIZE; lia.
  - simpl; lia.
  - exists c0, c1, c2. split_and!; [exact H0|rewrite H1; vm_compute; reflexivity|exact H2|].
    rewrite (H3 2) by (unfold sectors; simpl; lia). vm_compute. reflexivity.
Defined.

(** The index blocks and inodes that inode.c stores with block_write
    go around the cache: when a dirty slot still holds the sector, the
    data written is lost.  A later cache_read returns the slot's old
    contents and the write-back puts them over what block_write stored. *)
Theorem raw_write_lost {D} `{BlockDriverLaws D} (c : cache D) i e buf last :
  cache_inv c -> evictions_left 1 c ->
  cache_table c !! i = Some e -> occupied e = true -> dirty e = true ->
  length buf = sector_bytes -> Forall is_byte buf ->
  exists c1 c2 c3, dev_write (disk_sector e) buf c = Ok (tt, c1) /\
    cache_read_block (disk_sector e) c1 = Ok (blk e, c2) /\
    cache_writeback last c1 = Ok (tt, c3) /\ disk c3 (disk_sector e) = blk e.
Proof.
  intros Hinv Hev He Ho Hd Hl Hb. destruct (inv_slot _ Hinv i e He Ho) as [Hr Hlen _ _].
  assert (logical c (disk_sector e) = blk e) as Hlog by (by apply (logical_cached c i)).
  destruct (raw_write_dirty c i e buf) as (c1 & Hw & Hinv1 & Hsz1 & Hrr1 & Hlog1); [done..|].
  destruct (cache_read_spec c1 (disk_sector e) 0 BLOCK_SECTOR_SIZE) as (c2 & Hrd & _);
    [done|unfold evictions_left; by rewrite Hrr1|by rewrite Hsz1|done..|].
  destruct (cache_writeback_spec last c1 Hinv1) as (c3 & Hwb & Hinv3 & Hsz3 & _ & Hcl & Hlog3).
  exists c1, c2, c3. split_and!; try done.
  - unfold cache_read_block. rewrite Hrd, Hlog1, Hlog. do 2 f_equal.
    unfold window. simpl. apply take_ge. by rewrite Hlen.
  - rewrite (clean_disk c3 Hinv3) by
      ((intros k x Hx; by destruct (Hcl k x Hx)) || by rewrite Hsz3, Hsz1).
    by rewrite Hlog3, Hlog1 by (by rewrite Hsz1).
Qed.

Lemma raw_write_lost_witness :
  let dirty_slot := Entry true 0 true true (replicate sector_bytes 1) 2 in
  let c := Cache (dirty_slot :: replicate 63 (Entry false 0 false false [] 0)) 0
             (fs_device (sample_cache 3)) in
  exists c1 c2 c3, dev_write 2 (replicate sector_bytes 9) c = Ok (tt, c1) /\
    cache_read_block 2 c1 = Ok (replicate sector_bytes 1, c2) /\
    cache_writeback false c1 = Ok (tt, c3) /\ disk c3 2 = replicate sector_bytes 1.
Proof.
  intros e c. apply (raw_write_lost c 0 e (replicate sector_bytes 9) false).
  - split.
    + apply sample_block_ok.
    + reflexivity.
    + intros [|j] x Hx Ho; [|apply lookup_replicate in Hx as [-> _]; done].
      injection Hx as <-. split; [simpl; lia|reflexivity| |done]. by apply bytes_replicate.
    + intros [|j] x Hx Ho; [by injection Hx as <-|apply lookup_replicate in Hx as [-> _]; done].
    + intros [|j] [|k] x y s Hj Hk Hx Hy; try done.
      * apply lookup_replicate in Hk as [-> _]. by destruct Hy.
      * apply lookup_replicate in Hj as [-> _]. by destruct Hx.
      * apply lookup_replicate in Hk as [-> _]. by destruct Hy.
  - split; simpl; lia.
  - reflexivity.
  - reflexivity.
  - reflexivity.
  - reflexivity.
  - by apply bytes_replicate.
Defined.
