(* ===== verification/InodeLayout.v ===== *)
(** * On-disk inodes (src/filesys/inode.c, first half)

    The inode_disk record and its sector image, the index of direct,
    indirect and double indirect blocks, byte_to_sector, inode_grow and
    free_inode, and the data path of inode_read_at and inode_write_at.

    inode.c reaches the device in two ways, through the buffer cache
    (file data) and directly with block_read and block_write (index
    blocks, inode sectors, fresh zero sectors), and allocates sectors from
    the free map.  [SectorEnv] is that interface; [SectorEnvLaws] is what
    the index code relies on.  free-map.c itself stores its bitmap in a
    file, which closes the loop: Filesys.v provides the instance. *)

From S2P Require Import Prelude Block.

Definition INODE_MAGIC : Z := 1229867844. (* 0x494e4f44 *)
Definition DIRECT_BLOCKS : Z := 13.
Definition INDIRECT_BLOCKS : Z := 1.
Definition DOUBLE_INDIRECT_BLOCKS : Z := 1.
Definition NO_OF_BLOCKS : Z := DIRECT_BLOCKS + INDIRECT_BLOCKS + DOUBLE_INDIRECT_BLOCKS.
Definition INDIRECT_BLOCK_ENTRIES : Z := 128.
Definition DOUBLE_INDIRECT_BLOCK_ENTRIES : Z := 16384.
Definition FREE_MAP_SECTOR : Z := 0.
Definition ROOT_DIR_SECTOR : Z := 1.

(** struct inode_disk *)
Record inode_disk := InodeDisk {
  blocks : list Z;
  dir_parent : Z;
  is_dir : bool;
  direct_count : Z;
  indirect_count : Z;
  double_indirect_count : Z;
  start : Z;
  length_ : Z;
  magic : Z;
  unused : list Z
}.

Definition set_blocks (b : list Z) (i : inode_disk) : inode_disk :=
  InodeDisk b (dir_parent i) (is_dir i) (direct_count i) (indirect_count i)
    (double_indirect_count i) (start i) (length_ i) (magic i) (unused i).
Definition set_length (n : Z) (i : inode_disk) : inode_disk :=
  InodeDisk (blocks i) (dir_parent i) (is_dir i) (direct_count i) (indirect_count i)
    (double_indirect_count i) (start i) n (magic i) (unused i).
Definition set_direct (n : Z) (i : inode_disk) : inode_disk :=
  InodeDisk (blocks i) (dir_parent i) (is_dir i) n (indirect_count i)
    (double_indirect_count i) (start i) (length_ i) (magic i) (unused i).
Definition set_indirect (n : Z) (i : inode_disk) : inode_disk :=
  InodeDisk (blocks i) (dir_parent i) (is_dir i) (direct_count i) n
    (double_indirect_count i) (start i) (length_ i) (magic i) (unused i).
Definition set_double (n : Z) (i : inode_disk) : inode_disk :=
  InodeDisk (blocks i) (dir_parent i) (is_dir i) (direct_count i) (indirect_count i)
    n (start i) (length_ i) (magic i) (unused i).
Definition set_parent (n : Z) (i : inode_disk) : inode_disk :=
  InodeDisk (blocks i) n (is_dir i) (direct_count i) (indirect_count i)
    (double_indirect_count i) (start i) (length_ i) (magic i) (unused i).

(** The 512-byte image: 15 blocks, dir_parent, is_dir and three bytes of
    padding, the counts, start, length, magic, 105 unused words.  The
    padding is kept as zero. *)
Definition inode_words (i : inode_disk) : list Z :=
  blocks i ++ [dir_parent i; Z.b2z (is_dir i); u32 (direct_count i);
    u32 (indirect_count i); u32 (double_indirect_count i); start i;
    u32 (length_ i); magic i] ++ unused i.

Definition inode_bytes (i : inode_disk) : list Z := words_to_bytes (inode_words i).

Definition inode_of_words (w : list Z) : inode_disk :=
  InodeDisk (take 15 w) (znth 0 w 15) (negb (znth 0 w 16 mod 256 =? 0))
    (s32 (znth 0 w 17)) (s32 (znth 0 w 18)) (s32 (znth 0 w 19)) (znth 0 w 20)
    (s32 (znth 0 w 21)) (znth 0 w 22) (drop 23 w).

Definition inode_of_bytes (l : list Z) : inode_disk := inode_of_words (bytes_to_words 128 l).

(** block_sector_t tables of one sector. *)
Definition table_of_bytes (l : list Z) : list Z := bytes_to_words 128 l.
Definition table_bytes (t : list Z) : list Z := words_to_bytes t.

Definition zeros : list Z := replicate sector_bytes 0.

(** bytes_to_sectors: the arithmetic is on int, the result a size_t. *)
Definition bytes_to_sectors (size : Z) : Z :=
  u32 (Z.quot (s32 (s32 (size + BLOCK_SECTOR_SIZE) - 1)) BLOCK_SECTOR_SIZE).

(** ** The environment of the inode code *)
Class SectorEnv (E : Type) := {
  env_block_read : Z -> st E (list Z);
  env_block_write : Z -> list Z -> st E unit;
  env_cache_read : Z -> Z -> Z -> st E (list Z);
  env_cache_write : Z -> list Z -> Z -> st E unit;
  (** free_map_allocate (1, &sector): None leaves the sector unassigned *)
  env_allocate : st E (option Z);
  (** free_map_release (sector, 1) *)
  env_release : Z -> st E unit
}.

(** The uninitialised local arrays of inode_grow. *)
Record stack_junk := Junk { junk_blocks : list Z; junk_one : list Z; junk_two : list Z }.

Section inode.
Context {E : Type} `{SectorEnv E}.

(** Returns the sector of byte [pos], or -1 (as an unsigned sector
    number). *)
Definition byte_to_sector (i : inode_disk) (pos : Z) : st E Z :=
  if pos <? length_ i then
    if pos <? DIRECT_BLOCKS * BLOCK_SECTOR_SIZE then
      lift (zget (blocks i) (Z.quot pos BLOCK_SECTOR_SIZE))
    else if pos <? (DIRECT_BLOCKS + INDIRECT_BLOCKS * INDIRECT_BLOCK_ENTRIES) * BLOCK_SECTOR_SIZE then
      let pos := pos - DIRECT_BLOCKS * BLOCK_SECTOR_SIZE in
      let idx := Z.quot pos (INDIRECT_BLOCK_ENTRIES * BLOCK_SECTOR_SIZE) + DIRECT_BLOCKS in
      b ← lift (zget (blocks i) idx);
      l ← env_block_read b;
      let pos := Z.rem pos (INDIRECT_BLOCK_ENTRIES * BLOCK_SECTOR_SIZE) in
      lift (zget (table_of_bytes l) (Z.quot pos BLOCK_SECTOR_SIZE))
    else
      b ← lift (zget (blocks i) (NO_OF_BLOCKS - 1));
      l1 ← env_block_read b;
      let pos := pos - (DIRECT_BLOCKS + INDIRECT_BLOCKS * INDIRECT_BLOCK_ENTRIES) * BLOCK_SECTOR_SIZE in
      let idx := Z.quot pos (INDIRECT_BLOCK_ENTRIES * BLOCK_SECTOR_SIZE) in
      b2 ← lift (zget (table_of_bytes l1) idx);
      l2 ← env_block_read b2;
      let pos := Z.rem pos (INDIRECT_BLOCK_ENTRIES * BLOCK_SECTOR_SIZE) in
      lift (zget (table_of_bytes l2) (Z.quot pos BLOCK_SECTOR_SIZE))
  else mret (u32 (-1)).

(** [free_map_allocate (1, &t[k])]: the result is ignored, so a failed
    allocation leaves the table entry as it was. *)
Definition allocate_into (t : list Z) (k : Z) : st E (list Z) :=
  r ← env_allocate;
  match r with
  | Some s => lift (zset t k s)
  | None => mret t
  end.

(** [free_map_allocate (1, &t[k]); block_write (fs_device, t[k], zeros)] *)
Definition allocate_zeroed (t : list Z) (k : Z) : st E (list Z) :=
  t' ← allocate_into t k;
  s ← lift (zget t' k);
  env_block_write s zeros ≫= fun _ => mret t'.

(** The loop over the direct blocks; [n] is grow_sectors. *)
Fixpoint grow_direct (n : nat) (i : inode_disk) : st E (nat * inode_disk) :=
  match n with
  | O => mret (O, i)
  | S n' =>
      if direct_count i <? DIRECT_BLOCKS then
        b ← allocate_zeroed (blocks i) (direct_count i);
        grow_direct n' (set_direct (direct_count i + 1) (set_blocks b i))
      else mret (n, i)
  end.

(** The loop over the entries of the indirect block. *)
Fixpoint grow_indirect (n : nat) (i : inode_disk) (t : list Z)
  : st E (nat * inode_disk * list Z) :=
  match n with
  | O => mret (O, i, t)
  | S n' =>
      if indirect_count i <? INDIRECT_BLOCK_ENTRIES then
        t' ← allocate_zeroed t (indirect_count i);
        grow_indirect n' (set_indirect (indirect_count i + 1) i) t'
      else mret (n, i, t)
  end.

(** The inner loop of the double indirect case: it fills level_two from
    [level_two_idx] up. *)
Fixpoint grow_level_two (n : nat) (i : inode_disk) (t : list Z) (level_two_idx : Z)
  : st E (nat * inode_disk * list Z) :=
  match n with
  | O => mret (O, i, t)
  | S n' =>
      if level_two_idx <? 128 then
        t' ← allocate_zeroed t level_two_idx;
        grow_level_two n' (set_double (double_indirect_count i + 1) i) t' (level_two_idx + 1)
      else mret (n, i, t)
  end.

(** The outer loop: every iteration starts level_two_idx at 0. *)
Fixpoint grow_double (fuel : nat) (n : nat) (i : inode_disk) (one two : list Z)
  : st E (nat * inode_disk * list Z) :=
  if (double_indirect_count i <? DOUBLE_INDIRECT_BLOCK_ENTRIES) && negb (n =? 0)%nat then
    match fuel with
    | O => lift (Err Fuel)
    | S fuel' =>
        let level_one_idx := Z.quot (double_indirect_count i) 128 in
        ot ← (if Z.rem (double_indirect_count i) 128 =? 0 then
                one' ← allocate_into one level_one_idx; mret (one', two)
              else
                b ← lift (zget one level_one_idx);
                l ← env_block_read b; mret (one, table_of_bytes l));
        let '(one, two) := ot in
        r ← grow_level_two n i two 0;
        let '(n, i, two) := r in
        b ← lift (zget one level_one_idx);
        env_block_write b (table_bytes two) ≫= fun _ =>
        grow_double fuel' n i one two
    end
  else mret (n, i, one).

(** [blocks] with entry [k] (a block number) allocated. *)
Definition allocate_block (i : inode_disk) (k : Z) : st E inode_disk :=
  b ← allocate_into (blocks i) k; mret (set_blocks b i).

(** The second and third parts of inode_grow. *)
Definition grow_part_two (j : stack_junk) (n : nat) (i : inode_disk) : st E (nat * inode_disk) :=
  if (n =? 0)%nat then mret (n, i) else
    it ← (if indirect_count i =? 0 then
            i' ← allocate_block i (NO_OF_BLOCKS - 2); mret (i', junk_blocks j)
          else
            b ← lift (zget (blocks i) (NO_OF_BLOCKS - 2));
            l ← env_block_read b; mret (i, table_of_bytes l));
    r ← grow_indirect n it.1 it.2;
    let '(n, i, t) := r in
    b ← lift (zget (blocks i) (NO_OF_BLOCKS - 2));
    env_block_write b (table_bytes t) ≫= fun _ => mret (n, i).

Definition grow_part_three (j : stack_junk) (n : nat) (i : inode_disk) : st E inode_disk :=
  if (n =? 0)%nat then mret i else
    it ← (if double_indirect_count i =? 0 then
            i' ← allocate_block i (NO_OF_BLOCKS - 1); mret (i', junk_one j)
          else
            b ← lift (zget (blocks i) (NO_OF_BLOCKS - 1));
            l ← env_block_read b; mret (i, table_of_bytes l));
    r ← grow_double n n it.1 it.2 (junk_two j);
    let '(n, i, one) := r in
    b ← lift (zget (blocks i) (NO_OF_BLOCKS - 1));
    env_block_write b (table_bytes one) ≫= fun _ => mret i.

(** inode_grow returns true on every path. *)
Definition inode_grow (j : stack_junk) (i : inode_disk) (len : Z) : st E (bool * inode_disk) :=
  let grow_sectors := u32 (bytes_to_sectors len - bytes_to_sectors (length_ i)) in
  let i := set_length len i in
  if grow_sectors =? 0 then mret (true, i) else
    r ← grow_direct (Z.to_nat grow_sectors) i;
    r ← grow_part_two j r.1 r.2;
    i ← grow_part_three j r.1 r.2;
    mret (true, i).

(** ** free_inode *)

(** [for (k = from; k < from + n; k++) free_map_release (t[k], 1)] *)
Fixpoint release_run (n : nat) (t : list Z) (k : Z) : st E unit :=
  match n with
  | O => mret tt
  | S n' =>
      s ← lift (zget t k);
      env_release s ≫= fun _ => release_run n' t (k + 1)
  end.

(** The direct blocks: [while (idx < DIRECT_BLOCKS && sector_count > 0)]. *)
Definition free_direct (i : inode_disk) (sector_count : Z) : st E Z :=
  let n := Z.min DIRECT_BLOCKS sector_count in
  release_run (Z.to_nat n) (blocks i) 0 ≫= fun _ => mret (sector_count - n).

Definition free_indirect (i : inode_disk) (sector_count : Z) : st E Z :=
  if 0 <? sector_count then
    b ← lift (zget (blocks i) (NO_OF_BLOCKS - 2));
    l ← env_block_read b;
    release_run (Z.to_nat (u32 (indirect_count i))) (table_of_bytes l) 0 ≫= fun _ =>
    env_release b ≫= fun _ => mret (u32 (sector_count - indirect_count i))
  else mret sector_count.

(** The full second-level blocks. *)
Fixpoint free_level_two (n : nat) (one : list Z) (k : Z) : st E unit :=
  match n with
  | O => mret tt
  | S n' =>
      b ← lift (zget one k);
      l ← env_block_read b;
      release_run 128 (table_of_bytes l) 0 ≫= fun _ =>
      env_release b ≫= fun _ => free_level_two n' one (k + 1)
  end.

Definition free_double (i : inode_disk) (sector_count : Z) : st E unit :=
  if 0 <? sector_count then
    b ← lift (zget (blocks i) (NO_OF_BLOCKS - 1));
    l ← env_block_read b;
    let one := table_of_bytes l in
    let full := Z.quot (double_indirect_count i) 128 in
    free_level_two (Z.to_nat full) one 0 ≫= fun _ =>
    let sector_count := u32 (sector_count - 128 * Z.max 0 full) in
    (if 0 <? sector_count then
       b2 ← lift (zget one full);
       l2 ← env_block_read b2;
       release_run (Z.to_nat (Z.rem (double_indirect_count i) 128)) (table_of_bytes l2) 0 ≫= fun _ =>
       env_release b2
     else mret tt) ≫= fun _ =>
    env_release b
  else mret tt.

Definition free_inode (i : inode_disk) : st E unit :=
  let sector_count := bytes_to_sectors (length_ i) in
  if sector_count =? 0 then mret tt else
    sector_count ← free_direct i sector_count;
    sector_count ← free_indirect i sector_count;
    free_double i sector_count.

(** ** The data path *)

(** chunk_size of one iteration of inode_read_at and inode_write_at. *)
Definition chunk (i : inode_disk) (size offset : Z) : Z :=
  let sector_ofs := Z.rem offset BLOCK_SECTOR_SIZE in
  let inode_left := s32 (length_ i - offset) in
  let sector_left := BLOCK_SECTOR_SIZE - sector_ofs in
  let min_left := if inode_left <? sector_left then inode_left else sector_left in
  if size <? min_left then size else min_left.

(** The loop of inode_read_at; the result is the bytes copied so far. *)
Fixpoint read_loop (fuel : nat) (i : inode_disk) (size offset : Z) (acc : list Z) : st E (list Z) :=
  if 0 <? size then
    match fuel with
    | O => lift (Err Fuel)
    | S fuel' =>
        sector_idx ← byte_to_sector i offset;
        let chunk_size := chunk i size offset in
        if chunk_size <=? 0 then mret acc else
          b ← env_cache_read sector_idx (Z.rem offset BLOCK_SECTOR_SIZE) chunk_size;
          read_loop fuel' i (size - chunk_size) (s32 (offset + chunk_size)) (acc ++ b)
    end
  else mret acc.

Definition read_at (i : inode_disk) (size offset : Z) : st E (list Z) :=
  read_loop (Z.to_nat size) i size offset [].

(** The loop of inode_write_at; [buffer] is what is left to write. *)
Fixpoint write_loop (fuel : nat) (i : inode_disk) (buffer : list Z) (offset bytes_written : Z) : st E Z :=
  let size := Z.of_nat (length buffer) in
  if 0 <? size then
    match fuel with
    | O => lift (Err Fuel)
    | S fuel' =>
        sector_idx ← byte_to_sector i offset;
        let chunk_size := chunk i size offset in
        if chunk_size <=? 0 then mret bytes_written else
          env_cache_write sector_idx (take (Z.to_nat chunk_size) buffer)
            (Z.rem offset BLOCK_SECTOR_SIZE) ≫= fun _ =>
          write_loop fuel' i (drop (Z.to_nat chunk_size) buffer)
            (s32 (offset + chunk_size)) (bytes_written + chunk_size)
    end
  else mret bytes_written.

(** The part of inode_write_at after the deny_write_cnt test: growth,
    then the loop.  The lock around the growth is in Inode.v. *)
Definition write_at (j : stack_junk) (i : inode_disk) (buffer : list Z) (offset : Z)
  : st E (Z * inode_disk) :=
  let size := Z.of_nat (length buffer) in
  i ← (if length_ i <? s32 (offset + size) then
         r ← inode_grow j i (s32 (offset + size)); mret r.2
       else mret i);
  n ← write_loop (length buffer) i buffer offset 0;
  mret (n, i).

(** inode_create: calloc gives zero words; a null pointer is
    [calloc_ok = false]. *)
Definition inode_create (j : stack_junk) (calloc_ok : bool) (sector len : Z) (dir : bool) : st E bool :=
  kassert_st (0 <=? len) ≫= fun _ =>
  if calloc_ok then
    let i := InodeDisk (replicate 15 0) ROOT_DIR_SECTOR dir 0 0 0 0 0 INODE_MAGIC (replicate 105 0) in
    r ← inode_grow j i len;
    if (r : bool * inode_disk).1 then env_block_write sector (inode_bytes r.2) ≫= fun _ => mret true
    else mret false
  else mret false.
End inode.

(** ** The sector image *)

(** The values the C types can hold. *)
Record inode_disk_ok (i : inode_disk) : Prop := {
  io_blocks : length (blocks i) = 15%nat /\ Forall is_word (blocks i);
  io_unused : length (unused i) = 105%nat /\ Forall is_word (unused i);
  io_words : Forall is_word [dir_parent i; start i; magic i];
  io_ints : Forall (fun x => - 2 ^ 31 <= x < 2 ^ 31)
    [direct_count i; indirect_count i; double_indirect_count i; length_ i]
}.

Lemma s32_u32 x : - 2 ^ 31 <= x < 2 ^ 31 -> s32 (u32 x) = x.
Proof. intros Hx. unfold s32, u32. rewrite Z.mod_mod by lia. fold (s32 x). by apply s32_small. Qed.

Lemma inode_words_ok i : inode_disk_ok i -> length (inode_words i) = 128%nat /\ Forall is_word (inode_words i).
Proof.
  intros [[Hb1 Hb2] [Hu1 Hu2] Hw Hi]. unfold inode_words.
  apply Forall_cons_1 in Hw as [Hp Hw]. apply Forall_cons_1 in Hw as [Hs Hw]. apply Forall_cons_1 in Hw as [Hm _].
  split; [rewrite !length_app, Hb1, Hu1; done|].
  rewrite !Forall_app. split_and!; try done.
  repeat (constructor; [try apply u32_range; try done; destruct (is_dir i); unfold is_word; simpl; lia|]).
  constructor.
Qed.

Lemma inode_bytes_ok i :
  inode_disk_ok i -> length (inode_bytes i) = sector_bytes /\ Forall is_byte (inode_bytes i) /\
  inode_of_bytes (inode_bytes i) = i.
Proof.
  intros Hok. destruct (inode_words_ok i Hok) as [Hl Hw]. destruct Hok as [[Hb1 _] [Hu1 _] _ Hi].
  unfold inode_bytes. split; [by rewrite length_words_to_bytes, Hl|].
  split; [apply words_are_bytes|].
  unfold inode_of_bytes. rewrite <- Hl, <- (app_nil_r (words_to_bytes _)), bytes_to_words_to_bytes by done.
  unfold inode_of_words. repeat (apply Forall_cons_1 in Hi as [? Hi]).
  assert (forall k, 15 <= k -> znth 0 (inode_words i) k = znth 0 (drop 15 (inode_words i)) (k - 15)) as Hz.
  { intros k Hk. unfold znth. rewrite !nth_lookup, lookup_drop. do 2 f_equal. lia. }
  rewrite (Hz 15), (Hz 16), (Hz 17), (Hz 18), (Hz 19), (Hz 20), (Hz 21), (Hz 22) by lia.
  unfold inode_words. rewrite take_app_length' by done. rewrite drop_app_length' by done.
  change 23%nat with (15 + 8)%nat. rewrite <- drop_drop, drop_app_length' by done.
  unfold znth. cbn -[s32 u32 Z.to_nat Z.sub].
  change (Z.to_nat (15 - 15)) with 0%nat. change (Z.to_nat (16 - 15)) with 1%nat.
  change (Z.to_nat (17 - 15)) with 2%nat. change (Z.to_nat (18 - 15)) with 3%nat.
  change (Z.to_nat (19 - 15)) with 4%nat. change (Z.to_nat (20 - 15)) with 5%nat.
  change (Z.to_nat (21 - 15)) with 6%nat. change (Z.to_nat (22 - 15)) with 7%nat.
  cbv iota. rewrite !s32_u32 by done. destruct i; simpl. f_equal. by destruct is_dir0.
Qed.

(** An inode fills exactly one sector, and reading back the sector
    that holds it gives the same inode. *)
Theorem inode_image_roundtrip i :
  inode_disk_ok i -> length (inode_bytes i) = sector_bytes /\ inode_of_bytes (inode_bytes i) = i.
Proof. intros Hok. by destruct (inode_bytes_ok i Hok) as (? & _ & ?). Qed.

Lemma inode_image_roundtrip_witness :
  inode_of_bytes (inode_bytes (InodeDisk (replicate 15 9) 1 true 13 2 0 0 7000 INODE_MAGIC (replicate 105 0))) =
  InodeDisk (replicate 15 9) 1 true 13 2 0 0 7000 INODE_MAGIC (replicate 105 0).
Proof.
  apply inode_image_roundtrip. split.
  - split; [reflexivity|]. apply Forall_replicate. unfold is_word. lia.
  - split; [reflexivity|]. apply Forall_replicate. unfold is_word. lia.
  - repeat constructor; unfold is_word, INODE_MAGIC; simpl; lia.
  - repeat constructor; simpl; lia.
Defined.
