(* ===== verification/InodeGrow.v ===== *)
(** * The index of an inode and its growth (src/filesys/inode.c)

    [SectorEnvLaws] is the contract of the device, the buffer cache and
    the free map as inode.c uses them.  Against it this file proves that
    byte_to_sector reads the index as a table of data sectors ([ptr]),
    and that inode_grow extends that table by freshly allocated zero
    sectors and keeps what was there. *)

From S2P Require Import Prelude Block InodeLayout.

(** What the inode code can observe: the contents of each sector, the
    sectors the buffer cache holds no copy of ([cold]), the free map, the
    sectors the free map itself is stored in ([reserved]). *)
Class SectorObs (E : Type) := {
  nsec : E -> Z;
  view : E -> Z -> list Z;
  cold : E -> Z -> Prop;
  used : E -> Z -> Prop;
  reserved : E -> Z -> Prop;
  free_cnt : E -> nat
}.

Definition in_dev {E} `{SectorObs E} (σ : E) (t : Z) : Prop := 0 <= t < nsec σ.

(** Nothing changes outside [W]. *)
Record same_but {E} `{SectorObs E} (W : Z -> Prop) (σ σ' : E) : Prop := {
  sb_nsec : nsec σ' = nsec σ;
  sb_reserved : forall t, reserved σ' t <-> reserved σ t;
  sb_view : forall t, in_dev σ t -> ~ W t -> view σ' t = view σ t;
  sb_cold : forall t, in_dev σ t -> ~ W t -> cold σ t -> cold σ' t
}.

Record same_map {E} `{SectorObs E} (σ σ' : E) : Prop := {
  sm_used : forall t, used σ' t <-> used σ t;
  sm_free : free_cnt σ' = free_cnt σ
}.

(** [env_ok n] is the invariant of the environment with [n] cache
    operations to go.  Reads and writes of sectors: *)
Class SectorIOLaws (E : Type) `{SectorEnv E, SectorObs E} := {
  env_ok : nat -> E -> Prop;
  env_ok_mono : forall m n σ, (n <= m)%nat -> env_ok m σ -> env_ok n σ;
  env_nsec : forall n σ, env_ok n σ -> nsec σ <= 2 ^ 32;
  env_view : forall n σ t, env_ok n σ -> in_dev σ t ->
    length (view σ t) = sector_bytes /\ Forall is_byte (view σ t);
  env_block_read_ok : forall n σ s, env_ok n σ -> in_dev σ s -> cold σ s ->
    exists σ', env_block_read s σ = Ok (view σ s, σ') /\ env_ok n σ' /\
      same_but (fun _ => False) σ σ' /\ same_map σ σ';
  env_block_write_ok : forall n σ s buf, env_ok n σ -> in_dev σ s -> cold σ s -> ~ reserved σ s ->
    length buf = sector_bytes -> Forall is_byte buf ->
    exists σ', env_block_write s buf σ = Ok (tt, σ') /\ env_ok n σ' /\
      same_but (fun t => t = s) σ σ' /\ same_map σ σ' /\ view σ' s = buf /\ cold σ' s;
  env_cache_read_ok : forall n σ s ofs size, env_ok (S n) σ -> in_dev σ s -> ~ reserved σ s ->
    0 <= ofs -> 0 <= size -> ofs + size <= BLOCK_SECTOR_SIZE ->
    exists σ', env_cache_read s ofs size σ = Ok (window (view σ s) (Z.to_nat ofs) (Z.to_nat size), σ') /\
      env_ok n σ' /\ same_but (fun t => t = s) σ σ' /\ same_map σ σ' /\ view σ' s = view σ s;
  env_cache_write_ok : forall n σ s src ofs, env_ok (S n) σ -> in_dev σ s -> ~ reserved σ s ->
    0 <= ofs -> ofs + Z.of_nat (length src) <= BLOCK_SECTOR_SIZE -> Forall is_byte src ->
    exists σ', env_cache_write s src ofs σ = Ok (tt, σ') /\
      env_ok n σ' /\ same_but (fun t => t = s) σ σ' /\ same_map σ σ' /\
      view σ' s = splice (view σ s) (Z.to_nat ofs) src
}.

(** The free map; one of its operations may take [env_cost] cache
    operations. *)
Class SectorEnvLaws (E : Type) `{SectorIOLaws E} := {
  env_cost : nat;
  env_reserved : forall n σ t, env_ok n σ -> reserved σ t -> used σ t;
  env_allocate_ok : forall n σ, env_ok (env_cost + n) σ -> (0 < free_cnt σ)%nat ->
    exists s σ', env_allocate σ = Ok (Some s, σ') /\ env_ok n σ' /\
      in_dev σ s /\ ~ used σ s /\ same_but (reserved σ) σ σ' /\
      (forall t, used σ' t <-> used σ t \/ t = s) /\ free_cnt σ = S (free_cnt σ');
  env_release_ok : forall n σ s, env_ok (env_cost + n) σ -> in_dev σ s -> used σ s -> ~ reserved σ s ->
    exists σ', env_release s σ = Ok (tt, σ') /\ env_ok n σ' /\ same_but (reserved σ) σ σ' /\
      (forall t, used σ' t <-> used σ t /\ t <> s) /\ free_cnt σ' = S (free_cnt σ)
}.

Section index.
Context {E : Type} `{SectorEnvLaws E}.
Implicit Types (σ : E) (i : inode_disk).

(** ** The index as a table *)

Definition table σ (b : Z) : list Z := table_of_bytes (view σ b).
Definition block_no i (k : Z) : Z := znth 0 (blocks i) k.

(** The data sector of file block [k]. *)
Definition ptr σ i (k : Z) : Z :=
  if k <? 13 then block_no i k
  else if k <? 141 then znth 0 (table σ (block_no i 13)) (k - 13)
  else znth 0 (table σ (znth 0 (table σ (block_no i 14)) ((k - 141) / 128))) ((k - 141) mod 128).

Definition data σ i (n : Z) : list Z := ptr σ i <$> seqZ 0 n.

(** The number of level-two blocks of a file of [n] sectors. *)
Definition level_twos (n : Z) : Z := Z.max 0 ((n - 141 + 127) / 128).

(** The sectors that hold the index of a file of [n] sectors. *)
Definition index σ i (n : Z) : list Z :=
  (if 13 <? n then [block_no i 13] else []) ++
  (if 141 <? n then [block_no i 14] else []) ++
  (znth 0 (table σ (block_no i 14)) <$> seqZ 0 (level_twos n)).

Definition index_cnt (n : Z) : Z :=
  (if 13 <? n then 1 else 0) + (if 141 <? n then 1 else 0) + level_twos n.

Definition MAX_SECTORS : Z := 13 + 128 + 16384.

Record counts_ok i (n : Z) : Prop := {
  co_len : length (blocks i) = 15%nat;
  co_n : 0 <= n <= MAX_SECTORS;
  co_direct : direct_count i = Z.min n 13;
  co_indirect : indirect_count i = Z.max 0 (Z.min (n - 13) 128);
  co_double : double_indirect_count i = Z.max 0 (n - 141)
}.

(** The inode describes a file of [n] sectors: its data and index
    sectors are distinct, allocated and outside the free map's own file,
    and the index, which is read around the cache, is in no cache slot. *)
Record rep σ i (n : Z) : Prop := {
  rep_counts : counts_ok i n;
  rep_nodup : NoDup (data σ i n ++ index σ i n);
  rep_own : forall t, t ∈ data σ i n ++ index σ i n -> in_dev σ t /\ used σ t /\ ~ reserved σ t;
  rep_cold : forall t, t ∈ index σ i n -> cold σ t
}.

(** No free sector is in the cache. *)
Definition fresh_cold σ : Prop := forall t, in_dev σ t -> ~ used σ t -> cold σ t.

Lemma length_table_of_bytes l : length (table_of_bytes l) = 128%nat.
Proof. apply length_bytes_to_words. Qed.

Lemma length_table σ b : length (table σ b) = 128%nat.
Proof. apply length_bytes_to_words. Qed.

Lemma table_words n σ b : env_ok n σ -> in_dev σ b -> Forall is_word (table σ b).
Proof. intros Hok Hb. apply bytes_to_words_range. by eapply env_view. Qed.

Lemma table_written σ b t :
  length t = 128%nat -> Forall is_word t -> view σ b = table_bytes t -> table σ b = t.
Proof.
  intros Hl Hw Hv. unfold table, table_of_bytes. rewrite Hv. unfold table_bytes.
  rewrite <- Hl. rewrite <- (app_nil_r (words_to_bytes t)). by apply bytes_to_words_to_bytes.
Qed.

Lemma elem_data σ i n t : t ∈ data σ i n <-> exists k, 0 <= k < n /\ t = ptr σ i k.
Proof.
  unfold data. rewrite list_elem_of_fmap. setoid_rewrite elem_of_seqZ.
  split; intros (k & ? & ?); exists k; (split; [done || lia|done || lia]).
Qed.

Lemma data_in σ i n k : 0 <= k < n -> ptr σ i k ∈ data σ i n.
Proof. intros. apply elem_data. eauto. Qed.

Lemma level_twos_bounds n : 141 < n -> 1 <= level_twos n /\ 128 * (level_twos n - 1) < n - 141 <= 128 * level_twos n.
Proof. intros. unfold level_twos. dlia. Qed.

Lemma elem_index σ i n t :
  t ∈ index σ i n <-> (13 < n /\ t = block_no i 13) \/ (141 < n /\ t = block_no i 14) \/
    exists q, 0 <= q < level_twos n /\ t = znth 0 (table σ (block_no i 14)) q.
Proof.
  unfold index. rewrite !elem_of_app, list_elem_of_fmap. setoid_rewrite elem_of_seqZ.
  assert (forall (b : bool) (x : Z), t ∈ (if b then [x] else []) <-> b = true /\ t = x) as Hif.
  { intros [] x; [rewrite list_elem_of_singleton; naive_solver|rewrite elem_of_nil; naive_solver]. }
  rewrite !Hif, !Z.ltb_lt. split.
  - intros [?|[?|(q & -> & ?)]]; [by left|by right; left|right; right]. exists q. split; [lia|done].
  - intros [?|[?|(q & ? & ->)]]; [by left|by right; left|right; right]. exists q. split; [done|lia].
Qed.

Lemma length_index σ i n : Z.of_nat (length (index σ i n)) = index_cnt n.
Proof.
  unfold index, index_cnt. rewrite !length_app, length_fmap, length_seqZ.
  unfold level_twos. repeat case_match; simpl; lia.
Qed.

(** Device reads observe and change nothing. *)
Definition quiet σ σ' : Prop := same_but (fun _ => False) σ σ' /\ same_map σ σ'.

Lemma quiet_refl σ : quiet σ σ.
Proof. repeat split; auto. Qed.

Lemma quiet_trans σ1 σ2 σ3 : quiet σ1 σ2 -> quiet σ2 σ3 -> quiet σ1 σ3.
Proof.
  intros [[a1 a2 a3 a4] [a5 a6]] [[b1 b2 b3 b4] [b5 b6]]. unfold in_dev in *.
  split; split; try congruence; intros t; rewrite ?b2, ?b5; auto;
    intros; rewrite ?b3, ?a3 by (rewrite ?a1; done); auto.
  apply b4; [by rewrite a1|done|]. by apply a4.
Qed.

(** The index reads of a represented file are reads of [view]. *)
Lemma index_read n σ σ1 i m s :
  env_ok n σ1 -> quiet σ σ1 -> rep σ i m -> s ∈ index σ i m ->
  exists σ2, env_block_read s σ1 = Ok (view σ s, σ2) /\ env_ok n σ2 /\ quiet σ σ2.
Proof.
  intros Hok Hq Hrep Hs. destruct Hq as [Hsb Hsm] eqn:Eq.
  assert (in_dev σ s) as Hdev by (apply (rep_own _ _ _ Hrep); apply elem_of_app; by right).
  destruct (env_block_read_ok n σ1 s) as (σ2 & Hr & Hok2 & Hb & Hm).
  - done.
  - unfold in_dev in *. by rewrite (sb_nsec _ _ _ Hsb).
  - apply (sb_cold _ _ _ Hsb); [done|tauto|]. by apply (rep_cold _ _ _ Hrep).
  - exists σ2. rewrite Hr, (sb_view _ _ _ Hsb) by (done || tauto).
    split_and!; try done. eapply quiet_trans; [exact Hq|by split].
Qed.

Lemma lift_zget σ (l : list Z) k :
  0 <= k < Z.of_nat (length l) -> (lift (zget l k) : st E Z) σ = Ok (znth 0 l k, σ).
Proof. intros Hk. unfold lift. by rewrite (zget_znth 0) by done. Qed.

(** byte_to_sector follows the index. *)
Lemma byte_to_sector_ok n σ i m pos :
  env_ok n σ -> rep σ i m -> 0 <= pos < length_ i -> pos < 512 * m ->
  exists σ', byte_to_sector i pos σ = Ok (ptr σ i (pos / 512), σ') /\ env_ok n σ' /\ quiet σ σ'.
Proof.
  intros Hok Hrep Hpos Hm. destruct (rep_counts _ _ _ Hrep) as [Hlen Hmax _ _ _].
  unfold byte_to_sector, ptr, BLOCK_SECTOR_SIZE, DIRECT_BLOCKS, INDIRECT_BLOCKS, INDIRECT_BLOCK_ENTRIES, NO_OF_BLOCKS.
  unfold DIRECT_BLOCKS, INDIRECT_BLOCKS, DOUBLE_INDIRECT_BLOCKS, MAX_SECTORS in *.
  change (13 * 512) with 6656. change ((13 + 1 * 128) * 512) with 72192.
  change (128 * 512) with 65536. change (13 + 1 + 1 - 1) with 14. change (13 + 128 + 16384) with 16525 in Hmax.
  rewrite (proj2 (Z.ltb_lt pos (length_ i))) by lia.
  destruct (pos <? 6656) eqn:E1.
  - rewrite Z.quot_div_nonneg by lia. rewrite (proj2 (Z.ltb_lt _ 13)) by dlia. rewrite lift_zget by (rewrite Hlen; dlia).
    exists σ. split_and!; [done|done|apply quiet_refl].
  - rewrite (proj2 (Z.ltb_ge _ 13)) by dlia. destruct (pos <? 72192) eqn:E2.
    + rewrite !Z.rem_mod_nonneg, !Z.quot_div_nonneg by dlia. rewrite (proj2 (Z.ltb_lt _ 141)) by dlia.
      replace ((pos - 6656) / 65536 + 13) with 13 by dlia.
      replace ((pos - 6656) mod 65536 / 512) with (pos / 512 - 13) by dlia.
      unfold mbind, st_bind. rewrite lift_zget by (rewrite Hlen; lia). fold (block_no i 13).
      destruct (index_read n σ σ i m (block_no i 13)) as (σ1 & -> & Hok1 & Hq1);
        [done|apply quiet_refl|done|apply elem_index; left; split; [dlia|done]|].
      rewrite lift_zget by (rewrite length_table_of_bytes; dlia). by exists σ1.
    + rewrite !Z.rem_mod_nonneg, !Z.quot_div_nonneg by dlia. rewrite (proj2 (Z.ltb_ge _ 141)) by dlia.
      replace ((pos - 72192) / 65536) with ((pos / 512 - 141) / 128) by dlia.
      replace ((pos - 72192) mod 65536 / 512) with ((pos / 512 - 141) mod 128) by dlia.
      set (q := (pos / 512 - 141) / 128). unfold mbind, st_bind.
      assert (0 <= q < level_twos m /\ level_twos m <= 128) as [Hq Hlt] by (unfold q, level_twos; dlia).
      rewrite lift_zget by (rewrite Hlen; lia). fold (block_no i 14).
      destruct (index_read n σ σ i m (block_no i 14)) as (σ1 & -> & Hok1 & Hq1);
        [done|apply quiet_refl|done|apply elem_index; right; left; split; [dlia|done]|].
      fold (table σ (block_no i 14)). rewrite lift_zget by (rewrite length_table; lia).
      destruct (index_read n σ σ1 i m (znth 0 (table σ (block_no i 14)) q)) as (σ2 & -> & Hok2 & Hq2);
        [done|done|done|apply elem_index; right; right; by exists q|].
      rewrite lift_zget by (rewrite length_table_of_bytes; dlia). by exists σ2.
Qed.

Lemma byte_to_sector_past σ i pos : length_ i <= pos -> byte_to_sector i pos σ = Ok (u32 (-1), σ).
Proof. intros. unfold byte_to_sector. by rewrite (proj2 (Z.ltb_ge _ _)) by lia. Qed.

(** ** Fresh sectors *)

(** From [σ] to [σ'] exactly the sectors [fs] were allocated and, outside
    the free map's file, only sectors of [fs] and [W] were written. *)
Record grew (fs W : list Z) σ σ' : Prop := {
  gr_nsec : nsec σ' = nsec σ;
  gr_reserved : forall t, reserved σ' t <-> reserved σ t;
  gr_nodup : NoDup fs;
  gr_fresh : forall s, s ∈ fs -> in_dev σ s /\ ~ used σ s;
  gr_used : forall t, used σ' t <-> used σ t \/ t ∈ fs;
  gr_free : free_cnt σ = (length fs + free_cnt σ')%nat;
  gr_view : forall t, in_dev σ t -> ~ reserved σ t -> t ∉ fs -> t ∉ W -> view σ' t = view σ t;
  gr_cold : forall t, in_dev σ t -> ~ reserved σ t -> cold σ t -> cold σ' t
}.

Lemma grew_quiet σ σ' : quiet σ σ' -> grew [] [] σ σ'.
Proof.
  intros [[a1 a2 a3 a4] [a5 a6]]. split; try done; try (by constructor).
  - intros s Hs. by apply elem_of_nil in Hs.
  - intros t. rewrite a5, elem_of_nil. tauto.
  - intros. apply a3; tauto.
  - intros. apply a4; tauto.
Qed.

Lemma grew_refl σ : grew [] [] σ σ.
Proof. apply grew_quiet, quiet_refl. Qed.

Lemma grew_trans fs1 W1 fs2 W2 σ1 σ2 σ3 :
  grew fs1 W1 σ1 σ2 -> grew fs2 W2 σ2 σ3 -> grew (fs1 ++ fs2) (W1 ++ W2) σ1 σ3.
Proof.
  intros A B. destruct A as [a1 a2 a3 a4 a5 a6 a7 a8], B as [b1 b2 b3 b4 b5 b6 b7 b8].
  unfold in_dev in *. rewrite a1 in *.
  assert (forall s, s ∈ fs2 -> 0 <= s < nsec σ1 /\ ~ used σ1 s /\ s ∉ fs1) as Hfs2.
  { intros s Hs. destruct (b4 s Hs) as [? Hu]. rewrite a5 in Hu. tauto. }
  split; try congruence.
  - intros t. by rewrite b2, a2.
  - apply list.NoDup_app. split_and!; [done| |done]. intros s Hs1 Hs2. by destruct (Hfs2 s Hs2) as (_ & _ & ?).
  - intros s [Hs|Hs]%elem_of_app; [by apply a4|]. destruct (Hfs2 s Hs) as (? & ? & _). done.
  - intros t. rewrite b5, a5, elem_of_app. tauto.
  - rewrite a6, b6, length_app. lia.
  - intros t Ht Hr Hf HW. rewrite elem_of_app in Hf, HW.
    rewrite b7, a7; [done|done|done|tauto|tauto|done|by rewrite a2|tauto|tauto].
  - intros t Ht Hr Hc. apply b8; [done|by rewrite a2|by apply a8].
Qed.

Lemma grew_perm fs fs' W W' σ σ' :
  fs ≡ₚ fs' -> (forall t, t ∈ W -> t ∈ W' \/ t ∈ fs) -> grew fs W σ σ' -> grew fs' W' σ σ'.
Proof.
  intros Hp HW [a1 a2 a3 a4 a5 a6 a7 a8]. split; try done.
  - by rewrite <- Hp.
  - intros s. rewrite <- Hp. apply a4.
  - intros t. rewrite a5, Hp. done.
  - by rewrite a6, Hp.
  - intros t ? ? Hf HW'. rewrite <- Hp in Hf. apply a7; try done.
    intros Hin. destruct (HW t Hin); done.
Qed.

Lemma fresh_cold_grew n fs W σ σ' : env_ok n σ -> grew fs W σ σ' -> fresh_cold σ -> fresh_cold σ'.
Proof.
  intros Hok [a1 a2 a3 a4 a5 a6 a7 a8] Hc t Ht Hu. unfold in_dev in *. rewrite a1 in Ht.
  rewrite a5 in Hu. apply a8; [done| |apply Hc; [done|tauto]].
  intros Hr. apply Hu. left. by eapply env_reserved.
Qed.

Lemma fresh_unreserved n fs W σ σ' s :
  env_ok n σ -> grew fs W σ σ' -> s ∈ fs -> ~ reserved σ s.
Proof.
  intros Hok Hg Hs Hr. destruct (gr_fresh _ _ _ _ Hg s Hs) as [_ Hu]. apply Hu. by eapply env_reserved.
Qed.

(** A block_write between allocations. *)
Lemma write_grew n σ s buf :
  env_ok n σ -> in_dev σ s -> cold σ s -> ~ reserved σ s ->
  length buf = sector_bytes -> Forall is_byte buf ->
  exists σ', env_block_write s buf σ = Ok (tt, σ') /\ env_ok n σ' /\ grew [] [s] σ σ' /\ view σ' s = buf.
Proof.
  intros Hok Hs Hc Hr Hl Hb.
  destruct (env_block_write_ok n σ s buf) as (σ' & Hw & Hok' & [a1 a2 a3 a4] & [a5 a6] & Hv & Hcs); [done..|].
  exists σ'. split_and!; try done. split; try done; try (by constructor).
  - intros x Hx. by apply elem_of_nil in Hx.
  - intros t. rewrite a5, elem_of_nil. tauto.
  - intros t Ht _ _ HW. apply a3; [done|]. intros ->. apply HW. by apply list_elem_of_singleton.
  - intros t Ht _ Hct. destruct (decide (t = s)) as [->|]; [done|]. by apply a4.
Qed.

(** free_map_allocate into a table entry. *)
Lemma allocate_into_ok n σ t k :
  env_ok (env_cost + n) σ -> (0 < free_cnt σ)%nat -> 0 <= k < Z.of_nat (length t) ->
  exists s σ', allocate_into t k σ = Ok (<[Z.to_nat k := s]> t, σ') /\ env_ok n σ' /\ grew [s] [] σ σ'.
Proof.
  intros Hok Hfree Hk. unfold allocate_into, mbind, st_bind.
  destruct (env_allocate_ok n σ Hok Hfree) as (s & σ' & -> & Hok' & Hs & Hu & [a1 a2 a3 a4] & a5 & a6).
  exists s, σ'. unfold lift. rewrite zset_Ok by done. split_and!; try done. split; try done.
  - apply NoDup_singleton.
  - intros x ->%list_elem_of_singleton. done.
  - intros x. rewrite a5, list_elem_of_singleton. done.
  - intros x Hx Hr _ _. by apply a3.
Qed.

Lemma zeros_ok : length zeros = sector_bytes /\ Forall is_byte zeros.
Proof. split; [apply length_replicate|by apply bytes_replicate]. Qed.

Lemma allocate_zeroed_ok n σ t k :
  env_ok (env_cost + n) σ -> (0 < free_cnt σ)%nat -> fresh_cold σ -> 0 <= k < Z.of_nat (length t) ->
  exists s σ', allocate_zeroed t k σ = Ok (<[Z.to_nat k := s]> t, σ') /\ env_ok n σ' /\
    grew [s] [] σ σ' /\ view σ' s = zeros.
Proof.
  intros Hok Hfree Hcold Hk. unfold allocate_zeroed, mbind, st_bind.
  destruct (allocate_into_ok n σ t k Hok Hfree Hk) as (s & σ1 & -> & Hok1 & Hg).
  assert (znth 0 (<[Z.to_nat k := s]> t) k = s) as Hs
    by (rewrite znth_insert by lia; by rewrite decide_True).
  rewrite lift_zget by (by rewrite length_insert). rewrite Hs.
  destruct (gr_fresh _ _ _ _ Hg s) as [Hdev Hu]; [by apply list_elem_of_singleton|].
  assert (~ reserved σ s) as Hr by (intros Hr; by apply Hu, (env_reserved _ _ _ Hok)).
  destruct (write_grew n σ1 s zeros) as (σ2 & -> & Hok2 & Hg2 & Hv); try apply zeros_ok.
  - done.
  - unfold in_dev in *. by rewrite (gr_nsec _ _ _ _ Hg).
  - apply (gr_cold _ _ _ _ Hg); [done|done|by apply Hcold].
  - by rewrite (gr_reserved _ _ _ _ Hg).
  - exists s, σ2. split_and!; try done.
    eapply grew_perm; [| |exact (grew_trans _ _ _ _ _ _ _ Hg Hg2)]; [done|]. simpl. by right.
Qed.

(** [g] zeroed sectors into [t] from entry [k] on: the three loops of
    inode_grow. *)
Fixpoint fill (g : nat) (t : list Z) (k : Z) : st E (list Z) :=
  match g with
  | O => mret t
  | S g' => t' ← allocate_zeroed t k; fill g' t' (k + 1)
  end.

Lemma fill_ok g n σ t k :
  env_ok (g * env_cost + n) σ -> (g <= free_cnt σ)%nat -> fresh_cold σ ->
  0 <= k -> k + Z.of_nat g <= Z.of_nat (length t) ->
  exists fs σ', fill g t k σ = Ok (splice t (Z.to_nat k) fs, σ') /\ length fs = g /\ env_ok n σ' /\
    grew fs [] σ σ' /\ (forall s, s ∈ fs -> view σ' s = zeros).
Proof.
  revert n σ t k; induction g as [|g IH]; intros n σ t k Hok Hfree Hcold Hk Hl; simpl.
  - exists [], σ. rewrite splice_nil. split_and!; try done; [apply grew_refl|].
    intros s Hs. by apply elem_of_nil in Hs.
  - destruct (allocate_zeroed_ok (g * env_cost + n) σ t k) as (s & σ1 & Hrun & Hok1 & Hg1 & Hv1);
      [eapply env_ok_mono; [|exact Hok]; lia|lia|done|lia|].
    unfold mbind, st_bind. rewrite Hrun.
    pose proof (gr_free _ _ _ _ Hg1) as Hf1. simpl in Hf1.
    destruct (IH n σ1 (<[Z.to_nat k := s]> t) (k + 1)) as (fs & σ2 & -> & Hlen & Hok2 & Hg2 & Hz2);
      [done|lia|eauto using fresh_cold_grew|lia|rewrite length_insert; lia|].
    exists (s :: fs), σ2. split_and!; try done.
    + do 2 f_equal. replace (Z.to_nat (k + 1)) with (S (Z.to_nat k)) by lia.
      apply splice_cons. lia.
    + simpl. by rewrite Hlen.
    + exact (grew_trans _ _ _ _ _ _ _ Hg1 Hg2).
    + intros x [->|Hx]%elem_of_cons; [|by apply Hz2].
      destruct (gr_fresh _ _ _ _ Hg1 s) as [Hdev Hu]; [by apply list_elem_of_singleton|].
      rewrite (gr_view _ _ _ _ Hg2); [done|..].
      * unfold in_dev in *. by rewrite (gr_nsec _ _ _ _ Hg1).
      * rewrite (gr_reserved _ _ _ _ Hg1). intros Hr. by apply Hu, (env_reserved _ _ _ Hok).
      * intros Hx. destruct (gr_fresh _ _ _ _ Hg2 s Hx) as [_ Hu2]. apply Hu2.
        apply (gr_used _ _ _ _ Hg1). right. by apply list_elem_of_singleton.
      * apply not_elem_of_nil.
Qed.

(** ** The loops of inode_grow *)

Lemma grow_direct_fill n i σ :
  0 <= direct_count i ->
  let g := Nat.min n (Z.to_nat (13 - direct_count i)) in
  grow_direct n i σ =
    (t ← fill g (blocks i) (direct_count i);
     mret ((n - g)%nat, set_direct (direct_count i + Z.of_nat g) (set_blocks t i))) σ.
Proof.
  revert i σ; induction n as [|n IH]; intros i σ Hd g; unfold mbind, st_bind.
  - simpl. unfold mret, st_ret. destruct i; unfold set_direct, set_blocks; simpl. by rewrite Z.add_0_r.
  - cbn [grow_direct]. unfold DIRECT_BLOCKS. destruct (direct_count i <? 13) eqn:Elt.
    + unfold g. replace (Nat.min (S n) _) with (S (Nat.min n (Z.to_nat (13 - (direct_count i + 1))))) by lia.
      cbn [fill]. unfold mbind, st_bind.
      destruct (allocate_zeroed (blocks i) (direct_count i) σ) as [[b σ1]|]; [|done].
      rewrite IH by (simpl; lia). unfold mbind, st_bind. simpl.
      destruct (fill _ b _ σ1) as [[t σ2]|]; [|done]. unfold mret, st_ret, set_direct, set_blocks. simpl.
      do 4 f_equal. lia.
    + unfold g. replace (Nat.min (S n) _) with 0%nat by lia. cbn [fill].
      unfold mret, st_ret. destruct i; unfold set_direct, set_blocks; simpl. by rewrite Z.add_0_r.
Qed.

Lemma grow_indirect_fill n i t σ :
  0 <= indirect_count i ->
  let g := Nat.min n (Z.to_nat (128 - indirect_count i)) in
  grow_indirect n i t σ =
    (t' ← fill g t (indirect_count i);
     mret ((n - g)%nat, set_indirect (indirect_count i + Z.of_nat g) i, t')) σ.
Proof.
  revert i t σ; induction n as [|n IH]; intros i t σ Hd g; unfold mbind, st_bind.
  - simpl. unfold mret, st_ret. destruct i; unfold set_indirect; simpl. by rewrite Z.add_0_r.
  - cbn [grow_indirect]. unfold INDIRECT_BLOCK_ENTRIES. destruct (indirect_count i <? 128) eqn:Elt.
    + unfold g. replace (Nat.min (S n) _) with (S (Nat.min n (Z.to_nat (128 - (indirect_count i + 1))))) by lia.
      cbn [fill]. unfold mbind, st_bind.
      destruct (allocate_zeroed t (indirect_count i) σ) as [[b σ1]|]; [|done].
      rewrite IH by (simpl; lia). unfold mbind, st_bind. simpl.
      destruct (fill _ b _ σ1) as [[t' σ2]|]; [|done]. unfold mret, st_ret, set_indirect. simpl.
      do 5 f_equal. lia.
    + unfold g. replace (Nat.min (S n) _) with 0%nat by lia. cbn [fill].
      unfold mret, st_ret. destruct i; unfold set_indirect; simpl. by rewrite Z.add_0_r.
Qed.

Lemma grow_level_two_fill n i t k σ :
  0 <= k ->
  let g := Nat.min n (Z.to_nat (128 - k)) in
  grow_level_two n i t k σ =
    (t' ← fill g t k;
     mret ((n - g)%nat, set_double (double_indirect_count i + Z.of_nat g) i, t')) σ.
Proof.
  revert i t k σ; induction n as [|n IH]; intros i t k σ Hd g; unfold mbind, st_bind.
  - simpl. unfold mret, st_ret. destruct i; unfold set_double; simpl. by rewrite Z.add_0_r.
  - cbn [grow_level_two]. destruct (k <? 128) eqn:Elt.
    + unfold g. replace (Nat.min (S n) _) with (S (Nat.min n (Z.to_nat (128 - (k + 1))))) by lia.
      cbn [fill]. unfold mbind, st_bind.
      destruct (allocate_zeroed t k σ) as [[b σ1]|]; [|done].
      rewrite IH by lia. unfold mbind, st_bind. simpl.
      destruct (fill _ b _ σ1) as [[t' σ2]|]; [|done]. unfold mret, st_ret, set_double. simpl.
      do 5 f_equal. lia.
    + unfold g. replace (Nat.min (S n) _) with 0%nat by lia. cbn [fill].
      unfold mret, st_ret. destruct i; unfold set_double; simpl. by rewrite Z.add_0_r.
Qed.

(** ** Extending a represented file *)

(** The fields inode_grow does not touch. *)
Definition same_meta i i' : Prop :=
  dir_parent i' = dir_parent i /\ is_dir i' = is_dir i /\ start i' = start i /\
  length_ i' = length_ i /\ magic i' = magic i /\ unused i' = unused i.

(** From [n] to [n'] sectors: the old blocks keep their sectors, the new
    ones are fresh and zero. *)
Record extends fs σ i n σ' i' n' : Prop := {
  ex_le : n <= n';
  ex_grew : grew fs (index σ i n) σ σ';
  ex_rep : rep σ' i' n';
  ex_ptr : forall k, 0 <= k < n -> ptr σ' i' k = ptr σ i k;
  ex_new : forall k, n <= k < n' -> ptr σ' i' k ∈ fs /\ view σ' (ptr σ' i' k) = zeros;
  ex_index : forall t, t ∈ index σ' i' n' -> t ∈ index σ i n \/ t ∈ fs;
  ex_cnt : Z.of_nat (length fs) = n' - n + index_cnt n' - index_cnt n;
  ex_meta : same_meta i i'
}.

Lemma own_view fs W σ i n σ' t :
  rep σ i n -> grew fs W σ σ' -> t ∈ data σ i n ++ index σ i n -> t ∉ W -> view σ' t = view σ t.
Proof.
  intros Hrep Hg Ht HW. destruct (rep_own _ _ _ Hrep t Ht) as (Hd & Hu & Hr).
  apply (gr_view _ _ _ _ Hg); [done..| |done].
  intros Hf. by destruct (gr_fresh _ _ _ _ Hg t Hf).
Qed.

(** The representation of the grown file from the lists of new sectors. *)
Lemma rep_extend m fsd fsi W σ i n σ' i' n' :
  env_ok m σ -> fresh_cold σ -> rep σ i n -> grew (fsd ++ fsi) W σ σ' -> counts_ok i' n' ->
  data σ' i' n' = data σ i n ++ fsd -> index σ' i' n' ≡ₚ index σ i n ++ fsi -> rep σ' i' n'.
Proof.
  intros Hok Hcold Hrep Hg Hc Hd Hi.
  assert (data σ' i' n' ++ index σ' i' n' ≡ₚ (data σ i n ++ index σ i n) ++ (fsd ++ fsi)) as Hp.
  { rewrite Hd, Hi. solve_Permutation. }
  assert (forall t, t ∈ fsd ++ fsi -> in_dev σ t /\ ~ used σ t /\ ~ reserved σ t) as Hf.
  { intros t Ht. destruct (gr_fresh _ _ _ _ Hg t Ht). split_and!; try done.
    by eapply fresh_unreserved. }
  split; [done|..].
  - rewrite Hp. apply list.NoDup_app. split_and!; [apply (rep_nodup _ _ _ Hrep)| |apply (gr_nodup _ _ _ _ Hg)].
    intros t Ht Ht'. destruct (Hf t Ht') as (_ & Hu & _). by destruct (rep_own _ _ _ Hrep t Ht) as (_ & ? & _).
  - intros t. rewrite Hp. intros Ht. unfold in_dev.
    rewrite (gr_nsec _ _ _ _ Hg), (gr_reserved _ _ _ _ Hg), (gr_used _ _ _ _ Hg).
    apply elem_of_app in Ht as [Ht|Ht].
    + destruct (rep_own _ _ _ Hrep t Ht) as (? & ? & ?). unfold in_dev in *. tauto.
    + destruct (Hf t Ht) as (? & ? & ?). unfold in_dev in *. tauto.
  - intros t. rewrite Hi. intros [Ht|Ht]%elem_of_app.
    + destruct (rep_own _ _ _ Hrep t) as (? & ? & ?); [apply elem_of_app; by right|].
      apply (gr_cold _ _ _ _ Hg); [done..|]. by apply (rep_cold _ _ _ Hrep).
    + destruct (Hf t) as (? & ? & ?); [apply elem_of_app; by right|].
      apply (gr_cold _ _ _ _ Hg); [done..|]. by apply Hcold.
Qed.

Lemma seqZ_extend (f g : Z -> Z) n (l : list Z) :
  0 <= n -> (forall k, 0 <= k < n -> f k = g k) ->
  (forall k, 0 <= k < Z.of_nat (length l) -> f (n + k) = znth 0 l k) ->
  f <$> seqZ 0 (n + Z.of_nat (length l)) = (g <$> seqZ 0 n) ++ l.
Proof.
  intros Hn Hold Hnew. rewrite seqZ_app, fmap_app by lia. apply (f_equal2 app).
  - apply list_fmap_ext. intros j x Hx. apply lookup_seqZ in Hx as [-> ?]. apply Hold. lia.
  - apply list_eq. intros j. rewrite list_lookup_fmap, Z.add_0_l.
    destruct (decide (j < length l)%nat) as [Hj|Hj].
    + rewrite lookup_seqZ_lt by lia. simpl. rewrite Hnew by lia.
      rewrite <- (Nat2Z.id j) at 2. symmetry. apply znth_lookup. lia.
    + rewrite lookup_seqZ_ge by lia. simpl. symmetry. apply lookup_ge_None. lia.
Qed.

Lemma data_extend σ i n σ' i' fsd :
  0 <= n -> (forall k, 0 <= k < n -> ptr σ' i' k = ptr σ i k) ->
  (forall k, 0 <= k < Z.of_nat (length fsd) -> ptr σ' i' (n + k) = znth 0 fsd k) ->
  data σ' i' (n + Z.of_nat (length fsd)) = data σ i n ++ fsd.
Proof. apply seqZ_extend. Qed.

Lemma extends_refl σ i n : rep σ i n -> extends [] σ i n σ i n.
Proof.
  intros Hrep. split; try done.
  - eapply grew_perm; [done| |apply grew_refl]. intros t Ht. by apply elem_of_nil in Ht.
  - intros k Hk. lia.
  - intros t Ht. by left.
  - simpl. lia.
Qed.

Lemma extends_trans fs1 fs2 σ1 i1 n1 σ2 i2 n2 σ3 i3 n3 :
  rep σ1 i1 n1 -> extends fs1 σ1 i1 n1 σ2 i2 n2 -> extends fs2 σ2 i2 n2 σ3 i3 n3 ->
  extends (fs1 ++ fs2) σ1 i1 n1 σ3 i3 n3.
Proof.
  intros Hrep [a1 a2 a3 a4 a5 a6 a7 a8] [b1 b2 b3 b4 b5 b6 b7 b8].
  destruct (rep_counts _ _ _ Hrep) as [_ Hn _ _ _]. split; [lia| |done|..].
  - eapply grew_perm; [done| |exact (grew_trans _ _ _ _ _ _ _ a2 b2)].
    intros t [Ht|Ht]%elem_of_app; [by left|]. destruct (a6 t Ht); [by left|right].
    apply elem_of_app. by left.
  - intros k Hk. rewrite b4 by lia. by apply a4.
  - intros k Hk. destruct (decide (k < n2)) as [Hlt|Hge].
    + rewrite b4 by lia. destruct (a5 k) as [Hin Hz]; [lia|].
      split; [apply elem_of_app; by left|]. rewrite <- Hz.
      assert (ptr σ2 i2 k ∈ data σ2 i2 n2) as Hd by (apply data_in; lia).
      eapply own_view; [exact a3|exact b2|apply elem_of_app; by left|].
      intros Hi. pose proof (rep_nodup _ _ _ a3) as Hnd. apply list.NoDup_app in Hnd as (_ & Hdis & _).
      by apply (Hdis _ Hd).
    + destruct (b5 k) as [Hin Hz]; [lia|]. split; [apply elem_of_app; by right|done].
  - intros t Ht. rewrite elem_of_app. destruct (b6 t Ht) as [Ht'|]; [|tauto].
    destruct (a6 t Ht'); tauto.
  - rewrite length_app. lia.
  - unfold same_meta in *. intuition congruence.
Qed.

(** Rewriting index blocks with what they held extends by nothing. *)
Lemma index_same σ i n σ' :
  (forall t, t ∈ index σ i n -> view σ' t = view σ t) ->
  index σ' i n = index σ i n /\ forall k, 0 <= k < n -> ptr σ' i k = ptr σ i k.
Proof.
  intros Hv. assert (forall b, b ∈ index σ i n -> table σ' b = table σ b) as Ht
    by (intros; unfold table; by rewrite Hv).
  split.
  - unfold index. destruct (decide (141 < n)) as [Hb|Hb].
    + rewrite Ht; [done|]. apply elem_index. right; left. done.
    + unfold level_twos. rewrite seqZ_nil by dlia. done.
  - intros k Hk. unfold ptr.
    destruct (Z.ltb_spec k 13); [done|]. destruct (Z.ltb_spec k 141).
    + rewrite Ht; [done|]. apply elem_index. left. split; [lia|done].
    + assert (block_no i 14 ∈ index σ i n) by (apply elem_index; right; left; split; [lia|done]).
      rewrite (Ht (block_no i 14)) by done. rewrite Ht; [done|].
      apply elem_index. right; right. exists ((k - 141) / 128). split; [unfold level_twos; dlia|done].
Qed.

Lemma extends_same m W σ i n σ' :
  env_ok m σ -> fresh_cold σ -> rep σ i n -> grew [] W σ σ' -> (forall t, t ∈ W -> t ∈ index σ i n) ->
  (forall t, t ∈ index σ i n -> view σ' t = view σ t) -> extends [] σ i n σ' i n.
Proof.
  intros Hok Hcold Hrep Hg HW Hv. destruct (index_same σ i n σ' Hv) as [Hidx Hptr].
  split; [lia| | |done| | | |done].
  - eapply grew_perm; [done| |exact Hg]. intros t X. left. by apply HW.
  - eapply (rep_extend m [] []); [done|done|done|exact Hg|apply (rep_counts _ _ _ Hrep)| |].
    + rewrite app_nil_r. unfold data. apply list_fmap_ext. intros j x Hx.
      apply lookup_seqZ in Hx as [-> ?]. apply Hptr. lia.
    + by rewrite Hidx, app_nil_r.
  - intros k Hk. lia.
  - rewrite Hidx. by left.
  - simpl. lia.
Qed.

Lemma znth_in (fs : list Z) k : 0 <= k < Z.of_nat (length fs) -> znth 0 fs k ∈ fs.
Proof. intros Hk. eapply list_elem_of_lookup_2, znth_lookup. lia. Qed.

Lemma set_direct_id i : set_direct (direct_count i + Z.of_nat 0) (set_blocks (blocks i) i) = i.
Proof. destruct i. unfold set_direct, set_blocks. simpl. by rewrite Z.add_0_r. Qed.

Lemma index_small σ i n : n <= 13 -> index σ i n = [].
Proof.
  intros. unfold index, level_twos.
  rewrite !(proj2 (Z.ltb_ge _ _)) by lia. rewrite seqZ_nil; [done|dlia].
Qed.

Lemma index_cnt_small n : n <= 13 -> index_cnt n = 0.
Proof. intros. unfold index_cnt, level_twos. rewrite !(proj2 (Z.ltb_ge _ _)) by lia. dlia. Qed.

(** The direct blocks. *)
Lemma grow_direct_ok m σ i n r :
  let g := Nat.min r (Z.to_nat (13 - n)) in
  env_ok (g * env_cost + m) σ -> (g <= free_cnt σ)%nat -> fresh_cold σ -> rep σ i n ->
  exists fs σ' i', grow_direct r i σ = Ok (((r - g)%nat, i'), σ') /\ env_ok m σ' /\
    length fs = g /\ extends fs σ i n σ' i' (n + Z.of_nat g).
Proof.
  intros g Hok Hfree Hcold Hrep. destruct (rep_counts _ _ _ Hrep) as [Hlen Hn Hdc Hic Hdd].
  rewrite grow_direct_fill by lia. replace (Nat.min r _) with g by lia. unfold mbind, st_bind.
  destruct (fill_ok g m σ (blocks i) (direct_count i)) as (fs & σ' & -> & Hfl & Hok' & Hg & Hz);
    [done|done|done|lia|lia|].
  exists fs, σ'. eexists. split; [done|]. split; [done|]. split; [done|].
  destruct (decide (g = 0%nat)) as [E0|E0].
  { assert (fs = []) as -> by (destruct fs; [done|simpl in Hfl; lia]).
    rewrite splice_nil. rewrite E0. rewrite set_direct_id, Z.add_0_r.
    eapply extends_same; [exact Hok|done|done|exact Hg|..].
    - intros t X. by apply elem_of_nil in X.
    - intros t Ht. eapply own_view; [done|exact Hg|apply elem_of_app; by right|apply not_elem_of_nil]. }
  assert (n < 13) as Hn13 by lia. rewrite Hdc, Z.min_l in * by lia. rewrite <- Hfl.
  set (i' := set_direct _ _).
  assert (forall k, 0 <= k -> block_no i' k = if decide (n <= k < n + Z.of_nat (length fs))
     then znth 0 fs (k - n) else block_no i k) as Hb.
  { intros k Hk. unfold block_no, i'. cbn [blocks set_direct set_blocks]. apply znth_splice; lia. }
  assert (forall k, 0 <= k < n -> ptr σ' i' k = ptr σ i k) as Hold.
  { intros k Hk. unfold ptr. rewrite (proj2 (Z.ltb_lt _ _)) by lia. rewrite Hb by lia.
    by rewrite decide_False by lia. }
  assert (forall k, 0 <= k < Z.of_nat (length fs) -> ptr σ' i' (n + k) = znth 0 fs k) as Hnew.
  { intros k Hk. unfold ptr. rewrite (proj2 (Z.ltb_lt _ _)) by lia. rewrite Hb by lia.
    rewrite decide_True by lia. f_equal. lia. }
  split; [lia| | |done| | | |done].
  - eapply grew_perm; [done| |exact Hg]. intros t X. by apply elem_of_nil in X.
  - eapply (rep_extend _ fs []); [exact Hok|done|done|by rewrite app_nil_r| | |].
    + unfold MAX_SECTORS in *. split; unfold i', MAX_SECTORS;
        cbn [blocks direct_count indirect_count double_indirect_count set_direct set_blocks]; try lia.
      rewrite length_splice; lia.
    + by apply data_extend; [lia|..].
    + rewrite !index_small by lia. done.
  - intros k Hk. replace k with (n + (k - n)) by lia. rewrite Hnew by lia.
    split; [|apply Hz]; apply znth_in; lia.
  - intros t. rewrite !index_small by lia. intros X. by apply elem_of_nil in X.
  - rewrite !index_cnt_small by lia. lia.
Qed.

(** ** The indirect block *)

Definition junk_ok (j : stack_junk) : Prop :=
  Forall (fun t => length t = 128%nat /\ Forall is_word t) [junk_blocks j; junk_one j; junk_two j].

Lemma fresh_words n fs W σ σ' : env_ok n σ -> grew fs W σ σ' -> Forall is_word fs.
Proof.
  intros Hok Hg. apply list.Forall_forall. intros s Hs. destruct (gr_fresh _ _ _ _ Hg s Hs) as [[? ?] _].
  pose proof (env_nsec _ _ Hok). unfold is_word. lia.
Qed.

Lemma table_bytes_ok t : length t = 128%nat -> length (table_bytes t) = sector_bytes /\ Forall is_byte (table_bytes t).
Proof. intros Hl. split; [|apply words_are_bytes]. unfold table_bytes. by rewrite length_words_to_bytes, Hl. Qed.

Lemma index_mid σ i n : 13 < n <= 141 -> index σ i n = [block_no i 13].
Proof.
  intros. unfold index, level_twos.
  rewrite (proj2 (Z.ltb_lt 13 _)), (proj2 (Z.ltb_ge 141 _)) by lia. rewrite seqZ_nil; [done|dlia].
Qed.

Lemma index_cnt_mid n : 13 < n <= 141 -> index_cnt n = 1.
Proof.
  intros. unfold index_cnt, level_twos.
  rewrite (proj2 (Z.ltb_lt 13 _)), (proj2 (Z.ltb_ge 141 _)) by lia. dlia.
Qed.

Lemma block_no_insert i k b k' :
  length (blocks i) = 15%nat -> 0 <= k < 15 -> 0 <= k' ->
  block_no (set_blocks (<[Z.to_nat k := b]> (blocks i)) i) k' = if decide (k = k') then b else block_no i k'.
Proof. intros Hl Hk Hk'. unfold block_no. cbn [blocks set_blocks]. apply znth_insert; lia. Qed.

Definition one_if (b : bool) : nat := if b then 1%nat else 0%nat.

(** The table in memory before the loop: the old entries, or fresh. *)
Lemma load_indirect m σ i n (t0 : list Z) :
  env_ok (one_if (n =? 13) * env_cost + m) σ ->
  (one_if (n =? 13)%Z <= free_cnt σ)%nat ->
  rep σ i n -> 13 <= n <= 141 -> length t0 = 128%nat -> Forall is_word t0 ->
  exists fsi b t σ1,
    (if indirect_count i =? 0 then
       i' ← allocate_block i (NO_OF_BLOCKS - 2); mret (i', t0)
     else
       b ← lift (zget (blocks i) (NO_OF_BLOCKS - 2));
       l ← env_block_read b; mret (i, table_of_bytes l)) σ =
      Ok ((set_blocks (<[Z.to_nat 13 := b]> (blocks i)) i, t), σ1) /\
    env_ok m σ1 /\ grew fsi [] σ σ1 /\ index σ i n ++ fsi = [b] /\
    length t = 128%nat /\ Forall is_word t /\
    (forall k, 13 <= k < n -> znth 0 t (k - 13) = ptr σ i k) /\
    length fsi = one_if (n =? 13).
Proof.
  intros Hok Hfree Hrep Hn Hl Hw. destruct (rep_counts _ _ _ Hrep) as [Hlen _ _ Hic _].
  unfold NO_OF_BLOCKS, DIRECT_BLOCKS, INDIRECT_BLOCKS, DOUBLE_INDIRECT_BLOCKS.
  change (13 + 1 + 1 - 2) with 13. destruct (n =? 13) eqn:En; simpl in *.
  - assert (n = 13) as -> by lia. rewrite (proj2 (Z.eqb_eq _ _)) by lia. unfold allocate_block, mbind, st_bind.
    destruct (allocate_into_ok m σ (blocks i) 13) as (b & σ1 & -> & Hok1 & Hg);
      [eapply env_ok_mono; [|exact Hok]; lia|lia|lia|].
    exists [b], b, t0, σ1. split_and!; try done. intros k Hk. lia.
  - rewrite (proj2 (Z.eqb_neq _ _)) by lia. unfold mbind, st_bind.
    rewrite lift_zget by lia. fold (block_no i 13).
    destruct (index_read m σ σ i n (block_no i 13)) as (σ1 & -> & Hok1 & Hq);
      [done|apply quiet_refl|done|rewrite index_mid by lia; by apply list_elem_of_singleton|].
    exists [], (block_no i 13), (table σ (block_no i 13)), σ1. split_and!; try done.
    + rewrite list_insert_id; [by destruct i|]. apply (znth_lookup 0 (blocks i) 13). lia.
    + by apply grew_quiet.
    + by rewrite index_mid by lia.
    + eapply table_words; [exact Hok|]. apply (rep_own _ _ _ Hrep), elem_of_app. right.
      rewrite index_mid by lia. by apply list_elem_of_singleton.
    + intros k Hk. unfold ptr. rewrite (proj2 (Z.ltb_ge _ _)) by lia.
      by rewrite (proj2 (Z.ltb_lt _ _)) by lia.
Qed.

(** Storing the table: [b] is the index block, old or fresh. *)
Lemma store_table m σ σ2 fs fsi i n b t :
  env_ok m σ2 -> env_ok m σ -> fresh_cold σ -> rep σ i n ->
  grew (fsi ++ fs) [] σ σ2 -> b ∈ index σ i n ++ fsi ->
  length t = 128%nat -> Forall is_word t ->
  exists σ3, env_block_write b (table_bytes t) σ2 = Ok (tt, σ3) /\ env_ok m σ3 /\
    grew (fsi ++ fs) [b] σ σ3 /\ table σ3 b = t /\
    (forall x, x ∈ fs -> view σ3 x = view σ2 x) /\
    (forall x, x ∈ data σ i n ++ index σ i n -> x <> b -> view σ3 x = view σ x).
Proof.
  intros Hok2 Hok Hcold Hrep Hg Hb Hl Hw.
  assert (in_dev σ b /\ ~ reserved σ b /\ cold σ b) as (Hd & Hr & Hc).
  { apply elem_of_app in Hb as [Hb|Hb].
    - destruct (rep_own _ _ _ Hrep b) as (? & ? & ?); [apply elem_of_app; by right|].
      split_and!; try done. by apply (rep_cold _ _ _ Hrep).
    - assert (b ∈ fsi ++ fs) as Hb' by (apply elem_of_app; by left).
      destruct (gr_fresh _ _ _ _ Hg b Hb'). split_and!; [done|by eapply fresh_unreserved|by apply Hcold]. }
  assert (b ∉ fs) as Hbfs.
  { intros Hf. pose proof (gr_nodup _ _ _ _ Hg) as Hnd. apply list.NoDup_app in Hnd as (_ & Hdis & _).
    apply elem_of_app in Hb as [Hb|Hb]; [|by apply (Hdis b)].
    destruct (gr_fresh _ _ _ _ Hg b) as [_ Hu]; [apply elem_of_app; by right|].
    apply Hu. apply (rep_own _ _ _ Hrep), elem_of_app. by right. }
  destruct (table_bytes_ok t Hl) as [Htl Htb].
  destruct (write_grew m σ2 b (table_bytes t)) as (σ3 & -> & Hok3 & Hg3 & Hv); try done.
  - unfold in_dev in *. by rewrite (gr_nsec _ _ _ _ Hg).
  - by apply (gr_cold _ _ _ _ Hg).
  - by rewrite (gr_reserved _ _ _ _ Hg).
  - exists σ3. pose proof (grew_trans _ _ _ _ _ _ _ Hg Hg3) as Hg'. rewrite app_nil_r in Hg'. simpl in Hg'.
    split; [done|]. split; [done|]. split; [exact Hg'|]. split; [by apply table_written|]. split.
    + intros x Hx. assert (x ∈ fsi ++ fs) as Hx' by (apply elem_of_app; by right).
      destruct (gr_fresh _ _ _ _ Hg x Hx') as [Hxd Hxu].
      apply (gr_view _ _ _ _ Hg3).
      * unfold in_dev in *. by rewrite (gr_nsec _ _ _ _ Hg).
      * rewrite (gr_reserved _ _ _ _ Hg). by eapply fresh_unreserved.
      * apply not_elem_of_nil.
      * rewrite list_elem_of_singleton. by intros ->.
    + intros x Hx Hxb. eapply own_view; [done|exact Hg'|done|].
      rewrite list_elem_of_singleton. done.
Qed.

Lemma table_bytes_table n σ b : env_ok n σ -> in_dev σ b -> table_bytes (table σ b) = view σ b.
Proof.
  intros Hok Hb. destruct (env_view _ _ _ Hok Hb) as [Hl Hv].
  unfold table_bytes, table, table_of_bytes. by apply words_to_bytes_to_words.
Qed.

Lemma set_indirect_id i : set_indirect (indirect_count i + Z.of_nat 0) i = i.
Proof. destruct i. unfold set_indirect. simpl. by rewrite Z.add_0_r. Qed.

(** With the indirect block full, the second part rewrites it as it is. *)
Lemma grow_part_two_full m σ i n r j :
  env_ok m σ -> fresh_cold σ -> rep σ i n -> 141 <= n -> r <> 0%nat ->
  exists σ', grow_part_two j r i σ = Ok ((r, i), σ') /\ env_ok m σ' /\ extends [] σ i n σ' i n.
Proof.
  intros Hok Hcold Hrep Hn Hr. destruct (rep_counts _ _ _ Hrep) as [Hlen Hmax Hdc Hic Hdd].
  unfold grow_part_two. rewrite (proj2 (Nat.eqb_neq _ _)) by done.
  rewrite (proj2 (Z.eqb_neq (indirect_count i) 0)) by lia.
  unfold NO_OF_BLOCKS, DIRECT_BLOCKS, INDIRECT_BLOCKS, DOUBLE_INDIRECT_BLOCKS.
  change (13 + 1 + 1 - 2) with 13. unfold mbind, st_bind.
  rewrite lift_zget by lia. fold (block_no i 13). set (b := block_no i 13).
  assert (b ∈ index σ i n) as Hb by (apply elem_index; left; split; [lia|done]).
  destruct (rep_own _ _ _ Hrep b) as (Hbd & _ & _); [apply elem_of_app; by right|].
  destruct (index_read m σ σ i n b) as (σ1 & -> & Hok1 & Hq); [done|apply quiet_refl|done|done|].
  unfold mret, st_ret. simpl. rewrite grow_indirect_fill by lia.
  replace (Nat.min r _) with 0%nat by lia. unfold mbind, st_bind. simpl.
  unfold mret, st_ret. rewrite lift_zget by lia. fold (block_no i 13) b (table σ b).
  destruct (store_table m σ σ1 [] [] i n b (table σ b)) as (σ2 & -> & Hok2 & Hg2 & Htab & _ & Hvo);
    [done|done|done|done|by apply grew_quiet|by rewrite app_nil_r|apply length_table|by eapply table_words|].
  exists σ2. rewrite Nat.sub_0_r, set_indirect_id. split; [done|]. split; [done|].
  eapply extends_same; [exact Hok|done|done|exact Hg2| |].
  - intros t ->%list_elem_of_singleton. done.
  - intros t Ht. destruct (decide (t = b)) as [->|Htb].
    + rewrite <- (table_bytes_table m σ2 b), <- (table_bytes_table m σ b), Htab; try done.
      unfold in_dev in *. by rewrite (gr_nsec _ _ _ _ Hg2).
    + apply Hvo; [apply elem_of_app; by right|done].
Qed.

Lemma grow_part_two_partial m σ i n r j :
  let g := Nat.min r (Z.to_nat (141 - n)) in
  let a := one_if (n =? 13) in
  junk_ok j -> env_ok ((a + g) * env_cost + m) σ -> (a + g <= free_cnt σ)%nat -> fresh_cold σ ->
  rep σ i n -> r <> 0%nat -> 13 <= n < 141 ->
  exists fs σ' i', grow_part_two j r i σ = Ok (((r - g)%nat, i'), σ') /\ env_ok m σ' /\
    length fs = (a + g)%nat /\ extends fs σ i n σ' i' (n + Z.of_nat g).
Proof.
  intros g a Hj Hok Hfree Hcold Hrep Hr Hn. unfold grow_part_two.
  rewrite (proj2 (Nat.eqb_neq _ _)) by done.
  destruct (rep_counts _ _ _ Hrep) as [Hlen Hmax Hdc Hic Hdd].
  apply Forall_cons_1 in Hj as [[Hjl Hjw] _].
  destruct (load_indirect (g * env_cost + m) σ i n (junk_blocks j))
    as (fsi & b & t & σ1 & Hload & Hok1 & Hg1 & Hidx & Htl & Htw & Htp & Hfl); try done.
  { eapply env_ok_mono; [|exact Hok]. fold a. lia. } { fold a. lia. } { lia. }
  unfold mbind, st_bind in Hload |- *. rewrite Hload. clear Hload. fold a in Hfl. simpl.
  rewrite grow_indirect_fill by (simpl; lia). cbn [indirect_count set_blocks].
  replace (Nat.min r _) with g by lia. unfold mbind, st_bind.
  pose proof (gr_free _ _ _ _ Hg1) as Hf1.
  destruct (fill_ok g m σ1 t (indirect_count i)) as (fs & σ2 & -> & Hgl & Hok2 & Hg2 & Hz);
    [done|lia|eauto using fresh_cold_grew|lia|lia|].
  unfold mret, st_ret. simpl. unfold NO_OF_BLOCKS, DIRECT_BLOCKS, INDIRECT_BLOCKS, DOUBLE_INDIRECT_BLOCKS.
  change (13 + 1 + 1 - 2) with 13. rewrite lift_zget by (rewrite length_insert; lia).
  rewrite (znth_insert 0 _ 13 13) by lia. rewrite decide_True by done.
  pose proof (grew_trans _ _ _ _ _ _ _ Hg1 Hg2) as Hg12.
  set (t' := splice t (Z.to_nat (indirect_count i)) fs).
  assert (length t' = 128%nat) as Hl' by (unfold t'; rewrite length_splice; lia).
  assert (Forall is_word t') as Hw' by (apply Forall_splice; [done|eauto using fresh_words]).
  destruct (store_table m σ σ2 fs fsi i n b t') as (σ3 & -> & Hok3 & Hg3 & Htab & Hvz & Hvo);
    try done; [eapply env_ok_mono; [|exact Hok]; lia|rewrite Hidx; by apply list_elem_of_singleton|].
  set (i' := set_indirect _ _). exists (fs ++ fsi), σ3, i'. split; [done|]. split; [done|]. split; [rewrite length_app; lia|].
  assert (forall k, 0 <= k < 15 -> block_no i' k = if decide (13 = k) then b else block_no i k) as Hb
    by (intros k Hk; apply (block_no_insert i 13 b k); lia).
  assert (forall k, 13 <= k < n + Z.of_nat g -> ptr σ3 i' k = znth 0 t' (k - 13)) as Hp.
  { intros k Hk. unfold ptr. rewrite (proj2 (Z.ltb_ge _ _)), (proj2 (Z.ltb_lt _ _)) by lia.
    rewrite Hb by lia. rewrite decide_True by done. by rewrite Htab. }
  assert (forall k, 0 <= k < n -> ptr σ3 i' k = ptr σ i k) as Hold.
  { intros k Hk. destruct (decide (k < 13)) as [Hk13|Hk13].
    - unfold ptr. rewrite (proj2 (Z.ltb_lt _ _)) by lia. rewrite Hb by lia. by rewrite decide_False by lia.
    - rewrite Hp by lia. unfold t'. rewrite znth_splice by lia. rewrite decide_False by lia.
      apply Htp. lia. }
  assert (forall k, 0 <= k < Z.of_nat (length fs) -> ptr σ3 i' (n + k) = znth 0 fs k) as Hnew.
  { intros k Hk. rewrite Hp by lia. unfold t'. rewrite znth_splice by lia.
    rewrite decide_True by lia. f_equal. lia. }
  assert (index σ3 i' (n + Z.of_nat g) = [b]) as Hidx'.
  { rewrite index_mid by lia. rewrite Hb by lia. done. }
  assert (grew (fs ++ fsi) [b] σ σ3) as Hg3'
    by (eapply grew_perm; [apply Permutation_app_comm|by left|exact Hg3]).
  split; [lia| | |done| | | |done].
  - eapply grew_perm; [done| |exact Hg3']. intros x ->%list_elem_of_singleton.
    rewrite elem_of_app. assert (b ∈ index σ i n ++ fsi) as X by (rewrite Hidx; by apply list_elem_of_singleton).
    apply elem_of_app in X. tauto.
  - eapply (rep_extend _ fs fsi); [exact Hok|done|done|exact Hg3'| | |by rewrite Hidx', Hidx].
    + split; unfold i', MAX_SECTORS in *;
        cbn [blocks direct_count indirect_count double_indirect_count set_indirect set_blocks]; try lia.
      rewrite length_insert. lia.
    + rewrite <- Hgl. by apply data_extend; [lia|..].
  - intros k Hk. replace k with (n + (k - n)) by lia. rewrite Hnew by lia.
    assert (znth 0 fs (k - n) ∈ fs) by (apply znth_in; lia).
    split; [apply elem_of_app; by left|]. rewrite Hvz by done. by apply Hz.
  - intros x. rewrite Hidx', <- Hidx, !elem_of_app. tauto.
  - rewrite length_app, (index_cnt_mid (n + _)) by lia. unfold a, one_if in Hfl.
    destruct (Z.eqb_spec n 13) as [->|Hn13]; [rewrite index_cnt_small by lia|rewrite index_cnt_mid by lia]; lia.
Qed.

(** ** The double indirect block *)

(** One iteration of the outer loop that starts a level-two block. *)
Lemma level_two_block m σ i one two r :
  let g := Nat.min r 128 in
  env_ok ((1 + g) * env_cost + m) σ -> (1 + g <= free_cnt σ)%nat -> fresh_cold σ ->
  0 <= double_indirect_count i < 16384 -> double_indirect_count i mod 128 = 0 ->
  length one = 128%nat -> length two = 128%nat -> Forall is_word two ->
  let idx := double_indirect_count i / 128 in
  exists b fs σ', 
    (ot ← (if Z.rem (double_indirect_count i) 128 =? 0 then
             one' ← allocate_into one (Z.quot (double_indirect_count i) 128); mret (one', two)
           else
             b ← lift (zget one (Z.quot (double_indirect_count i) 128));
             l ← env_block_read b; mret (one, table_of_bytes l));
     let '(one, two) := (ot : list Z * list Z) in
     r ← grow_level_two r i two 0;
     let '(n, i', two) := r in
     b ← lift (zget one (Z.quot (double_indirect_count i) 128));
     env_block_write b (table_bytes two) ≫= fun _ => mret (n, i', one, two)) σ =
    Ok (((r - g)%nat, set_double (double_indirect_count i + Z.of_nat g) i,
         <[Z.to_nat idx := b]> one, splice two 0 fs), σ') /\
    length fs = g /\ env_ok m σ' /\ grew (b :: fs) [] σ σ' /\
    table σ' b = splice two 0 fs /\ (forall s, s ∈ fs -> view σ' s = zeros).
Proof.
  intros g Hok Hfree Hcold Hd Hmod Hl1 Hl2 Hw2 idx.
  rewrite Z.rem_mod_nonneg, Hmod, Z.quot_div_nonneg by lia. simpl. fold idx.
  assert (0 <= idx < 128) as Hidx by (unfold idx; dlia). unfold mbind, st_bind.
  destruct (allocate_into_ok (g * env_cost + m) σ one idx) as (b & σ1 & -> & Hok1 & Hg1);
    [eapply env_ok_mono; [|exact Hok]; lia|lia|lia|].
  unfold mret, st_ret. rewrite grow_level_two_fill by lia.
  replace (Nat.min r _) with g by lia. unfold mbind, st_bind.
  pose proof (gr_free _ _ _ _ Hg1) as Hf1. simpl in Hf1.
  destruct (fill_ok g m σ1 two 0) as (fs & σ2 & -> & Hgl & Hok2 & Hg2 & Hz);
    [done|lia|eauto using fresh_cold_grew|lia|lia|].
  unfold mret, st_ret. rewrite lift_zget by (rewrite length_insert; lia).
  rewrite znth_insert by lia. rewrite decide_True by done.
  destruct (gr_fresh _ _ _ _ Hg1 b) as [Hbd Hbu]; [by apply list_elem_of_singleton|].
  pose proof (grew_trans _ _ _ _ _ _ _ Hg1 Hg2) as Hg12.
  assert (~ reserved σ b) as Hbr by (intros X; by apply Hbu, (env_reserved _ _ _ Hok)).
  assert (b ∉ fs) as Hbf.
  { pose proof (gr_nodup _ _ _ _ Hg12) as Hnd. simpl in Hnd. by apply list.NoDup_cons in Hnd as [? _]. }
  set (t := splice two (Z.to_nat 0) fs).
  assert (length t = 128%nat) as Htl by (unfold t; rewrite length_splice; lia).
  assert (Forall is_word t) as Htw by (apply Forall_splice; [done|eauto using fresh_words]).
  destruct (table_bytes_ok t Htl) as [Hbl Hbb].
  destruct (write_grew m σ2 b (table_bytes t)) as (σ3 & -> & Hok3 & Hg3 & Hv); try done.
  { unfold in_dev in *. by rewrite (gr_nsec _ _ _ _ Hg12). }
  { apply (gr_cold _ _ _ _ Hg12); [done|done|by apply Hcold]. }
  { by rewrite (gr_reserved _ _ _ _ Hg12). }
  exists b, fs, σ3. split_and!; try done.
  - eapply grew_perm; [| |exact (grew_trans _ _ _ _ _ _ _ Hg12 Hg3)]; simpl.
    + by rewrite app_nil_r.
    + intros x ->%list_elem_of_singleton. right. apply elem_of_cons. by left.
  - by apply table_written.
  - intros x Hx. destruct (gr_fresh _ _ _ _ Hg2 x Hx) as [Hxd Hxu].
    rewrite (gr_view _ _ _ _ Hg3); [by apply Hz|..].
    + unfold in_dev in *. by rewrite (gr_nsec _ _ _ _ Hg2).
    + rewrite (gr_reserved _ _ _ _ Hg2). intros X. by apply Hxu, (env_reserved _ _ _ Hok1).
    + apply not_elem_of_nil.
    + rewrite list_elem_of_singleton. by intros ->.
Qed.

(** A later extension keeps the sectors of an earlier one. *)
Lemma grew_view_fresh n fs W fs' W' σ σ1 σ2 x :
  env_ok n σ -> grew fs W σ σ1 -> grew fs' W' σ1 σ2 -> x ∈ fs -> x ∉ W' -> view σ2 x = view σ1 x.
Proof.
  intros Hok H12 H23 Hx HW. destruct (gr_fresh _ _ _ _ H12 x Hx) as [Hd Hu].
  apply (gr_view _ _ _ _ H23).
  - unfold in_dev in *. by rewrite (gr_nsec _ _ _ _ H12).
  - rewrite (gr_reserved _ _ _ _ H12). by eapply fresh_unreserved.
  - intros X. destruct (gr_fresh _ _ _ _ H23 x X) as [_ Hn]. apply Hn.
    apply (gr_used _ _ _ _ H12). by right.
  - done.
Qed.

Definition blocks_for (r : nat) : nat := ((r + 127) / 128)%nat.

Lemma blocks_for_step r : (0 < r)%nat -> blocks_for r = S (blocks_for (r - Nat.min r 128)).
Proof.
  intros Hr. unfold blocks_for. destruct (decide (r <= 128)%nat).
  - replace (r - Nat.min r 128)%nat with 0%nat by lia.
    apply Nat2Z.inj. rewrite Nat2Z.inj_succ, !Nat2Z.inj_div. dlia.
  - replace (r - Nat.min r 128)%nat with (r - 128)%nat by lia.
    apply Nat2Z.inj. rewrite Nat2Z.inj_succ, !Nat2Z.inj_div. dlia.
Qed.

Lemma znth_cons {A} (d x : A) l k : 0 < k -> znth d (x :: l) k = znth d l (k - 1).
Proof. intros. unfold znth. by replace (Z.to_nat k) with (S (Z.to_nat (k - 1))) by lia. Qed.

Lemma grow_double_ok fuel r m σ i one two :
  (r <= fuel)%nat -> r = 0%nat \/ double_indirect_count i mod 128 = 0 ->
  0 <= double_indirect_count i -> double_indirect_count i + Z.of_nat r <= 16384 ->
  length one = 128%nat -> length two = 128%nat -> Forall is_word two ->
  env_ok ((blocks_for r + r) * env_cost + m) σ -> (blocks_for r + r <= free_cnt σ)%nat -> fresh_cold σ ->
  exists qs fs σ', grow_double fuel r i one two σ =
      Ok ((0%nat, set_double (double_indirect_count i + Z.of_nat r) i,
           splice one (Z.to_nat (double_indirect_count i / 128)) qs), σ') /\
    length qs = blocks_for r /\ length fs = r /\ env_ok m σ' /\ grew (fs ++ qs) [] σ σ' /\
    (forall k, 0 <= k < Z.of_nat r ->
       znth 0 (table σ' (znth 0 qs (k / 128))) (k mod 128) = znth 0 fs k) /\
    (forall s, s ∈ fs -> view σ' s = zeros).
Proof.
  revert r m σ i one two; induction fuel as [|fuel IH];
    intros r m σ i one two Hf Hmod Hd0 Hd1 Hl1 Hl2 Hw2 Hok Hfree Hcold.
  all: destruct (decide (r = 0%nat)) as [->|Hr]; [|try lia].
  1, 2: exists [], [], σ; rewrite splice_nil, Z.add_0_r; cbn [grow_double];
    rewrite andb_false_r; split_and!; try done;
    [unfold mret, st_ret; by destruct i|apply grew_refl|intros; lia|by intros s ?%elem_of_nil].
  destruct Hmod as [?|Hmod]; [done|].
  cbn [grow_double]. unfold DOUBLE_INDIRECT_BLOCK_ENTRIES.
  rewrite (proj2 (Z.ltb_lt _ _)), (proj2 (Nat.eqb_neq _ _)) by lia. cbn [andb negb].
  set (g := Nat.min r 128). pose proof (blocks_for_step r ltac:(lia)) as Hbf. fold g in Hbf.
  assert (g = Nat.min r 128) as Hg by done.
  destruct (level_two_block ((blocks_for (r - g) + (r - g)) * env_cost + m) σ i one two r)
    as (b & fs1 & σ1 & Hrun & Hfl & Hok1 & Hg1 & Htab & Hz1); try done.
  { eapply env_ok_mono; [|exact Hok]. fold g. rewrite Hbf. nia. } { fold g. lia. } { lia. }
  fold g in Hrun, Hfl.
  revert Hrun. unfold mbind, st_bind.
  match goal with |- match ?t with _ => _ end = _ -> _ =>
    destruct t as [[[one1 two1] σa]|]; [|done] end.
  destruct (grow_level_two r i two1 0 σa) as [[[[n2 i2] two2] σb]|]; [|done].
  destruct (lift (zget one1 _) σb) as [[b' σc]|]; [|done].
  destruct (env_block_write b' (table_bytes two2) σc) as [[[] σd]|]; [|done].
  intros Hrun. injection Hrun as -> -> -> -> ->.
  pose proof (gr_free _ _ _ _ Hg1) as Hf1. simpl in Hf1.
  set (idx := double_indirect_count i / 128) in *.
  assert (0 <= idx < 128) as Hidx by (unfold idx; dlia).
  destruct (IH (r - g)%nat m σ1 (set_double (double_indirect_count i + Z.of_nat g) i)
    (<[Z.to_nat idx := b]> one) (splice two 0 fs1))
    as (qs & fs2 & σ2 & Hrun & Hql & Hfl2 & Hok2 & Hg2 & Htab2 & Hz2);
    cbn [double_indirect_count set_double]; try done.
  { lia. } { destruct (decide (r <= 128)%nat); [left; lia|right]. replace g with 128%nat by lia. dlia. }
  { lia. } { lia. } { by rewrite length_insert. } { rewrite length_splice; lia. }
  { apply Forall_splice; [done|]. apply (fresh_words _ _ _ _ _ Hok) in Hg1. by apply Forall_cons_1 in Hg1 as [_ ?]. }
  { lia. } { eauto using fresh_cold_grew. }
  exists (b :: qs), (fs1 ++ fs2), σ2. split_and!.
  - rewrite Hrun. cbn [double_indirect_count set_double].
    assert (set_double (double_indirect_count i + Z.of_nat g + Z.of_nat (r - g))
      (set_double (double_indirect_count i + Z.of_nat g) i) = set_double (double_indirect_count i + Z.of_nat r) i)
      as -> by (unfold set_double; simpl; f_equal; lia).
    apply (f_equal (fun l => Ok (0%nat, set_double (double_indirect_count i + Z.of_nat r) i, l, σ2))).
    destruct (decide (r <= 128)%nat) as [Hle|Hgt].
    + assert (qs = []) as ->. { destruct qs; [done|]. replace (r - g)%nat with 0%nat in Hql by lia. done. }
      rewrite splice_nil, <- (splice_cons one (Z.to_nat idx) b []) by (simpl; lia). by rewrite splice_nil.
    + rewrite <- splice_cons.
      * f_equal. replace g with 128%nat by lia. unfold idx. dlia.
      * rewrite Hql. assert (Z.of_nat (blocks_for (r - g)) <= 127 - idx); [|lia].
        unfold blocks_for. rewrite Nat2Z.inj_div. unfold idx. replace g with 128%nat by lia. dlia.
  - simpl. by rewrite Hql, Hbf.
  - rewrite length_app. lia.
  - done.
  - eapply grew_perm; [|by left|exact (grew_trans _ _ _ _ _ _ _ Hg1 Hg2)]. simpl. solve_Permutation.
  - intros k Hk. rewrite znth_app by lia. rewrite Hfl. case_decide as Hkg.
    + replace (k / 128) with 0 by dlia. change (znth 0 (b :: qs) 0) with b.
      replace (table σ2 b) with (table σ1 b).
      * rewrite Htab, Z.mod_small by lia. rewrite (znth_splice 0 two fs1 0) by lia.
        rewrite decide_True by lia. f_equal. lia.
      * unfold table. f_equal. symmetry. eapply grew_view_fresh; [exact Hok|exact Hg1|exact Hg2| |apply not_elem_of_nil].
        apply elem_of_cons. by left.
    + assert (g = 128%nat) as Eg by lia. rewrite Eg in *.
      rewrite znth_cons by dlia. rewrite <- Htab2 by lia.
      change (Z.of_nat 128) with 128. replace ((k - 128) / 128) with (k / 128 - 1) by dlia.
      by replace ((k - 128) mod 128) with (k mod 128) by dlia.
  - intros s [Hs|Hs]%elem_of_app; [|by apply Hz2]. rewrite <- (Hz1 s Hs).
    eapply grew_view_fresh; [exact Hok|exact Hg1|exact Hg2| |apply not_elem_of_nil].
    apply elem_of_cons. by right.
Qed.

Lemma index_big σ i n :
  141 <= n -> index σ i n = block_no i 13 :: (if 141 <? n then [block_no i 14] else []) ++
    (znth 0 (table σ (block_no i 14)) <$> seqZ 0 (level_twos n)).
Proof. intros. unfold index. by rewrite (proj2 (Z.ltb_lt 13 _)) by lia. Qed.

(** Level one in memory before the outer loop. *)
Lemma load_double m σ i n (t0 : list Z) :
  env_ok (one_if (n =? 141) * env_cost + m) σ -> (one_if (n =? 141)%Z <= free_cnt σ)%nat ->
  rep σ i n -> 141 <= n -> (n - 141) mod 128 = 0 -> length t0 = 128%nat -> Forall is_word t0 ->
  exists fsi b t σ1,
    (if double_indirect_count i =? 0 then
       i' ← allocate_block i (NO_OF_BLOCKS - 1); mret (i', t0)
     else
       b ← lift (zget (blocks i) (NO_OF_BLOCKS - 1));
       l ← env_block_read b; mret (i, table_of_bytes l)) σ =
      Ok ((set_blocks (<[Z.to_nat 14 := b]> (blocks i)) i, t), σ1) /\
    env_ok m σ1 /\ grew fsi [] σ σ1 /\ b ∈ index σ i n ++ fsi /\ b <> block_no i 13 /\
    (forall q, 0 <= q < level_twos n -> b <> znth 0 (table σ (block_no i 14)) q) /\
    index σ i n ++ fsi ≡ₚ block_no i 13 :: b :: (znth 0 t <$> seqZ 0 ((n - 141) / 128)) /\
    length t = 128%nat /\ Forall is_word t /\
    (forall q, 0 <= q < (n - 141) / 128 -> znth 0 t q = znth 0 (table σ (block_no i 14)) q) /\
    length fsi = one_if (n =? 141).
Proof.
  intros Hok Hfree Hrep Hn Hmod Hl Hw. destruct (rep_counts _ _ _ Hrep) as [Hlen _ _ _ Hdd].
  unfold NO_OF_BLOCKS, DIRECT_BLOCKS, INDIRECT_BLOCKS, DOUBLE_INDIRECT_BLOCKS.
  change (13 + 1 + 1 - 1) with 14.
  assert (level_twos n = (n - 141) / 128) as Hlt by (unfold level_twos; dlia).
  destruct (n =? 141) eqn:En; simpl in *.
  - assert (n = 141) as -> by lia. rewrite (proj2 (Z.eqb_eq _ _)) by lia. unfold allocate_block, mbind, st_bind.
    destruct (allocate_into_ok m σ (blocks i) 14) as (b & σ1 & -> & Hok1 & Hg);
      [eapply env_ok_mono; [|exact Hok]; lia|lia|lia|].
    exists [b], b, t0, σ1. split_and!; try done.
    + apply elem_of_app. right. by apply list_elem_of_singleton.
    + intros ->. destruct (gr_fresh _ _ _ _ Hg (block_no i 13)) as [_ Hu]; [by apply list_elem_of_singleton|].
      apply Hu. apply (rep_own _ _ _ Hrep), elem_of_app. right. apply elem_index. left. split; [lia|done].
    + intros q Hq. change (level_twos 141) with 0 in Hq. lia.
    + intros q Hq. change ((141 - 141) / 128) with 0 in Hq. lia.
  - rewrite (proj2 (Z.eqb_neq _ _)) by lia. unfold mbind, st_bind.
    rewrite lift_zget by lia. fold (block_no i 14).
    assert (block_no i 14 ∈ index σ i n) as Hin by (apply elem_index; right; left; split; [lia|done]).
    destruct (index_read m σ σ i n (block_no i 14)) as (σ1 & -> & Hok1 & Hq); [done|apply quiet_refl|done|done|].
    pose proof (rep_nodup _ _ _ Hrep) as Hnd. apply list.NoDup_app in Hnd as (_ & _ & Hnd).
    rewrite index_big, (proj2 (Z.ltb_lt _ _)) in Hnd by lia. simpl in Hnd.
    apply list.NoDup_cons in Hnd as [Hn13 [Hn14 _]%list.NoDup_cons].
    exists [], (block_no i 14), (table σ (block_no i 14)), σ1. split_and!; try done.
    + rewrite list_insert_id; [by destruct i|]. apply (znth_lookup 0 (blocks i) 14). lia.
    + by apply grew_quiet.
    + by rewrite app_nil_r.
    + intros E14. apply Hn13. rewrite <- E14. apply elem_of_cons. by left.
    + intros q Hq' E14. apply Hn14. apply list_elem_of_fmap. exists q. split; [done|]. apply elem_of_seqZ. lia.
    + rewrite app_nil_r, index_big, (proj2 (Z.ltb_lt _ _)) by lia. by rewrite Hlt.
    + eapply table_words; [exact Hok|]. apply (rep_own _ _ _ Hrep), elem_of_app. by right.
Qed.

Lemma grow_part_three_ok m σ i n r j :
  let a := one_if ((n =? 141) && negb (r =? 0)%nat) in
  junk_ok j -> env_ok ((a + blocks_for r + r) * env_cost + m) σ ->
  (a + blocks_for r + r <= free_cnt σ)%nat -> fresh_cold σ -> rep σ i n ->
  r = 0%nat \/ (141 <= n /\ (n - 141) mod 128 = 0) -> n + Z.of_nat r <= MAX_SECTORS ->
  exists fs σ' i', grow_part_three j r i σ = Ok (i', σ') /\ env_ok m σ' /\
    extends fs σ i n σ' i' (n + Z.of_nat r).
Proof.
  intros a Hj Hok Hfree Hcold Hrep Hn Hmax. unfold grow_part_three.
  destruct (Nat.eqb_spec r 0) as [->|Hr].
  { exists [], σ, i. split_and!; [done|eapply env_ok_mono; [|exact Hok]; lia|].
    rewrite Z.add_0_r. by apply extends_refl. }
  destruct Hn as [?|[Hn Hmod]]; [done|].
  assert (a = one_if (n =? 141)) as Ha
    by (unfold a; by destruct (n =? 141)).
  clearbody a.
  destruct (rep_counts _ _ _ Hrep) as [Hlen _ Hdc Hic Hdd].
  apply Forall_cons_1 in Hj as [_ Hj]. apply Forall_cons_1 in Hj as [[Hjl Hjw] Hj].
  apply Forall_cons_1 in Hj as [[Hjl2 Hjw2] _]. unfold MAX_SECTORS in Hmax.
  destruct (load_double ((blocks_for r + r) * env_cost + m) σ i n (junk_one j))
    as (fsi & b & t & σ1 & Hload & Hok1 & Hg1 & Hbin & Hb13 & Hbq & Hidx & Htl & Htw & Htq & Hfl); try done.
  { eapply env_ok_mono; [|exact Hok]. lia. } { lia. }
  unfold mbind, st_bind in Hload |- *. rewrite Hload. clear Hload. simpl.
  pose proof (gr_free _ _ _ _ Hg1) as Hf1. set (i1 := set_blocks _ i).
  assert (double_indirect_count i1 = n - 141) as Hd1 by (unfold i1; simpl; lia).
  destruct (grow_double_ok r r m σ1 i1 t (junk_two j))
    as (qs & fs & σ2 & -> & Hql & Hgl & Hok2 & Hg2 & Hmap & Hz); rewrite ?Hd1;
    [lia|by right|lia|lia|done..|lia|eauto using fresh_cold_grew|].
  cbn [blocks set_double]. set (idx := (n - 141) / 128) in *.
  unfold NO_OF_BLOCKS, DIRECT_BLOCKS, INDIRECT_BLOCKS, DOUBLE_INDIRECT_BLOCKS.
  change (13 + 1 + 1 - 1) with 14. unfold i1 at 1. cbn [blocks set_blocks].
  rewrite lift_zget by (rewrite length_insert; lia).
  rewrite (znth_insert 0 _ 14 14) by lia. rewrite decide_True by done.
  assert (0 <= idx /\ n - 141 = 128 * idx) as [Hi0 Hi1] by (unfold idx; dlia).
  assert (idx + Z.of_nat (blocks_for r) <= 128) as Hi2
    by (unfold blocks_for; rewrite Nat2Z.inj_div; dlia).
  pose proof (grew_trans _ _ _ _ _ _ _ Hg1 Hg2) as Hg12.
  set (t' := splice t (Z.to_nat idx) qs).
  assert (length t' = 128%nat) as Hl' by (unfold t'; rewrite length_splice; lia).
  assert (Forall is_word (fs ++ qs)) as Hwfs by eauto using fresh_words.
  apply Forall_app in Hwfs as [_ Hwqs].
  assert (Forall is_word t') as Hw' by (by apply Forall_splice).
  destruct (store_table m σ σ2 (fs ++ qs) fsi i n b t') as (σ3 & -> & Hok3 & Hg3 & Htab & Hvz & Hvo);
    try done; [eapply env_ok_mono; [|exact Hok]; lia|].
  set (i' := set_double _ i1). exists (fs ++ qs ++ fsi), σ3, i'. split; [done|]. split; [done|].
  assert (forall k, 0 <= k < 15 -> block_no i' k = if decide (14 = k) then b else block_no i k) as Hb
    by (intros k Hk; apply (block_no_insert i 14 b k); lia).
  assert (forall x, x ∈ index σ i n -> x <> b -> table σ3 x = table σ x) as Htold
    by (intros x Hx Hxb; unfold table; rewrite Hvo; [done|apply elem_of_app; by right|done]).
  assert (forall k, 0 <= k < n -> ptr σ3 i' k = ptr σ i k) as Hold.
  { intros k Hk. unfold ptr. rewrite (Hb 13), (Hb 14) by lia. rewrite (decide_True (P := 14 = 14)) by done.
    rewrite (decide_False (P := 14 = 13)) by lia.
    destruct (Z.ltb_spec k 13); [rewrite Hb by lia; by rewrite decide_False by lia|].
    destruct (Z.ltb_spec k 141).
    - rewrite Htold; [done|apply elem_index; left; split; [lia|done]|done].
    - assert (0 <= (k - 141) / 128 < idx) as Hq by (unfold idx; dlia).
      assert (level_twos n = idx) as Hlt by (unfold level_twos, idx; dlia).
      rewrite Htab. unfold t'. rewrite znth_splice by lia. rewrite decide_False by lia.
      rewrite Htq by lia. rewrite Htold; [done| |].
      + apply elem_index. right; right. exists ((k - 141) / 128). split; [lia|done].
      + intros Eb. symmetry in Eb. revert Eb. apply Hbq. lia. }
  assert (forall k, 0 <= k < Z.of_nat (length fs) -> ptr σ3 i' (n + k) = znth 0 fs k) as Hnew.
  { intros k Hk. unfold ptr. rewrite !(proj2 (Z.ltb_ge _ _)) by lia. rewrite Hb by lia.
    rewrite decide_True by done. rewrite Htab. unfold t'.
    replace ((n + k - 141) / 128) with (idx + k / 128) by dlia.
    replace ((n + k - 141) mod 128) with (k mod 128) by dlia.
    assert (0 <= k / 128 < Z.of_nat (length qs)) as Hk128.
    { rewrite Hql. unfold blocks_for. rewrite Nat2Z.inj_div. dlia. }
    rewrite znth_splice by lia. rewrite decide_True by lia.
    replace (idx + k / 128 - idx) with (k / 128) by lia. rewrite <- Hmap by lia.
    unfold table. by rewrite Hvz by (apply elem_of_app; right; by apply znth_in). }
  assert (index σ3 i' (n + Z.of_nat r) ≡ₚ index σ i n ++ (qs ++ fsi)) as Hidx'.
  { rewrite index_big, (proj2 (Z.ltb_lt _ _)), (Hb 13), (Hb 14) by lia. rewrite decide_False, decide_True by lia.
    rewrite Htab. assert (level_twos (n + Z.of_nat r) = idx + Z.of_nat (length qs)) as ->.
    { rewrite Hql. unfold level_twos, blocks_for. rewrite Nat2Z.inj_div. dlia. }
    rewrite (seqZ_extend _ (znth 0 t)); [|lia|..].
    - transitivity ((block_no i 13 :: b :: (znth 0 t <$> seqZ 0 idx)) ++ qs); [done|].
      rewrite <- Hidx. solve_Permutation.
    - intros k Hk. unfold t'. rewrite znth_splice by lia. by rewrite decide_False by lia.
    - intros k Hk. unfold t'. rewrite znth_splice by lia. rewrite decide_True by lia. f_equal. lia. }
  assert (grew (fs ++ qs ++ fsi) [b] σ σ3) as Hg3'
    by (eapply grew_perm; [|by left|exact Hg3]; solve_Permutation).
  split; [lia| | |done| | | |done].
  - eapply grew_perm; [done| |exact Hg3']. intros x ->%list_elem_of_singleton.
    rewrite !elem_of_app. apply elem_of_app in Hbin. tauto.
  - eapply (rep_extend _ fs (qs ++ fsi)); [exact Hok|done|done|exact Hg3'| | |exact Hidx'].
    + split; unfold i', i1, MAX_SECTORS;
        cbn [blocks direct_count indirect_count double_indirect_count set_double set_blocks]; try lia.
      rewrite length_insert. lia.
    + rewrite <- Hgl. by apply data_extend; [lia|..].
  - intros k Hk. replace k with (n + (k - n)) by lia. rewrite Hnew by lia.
    assert (znth 0 fs (k - n) ∈ fs) by (apply znth_in; lia).
    split; [apply elem_of_app; by left|]. rewrite Hvz by (apply elem_of_app; by left). by apply Hz.
  - intros x. rewrite Hidx', !elem_of_app. tauto.
  - rewrite !length_app, Hgl, Hql, Hfl. pose proof (length_index σ3 i' (n + Z.of_nat r)) as HL.
    rewrite Hidx', !length_app in HL. pose proof (length_index σ i n). lia.
Qed.

Lemma grow_part_two_ok m σ i n r j :
  let g := Nat.min r (Z.to_nat (141 - n)) in
  let a := one_if ((n =? 13) && negb (r =? 0)%nat) in
  junk_ok j -> env_ok ((a + g) * env_cost + m) σ -> (a + g <= free_cnt σ)%nat -> fresh_cold σ ->
  rep σ i n -> r = 0%nat \/ 13 <= n ->
  exists fs σ' i', grow_part_two j r i σ = Ok (((r - g)%nat, i'), σ') /\ env_ok m σ' /\
    length fs = (a + g)%nat /\ extends fs σ i n σ' i' (n + Z.of_nat g).
Proof.
  intros g a Hj Hok Hfree Hcold Hrep Hn. destruct (decide (r = 0%nat)) as [->|Hr].
  { exists [], σ, i. split_and!; [done|eapply env_ok_mono; [|exact Hok]; lia|unfold a; by rewrite andb_false_r|].
    rewrite Z.add_0_r. by apply extends_refl. }
  destruct Hn as [?|Hn]; [done|]. destruct (decide (n < 141)) as [Hlt|Hge].
  - assert (a = one_if (n =? 13)) as Ha
      by (unfold a; rewrite (proj2 (Nat.eqb_neq r 0)) by done; by rewrite andb_true_r).
    rewrite Ha in *. apply grow_part_two_partial; (done || lia).
  - destruct (grow_part_two_full m σ i n r j) as (σ' & Hrun & Hok' & Hex);
      [eapply env_ok_mono; [|exact Hok]; lia|done|done|lia|done|].
    exists [], σ', i. replace g with 0%nat by lia. rewrite Nat.sub_0_r, Z.add_0_r.
    split_and!; try done. unfold a. by rewrite (proj2 (Z.eqb_neq n 13)) by lia.
Qed.

(** ** inode_grow *)

Definition sectors_for (len : Z) : Z := (len + 511) / 512.

Lemma bytes_to_sectors_ok len : 0 <= len < 2 ^ 31 - 512 -> bytes_to_sectors len = sectors_for len.
Proof.
  intros Hl. unfold bytes_to_sectors, sectors_for, BLOCK_SECTOR_SIZE.
  rewrite (s32_small (len + 512)) by lia. rewrite s32_small by lia. rewrite Z.quot_div_nonneg by lia.
  replace (len + 512 - 1) with (len + 511) by lia. apply u32_small. dlia.
Qed.

(** The sectors a growth from [n] to [n'] takes from the free map. *)
Definition needed (n n' : Z) : nat := Z.to_nat (n' - n + index_cnt n' - index_cnt n).

(** Growth that does not start inside a level-two block. *)
Definition grow_safe (n n' : Z) : Prop := n' = n \/ n <= 141 \/ (n - 141) mod 128 = 0.

Lemma rep_set_length σ i n len : rep σ i n -> rep σ (set_length len i) n.
Proof. intros [[] ? ? ?]. split; [split|..]; done. Qed.

Lemma needed_split n n' :
  0 <= n <= n' -> grow_safe n n' ->
  let r := Z.to_nat (n' - n) in
  let g1 := Nat.min r (Z.to_nat (13 - n)) in
  let n1 := n + Z.of_nat g1 in let r1 := (r - g1)%nat in
  let g2 := Nat.min r1 (Z.to_nat (141 - n1)) in
  let a2 := one_if ((n1 =? 13) && negb (r1 =? 0)%nat) in
  let n2 := n1 + Z.of_nat g2 in let r2 := (r1 - g2)%nat in
  let a3 := one_if ((n2 =? 141) && negb (r2 =? 0)%nat) in
  needed n n' = (g1 + ((a2 + g2) + (a3 + blocks_for r2 + r2)))%nat /\
  (r1 = 0%nat \/ 13 <= n1) /\ (r2 = 0%nat \/ (141 <= n2 /\ (n2 - 141) mod 128 = 0)) /\
  n2 + Z.of_nat r2 = n'.
Proof.
  intros Hn Hs r g1 n1 r1 g2 a2 n2 r2 a3.
  assert (r1 = 0%nat \/ 13 <= n1) as Hr1 by lia.
  assert (r2 = 0%nat \/ (141 <= n2 /\ (n2 - 141) mod 128 = 0)) as Hr2.
  { destruct (decide (r2 = 0%nat)) as [|Hne]; [by left|right].
    destruct Hs as [->|[Hs|Hs]]; [lia|split; [lia|]; replace n2 with 141 by lia; done|].
    destruct (decide (n <= 141)); [replace n2 with 141 by lia; done|].
    replace n2 with n by lia. split; [lia|done]. }
  split_and!; [|done|done|lia].
  assert (Z.of_nat a2 = (if (13 <? n') && negb (13 <? n) then 1 else 0)) as Ha2.
  { unfold a2. destruct (Z.eqb_spec n1 13), (Nat.eqb_spec r1 0), (Z.ltb_spec 13 n'), (Z.ltb_spec 13 n); simpl; lia. }
  assert (Z.of_nat a3 = (if (141 <? n') && negb (141 <? n) then 1 else 0)) as Ha3.
  { unfold a3. destruct (Z.eqb_spec n2 141), (Nat.eqb_spec r2 0), (Z.ltb_spec 141 n'), (Z.ltb_spec 141 n); simpl; lia. }
  assert (Z.of_nat (blocks_for r2) = level_twos n' - level_twos n) as Hq.
  { unfold blocks_for, level_twos. rewrite Nat2Z.inj_div.
    destruct (decide (r2 = 0%nat)) as [E0|E0].
    - rewrite E0. change (Z.of_nat (0 + 127) / Z.of_nat 128) with 0.
      assert (n' = n \/ n' <= 141) as [->| ]; [lia|lia|]. rewrite !Z.max_l by dlia. done.
    - assert (Z.of_nat r2 = n' - Z.max n 141) as Er by lia. rewrite Nat2Z.inj_add, Er.
      destruct Hs as [Hs|[Hs|Hs]]; [lia|dlia|]. dlia. }
  unfold needed, index_cnt. apply Nat2Z.inj. rewrite !Nat2Z.inj_add, Ha2, Ha3, Hq.
  assert (0 <= level_twos n' - level_twos n) by lia.
  assert (Z.of_nat g1 + Z.of_nat g2 + Z.of_nat r2 = n' - n) by lia.
  destruct (Z.ltb_spec 13 n'), (Z.ltb_spec 13 n), (Z.ltb_spec 141 n'), (Z.ltb_spec 141 n); simpl; lia.
Qed.

Lemma inode_grow_ok m σ i n len j :
  let n' := sectors_for len in
  junk_ok j -> rep σ i n -> n = sectors_for (length_ i) -> 0 <= length_ i <= len ->
  len <= 512 * MAX_SECTORS -> grow_safe n n' ->
  env_ok (needed n n' * env_cost + m) σ -> (needed n n' <= free_cnt σ)%nat -> fresh_cold σ ->
  exists fs σ' i', inode_grow j i len σ = Ok ((true, i'), σ') /\ env_ok m σ' /\
    extends fs σ (set_length len i) n σ' i' n'.
Proof.
  intros n' Hj Hrep Hn Hlen Hmax Hsafe Hok Hfree Hcold. unfold MAX_SECTORS in Hmax.
  assert (0 <= n <= n') as Hnn by (unfold n', sectors_for in *; dlia).
  assert (n' <= 16525) as Hn' by (unfold n', sectors_for; dlia).
  unfold inode_grow. rewrite !bytes_to_sectors_ok by lia. fold n'. rewrite <- Hn.
  rewrite u32_small by lia. apply (rep_set_length _ _ _ len) in Hrep. set (i0 := set_length len i) in *.
  destruct (needed_split n n' Hnn Hsafe) as (Hneed & Hr1 & Hr2 & Hfin).
  revert Hneed Hr1 Hr2 Hfin. cbv zeta. set (r := Z.to_nat (n' - n)).
  set (g1 := Nat.min r _). set (n1 := n + Z.of_nat g1). set (r1 := (r - g1)%nat).
  set (g2 := Nat.min r1 _). set (a2 := one_if _). set (n2 := n1 + Z.of_nat g2). set (r2 := (r1 - g2)%nat).
  set (a3 := one_if _). intros Hneed Hr1 Hr2 Hfin. rewrite Hneed in Hok, Hfree.
  destruct (n' - n =? 0) eqn:E0.
  { replace n' with n by lia. exists [], σ, i0. split_and!; [done|eapply env_ok_mono; [|exact Hok]; lia|].
    by apply extends_refl. }
  set (x3 := (a3 + blocks_for r2 + r2)%nat) in *. set (x2 := (a2 + g2)%nat) in *.
  destruct (grow_direct_ok (x2 * env_cost + (x3 * env_cost + m)) σ i0 n r)
    as (fs1 & σ1 & i1 & Hrun1 & Hok1 & Hfl1 & Hex1); fold g1; [eapply env_ok_mono; [|exact Hok]; lia|lia|done|done|].
  fold g1 r1 in Hrun1. fold g1 n1 in Hex1.
  assert (forall fs σa ia na σb ib nb, env_ok 0 σa -> extends fs σa ia na σb ib nb -> fresh_cold σa -> fresh_cold σb) as Hfc
    by (intros; eapply fresh_cold_grew; [done|by eapply ex_grew|done]).
  assert (free_cnt σ = (g1 + free_cnt σ1)%nat) as Hfr1.
  { rewrite (gr_free _ _ _ _ (ex_grew _ _ _ _ _ _ _ Hex1)). by rewrite Hfl1. }
  assert (env_ok 0 σ) as Hok0 by (eapply env_ok_mono; [|exact Hok]; lia).
  assert (env_ok 0 σ1) as Hok10 by (eapply env_ok_mono; [|exact Hok1]; lia).
  destruct (grow_part_two_ok (x3 * env_cost + m) σ1 i1 n1 r1 j)
    as (fs2 & σ2 & i2 & Hrun2 & Hok2 & Hfl2 & Hex2); fold g2 a2 x2; try done; [lia|eauto|by eapply ex_rep|].
  fold g2 r2 in Hrun2. fold g2 n2 in Hex2.
  pose proof (extends_trans _ _ _ _ _ _ _ _ _ _ _ Hrep Hex1 Hex2) as Hex12.
  assert (free_cnt σ1 = (x2 + free_cnt σ2)%nat) as Hfr2.
  { rewrite (gr_free _ _ _ _ (ex_grew _ _ _ _ _ _ _ Hex2)). by rewrite Hfl2. }
  assert (env_ok 0 σ2) as Hok20 by (eapply env_ok_mono; [|exact Hok2]; lia).
  destruct (grow_part_three_ok m σ2 i2 n2 r2 j)
    as (fs3 & σ3 & i3 & Hrun3 & Hok3 & Hex3); fold a3 x3; try done;
    [lia|eauto|by eapply ex_rep|unfold MAX_SECTORS; lia|].
  rewrite Hfin in Hex3. exists ((fs1 ++ fs2) ++ fs3), σ3, i3. unfold mbind, st_bind.
  rewrite Hrun1. cbn [fst snd]. rewrite Hrun2. cbn [fst snd]. rewrite Hrun3.
  split_and!; [done|done|]. by eapply extends_trans.
Qed.
End index.
