(* ===== verification/InodeData.v ===== *)
(** * The data path of an inode (src/filesys/inode.c)

    inode_read_at and inode_write_at against an abstract file, the list of
    its bytes.  A represented file ([file_rep]) reads as its bytes; a
    write, with the growth it needs, is a splice of the zero-extended
    bytes, and leaves every other file as it was. *)

From S2P Require Import Prelude Block InodeLayout InodeGrow.

Section file_data.
Context {E : Type} `{SectorEnvLaws E}.
Implicit Types (σ : E) (i : inode_disk) (c : list Z).

Definition fsize c : Z := Z.of_nat (length c).

(** The inode stands for the bytes [c]; the rest of the last sector is
    zero. *)
Record file_rep σ i c : Prop := {
  fr_len : length_ i = fsize c;
  fr_max : fsize c <= 512 * MAX_SECTORS;
  fr_bytes : Forall is_byte c;
  fr_rep : rep σ i (sectors_for (fsize c));
  fr_data : forall p, 0 <= p < 512 * sectors_for (fsize c) ->
    znth 0 (view σ (ptr σ i (p / 512))) (p mod 512) = znth 0 c p
}.

Definition own σ i c : list Z :=
  data σ i (sectors_for (fsize c)) ++ index σ i (sectors_for (fsize c)).

Lemma sectors_cover c : fsize c <= 512 * sectors_for (fsize c).
Proof. unfold sectors_for, fsize. dlia. Qed.

Lemma ptr_inj σ i n k k' :
  rep σ i n -> 0 <= k < n -> 0 <= k' < n -> ptr σ i k = ptr σ i k' -> k = k'.
Proof.
  intros Hrep Hk Hk' Heq. pose proof (rep_nodup _ _ _ Hrep) as Hnd.
  apply list.NoDup_app in Hnd as (Hnd & _ & _).
  assert (forall x, 0 <= x < n -> data σ i n !! Z.to_nat x = Some (ptr σ i x)) as Hl.
  { intros x Hx. unfold data. rewrite list_lookup_fmap, lookup_seqZ_lt by lia. simpl. do 2 f_equal. lia. }
  assert (Z.to_nat k = Z.to_nat k') by (eapply NoDup_lookup; [done|by apply Hl|rewrite Hl by done; by rewrite Heq]).
  lia.
Qed.

(** A change to sectors outside the index keeps the index. *)
Lemma rep_touch (W : Z -> Prop) σ i n σ' :
  rep σ i n -> same_but W σ σ' -> same_map σ σ' -> (forall t, t ∈ index σ i n -> ~ W t) ->
  rep σ' i n /\ index σ' i n = index σ i n /\ data σ' i n = data σ i n /\
  (forall k, 0 <= k < n -> ptr σ' i k = ptr σ i k).
Proof.
  intros Hrep [a1 a2 a3 a4] [a5 a6] HW.
  assert (forall t, t ∈ index σ i n -> in_dev σ t) as Hdev
    by (intros t Ht; apply (rep_own _ _ _ Hrep), elem_of_app; by right).
  destruct (index_same σ i n σ') as [Hidx Hptr]; [intros t Ht; apply a3; auto|].
  assert (data σ' i n = data σ i n) as Hdata.
  { unfold data. apply list_fmap_ext. intros j x Hx. apply lookup_seqZ in Hx as [-> ?]. apply Hptr. lia. }
  split; [|split; [exact Hidx|split; [exact Hdata|exact Hptr]]].
  split; rewrite ?Hidx, ?Hdata; try apply Hrep.
  - intros t Ht. unfold in_dev. rewrite a1, a2, a5. by apply (rep_own _ _ _ Hrep).
  - intros t Ht. apply a4; [auto..|]. by apply (rep_cold _ _ _ Hrep).
Qed.

(** A file depends on the contents, the cache state and the allocation of
    its own sectors only. *)
Lemma file_rep_transfer σ i c σ' :
  file_rep σ i c -> nsec σ' = nsec σ -> (forall t, t ∈ own σ i c -> reserved σ' t -> reserved σ t) ->
  (forall t, t ∈ own σ i c -> view σ' t = view σ t /\ used σ' t /\ (cold σ t -> cold σ' t)) ->
  file_rep σ' i c /\ own σ' i c = own σ i c.
Proof.
  intros [f1 f2 fb f3 f4] Hn Hres Ht. unfold own in *. set (n := sectors_for (fsize c)) in *.
  destruct (index_same σ i n σ') as [Hidx Hptr]; [intros t Hin; apply Ht, elem_of_app; by right|].
  assert (data σ' i n = data σ i n) as Hdata.
  { unfold data. apply list_fmap_ext. intros j x Hx. apply lookup_seqZ in Hx as [-> ?]. apply Hptr. lia. }
  split; [|by rewrite Hidx, Hdata]. split; [exact f1|exact f2|exact fb| |].
  - fold n. split; rewrite ?Hidx, ?Hdata; [exact (rep_counts _ _ _ f3)|exact (rep_nodup _ _ _ f3)|..].
    + intros t Hin. unfold in_dev. rewrite Hn. destruct (rep_own _ _ _ f3 t Hin) as (Hdv & ? & Hr).
      split; [exact Hdv|]. split; [by apply Ht|]. intros X. by apply Hr, Hres.
    + intros t Hin. apply Ht; [apply elem_of_app; by right|]. by apply (rep_cold _ _ _ f3).
  - fold n. intros p Hp. rewrite Hptr by dlia.
    destruct (Ht (ptr σ i (p / 512))) as [-> _]; [apply elem_of_app; left; apply data_in; dlia|].
    by apply f4.
Qed.

(** A change that misses all of a file's sectors keeps the file. *)
Lemma file_rep_frame (W : Z -> Prop) σ i c σ' :
  file_rep σ i c -> same_but W σ σ' -> same_map σ σ' -> (forall t, t ∈ own σ i c -> ~ W t) ->
  file_rep σ' i c /\ own σ' i c = own σ i c.
Proof.
  intros Hf [b1 b2 b3 b4] [m1 m2] HW. apply file_rep_transfer; [exact Hf|done|intros t _; apply b2|].
  intros t Ht. destruct (rep_own _ _ _ (fr_rep _ _ _ Hf) t Ht) as (? & ? & ?).
  split_and!; [apply b3; auto|by rewrite m1|intros Hc; apply b4; auto].
Qed.

(** *** Chunks *)

Lemma chunk_spec i c size offset :
  length_ i = fsize c -> fsize c <= 512 * MAX_SECTORS -> 0 <= offset < 2 ^ 31 -> 0 < size ->
  chunk i size offset = Z.min size (Z.min (fsize c - offset) (512 - offset mod 512)).
Proof.
  intros Hl Hm Ho Hs. unfold chunk, BLOCK_SECTOR_SIZE, MAX_SECTORS, fsize in *. rewrite Hl.
  rewrite s32_small by lia. rewrite Z.rem_mod_nonneg by lia.
  destruct (Z.ltb_spec (Z.of_nat (length c) - offset) (512 - offset mod 512));
    destruct (Z.ltb_spec size (Z.of_nat (length c) - offset));
    destruct (Z.ltb_spec size (512 - offset mod 512)); lia.
Qed.

(** The sector and the window of the sector behind a chunk of the file. *)
Lemma file_window m σ i c offset n :
  env_ok m σ -> file_rep σ i c -> 0 <= offset -> 0 <= n -> offset + n <= fsize c -> offset mod 512 + n <= 512 ->
  0 < n -> let s := ptr σ i (offset / 512) in
  s ∈ data σ i (sectors_for (fsize c)) /\ in_dev σ s /\
  window (view σ s) (Z.to_nat (offset mod 512)) (Z.to_nat n) = window c (Z.to_nat offset) (Z.to_nat n).
Proof.
  intros Hok Hf Ho Hn Hin Hsec Hpos s. pose proof (sectors_cover c) as Hcov.
  assert (s ∈ data σ i (sectors_for (fsize c))) as Hs by (apply data_in; dlia).
  assert (in_dev σ s) as Hdev by (apply (rep_own _ _ _ (fr_rep _ _ _ Hf)), elem_of_app; by left).
  split_and!; try done. destruct (env_view _ _ _ Hok Hdev) as [Hl _].
  apply (window_eq 0).
  - rewrite Hl. unfold sector_bytes. dlia.
  - unfold fsize in *. lia.
  - intros k Hk. rewrite !Z2Nat.id by dlia. rewrite <- (fr_data _ _ _ Hf) by lia.
    unfold s. replace ((offset + k) / 512) with (offset / 512) by dlia.
    f_equal. dlia.
Qed.

(** *** Reading *)

(** A cache access to a data sector. *)
Lemma data_touch σ i c s σ' :
  file_rep σ i c -> s ∈ data σ i (sectors_for (fsize c)) ->
  same_but (fun t => t = s) σ σ' -> same_map σ σ' ->
  rep σ' i (sectors_for (fsize c)) /\ own σ' i c = own σ i c /\
  (forall k, 0 <= k < sectors_for (fsize c) -> ptr σ' i k = ptr σ i k).
Proof.
  intros Hf Hs Hb Hm. pose proof (fr_rep _ _ _ Hf) as Hrep.
  destruct (rep_touch _ σ i (sectors_for (fsize c)) σ' Hrep Hb Hm) as (Hrep' & Hidx & Hdata & Hptr).
  { intros t Ht ->. pose proof (rep_nodup _ _ _ Hrep) as Hnd. apply list.NoDup_app in Hnd as (_ & Hdis & _).
    by apply (Hdis s). }
  split; [exact Hrep'|]. split; [|exact Hptr]. unfold own. by rewrite Hidx, Hdata.
Qed.

(** Everything a read leaves as it was. *)
Record read_only i c σ σ' : Prop := {
  ro_but : same_but (fun t => t ∈ data σ i (sectors_for (fsize c))) σ σ';
  ro_map : same_map σ σ';
  ro_view : forall t, in_dev σ t -> view σ' t = view σ t
}.

Lemma read_only_refl i c σ : read_only i c σ σ.
Proof. split; [split|split|]; auto; by intros. Qed.

Lemma same_map_trans σ1 σ2 σ3 : same_map σ1 σ2 -> same_map σ2 σ3 -> same_map σ1 σ3.
Proof. intros [a1 a2] [b1 b2]. split; [intros t; by rewrite b1, a1|congruence]. Qed.

Lemma same_but_trans (W : Z -> Prop) σ1 σ2 σ3 : same_but W σ1 σ2 -> same_but W σ2 σ3 -> same_but W σ1 σ3.
Proof.
  intros [a1 a2 a3 a4] [b1 b2 b3 b4]. unfold in_dev in *. rewrite a1 in *. split.
  - congruence.
  - intros t. by rewrite b2, a2.
  - intros t Ht HW. rewrite b3, a3; auto.
  - intros t Ht HW Hc. apply b4; auto.
Qed.

Lemma same_but_weaken (W W' : Z -> Prop) σ σ' :
  (forall t, W t -> W' t) -> same_but W σ σ' -> same_but W' σ σ'.
Proof. intros HW [a1 a2 a3 a4]. split; auto. Qed.

Lemma data_touched σ i c σ' : 
  own σ' i c = own σ i c -> data σ' i (sectors_for (fsize c)) = data σ i (sectors_for (fsize c)).
Proof.
  unfold own. intros Ho. apply app_inj_1 in Ho as [? _]; [done|]. unfold data. by rewrite !length_fmap.
Qed.

Lemma read_step m σ i c offset n :
  env_ok (S m) σ -> file_rep σ i c -> 0 <= offset -> 0 < n -> offset + n <= fsize c -> offset mod 512 + n <= 512 ->
  exists σ', (sector_idx ← byte_to_sector i offset;
              env_cache_read sector_idx (offset mod 512) n) σ =
      Ok (window c (Z.to_nat offset) (Z.to_nat n), σ') /\ env_ok m σ' /\
    file_rep σ' i c /\ own σ' i c = own σ i c /\ read_only i c σ σ'.
Proof.
  intros Hok Hf Ho Hn Hin Hsec. pose proof (sectors_cover c) as Hcov.
  destruct (byte_to_sector_ok (S m) σ i (sectors_for (fsize c)) offset) as (σ1 & Hb & Hok1 & Hq);
    [done|apply (fr_rep _ _ _ Hf)|rewrite (fr_len _ _ _ Hf); lia|lia|].
  unfold mbind, st_bind. rewrite Hb. destruct Hq as [Hqb Hqm].
  destruct (file_rep_frame _ σ i c σ1 Hf Hqb Hqm) as [Hf1 Hown1]; [tauto|].
  pose proof (data_touched _ _ _ _ Hown1) as Hdata1.
  destruct (file_window (S m) σ i c offset n) as (Hs & Hdev & Hw); [done..|lia|done|done|done|].
  set (s := ptr σ i (offset / 512)) in *.
  destruct (env_cache_read_ok m σ1 s (offset mod 512) n) as (σ2 & -> & Hok2 & Hb2 & Hm2 & Hv2);
    [done|unfold in_dev in *; by rewrite (sb_nsec _ _ _ Hqb)| |dlia|lia|unfold BLOCK_SECTOR_SIZE; lia|].
  { rewrite (sb_reserved _ _ _ Hqb). apply (rep_own _ _ _ (fr_rep _ _ _ Hf)), elem_of_app. by left. }
  rewrite (sb_view _ _ _ Hqb) in Hv2 |- * by tauto. exists σ2. rewrite Hw. split; [done|]. split; [done|].
  assert (s ∈ data σ1 i (sectors_for (fsize c))) as Hs1 by (by rewrite Hdata1).
  assert (forall t, in_dev σ t -> view σ2 t = view σ t) as Hview.
  { intros t Ht. destruct (decide (t = s)) as [->|Hts]; [done|].
    rewrite (sb_view _ _ _ Hb2), (sb_view _ _ _ Hqb); [done|done|tauto| |done].
    unfold in_dev in *. by rewrite (sb_nsec _ _ _ Hqb). }
  destruct (data_touch σ1 i c s σ2 Hf1 Hs1 Hb2 Hm2) as (Hrep2 & Hown2 & Hptr2).
  split_and!.
  - split; [apply Hf..|exact Hrep2|]. intros p Hp. rewrite Hptr2 by dlia.
    rewrite <- (fr_data _ _ _ Hf1 p Hp). f_equal.
    assert (in_dev σ1 (ptr σ1 i (p / 512))) as Hd1
      by (apply (rep_own _ _ _ (fr_rep _ _ _ Hf1)), elem_of_app; left; apply data_in; dlia).
    assert (in_dev σ (ptr σ1 i (p / 512))) by (unfold in_dev in *; by rewrite (sb_nsec _ _ _ Hqb) in Hd1).
    rewrite Hview by done. symmetry. by apply (sb_view _ _ _ Hqb); [|tauto].
  - congruence.
  - split; [|by eapply same_map_trans|done].
    eapply same_but_trans; [eapply same_but_weaken; [|exact Hqb]; by intros ? []|].
    eapply same_but_weaken; [|exact Hb2]. intros t ->. exact Hs.
Qed.

Lemma read_loop_ok fuel m σ i c size offset acc :
  (Z.to_nat size <= fuel)%nat -> env_ok (Z.to_nat size + m) σ -> file_rep σ i c ->
  0 <= size -> 0 <= offset -> offset + size < 2 ^ 31 ->
  exists σ', read_loop fuel i size offset acc σ =
      Ok (acc ++ window c (Z.to_nat offset) (Z.to_nat size), σ') /\ env_ok m σ' /\
    file_rep σ' i c /\ own σ' i c = own σ i c /\ read_only i c σ σ'.
Proof.
  revert m σ size offset acc; induction fuel as [|fuel IH]; intros m σ size offset acc Hfuel Hok Hf Hs Ho Hb.
  all: destruct (decide (size = 0)) as [->|Hs0]; [|try lia].
  1, 2: exists σ; simpl; rewrite app_nil_r; split; [done|]; split; [done|];
    split; [exact Hf|]; split; [done|apply read_only_refl].
  cbn [read_loop]. rewrite (proj2 (Z.ltb_lt _ _)) by lia.
  pose proof (chunk_spec i c size offset (fr_len _ _ _ Hf) (fr_max _ _ _ Hf) ltac:(lia) ltac:(lia)) as Hc.
  unfold BLOCK_SECTOR_SIZE. rewrite Z.rem_mod_nonneg by lia.
  destruct (decide (offset < fsize c)) as [Hlt|Hge].
  - assert (0 < chunk i size offset) as Hpos by dlia. rewrite (proj2 (Z.leb_gt _ _)) by lia.
    set (n := chunk i size offset) in *.
    destruct (read_step (Z.to_nat size - 1 + m) σ i c offset n) as (σ1 & Hrun & Hok1 & Hf1 & Hown1 & Hro1);
      [eapply env_ok_mono; [|exact Hok]; lia|done|lia|lia|lia|dlia|].
    unfold mbind, st_bind in Hrun |- *. destruct (byte_to_sector i offset σ) as [[s σb]|]; [|done].
    rewrite Hrun. unfold fsize in *. rewrite s32_small by lia.
    destruct (IH m σ1 (size - n) (offset + n) (acc ++ window c (Z.to_nat offset) (Z.to_nat n)))
      as (σ2 & -> & Hok2 & Hf2 & Hown2 & Hro2);
      [lia|eapply env_ok_mono; [|exact Hok1]; lia|done|lia..|].
    exists σ2. rewrite <- app_assoc. replace (Z.to_nat (offset + n)) with (Z.to_nat offset + Z.to_nat n)%nat by lia.
    rewrite window_app. replace (Z.to_nat n + Z.to_nat (size - n))%nat with (Z.to_nat size) by lia.
    split; [done|]. split; [done|]. split; [exact Hf2|]. split; [congruence|].
    pose proof (data_touched _ _ _ _ Hown1) as Hdata. unfold fsize in Hdata.
    destruct Hro1 as [r1 r2 r3], Hro2 as [s1 s2 s3]. unfold fsize in *. rewrite Hdata in s1. split.
    + by eapply same_but_trans.
    + by eapply same_map_trans.
    + intros t Ht. rewrite s3, r3; [done|done|]. unfold in_dev in *. by rewrite (sb_nsec _ _ _ r1).
  - unfold mbind, st_bind. rewrite byte_to_sector_past by (rewrite (fr_len _ _ _ Hf); lia).
    rewrite (proj2 (Z.leb_le _ _)) by lia. exists σ.
    assert (window c (Z.to_nat offset) (Z.to_nat size) = []) as ->.
    { unfold window. rewrite drop_ge by (unfold fsize in *; lia). apply take_nil. }
    rewrite app_nil_r. split; [done|]. split; [eapply env_ok_mono; [|exact Hok]; lia|].
    split; [exact Hf|]. split; [done|apply read_only_refl].
Qed.

(** *** Writing *)

(** What a write may change: the file's data sectors; new sectors and the
    index are accounted for by the growth. *)
Record wrote i c σ σ' : Prop := {
  wr_but : same_but (fun t => t ∈ data σ i (sectors_for (fsize c))) σ σ';
  wr_map : same_map σ σ'
}.

Lemma fsize_splice c k src : (k + length src <= length c)%nat -> fsize (splice c k src) = fsize c.
Proof. intros. unfold fsize. by rewrite length_splice. Qed.

Lemma own_size σ i c c' : fsize c = fsize c' -> own σ i c = own σ i c'.
Proof. intros Hc. unfold own. by rewrite Hc. Qed.

Lemma write_step m σ i c offset src :
  env_ok (S m) σ -> file_rep σ i c -> 0 <= offset -> (0 < length src)%nat -> Forall is_byte src ->
  offset + fsize src <= fsize c -> offset mod 512 + fsize src <= 512 ->
  exists σ', (sector_idx ← byte_to_sector i offset;
              env_cache_write sector_idx src (offset mod 512)) σ = Ok (tt, σ') /\ env_ok m σ' /\
    file_rep σ' i (splice c (Z.to_nat offset) src) /\ own σ' i c = own σ i c /\ wrote i c σ σ'.
Proof.
  intros Hok Hf Ho Hn Hby Hin Hsec. pose proof (sectors_cover c) as Hcov. unfold fsize in Hin, Hsec, Hcov.
  destruct (byte_to_sector_ok (S m) σ i (sectors_for (fsize c)) offset) as (σ1 & Hb & Hok1 & Hq);
    [done|apply (fr_rep _ _ _ Hf)|rewrite (fr_len _ _ _ Hf); unfold fsize; lia|unfold fsize; lia|].
  unfold mbind, st_bind. rewrite Hb. destruct Hq as [Hqb Hqm].
  destruct (file_rep_frame _ σ i c σ1 Hf Hqb Hqm) as [Hf1 Hown1]; [tauto|].
  pose proof (data_touched _ _ _ _ Hown1) as Hdata1.
  assert (0 <= offset / 512 < sectors_for (fsize c)) as Hkr by (unfold fsize; dlia).
  set (s := ptr σ i (offset / 512)) in *.
  assert (s ∈ data σ i (sectors_for (fsize c))) as Hs by (by apply data_in).
  assert (in_dev σ s /\ used σ s /\ ~ reserved σ s) as (Hdev & _ & Hres)
    by (apply (rep_own _ _ _ (fr_rep _ _ _ Hf)), elem_of_app; by left).
  assert (in_dev σ1 s) as Hdev1 by (unfold in_dev in *; by rewrite (sb_nsec _ _ _ Hqb)).
  destruct (env_cache_write_ok m σ1 s src (offset mod 512)) as (σ2 & -> & Hok2 & Hb2 & Hm2 & Hv2);
    [done|done|by rewrite (sb_reserved _ _ _ Hqb)|dlia|unfold BLOCK_SECTOR_SIZE; lia|done|].
  exists σ2. split; [done|]. split; [done|].
  assert (s ∈ data σ1 i (sectors_for (fsize c))) as Hs1 by (by rewrite Hdata1).
  destruct (data_touch σ1 i c s σ2 Hf1 Hs1 Hb2 Hm2) as (Hrep2 & Hown2 & Hptr2).
  assert (fsize (splice c (Z.to_nat offset) src) = fsize c) as Hsz by (apply fsize_splice; lia).
  destruct (rep_touch _ σ i (sectors_for (fsize c)) σ1 (fr_rep _ _ _ Hf) Hqb Hqm) as (_ & _ & _ & Hptr1); [tauto|].
  split; [|split; [congruence|]].
  - split; rewrite ?Hsz; [apply Hf|apply Hf|apply Forall_splice; [apply Hf|done]|exact Hrep2|].
    intros p Hp. rewrite Hptr2 by dlia.
    rewrite znth_splice by lia. unfold fsize in Hp.
    destruct (decide (p / 512 = offset / 512)) as [Hsame|Hdiff].
    + rewrite Hsame, Hptr1 by done. fold s. rewrite Hv2.
      destruct (env_view _ _ _ Hok1 Hdev1) as [Hl _].
      rewrite znth_splice by (rewrite ?Hl; unfold sector_bytes; dlia).
      destruct (decide (offset mod 512 <= p mod 512 < offset mod 512 + Z.of_nat (length src))) as [X|X].
      * rewrite decide_True by dlia. f_equal. dlia.
      * rewrite decide_False by dlia. rewrite <- (fr_data _ _ _ Hf1 p) by (unfold fsize; lia).
        by rewrite Hsame, Hptr1.
    + rewrite decide_False by dlia. rewrite <- (fr_data _ _ _ Hf1 p) by (unfold fsize; lia). f_equal.
      assert (ptr σ1 i (p / 512) ∈ data σ1 i (sectors_for (fsize c))) by (apply data_in; unfold fsize; dlia).
      apply (sb_view _ _ _ Hb2).
      * apply (rep_own _ _ _ (fr_rep _ _ _ Hf1)), elem_of_app. by left.
      * unfold s. rewrite <- Hptr1 by done. intros Heq. apply Hdiff.
        apply (ptr_inj σ1 i (sectors_for (fsize c))); [apply Hf1|unfold fsize; dlia|done|done].
  - split; [|by eapply same_map_trans].
    eapply same_but_trans; [eapply same_but_weaken; [|exact Hqb]; by intros ? []|].
    eapply same_but_weaken; [|exact Hb2]. intros t ->. exact Hs.
Qed.

Lemma splice_splice {A} (l : list A) k s1 s2 :
  (k + length s1 + length s2 <= length l)%nat ->
  splice (splice l k s1) (k + length s1) s2 = splice l k (s1 ++ s2).
Proof.
  intros Hl. apply list_eq. intros j. rewrite !lookup_splice; rewrite ?length_app, ?length_splice; try lia.
  destruct (decide (k + length s1 <= j < k + length s1 + length s2)%nat) as [X|X].
  - rewrite decide_True by lia. rewrite lookup_app_r by lia. f_equal. lia.
  - case_decide as Y.
    + rewrite decide_True by lia. by rewrite lookup_app_l by lia.
    + by rewrite decide_False by lia.
Qed.

Lemma write_loop_ok fuel m σ i c buf offset done_ :
  (length buf <= fuel)%nat -> env_ok (length buf + m) σ -> file_rep σ i c -> Forall is_byte buf ->
  0 <= offset -> offset + fsize buf <= fsize c ->
  exists σ', write_loop fuel i buf offset done_ σ = Ok (done_ + fsize buf, σ') /\ env_ok m σ' /\
    file_rep σ' i (splice c (Z.to_nat offset) buf) /\ own σ' i c = own σ i c /\ wrote i c σ σ'.
Proof.
  revert m σ c buf offset done_; induction fuel as [|fuel IH]; intros m σ c buf offset dn Hfuel Hok Hf Hby Ho Hb.
  all: destruct (decide (buf = [])) as [->|Hne]; [|destruct buf as [|x buf']; [done|simpl in Hfuel; try lia]].
  1, 2: exists σ; rewrite splice_nil; unfold fsize; simpl; rewrite Z.add_0_r; split; [done|]; split; [done|];
    split; [exact Hf|]; split; [done|split; [split|split]; auto; by intros].
  cbn [write_loop]. set (buf := x :: buf') in *. unfold fsize in Hb.
  assert (0 < Z.of_nat (length buf)) as Hsz by (simpl; lia).
  rewrite (proj2 (Z.ltb_lt _ _)) by lia.
  pose proof (fr_max _ _ _ Hf) as Hmax. unfold MAX_SECTORS, fsize in Hmax.
  pose proof (chunk_spec i c (Z.of_nat (length buf)) offset (fr_len _ _ _ Hf) (fr_max _ _ _ Hf) ltac:(lia) Hsz) as Hc.
  unfold fsize in Hc. set (n := chunk i (Z.of_nat (length buf)) offset) in *.
  assert (0 < n <= Z.of_nat (length buf)) as Hn by dlia. rewrite (proj2 (Z.leb_gt _ _)) by lia.
  assert (length (take (Z.to_nat n) buf) = Z.to_nat n) as Htl by (rewrite length_take; lia).
  destruct (write_step (length buf - 1 + m) σ i c offset (take (Z.to_nat n) buf))
    as (σ1 & Hrun & Hok1 & Hf1 & Hown1 & Hwr1); unfold fsize; rewrite ?Htl;
    [eapply env_ok_mono; [|exact Hok]; lia|exact Hf|lia|lia|by apply Forall_take|lia|dlia|].
  unfold BLOCK_SECTOR_SIZE. rewrite Z.rem_mod_nonneg by lia.
  unfold mbind, st_bind in Hrun |- *. destruct (byte_to_sector i offset σ) as [[s σb]|]; [|done].
  rewrite Hrun. rewrite s32_small by lia.
  set (c1 := splice c (Z.to_nat offset) (take (Z.to_nat n) buf)) in *.
  assert (fsize c1 = fsize c) as Hc1 by (apply fsize_splice; lia).
  destruct (IH m σ1 c1 (drop (Z.to_nat n) buf) (offset + n) (dn + n))
    as (σ2 & -> & Hok2 & Hf2 & Hown2 & Hwr2).
  { rewrite length_drop. simpl length. lia. }
  { eapply env_ok_mono; [|exact Hok1]. rewrite length_drop. lia. }
  { exact Hf1. } { by apply Forall_drop. } { lia. }
  { rewrite Hc1. unfold fsize. rewrite length_drop. lia. }
  exists σ2. split.
  { do 2 f_equal. unfold fsize. rewrite length_drop. lia. }
  split; [done|]. split.
  { replace (splice c (Z.to_nat offset) buf) with (splice c1 (Z.to_nat (offset + n)) (drop (Z.to_nat n) buf)); [exact Hf2|].
    unfold c1. rewrite <- (take_drop (Z.to_nat n) buf) at 3. rewrite <- splice_splice.
    - rewrite Htl. f_equal. lia.
    - rewrite Htl, length_drop. lia. }
  rewrite !(own_size _ _ c1 c) in Hown2 by done. split; [congruence|].
  destruct Hwr1 as [r1 r2], Hwr2 as [s1 s2]. rewrite Hc1 in s1. rewrite (data_touched _ _ _ _ Hown1) in s1.
  split; [by eapply same_but_trans|by eapply same_map_trans].
Qed.

(** *** Growth and writing *)

Lemma extends_data fs σ i n σ' i' n' :
  rep σ i n -> extends fs σ i n σ' i' n' ->
  (forall t, t ∈ data σ i n -> t ∈ data σ' i' n') /\
  (forall t, t ∈ data σ' i' n' -> t ∈ data σ i n \/ t ∈ fs) /\
  (forall k, 0 <= k < n -> view σ' (ptr σ i k) = view σ (ptr σ i k)).
Proof.
  intros Hrep [a1 a2 a3 a4 a5 a6 a7 a8]. destruct (rep_counts _ _ _ Hrep) as [_ Hn _ _ _].
  split_and!.
  - intros t Ht. apply elem_data in Ht as (k & Hk & ->). rewrite <- a4 by done. apply data_in. lia.
  - intros t Ht. apply elem_data in Ht as (k & Hk & ->). destruct (decide (k < n)) as [Hkn|Hkn].
    + left. rewrite a4 by lia. apply data_in. lia.
    + right. apply a5. lia.
  - intros k Hk. assert (ptr σ i k ∈ data σ i n) as Hin by (by apply data_in).
    eapply own_view; [exact Hrep|exact a2|apply elem_of_app; by left|].
    intros Hi. pose proof (rep_nodup _ _ _ Hrep) as Hnd. apply list.NoDup_app in Hnd as (_ & Hdis & _).
    by apply (Hdis _ Hin).
Qed.

(** inode_grow extends the file with zero bytes. *)
Lemma grow_file m σ i c len j :
  let n := sectors_for (fsize c) in let n' := sectors_for len in
  junk_ok j -> file_rep σ i c -> fsize c <= len -> len <= 512 * MAX_SECTORS -> grow_safe n n' ->
  env_ok (needed n n' * env_cost + m) σ -> (needed n n' <= free_cnt σ)%nat -> fresh_cold σ ->
  exists fs σ' i', inode_grow j i len σ = Ok ((true, i'), σ') /\ env_ok m σ' /\
    file_rep σ' i' (c ++ replicate (Z.to_nat (len - fsize c)) 0) /\
    same_meta (set_length len i) i' /\ grew fs (index σ i n) σ σ' /\ length fs = needed n n' /\
    forall t, t ∈ own σ' i' (c ++ replicate (Z.to_nat (len - fsize c)) 0) -> t ∈ own σ i c \/ t ∈ fs.
Proof.
  intros n n' Hj Hf Hle Hmax Hsafe Hok Hfree Hcold. pose proof (fr_len _ _ _ Hf) as Hlen.
  destruct (inode_grow_ok m σ i n len j) as (fs & σ' & i' & Hrun & Hok' & Hex);
    try done; [apply Hf|by rewrite Hlen|unfold fsize in *; lia|].
  pose proof (fr_rep _ _ _ Hf) as Hrep.
  apply (rep_set_length _ _ _ len) in Hrep.
  destruct (extends_data _ _ _ _ _ _ _ Hrep Hex) as (Hd1 & Hd2 & Hd3).
  set (c' := c ++ replicate _ 0).
  assert (fsize c' = len) as Hc' by (unfold c', fsize in *; rewrite length_app, length_replicate; lia).
  exists fs, σ', i'. split; [done|]. split; [done|]. fold n' in Hex.
  assert (ex : same_meta (set_length len i) i') by (by eapply ex_meta).
  split; [split|split; [exact ex|split; [apply (ex_grew _ _ _ _ _ _ _ Hex)|split]]].
  - rewrite Hc'. by destruct ex as (_ & _ & _ & -> & _).
  - by rewrite Hc'.
  - apply Forall_app. split; [apply Hf|by apply bytes_replicate].
  - rewrite Hc'. apply (ex_rep _ _ _ _ _ _ _ Hex).
  - rewrite Hc'. fold n'. intros p Hp. unfold c'. rewrite znth_pad by lia.
    pose proof (sectors_cover c) as Hcov. fold n in Hcov. unfold fsize in Hcov.
    destruct (decide (p / 512 < n)) as [Hpn|Hpn].
    + rewrite (ex_ptr _ _ _ _ _ _ _ Hex) by dlia. rewrite Hd3 by dlia.
      apply (fr_data _ _ _ Hf p). fold n. dlia.
    + destruct (ex_new _ _ _ _ _ _ _ Hex (p / 512)) as [_ ->]; [dlia|].
      unfold zeros. rewrite znth_replicate. symmetry. apply znth_default. dlia.
  - pose proof (ex_cnt _ _ _ _ _ _ _ Hex). unfold needed. fold n'. lia.
  - unfold own. rewrite Hc'. fold n n'. intros t. rewrite !elem_of_app. intros [Ht|Ht].
    + destruct (Hd2 t Ht); [left; by left|by right].
    + destruct (ex_index _ _ _ _ _ _ _ Hex t Ht); [left; by right|by right].
Qed.

(** The bytes of the file after a write of [buf] at [off]. *)
Definition write_result c (off : Z) (buf : list Z) : list Z :=
  splice (c ++ replicate (Z.to_nat (off + fsize buf - fsize c)) 0) (Z.to_nat off) buf.

(** Allocated sectors outside [L] are left alone. *)
Record others_same (L : list Z) σ σ' : Prop := {
  os_nsec : nsec σ' = nsec σ;
  os_reserved : forall t, reserved σ' t <-> reserved σ t;
  os_view : forall t, in_dev σ t -> used σ t -> ~ reserved σ t -> t ∉ L -> view σ' t = view σ t;
  os_cold : forall t, in_dev σ t -> used σ t -> ~ reserved σ t -> t ∉ L -> cold σ t -> cold σ' t;
  os_used : forall t, used σ t -> used σ' t
}.

Lemma others_quiet L σ σ' : quiet σ σ' -> others_same L σ σ'.
Proof.
  intros [[b1 b2 b3 b4] [m1 m2]].
  split; [done|done|intros; apply b3; tauto|intros; apply b4; tauto|intros t; by rewrite m1].
Qed.

Lemma others_trans L L' σ1 σ2 σ3 :
  (forall t, t ∈ L' -> used σ1 t -> t ∈ L) ->
  others_same L σ1 σ2 -> others_same L' σ2 σ3 -> others_same L σ1 σ3.
Proof.
  intros HL [a1 a2 a3 a4 a5] [b1 b2 b3 b4 b5]. unfold in_dev in *. rewrite a1 in *. split.
  - done.
  - intros t. by rewrite b2, a2.
  - intros t Ht Hu Hr Hn. rewrite b3; [by apply a3|done|by apply a5|by rewrite a2|intros X; by apply Hn, HL].
  - intros t Ht Hu Hr Hn Hc. apply b4; [done|by apply a5|by rewrite a2|intros X; by apply Hn, HL|by apply a4].
  - auto.
Qed.

Lemma others_grew fs W L σ σ' : grew fs W σ σ' -> (forall t, t ∈ W -> t ∈ L) -> others_same L σ σ'.
Proof.
  intros [g1 g2 g3 g4 g5 g6 g7 g8] HW. split; try done.
  - intros t Ht Hu Hr Hn. apply g7; auto. intros Hf. by destruct (g4 t Hf).
  - intros t Ht Hu Hr Hn. by apply g8.
  - intros t Hu. apply g5. by left.
Qed.

Lemma others_wrote i c σ σ' : wrote i c σ σ' -> others_same (data σ i (sectors_for (fsize c))) σ σ'.
Proof. intros [[b1 b2 b3 b4] [m1 m2]]. split; try done; [intros; by apply b3|intros; by apply b4|intros t; by rewrite m1]. Qed.

Lemma file_rep_others L σ σ' i2 c2 :
  others_same L σ σ' -> file_rep σ i2 c2 -> (forall t, t ∈ own σ i2 c2 -> t ∉ L) -> file_rep σ' i2 c2.
Proof.
  intros [o1 o2 o3 o4 o5] Hf Hdis. eapply file_rep_transfer; [exact Hf|done|intros t _; apply o2|].
  intros t Ht. destruct (rep_own _ _ _ (fr_rep _ _ _ Hf) t Ht) as (? & ? & ?).
  split_and!; [apply o3; auto|by apply o5|intros Hc; apply o4; auto].
Qed.

Lemma write_at_ok m σ i c off buf j :
  let len := Z.max (fsize c) (off + fsize buf) in
  let n := sectors_for (fsize c) in let n' := sectors_for len in
  junk_ok j -> file_rep σ i c -> Forall is_byte buf -> 0 <= off -> off + fsize buf <= 512 * MAX_SECTORS ->
  grow_safe n n' -> env_ok (needed n n' * env_cost + (length buf + m)) σ ->
  (needed n n' <= free_cnt σ)%nat -> fresh_cold σ ->
  exists σ' i', write_at j i buf off σ = Ok ((fsize buf, i'), σ') /\ env_ok m σ' /\
    file_rep σ' i' (write_result c off buf) /\ others_same (own σ i c) σ σ' /\
    same_meta (set_length len i) i' /\ (free_cnt σ = needed n n' + free_cnt σ')%nat.
Proof.
  intros len n n' Hj Hf Hby Ho Hmax Hsafe Hok Hfree Hcold. unfold write_at.
  pose proof (fr_len _ _ _ Hf) as Hlen. pose proof (fr_max _ _ _ Hf) as Hcm.
  assert (exists fs σ1 i1, (if length_ i <? s32 (off + Z.of_nat (length buf)) then
      r ← inode_grow j i (s32 (off + Z.of_nat (length buf))); mret r.2 else mret i) σ = Ok (i1, σ1) /\
    env_ok (length buf + m) σ1 /\ file_rep σ1 i1 (c ++ replicate (Z.to_nat (len - fsize c)) 0) /\
    same_meta (set_length len i) i1 /\ grew fs (index σ i n) σ σ1 /\ length fs = needed n n' /\
    forall t, t ∈ own σ1 i1 (c ++ replicate (Z.to_nat (len - fsize c)) 0) -> t ∈ own σ i c \/ t ∈ fs)
    as (fs & σ1 & i1 & Hrun & Hok1 & Hf1 & Hmeta & Hg & Hfs & Hown).
  { unfold MAX_SECTORS, fsize in *. rewrite s32_small by lia. rewrite Hlen.
    destruct (Z.ltb_spec (Z.of_nat (length c)) (off + Z.of_nat (length buf))) as [Hlt|Hge].
    - replace (off + Z.of_nat (length buf)) with len by lia.
      destruct (grow_file (length buf + m) σ i c len j) as (fs & σ1 & i1 & Hrun & R);
        try done; unfold MAX_SECTORS, fsize; try lia; try done.
      exists fs, σ1, i1. unfold mbind, st_bind. rewrite Hrun. by split.
    - exists [], σ, i. replace len with (Z.of_nat (length c)) by lia.
      assert (n' = n) as Hnn by (unfold n, n'; f_equal; lia).
      rewrite Z.sub_diag. simpl. rewrite app_nil_r. split; [done|].
      split; [eapply env_ok_mono; [|exact Hok]; lia|]. split; [exact Hf|].
      split; [rewrite <- Hlen; by destruct i|]. split.
      + eapply grew_perm; [done| |apply grew_refl]. intros t Ht. by apply elem_of_nil in Ht.
      + split; [unfold needed; rewrite Hnn; simpl; lia|by left]. }
  revert Hrun. unfold mbind, st_bind.
  match goal with |- ?t = _ -> _ => destruct t as [[i0 σ0]|]; [|done] end. intros [= -> ->].
  set (c1 := c ++ replicate _ 0) in *.
  assert (fsize c1 = len) as Hc1 by (unfold c1, fsize in *; rewrite length_app, length_replicate; lia).
  destruct (write_loop_ok (length buf) m σ1 i1 c1 buf off 0) as (σ2 & -> & Hok2 & Hf2 & Hown2 & Hwr);
    [done|done|exact Hf1|done|done|lia|].
  exists σ2, i1. split; [done|]. split; [done|]. split.
  { unfold write_result. replace (Z.to_nat (off + fsize buf - fsize c)) with (Z.to_nat (len - fsize c)) by lia. exact Hf2. }
  split; [|split; [exact Hmeta|]].
  - eapply others_trans; [|eapply others_grew; [exact Hg|]|by apply others_wrote].
    + intros t Ht Hu. destruct (Hown t) as [?|Hin]; [apply elem_of_app; by left|done|].
      by destruct (gr_fresh _ _ _ _ Hg t Hin).
    + intros t Ht. apply elem_of_app. by right.
  - destruct Hwr as [_ [_ w6]]. rewrite w6, (gr_free _ _ _ _ Hg). by rewrite Hfs.
Qed.

(** A file of one sector. *)
Lemma one_sector_file σ i c s :
  length (blocks i) = 15%nat -> block_no i 0 = s -> direct_count i = 1 -> indirect_count i = 0 ->
  double_indirect_count i = 0 -> length_ i = fsize c -> 0 < fsize c <= 512 -> Forall is_byte c ->
  view σ s = c ++ replicate (512 - length c) 0 -> in_dev σ s -> used σ s -> ~ reserved σ s ->
  file_rep σ i c.
Proof.
  intros Hb Hs Hd Hi Hdd Hl Hc Hby Hv Hdev Hu Hr.
  assert (sectors_for (fsize c) = 1) as H1s by (unfold sectors_for; dlia).
  assert (data σ i 1 = [s]) as Hdata by (rewrite <- Hs; reflexivity).
  split; [done|unfold MAX_SECTORS; lia|done|rewrite H1s|rewrite H1s].
  - split; rewrite ?Hdata, ?index_small by lia; simpl.
    + split; unfold MAX_SECTORS; (done || lia).
    + apply NoDup_singleton.
    + intros t ->%list_elem_of_singleton. done.
    + by intros t ?%elem_of_nil.
  - intros p Hp. unfold ptr. rewrite (proj2 (Z.ltb_lt _ _)) by dlia.
    replace (p / 512) with 0 by dlia. rewrite Hs, Hv, znth_pad by dlia. by rewrite Z.mod_small by lia.
Qed.
End file_data.
