(* ===== verification/InodeFree.v ===== *)
(** * Releasing an inode's sectors (src/filesys/inode.c, free_inode)

    free_inode gives back exactly the data and index sectors of the file:
    the free map afterwards is the free map before without them. *)

From S2P Require Import Prelude Block InodeLayout InodeGrow InodeData.

Section free.
Context {E : Type} `{SectorEnvLaws E}.
Implicit Types (σ : E) (i : inode_disk) (I : list Z).

(** The first [k] data sectors and the index sectors [I] are released. *)
Record freed σ i (k : Z) I σ' : Prop := {
  fd_nsec : nsec σ' = nsec σ;
  fd_reserved : forall t, reserved σ' t <-> reserved σ t;
  fd_used : forall t, used σ' t <-> used σ t /\ (t ∉ data σ i k) /\ (t ∉ I);
  fd_free : Z.of_nat (free_cnt σ') = Z.of_nat (free_cnt σ) + k + Z.of_nat (length I);
  fd_view : forall t, in_dev σ t -> ~ reserved σ t -> view σ' t = view σ t;
  fd_cold : forall t, in_dev σ t -> ~ reserved σ t -> cold σ t -> cold σ' t
}.

Lemma freed_start σ i : freed σ i 0 [] σ.
Proof.
  split; try done; [|simpl; lia]. intros t. rewrite elem_data, elem_of_nil.
  split; [intros ?; split_and!; [done|intros (k & ? & _); lia|tauto]|tauto].
Qed.

Lemma data_succ σ i k t : 0 <= k -> t ∈ data σ i (k + 1) <-> t ∈ data σ i k \/ t = ptr σ i k.
Proof.
  intros Hk. rewrite !elem_data. split.
  - intros (j & Hj & ->). destruct (decide (j = k)) as [->|]; [by right|left]. exists j. split; [lia|done].
  - intros [(j & Hj & ->)| ->]; [exists j|exists k]; split; (lia || done).
Qed.

(** Budgets are sums of free map operations. *)
Lemma budget_split a b c m σ :
  (a + b <= c)%nat -> env_ok (c * env_cost + m) σ -> env_ok (a * env_cost + (b * env_cost + m)) σ.
Proof. intros Hab Hok. eapply env_ok_mono; [|exact Hok]. nia. Qed.

Lemma budget_le a c m σ : (a <= c)%nat -> env_ok (c * env_cost + m) σ -> env_ok (a * env_cost + m) σ.
Proof. intros Hab Hok. eapply env_ok_mono; [|exact Hok]. nia. Qed.

Section steps.
Context (σ : E) (i : inode_disk) (n : Z) (Hrep : rep σ i n).

(** Releasing one sector that is still held. *)
Lemma release_step m k I σ1 s :
  env_ok (env_cost + m) σ1 -> freed σ i k I σ1 -> s ∈ data σ i n ++ index σ i n ->
  s ∉ data σ i k -> s ∉ I ->
  exists σ2, env_release s σ1 = Ok (tt, σ2) /\ env_ok m σ2 /\ nsec σ2 = nsec σ /\
    (forall t, reserved σ2 t <-> reserved σ t) /\
    (forall t, used σ2 t <-> used σ t /\ (t ∉ data σ i k) /\ (t ∉ I) /\ t <> s) /\
    Z.of_nat (free_cnt σ2) = Z.of_nat (free_cnt σ) + k + Z.of_nat (length I) + 1 /\
    (forall t, in_dev σ t -> ~ reserved σ t -> view σ2 t = view σ t /\ (cold σ t -> cold σ2 t)).
Proof.
  intros Hok [a1 a2 a3 a4 a5 a6] Hs Hd HI. destruct (rep_own _ _ _ Hrep s Hs) as (Hdev & Hu & Hr).
  unfold in_dev in *.
  destruct (env_release_ok m σ1 s) as (σ2 & -> & Hok2 & [b1 b2 b3 b4] & b5 & b6);
    [done|unfold in_dev; by rewrite a1|by rewrite a3|by rewrite a2|].
  unfold in_dev in *. rewrite a1 in *. exists σ2. split_and!; try done.
  - intros t. by rewrite b2, a2.
  - intros t. rewrite b5, a3. tauto.
  - lia.
  - intros t Ht Htr. rewrite b3, a5 by (done || by rewrite a2). split; [done|].
    intros Hc. apply b4; [done|by rewrite a2|]. by apply a6.
Qed.

Lemma release_data m k I σ1 :
  env_ok (env_cost + m) σ1 -> freed σ i k I σ1 -> 0 <= k < n -> (forall t, t ∈ I -> t ∈ index σ i n) ->
  exists σ2, env_release (ptr σ i k) σ1 = Ok (tt, σ2) /\ env_ok m σ2 /\ freed σ i (k + 1) I σ2.
Proof.
  intros Hok Hf Hk HI. pose proof (rep_nodup _ _ _ Hrep) as Hnd. apply list.NoDup_app in Hnd as (_ & Hdis & _).
  assert (ptr σ i k ∈ data σ i n) as Hin by (by apply data_in).
  destruct (release_step m k I σ1 (ptr σ i k)) as (σ2 & -> & Hok2 & b1 & b2 & b3 & b4 & b5);
    [done|done|apply elem_of_app; by left| |intros X; by apply (Hdis _ Hin), HI|].
  { intros X. apply elem_data in X as (j & Hj & X). apply (ptr_inj _ _ n) in X; (done || lia). }
  exists σ2. split_and!; try done. split; try done.
  - intros t. rewrite b3, data_succ by lia. tauto.
  - lia.
  - intros t Ht Hr. by apply b5.
  - intros t Ht Hr. by apply b5.
Qed.

Lemma release_index m k I σ1 b :
  env_ok (env_cost + m) σ1 -> freed σ i k I σ1 -> k <= n -> b ∈ index σ i n -> b ∉ I ->
  exists σ2, env_release b σ1 = Ok (tt, σ2) /\ env_ok m σ2 /\ freed σ i k (b :: I) σ2.
Proof.
  intros Hok Hf Hk Hb HI. pose proof (rep_nodup _ _ _ Hrep) as Hnd. apply list.NoDup_app in Hnd as (_ & Hdis & _).
  destruct (release_step m k I σ1 b) as (σ2 & -> & Hok2 & b1 & b2 & b3 & b4 & b5);
    [done|done|apply elem_of_app; by right| |done|].
  { intros X. apply elem_data in X as (j & Hj & X). apply (Hdis b); [|done]. rewrite X. apply data_in. lia. }
  exists σ2. split_and!; try done. split; try done.
  - intros t. rewrite b3, elem_of_cons. tauto.
  - simpl. lia.
  - intros t Ht Hr. by apply b5.
  - intros t Ht Hr. by apply b5.
Qed.

Lemma freed_read m k I σ1 b :
  env_ok m σ1 -> freed σ i k I σ1 -> b ∈ index σ i n ->
  exists σ2, env_block_read b σ1 = Ok (view σ b, σ2) /\ env_ok m σ2 /\ freed σ i k I σ2.
Proof.
  intros Hok [a1 a2 a3 a4 a5 a6] Hb.
  destruct (rep_own _ _ _ Hrep b) as (Hdev & _ & Hr); [apply elem_of_app; by right|].
  destruct (env_block_read_ok m σ1 b) as (σ2 & -> & Hok2 & [b1 b2 b3 b4] & [b5 b6]);
    [done|unfold in_dev in *; by rewrite a1|apply a6; [done|done|by apply (rep_cold _ _ _ Hrep)]|].
  rewrite a5 by done. exists σ2. split_and!; try done. unfold in_dev in *. rewrite a1 in *.
  split; try congruence.
  - intros t. by rewrite b2, a2.
  - intros t. by rewrite b5, a3.
  - intros t Ht Hrt. rewrite b3 by (done || tauto). by apply a5.
  - intros t Ht Hrt Hc. apply b4; [done|tauto|]. by apply a6.
Qed.

Lemma release_run_ok g m k I σ1 (t : list Z) a :
  env_ok (g * env_cost + m) σ1 -> freed σ i k I σ1 -> (forall x, x ∈ I -> x ∈ index σ i n) ->
  0 <= k -> k + Z.of_nat g <= n -> 0 <= a -> a + Z.of_nat g <= Z.of_nat (length t) ->
  (forall x, 0 <= x < Z.of_nat g -> znth 0 t (a + x) = ptr σ i (k + x)) ->
  exists σ2, release_run g t a σ1 = Ok (tt, σ2) /\ env_ok m σ2 /\ freed σ i (k + Z.of_nat g) I σ2.
Proof.
  revert k σ1 a; induction g as [|g IH]; intros k σ1 a Hok Hf HI Hk Hkn Ha Hat Ht.
  - exists σ1. rewrite Z.add_0_r. done.
  - cbn [release_run]. unfold mbind, st_bind. rewrite lift_zget by lia.
    pose proof (Ht 0 ltac:(lia)) as H00. rewrite !Z.add_0_r in H00. rewrite H00.
    destruct (release_data (g * env_cost + m) k I σ1) as (σ2 & -> & Hok2 & Hf2);
      [eapply env_ok_mono; [|exact Hok]; lia|done|lia|done|].
    destruct (IH (k + 1) σ2 (a + 1)) as (σ3 & -> & Hok3 & Hf3); [done|done|done|lia|lia|lia|lia| |].
    + intros x Hx. replace (a + 1 + x) with (a + (x + 1)) by lia. rewrite Ht by lia. f_equal. lia.
    + exists σ3. replace (k + Z.of_nat (S g)) with (k + 1 + Z.of_nat g) by lia. done.
Qed.

Lemma freed_perm k I I' σ1 : I ≡ₚ I' -> freed σ i k I σ1 -> freed σ i k I' σ1.
Proof.
  intros Hp [a1 a2 a3 a4 a5 a6]. split; try done.
  - intros t. by rewrite <- Hp.
  - by rewrite <- Hp.
Qed.

(** The level-two blocks below [a], in order. *)
Definition level_two_nos (a : Z) : list Z := znth 0 (table σ (block_no i 14)) <$> seqZ 0 a.

Lemma level_two_nos_S a : 0 <= a -> level_two_nos (a + 1) = level_two_nos a ++ [znth 0 (table σ (block_no i 14)) a].
Proof. intros Ha. unfold level_two_nos. rewrite seqZ_app by lia. rewrite fmap_app. done. Qed.

Lemma index_split_double :
  141 < n -> index σ i n ≡ₚ block_no i 14 :: level_two_nos (level_twos n) ++ [block_no i 13].
Proof.
  intros Hn. rewrite index_big, (proj2 (Z.ltb_lt _ _)) by lia. fold (level_two_nos (level_twos n)).
  simpl. solve_Permutation.
Qed.

(** One level-two block: its first [g] entries, then the block. *)
Lemma free_table m g a σ1 (rest : st E unit) :
  141 < n -> 0 <= a < level_twos n -> 141 + 128 * a + Z.of_nat g <= n -> (g <= 128)%nat ->
  env_ok ((g + 1) * env_cost + m) σ1 ->
  freed σ i (141 + 128 * a) (level_two_nos a ++ [block_no i 13]) σ1 ->
  exists σ2, env_ok m σ2 /\ freed σ i (141 + 128 * a + Z.of_nat g) (level_two_nos (a + 1) ++ [block_no i 13]) σ2 /\
    (b ← lift (zget (table σ (block_no i 14)) a);
     l ← env_block_read b;
     release_run g (table_of_bytes l) 0 ≫= fun _ => env_release b ≫= fun _ => rest) σ1 = rest σ2.
Proof.
  intros Hn Ha Hg Hg128 Hok Hf. set (b := znth 0 (table σ (block_no i 14)) a).
  destruct (rep_counts _ _ _ Hrep) as [_ Hmax _ _ _]. unfold MAX_SECTORS in Hmax.
  assert (level_twos n <= 128) by (unfold level_twos; dlia).
  assert (b ∈ index σ i n) as Hb by (apply elem_index; right; right; by exists a).
  assert (forall x, x ∈ level_two_nos a ++ [block_no i 13] -> x ∈ index σ i n) as HI.
  { intros x [Hx|Hx]%elem_of_app; apply elem_index.
    - apply list_elem_of_fmap in Hx as (q & -> & Hq%elem_of_seqZ). right; right. exists q. split; [lia|done].
    - apply list_elem_of_singleton in Hx as ->. left. split; [lia|done]. }
  unfold mbind, st_bind. rewrite lift_zget by (rewrite length_table; lia). fold b.
  destruct (freed_read ((g + 1) * env_cost + m) _ _ σ1 b Hok Hf Hb) as (σ2 & -> & Hok2 & Hf2).
  destruct (release_run_ok g (env_cost + m) (141 + 128 * a) (level_two_nos a ++ [block_no i 13]) σ2
    (table_of_bytes (view σ b)) 0) as (σ3 & -> & Hok3 & Hf3);
    [eapply env_ok_mono; [|exact Hok2]; lia|done|done|lia|lia|lia|rewrite length_table_of_bytes; lia| |].
  { intros x Hx. unfold ptr. rewrite !(proj2 (Z.ltb_ge _ _)) by lia.
    replace ((141 + 128 * a + x - 141) / 128) with a by dlia.
    by replace ((141 + 128 * a + x - 141) mod 128) with (0 + x) by dlia. }
  destruct (release_index m (141 + 128 * a + Z.of_nat g) (level_two_nos a ++ [block_no i 13]) σ3 b)
    as (σ4 & -> & Hok4 & Hf4); [done|done|lia|done| |].
  { pose proof (rep_nodup _ _ _ Hrep) as Hnd. apply list.NoDup_app in Hnd as (_ & _ & Hnd).
    rewrite index_split_double in Hnd by done. apply list.NoDup_cons in Hnd as [_ Hnd].
    replace (level_twos n) with (a + 1 + (level_twos n - a - 1)) in Hnd by lia.
    unfold level_two_nos in Hnd. rewrite seqZ_app in Hnd by lia. rewrite fmap_app in Hnd.
    fold (level_two_nos (a + 1)) in Hnd. rewrite level_two_nos_S in Hnd by lia. fold b in Hnd.
    rewrite <- !app_assoc in Hnd. simpl in Hnd. rewrite <- Permutation_middle in Hnd.
    apply list.NoDup_cons in Hnd as [Hnd _]. intros X. apply Hnd. rewrite !elem_of_app in *. tauto. }
  exists σ4. split_and!; [done| |done]. eapply freed_perm; [|exact Hf4].
  rewrite level_two_nos_S by lia. fold b. solve_Permutation.
Qed.

Lemma free_level_two_ok g m a σ1 :
  141 < n -> 0 <= a -> 141 + 128 * (a + Z.of_nat g) <= n ->
  env_ok (g * 129 * env_cost + m) σ1 -> freed σ i (141 + 128 * a) (level_two_nos a ++ [block_no i 13]) σ1 ->
  exists σ2, free_level_two g (table σ (block_no i 14)) a σ1 = Ok (tt, σ2) /\ env_ok m σ2 /\
    freed σ i (141 + 128 * (a + Z.of_nat g)) (level_two_nos (a + Z.of_nat g) ++ [block_no i 13]) σ2.
Proof.
  revert a σ1; induction g as [|g IH]; intros a σ1 Hn Ha Hg Hok Hf.
  - exists σ1. rewrite Z.add_0_r. done.
  - cbn [free_level_two].
    destruct (free_table (g * 129 * env_cost + m) 128 a σ1 (free_level_two g (table σ (block_no i 14)) (a + 1)))
      as (σ2 & Hok2 & Hf2 & ->); [done|unfold level_twos; dlia|lia|done|eapply env_ok_mono; [|exact Hok]; lia|done|].
    replace (141 + 128 * a + Z.of_nat 128) with (141 + 128 * (a + 1)) in Hf2 by lia.
    destruct (IH (a + 1) σ2) as (σ3 & -> & Hok3 & Hf3); [done|lia|lia|done|done|].
    exists σ3. replace (a + Z.of_nat (S g)) with (a + 1 + Z.of_nat g) by lia. done.
Qed.

Lemma free_double_ok m σ1 :
  141 < n -> env_ok (Z.to_nat (n - 141 + level_twos n + 1) * env_cost + m) σ1 ->
  freed σ i 141 [block_no i 13] σ1 ->
  exists σ2, free_double i (n - 141) σ1 = Ok (tt, σ2) /\ env_ok m σ2 /\ freed σ i n (index σ i n) σ2.
Proof.
  intros Hn Hok Hf. destruct (rep_counts _ _ _ Hrep) as [Hlen Hmax _ _ Hd]. unfold MAX_SECTORS in Hmax.
  unfold free_double. rewrite (proj2 (Z.ltb_lt _ _)) by lia.
  unfold NO_OF_BLOCKS, DIRECT_BLOCKS, INDIRECT_BLOCKS, DOUBLE_INDIRECT_BLOCKS. change (13 + 1 + 1 - 1) with 14.
  assert (double_indirect_count i = n - 141) as -> by lia.
  rewrite Z.quot_div_nonneg, Z.rem_mod_nonneg by lia. set (full := (n - 141) / 128).
  set (rem := (n - 141) mod 128).
  assert (0 <= full < 128 \/ (full = 128 /\ rem = 0)) as Hfull by (unfold full, rem; dlia).
  assert (n - 141 = 128 * full + rem /\ 0 <= rem < 128) as [Hsplit Hrem] by (unfold full, rem; dlia).
  assert (level_twos n = full + (if 0 <? rem then 1 else 0)) as Hlt.
  { unfold level_twos. destruct (Z.ltb_spec 0 rem); dlia. }
  assert (block_no i 14 ∈ index σ i n) as Hb by (apply elem_index; right; left; split; [lia|done]).
  unfold mbind, st_bind. rewrite lift_zget by lia. fold (block_no i 14).
  destruct (freed_read _ _ _ σ1 (block_no i 14) Hok Hf Hb) as (σ2 & -> & Hok2 & Hf2).
  fold (table σ (block_no i 14)).
  destruct (free_level_two_ok (Z.to_nat full) (Z.to_nat (rem + if 0 <? rem then 2 else 1) * env_cost + m) 0 σ2)
    as (σ3 & -> & Hok3 & Hf3); [done|lia|lia| |by eapply freed_perm; [|exact Hf2]|].
  { eapply env_ok_mono; [|exact Hok2]. rewrite Hlt.
    rewrite (Nat.add_assoc _ _ m), <- Nat.mul_add_distr_r. apply Nat.add_le_mono_r, Nat.mul_le_mono_r.
    destruct (0 <? rem) eqn:Er; lia. }
  rewrite Z2Nat.id, Z.add_0_l in Hf3 by lia. rewrite Z.max_r by lia.
  rewrite u32_small by lia. replace (n - 141 - 128 * full) with rem by lia.
  assert (exists σ4, (if 0 <? rem then
       b2 ← lift (zget (table σ (block_no i 14)) full);
       l2 ← env_block_read b2;
       release_run (Z.to_nat rem) (table_of_bytes l2) 0 ≫= fun _ => env_release b2
     else mret tt) σ3 = Ok (tt, σ4) /\ env_ok (env_cost + m) σ4 /\
     freed σ i n (level_two_nos (level_twos n) ++ [block_no i 13]) σ4) as (σ4 & Hpart & Hok4 & Hf4).
  { rewrite Hlt. revert Hok3. destruct (Z.ltb_spec 0 rem) as [Hr|Hr]; intros Hok3.
    - destruct (free_table (env_cost + m) (Z.to_nat rem) full σ3 (mret tt)) as (σ4 & Hok4 & Hf4 & Hrun);
        [done|lia|lia|lia|eapply env_ok_mono; [|exact Hok3]; lia|done|].
      exists σ4. split_and!; [|done|by replace n with (141 + 128 * full + Z.of_nat (Z.to_nat rem)) at 1 by lia].
      unfold mbind, st_bind in Hrun |- *.
      destruct (lift _ σ3) as [[b2 σa]|]; [|done]. destruct (env_block_read b2 σa) as [[l2 σb]|]; [|done].
      destruct (release_run _ _ _ σb) as [[[] σc]|]; [|done]. destruct (env_release b2 σc) as [[[] σd]|]; done.
    - exists σ3. rewrite Z.add_0_r. split_and!; [done|eapply env_ok_mono; [|exact Hok3]; lia|].
      by replace n with (141 + 128 * full) at 1 by lia. }
  unfold mbind, st_bind in Hpart. rewrite Hpart.
  destruct (release_index m n (level_two_nos (level_twos n) ++ [block_no i 13]) σ4 (block_no i 14))
    as (σ5 & -> & Hok5 & Hf5); [done|done|lia|done| |].
  { pose proof (rep_nodup _ _ _ Hrep) as Hnd. apply list.NoDup_app in Hnd as (_ & _ & Hnd).
    rewrite index_split_double in Hnd by done. by apply list.NoDup_cons in Hnd as [? _]. }
  exists σ5. split_and!; [done|done|]. eapply freed_perm; [|exact Hf5]. by rewrite index_split_double.
Qed.

Lemma free_direct_ok m :
  env_ok (Z.to_nat (Z.min 13 n) * env_cost + m) σ ->
  exists σ1, free_direct i n σ = Ok (n - Z.min 13 n, σ1) /\ env_ok m σ1 /\ freed σ i (Z.min 13 n) [] σ1.
Proof.
  intros Hok. destruct (rep_counts _ _ _ Hrep) as [Hlen Hmax _ _ _].
  unfold free_direct, DIRECT_BLOCKS, mbind, st_bind.
  destruct (release_run_ok (Z.to_nat (Z.min 13 n)) m 0 [] σ (blocks i) 0) as (σ1 & -> & Hok1 & Hf1);
    [done|apply freed_start|by intros x ?%elem_of_nil|lia|lia|lia|lia| |].
  - intros x Hx. unfold ptr. by rewrite (proj2 (Z.ltb_lt _ _)) by lia.
  - exists σ1. rewrite Z2Nat.id in Hf1 by lia. done.
Qed.

Lemma free_indirect_ok m σ1 :
  13 < n -> env_ok (Z.to_nat (Z.min 128 (n - 13) + 1) * env_cost + m) σ1 -> freed σ i 13 [] σ1 ->
  exists σ2, free_indirect i (n - 13) σ1 = Ok (n - Z.min 141 n, σ2) /\ env_ok m σ2 /\
    freed σ i (Z.min 141 n) [block_no i 13] σ2.
Proof.
  intros Hn Hok Hf. destruct (rep_counts _ _ _ Hrep) as [Hlen Hmax _ Hic _]. unfold MAX_SECTORS in Hmax.
  unfold free_indirect. rewrite (proj2 (Z.ltb_lt _ _)) by lia.
  unfold NO_OF_BLOCKS, DIRECT_BLOCKS, INDIRECT_BLOCKS, DOUBLE_INDIRECT_BLOCKS. change (13 + 1 + 1 - 2) with 13.
  assert (block_no i 13 ∈ index σ i n) as Hb by (apply elem_index; left; split; [lia|done]).
  unfold mbind, st_bind. rewrite lift_zget by lia. fold (block_no i 13).
  destruct (freed_read _ _ _ σ1 (block_no i 13) Hok Hf Hb) as (σ2 & -> & Hok2 & Hf2).
  rewrite Hic. rewrite u32_small by lia.
  destruct (release_run_ok (Z.to_nat (Z.max 0 (Z.min (n - 13) 128))) (env_cost + m) 13 [] σ2
    (table_of_bytes (view σ (block_no i 13))) 0) as (σ3 & -> & Hok3 & Hf3);
    [eapply env_ok_mono; [|exact Hok2]; nia|done|by intros x ?%elem_of_nil|lia|lia|lia|rewrite length_table_of_bytes; lia| |].
  { intros x Hx. unfold ptr. rewrite (proj2 (Z.ltb_ge _ _)), (proj2 (Z.ltb_lt _ _)) by lia.
    f_equal. lia. }
  destruct (release_index m (13 + Z.of_nat (Z.to_nat (Z.max 0 (Z.min (n - 13) 128)))) [] σ3 (block_no i 13))
    as (σ4 & -> & Hok4 & Hf4); [done|done|lia|done|apply not_elem_of_nil|].
  exists σ4. split_and!.
  - rewrite u32_small by lia. unfold mret, st_ret. do 2 f_equal. lia.
  - done.
  - by replace (Z.min 141 n) with (13 + Z.of_nat (Z.to_nat (Z.max 0 (Z.min (n - 13) 128)))) by lia.
Qed.

Lemma free_inode_ok m :
  n = sectors_for (length_ i) -> 0 <= length_ i < 2 ^ 31 - 512 ->
  env_ok (Z.to_nat (n + index_cnt n) * env_cost + m) σ ->
  exists σ', free_inode i σ = Ok (tt, σ') /\ env_ok m σ' /\ freed σ i n (index σ i n) σ'.
Proof.
  intros Hn Hl Hok. destruct (rep_counts _ _ _ Hrep) as [Hlen Hmax _ _ _]. unfold MAX_SECTORS in Hmax.
  unfold free_inode. rewrite bytes_to_sectors_ok, <- Hn by lia.
  assert (index_cnt n = (if 13 <? n then 1 else 0) + (if 141 <? n then 1 else 0) + level_twos n) as Hic by done.
  assert (0 <= level_twos n) by (unfold level_twos; lia).
  assert (n <= 141 -> level_twos n = 0) by (unfold level_twos; dlia).
  assert (0 <= index_cnt n) by (rewrite Hic; destruct (13 <? n), (141 <? n); lia).
  destruct (Z.eqb_spec n 0) as [E0|E0].
  { exists σ. split_and!; [done|apply (budget_le 0 _ m σ ltac:(lia) Hok)|].
    rewrite E0, index_small by lia. apply freed_start. }
  unfold mbind, st_bind. destruct (decide (n <= 13)) as [H13|H13].
  - destruct (free_direct_ok m) as (σ1 & -> & Hok1 & Hf1); [eapply budget_le; [|exact Hok]; lia|].
    exists σ1. unfold free_indirect, free_double. rewrite Z.min_r, Z.sub_diag in * by lia.
    rewrite Z.ltb_irrefl. unfold mret, st_ret. rewrite Z.ltb_irrefl.
    split_and!; [done|done|]. by rewrite index_small by lia.
  - destruct (free_direct_ok (Z.to_nat (n - 13 + index_cnt n) * env_cost + m)) as (σ1 & -> & Hok1 & Hf1).
    { eapply budget_split; [|exact Hok]. lia. }
    rewrite Z.min_l in * by lia. rewrite (proj2 (Z.ltb_lt 13 n)) in Hic by lia.
    assert (1 <= index_cnt n) by (rewrite Hic; destruct (141 <? n); lia).
    destruct (free_indirect_ok (Z.to_nat (n - Z.min 141 n + index_cnt n - 1) * env_cost + m) σ1)
      as (σ2 & -> & Hok2 & Hf2); [lia|eapply budget_split; [|exact Hok1]; lia|done|].
    destruct (decide (n <= 141)) as [H141|H141].
    + exists σ2. unfold free_double. rewrite Z.min_r, Z.sub_diag, Z.ltb_irrefl in * by lia.
      split_and!; [done|apply (budget_le 0 _ m σ2 ltac:(lia) Hok2)|]. by rewrite index_mid by lia.
    + rewrite Z.min_l in * by lia. rewrite (proj2 (Z.ltb_lt 141 n)) in Hic by lia.
      change (if true then 1 else 0) with 1 in Hic. destruct (free_double_ok m σ2) as (σ3 & -> & Hok3 & Hf3); [lia|eapply budget_le; [|exact Hok2]; lia|done|].
      by exists σ3.
Qed.
End steps.
End free.
