(* ===== verification/Inode.v ===== *)
(** * In-memory inodes and the free map (src/filesys/inode.c, second half,
      and src/filesys/free-map.c)

    The state of the file system layer: the buffer cache over fs_device,
    the free map, the list of open inodes and the free map's own file.
    free_map_allocate stores the bitmap through inode_write_at, which may
    allocate in turn: [fs_env d] unrolls this recursion [d] times and is
    the environment inode.c runs in. *)

From S2P Require Import Prelude Bitmap Block BufferCache InodeLayout.

(** struct inode; its address is the key in the table of open inodes. *)
Record inode := Inode {
  i_sector : Z;
  i_open_cnt : Z;
  i_removed : bool;
  i_deny : Z;
  i_locked : bool;
  i_data : inode_disk
}.

Definition with_open (n : Z) (i : inode) : inode :=
  Inode (i_sector i) n (i_removed i) (i_deny i) (i_locked i) (i_data i).
Definition with_removed (b : bool) (i : inode) : inode :=
  Inode (i_sector i) (i_open_cnt i) b (i_deny i) (i_locked i) (i_data i).
Definition with_deny (n : Z) (i : inode) : inode :=
  Inode (i_sector i) (i_open_cnt i) (i_removed i) n (i_locked i) (i_data i).
Definition with_locked (b : bool) (i : inode) : inode :=
  Inode (i_sector i) (i_open_cnt i) (i_removed i) (i_deny i) b (i_data i).
Definition with_data (d : inode_disk) (i : inode) : inode :=
  Inode (i_sector i) (i_open_cnt i) (i_removed i) (i_deny i) (i_locked i) d.

Section fsys.
Context {D : Type} `{BlockDriver D}.

(** File-scope state of the file system.  [open_inodes] is in list order,
    each entry an address and the struct there; [mallocs] tells which of
    the next allocations succeed (all do after the list); [stack] is what
    the uninitialised arrays of inode_grow hold. *)
Record fsys := Fsys {
  fs_cache : cache D;
  free_map : bitmap;
  free_map_file : option Z;
  open_inodes : list (Z * inode);
  next_addr : Z;
  mallocs : list bool;
  stack : stack_junk
}.

Definition with_cache (c : cache D) (σ : fsys) : fsys :=
  Fsys c (free_map σ) (free_map_file σ) (open_inodes σ) (next_addr σ) (mallocs σ) (stack σ).
Definition with_map (b : bitmap) (σ : fsys) : fsys :=
  Fsys (fs_cache σ) b (free_map_file σ) (open_inodes σ) (next_addr σ) (mallocs σ) (stack σ).
Definition with_file (f : option Z) (σ : fsys) : fsys :=
  Fsys (fs_cache σ) (free_map σ) f (open_inodes σ) (next_addr σ) (mallocs σ) (stack σ).
Definition with_inodes (l : list (Z * inode)) (σ : fsys) : fsys :=
  Fsys (fs_cache σ) (free_map σ) (free_map_file σ) l (next_addr σ) (mallocs σ) (stack σ).

Definition on_cache {A} (m : st (cache D) A) : st fsys A := fun σ =>
  match m (fs_cache σ) with Ok (a, c) => Ok (a, with_cache c σ) | Err e => Err e end.

(** malloc or calloc of a small block: does it succeed? *)
Definition malloc : st fsys bool := fun σ =>
  match mallocs σ with
  | [] => Ok (true, σ)
  | b :: l => Ok (b, Fsys (fs_cache σ) (free_map σ) (free_map_file σ) (open_inodes σ) (next_addr σ) l (stack σ))
  end.

(** Accesses through a struct inode pointer; a stale pointer faults. *)
Fixpoint find_inode (h : Z) (l : list (Z * inode)) : option inode :=
  match l with
  | [] => None
  | (a, i) :: l' => if a =? h then Some i else find_inode h l'
  end.
Definition get_inode (h : Z) : st fsys inode := fun σ =>
  match find_inode h (open_inodes σ) with Some i => Ok (i, σ) | None => Err Fault end.
Definition map_inode (h : Z) (f : inode -> inode) (l : list (Z * inode)) : list (Z * inode) :=
  (fun x => if x.1 =? h then (x.1, f x.2) else x) <$> l.
Definition update_inode (h : Z) (f : inode -> inode) : st fsys unit := fun σ =>
  match find_inode h (open_inodes σ) with
  | Some _ => Ok (tt, with_inodes (map_inode h f (open_inodes σ)) σ)
  | None => Err Fault
  end.

(** lock_acquire on a lock the thread already holds fails an ASSERT;
    lock_release needs the lock held. *)
Definition inode_lock_acquire (h : Z) : st fsys unit :=
  i ← get_inode h;
  kassert_st (negb (i_locked i)) ≫= fun _ => update_inode h (with_locked true).
Definition inode_lock_release (h : Z) : st fsys unit :=
  i ← get_inode h;
  kassert_st (i_locked i) ≫= fun _ => update_inode h (with_locked false).

(** ** Reading and writing through an open inode *)
Section access.
Context `{SectorEnv fsys}.

Definition inode_read_at (h size offset : Z) : st fsys (list Z) :=
  i ← get_inode h; read_at (i_data i) size offset.

Definition inode_write_at (h : Z) (buffer : list Z) (offset : Z) : st fsys Z :=
  i ← get_inode h;
  if negb (i_deny i =? 0) then mret 0 else
  let len := s32 (offset + Z.of_nat (length buffer)) in
  (if length_ (i_data i) <? len then
     (if is_dir (i_data i) then mret tt else inode_lock_acquire h) ≫= fun _ =>
     j ← gets stack;
     r ← inode_grow j (i_data i) len;
     update_inode h (with_data r.2) ≫= fun _ =>
     (if is_dir (i_data i) then mret tt else inode_lock_release h)
   else mret tt) ≫= fun _ =>
  i ← get_inode h;
  write_loop (length buffer) (i_data i) buffer offset 0.
End access.

(** ** free-map.c

    [write] is inode_write_at, which bitmap_write calls on the free map's
    file; file_write_at adds nothing to it. *)
Section free_map.
Context (write : Z -> list Z -> Z -> st fsys Z).

Definition bitmap_write (h : Z) : st fsys bool := fun σ =>
  r ← write h (bitmap_bytes (free_map σ)) 0 σ;
  Ok (r.1 =? byte_cnt (bit_cnt (free_map σ)), r.2).

(** [set_map m]: run an operation of bitmap.c on the free map. *)
Definition set_map (m : bitmap -> outcome bitmap) : st fsys unit := fun σ =>
  b ← m (free_map σ); Ok (tt, with_map b σ).

(** None is a false result: *sectorp is not assigned. *)
Definition free_map_allocate (cnt : Z) : st fsys (option Z) := fun σ =>
  r ← bitmap_scan_and_flip (free_map σ) 0 cnt false;
  let σ := with_map r.2 σ in
  if r.1 =? BITMAP_ERROR then Ok (None, σ) else
  match free_map_file σ with
  | None => Ok (Some r.1, σ)
  | Some h =>
      w ← bitmap_write h σ;
      if w.1 : bool then Ok (Some r.1, w.2)
      else s ← set_map (fun b => bitmap_set_multiple b r.1 cnt false) w.2; Ok (None, s.2)
  end.

(** With no free map file bitmap_write dereferences a null pointer. *)
Definition free_map_release (sector cnt : Z) : st fsys unit :=
  all ← (fun σ => r ← bitmap_all (free_map σ) sector cnt; Ok (r, σ));
  kassert_st all ≫= fun _ =>
  set_map (fun b => bitmap_set_multiple b sector cnt false) ≫= fun _ =>
  f ← gets free_map_file;
  match f with
  | Some h => bitmap_write h ≫= fun _ => mret tt
  | None => lift (Err Fault)
  end.
End free_map.

Definition env_with (write : Z -> list Z -> Z -> st fsys Z) : SectorEnv fsys := {|
  env_block_read s := on_cache (dev_read s);
  env_block_write s buf := on_cache (dev_write s buf);
  env_cache_read s ofs size := on_cache (cache_read s ofs size);
  env_cache_write s src ofs := on_cache (cache_write s src ofs);
  env_allocate := free_map_allocate write 1;
  env_release s := free_map_release write s 1
|}.

Fixpoint fs_env (d : nat) : SectorEnv fsys :=
  match d with
  | O => env_with (fun _ _ _ => lift (Err Fuel))
  | S d' => env_with (@inode_write_at (fs_env d'))
  end.
End fsys.
Arguments fsys D : clear implicits.

(** The free map's file never grows once it exists, so one level is
    enough for every operation below. *)
#[global] Instance fs_sector_env {D} `{BlockDriver D} : SectorEnv (fsys D) := fs_env 1.

Section operations.
Context {D : Type} `{BlockDriver D}.

Definition fs_write : Z -> list Z -> Z -> st (fsys D) Z := @inode_write_at D (fs_env 0).

(** ** inode.c: open, close, remove *)

Definition inode_init : st (fsys D) unit := modify (with_inodes []).

Fixpoint find_sector (s : Z) (l : list (Z * inode)) : option Z :=
  match l with
  | [] => None
  | (a, i) :: l' => if i_sector i =? s then Some a else find_sector s l'
  end.

Definition inode_reopen (h : Z) : st (fsys D) Z :=
  update_inode h (fun i => with_open (i_open_cnt i + 1) i) ≫= fun _ => mret h.

Definition inode_open (sector : Z) : st (fsys D) (option Z) :=
  l ← gets open_inodes;
  match find_sector sector l with
  | Some h => h ← inode_reopen h; mret (Some h)
  | None =>
      ok ← malloc;
      if ok : bool then
        b ← env_block_read sector;
        h ← gets next_addr;
        modify (fun σ => Fsys (fs_cache σ) (free_map σ) (free_map_file σ)
          ((h, Inode sector 1 false 0 false (inode_of_bytes b)) :: open_inodes σ) (h + 1) (mallocs σ) (stack σ))
        ≫= fun _ => mret (Some h)
      else mret None
  end.

Definition inode_get_inumber (h : Z) : st (fsys D) Z := i ← get_inode h; mret (i_sector i).

(** list_remove and free. *)
Definition drop_inode (h : Z) : st (fsys D) unit :=
  modify (fun σ => with_inodes (filter (fun x => x.1 <> h) (open_inodes σ)) σ).

(** The argument None is a null pointer. *)
Definition inode_close (p : option Z) : st (fsys D) unit :=
  match p with
  | None => mret tt
  | Some h =>
      update_inode h (fun i => with_open (i_open_cnt i - 1) i) ≫= fun _ =>
      i ← get_inode h;
      if i_open_cnt i =? 0 then
        drop_inode h ≫= fun _ =>
        if i_removed i then
          env_release (i_sector i) ≫= fun _ => free_inode (i_data i)
        else env_block_write (i_sector i) (inode_bytes (i_data i))
      else mret tt
  end.

Definition inode_remove (h : Z) : st (fsys D) unit := update_inode h (with_removed true).

Definition inode_deny_write (h : Z) : st (fsys D) unit :=
  update_inode h (fun i => with_deny (i_deny i + 1) i) ≫= fun _ =>
  i ← get_inode h; kassert_st (i_deny i <=? i_open_cnt i).

Definition inode_allow_write (h : Z) : st (fsys D) unit :=
  i ← get_inode h; kassert_st (i_deny i <=? i_open_cnt i) ≫= fun _ =>
  update_inode h (fun i => with_deny (i_deny i - 1) i).

Definition inode_length (h : Z) : st (fsys D) Z := i ← get_inode h; mret (length_ (i_data i)).
Definition inode_is_dir (h : Z) : st (fsys D) bool := i ← get_inode h; mret (is_dir (i_data i)).
Definition inode_get_open_cnt (h : Z) : st (fsys D) Z := i ← get_inode h; mret (i_open_cnt i).
Definition inode_get_dir_parent (h : Z) : st (fsys D) Z := i ← get_inode h; mret (dir_parent (i_data i)).

Definition inode_set_dir_parent (parent child : Z) : st (fsys D) bool :=
  p ← inode_open child;
  match p with
  | None => mret false
  | Some h =>
      update_inode h (fun i => with_data (set_parent parent (i_data i)) i) ≫= fun _ =>
      inode_close (Some h) ≫= fun _ => mret true
  end.

Definition fs_inode_create (sector len : Z) (dir : bool) : st (fsys D) bool :=
  kassert_st (0 <=? len) ≫= fun _ =>
  ok ← malloc; j ← gets stack; inode_create j ok sector len dir.

(** ** file.c *)

(** struct file, by value: the code never shares one between threads. *)
Record file := File { f_inode : Z; f_pos : Z; f_deny : bool }.

Definition file_open (p : option Z) : st (fsys D) (option file) :=
  ok ← malloc;
  match p, ok with
  | Some h, true => mret (Some (File h 0 false))
  | _, _ => inode_close p ≫= fun _ => mret None
  end.

Definition file_reopen (f : file) : st (fsys D) (option file) :=
  h ← inode_reopen (f_inode f); file_open (Some h).

Definition file_allow_write (f : file) : st (fsys D) file :=
  if f_deny f then inode_allow_write (f_inode f) ≫= fun _ => mret (File (f_inode f) (f_pos f) false)
  else mret f.

Definition file_deny_write (f : file) : st (fsys D) file :=
  if f_deny f then mret f
  else inode_deny_write (f_inode f) ≫= fun _ => mret (File (f_inode f) (f_pos f) true).

Definition file_close (p : option file) : st (fsys D) unit :=
  match p with
  | None => mret tt
  | Some f => f ← file_allow_write f; inode_close (Some (f_inode f))
  end.

Definition file_get_inode (f : file) : Z := f_inode f.

Definition file_read (f : file) (size : Z) : st (fsys D) (list Z * file) :=
  b ← inode_read_at (f_inode f) size (f_pos f);
  mret (b, File (f_inode f) (s32 (f_pos f + Z.of_nat (length b))) (f_deny f)).
Definition file_read_at (f : file) (size ofs : Z) : st (fsys D) (list Z) :=
  inode_read_at (f_inode f) size ofs.
Definition file_write (f : file) (buffer : list Z) : st (fsys D) (Z * file) :=
  n ← inode_write_at (f_inode f) buffer (f_pos f);
  mret (n, File (f_inode f) (s32 (f_pos f + n)) (f_deny f)).
Definition file_write_at (f : file) (buffer : list Z) (ofs : Z) : st (fsys D) Z :=
  inode_write_at (f_inode f) buffer ofs.

Definition file_length (f : file) : st (fsys D) Z := inode_length (f_inode f).
Definition file_seek (f : file) (new_pos : Z) : outcome file :=
  kassert (0 <=? new_pos) ≫= fun _ => Ok (File (f_inode f) new_pos (f_deny f)).
Definition file_tell (f : file) : Z := f_pos f.

(** ** free-map.c: initialisation and the free map's file *)

Definition free_map_init (bits : list Z) : st (fsys D) unit := fun σ =>
  r ← bitmap_create true (Some bits) (b_size (fs_device (fs_cache σ)));
  match r with
  | None => Err Panic
  | Some b =>
      b ← bitmap_mark b FREE_MAP_SECTOR;
      b ← bitmap_mark b ROOT_DIR_SECTOR;
      Ok (tt, with_map b σ)
  end.

Definition open_free_map_file : st (fsys D) Z :=
  p ← inode_open FREE_MAP_SECTOR;
  f ← file_open p;
  match f with
  | None => lift (Err Panic)
  | Some f => modify (with_file (Some (f_inode f))) ≫= fun _ => mret (f_inode f)
  end.

Definition free_map_open : st (fsys D) unit :=
  h ← open_free_map_file;
  b ← gets free_map;
  data ← inode_read_at h (byte_cnt (bit_cnt b)) 0;
  if Z.of_nat (length data) =? byte_cnt (bit_cnt b) then set_map (fun b => bitmap_of_bytes b data)
  else lift (Err Panic).

(** free_map_file keeps its value, now dangling. *)
Definition free_map_close : st (fsys D) unit :=
  f ← gets free_map_file; inode_close f.

Definition free_map_create : st (fsys D) unit :=
  b ← gets free_map;
  ok ← fs_inode_create FREE_MAP_SECTOR (bitmap_file_size b) false;
  if ok : bool then
    h ← open_free_map_file;
    w ← bitmap_write (@inode_write_at D fs_sector_env) h;
    if w : bool then mret tt else lift (Err Panic)
  else lift (Err Panic).
End operations.
