(* ===== verification/FsLaws.v ===== *)
(** * The file system state as an environment of the inode code

    The invariant of the file system layer ([fs_ok]) and the proof that
    the buffer cache, fs_device and free-map.c together keep the contract
    that InodeGrow.v states: in particular free_map_allocate hands out a
    free sector and stores the new map in the free map's file. *)

From S2P Require Import Prelude Bitmap Block BufferCache InodeLayout InodeGrow InodeData Inode.

(** ** Counting free sectors *)
Definition count_false (l : list bool) : nat := length (filter (fun x => x = false) l).

Lemma count_false_cons b l : count_false (b :: l) = ((if b then 0 else 1) + count_false l)%nat.
Proof. unfold count_false. rewrite filter_cons. by destruct b. Qed.

Lemma count_false_insert l k :
  l !! k = Some false -> count_false l = S (count_false (<[k := true]> l)).
Proof.
  revert k; induction l as [|b l IH]; intros [|k] Hk; try done.
  - injection Hk as ->. simpl. by rewrite !count_false_cons.
  - simpl in Hk |- *. rewrite !count_false_cons, (IH k Hk). lia.
Qed.

Lemma count_false_insert_rev l k :
  l !! k = Some true -> count_false (<[k := false]> l) = S (count_false l).
Proof.
  intros Hk. pose proof (lookup_lt_Some _ _ _ Hk).
  rewrite (count_false_insert (<[k := false]> l) k) by (by apply list_lookup_insert_eq).
  by rewrite list_insert_insert_eq, list_insert_id.
Qed.

Lemma count_false_pos l : (0 < count_false l)%nat -> exists k, l !! k = Some false.
Proof.
  induction l as [|b l IH]; [unfold count_false; simpl; lia|]. rewrite count_false_cons.
  destruct b; [|by exists 0%nat]. intros Hp. destruct (IH Hp) as [k Hk]. by exists (S k).
Qed.

Lemma set_run_one l k v : (k < length l)%nat -> set_run l k 1 v = <[k := v]> l.
Proof. intros Hk. unfold set_run. simpl. rewrite <- splice_cons by (simpl; lia). apply splice_nil. Qed.

(** ** Observations *)
Section obs.
Context {D : Type} `{BlockDriverLaws D}.
Implicit Types σ : fsys D.

Definition marked (b : bitmap) (t : Z) : Prop := 0 <= t /\ to_bools b !! Z.to_nat t = Some true.

(** As seen by the free map's own file: nothing is reserved. *)
Definition obs_raw : SectorObs (fsys D) := {|
  nsec σ := sectors (fs_cache σ);
  view σ := logical (fs_cache σ);
  cold σ := uncached (fs_cache σ);
  used σ := marked (free_map σ);
  reserved _ _ := False;
  free_cnt σ := count_false (to_bools (free_map σ))
|}.

(** The inode of the free map's file. *)
Definition map_inode_of σ : option inode :=
  h ← free_map_file σ; find_inode h (open_inodes σ).

(** As seen by every other file: the free map's sectors are reserved. *)
Definition obs_fs : SectorObs (fsys D) := {|
  nsec σ := sectors (fs_cache σ);
  view σ := logical (fs_cache σ);
  cold σ := uncached (fs_cache σ);
  used σ := marked (free_map σ);
  reserved σ t :=
    match map_inode_of σ with
    | Some i => t ∈ own (H0 := obs_raw) σ (i_data i) (bitmap_bytes (free_map σ))
    | None => False
    end;
  free_cnt σ := count_false (to_bools (free_map σ))
|}.

Definition io_ok (n : nat) σ : Prop :=
  cache_inv (fs_cache σ) /\ evictions_left (Z.of_nat n) (fs_cache σ) /\ sectors (fs_cache σ) <= 2 ^ 32.

Lemma io_ok_mono m n σ : (n <= m)%nat -> io_ok m σ -> io_ok n σ.
Proof. intros Hle (Hi & (? & ?) & Hn). split_and!; [done|split; lia|done]. Qed.

(** *** The four accesses, on the raw observations *)

Lemma fs_block_read n σ s :
  io_ok n σ -> 0 <= s < sectors (fs_cache σ) -> uncached (fs_cache σ) s ->
  exists c', on_cache (dev_read s) σ = Ok (logical (fs_cache σ) s, with_cache c' σ) /\
    io_ok n (with_cache c' σ) /\ sectors c' = sectors (fs_cache σ) /\
    (forall t, 0 <= t < sectors (fs_cache σ) -> logical c' t = logical (fs_cache σ) t) /\
    cache_table c' = cache_table (fs_cache σ).
Proof.
  intros (Hinv & [Hr0 Hr1] & Hn) Hs Hu. set (c := fs_cache σ) in *.
  destruct (dev_read_run c s (inv_dev _ Hinv) Hs) as (c' & Hrun & Hok & Htab & Hrr & Hsz & Hd).
  exists c'. unfold on_cache. fold c. rewrite Hrun, <- logical_uncached by done.
  assert (forall t, 0 <= t < sectors c -> logical c' t = logical c t) as Hlog.
  { intros t Ht. unfold logical. rewrite Htab. destruct (list_find _ _) as [[? ?]|]; [done|]. by apply Hd. }
  split; [done|]. split; [|by split_and!]. split_and!; [|split; simpl; lia|simpl; lia]. simpl.
  destruct Hinv as [Hdev Hlen Hslot Hfree Huniq]. split; rewrite ?Htab; try done.
  intros k e He Ho. destruct (Hslot k e He Ho) as [Hr ? ? Hcl].
  split; [fold (sectors c'); by rewrite Hsz|done|done|].
  intros Hdt. fold (disk c' (disk_sector e)). rewrite Hd by done. by apply Hcl.
Qed.

(** The laws of sector access with the raw observations, for any way the
    free map is written. *)
#[program] Definition io_raw (write : Z -> list Z -> Z -> st (fsys D) Z)
  : @SectorIOLaws (fsys D) (env_with write) obs_raw := {| env_ok := io_ok |}.
Next Obligation. intros write m n σ. apply io_ok_mono. Qed.
Next Obligation. by intros write n σ (_ & _ & ?). Qed.
Next Obligation. intros write n σ t (Hinv & _ & _) Ht. by apply logical_len. Qed.
Next Obligation.
  intros write n σ s Hok Hs Hc.
  destruct (fs_block_read n σ s Hok Hs Hc) as (c' & Hrun & Hok' & Hsz & Hlog & Htab).
  exists (with_cache c' σ). split; [exact Hrun|]. split; [done|]. split; [|by split].
  split; simpl; try done.
  - intros t Ht _. by apply Hlog.
  - intros t Ht _ Hu. unfold uncached. by rewrite Htab.
Qed.
Next Obligation.
  intros write n σ s buf (Hinv & [Hr0 Hr1] & Hn) Hs Hc _ Hl Hb. simpl in Hs, Hc.
  destruct (raw_write_uncached (fs_cache σ) s buf Hinv Hc Hs Hl Hb) as (c' & Hrun & Hinv' & Hsz & Hrr & Htab & Hlog).
  exists (with_cache c' σ). cbn [env_block_write env_with]. unfold on_cache. rewrite Hrun.
  split; [done|]. split; [split_and!; simpl; [done|split; lia|lia]|].
  split; [|split; [by split|split]].
  - split; simpl; try done.
    + intros t Ht Hts. rewrite Hlog by done. by rewrite decide_False.
    + intros t Ht _ Hu. unfold uncached. by rewrite Htab.
  - simpl. rewrite Hlog by done. by rewrite decide_True.
  - simpl. unfold uncached. by rewrite Htab.
Qed.
Next Obligation.
  intros write n σ s ofs size (Hinv & [Hr0 Hr1] & Hn) Hs _ Ho Hz Hoz. simpl in Hs.
  destruct (cache_read_spec (fs_cache σ) s ofs size Hinv) as (c' & Hrun & Hinv' & Hsz & Hrr & Hkeep & Hlog);
    [split; lia|done..|].
  exists (with_cache c' σ). cbn [env_cache_read env_with]. unfold on_cache. rewrite Hrun.
  split; [done|]. split; [split_and!; simpl; [done|split; lia|lia]|].
  split; [|split; [by split|by apply Hlog]].
  split; simpl; try done.
  - intros t Ht _. by apply Hlog.
  - intros t Ht Hts Hu. by apply Hkeep.
Qed.
Next Obligation.
  intros write n σ s src ofs (Hinv & [Hr0 Hr1] & Hn) Hs _ Ho Hz Hb. simpl in Hs.
  destruct (cache_write_spec (fs_cache σ) s src ofs Hinv) as (c' & Hrun & Hinv' & Hsz & Hrr & Hkeep & Hlog);
    [split; lia|done..|].
  exists (with_cache c' σ). cbn [env_cache_write env_with]. unfold on_cache. rewrite Hrun.
  split; [done|]. split; [split_and!; simpl; [done|split; lia|lia]|].
  split; [|split; [by split|]].
  - split; simpl; try done.
    + intros t Ht Hts. rewrite Hlog by done. by rewrite decide_False.
    + intros t Ht Hts Hu. by apply Hkeep.
  - simpl. rewrite Hlog by done. by rewrite decide_True.
Qed.

(** ** The invariant of the file system layer *)

(** The part of the state that sector accesses do not reach. *)
Definition tbl σ : list (Z * inode) * option Z * stack_junk * Z * list bool :=
  (open_inodes σ, free_map_file σ, stack σ, next_addr σ, mallocs σ).

Definition raw_rep σ (i : inode_disk) (c : list Z) : Prop := file_rep (H0 := obs_raw) σ i c.
Definition raw_own σ (i : inode_disk) (c : list Z) : list Z := own (H0 := obs_raw) σ i c.

(** With [n] cache operations to go on a device of [N] sectors and the
    inode table [T]: the cache and the free map are well formed, and the
    free map's file is open for writing and holds the map. *)
Record fs_ok (N : Z) T (n : nat) σ : Prop := {
  fo_io : io_ok n σ;
  fo_wf : bitmap_wf (free_map σ);
  fo_cnt : bit_cnt (free_map σ) = N;
  fo_size : sectors (fs_cache σ) = N;
  fo_tbl : tbl σ = T;
  fo_file : exists i, map_inode_of σ = Some i /\ i_deny i = 0 /\
    raw_rep σ (i_data i) (bitmap_bytes (free_map σ))
}.

Lemma on_cache_rest {A} (m : st (cache D) A) σ a σ' :
  on_cache m σ = Ok (a, σ') ->
  free_map σ' = free_map σ /\ tbl σ' = tbl σ.
Proof. unfold on_cache. destruct (m (fs_cache σ)) as [[? ?]|]; [|done]. by intros [= <- <-]. Qed.

Lemma map_inode_same σ σ' : tbl σ' = tbl σ -> map_inode_of σ' = map_inode_of σ.
Proof. unfold map_inode_of, tbl. by intros [= -> -> _ _ _]. Qed.

(** An access that misses the free map's file keeps the invariant. *)
Lemma access_fs N T n n' (W : Z -> Prop) σ σ' :
  fs_ok N T n σ -> io_ok n' σ' -> free_map σ' = free_map σ -> tbl σ' = tbl σ ->
  @same_but _ obs_raw W σ σ' -> (forall t, @reserved _ obs_fs σ t -> ~ W t) ->
  fs_ok N T n' σ' /\ @same_but _ obs_fs W σ σ' /\ @same_map _ obs_fs σ σ'.
Proof.
  intros [Hio Hwf Hcnt Hsz HT (i & Hi & Hd & Hrep)] Hio' Hm Ht Hb HW. simpl in HW. rewrite Hi in HW.
  pose proof (map_inode_same σ σ' Ht) as Hi'. rewrite Hi in Hi'.
  assert (@same_map _ obs_raw σ σ') as Hsm by (split; simpl; by rewrite Hm).
  destruct (file_rep_frame (H0 := obs_raw) W σ (i_data i) (bitmap_bytes (free_map σ)) σ' Hrep Hb Hsm HW) as [Hrep' Hown].
  split_and!.
  - split; [done|by rewrite Hm|by rewrite Hm|rewrite <- Hsz; apply (sb_nsec _ _ _ Hb)|by rewrite Ht|].
    exists i. rewrite Hm. done.
  - destruct Hb as [b1 b2 b3 b4]. split; [exact b1| |exact b3|exact b4].
    intros t. simpl. rewrite Hi, Hi', Hm, Hown. done.
  - by destruct Hsm.
Qed.

(** ** Storing the free map *)

(** [rest_same σ σ']: only the cache differs. *)
Definition rest_same σ σ' : Prop := free_map σ' = free_map σ /\ tbl σ' = tbl σ.

Lemma rest_refl σ : rest_same σ σ.
Proof. done. Qed.
Lemma rest_trans σ1 σ2 σ3 : rest_same σ1 σ2 -> rest_same σ2 σ3 -> rest_same σ1 σ3.
Proof. intros [? ?] [? ?]. split; congruence. Qed.

Section raw_env.
Context (write : Z -> list Z -> Z -> st (fsys D) Z).
#[local] Instance raw_env : SectorEnv (fsys D) := env_with write.

Lemma lift_rest {A} (m : outcome A) σ a σ' : (lift m : st (fsys D) A) σ = Ok (a, σ') -> rest_same σ σ'.
Proof. unfold lift. destruct m; [|done]. intros [= <- <-]. apply rest_refl. Qed.

Lemma byte_to_sector_rest i pos σ a σ' : byte_to_sector i pos σ = Ok (a, σ') -> rest_same σ σ'.
Proof.
  unfold byte_to_sector. repeat case_match.
  - apply lift_rest.
  - unfold mbind, st_bind. destruct (lift _ σ) as [[b σ1]|] eqn:E1; [|done].
    destruct (env_block_read b σ1) as [[l σ2]|] eqn:E2; [|done]. intros E3.
    apply lift_rest in E1, E3. apply on_cache_rest in E2. eauto using rest_trans.
  - unfold mbind, st_bind. destruct (lift _ σ) as [[b σ1]|] eqn:E1; [|done].
    destruct (env_block_read b σ1) as [[l σ2]|] eqn:E2; [|done].
    destruct (lift _ σ2) as [[b2 σ3]|] eqn:E3; [|done].
    destruct (env_block_read b2 σ3) as [[l2 σ4]|] eqn:E4; [|done]. intros E5.
    apply lift_rest in E1, E3, E5. apply on_cache_rest in E2, E4. eauto using rest_trans.
  - intros [= <- <-]. apply rest_refl.
Qed.

Lemma write_loop_rest fuel i buf off n σ a σ' :
  write_loop fuel i buf off n σ = Ok (a, σ') -> rest_same σ σ'.
Proof.
  revert buf off n σ; induction fuel as [|fuel IH]; intros buf off n σ; simpl; case_match; try done.
  1, 3: intros [= <- <-]; apply rest_refl.
  unfold mbind, st_bind. destruct (byte_to_sector i off σ) as [[s σ1]|] eqn:E1; [|done].
  apply byte_to_sector_rest in E1. case_match; [intros [= <- <-]; done|].
  destruct (on_cache _ σ1) as [[[] σ2]|] eqn:E2; [|done]. intros E3.
  apply on_cache_rest in E2. apply IH in E3. eauto using rest_trans.
Qed.
End raw_env.

Lemma raw_rep_map σ b i c :
  raw_rep σ i c -> (forall t, t ∈ raw_own σ i c -> marked b t) ->
  raw_rep (with_map b σ) i c /\ raw_own (with_map b σ) i c = raw_own σ i c.
Proof.
  intros Hf Hm. apply (file_rep_transfer (H0 := obs_raw)); [exact Hf|done|done|].
  intros t Ht. split_and!; [done|by apply Hm|done].
Qed.

Lemma bitmap_bytes_len b : bitmap_wf b -> Z.of_nat (length (bitmap_bytes b)) = byte_cnt (bit_cnt b).
Proof.
  intros Hwf. unfold bitmap_bytes, byte_cnt. rewrite length_words_to_bytes.
  pose proof (wf_len _ Hwf) as Hl. pose proof (wf_cnt _ Hwf).
  destruct (DIV_ROUND_UP_bounds (bit_cnt b) 32) as [? ?]; [lia..|].
  unfold elem_cnt, ELEM_BITS in *. rewrite u32_small; lia.
Qed.

(** bitmap_write puts the map into its file and touches nothing else. *)
Lemma store_map n σ h i c :
  let b := free_map σ in let data_ := bitmap_bytes b in
  io_ok (length data_ + n) σ -> bitmap_wf b -> length c = length data_ ->
  find_inode h (open_inodes σ) = Some i -> i_deny i = 0 -> raw_rep σ (i_data i) c ->
  exists σ', bitmap_write (@inode_write_at D (fs_env 0)) h σ = Ok (true, σ') /\ io_ok n σ' /\
    rest_same σ σ' /\ raw_rep σ' (i_data i) data_ /\ raw_own σ' (i_data i) data_ = raw_own σ (i_data i) c /\
    @same_but _ obs_raw (fun t => t ∈ raw_own σ (i_data i) c) σ σ'.
Proof.
  intros b data_ Hio Hwf Hlen Hi Hd Hrep. unfold bitmap_write, inode_write_at. fold b data_.
  unfold get_inode, mbind, st_bind, outcome_bind. rewrite Hi, Hd. cbn [negb Z.eqb].
  pose proof (fr_len _ _ _ Hrep) as Hl. pose proof (fr_max _ _ _ Hrep) as Hmax.
  unfold fsize, MAX_SECTORS in Hl, Hmax. rewrite Hl, s32_small by lia.
  rewrite (proj2 (Z.ltb_ge _ _)) by lia. cbn [mret st_ret]. rewrite Hi.
  destruct (write_loop_ok (H1 := io_raw (fun _ _ _ => lift (Err Fuel))) (length data_) n σ (i_data i) c data_ 0 0)
    as (σ' & Hrun & Hio' & Hrep' & Hown & Hwr);
    [done|done|exact Hrep|apply words_are_bytes|done|unfold fsize; lia|].
  cbn [fs_env] in Hrun |- *. rewrite Hrun.
  exists σ'. split.
  { cbn [fst snd]. unfold fsize. rewrite Z.add_0_l. unfold data_ at 1. rewrite bitmap_bytes_len by done.
    by rewrite Z.eqb_refl. }
  split; [exact Hio'|]. split; [by eapply write_loop_rest|].
  assert (splice c (Z.to_nat 0) data_ = data_) as Hs.
  { unfold splice. change (Z.to_nat 0) with 0%nat. rewrite drop_ge by lia. by rewrite app_nil_r. }
  rewrite Hs in Hrep'. split; [exact Hrep'|]. split.
  - transitivity (raw_own σ' (i_data i) c); [|exact Hown]. apply own_size. unfold fsize. lia.
  - destruct Hwr as [Hb _]. eapply same_but_weaken; [|exact Hb]. intros t Ht. apply elem_of_app. by left.
Qed.

Section device.
Context (N : Z) (T : list (Z * inode) * option Z * stack_junk * Z * list bool).

#[program] Definition io_fs : @SectorIOLaws (fsys D) (fs_env 1) obs_fs := {| env_ok := fs_ok N T |}.
Next Obligation. intros m n σ Hle [Hio ? ? ? ? ?]. split; try done. by eapply io_ok_mono. Qed.
Next Obligation. by intros n σ [(_ & _ & ?) _ _ _ _ _]. Qed.
Next Obligation. intros n σ t [(Hinv & _ & _) _ _ _ _ _] Ht. by apply logical_len. Qed.
Next Obligation.
  intros n σ s Hok Hs Hc. pose proof (fo_io _ _ _ _ Hok) as Hio.
  destruct (@env_block_read_ok _ _ _ (io_raw (@inode_write_at D (fs_env 0))) n σ s Hio Hs Hc)
    as (σ' & Hrun & Hio' & Hb & _).
  destruct (on_cache_rest _ _ _ _ Hrun) as (Hm & Ht).
  destruct (access_fs N T n n _ σ σ' Hok Hio' Hm Ht Hb) as (? & ? & ?); [tauto|]. by exists σ'.
Qed.
Next Obligation.
  intros n σ s buf Hok Hs Hc Hr Hl Hby. pose proof (fo_io _ _ _ _ Hok) as Hio.
  destruct (@env_block_write_ok _ _ _ (io_raw (@inode_write_at D (fs_env 0))) n σ s buf Hio Hs Hc (fun x => x) Hl Hby)
    as (σ' & Hrun & Hio' & Hb & _ & Hv & Hc').
  destruct (on_cache_rest _ _ _ _ Hrun) as (Hm & Ht).
  destruct (access_fs N T n n _ σ σ' Hok Hio' Hm Ht Hb) as (? & ? & ?); [by intros t Htr ->|]. by exists σ'.
Qed.
Next Obligation.
  intros n σ s ofs size Hok Hs Hr Ho' Hz Hoz. pose proof (fo_io _ _ _ _ Hok) as Hio.
  destruct (@env_cache_read_ok _ _ _ (io_raw (@inode_write_at D (fs_env 0))) n σ s ofs size Hio Hs (fun x => x) Ho' Hz Hoz)
    as (σ' & Hrun & Hio' & Hb & _ & Hv).
  destruct (on_cache_rest _ _ _ _ Hrun) as (Hm & Ht).
  destruct (access_fs N T (S n) n _ σ σ' Hok Hio' Hm Ht Hb) as (? & ? & ?); [by intros t Htr ->|]. by exists σ'.
Qed.
Next Obligation.
  intros n σ s src ofs Hok Hs Hr Ho' Hz Hby. pose proof (fo_io _ _ _ _ Hok) as Hio.
  destruct (@env_cache_write_ok _ _ _ (io_raw (@inode_write_at D (fs_env 0))) n σ s src ofs Hio Hs (fun x => x) Ho' Hz Hby)
    as (σ' & Hrun & Hio' & Hb & _ & Hv).
  destruct (on_cache_rest _ _ _ _ Hrun) as (Hm & Ht).
  destruct (access_fs N T (S n) n _ σ σ' Hok Hio' Hm Ht Hb) as (? & ? & ?); [by intros t Htr ->|]. by exists σ'.
Qed.

(** Changing the map and storing it, when the file's own sectors stay
    marked. *)
Lemma store_new_map n σ b h i :
  fs_ok N T (Z.to_nat (byte_cnt N) + n) σ -> bitmap_wf b -> bit_cnt b = N ->
  free_map_file σ = Some h -> find_inode h (open_inodes σ) = Some i -> i_deny i = 0 ->
  raw_rep σ (i_data i) (bitmap_bytes (free_map σ)) ->
  (forall t, @reserved _ obs_fs σ t -> marked b t) ->
  exists σ', bitmap_write (@inode_write_at D (fs_env 0)) h (with_map b σ) = Ok (true, σ') /\
    fs_ok N T n σ' /\ free_map σ' = b /\ @same_but _ obs_fs (@reserved _ obs_fs σ) σ σ'.
Proof.
  intros Hok Hwf Hcnt Hf Hi Hd Hrep Hmk.
  assert (map_inode_of σ = Some i) as Hmi by (unfold map_inode_of; by rewrite Hf).
  simpl in Hmk. rewrite Hmi in Hmk. set (c := bitmap_bytes (free_map σ)) in *.
  destruct (raw_rep_map σ b (i_data i) c Hrep Hmk) as [Hrep1 Hown1].
  pose proof (bitmap_bytes_len b Hwf) as Hl. pose proof (bitmap_bytes_len _ (fo_wf _ _ _ _ Hok)) as Hl0.
  rewrite (fo_cnt _ _ _ _ Hok) in Hl0. rewrite Hcnt in Hl.
  destruct (store_map n (with_map b σ) h i c) as (σ' & Hrun & Hio' & Hrest & Hrep' & Hown' & Hb');
    cbn [free_map with_map]; [|done|unfold c; lia|done|done|exact Hrep1|].
  { replace (length (bitmap_bytes b)) with (Z.to_nat (byte_cnt N)) by lia.
    destruct (fo_io _ _ _ _ Hok) as (? & ? & ?). by split_and!. }
  cbn [free_map with_map] in Hrep', Hown'. destruct Hrest as (Hm & Ht'). simpl in Hm. change (tbl (with_map b σ)) with (tbl σ) in Ht'.
  assert (map_inode_of σ' = Some i) as Hmi' by (rewrite <- Hmi; by apply map_inode_same).
  exists σ'. split; [exact Hrun|]. split; [|split; [exact Hm|]].
  - split; [done|by rewrite Hm|by rewrite Hm|rewrite <- (fo_size _ _ _ _ Hok); apply (sb_nsec _ _ _ Hb')|rewrite Ht'; apply (fo_tbl _ _ _ _ Hok)|].
    exists i. rewrite Hm. split; [exact Hmi'|split; [exact Hd|exact Hrep']].
  - destruct Hb' as [b1 b2 b3 b4]. rewrite Hown1 in b3, b4. split; [exact b1| | |].
    + intros t. simpl. rewrite Hmi, Hmi', Hm. fold (raw_own σ' (i_data i) (bitmap_bytes b)).
      rewrite Hown', Hown1. done.
    + intros t Ht Hr. simpl in Hr. rewrite Hmi in Hr. by apply b3.
    + intros t Ht Hr. simpl in Hr. rewrite Hmi in Hr. by apply b4.
Qed.

Lemma marked_insert b b' k v t :
  0 <= k -> to_bools b' = <[Z.to_nat k := v]> (to_bools b) -> (Z.to_nat k < length (to_bools b))%nat ->
  marked b' t <-> (if decide (t = k) then v = true else marked b t).
Proof.
  intros Hk Hb Hl. unfold marked. rewrite Hb. case_decide as Htk.
  - subst t. rewrite list_lookup_insert_eq by done. naive_solver.
  - split; intros [Ht Hm]; (split; [done|]).
    + by rewrite list_lookup_insert_ne in Hm by lia.
    + by rewrite list_lookup_insert_ne by lia.
Qed.

#[program] Definition fs_laws : @SectorEnvLaws (fsys D) (fs_env 1) obs_fs io_fs :=
  {| env_cost := Z.to_nat (byte_cnt N) |}.
Next Obligation.
  intros n σ t [_ _ _ _ _ (i & Hi & _ & Hrep)] Hr. simpl in Hr. rewrite Hi in Hr.
  by apply (rep_own _ _ _ (fr_rep _ _ _ Hrep)).
Qed.
Next Obligation.
  intros n σ Hok Hfree. pose proof Hok as [_ Hwf Hcnt Hsz _ (i & Hi & Hd & Hrep)]. simpl in Hfree.
  destruct (free_map_file σ) as [h|] eqn:Hf; [|unfold map_inode_of in Hi; by rewrite Hf in Hi].
  assert (find_inode h (open_inodes σ) = Some i) as Hfi by (unfold map_inode_of in Hi; by rewrite Hf in Hi).
  destruct (bitmap_scan_and_flip_spec (free_map σ) 0 1 false Hwf) as
    [(k & b & Hscan & Hne & Hk & Hkn & Hwf' & Hrun & _ & Hb)|[_ Hnone]]; [pose proof (wf_cnt _ Hwf); lia|lia| |].
  2: { exfalso. destruct (count_false_pos _ Hfree) as [k Hk]. apply (Hnone (Z.of_nat k)); [lia|].
       intros j Hj. rewrite Nat2Z.id in Hj. by replace j with k by lia. }
  assert (to_bools (free_map σ) !! Z.to_nat k = Some false) as Hkf by (apply Hrun; lia).
  pose proof (lookup_lt_Some _ _ _ Hkf) as Hklt.
  change (Z.to_nat 1) with 1%nat in Hb. rewrite set_run_one in Hb by done. simpl in Hb.
  assert (bit_cnt b = N) as HbN by (rewrite <- Hcnt; apply bit_cnt_to_bools; [done..|]; by rewrite Hb, length_insert).
  pose proof (marked_insert (free_map σ) b k true) as Hmk.
  destruct (store_new_map n σ b h i) as (σ' & Hw & Hok' & Hm & Hsb); try done.
  { intros t Hr. simpl in Hr. rewrite Hi in Hr. apply Hmk; [lia|done|done|]. case_decide; [done|].
    by apply (rep_own _ _ _ (fr_rep _ _ _ Hrep)). }
  exists k, σ'. split.
  { change (free_map_allocate (@inode_write_at D (fs_env 0)) 1 σ = Ok (Some k, σ')).
    unfold free_map_allocate, mbind, outcome_bind. rewrite Hscan. cbn [fst snd].
    rewrite (proj2 (Z.eqb_neq _ _)) by done. cbn [free_map_file with_map]. rewrite Hf. by rewrite Hw. }
  split; [done|]. split; [unfold in_dev; simpl; lia|]. split; [|split; [done|split]].
  - intros [_ Hu]. congruence.
  - intros t. simpl. rewrite Hm, Hmk by (done || lia). case_decide; naive_solver.
  - simpl. rewrite Hm, Hb. by apply count_false_insert.
Qed.
Next Obligation.
  intros n σ s Hok Hs Hu Hr. pose proof Hok as [_ Hwf Hcnt Hsz _ (i & Hi & Hd & Hrep)].
  unfold in_dev in Hs. simpl in Hs, Hu, Hr. rewrite Hi in Hr.
  destruct (free_map_file σ) as [h|] eqn:Hf; [|unfold map_inode_of in Hi; by rewrite Hf in Hi].
  assert (find_inode h (open_inodes σ) = Some i) as Hfi by (unfold map_inode_of in Hi; by rewrite Hf in Hi).
  destruct Hu as [_ Hu]. pose proof (lookup_lt_Some _ _ _ Hu) as Hlt.
  destruct (bitmap_all_spec (free_map σ) s 1 Hwf) as (r & Hall & Hr1); [lia..|].
  assert (r = true) as ->.
  { apply Hr1. intros j Hj. by replace j with (Z.to_nat s) by lia. }
  destruct (bitmap_set_multiple_spec (free_map σ) s 1 Hwf) with (v := false) as (b & Hset & Hwf' & Hb); [lia..|].
  change (Z.to_nat 1) with 1%nat in Hb. rewrite set_run_one in Hb by done.
  assert (bit_cnt b = N) as HbN by (rewrite <- Hcnt; apply bit_cnt_to_bools; [done..|]; by rewrite Hb, length_insert).
  pose proof (marked_insert (free_map σ) b s false) as Hmk.
  destruct (store_new_map n σ b h i) as (σ' & Hw & Hok' & Hm & Hsb); try done.
  { intros t Ht. simpl in Ht. rewrite Hi in Ht. apply Hmk; [lia|done|done|]. rewrite decide_False.
    - by apply (rep_own _ _ _ (fr_rep _ _ _ Hrep)).
    - intros ->. done. }
  exists σ'. split.
  { change (free_map_release (@inode_write_at D (fs_env 0)) s 1 σ = Ok (tt, σ')).
    unfold free_map_release, set_map, kassert_st, gets, mbind, st_bind, outcome_bind.
    rewrite Hall. cbv beta iota. rewrite Hset. cbv beta iota. cbn [free_map_file with_map]. rewrite Hf. by rewrite Hw. }
  split; [done|]. split; [done|]. split.
  - intros t. simpl. rewrite Hm, Hmk by (done || lia). case_decide; naive_solver.
  - simpl. rewrite Hm, Hb. by apply count_false_insert_rev.
Qed.
End device.
End obs.
