(* ===== verification/FsFiles.v ===== *)
(** * Files of the file system (src/filesys/inode.c and free-map.c)

    inode_read_at and inode_write_at on an open inode of the running file
    system, with the buffer cache, the free map and its file underneath:
    a file behaves as the list of its bytes, and the other files do not
    notice. *)

From S2P Require Import Prelude Bitmap Block BufferCache InodeLayout InodeGrow InodeData InodeFree Inode FsLaws.

#[global] Existing Instance obs_fs | 5.

Section files.
Context {D : Type} `{BlockDriverLaws D} (N : Z).
Implicit Types (σ : fsys D) (c : list Z).

(** The invariant, for whatever inode table there is. *)
Definition fs_inv (n : nat) σ : Prop := fs_ok N (tbl σ) n σ.

(** [h] points to an open inode of the file [c], not the free map's. *)
Record open_file σ (h : Z) (i : inode) c : Prop := {
  of_find : find_inode h (open_inodes σ) = Some i;
  of_other : free_map_file σ <> Some h;
  of_rep : file_rep σ (i_data i) c
}.

Lemma find_map_inode h h' f l :
  find_inode h (map_inode h' f l) = if h =? h' then f <$> find_inode h l else find_inode h l.
Proof.
  induction l as [|[a i] l IH]; simpl; [by destruct (h =? h')|].
  destruct (Z.eqb_spec a h') as [->|Hah']; simpl.
  - destruct (Z.eqb_spec h' h) as [->|]; [by rewrite Z.eqb_refl|done].
  - destruct (Z.eqb_spec a h) as [->|]; [|done]. by rewrite (proj2 (Z.eqb_neq h h')).
Qed.

(** A change of the tables that keeps the free map's inode is invisible to
    the sector layer. *)
Lemma core_quiet n σ σ' :
  fs_inv n σ -> fs_cache σ' = fs_cache σ -> free_map σ' = free_map σ -> map_inode_of σ' = map_inode_of σ ->
  fs_inv n σ' /\ quiet σ σ'.
Proof.
  intros [Hio Hwf Hc Hs _ (i0 & Hi0 & Hd & Hrep)] E1 E2 Hm.
  assert (@same_but _ obs_raw (fun _ => False) σ σ') as Hsb by (split; simpl; rewrite ?E1; done).
  destruct (file_rep_frame (H0 := obs_raw) (fun _ => False) σ (i_data i0) _ σ' Hrep Hsb) as [Hrep' Ho];
    [split; simpl; by rewrite ?E2|tauto|].
  split.
  - split; rewrite ?E1, ?E2; [unfold io_ok; rewrite E1; exact Hio|done|done|done|done|].
    exists i0. rewrite Hm. split; [done|]. split; [done|]. exact Hrep'.
  - split; [|split; simpl; by rewrite ?E2]. split; simpl; rewrite ?E1; [done| |done|done].
    intros t. by rewrite Hm, Hi0, E2, Ho.
Qed.

(** Updates of an inode that is not the free map's. *)
Definition updated h f σ : fsys D := with_inodes (map_inode h f (open_inodes σ)) σ.

Lemma tweak_inode n σ h f i :
  fs_inv n σ -> free_map_file σ <> Some h -> find_inode h (open_inodes σ) = Some i ->
  update_inode h f σ = Ok (tt, updated h f σ) /\ fs_inv n (updated h f σ) /\ quiet σ (updated h f σ) /\
  find_inode h (open_inodes (updated h f σ)) = Some (f i).
Proof.
  intros Hok Hne Hi. split; [unfold update_inode; by rewrite Hi|].
  destruct (core_quiet n σ (updated h f σ) Hok) as [Hok' Hq]; [done|done| |split; [exact Hok'|]; split; [exact Hq|]].
  - unfold map_inode_of. cbn [free_map_file with_inodes updated]. destruct (free_map_file σ) as [h0|]; [|done].
    simpl. rewrite find_map_inode. by rewrite (proj2 (Z.eqb_neq h0 h)) by congruence.
  - simpl. rewrite find_map_inode, Z.eqb_refl, Hi. done.
Qed.

(** The other entries of the inode table. *)
Definition table_others (h : Z) σ σ' : Prop :=
  (forall h', h' <> h -> find_inode h' (open_inodes σ') = find_inode h' (open_inodes σ)) /\
  free_map_file σ' = free_map_file σ.

Lemma table_others_tbl h σ σ' : tbl σ' = tbl σ -> table_others h σ σ'.
Proof. unfold tbl, table_others. by intros [= -> -> _ _ _]. Qed.
Lemma table_others_trans h σ1 σ2 σ3 : table_others h σ1 σ2 -> table_others h σ2 σ3 -> table_others h σ1 σ3.
Proof. intros [a1 a2] [b1 b2]. split; [intros h' Hh; by rewrite b1, a1|congruence]. Qed.
Lemma table_others_updated h f σ : table_others h σ (updated h f σ).
Proof. split; [|done]. intros h' Hh. simpl. rewrite find_map_inode. by rewrite (proj2 (Z.eqb_neq h' h)). Qed.

(** ** Reading *)
Lemma inode_read_at_ok n σ h i c size off :
  fs_inv (Z.to_nat size + n) σ -> open_file σ h i c -> 0 <= size -> 0 <= off -> off + size < 2 ^ 31 ->
  exists σ', inode_read_at h size off σ = Ok (window c (Z.to_nat off) (Z.to_nat size), σ') /\
    fs_inv n σ' /\ tbl σ' = tbl σ /\ open_file σ' h i c /\ read_only (i_data i) c σ σ' /\
    own σ' (i_data i) c = own σ (i_data i) c.
Proof.
  intros Hok [Hfind Hne Hrep] Hs Ho Hb. unfold inode_read_at, get_inode, mbind, st_bind. rewrite Hfind.
  destruct (read_loop_ok (H1 := io_fs N (tbl σ)) (Z.to_nat size) n σ (i_data i) c size off [])
    as (σ' & Hrun & Hok' & Hrep' & Hown & Hro); [done|exact Hok|exact Hrep|done..|].
  pose proof (fo_tbl _ _ _ _ Hok') as Ht. exists σ'. split; [exact Hrun|].
  split; [unfold fs_inv; by rewrite Ht|]. split; [exact Ht|]. injection Ht as Ht1 Ht2 _ _ _.
  split; [|split; [exact Hro|exact Hown]]. split; [by rewrite Ht1|by rewrite Ht2|exact Hrep'].
Qed.

(** ** Writing *)

(** The part of inode_write_at that grows the file. *)
Definition grow_step (h : Z) (len : Z) (i : inode) : st (fsys D) unit :=
  if length_ (i_data i) <? len then
    (if is_dir (i_data i) then mret tt else inode_lock_acquire h) ≫= fun _ =>
    j ← gets stack;
    r ← inode_grow j (i_data i) len;
    update_inode h (with_data r.2) ≫= fun _ =>
    (if is_dir (i_data i) then mret tt else inode_lock_release h)
  else mret tt.

Lemma inode_write_at_split h buf off σ :
  inode_write_at h buf off σ =
    (i ← get_inode h;
     if negb (i_deny i =? 0) then mret 0 else
     grow_step h (s32 (off + Z.of_nat (length buf))) i ≫= fun _ =>
     i ← get_inode h; write_loop (length buf) (i_data i) buf off 0) σ.
Proof. reflexivity. Qed.

Definition may_lock (i : inode) : Prop := is_dir (i_data i) = true \/ i_locked i = false.

(** The fields of struct inode a write leaves alone. *)
Definition same_handle (i i' : inode) : Prop :=
  i_sector i' = i_sector i /\ i_open_cnt i' = i_open_cnt i /\ i_removed i' = i_removed i /\
  i_deny i' = i_deny i /\ (may_lock i -> i_locked i' = i_locked i).

Lemma lock_ok n σ h i c :
  fs_inv n σ -> open_file σ h i c -> may_lock i ->
  exists σ' i', (if is_dir (i_data i) then mret tt else inode_lock_acquire h) σ = Ok (tt, σ') /\
    fs_inv n σ' /\ quiet σ σ' /\ open_file σ' h i' c /\ stack σ' = stack σ /\
    table_others h σ σ' /\ i' = (if is_dir (i_data i) then i else with_locked true i).
Proof.
  intros Hok [Hfind Hne Hrep] Hlk. destruct (is_dir (i_data i)) eqn:Ed.
  { exists σ, i. split_and!; done. }
  destruct Hlk as [?|Hlk]; [congruence|].
  destruct (tweak_inode n σ h (with_locked true) i Hok Hne Hfind) as (Hu & Hok' & Hq & Hf).
  exists (updated h (with_locked true) σ), (with_locked true i).
  split; [unfold inode_lock_acquire, get_inode, kassert_st, mbind, st_bind; by rewrite Hfind, Hlk|].
  split; [done|]. split; [exact Hq|]. split; [|split; [done|split; [apply table_others_updated|done]]].
  split; [done|done|]. destruct Hq as [Hb Hm].
  apply (file_rep_frame _ _ _ _ _ Hrep Hb Hm). tauto.
Qed.

Lemma fs_inv_mono m n σ : (n <= m)%nat -> fs_inv m σ -> fs_inv n σ.
Proof. intros Hle Hok. exact (env_ok_mono (SectorIOLaws := io_fs N (tbl σ)) m n σ Hle Hok). Qed.

Lemma fs_inv_tbl T n σ : fs_ok N T n σ -> fs_inv n σ.
Proof. intros Hok. unfold fs_inv. by rewrite (fo_tbl _ _ _ _ Hok). Qed.

Lemma open_file_quiet σ σ' h i c :
  quiet σ σ' -> find_inode h (open_inodes σ') = Some i -> free_map_file σ' <> Some h ->
  file_rep σ (i_data i) c -> open_file σ' h i c.
Proof.
  intros [Hb Hm] Hf Hne Hrep. split; [done|done|]. apply (file_rep_frame _ _ _ _ _ Hrep Hb Hm). tauto.
Qed.

(** The cost of one free map operation. *)
Definition map_cost : nat := Z.to_nat (byte_cnt N).

Lemma grow_step_ok n σ h i c len :
  let m := sectors_for (fsize c) in let m' := sectors_for len in
  junk_ok (stack σ) -> open_file σ h i c -> may_lock i -> fsize c < len -> len <= 512 * MAX_SECTORS ->
  grow_safe m m' -> fs_inv (needed m m' * map_cost + n) σ -> (needed m m' <= free_cnt σ)%nat -> fresh_cold σ ->
  exists σ' i' (fs : list Z), grow_step h len i σ = Ok (tt, σ') /\ fs_inv n σ' /\
    open_file σ' h i' (c ++ replicate (Z.to_nat (len - fsize c)) 0) /\ same_handle i i' /\
    same_meta (set_length len (i_data i)) (i_data i') /\
    others_same (own σ (i_data i) c) σ σ' /\ fresh_cold σ' /\
    (free_cnt σ = needed m m' + free_cnt σ')%nat /\ table_others h σ σ' /\
    (forall t, t ∈ own σ' (i_data i') (c ++ replicate (Z.to_nat (len - fsize c)) 0) ->
       t ∈ own σ (i_data i) c \/ t ∈ fs) /\ (forall t, t ∈ fs -> ~ used σ t).
Proof.
  intros m m' Hj Hof Hlk Hlt Hmax Hsafe Hok Hfree Hcold. pose proof Hof as [Hfind Hne Hrep].
  unfold grow_step. rewrite (fr_len _ _ _ Hrep), (proj2 (Z.ltb_lt _ _)) by lia.
  destruct (lock_ok _ σ h i c Hok Hof Hlk) as (σ1 & i1 & Hlock & Hok1 & Hq1 & Hof1 & Hst1 & Hto1 & Hi1).
  unfold mbind, st_bind. rewrite Hlock. unfold gets. rewrite Hst1.
  assert (file_rep σ1 (i_data i) c /\ own σ1 (i_data i) c = own σ (i_data i) c) as [Hrep1 Hown1].
  { destruct Hq1 as [Hb Hm]. apply (file_rep_frame _ _ _ _ _ Hrep Hb Hm). tauto. }
  pose proof (sm_free _ _ (proj2 Hq1)) as Hfr1.
  assert (fresh_cold σ1) as Hcold1.
  { pose proof (fo_io _ _ _ _ Hok). destruct Hq1 as [[b1 b2 b3 b4] [m1 m2]]. intros t Ht Hu.
    unfold in_dev in *. rewrite b1 in Ht. rewrite m1 in Hu. apply b4; [done|tauto|]. by apply Hcold. }
  destruct (grow_file (H1 := io_fs N (tbl σ1)) (H2 := fs_laws N (tbl σ1)) n σ1 (i_data i) c len (stack σ))
    as (fs & σ2 & d2 & Hgrow & Hok2 & Hrep2 & Hmeta & Hg2 & Hfl & Hown2);
    [done|exact Hrep1|lia|done|done|exact Hok1|by rewrite Hfr1|exact Hcold1|].
  unfold fs_sector_env. rewrite Hgrow. cbn [fst snd].
  pose proof (fo_tbl _ _ _ _ Hok2) as Ht2. pose proof (table_others_tbl h _ _ Ht2) as Hto2.
  injection Ht2 as Ho2 Hf2 _ _ _. destruct Hof1 as [Hfind1 Hne1 _].
  destruct (tweak_inode n σ2 h (with_data d2) i1 (fs_inv_tbl _ _ _ Hok2)) as (Hup & Hok3 & Hq3 & Hfind3);
    [by rewrite Hf2|by rewrite Ho2|].
  rewrite Hup. set (σ3 := updated h (with_data d2) σ2) in *.
  assert (exists σ4 i4, (if is_dir (i_data i) then mret tt else inode_lock_release h) σ3 = Ok (tt, σ4) /\
     fs_inv n σ4 /\ quiet σ2 σ4 /\ find_inode h (open_inodes σ4) = Some i4 /\ free_map_file σ4 <> Some h /\
     i_data i4 = d2 /\ same_handle i i4 /\ table_others h σ3 σ4)
    as (σ4 & i4 & Hun & Hok4 & Hq4 & Hfind4 & Hne4 & Hd4 & Hh4 & Hto4).
  { assert (free_map_file σ3 <> Some h) as Hne3 by (change (free_map_file σ3) with (free_map_file σ2); by rewrite Hf2).
    destruct (is_dir (i_data i)) eqn:Ed.
    - exists σ3, (with_data d2 i1). split_and!; try done; by rewrite Hi1.
    - destruct (tweak_inode n σ3 h (with_locked false) (with_data d2 i1) Hok3 Hne3 Hfind3) as (Hu & Hok4 & Hq4 & Hf4).
      exists (updated h (with_locked false) σ3), (with_locked false (with_data d2 i1)).
      split; [unfold inode_lock_release, get_inode, kassert_st, mbind, st_bind; rewrite Hfind3; by rewrite Hi1|].
      split; [done|]. split; [by eapply quiet_trans|]. split; [done|]. split; [done|]. split; [done|].
      split; [|apply table_others_updated].
      rewrite Hi1. split_and!; try done. intros [?|Hl]; [congruence|done]. }
  exists σ4, i4, fs. split; [exact Hun|]. split; [exact Hok4|]. rewrite Hd4.
  assert (own σ4 d2 (c ++ replicate (Z.to_nat (len - fsize c)) 0) = own σ2 d2 (c ++ replicate (Z.to_nat (len - fsize c)) 0)) as Hown4.
  { destruct Hq4 as [Hb Hm]. apply (file_rep_frame _ _ _ _ _ Hrep2 Hb Hm). tauto. }
  split; [apply (open_file_quiet σ2); [done|done|done|by rewrite Hd4]|]. split; [exact Hh4|]. split; [exact Hmeta|].
  assert (others_same (own σ (i_data i) c) σ σ4) as Hos.
  { apply (others_trans _ (own σ1 (i_data i) c) _ σ1); [|apply others_quiet, Hq1|].
    { intros t Ht _. by rewrite Hown1 in Ht. }
    apply (others_trans _ [] _ σ2); [by intros t ?%elem_of_nil| |apply others_quiet, Hq4].
    eapply others_grew; [exact Hg2|]. intros t Ht. apply elem_of_app. by right. }
  split; [exact Hos|]. split; [|split; [|split; [|split]]].
  - assert (fresh_cold σ2) as Hc2.
    { eapply (fresh_cold_grew (H1 := io_fs N (tbl σ1)) (H2 := fs_laws N (tbl σ1))); [exact Hok1|exact Hg2|exact Hcold1]. }
    destruct Hq4 as [[b1 b2 b3 b4] [m1 m2]]. intros t Ht Hu. unfold in_dev in *. rewrite b1 in Ht. rewrite m1 in Hu.
    apply b4; [done|tauto|]. by apply Hc2.
  - rewrite <- Hfr1, (gr_free _ _ _ _ Hg2), Hfl. by rewrite (sm_free _ _ (proj2 Hq4)).
  - eapply table_others_trans; [exact Hto1|]. eapply table_others_trans; [exact Hto2|].
    eapply table_others_trans; [apply table_others_updated|exact Hto4].
  - intros t. rewrite Hown4, <- Hown1. apply Hown2.
  - intros t Ht Hu. destruct (gr_fresh _ _ _ _ Hg2 t Ht) as [_ Hn]. apply Hn. by apply (sm_used _ _ (proj2 Hq1)).
Qed.

(** The whole of inode_write_at. *)
Lemma inode_write_at_ok n σ h i c off buf :
  let len := Z.max (fsize c) (off + fsize buf) in
  let m := sectors_for (fsize c) in let m' := sectors_for len in
  junk_ok (stack σ) -> open_file σ h i c -> i_deny i = 0 -> may_lock i -> Forall is_byte buf ->
  0 <= off -> off + fsize buf <= 512 * MAX_SECTORS -> grow_safe m m' ->
  fs_inv (needed m m' * map_cost + (length buf + n)) σ -> (needed m m' <= free_cnt σ)%nat -> fresh_cold σ ->
  exists σ' i', inode_write_at h buf off σ = Ok (fsize buf, σ') /\ fs_inv n σ' /\
    open_file σ' h i' (write_result c off buf) /\ same_handle i i' /\
    others_same (own σ (i_data i) c) σ σ' /\ (free_cnt σ = needed m m' + free_cnt σ')%nat /\
    table_others h σ σ'.
Proof.
  intros len m m' Hj Hof Hd Hlk Hby Ho Hmax Hsafe Hok Hfree Hcold. pose proof Hof as [Hfind Hne Hrep].
  rewrite inode_write_at_split. unfold get_inode, mbind, st_bind. rewrite Hfind, Hd. cbn [negb Z.eqb].
  pose proof (fr_max _ _ _ Hrep) as Hcm. unfold fsize, MAX_SECTORS in *. rewrite s32_small by lia.
  set (c1 := c ++ replicate (Z.to_nat (len - fsize c)) 0).
  assert (fsize c1 = len) as Hc1 by (unfold c1, fsize in *; rewrite length_app, length_replicate; lia).
  assert (exists σ1 i1 (fs : list Z), grow_step h (off + Z.of_nat (length buf)) i σ = Ok (tt, σ1) /\ fs_inv (length buf + n) σ1 /\
    open_file σ1 h i1 c1 /\ same_handle i i1 /\ others_same (own σ (i_data i) c) σ σ1 /\
    (free_cnt σ = needed m m' + free_cnt σ1)%nat /\ table_others h σ σ1 /\
    (forall t, t ∈ own σ1 (i_data i1) c1 -> t ∈ own σ (i_data i) c \/ t ∈ fs) /\ (forall t, t ∈ fs -> ~ used σ t))
    as (σ1 & i1 & fs & Hgrow & Hok1 & Hof1 & Hh1 & Hos1 & Hfr1 & Hto1 & Hown1 & Hfs).
  { destruct (decide (Z.of_nat (length c) < off + Z.of_nat (length buf))) as [Hlt|Hge].
    - replace (off + Z.of_nat (length buf)) with len by lia.
      destruct (grow_step_ok (length buf + n) σ h i c len) as (σ1 & i1 & fs & R1 & R2 & R3 & R4 & _ & R5 & _ & R6 & R7 & R8 & R9);
        try done; unfold fsize, MAX_SECTORS; try lia.
      exists σ1, i1, fs. split_and!; done.
    - exists σ, i, []. unfold grow_step. rewrite (fr_len _ _ _ Hrep). unfold fsize.
      rewrite (proj2 (Z.ltb_ge _ _)) by lia.
      assert (m' = m) as Hmm by (unfold m, m'; f_equal; lia).
      assert (c1 = c) as -> by (unfold c1, fsize; replace (len - Z.of_nat (length c)) with 0 by lia; simpl; by rewrite app_nil_r).
      assert (needed m m' = 0%nat) as Hn0 by (unfold needed; rewrite Hmm; lia). rewrite Hn0 in *.
      split; [done|]. split; [exact Hok|]. split; [exact Hof|]. split; [by split_and!|].
      split; [apply others_quiet, quiet_refl|]. split; [done|]. split; [by apply table_others_tbl|]. split; [by left|]. by intros t ?%elem_of_nil. }
  rewrite Hgrow. destruct Hof1 as [Hfind1 Hne1 Hrep1]. rewrite Hfind1.
  destruct (write_loop_ok (H1 := io_fs N (tbl σ1)) (length buf) n σ1 (i_data i1) c1 buf off 0)
    as (σ2 & Hrun & Hok2 & Hrep2 & Hown2 & Hwr);
    [done|exact Hok1|exact Hrep1|done|done|unfold fsize in *; lia|].
  pose proof (fo_tbl _ _ _ _ Hok2) as Ht2.
  exists σ2, i1. split; [exact Hrun|]. split; [eapply fs_inv_tbl; exact Hok2|].
  pose proof (table_others_tbl h _ _ Ht2) as Hto2. injection Ht2 as Ho2 Hf2 _ _ _.
  split; [split; [by rewrite Ho2|by rewrite Hf2|]|split; [exact Hh1|split; [|split]]].
  - unfold write_result.
    replace (Z.to_nat (off + fsize buf - fsize c)) with (Z.to_nat (len - fsize c)) by (unfold fsize in *; lia). exact Hrep2.
  - eapply others_trans; [|exact Hos1|by apply others_wrote].
    intros t Ht Hu. destruct (Hown1 t) as [?|Hin]; [apply elem_of_app; by left|done|]. by destruct (Hfs t Hin).
  - by rewrite (sm_free _ _ (wr_map _ _ _ _ Hwr)).
  - by eapply table_others_trans.
Qed.

(** ** Closing and deleting *)

Lemma find_drop h h' l :
  find_inode h (filter (fun x => x.1 <> h') l) = if h =? h' then None else find_inode h l.
Proof.
  induction l as [|[a i] l IH]; simpl; [by destruct (h =? h')|].
  rewrite filter_cons. simpl. case_decide as Ha.
  - simpl. rewrite IH. destruct (Z.eqb_spec a h) as [->|]; [by rewrite (proj2 (Z.eqb_neq h h'))|done].
  - assert (a = h') as -> by (destruct (decide (a = h')); [done|by destruct Ha]). rewrite IH.
    destruct (Z.eqb_spec h h') as [->|Hne]; [done|]. by rewrite (proj2 (Z.eqb_neq h' h)) by done.
Qed.

(** Changes of the table that keep the free map's entry. *)
Lemma table_quiet n σ l :
  fs_inv n σ -> (forall h, free_map_file σ = Some h -> find_inode h l = find_inode h (open_inodes σ)) ->
  fs_inv n (with_inodes l σ) /\ quiet σ (with_inodes l σ).
Proof.
  intros Hok Hl. apply core_quiet; [exact Hok|done|done|].
  unfold map_inode_of. cbn [free_map_file with_inodes open_inodes].
  destruct (free_map_file σ) as [h0|] eqn:E; [|done]. simpl. by apply Hl.
Qed.

Lemma quiet_file σ σ' i c : quiet σ σ' -> file_rep σ i c -> file_rep σ' i c /\ own σ' i c = own σ i c.
Proof. intros [Hb Hm] Hrep. apply (file_rep_frame _ _ _ _ _ Hrep Hb Hm). tauto. Qed.

(** The last close of a removed file gives back its sectors. *)
Lemma inode_close_removed n σ h i c :
  let s := i_sector i in let k := Z.to_nat (Z.of_nat (length (own σ (i_data i) c)) + 1) in
  fs_inv (k * map_cost + n) σ -> open_file σ h i c -> i_open_cnt i = 1 -> i_removed i = true ->
  in_dev σ s -> used σ s -> ~ reserved σ s -> s ∉ own σ (i_data i) c ->
  exists σ', inode_close (Some h) σ = Ok (tt, σ') /\ fs_inv n σ' /\
    find_inode h (open_inodes σ') = None /\
    (forall t, used σ' t <-> used σ t /\ t <> s /\ t ∉ own σ (i_data i) c) /\
    Z.of_nat (free_cnt σ') = Z.of_nat (free_cnt σ) + 1 + Z.of_nat (length (own σ (i_data i) c)).
Proof.
  intros s k Hok Hof Hcnt Hrm Hdev Hus Hres Hnot. pose proof Hof as [Hfind Hne Hrep].
  unfold inode_close.
  destruct (tweak_inode (k * map_cost + n) σ h (fun i => with_open (i_open_cnt i - 1) i) i Hok Hne Hfind)
    as (Hup & Hok1 & Hq1 & Hf1).
  unfold mbind, st_bind. rewrite Hup. set (σ1 := updated _ _ σ) in *.
  unfold get_inode. rewrite Hf1. cbn [i_open_cnt with_open i_removed i_sector i_data]. rewrite Hcnt, Hrm.
  change (1 - 1 =? 0) with true. cbv iota. unfold drop_inode, modify.
  destruct (table_quiet (k * map_cost + n) σ1 (filter (fun x => x.1 <> h) (open_inodes σ1)) Hok1) as [Hok2 Hq2].
  { intros h0 Hh0. change (free_map_file σ = Some h0) in Hh0. rewrite find_drop. by rewrite (proj2 (Z.eqb_neq h0 h)) by congruence. }
  set (σ2 := with_inodes _ σ1) in *. pose proof (quiet_trans _ _ _ Hq1 Hq2) as Hq.
  destruct (quiet_file _ _ _ _ Hq Hrep) as [Hrep2 Hown2]. destruct Hq as [[b1 b2 b3 b4] [m1 m2]].
  set (L := length (own σ (i_data i) c)) in *.
  destruct (env_release_ok (SectorEnvLaws := fs_laws N (tbl σ2)) (L * map_cost + n) σ2 s)
    as (σ3 & Hrel & Hok3 & Hsb3 & Hu3 & Hf3).
  { eapply env_ok_mono; [|exact Hok2]. unfold k. change (@env_cost _ _ _ _ (fs_laws N (tbl σ2))) with map_cost. nia. }
  { unfold in_dev. by rewrite b1. } { by rewrite m1. } { by rewrite b2. }
  fold s. unfold fs_sector_env. rewrite Hrel.
  assert (forall t, t ∈ own σ2 (i_data i) c -> ~ reserved σ2 t) as Hnr.
  { intros t Ht. apply (rep_own _ _ _ (fr_rep _ _ _ Hrep2) t Ht). }
  destruct (file_rep_transfer σ2 (i_data i) c σ3 Hrep2 (sb_nsec _ _ _ Hsb3)) as [Hrep3 Hown3].
  { intros t _. apply (sb_reserved _ _ _ Hsb3). }
  { intros t Ht. destruct (rep_own _ _ _ (fr_rep _ _ _ Hrep2) t Ht) as (Hd & Hu & Hr).
    split; [by apply (sb_view _ _ _ Hsb3)|]. split; [|by apply (sb_cold _ _ _ Hsb3)].
    apply Hu3. split; [done|]. intros ->. rewrite Hown2 in Ht. exact (Hnot Ht). }
  pose proof (fr_len _ _ _ Hrep) as Hlen. pose proof (fr_max _ _ _ Hrep) as Hmax. unfold MAX_SECTORS, fsize in *.
  assert (Z.of_nat L = sectors_for (Z.of_nat (length c)) + index_cnt (sectors_for (Z.of_nat (length c)))) as HL.
  { unfold L, own. rewrite length_app, Nat2Z.inj_add, length_index. f_equal.
    unfold data. rewrite length_fmap, length_seqZ. unfold fsize, sectors_for. dlia. }
  destruct (free_inode_ok (H1 := io_fs N (tbl σ2)) (H2 := fs_laws N (tbl σ2)) σ3 (i_data i)
    (sectors_for (Z.of_nat (length c))) (fr_rep _ _ _ Hrep3) n) as (σ4 & Hfree & Hok4 & [d1 d2 d3 d4 d5 d6]).
  { by rewrite Hlen. } { rewrite Hlen. lia. }
  { rewrite <- HL, Nat2Z.id. exact Hok3. }
  exists σ4. split; [exact Hfree|]. split; [eapply fs_inv_tbl; exact Hok4|]. split; [|split].
  - pose proof (fo_tbl _ _ _ _ Hok4) as Ht4. injection Ht4 as Ht4 _ _ _ _. rewrite Ht4.
    unfold σ2. simpl. rewrite find_drop. by rewrite Z.eqb_refl.
  - intros t. rewrite d3, Hu3, m1.
    assert (own σ (i_data i) c = own σ3 (i_data i) c) as -> by congruence.
    unfold own, fsize. rewrite not_elem_of_app. tauto.
  - rewrite length_index in d4. rewrite Hf3 in d4. rewrite m2 in d4. lia.
Qed.
End files.

(** ** Sample file systems

    Sixteen sectors, the free map in sector 2 and its inode in sector 0. *)
Definition small_inode (s len : Z) : inode_disk :=
  InodeDisk (s :: replicate 14 0) 1 false 1 0 0 0 len INODE_MAGIC (replicate 105 0).
Definition pad_sector (l : list Z) : list Z := l ++ replicate (512 - length l) 0.

Definition zero_junk : stack_junk := Junk (replicate 128 0) (replicate 128 0) (replicate 128 0).
Lemma zero_junk_ok : junk_ok zero_junk.
Proof.
  assert (length (replicate 128 0) = 128%nat /\ Forall is_word (replicate 128 0)) as Hz
    by (split; [apply length_replicate|apply Forall_replicate; unfold is_word; lia]).
  constructor; [exact Hz|]. constructor; [exact Hz|]. constructor; [exact Hz|constructor].
Qed.

Section sample.
Context (disk : ramdisk) (w : Z) (tab : list (Z * inode)) (next : Z).

Definition sample_fs : fsys ramdisk :=
  Fsys (Cache (replicate 64 (Entry false 0 false false [] 0)) 0 (Block [] BLOCK_FILESYS 16 disk 0 0))
    (Bitmap 16 [w]) (Some 100) tab next [] zero_junk.

Record sample_ok : Prop := {
  sa_len : length disk = 16%nat;
  sa_disk : Forall (fun x => length x = 512%nat /\ Forall (fun b => 0 <= b < 256) x) disk;
  sa_word : 0 <= w < 2 ^ 16 /\ Z.testbit w 2 = true;
  sa_map : znth [] disk 2 = pad_sector (le_bytes 4 w);
  sa_inode : find_inode 100 tab = Some (Inode 0 1 false 0 false (small_inode 2 4))
}.

Lemma sample_logical : sample_ok -> cache_inv (fs_cache sample_fs) /\ forall s, logical (fs_cache sample_fs) s = znth [] disk s.
Proof.
  intros Hok. destruct (empty_cache_inv (D := ramdisk) (replicate 64 (Entry false 0 false false [] 0)) 0
    (Block [] BLOCK_FILESYS 16 disk 0 0)) as [Hinv Hlog]; [..|split; [exact Hinv|exact Hlog]].
  - split; [exact (sa_disk Hok)|]. split; [pose proof (sa_len Hok); split; simpl; lia|done].
  - reflexivity.
  - by intros e [-> _]%elem_of_replicate.
Qed.

Lemma sample_uncached s : uncached (fs_cache sample_fs) s.
Proof. intros k e He. apply lookup_replicate in He as [-> _]. by intros [? _]. Qed.

Lemma sample_cold : fresh_cold sample_fs.
Proof. intros t _ _. apply sample_uncached. Qed.

Lemma sample_marked t : 0 <= t < 16 -> Z.testbit w t = true -> marked (Bitmap 16 [w]) t.
Proof.
  intros Ht Hb. split; [lia|]. rewrite lookup_to_bools by (simpl; lia). f_equal.
  unfold bit, elem_idx, ELEM_BITS. simpl bits. rewrite Z.div_small, Z.mod_small by lia. exact Hb.
Qed.

Lemma sample_map_rep : sample_ok -> raw_rep sample_fs (small_inode 2 4) (bitmap_bytes (Bitmap 16 [w])).
Proof.
  intros Hok. destruct (sa_word Hok) as [Hw Hb2].
  apply (one_sector_file (H0 := obs_raw) sample_fs _ _ 2); try reflexivity.
  - unfold fsize. simpl. lia.
  - apply words_are_bytes.
  - change (view sample_fs 2) with (logical (fs_cache sample_fs) 2). destruct (sample_logical Hok) as [_ ->].
    rewrite (sa_map Hok). reflexivity.
  - unfold in_dev. simpl. unfold sectors. simpl. lia.
  - by apply sample_marked.
  - intros [].
Qed.

Lemma sample_inv n : sample_ok -> Z.of_nat n < 2 ^ 31 -> fs_inv 16 n sample_fs.
Proof.
  intros Hok Hn. destruct (sa_word Hok) as [Hw _]. split.
  - split_and!; [apply (sample_logical Hok)|split; simpl; lia|simpl; unfold sectors; simpl; lia].
  - split; [simpl; lia|reflexivity|]. simpl. apply Forall_singleton. unfold is_word. lia.
  - reflexivity.
  - reflexivity.
  - reflexivity.
  - exists (Inode 0 1 false 0 false (small_inode 2 4)). split; [exact (sa_inode Hok)|]. split; [reflexivity|].
    by apply sample_map_rep.
Qed.

Lemma sample_reserved t : sample_ok -> reserved sample_fs t -> t = 2.
Proof.
  intros Hok Hr. unfold reserved, obs_fs, map_inode_of in Hr. simpl in Hr. rewrite (sa_inode Hok) in Hr.
  change (t ∈ raw_own sample_fs (small_inode 2 4) (bitmap_bytes (Bitmap 16 [w]))) in Hr.
  assert (raw_own sample_fs (small_inode 2 4) (bitmap_bytes (Bitmap 16 [w])) = [2]) as E by reflexivity.
  rewrite E in Hr. by apply list_elem_of_singleton in Hr.
Qed.

(** A file in one sector [s]. *)
Lemma sample_file i c s :
  sample_ok -> 3 <= s < 16 -> Z.testbit w s = true -> znth [] disk s = pad_sector c ->
  (length (blocks i) = 15%nat /\ block_no i 0 = s /\ direct_count i = 1 /\ indirect_count i = 0 /\
   double_indirect_count i = 0 /\ length_ i = fsize c) -> 0 < fsize c <= 512 -> Forall is_byte c ->
  file_rep sample_fs i c /\ own sample_fs i c = [s].
Proof.
  intros Hok Hs Hb Hd (H1 & H2 & H3 & H4 & H5 & H6) Hc Hby. split.
  - apply (one_sector_file sample_fs i c s); try done.
    + unfold in_dev. simpl. unfold sectors. simpl. lia.
    + apply sample_marked; [lia|done].
    + intros Hr%sample_reserved; [lia|done].
  - unfold own. assert (sectors_for (fsize c) = 1) as -> by (unfold sectors_for; dlia).
    rewrite index_small by lia. rewrite app_nil_r. change (data sample_fs i 1) with [block_no i 0]. by rewrite H2.
Qed.
End sample.

(** A file with the bytes 7 and 8 in sector 4, open at address 101. *)
Definition small_disk : ramdisk :=
  pad_sector (take 92 (inode_bytes (small_inode 2 4))) :: replicate 1 (pad_sector []) ++
  [pad_sector [31; 0; 0; 0]; pad_sector (take 92 (inode_bytes (small_inode 4 2))); pad_sector [7; 8]] ++
  replicate 11 (pad_sector []).
Definition small_tab : list (Z * inode) :=
  [(101, Inode 3 1 false 0 false (small_inode 4 2)); (100, Inode 0 1 false 0 false (small_inode 2 4))].
Definition small_fs : fsys ramdisk := sample_fs small_disk 31 small_tab 102.

Ltac sample_tac :=
  split; [vm_compute; reflexivity|apply (bool_decide_unpack _); vm_compute; exact I|
    split; [lia|reflexivity]|vm_compute; reflexivity|reflexivity].

Lemma small_ok : sample_ok small_disk 31 small_tab.
Proof. sample_tac. Qed.

Lemma small_inv n : Z.of_nat n < 2 ^ 31 -> fs_inv 16 n small_fs.
Proof. by apply sample_inv, small_ok. Qed.

Lemma small_cold : fresh_cold small_fs.
Proof. apply sample_cold. Qed.

Lemma small_reserved t : reserved small_fs t -> t = 2.
Proof. apply sample_reserved, small_ok. Qed.

Lemma small_open : open_file small_fs 101 (Inode 3 1 false 0 false (small_inode 4 2)) [7; 8].
Proof.
  split; [reflexivity|done|]. apply (sample_file _ _ _ _ _ _ 4 small_ok); try reflexivity.
  - lia.
  - split_and!; reflexivity.
  - vm_compute. split; [done|discriminate].
  - repeat constructor; unfold is_byte; lia.
Qed.

(** ** Properties *)




(** A second open file, with the byte 9 in sector 5. *)
Definition small_disk2 : ramdisk := <[2%nat := pad_sector [63; 0; 0; 0]]> (<[5%nat := pad_sector [9]]> small_disk).
Definition small_tab2 : list (Z * inode) :=
  [(101, Inode 3 1 false 0 false (small_inode 4 2)); (102, Inode 1 1 false 0 false (small_inode 5 1));
   (100, Inode 0 1 false 0 false (small_inode 2 4))].
Definition small_fs2 : fsys ramdisk := sample_fs small_disk2 63 small_tab2 103.

Lemma small2_ok : sample_ok small_disk2 63 small_tab2.
Proof. sample_tac. Qed.

Lemma small2_files :
  file_rep small_fs2 (small_inode 4 2) [7; 8] /\ file_rep small_fs2 (small_inode 5 1) [9].
Proof.
  split; [apply (sample_file _ _ _ _ _ _ 4 small2_ok)|apply (sample_file _ _ _ _ _ _ 5 small2_ok)]; try reflexivity;
    try lia; try (split_and!; reflexivity); try (vm_compute; split; [done|discriminate]);
    repeat constructor; unfold is_byte; lia.
Qed.


(** The last inode_close of a removed file puts exactly its inode
    sector, its data sectors and its index sectors back into the free
    map, and drops the inode from the list of open inodes. *)
Theorem removed_file_sectors_freed {D} `{BlockDriverLaws D} N n (σ : fsys D) h i c :
  let s := i_sector i in let k := Z.to_nat (Z.of_nat (length (own σ (i_data i) c)) + 1) in
  fs_inv N (k * map_cost N + n) σ -> open_file σ h i c -> i_open_cnt i = 1 -> i_removed i = true ->
  in_dev σ s -> used σ s -> ~ reserved σ s -> s ∉ own σ (i_data i) c ->
  exists σ', inode_close (Some h) σ = Ok (tt, σ') /\ fs_inv N n σ' /\
    find_inode h (open_inodes σ') = None /\
    (forall t, used σ' t <-> used σ t /\ t <> s /\ t ∉ own σ (i_data i) c) /\
    Z.of_nat (free_cnt σ') = Z.of_nat (free_cnt σ) + 1 + Z.of_nat (length (own σ (i_data i) c)).
Proof. apply inode_close_removed. Qed.

Lemma removed_file_sectors_freed_witness :
  exists σ σ', inode_remove 101 small_fs = Ok (tt, σ) /\ inode_close (Some 101) σ = Ok (tt, σ') /\
    free_cnt σ = 11%nat /\ Z.of_nat (free_cnt σ') = 13.
Proof.
  destruct (tweak_inode 16 100 small_fs 101 (with_removed true) (Inode 3 1 false 0 false (small_inode 4 2)))
    as (Hup & Hok & Hq & Hf); [by apply small_inv|done|reflexivity|].
  destruct (quiet_file _ _ _ _ Hq (of_rep _ _ _ _ small_open)) as [Hrep Hown].
  set (σ := updated 101 (with_removed true) small_fs) in *.
  destruct (removed_file_sectors_freed 16 0 σ 101 (Inode 3 1 true 0 false (small_inode 4 2)) [7; 8])
    as (σ' & Hclose & _ & _ & _ & Hcnt).
  - assert (own σ (small_inode 4 2) [7; 8] = [4]) as E by reflexivity. cbn [i_data]. rewrite E.
    eapply fs_inv_mono; [|exact Hok]. vm_compute. lia.
  - split; [exact Hf|done|exact Hrep].
  - reflexivity.
  - reflexivity.
  - vm_compute. split; [discriminate|done].
  - split; [vm_compute; discriminate|]. vm_compute. reflexivity.
  - intros Hr. change (reserved small_fs 3) in Hr. apply small_reserved in Hr. lia.
  - assert (own σ (small_inode 4 2) [7; 8] = [4]) as E by reflexivity. cbn [i_data i_sector]. rewrite E.
    intros X%list_elem_of_singleton. lia.
  - exists σ, σ'. split; [exact Hup|]. split; [exact Hclose|]. split; [reflexivity|].
    rewrite Hcnt. reflexivity.
Defined.

(** Free_map_allocate hands out a sector that was free and marks it,
    and nothing else; the map is in its file on return: reading the file
    back as free_map_open does gives the same map. *)
Theorem free_map_allocate_stored {D} `{BlockDriverLaws D} N n (σ : fsys D) :
  0 < N -> fs_inv N (map_cost N + (map_cost N + n)) σ -> (0 < free_cnt σ)%nat ->
  exists s σ', free_map_allocate (@inode_write_at D (fs_env 0)) 1 σ = Ok (Some s, σ') /\
    0 <= s < N /\ ~ marked (free_map σ) s /\
    (forall t, marked (free_map σ') t <-> marked (free_map σ) t \/ t = s) /\
    exists i data σ2 b, map_inode_of σ' = Some i /\ read_at (i_data i) (byte_cnt N) 0 σ' = Ok (data, σ2) /\
      bitmap_of_bytes (free_map σ) data = Ok b /\ to_bools b = to_bools (free_map σ').
Proof.
  intros HN Hok Hfree.
  destruct (env_allocate_ok (SectorEnvLaws := fs_laws N (tbl σ)) (map_cost N + n) σ Hok Hfree)
    as (s & σ' & Hrun & Hok' & Hs & Hu & _ & Hused & _).
  exists s, σ'. split; [exact Hrun|]. split; [rewrite <- (fo_size _ _ _ _ Hok); exact Hs|].
  split; [exact Hu|]. split; [exact Hused|].
  pose proof Hok' as [Hio Hwf Hcnt Hsz _ (i & Hi & _ & Hrep)].
  assert (Z.of_nat (length (bitmap_bytes (free_map σ'))) = byte_cnt N) as Hl by (by rewrite <- Hcnt, bitmap_bytes_len).
  destruct (read_loop_ok (H1 := io_raw (@inode_write_at D (fs_env 0))) (Z.to_nat (byte_cnt N)) n σ' (i_data i)
    (bitmap_bytes (free_map σ')) (byte_cnt N) 0 []) as (σ2 & Hread & _);
    [done|exact Hio|exact Hrep|lia|done| |].
  { pose proof (fr_max _ _ _ Hrep) as Hm. unfold MAX_SECTORS, fsize in Hm. lia. }
  destruct (bitmap_bytes_roundtrip (free_map σ') (free_map σ) Hwf) as (b & Hb & _ & Hbools);
    [rewrite Hcnt; apply (fo_cnt _ _ _ _ Hok)|lia|].
  exists i, (bitmap_bytes (free_map σ')), σ2, b. split; [done|]. split; [|done].
  etransitivity; [exact Hread|]. do 2 f_equal. unfold window. simpl. rewrite drop_0. apply take_ge. lia.
Qed.

Lemma free_map_allocate_stored_witness :
  exists σ', free_map_allocate (@inode_write_at ramdisk (fs_env 0)) 1 small_fs = Ok (Some 5, σ') /\
    marked (free_map σ') 5.
Proof.
  destruct (free_map_allocate_stored 16 0 small_fs) as (s & σ' & Hrun & _ & _ & Hm & _).
  - lia.
  - apply small_inv. vm_compute. reflexivity.
  - vm_compute. lia.
  - exists σ'. assert (s = 5) as ->.
    { assert (exists σ0, free_map_allocate (@inode_write_at ramdisk (fs_env 0)) 1 small_fs = Ok (Some 5, σ0))
        as [σ0 Hx] by (eexists; vm_compute; reflexivity).
      rewrite Hx in Hrun. by injection Hrun as <- _. }
    split; [exact Hrun|]. apply Hm. by right.
Defined.

(** ** Where inode_grow goes wrong *)

Definition empty_inode : inode_disk :=
  InodeDisk (replicate 15 0) 1 false 0 0 0 0 0 INODE_MAGIC (replicate 105 0).

(** A device of [n] sectors with the free map [bits] and one open, empty
    file (address 101). *)
Definition sized_fs (n : nat) (bits : list Z) : fsys ramdisk :=
  let map := words_to_bytes bits in
  let inode0 := small_inode 2 (Z.of_nat (length map)) in
  Fsys (Cache (replicate 64 (Entry false 0 false false [] 0)) 0
     (Block [] BLOCK_FILESYS (Z.of_nat n)
        (<[0%nat := inode_bytes inode0]> (<[2%nat := pad_sector map]> (replicate n (pad_sector [])))) 0 0))
    (Bitmap (Z.of_nat n) bits) (Some 100)
    [(101, Inode 3 1 false 0 false empty_inode); (100, Inode 0 1 false 0 false inode0)] 102 [] zero_junk.

(** The value of a run, without the final state. *)
Definition value {S A} (m : st S A) (σ : S) : outcome A := r ← m σ; Ok r.1.


(** Inode_grow ignores the result of free_map_allocate.  On a device
    with no free sector a write to an empty file still reports success,
    and its data lands in sector 0, over the inode of the free map. *)
Theorem full_disk_write_overwrites_sector_zero :
  value (before ← gets (fun σ => take 4 (logical (fs_cache σ) 0));
         n ← inode_write_at 101 [7] 0;
         after ← gets (fun σ => take 4 (logical (fs_cache σ) 0));
         mret (before, n, after)) (sized_fs 8 [255]) = Ok ([2; 0; 0; 0], 1, [7; 0; 0; 0]).
Proof. vm_compute. reflexivity. Qed.

(** ** The index *)

(** Byte_to_sector finds, for every byte of the file, the sector the
    index names for its block, whether direct, indirect or double
    indirect, without changing anything; past the end of the file it
    returns -1 as a sector number. *)
Theorem byte_to_sector_follows_index {E} `{SectorIOLaws E} n (σ : E) i m pos :
  env_ok n σ -> rep σ i m -> 0 <= pos -> length_ i <= 512 * m ->
  if decide (pos < length_ i)
  then exists σ', byte_to_sector i pos σ = Ok (ptr σ i (pos / 512), σ') /\ env_ok n σ' /\ quiet σ σ'
  else byte_to_sector i pos σ = Ok (2 ^ 32 - 1, σ).
Proof.
  intros Hok Hrep Hp Hl. case_decide as Hlt.
  - apply (byte_to_sector_ok n σ i m pos Hok Hrep); lia.
  - rewrite byte_to_sector_past by lia. reflexivity.
Qed.

Lemma byte_to_sector_follows_index_witness :
  exists σ', byte_to_sector (small_inode 4 2) 1 small_fs = Ok (4, σ').
Proof.
  pose proof (byte_to_sector_follows_index (H1 := io_fs 16 (tbl small_fs)) 5 small_fs (small_inode 4 2) 1 1
    (small_inv 5 ltac:(vm_compute; reflexivity)) (fr_rep _ _ _ (of_rep _ _ _ _ small_open)) ltac:(lia)
    ltac:(vm_compute; discriminate)) as Hw.
  rewrite decide_True in Hw by (vm_compute; reflexivity).
  destruct Hw as (σ' & Hrun & _). exists σ'. exact Hrun.
Defined.

(** Inode_grow extends a represented file.  The blocks it had keep
    their sectors and contents, every new block gets a sector of its own
    that was free and now is zero, and the result is a represented file
    again; exactly the data and index sectors the new size calls for
    leave the free map. *)
Theorem inode_grow_extends {E} `{SectorEnvLaws E} m (σ : E) i n len j :
  let n' := sectors_for len in
  junk_ok j -> rep σ i n -> n = sectors_for (length_ i) -> 0 <= length_ i <= len ->
  len <= 512 * MAX_SECTORS -> grow_safe n n' ->
  env_ok (needed n n' * env_cost + m) σ -> (needed n n' <= free_cnt σ)%nat -> fresh_cold σ ->
  exists σ' i', inode_grow j i len σ = Ok ((true, i'), σ') /\ env_ok m σ' /\ length_ i' = len /\
    rep σ' i' n' /\
    (forall k, 0 <= k < n -> ptr σ' i' k = ptr σ i k /\ view σ' (ptr σ i k) = view σ (ptr σ i k)) /\
    (forall k, n <= k < n' -> ~ used σ (ptr σ' i' k) /\ view σ' (ptr σ' i' k) = zeros) /\
    (free_cnt σ = needed n n' + free_cnt σ')%nat.
Proof.
  intros n' Hj Hrep Hn Hl Hmax Hsafe Hok Hfree Hcold.
  destruct (inode_grow_ok m σ i n len j) as (fs & σ' & i' & Hrun & Hok' & Hex); [done..|].
  destruct (extends_data _ _ _ _ _ _ _ (rep_set_length _ _ _ len Hrep) Hex) as (_ & _ & Hv).
  exists σ', i'. split; [done|]. split; [done|].
  split; [by destruct (ex_meta _ _ _ _ _ _ _ Hex) as (_ & _ & _ & -> & _)|].
  split; [exact (ex_rep _ _ _ _ _ _ _ Hex)|]. split; [|split].
  - intros k Hk. split; [exact (ex_ptr _ _ _ _ _ _ _ Hex k Hk)|exact (Hv k Hk)].
  - intros k Hk. destruct (ex_new _ _ _ _ _ _ _ Hex k Hk) as [Hin Hz]. split; [|done].
    by destruct (gr_fresh _ _ _ _ (ex_grew _ _ _ _ _ _ _ Hex) _ Hin).
  - pose proof (gr_free _ _ _ _ (ex_grew _ _ _ _ _ _ _ Hex)) as Hf.
    pose proof (ex_cnt _ _ _ _ _ _ _ Hex) as Hc. subst n'. unfold needed. lia.
Qed.

Lemma inode_grow_extends_witness :
  exists σ' i', inode_grow zero_junk (small_inode 4 2) 1500 small_fs = Ok ((true, i'), σ') /\ free_cnt σ' = 9%nat.
Proof.
  destruct (inode_grow_extends (H1 := io_fs 16 (tbl small_fs)) (H2 := fs_laws 16 (tbl small_fs)) 0 small_fs (small_inode 4 2) 1 1500 zero_junk)
    as (σ' & i' & Hrun & _ & _ & _ & _ & _ & Hf).
  - exact zero_junk_ok.
  - exact (fr_rep _ _ _ (of_rep _ _ _ _ small_open)).
  - reflexivity.
  - vm_compute. split; discriminate.
  - vm_compute. discriminate.
  - right; left. lia.
  - apply small_inv. vm_compute. reflexivity.
  - vm_compute. lia.
  - exact small_cold.
  - exists σ', i'. split; [exact Hrun|]. change (free_cnt small_fs) with 11%nat in Hf.
    change (needed 1 (sectors_for 1500)) with 2%nat in Hf. lia.
Defined.
