(* ===== verification/Directory.v ===== *)
(** * Directories (src/filesys/directory.c)

    A directory is a file of 20-byte entries.  The operations run on the
    file system state of Inode.v; [struct dir] is a value, since its
    fields are only reached through its owner.  Names are the bytes of the
    C string without the terminator. *)

From S2P Require Import Prelude Memory CString Bitmap Block BufferCache InodeLayout Inode.

Definition NAME_MAX : Z := 14.

Record dir := Dir { d_inode : Z; d_pos : Z }.

(** struct dir_entry: 4 + (NAME_MAX + 1) + 1 bytes, no padding. *)
Record dir_entry := Entry { e_sector : Z; e_name : list Z; e_in_use : bool }.

Definition ENTRY_SIZE : Z := 20.

Definition entry_bytes (e : dir_entry) : list Z :=
  le_bytes 4 (e_sector e) ++ e_name e ++ [Z.b2z (e_in_use e)].

Definition entry_of_bytes (l : list Z) : dir_entry :=
  Entry (le_value (take 4 l)) (window l 4 15) (negb (znth 0 l 19 =? 0)).

(** strcmp of the string [s] with the array [a]: past the end of the array
    the access is out of bounds. *)
Fixpoint strcmp_array (s a : list Z) : outcome Z :=
  match a with
  | [] => Err Fault
  | y :: a' =>
      match s with
      | [] => Ok (if 0 <? y then -1 else 0)
      | x :: s' => if x =? y then strcmp_array s' a' else Ok (if x <? y then -1 else 1)
      end
  end.

(** The string in an array. *)
Fixpoint array_str (a : list Z) : outcome (list Z) :=
  match a with
  | [] => Err Fault
  | y :: a' => if y =? 0 then Ok [] else s ← array_str a'; Ok (y :: s)
  end.

(** strlcpy (a, s, sizeof a): the bytes after the terminator stay. *)
Definition strlcpy_array (a s : list Z) : list Z :=
  splice a 0 (take (length a - 1) s ++ [0]).

Section directory.
Context {D : Type} `{BlockDriver D}.
(** The uninitialised local [struct dir_entry e] of dir_add, dir_is_empty
    and the others. *)
Context (e0 : list Z).

Definition dir_create (sector entry_cnt : Z) : st (fsys D) bool :=
  fs_inode_create sector (s32 (entry_cnt * ENTRY_SIZE)) true.

(** None is a null pointer, as argument and as result. *)
Definition dir_open (p : option Z) : st (fsys D) (option dir) :=
  ok ← malloc;
  match p, ok with
  | Some h, true => mret (Some (Dir h 0))
  | _, _ => inode_close p ≫= fun _ => mret None
  end.

Definition dir_open_root : st (fsys D) (option dir) :=
  p ← inode_open ROOT_DIR_SECTOR; dir_open p.

Definition dir_reopen (d : dir) : st (fsys D) (option dir) :=
  h ← inode_reopen (d_inode d); dir_open (Some h).

Definition dir_close (d : option dir) : st (fsys D) unit :=
  match d with
  | Some d => inode_close (Some (d_inode d))
  | None => mret tt
  end.

Definition dir_get_inode (d : dir) : Z := d_inode d.

(** The loops over the entries of inode [h] from offset [ofs] on:
    [for (; inode_read_at (inode, &e, sizeof e, ofs) == sizeof e; ofs += sizeof e)
       if (stop e) break].
    The result is the final contents of [e], the final offset and whether
    the loop stopped at an entry. *)
Fixpoint entry_loop (fuel : nat) (h : Z) (stop : dir_entry -> outcome bool) (e : list Z) (ofs : Z)
  : st (fsys D) (list Z * Z * bool) :=
  match fuel with
  | O => lift (Err Fuel)
  | S fuel' =>
      b ← inode_read_at h ENTRY_SIZE ofs;
      let e := splice e 0 b in
      if Z.of_nat (length b) =? ENTRY_SIZE then
        found ← lift (stop (entry_of_bytes e));
        if found : bool then mret (e, ofs, true)
        else entry_loop fuel' h stop e (s32 (ofs + ENTRY_SIZE))
      else mret (e, ofs, false)
  end.

(** Each iteration advances by an entry, so the length of the file bounds
    the number of iterations. *)
Definition scan_entries (h : Z) (stop : dir_entry -> outcome bool) (ofs : Z) : st (fsys D) (list Z * Z * bool) :=
  n ← inode_length h;
  entry_loop (S (Z.to_nat n)) h stop e0 ofs.

(** *ep and *ofsp of a successful search. *)
Definition lookup (d : dir) (name : list Z) : st (fsys D) (option (dir_entry * Z)) :=
  r ← scan_entries (d_inode d)
        (fun e => if e_in_use e then c ← strcmp_array name (e_name e); Ok (c =? 0) else Ok false) 0;
  let '(e, ofs, found) := r in
  mret (if found : bool then Some (entry_of_bytes e, ofs) else None).

Definition dir_lookup (d : dir) (name : list Z) : st (fsys D) (option Z) :=
  inode_lock_acquire (d_inode d) ≫= fun _ =>
  r ← lookup d name;
  p ← match r with Some (e, _) => inode_open (e_sector e) | None => mret None end;
  inode_lock_release (d_inode d) ≫= fun _ => mret p.

(** The slot that dir_add writes. *)
Definition add_entry (d : dir) (name : list Z) (inode_sector : Z) : st (fsys D) bool :=
  r ← scan_entries (d_inode d) (fun e => Ok (negb (e_in_use e))) 0;
  let '(e, ofs, _) := r in
  let e := Entry inode_sector (strlcpy_array (e_name (entry_of_bytes e)) name) true in
  n ← inode_write_at (d_inode d) (entry_bytes e) ofs;
  mret (n =? ENTRY_SIZE).

Definition dir_add (d : dir) (name : list Z) (inode_sector : Z) : st (fsys D) bool :=
  inode_lock_acquire (d_inode d) ≫= fun _ =>
  success ←
    (if bool_decide (name = []) || (NAME_MAX <? Z.of_nat (length name)) then mret false else
     r ← lookup d name;
     match r with
     | Some _ => mret false
     | None =>
         inumber ← inode_get_inumber (d_inode d);
         ok ← inode_set_dir_parent inumber inode_sector;
         if ok : bool then add_entry d name inode_sector else mret false
     end);
  inode_lock_release (d_inode d) ≫= fun _ => mret success.

Definition dir_is_empty (h : Z) : st (fsys D) bool :=
  r ← scan_entries h (fun e => Ok (e_in_use e)) 0;
  mret (negb r.2).

(** dir_remove up to its label [done]: the inode opened and the result. *)
Definition dir_remove_body (d : dir) (name : list Z) : st (fsys D) (option Z * bool) :=
  r ← lookup d name;
  match r with
  | None => mret (None, false)
  | Some (e, ofs) =>
      p ← inode_open (e_sector e);
      match p with
      | None => mret (None, false)
      | Some h =>
          is_dir ← inode_is_dir h;
          open_cnt ← inode_get_open_cnt h;
          if is_dir && (1 <? open_cnt) then mret (p, false) else
          empty ← (if is_dir : bool then dir_is_empty h else mret true);
          if negb empty then mret (p, false) else
          n ← inode_write_at (d_inode d) (entry_bytes (Entry (e_sector e) (e_name e) false)) ofs;
          if negb (n =? ENTRY_SIZE) then mret (p, false) else
          inode_remove h ≫= fun _ => mret (p, true)
      end
  end.

Definition dir_remove (d : dir) (name : list Z) : st (fsys D) bool :=
  inode_lock_acquire (d_inode d) ≫= fun _ =>
  r ← dir_remove_body d name;
  inode_close r.1 ≫= fun _ =>
  inode_lock_release (d_inode d) ≫= fun _ => mret r.2.

(** dir->pos advances past every entry read. *)
Definition dir_readdir (d : dir) : st (fsys D) (option (list Z) * dir) :=
  inode_lock_acquire (d_inode d) ≫= fun _ =>
  r ← scan_entries (d_inode d) (fun e => Ok (e_in_use e)) (d_pos d);
  let '(e, ofs, found) := r in
  name ← lift (match found : bool with true => s ← array_str (e_name (entry_of_bytes e)); Ok (Some s) | false => Ok None end);
  inode_lock_release (d_inode d) ≫= fun _ =>
  mret (name, Dir (d_inode d) (if found : bool then s32 (ofs + ENTRY_SIZE) else ofs)).

Definition dir_is_root (d : option dir) : st (fsys D) bool :=
  match d with
  | Some d => n ← inode_get_inumber (d_inode d); mret (n =? ROOT_DIR_SECTOR)
  | None => mret false
  end.

Definition get_dir_parent_inode (d : option dir) : st (fsys D) (option Z) :=
  match d with
  | Some d => s ← inode_get_dir_parent (d_inode d); inode_open s
  | None => mret None
  end.
End directory.
