(* ===== verification/DirFiles.v ===== *)
(** * Directories as finite maps (src/filesys/directory.c)

    The contents of a directory file as a list of entries, what lookup and
    dir_add do to it, and the map from names to inode sectors that the
    entries stand for. *)

From S2P Require Import Prelude Memory CString Bitmap Block BufferCache InodeLayout InodeGrow InodeData InodeFree Inode FsLaws FsFiles Directory.

(** ** The layout *)

(** What the C types of an entry can hold, with a terminated name. *)
Record entry_ok (e : dir_entry) : Prop := {
  en_sector : is_word (e_sector e);
  en_len : length (e_name e) = 15%nat;
  en_bytes : Forall is_byte (e_name e);
  en_str : exists s, array_str (e_name e) = Ok s
}.

Definition dir_bytes (es : list dir_entry) : list Z := mjoin (entry_bytes <$> es).

Lemma length_entry_bytes e : entry_ok e -> length (entry_bytes e) = 20%nat.
Proof. intros [_ Hl _ _]. unfold entry_bytes. rewrite !length_app, length_le_bytes, Hl. done. Qed.

Lemma entry_bytes_bytes e : entry_ok e -> Forall is_byte (entry_bytes e).
Proof.
  intros [_ _ Hb _]. unfold entry_bytes. rewrite !Forall_app. split_and!; [apply le_bytes_are_bytes|done|].
  apply Forall_singleton. unfold is_byte. destruct (e_in_use e); simpl; lia.
Qed.

Lemma entry_roundtrip e : entry_ok e -> entry_of_bytes (entry_bytes e) = e.
Proof.
  destruct e as [sec nm u]. intros [Hs Hl _ _]. simpl in Hs, Hl. unfold entry_of_bytes, entry_bytes. cbn [e_sector e_name e_in_use].
  rewrite take_app_length' by (by rewrite length_le_bytes). rewrite le_value_bytes32, u32_small by done.
  unfold window. rewrite drop_app_length' by (by rewrite length_le_bytes). rewrite take_app_length' by done.
  f_equal. unfold znth. rewrite app_nth2 by (rewrite length_le_bytes; lia).
  rewrite length_le_bytes. rewrite app_nth2 by (simpl; lia). rewrite Hl. by destruct u.
Qed.

Lemma dir_bytes_cons e es : dir_bytes (e :: es) = entry_bytes e ++ dir_bytes es.
Proof. done. Qed.

Lemma length_dir_bytes es : Forall entry_ok es -> length (dir_bytes es) = (20 * length es)%nat.
Proof.
  induction 1 as [|e es He Hes IH]; [done|]. rewrite dir_bytes_cons, length_app, IH, length_entry_bytes by done.
  simpl. lia.
Qed.

Lemma dir_bytes_bytes es : Forall entry_ok es -> Forall is_byte (dir_bytes es).
Proof.
  induction 1 as [|e es He Hes IH]; [constructor|]. rewrite dir_bytes_cons. apply Forall_app. split; [by apply entry_bytes_bytes|done].
Qed.

Lemma drop_dir_bytes k es : Forall entry_ok es -> drop (20 * k) (dir_bytes es) = dir_bytes (drop k es).
Proof.
  intros Hok. revert k. induction Hok as [|e es He Hes IH]; intros [|k]; [done| |done|].
  - rewrite !drop_nil. done.
  - rewrite dir_bytes_cons. replace (20 * S k)%nat with (length (entry_bytes e) + 20 * k)%nat
      by (rewrite length_entry_bytes by done; lia).
    rewrite drop_app_add. apply IH.
Qed.

Lemma take_dir_bytes k es : Forall entry_ok es -> take (20 * k) (dir_bytes es) = dir_bytes (take k es).
Proof.
  intros Hok. revert k. induction Hok as [|e es He Hes IH]; intros [|k]; [done| |done|].
  - by rewrite !take_nil.
  - rewrite dir_bytes_cons. replace (20 * S k)%nat with (length (entry_bytes e) + 20 * k)%nat
      by (rewrite length_entry_bytes by done; lia).
    rewrite take_app_add, IH. done.
Qed.

(** What a read of one entry sees. *)
Lemma window_entry k es :
  Forall entry_ok es ->
  window (dir_bytes es) (20 * k) 20 = match es !! k with Some e => entry_bytes e | None => [] end.
Proof.
  intros Hok. unfold window. rewrite drop_dir_bytes by done.
  destruct (es !! k) as [e|] eqn:Hk.
  - rewrite (drop_S _ _ _ Hk), dir_bytes_cons. apply take_app_length'.
    symmetry. apply length_entry_bytes. by eapply Forall_lookup_1.
  - apply lookup_ge_None in Hk. rewrite drop_ge by done. done.
Qed.

(** Writing entry [k], in place or at the end. *)
Definition set_entry (k : nat) (e : dir_entry) (es : list dir_entry) : list dir_entry :=
  take k es ++ [e] ++ drop (S k) es.

Lemma write_entry k e es :
  Forall entry_ok es -> entry_ok e -> (k <= length es)%nat ->
  write_result (dir_bytes es) (20 * Z.of_nat k) (entry_bytes e) = dir_bytes (set_entry k e es).
Proof.
  intros Hok He Hk. unfold write_result, splice, fsize.
  rewrite length_dir_bytes, length_entry_bytes by done.
  replace (Z.to_nat (20 * Z.of_nat k)) with (20 * k)%nat by lia. set (pad := Z.to_nat _).
  rewrite take_app_le by (rewrite length_dir_bytes by done; lia). rewrite take_dir_bytes by done.
  unfold set_entry, dir_bytes. rewrite !fmap_app, !join_app. do 2 f_equal; [simpl; by rewrite app_nil_r|].
  destruct (decide (k < length es)%nat).
  - replace pad with 0%nat by lia. rewrite app_nil_r. replace (20 * k + 20)%nat with (20 * S k)%nat by lia.
    by apply drop_dir_bytes.
  - rewrite (drop_ge es) by lia. rewrite drop_ge; [done|].
    rewrite length_app, length_replicate. fold (dir_bytes es). rewrite length_dir_bytes by done. lia.
Qed.

Lemma set_entry_ok k e es : Forall entry_ok es -> entry_ok e -> Forall entry_ok (set_entry k e es).
Proof. intros. unfold set_entry. rewrite !Forall_app. split_and!; auto using Forall_take, Forall_drop. Qed.

(** ** Reading entries *)
Section reads.
Context {D : Type} `{BlockDriverLaws D} (N : Z).
Implicit Types (σ : fsys D) (es : list dir_entry).

(** The state after some reads of the file [c]. *)
Record only_read h i c σ σ' : Prop := {
  or_tbl : tbl σ' = tbl σ;
  or_file : open_file σ' h i c;
  or_ro : read_only (i_data i) c σ σ';
  or_own : own σ' (i_data i) c = own σ (i_data i) c
}.

Lemma only_read_refl h i c σ : open_file σ h i c -> only_read h i c σ σ.
Proof. intros Hf. split; [done|exact Hf|apply read_only_refl|done]. Qed.

Lemma only_read_trans h i c σ1 σ2 σ3 :
  only_read h i c σ1 σ2 -> only_read h i c σ2 σ3 -> only_read h i c σ1 σ3.
Proof.
  intros [t1 f1 [b1 m1 v1] o1] [t2 f2 [b2 m2 v2] o2]. split; [congruence|exact f2| |congruence].
  assert (data σ2 (i_data i) (sectors_for (fsize c)) = data σ1 (i_data i) (sectors_for (fsize c))) as Hd.
  { unfold own in o1. apply app_inj_1 in o1 as [o1 _]; [exact o1|]. unfold data. by rewrite !length_fmap. }
  rewrite Hd in b2. split; [exact (same_but_trans _ _ _ _ b1 b2)|exact (same_map_trans _ _ _ m1 m2)|].
  intros t Ht. rewrite v2; [by apply v1|]. unfold in_dev in *. by rewrite (sb_nsec _ _ _ b1).
Qed.

Definition entry_budget es (k : nat) : nat := 20 * S (length es - k).

(** The result of a loop over the entries from number [k] on. *)
Definition scanned es (k : nat) (stop : dir_entry -> outcome bool) (r : list Z * Z * bool) : Prop :=
  exists j, (k <= j <= length es)%nat /\ r.1.2 = 20 * Z.of_nat j /\ length r.1.1 = 20%nat /\ Forall is_byte r.1.1 /\
    (forall m e, (k <= m < j)%nat -> es !! m = Some e -> stop e = Ok false) /\
    match es !! j with
    | Some e => r.2 = true /\ r.1.1 = entry_bytes e /\ stop e = Ok true
    | None => r.2 = false
    end.

Lemma entry_loop_ok fuel n σ h i es stop e k :
  fs_inv N (entry_budget es k + n) σ -> open_file σ h i (dir_bytes es) -> Forall entry_ok es ->
  (forall e, e ∈ es -> exists b, stop e = Ok b) -> (k <= length es)%nat -> (length es - k < fuel)%nat ->
  20 * Z.of_nat (length es) < 2 ^ 31 - 20 -> length e = 20%nat -> Forall is_byte e ->
  exists r σ', entry_loop fuel h stop e (20 * Z.of_nat k) σ = Ok (r, σ') /\ fs_inv N n σ' /\
    only_read h i (dir_bytes es) σ σ' /\ scanned es k stop r.
Proof.
  intros Hok Hof Hes Hstop Hk Hfuel Hmax Hel Heb. revert σ e k Hok Hof Hk Hfuel Hel Heb.
  induction fuel as [|fuel IH]; intros σ e k Hok Hof Hk Hfuel Hel Heb; [lia|].
  destruct (inode_read_at_ok N (20 * (length es - k) + n) σ h i (dir_bytes es) 20 (20 * Z.of_nat k))
    as (σ1 & Hrun & Hok1 & Ht1 & Hof1 & Hro1 & Hown1); [|exact Hof|lia..|].
  { eapply fs_inv_mono; [|exact Hok]. unfold entry_budget. lia. }
  assert (only_read h i (dir_bytes es) σ σ1) as Hor1 by (split; [exact Ht1|exact Hof1|exact Hro1|exact Hown1]).
  replace (Z.to_nat (20 * Z.of_nat k)) with (20 * k)%nat in Hrun by lia.
  change (Z.to_nat 20) with 20%nat in Hrun. rewrite window_entry in Hrun by done.
  cbn [entry_loop]. unfold mbind, st_bind. change 20 with ENTRY_SIZE in Hrun at 1. rewrite Hrun.
  destruct (es !! k) as [en|] eqn:Hek.
  - assert (entry_ok en) as Hen by (by eapply Forall_lookup_1).
    rewrite length_entry_bytes by done. change (Z.of_nat 20 =? ENTRY_SIZE) with true. cbv iota.
    assert (splice e 0 (entry_bytes en) = entry_bytes en) as ->.
    { unfold splice. rewrite length_entry_bytes by done. rewrite drop_ge by lia. simpl. by rewrite app_nil_r. }
    rewrite entry_roundtrip by done. pose proof (lookup_lt_Some _ _ _ Hek).
    destruct (Hstop en) as [b Hb]; [by eapply list_elem_of_lookup_2|]. rewrite Hb. unfold lift. destruct b.
    + eexists _, σ1. split; [reflexivity|]. split; [eapply fs_inv_mono; [|exact Hok1]; lia|]. split; [exact Hor1|].
      exists k. rewrite Hek. cbn [fst snd]. split_and!; [lia|lia|done|by apply length_entry_bytes|by apply entry_bytes_bytes| |done|done|done].
      intros m e' Hm. lia.
    + rewrite s32_small by (unfold ENTRY_SIZE; lia).
      replace (20 * Z.of_nat k + ENTRY_SIZE) with (20 * Z.of_nat (S k)) by (unfold ENTRY_SIZE; lia).
      destruct (IH σ1 (entry_bytes en) (S k)) as (r & σ2 & Hrun2 & Hok2 & Hor2 & (j & Hj & Ho & Hl & Hby & Hno & Hlast)).
      { eapply fs_inv_mono; [|exact Hok1]. unfold entry_budget. lia. }
      { exact Hof1. } { lia. } { lia. } { by apply length_entry_bytes. } { by apply entry_bytes_bytes. }
      exists r, σ2. split; [exact Hrun2|]. split; [exact Hok2|]. split; [exact (only_read_trans _ _ _ _ _ _ Hor1 Hor2)|].
      exists j. split_and!; [lia|lia|done..| |done]. intros m e' Hm He'.
      destruct (decide (m = k)) as [->|]; [|apply (Hno m); [lia|done]]. rewrite Hek in He'. by injection He' as <-.
  - cbn [length]. change (Z.of_nat 0 =? ENTRY_SIZE) with false. cbv iota.
    eexists _, σ1. split; [reflexivity|]. split; [eapply fs_inv_mono; [|exact Hok1]; lia|]. split; [exact Hor1|].
    exists k. rewrite Hek. cbn [fst snd]. rewrite splice_nil. split_and!; [lia|lia|done|done|done| |done].
    intros m e' Hm. lia.
Qed.
End reads.

(** ** Names *)

Lemma strcmp_array_ok name a s :
  text name -> Forall is_byte a -> array_str a = Ok s ->
  exists r, strcmp_array name a = Ok r /\ (r = 0 <-> name = s).
Proof.
  revert a s. induction name as [|x name IH]; intros [|y a] s Ht Ha Hs; simpl in Hs; try done; cbn [strcmp_array].
  - eexists. split; [done|]. apply Forall_cons_1 in Ha as [Hy _]. unfold is_byte in Hy.
    destruct (Z.eqb_spec y 0) as [->|Hy0].
    + injection Hs as <-. done.
    + apply obind_Ok in Hs as (t & _ & [= <-]). destruct (Z.ltb_spec 0 y); [|lia]. split; [lia|done].
  - apply Forall_cons_1 in Ha as [Hy Ha]. apply Forall_cons_1 in Ht as [[Hx Hx0] Ht].
    destruct (Z.eqb_spec x y) as [->|Hxy].
    + destruct (Z.eqb_spec y 0); [done|]. apply obind_Ok in Hs as (t & Hs & [= <-]).
      destruct (IH a t Ht Ha Hs) as (r & Hr & Hr0). exists r. split; [done|]. rewrite Hr0. split; [by intros ->|by intros [= ->]].
    + eexists. split; [done|]. split; [by destruct (x <? y)|]. intros <-. destruct (Z.eqb_spec y 0); [done|].
      apply obind_Ok in Hs as (t & _ & [= ? ?]). congruence.
Qed.

Lemma array_str_app name a : text name -> array_str (name ++ 0 :: a) = Ok name.
Proof.
  induction name as [|x name IH]; intros Ht; [done|]. apply Forall_cons_1 in Ht as [[_ Hx] Ht].
  simpl. destruct (Z.eqb_spec x 0); [done|]. by rewrite (IH Ht).
Qed.

(** The name written by dir_add. *)
Lemma strlcpy_array_name a name :
  length a = 15%nat -> Forall is_byte a -> text name -> Z.of_nat (length name) <= NAME_MAX ->
  let a' := strlcpy_array a name in length a' = 15%nat /\ Forall is_byte a' /\ array_str a' = Ok name.
Proof.
  intros Hl Hb Ht Hn. unfold NAME_MAX in Hn. unfold strlcpy_array. rewrite Hl. rewrite take_ge by lia. cbv zeta. split_and!.
  - rewrite length_splice; [done|]. rewrite length_app. simpl. lia.
  - apply Forall_splice; [done|]. apply Forall_app. split; [by eapply text_bytes|]. apply Forall_singleton. unfold is_byte. lia.
  - unfold splice. simpl. rewrite <- app_assoc. by apply array_str_app.
Qed.

(** The entry is in use under [name]. *)
Definition named (name : list Z) (e : dir_entry) : Prop := e_in_use e = true /\ array_str (e_name e) = Ok name.
#[global] Instance named_dec name e : Decision (named name e).
Proof. unfold named. apply _. Defined.

Definition match_name (name : list Z) (e : dir_entry) : outcome bool :=
  if e_in_use e then c ← strcmp_array name (e_name e); Ok (c =? 0) else Ok false.

Lemma match_name_ok name e : text name -> entry_ok e -> match_name name e = Ok (bool_decide (named name e)).
Proof.
  intros Ht [_ _ Hb (s & Hs)]. unfold match_name. destruct (e_in_use e) eqn:Hu.
  - destruct (strcmp_array_ok name (e_name e) s Ht Hb Hs) as (r & -> & Hr). simpl. f_equal.
    destruct (Z.eqb_spec r 0) as [->|Hne]; symmetry.
    + apply bool_decide_eq_true. split; [done|]. rewrite Hs. f_equal. symmetry. by apply Hr.
    + apply bool_decide_eq_false. intros [_ Hn]. rewrite Hs in Hn. injection Hn as ->. tauto.
  - rewrite bool_decide_eq_false_2; [done|]. intros [? _]. congruence.
Qed.

(** ** The map of a directory *)

Definition entry_pair (e : dir_entry) : option (list Z * Z) :=
  if e_in_use e then match array_str (e_name e) with Ok s => Some (s, e_sector e) | Err _ => None end else None.
Definition pairs (es : list dir_entry) : list (list Z * Z) := omap entry_pair es.
Definition dir_map (es : list dir_entry) : gmap (list Z) Z := list_to_map (pairs es).
Definition unique (es : list dir_entry) : Prop := NoDup (pairs es).*1.

Lemma named_pair name e : named name e <-> entry_pair e = Some (name, e_sector e).
Proof. unfold named, entry_pair. destruct (e_in_use e), (array_str (e_name e)); naive_solver. Qed.

Lemma dir_map_find es name :
  dir_map es !! name = (fun x => e_sector x.2) <$> list_find (named name) es.
Proof.
  induction es as [|e es IH]; [done|]. unfold dir_map, pairs in *. cbn [omap list_omap list_find].
  case_decide as Hn.
  - apply named_pair in Hn as ->. simpl. by rewrite lookup_insert_eq.
  - assert (list_to_map (omap entry_pair es) !! name = (fun x => e_sector x.2) <$> list_find (named name) es) as Hes by done.
    rewrite <- option_fmap_compose. transitivity ((fun x : nat * dir_entry => e_sector x.2) <$> list_find (named name) es);
      [rewrite <- Hes|by destruct (list_find _ es)].
    destruct (entry_pair e) as [[s z]|] eqn:He; [|done]. simpl. rewrite lookup_insert_ne; [done|].
    intros ->. apply Hn. unfold named. unfold entry_pair in He.
    destruct (e_in_use e); [|done]. destruct (array_str (e_name e)); naive_solver.
Qed.

(** Taking an entry into use adds it to the map; giving one up deletes it. *)
Lemma pairs_set k e es :
  (k <= length es)%nat -> pairs (set_entry k e es) = pairs (take k es) ++ pairs [e] ++ pairs (drop (S k) es).
Proof. intros Hk. unfold pairs, set_entry. by rewrite !omap_app. Qed.

Lemma pairs_split k es :
  pairs es = pairs (take k es) ++ match es !! k with Some e => pairs [e] | None => [] end ++ pairs (drop (S k) es).
Proof.
  rewrite <- (take_drop k es) at 1. unfold pairs. rewrite omap_app. f_equal.
  destruct (es !! k) as [e|] eqn:Hk.
  - by rewrite (drop_S _ _ _ Hk), <- omap_app.
  - apply lookup_ge_None in Hk. rewrite !drop_ge by lia. done.
Qed.

Lemma dir_map_add k e es name :
  (k <= length es)%nat -> match es !! k with Some e' => e_in_use e' = false | None => True end ->
  named name e -> unique es -> dir_map es !! name = None ->
  dir_map (set_entry k e es) = <[name := e_sector e]> (dir_map es) /\ unique (set_entry k e es).
Proof.
  intros Hk Hfree Hn Hu Hnone. unfold dir_map, unique in *. rewrite pairs_set by done. rewrite (pairs_split k es) in *.
  assert (pairs [e] = [(name, e_sector e)]) as -> by (unfold pairs; simpl; apply named_pair in Hn as ->; done).
  assert (match es !! k with Some e => pairs [e] | None => [] end = []) as E.
  { destruct (es !! k) as [e'|]; [|done]. unfold pairs. simpl. unfold entry_pair. by rewrite Hfree. }
  rewrite E in *. simpl in *. apply not_elem_of_list_to_map_2 in Hnone.
  assert (pairs (take k es) ++ (name, e_sector e) :: pairs (drop (S k) es) ≡ₚ
    (name, e_sector e) :: pairs (take k es) ++ pairs (drop (S k) es)) as Hp by (symmetry; apply Permutation_middle).
  assert (NoDup ((name, e_sector e) :: pairs (take k es) ++ pairs (drop (S k) es)).*1) as Hnd.
  { simpl. by apply list.NoDup_cons. }
  assert (NoDup (pairs (take k es) ++ (name, e_sector e) :: pairs (drop (S k) es)).*1) as Hnd' by (by rewrite Hp).
  split; [|exact Hnd']. by rewrite (list_to_map_proper _ _ Hnd' Hp).
Qed.

Lemma dir_map_erase k e e' es name :
  es !! k = Some e -> named name e -> e_in_use e' = false -> unique es ->
  dir_map (set_entry k e' es) = delete name (dir_map es) /\ unique (set_entry k e' es).
Proof.
  intros Hk Hn He' Hu. pose proof (lookup_lt_Some _ _ _ Hk). unfold dir_map, unique in *.
  rewrite pairs_set by lia. rewrite (pairs_split k es), Hk in *.
  assert (pairs [e] = [(name, e_sector e)]) as E by (unfold pairs; simpl; apply named_pair in Hn as ->; done).
  assert (pairs [e'] = []) as -> by (unfold pairs; simpl; unfold entry_pair; by rewrite He').
  rewrite E in *. simpl in *.
  assert (pairs (take k es) ++ (name, e_sector e) :: pairs (drop (S k) es) ≡ₚ
    (name, e_sector e) :: pairs (take k es) ++ pairs (drop (S k) es)) as Hp by (symmetry; apply Permutation_middle).
  rewrite (list_to_map_proper _ _ Hu Hp). rewrite Hp in Hu. simpl in Hu. apply list.NoDup_cons in Hu as [Hni Hu].
  split; [|done]. simpl. rewrite delete_insert_id; [done|]. by apply not_elem_of_list_to_map_1.
Qed.

(** ** lookup *)
Section lookup.
Context {D : Type} `{BlockDriverLaws D} (N : Z) (e0 : list Z).
Hypothesis (He0 : length e0 = 20%nat) (He0b : Forall is_byte e0).
Implicit Types (σ : fsys D) (es : list dir_entry).

(** [d] is open on a directory file with the entries [es]. *)
Record dir_file σ (d : dir) (i : inode) es : Prop := {
  df_open : open_file σ (d_inode d) i (dir_bytes es);
  df_entries : Forall entry_ok es
}.

Lemma dir_file_size σ d i es : dir_file σ d i es -> 20 * Z.of_nat (length es) < 2 ^ 31 - 20.
Proof.
  intros [[_ _ Hrep] Hes]. pose proof (fr_max _ _ _ Hrep) as Hm. unfold fsize in Hm.
  rewrite length_dir_bytes in Hm by done. unfold MAX_SECTORS in Hm. lia.
Qed.

Lemma scan_entries_ok n σ d i es stop :
  fs_inv N (entry_budget es 0 + n) σ -> dir_file σ d i es -> (forall e, e ∈ es -> exists b, stop e = Ok b) ->
  exists r σ', scan_entries e0 (d_inode d) stop 0 σ = Ok (r, σ') /\ fs_inv N n σ' /\
    only_read (d_inode d) i (dir_bytes es) σ σ' /\ scanned es 0 stop r.
Proof.
  intros Hok Hdf Hstop. pose proof (dir_file_size _ _ _ _ Hdf). destruct Hdf as [Hof Hes].
  unfold scan_entries, inode_length, get_inode, mbind, st_bind. rewrite (of_find _ _ _ _ Hof). cbn [mret st_ret].
  rewrite (fr_len _ _ _ (of_rep _ _ _ _ Hof)). unfold fsize. rewrite length_dir_bytes by done.
  apply (entry_loop_ok N _ n σ (d_inode d) i es stop e0 0); [exact Hok|exact Hof|done|done|lia|lia|lia|done|done].
Qed.

Lemma list_find_scanned es name r :
  Forall entry_ok es -> text name -> scanned es 0 (match_name name) r ->
  (let '(e, ofs, found) := r in if found : bool then Some (entry_of_bytes e, ofs) else None) =
    (fun x : nat * dir_entry => (x.2, 20 * Z.of_nat x.1)) <$> list_find (named name) es.
Proof.
  intros Hes Ht (j & Hj & Ho & _ & _ & Hno & Hlast). destruct r as [[e ofs] found]. simpl in *. subst ofs.
  destruct (es !! j) as [en|] eqn:Hej.
  - destruct Hlast as (-> & -> & Hm). assert (entry_ok en) as Hen by (by eapply Forall_lookup_1).
    rewrite match_name_ok in Hm by done. injection Hm as Hm%bool_decide_eq_true.
    rewrite entry_roundtrip by done. assert (list_find (named name) es = Some (j, en)) as ->; [|done].
    apply list_find_Some. split_and!; [done|done|]. intros m e' Hm' Hlt Hn.
    pose proof (Hno m e' ltac:(lia) Hm') as Hf. rewrite match_name_ok in Hf; [|done|by eapply Forall_lookup_1].
    injection Hf as Hf%bool_decide_eq_false. tauto.
  - subst found. assert (list_find (named name) es = None) as ->; [|done].
    apply list_find_None, list.Forall_forall. intros e' Hin Hn. apply list_elem_of_lookup in Hin as [m Hm].
    apply lookup_ge_None in Hej. pose proof (lookup_lt_Some _ _ _ Hm).
    pose proof (Hno m e' ltac:(lia) Hm) as Hf. rewrite match_name_ok in Hf; [|done|by eapply Forall_lookup_1].
    injection Hf as Hf%bool_decide_eq_false. tauto.
Qed.

Lemma lookup_ok n σ d i es name :
  fs_inv N (entry_budget es 0 + n) σ -> dir_file σ d i es -> text name ->
  exists σ', lookup e0 d name σ =
      Ok ((fun x : nat * dir_entry => (x.2, 20 * Z.of_nat x.1)) <$> list_find (named name) es, σ') /\
    fs_inv N n σ' /\ only_read (d_inode d) i (dir_bytes es) σ σ'.
Proof.
  intros Hok Hdf Ht. destruct (scan_entries_ok n σ d i es (match_name name) Hok Hdf) as (r & σ' & Hrun & Hok' & Hro & Hsc).
  { intros e Hin. eexists. apply match_name_ok; [done|]. by apply (proj1 (list.Forall_forall _ _) (df_entries _ _ _ _ Hdf)). }
  exists σ'. split; [|split; [exact Hok'|exact Hro]]. unfold lookup, mbind, st_bind.
  fold (match_name name). change (fun e : dir_entry => _) with (match_name name).
  rewrite Hrun. rewrite <- (list_find_scanned es name r (df_entries _ _ _ _ Hdf) Ht Hsc). by destruct r as [[? ?] ?].
Qed.
End lookup.

(** ** Writing an entry *)
Section add.
Context {D : Type} `{BlockDriverLaws D} (N : Z) (e0 : list Z).
Hypothesis (He0 : length e0 = 20%nat) (He0b : Forall is_byte e0).
Implicit Types (σ : fsys D) (es : list dir_entry).

Lemma only_read_cold h i c σ σ' : only_read h i c σ σ' -> fresh_cold σ -> open_file σ h i c -> fresh_cold σ'.
Proof.
  intros [_ _ [[b1 b2 b3 b4] [m1 m2] _] _] Hc Hof t Ht Hu. unfold in_dev in *. rewrite b1 in Ht. rewrite m1 in Hu.
  apply b4; [done| |by apply Hc]. intros Hin. apply Hu.
  apply (rep_own _ _ _ (fr_rep _ _ _ (of_rep _ _ _ _ Hof))). apply elem_of_app. by left.
Qed.

Definition sectors_of es : Z := sectors_for (fsize (dir_bytes es)).

(** Room for one more entry without leaving the indirect block. *)
Definition small_dir es : Prop := 20 * (Z.of_nat (length es) + 1) <= 512 * 141.

(** The sectors and cache operations that writing an entry may take. *)
Definition add_sectors es : nat := needed (sectors_of es) (sectors_for (20 * (Z.of_nat (length es) + 1))).
Definition add_budget es : nat := entry_budget es 0 + (add_sectors es * map_cost N + 20).

Lemma index_cnt_mono a b : a <= b -> index_cnt a <= index_cnt b.
Proof.
  intros Hab. unfold index_cnt, level_twos.
  destruct (Z.ltb_spec 13 a), (Z.ltb_spec 13 b), (Z.ltb_spec 141 a), (Z.ltb_spec 141 b); dlia.
Qed.

Lemma needed_mono a b c : b <= c -> (needed a b <= needed a c)%nat.
Proof. intros Hbc. pose proof (index_cnt_mono b c Hbc). unfold needed. lia. Qed.

Lemma sectors_for_mono a b : 0 <= a <= b -> sectors_for a <= sectors_for b.
Proof. unfold sectors_for. intros. dlia. Qed.

(** What add_entry does to the entries: the first free slot, or the end. *)
Lemma add_entry_ok n σ d i es name s :
  junk_ok (stack σ) -> dir_file σ d i es -> i_deny i = 0 -> may_lock i -> small_dir es ->
  text name -> Z.of_nat (length name) <= NAME_MAX -> is_word s ->
  fs_inv N (add_budget es + n) σ -> (add_sectors es <= free_cnt σ)%nat -> fresh_cold σ ->
  exists σ' i' k e, add_entry e0 d name s σ = Ok (true, σ') /\ fs_inv N n σ' /\
    dir_file σ' d i' (set_entry k e es) /\ same_handle i i' /\ (k <= length es)%nat /\
    match es !! k with Some e' => e_in_use e' = false | None => True end /\ named name e /\ e_sector e = s /\
    others_same (own σ (i_data i) (dir_bytes es)) σ σ' /\ table_others (d_inode d) σ σ'.
Proof.
  intros Hj Hdf Hd Hlk Hsm Ht Hn Hs Hok Hfree Hcold. pose proof (df_open _ _ _ _ Hdf) as Hof. pose proof (df_entries _ _ _ _ Hdf) as Hes.
  destruct (scan_entries_ok N e0 He0 He0b (add_sectors es * map_cost N + 20 + n) σ d i es (fun e => Ok (negb (e_in_use e))))
    as (r & σ1 & Hrun & Hok1 & Hro & (k & Hk & Ho & Hl & Hby & _ & Hlast)); [|exact Hdf|eauto|].
  { eapply fs_inv_mono; [|exact Hok]. unfold add_budget. lia. }
  destruct r as [[e ofs] found]. cbn [fst snd] in *. subst ofs.
  set (en := Entry s (strlcpy_array (e_name (entry_of_bytes e)) name) true).
  destruct (strlcpy_array_name (e_name (entry_of_bytes e)) name) as (Ha1 & Ha2 & Ha3); [| |done|done|].
  { simpl. apply length_window. lia. } { simpl. by apply Forall_take, Forall_drop. }
  assert (entry_ok en) as Hen by (split; simpl; eauto).
  assert (fsize (dir_bytes es) = 20 * Z.of_nat (length es)) as Hsz by (unfold fsize; rewrite length_dir_bytes by done; lia).
  assert (fsize (entry_bytes en) = 20) as Hsz' by (unfold fsize; by rewrite length_entry_bytes).
  unfold small_dir in Hsm.
  assert (needed (sectors_for (fsize (dir_bytes es))) (sectors_for (Z.max (fsize (dir_bytes es)) (20 * Z.of_nat k + fsize (entry_bytes en))))
    <= add_sectors es)%nat as Hneed.
  { unfold add_sectors, sectors_of. apply needed_mono, sectors_for_mono. lia. }
  pose proof Hro as [Htb Hof1 Hro1 Hown].
  destruct (inode_write_at_ok N n σ1 (d_inode d) i (dir_bytes es) (20 * Z.of_nat k) (entry_bytes en))
    as (σ2 & i2 & Hw & Hok2 & Hof2 & Hsh & Hot & _ & Hto).
  { injection Htb as _ _ Hst _ _. by rewrite Hst. } { exact Hof1. } { done. } { done. } { by apply entry_bytes_bytes. }
  { lia. } { unfold MAX_SECTORS. lia. } { right. left. rewrite Hsz. unfold sectors_for. dlia. }
  { eapply fs_inv_mono; [|exact Hok1]. rewrite length_entry_bytes by done.
    apply (Nat.mul_le_mono_r _ _ (map_cost N)) in Hneed. lia. }
  { rewrite (sm_free _ _ (ro_map _ _ _ _ Hro1)). lia. }
  { exact (only_read_cold _ _ _ _ _ Hro Hcold Hof). }
  exists σ2, i2, k, en. split.
  { unfold add_entry, mbind, st_bind. rewrite Hrun. fold en. rewrite Hw, Hsz'. reflexivity. }
  split; [exact Hok2|]. rewrite write_entry in Hof2 by (done || lia).
  split; [split; [exact Hof2|by apply set_entry_ok]|]. split; [exact Hsh|]. split; [lia|].
  split. { destruct (es !! k); [|done]. destruct Hlast as (_ & _ & [= Hu]). by destruct (e_in_use _). }
  split; [done|]. split; [done|]. split.
  - rewrite Hown in Hot. eapply (others_trans _ _ σ σ1 σ2 ltac:(eauto)); [|exact Hot].
    destruct Hro1 as [[b1 b2 b3 b4] [m1 m2] v]. split; [done|done|intros; by apply v| |intros t; by rewrite m1].
    intros t Hdev _ _ Hni Hc. apply b4; [done| |done]. intros Hin. apply Hni, elem_of_app. by left.
  - eapply table_others_trans; [by apply table_others_tbl|exact Hto].
Qed.
End add.

(** ** inode_set_dir_parent *)
Section parent.
Context {D : Type} `{BlockDriverLaws D} (N : Z).
Implicit Types (σ : fsys D).

Lemma filter_absent h (l : list (Z * inode)) : find_inode h l = None -> filter (fun x => x.1 <> h) l = l.
Proof.
  induction l as [|[a i] l IH]; [done|]. simpl. destruct (Z.eqb_spec a h) as [->|Hne]; [done|].
  intros Hl. rewrite filter_cons_True by done. f_equal. by apply IH.
Qed.

Lemma map_absent h f (l : list (Z * inode)) : find_inode h l = None -> map_inode h f l = l.
Proof.
  unfold map_inode. induction l as [|[a i] l IH]; [done|]. simpl. destruct (Z.eqb_spec a h) as [->|Hne]; [done|].
  intros Hl. f_equal. by apply IH.
Qed.

Lemma map_head h f i (l : list (Z * inode)) : find_inode h l = None -> map_inode h f ((h, i) :: l) = (h, f i) :: l.
Proof.
  intros Hl. unfold map_inode. cbn [fmap list_fmap fst snd]. rewrite Z.eqb_refl. f_equal. exact (map_absent h f l Hl).
Qed.

(** The sector of an inode that nobody has open. *)
Record closed_inode σ (s : Z) (ci : inode_disk) : Prop := {
  ci_absent : find_sector s (open_inodes σ) = None;
  ci_dev : in_dev σ s;
  ci_cold : cold σ s;
  ci_free : ~ reserved σ s;
  ci_ok : inode_disk_ok ci;
  ci_view : view σ s = inode_bytes ci
}.

(** The next struct inode gets an unused address, and malloc succeeds. *)
Record can_open σ : Prop := {
  co_malloc : mallocs σ = [];
  co_fresh : find_inode (next_addr σ) (open_inodes σ) = None;
  co_map : free_map_file σ <> Some (next_addr σ)
}.

Lemma inode_open_ok n σ s ci :
  fs_inv N n σ -> closed_inode σ s ci -> can_open σ ->
  exists σ', inode_open s σ = Ok (Some (next_addr σ), σ') /\ fs_inv N n σ' /\ quiet σ σ' /\
    open_inodes σ' = (next_addr σ, Inode s 1 false 0 false ci) :: open_inodes σ /\
    free_map_file σ' = free_map_file σ /\ stack σ' = stack σ /\ mallocs σ' = [] /\ next_addr σ' = next_addr σ + 1.
Proof.
  intros Hok [Hab Hdev Hcold Hfree Hci Hview] [Hm Hfresh Hmap].
  destruct (env_block_read_ok (SectorIOLaws := io_fs N (tbl σ)) n σ s Hok Hdev Hcold) as (σ1 & Hrun & Hok1 & Hb & Hsm).
  pose proof (fo_tbl _ _ _ _ Hok1) as Ht. injection Ht as Ht1 Ht2 Ht3 Ht4 Ht5.
  unfold inode_open, gets, malloc, mbind, st_bind, modify. rewrite Hab, Hm. cbn iota beta.
  unfold fs_sector_env. rewrite Hrun, Hview. destruct (inode_bytes_ok ci Hci) as (_ & _ & ->). rewrite Ht1, Ht4.
  set (σ2 := Fsys _ _ _ _ _ _ _).
  destruct (core_quiet N n σ1 σ2) as [Hok2 Hq2]; [unfold fs_inv; rewrite (fo_tbl _ _ _ _ Hok1); exact Hok1|done|done| |].
  { unfold map_inode_of. cbn [free_map_file open_inodes σ2]. rewrite Ht2, Ht1. destruct (free_map_file σ) as [h0|]; [|done].
    simpl. by rewrite (proj2 (Z.eqb_neq (next_addr σ) h0)) by congruence. }
  exists σ2. split; [reflexivity|]. split; [exact Hok2|].
  split; [exact (quiet_trans _ _ _ (conj Hb Hsm) Hq2)|]. cbn [open_inodes free_map_file stack mallocs next_addr σ2].
  rewrite Ht2, Ht3, Ht5. by rewrite Hm.
Qed.

(** The last close of an inode that was not removed writes it back. *)
Lemma inode_close_ok n σ h i l :
  fs_inv N n σ -> open_inodes σ = (h, i) :: l -> find_inode h l = None -> free_map_file σ <> Some h ->
  i_open_cnt i = 1 -> i_removed i = false -> in_dev σ (i_sector i) -> cold σ (i_sector i) ->
  ~ reserved σ (i_sector i) -> inode_disk_ok (i_data i) ->
  exists σ', inode_close (Some h) σ = Ok (tt, σ') /\ fs_inv N n σ' /\
    same_but (fun t => t = i_sector i) σ σ' /\ same_map σ σ' /\
    view σ' (i_sector i) = inode_bytes (i_data i) /\ cold σ' (i_sector i) /\
    tbl σ' = (l, free_map_file σ, stack σ, next_addr σ, mallocs σ).
Proof.
  intros Hok Hl Habs Hne Hcnt Hrm Hdev Hcold Hres Hi.
  assert (find_inode h (open_inodes σ) = Some i) as Hfind by (rewrite Hl; simpl; by rewrite Z.eqb_refl).
  unfold inode_close.
  destruct (tweak_inode N n σ h (fun i => with_open (i_open_cnt i - 1) i) i Hok Hne Hfind) as (Hup & Hok1 & Hq1 & Hf1).
  unfold mbind, st_bind. rewrite Hup. set (σ1 := updated _ _ σ) in *.
  unfold get_inode. rewrite Hf1. cbn [i_open_cnt with_open i_removed i_sector i_data]. rewrite Hcnt, Hrm.
  change (1 - 1 =? 0) with true. cbv iota. unfold drop_inode, modify.
  assert (filter (fun x => x.1 <> h) (open_inodes σ1) = l) as ->.
  { unfold σ1, updated. cbn [open_inodes with_inodes]. rewrite Hl, map_head by done.
    rewrite filter_cons_False by (simpl; tauto). by apply filter_absent. }
  destruct (table_quiet N n σ1 l Hok1) as [Hok2 Hq2].
  { intros h0 Hh0. change (free_map_file σ = Some h0) in Hh0. unfold σ1, updated. cbn [open_inodes with_inodes].
    rewrite Hl, map_head by done. cbn [find_inode]. by rewrite (proj2 (Z.eqb_neq h h0)) by congruence. }
  set (σ2 := with_inodes l σ1) in *. pose proof (quiet_trans _ _ _ Hq1 Hq2) as [[b1 b2 b3 b4] [m1 m2]].
  destruct (inode_bytes_ok (i_data i) Hi) as (Hlen & Hby & _).
  destruct (env_block_write_ok (SectorIOLaws := io_fs N (tbl σ2)) n σ2 (i_sector i) (inode_bytes (i_data i)) Hok2)
    as (σ3 & Hw & Hok3 & [c1 c2 c3 c4] & [d1 d2] & Hv & Hc3); [unfold in_dev; by rewrite b1|apply b4; tauto|by rewrite b2|done|done|].
  exists σ3. unfold fs_sector_env. split; [exact Hw|]. unfold in_dev in *. rewrite b1 in *.
  split; [unfold fs_inv; rewrite (fo_tbl _ _ _ _ Hok3); exact Hok3|].
  split. { split; [congruence|intros t; rewrite c2; apply b2|intros t Ht Hn; rewrite c3 by done; apply b3; [exact Ht|intros []]|].
    intros t Ht Hn Hc. apply c4; [exact Ht|exact Hn|]. apply b4; [exact Ht|intros []|exact Hc]. }
  split; [split; [intros t; by rewrite d1|congruence]|]. split; [exact Hv|]. split; [exact Hc3|].
  exact (fo_tbl _ _ _ _ Hok3).
Qed.

Lemma set_parent_disk_ok p ci : is_word p -> inode_disk_ok ci -> inode_disk_ok (set_parent p ci).
Proof.
  intros Hp [H1 H2 H3 H4]. split; [done|done| |done]. apply Forall_cons_1 in H3 as [_ H3]. by constructor.
Qed.

Lemma set_dir_parent_ok n σ p s ci :
  fs_inv N n σ -> closed_inode σ s ci -> can_open σ -> is_word p ->
  exists σ', inode_set_dir_parent p s σ = Ok (true, σ') /\ fs_inv N n σ' /\
    same_but (fun t => t = s) σ σ' /\ same_map σ σ' /\ closed_inode σ' s (set_parent p ci) /\
    tbl σ' = (open_inodes σ, free_map_file σ, stack σ, next_addr σ + 1, []).
Proof.
  intros Hok Hci Hco Hp. destruct (inode_open_ok n σ s ci Hok Hci Hco) as (σ1 & Ho & Hok1 & [[b1 b2 b3 b4] [m1 m2]] & Hl1 & Hf1 & Hst1 & Hma1 & Hna1).
  unfold inode_set_dir_parent, mbind, st_bind. rewrite Ho. set (h := next_addr σ) in *.
  assert (find_inode h (open_inodes σ1) = Some (Inode s 1 false 0 false ci)) as Hfind by (rewrite Hl1; simpl; by rewrite Z.eqb_refl).
  pose proof Hco as [_ Hfresh Hmap]. fold h in Hfresh, Hmap.
  destruct (tweak_inode N n σ1 h (fun i => with_data (set_parent p (i_data i)) i) _ Hok1 ltac:(by rewrite Hf1) Hfind) as (Hup & Hok2 & Hq2 & _).
  rewrite Hup. set (σ2 := updated _ _ σ1) in *. destruct Hq2 as [[c1 c2 c3 c4] [d1 d2]].
  destruct Hci as [Hab Hdev Hcold Hfree Hdisk Hview].
  assert (nsec σ2 = nsec σ) as Hns by congruence.
  destruct (inode_close_ok n σ2 h (Inode s 1 false 0 false (set_parent p ci)) (open_inodes σ)) as
    (σ3 & Hcl & Hok3 & [e1 e2 e3 e4] & [f1 f2] & Hv & Hc & Ht); cbn [i_sector i_data] in *.
  { exact Hok2. }
  { unfold σ2, updated. cbn [open_inodes with_inodes]. rewrite Hl1, map_head by done. reflexivity. }
  { done. } { unfold σ2. cbn [free_map_file with_inodes updated]. by rewrite Hf1. } { done. } { done. }
  { unfold in_dev. by rewrite Hns. } { apply c4; [unfold in_dev in *; by rewrite b1|intros []|]. apply b4; [exact Hdev|intros []|exact Hcold]. }
  { by rewrite c2, b2. } { by apply set_parent_disk_ok. }
  exists σ3. rewrite Hcl. split; [reflexivity|]. split; [exact Hok3|]. unfold in_dev in *. rewrite ?Hns, ?b1 in *.
  split. { split; [congruence|intros t; by rewrite e2, c2, b2|..].
    - intros t Hd Hn. rewrite e3 by done. rewrite c3; [|done|intros []]. apply b3; [done|intros []].
    - intros t Hd Hn Hcd. apply e4; [done|done|]. apply c4; [done|intros []|]. apply b4; [done|intros []|done]. }
  split; [split; [intros t; by rewrite f1, d1, m1|congruence]|].
  assert (tbl σ3 = (open_inodes σ, free_map_file σ, stack σ, next_addr σ + 1, [])) as Ht3.
  { rewrite Ht. unfold σ2, updated. cbn [free_map_file stack next_addr mallocs with_inodes]. by rewrite Hf1, Hst1, Hma1, Hna1. }
  split; [|exact Ht3]. injection Ht3 as Hi3 _ _ _ _. split.
  - by rewrite Hi3.
  - unfold in_dev. by rewrite e1.
  - exact Hc.
  - by rewrite e2, c2, b2.
  - by apply set_parent_disk_ok.
  - exact Hv.
Qed.
End parent.

(** ** dir_add *)
Section dir_add.
Context {D : Type} `{BlockDriverLaws D} (N : Z) (e0 : list Z).
Hypothesis (He0 : length e0 = 20%nat) (He0b : Forall is_byte e0).
Implicit Types (σ : fsys D) (es : list dir_entry).

Lemma dir_file_frame W σ σ' d i es :
  dir_file σ d i es -> same_but W σ σ' -> same_map σ σ' -> (forall t, t ∈ own σ (i_data i) (dir_bytes es) -> ~ W t) ->
  open_inodes σ' = open_inodes σ -> free_map_file σ' = free_map_file σ ->
  dir_file σ' d i es /\ own σ' (i_data i) (dir_bytes es) = own σ (i_data i) (dir_bytes es).
Proof.
  intros [[Hf Hne Hrep] Hes] Hb Hm HW E1 E2. destruct (file_rep_frame W _ _ _ _ Hrep Hb Hm HW) as [Hrep' Hown].
  split; [|exact Hown]. split; [|done]. split; [by rewrite E1|by rewrite E2|exact Hrep'].
Qed.

(** Changing the lock of an open directory. *)
Lemma set_lock_ok n σ d i es b :
  fs_inv N n σ -> dir_file σ d i es ->
  exists σ', update_inode (d_inode d) (with_locked b) σ = Ok (tt, σ') /\ fs_inv N n σ' /\ quiet σ σ' /\
    dir_file σ' d (with_locked b i) es /\ own σ' (i_data i) (dir_bytes es) = own σ (i_data i) (dir_bytes es) /\
    open_inodes σ' = map_inode (d_inode d) (with_locked b) (open_inodes σ) /\
    (free_map_file σ', stack σ', next_addr σ', mallocs σ') = (free_map_file σ, stack σ, next_addr σ, mallocs σ).
Proof.
  intros Hok [[Hf Hne Hrep] Hes].
  destruct (tweak_inode N n σ (d_inode d) (with_locked b) i Hok Hne Hf) as (Hup & Hok1 & Hq & Hf1).
  destruct (quiet_file _ _ _ _ Hq Hrep) as [Hrep1 Hown].
  exists (updated (d_inode d) (with_locked b) σ). split; [exact Hup|]. split; [exact Hok1|]. split; [exact Hq|].
  split; [|split; [exact Hown|split; reflexivity]]. split; [|exact Hes]. split; [exact Hf1|exact Hne|exact Hrep1].
Qed.

Lemma dir_acquire_ok n σ d i es :
  fs_inv N n σ -> dir_file σ d i es -> i_locked i = false ->
  inode_lock_acquire (d_inode d) σ = update_inode (d_inode d) (with_locked true) σ.
Proof.
  intros Hok [[Hf _ _] _] Hl. unfold inode_lock_acquire, get_inode, kassert_st, mbind, st_bind. by rewrite Hf, Hl.
Qed.

Lemma dir_release_ok n σ d i es :
  fs_inv N n σ -> dir_file σ d i es -> i_locked i = true ->
  inode_lock_release (d_inode d) σ = update_inode (d_inode d) (with_locked false) σ.
Proof.
  intros Hok [[Hf _ _] _] Hl. unfold inode_lock_release, get_inode, kassert_st, mbind, st_bind. by rewrite Hf, Hl.
Qed.

Lemma find_sector_map s h f l : (forall i, i_sector (f i) = i_sector i) -> find_sector s (map_inode h f l) = find_sector s l.
Proof.
  intros Hf. unfold map_inode. induction l as [|[a i] l IH]; [done|]. cbn [fmap list_fmap fst snd].
  destruct (a =? h); cbn [find_sector]; rewrite ?Hf; by destruct (i_sector i =? s).
Qed.

Lemma closed_frame W σ σ' s ci :
  closed_inode σ s ci -> same_but W σ σ' -> ~ W s -> find_sector s (open_inodes σ') = find_sector s (open_inodes σ) ->
  closed_inode σ' s ci.
Proof.
  intros [Hab Hdev Hcold Hfree Hok Hv] [b1 b2 b3 b4] HW Hfs.
  split; [by rewrite Hfs|unfold in_dev in *; by rewrite b1|by apply b4|by rewrite b2|done|by rewrite b3].
Qed.

Lemma fresh_cold_frame W σ σ' :
  fresh_cold σ -> same_but W σ σ' -> same_map σ σ' -> (forall t, W t -> used σ t) -> fresh_cold σ'.
Proof.
  intros Hc [b1 b2 b3 b4] [m1 m2] HW t Ht Hu. unfold in_dev in *. rewrite b1 in Ht. rewrite m1 in Hu.
  apply b4; [done| |by apply Hc]. intros Hw. by apply Hu, HW.
Qed.

(** What dir_add asks of its caller besides the invariant. *)
Record add_ready σ (d : dir) (i : inode) es (s : Z) (ci : inode_disk) : Prop := {
  ar_dir : dir_file σ d i es;
  ar_is_dir : is_dir (i_data i) = true;
  ar_unlocked : i_locked i = false;
  ar_deny : i_deny i = 0;
  ar_self : is_word (i_sector i);
  ar_small : small_dir es;
  ar_junk : junk_ok (stack σ);
  ar_free : (add_sectors es <= free_cnt σ)%nat;
  ar_cold : fresh_cold σ;
  ar_child : closed_inode σ s ci;
  ar_word : is_word s;
  ar_used : used σ s;
  ar_other : s ∉ own σ (i_data i) (dir_bytes es);
  ar_open : can_open σ
}.

(** After the lock and the search the state is still ready. *)
Lemma add_ready_searched n σ d i es s ci name :
  fs_inv N (entry_budget es 0 + n) σ -> add_ready σ d i es s ci -> text name ->
  exists σ', (inode_lock_acquire (d_inode d) ≫= fun _ => lookup e0 d name) σ =
      Ok ((fun x : nat * dir_entry => (x.2, 20 * Z.of_nat x.1)) <$> list_find (named name) es, σ') /\
    fs_inv N n σ' /\ dir_file σ' d (with_locked true i) es /\
    closed_inode σ' s ci /\ can_open σ' /\ junk_ok (stack σ') /\ fresh_cold σ' /\ free_cnt σ' = free_cnt σ /\
    used σ' s /\ s ∉ own σ' (i_data i) (dir_bytes es).
Proof.
  intros Hok [Hdf Hid Hul Hd Hsf Hsm Hj Hfr Hc Hci Hw Hu Hno Hco] Ht.
  destruct (set_lock_ok _ σ d i es true Hok Hdf) as (σ1 & Hup & Hok1 & [Hb1 Hm1] & Hdf1 & Hown1 & Hl1 & [= Hf1 Hs1 Hn1 Ha1]).
  destruct (lookup_ok N e0 He0 He0b n σ1 d _ es name Hok1 Hdf1 Ht) as (σ2 & Hrun & Hok2 & Hro).
  pose proof Hro as [Htb Hof2 [Hb2 Hm2 Hv2] Hown2]. injection Htb as Hl2 Hf2 Hs2 Hn2 Ha2. cbn [i_data with_locked] in *.
  exists σ2. split. { unfold mbind, st_bind. rewrite (dir_acquire_ok _ σ d i es Hok Hdf Hul), Hup. exact Hrun. }
  split; [exact Hok2|]. split; [split; [exact Hof2|apply Hdf]|]. split.
  { eapply (closed_frame _ σ1 σ2 s ci); [|exact Hb2| |by rewrite Hl2].
    - apply (closed_frame _ σ σ1 s ci Hci Hb1); [intros []|]. rewrite Hl1. by apply find_sector_map.
    - intros Hin. apply Hno. rewrite <- Hown1. apply elem_of_app. by left. }
  split. { destruct Hco as [c1 c2 c3]. rewrite <- Hn1, <- Hn2 in c2, c3. split; [congruence| |congruence].
    rewrite Hl2, Hl1, find_map_inode. destruct (next_addr σ2 =? d_inode d); by rewrite c2. }
  split; [by rewrite Hs2, Hs1|]. split.
  { eapply (fresh_cold_frame _ σ1 σ2); [|exact Hb2|exact Hm2|].
    - apply (fresh_cold_frame _ σ σ1 Hc Hb1 Hm1). intros t [].
    - intros t Hin. apply (rep_own _ _ _ (fr_rep _ _ _ (of_rep _ _ _ _ (df_open _ _ _ _ Hdf1)))). apply elem_of_app. by left. }
  split; [by rewrite (sm_free _ _ Hm2), (sm_free _ _ Hm1)|]. split; [by apply (sm_used _ _ Hm2), (sm_used _ _ Hm1)|].
  by rewrite Hown2, Hown1.
Qed.

Definition valid_name (name : list Z) : Prop := text name /\ name <> [] /\ Z.of_nat (length name) <= NAME_MAX.

Lemma dir_map_none es name : dir_map es !! name = None <-> list_find (named name) es = None.
Proof. rewrite dir_map_find. destruct (list_find _ es); simpl; split; done. Qed.

(** The part of dir_add after a search without a match. *)
Lemma add_new_ok n σ d i es s ci name :
  fs_inv N (add_budget N es + n) σ -> dir_file σ d i es -> is_dir (i_data i) = true -> i_deny i = 0 ->
  is_word (i_sector i) -> small_dir es -> junk_ok (stack σ) -> (add_sectors es <= free_cnt σ)%nat -> fresh_cold σ ->
  closed_inode σ s ci -> is_word s -> used σ s -> s ∉ own σ (i_data i) (dir_bytes es) -> can_open σ ->
  valid_name name -> unique es -> dir_map es !! name = None ->
  exists σ' i' es',
    (inumber ← inode_get_inumber (d_inode d); ok ← inode_set_dir_parent inumber s;
     if ok : bool then add_entry e0 d name s else mret false) σ = Ok (true, σ') /\
    fs_inv N n σ' /\ dir_file σ' d i' es' /\ same_handle i i' /\ unique es' /\
    dir_map es' = <[name := s]> (dir_map es).
Proof.
  intros Hok Hdf Hid Hd Hsf Hsm Hj Hfr Hc Hci Hw Hu Hno Hco (Ht & Hne & Hl) Hun Hnone.
  destruct (set_dir_parent_ok N _ σ (i_sector i) s ci Hok Hci Hco Hsf) as (σ1 & Hrun1 & Hok1 & Hb1 & Hm1 & _ & Htb1).
  injection Htb1 as Hl1 Hf1 Hs1 _ _.
  destruct (dir_file_frame _ σ σ1 d i es Hdf Hb1 Hm1) as [Hdf1 Hown1]; [by intros t Hin ->|exact Hl1|exact Hf1|].
  destruct (add_entry_ok N e0 He0 He0b n σ1 d i es name s) as (σ2 & i2 & k & e & Hrun2 & Hok2 & Hdf2 & Hsh & Hk & Hfree & Hnm & Hes & _ & _);
    [by rewrite Hs1|exact Hdf1|done|by left|done|done|done|done|exact Hok1|by rewrite (sm_free _ _ Hm1)| |].
  { apply (fresh_cold_frame _ σ σ1 Hc Hb1 Hm1). by intros t ->. }
  destruct (dir_map_add k e es name Hk Hfree Hnm Hun Hnone) as [Hmap Hun2]. rewrite Hes in Hmap.
  exists σ2, i2, (set_entry k e es). split; [|split; [exact Hok2|split; [exact Hdf2|split; [exact Hsh|split; [exact Hun2|exact Hmap]]]]].
  unfold inode_get_inumber, get_inode, mbind, st_bind. rewrite (of_find _ _ _ _ (df_open _ _ _ _ Hdf)). cbn [mret st_ret].
  rewrite Hrun1. exact Hrun2.
Qed.

(** dir_add as an operation on the map of the directory. *)
Lemma dir_add_ok n σ d i es s ci name :
  fs_inv N (entry_budget es 0 + (add_budget N es + n)) σ -> add_ready σ d i es s ci -> valid_name name -> unique es ->
  exists σ' i' es', dir_add e0 d name s σ = Ok (bool_decide (dir_map es !! name = None), σ') /\
    fs_inv N n σ' /\ dir_file σ' d i' es' /\ i_locked i' = false /\ unique es' /\
    dir_map es' = match dir_map es !! name with None => <[name := s]> (dir_map es) | Some _ => dir_map es end.
Proof.
  intros Hok Har Hv Hun. pose proof Hv as (Ht & Hne & Hl).
  destruct (add_ready_searched _ σ d i es s ci name Hok Har Ht)
    as (σ1 & Hrun1 & Hok1 & Hdf1 & Hci1 & Hco1 & Hj1 & Hc1 & Hfr1 & Hu1 & Hno1).
  destruct Har as [Hdf Hid Hul Hd Hsf Hsm _ Hfr _ _ Hw _ _ _].
  assert (exists b σ2 i2 es2,
    (match (fun x : nat * dir_entry => (x.2, 20 * Z.of_nat x.1)) <$> list_find (named name) es with
     | Some _ => mret false
     | None => inumber ← inode_get_inumber (d_inode d); ok ← inode_set_dir_parent inumber s;
               if ok : bool then add_entry e0 d name s else mret false
     end : st (fsys D) bool) σ1 = Ok (b, σ2) /\ b = bool_decide (dir_map es !! name = None) /\
    fs_inv N n σ2 /\ dir_file σ2 d i2 es2 /\ i_locked i2 = true /\ unique es2 /\
    dir_map es2 = match dir_map es !! name with None => <[name := s]> (dir_map es) | Some _ => dir_map es end)
    as (b & σ2 & i2 & es2 & Hrun2 & -> & Hok2 & Hdf2 & Hl2 & Hun2 & Hmap2).
  { destruct (list_find (named name) es) as [[k e]|] eqn:Hfind; cbn [fmap option_fmap option_map].
    - assert (exists z, dir_map es !! name = Some z) as [z Hz] by (rewrite dir_map_find, Hfind; eauto). rewrite Hz.
      exists false, σ1, (with_locked true i), es. split; [reflexivity|]. split; [by rewrite bool_decide_eq_false_2|].
      split; [|split; [exact Hdf1|done]]. eapply fs_inv_mono; [|exact Hok1]. unfold add_budget. lia.
    - apply dir_map_none in Hfind. rewrite Hfind, bool_decide_eq_true_2 by done.
      destruct (add_new_ok n σ1 d (with_locked true i) es s ci name) as (σ2 & i2 & es2 & Hrun2 & Hok2 & Hdf2 & Hsh & Hun2 & Hmap2);
        try (exact Hok1 || exact Hdf1 || exact Hci1 || exact Hco1 || done); [by rewrite Hfr1|].
      exists true, σ2, i2, es2. split; [exact Hrun2|]. split; [done|]. split; [exact Hok2|]. split; [exact Hdf2|].
      split; [|split; [exact Hun2|exact Hmap2]]. destruct Hsh as (_ & _ & _ & _ & ->); [done|by left]. }
  destruct (set_lock_ok n σ2 d i2 es2 false Hok2 Hdf2) as (σ3 & Hup & Hok3 & _ & Hdf3 & _).
  exists σ3, (with_locked false i2), es2. split; [|split; [exact Hok3|split; [exact Hdf3|done]]].
  unfold dir_add, mbind, st_bind in *. destruct (inode_lock_acquire (d_inode d) σ) as [[[] σ0]|]; [|done].
  rewrite bool_decide_eq_false_2 by done. rewrite (proj2 (Z.ltb_ge _ _)) by done. cbn [orb]. rewrite Hrun1.
  destruct (list_find (named name) es) as [[k e]|]; cbn [fmap option_fmap option_map] in *;
    rewrite Hrun2, (dir_release_ok n σ2 d i2 es2 Hok2 Hdf2 Hl2), Hup; reflexivity.
Qed.
End dir_add.

(** ** Properties *)

(** Lookup is the lookup in the map from names to inode sectors that
    the entries in use stand for; it changes no sector. *)
Theorem lookup_refines_map {D} `{BlockDriverLaws D} N e0 n (σ : fsys D) d i es name :
  length e0 = 20%nat -> Forall is_byte e0 ->
  fs_inv N (entry_budget es 0 + n) σ -> dir_file σ d i es -> text name ->
  exists r σ', lookup e0 d name σ = Ok (r, σ') /\ (fun x => e_sector x.1) <$> r = dir_map es !! name /\
    fs_inv N n σ' /\ dir_file σ' d i es /\ (forall t, in_dev σ t -> view σ' t = view σ t).
Proof.
  intros H20 Hb Hok Hdf Ht. destruct (lookup_ok N e0 H20 Hb n σ d i es name Hok Hdf Ht) as (σ' & Hrun & Hok' & [_ Hof' [_ _ Hv] _]).
  eexists _, σ'. split; [exact Hrun|]. split; [|split; [exact Hok'|split; [split; [exact Hof'|apply Hdf]|exact Hv]]].
  rewrite dir_map_find. by destruct (list_find (named name) es) as [[k e]|].
Qed.


(** A directory in sector 4 with the entry "a" for sector 6, open at
    address 101, and a new inode in sector 5. *)
Definition dir_inode : inode_disk :=
  InodeDisk (4 :: replicate 14 0) 1 true 1 0 0 0 20 INODE_MAGIC (replicate 105 0).
Definition entry_a : dir_entry := Directory.Entry 6 (97 :: replicate 14 0) true.
Definition dir_disk : ramdisk :=
  <[2%nat := pad_sector [127; 0; 0; 0]]> (<[4%nat := pad_sector (entry_bytes entry_a)]>
    (<[5%nat := inode_bytes empty_inode]> small_disk)).
Definition dir_tab : list (Z * inode) :=
  [(101, Inode 3 1 false 0 false dir_inode); (100, Inode 0 1 false 0 false (small_inode 2 4))].
Definition dir_fs : fsys ramdisk := sample_fs dir_disk 127 dir_tab 102.

Lemma dir_fs_ok : sample_ok dir_disk 127 dir_tab.
Proof. sample_tac. Qed.

Lemma entry_a_ok : entry_ok entry_a.
Proof. split; [unfold is_word; simpl; lia|reflexivity|repeat constructor; unfold is_byte; lia|by exists [97]]. Qed.

Lemma dir_fs_file :
  dir_file dir_fs (Dir 101 0) (Inode 3 1 false 0 false dir_inode) [entry_a] /\
  own dir_fs dir_inode (dir_bytes [entry_a]) = [4].
Proof.
  destruct (sample_file dir_disk 127 dir_tab 102 dir_inode (dir_bytes [entry_a]) 4 dir_fs_ok) as [Hrep Hown].
  - lia.
  - reflexivity.
  - vm_compute. reflexivity.
  - split_and!; reflexivity.
  - vm_compute. split; [done|discriminate].
  - apply dir_bytes_bytes, Forall_singleton, entry_a_ok.
  - split; [|exact Hown]. split; [|apply Forall_singleton, entry_a_ok]. split; [reflexivity|done|exact Hrep].
Qed.

Lemma lookup_refines_map_witness :
  exists r σ', lookup (replicate 20 0) (Dir 101 0) [97] dir_fs = Ok (r, σ') /\ (fun x => e_sector x.1) <$> r = Some 6.
Proof.
  destruct (lookup_refines_map 16 (replicate 20 0) 0 dir_fs (Dir 101 0) (Inode 3 1 false 0 false dir_inode) [entry_a] [97])
    as (r & σ' & Hrun & Hr & _).
  - reflexivity.
  - apply bytes_replicate. unfold is_byte. lia.
  - apply (sample_inv _ _ _ _ _ dir_fs_ok). vm_compute. reflexivity.
  - apply dir_fs_file.
  - repeat constructor; unfold is_byte; lia.
  - exists r, σ'. split; [exact Hrun|]. rewrite Hr. vm_compute. reflexivity.
Defined.

Lemma empty_inode_ok : inode_disk_ok empty_inode.
Proof.
  split.
  - split; [reflexivity|]. apply Forall_replicate. unfold is_word. lia.
  - split; [reflexivity|]. apply Forall_replicate. unfold is_word. lia.
  - repeat apply Forall_cons_2; try apply Forall_nil_2; unfold is_word, empty_inode, INODE_MAGIC; simpl; lia.
  - repeat apply Forall_cons_2; try apply Forall_nil_2; unfold empty_inode; simpl; lia.
Qed.

