(* ===== verification/Filesys.v ===== *)
(** * The file system module (src/filesys/filesys.c)

    Paths, and the operations system calls use.  A thread's current_dir
    is an argument ([cwd], None for a null pointer); only filesys_chdir
    returns a new one.  Splitting a path with strtok_r (path, "/") yields
    [tokens], as CString.v proves of the code. *)

From S2P Require Import Prelude Memory CString Bitmap Block BufferCache InodeLayout Inode Directory.

Definition slash : Z := 47.
Definition DOT : list Z := [46].
Definition DOTDOT : list Z := [46; 46].

(** The components of a path. *)
Definition components (path : list Z) : list (list Z) := tokens [slash] path.

(** What filesys_open returns: a struct file, or a struct dir cast to it. *)
Inductive opened := OpenFile (f : file) | OpenDir (d : dir).
(** The struct file the callers take it for; deny_write of a struct dir is
    the byte [slack] behind it. *)
Definition as_file (slack : bool) (o : opened) : file :=
  match o with OpenFile f => f | OpenDir d => File (d_inode d) (d_pos d) slack end.

Section filesys.
Context {D : Type} `{BlockDriver D}.
Context (e0 : list Z).

(** dir_lookup and its ASSERT (dir != NULL). *)
Definition dir_lookup_checked (d : option dir) (name : list Z) : st (fsys D) (option Z) :=
  match d with
  | Some d => dir_lookup e0 d name
  | None => lift (Err Panic)
  end.

(** The loop of dir_from_path: [prev] is a component that has a successor.
    The last component is not looked up. *)
Fixpoint walk (l : list (list Z)) (d : option dir) : st (fsys D) (option dir) :=
  match l with
  | prev :: l' =>
      match l' with
      | [] => mret d
      | _ :: _ =>
          if bool_decide (prev = DOT) then walk l' d else
          p ← (if bool_decide (prev = DOTDOT) then get_dir_parent_inode d else dir_lookup_checked d prev);
          match p with
          | None => mret None
          | Some h =>
              b ← inode_is_dir h;
              if b : bool then
                dir_close d ≫= fun _ =>
                d ← dir_open (Some h); walk l' d
              else inode_close (Some h) ≫= fun _ => walk l' d
          end
      end
  | [] => mret d
  end.

Definition dir_from_path (cwd : option dir) (path : list Z) : st (fsys D) (option dir) :=
  d ← match cwd with
      | Some c => if bool_decide (head path = Some slash) then dir_open_root else dir_reopen c
      | None => dir_open_root
      end;
  walk (components path) d.

(** The last component, or the empty string.  A failed malloc makes memcpy
    fail its assertion. *)
Definition file_name_from_path (path : list Z) : st (fsys D) (list Z) :=
  ok ← malloc;
  kassert_st ok ≫= fun _ => mret (List.last (components path) []).

(** [dir != NULL && free_map_allocate (1, &inode_sector) && inode_create (...)
     && dir_add (...)]: the result and the value of inode_sector. *)
Definition create_steps (d : option dir) (file_name : list Z) (initial_size : Z) (is_dir : bool)
  : st (fsys D) (bool * Z) :=
  match d with
  | None => mret (false, 0)
  | Some d =>
      s ← free_map_allocate (@inode_write_at D (fs_env 0)) 1;
      match s with
      | None => mret (false, 0)
      | Some s =>
          ok ← fs_inode_create s initial_size is_dir;
          if ok : bool then added ← dir_add e0 d file_name s; mret (added, s) else mret (false, s)
      end
  end.

Definition filesys_create (cwd : option dir) (name : list Z) (initial_size : Z) (is_dir : bool) : st (fsys D) bool :=
  d ← dir_from_path cwd name;
  file_name ← file_name_from_path name;
  r ← (if bool_decide (file_name <> DOT) && bool_decide (file_name <> DOTDOT)
       then create_steps d file_name initial_size is_dir else mret (false, 0));
  (if negb r.1 && negb (r.2 =? 0) then free_map_release (@inode_write_at D (fs_env 0)) r.2 1 else mret tt) ≫= fun _ =>
  dir_close d ≫= fun _ => mret r.1.

(** The tail of filesys_open. *)
Definition open_inode (p : option Z) : st (fsys D) (option opened) :=
  match p with
  | None => mret None
  | Some h =>
      b ← inode_is_dir h;
      if b : bool then d ← dir_open (Some h); mret (OpenDir <$> d)
      else f ← file_open (Some h); mret (OpenFile <$> f)
  end.

Definition filesys_open (cwd : option dir) (name : list Z) : st (fsys D) (option opened) :=
  d ← dir_from_path cwd name;
  file_name ← file_name_from_path name;
  match d with
  | None => open_inode None
  | Some dd =>
      root ← dir_is_root d;
      if root && bool_decide (file_name = []) then mret (Some (OpenDir dd))
      else if bool_decide (file_name = DOT) then mret (Some (OpenDir dd))
      else if bool_decide (file_name = DOTDOT) then
        p ← get_dir_parent_inode d;
        match p with
        | None => mret None
        | Some h => dir_close d ≫= fun _ => open_inode (Some h)
        end
      else p ← dir_lookup e0 dd file_name; dir_close d ≫= fun _ => open_inode p
  end.

Definition filesys_remove (cwd : option dir) (name : list Z) : st (fsys D) bool :=
  d ← dir_from_path cwd name;
  file_name ← file_name_from_path name;
  success ← match d with Some d => dir_remove e0 d file_name | None => mret false end;
  dir_close d ≫= fun _ => mret success.

(** The result and the new current_dir. *)
Definition filesys_chdir (cwd : option dir) (new_path : list Z) : st (fsys D) (bool * option dir) :=
  d ← dir_from_path cwd new_path;
  file_name ← file_name_from_path new_path;
  match d with
  | None => mret (false, cwd)
  | Some dd =>
      root ← dir_is_root d;
      if bool_decide (file_name = DOT) then mret (true, d)
      else if bool_decide (file_name = []) && root then mret (true, d)
      else
        p ← (if bool_decide (file_name = DOTDOT) then get_dir_parent_inode d else dir_lookup e0 dd file_name);
        if bool_decide (file_name = DOTDOT) && bool_decide (p = None) then mret (false, cwd) else
        dir_close d ≫= fun _ =>
        new ← dir_open p;
        match new with
        | None => mret (false, cwd)
        | Some _ => dir_close cwd ≫= fun _ => mret (true, new)
        end
  end.

Definition do_format : st (fsys D) unit :=
  free_map_create ≫= fun _ =>
  ok ← dir_create ROOT_DIR_SECTOR 16;
  if ok : bool then free_map_close else lift (Err Panic).

(** [fs_device] is in the state; [role] is block_get_role (BLOCK_FILESYS),
    [bits] what malloc returns for the free map. *)
Definition filesys_init (role : option nat) (bits : list Z) (format : bool) : st (fsys D) unit :=
  match role with
  | None => lift (Err Panic)
  | Some _ =>
      on_cache cache_init ≫= fun _ =>
      inode_init ≫= fun _ =>
      free_map_init bits ≫= fun _ =>
      (if format then do_format else mret tt) ≫= fun _ =>
      free_map_open
  end.

Definition filesys_done : st (fsys D) unit :=
  on_cache (cache_writeback true) ≫= fun _ => free_map_close.
End filesys.

(** ** Sessions *)

(** A blank device of [n] sectors, and the state of a freshly booted kernel
    over the device of [σ]. *)
Definition boot_state (b : block ramdisk) : fsys ramdisk :=
  Fsys (Cache (replicate 64 (BufferCache.Entry false 0 false false [] 0)) 0 b) (Bitmap 0 []) None [] 100 []
    (Junk (replicate 128 0) (replicate 128 0) (replicate 128 0)).
Definition blank (n : nat) : fsys ramdisk :=
  boot_state (Block [] BLOCK_FILESYS (Z.of_nat n) (replicate n (replicate 512 0)) 0 0).
Definition reboot (σ : fsys ramdisk) : fsys ramdisk := boot_state (fs_device (fs_cache σ)).

Definition entry0 : list Z := replicate 20 0.
Definition boot (format : bool) : st (fsys ramdisk) unit := filesys_init (Some 0%nat) [0; 0] format.

(** The names of the sessions: "/d", "/d/f", "d/f", "/f", "/g". *)
Definition path_d : list Z := [47; 100].
Definition path_df : list Z := [47; 100; 47; 102].
Definition rel_df : list Z := [100; 47; 102].
Definition path_f : list Z := [47; 102].
Definition path_fg : list Z := [47; 102; 47; 103].
Definition path_g : list Z := [47; 103].

Definition with_opened {A} (path : list Z) (cwd : option dir) (k : file -> st (fsys ramdisk) A) : st (fsys ramdisk) (option A) :=
  o ← filesys_open entry0 cwd path;
  match o with
  | Some (OpenFile f) => r ← k f; mret (Some r)
  | _ => mret None
  end.

Definition run {S A} (m : st S A) (σ : S) : outcome A := r ← m σ; Ok r.1.

Definition write_session (l : list Z) : st (fsys ramdisk) (bool * bool * option Z) :=
  boot true ≫= fun _ =>
  a ← filesys_create entry0 None path_d 0 true;
  b ← filesys_create entry0 None path_df 0 false;
  n ← with_opened rel_df None (fun f => r ← file_write f l; file_close (Some f) ≫= fun _ => mret r.1);
  filesys_done ≫= fun _ => mret (a, b, n).

Definition read_session : st (fsys ramdisk) (option (list Z)) :=
  boot false ≫= fun _ => with_opened path_df None (fun f => r ← file_read f 10; mret r.1).


(** Names and removal.  A second file of the same name is refused, a
    directory that is not empty cannot be removed, a removed file cannot
    be opened again, and then its directory can be removed. *)
Theorem create_and_remove :
  run (boot true ≫= fun _ =>
       a ← filesys_create entry0 None path_d 0 true;
       b ← filesys_create entry0 None path_df 0 false;
       again ← filesys_create entry0 None path_df 0 false;
       full ← filesys_remove entry0 None path_d;
       r ← filesys_remove entry0 None path_df;
       o ← filesys_open entry0 None path_df;
       rd ← filesys_remove entry0 None path_d;
       mret (a, b, again, full, r, o, rd)) (blank 64) = Ok (true, true, false, false, true, None, true).
Proof. vm_compute. reflexivity. Qed.

(** A component that names a regular file is skipped: with two files
    f and g in the root directory, opening /f/g opens /g. *)
Theorem path_through_file :
  run (boot true ≫= fun _ =>
       a ← filesys_create entry0 None path_f 0 false;
       b ← filesys_create entry0 None path_g 0 false;
       g ← with_opened path_g None (fun f => file_write f [9]);
       l ← with_opened path_fg None (fun f => r ← file_read f 1; mret r.1);
       mret (a, b, l)) (blank 64) = Ok (true, true, Some [9]).
Proof. vm_compute. reflexivity. Qed.

(** Filesys_chdir accepts a regular file, and creating a file in that
    current directory then fails the assertion of lock_acquire: dir_add
    holds the lock that inode_write_at takes to grow a regular file. *)
Theorem chdir_to_file_panics :
  run (boot true ≫= fun _ =>
       _ ← filesys_create entry0 None path_f 0 false;
       c ← filesys_chdir entry0 None path_f;
       mret c.1) (blank 64) = Ok true /\
  run (boot true ≫= fun _ =>
       _ ← filesys_create entry0 None path_f 0 false;
       c ← filesys_chdir entry0 None path_f;
       filesys_create entry0 c.2 [103] 0 false) (blank 64) = Err Panic.
Proof. split; vm_compute; reflexivity. Qed.
