(* ===== verification/FsUtil.v ===== *)
(** * File system utilities (src/filesys/fsutil.c)

    The actions ls, cat, rm, extract and append of the kernel command line:
    extract copies a tar archive from the scratch device into the file
    system, append a file into an archive there.  Names, headers and
    sectors pass through byte memory; the buffers are at the addresses
    malloc returns, arguments here.  Messages are left out, as is what free
    does to a buffer. *)

From Stdlib Require Import Ascii String.
From S2P Require Import Prelude Memory CString Printf Ustar Bitmap Block BufferCache InodeLayout Inode FsFiles Directory Filesys.
#[local] Close Scope string_scope.
#[local] Open Scope list_scope.
#[local] Open Scope Z_scope.

(** block_read into memory: every byte must be mapped. *)
Fixpoint store_all (l : list Z) (p : Z) (m : mem) : outcome mem :=
  match l with [] => Ok m | b :: l' => m ← store m p b; store_all l' (p + 1) m end.
(** The string a function of the file system is given. *)
Definition string_at (p : Z) (m : mem) : outcome (list Z) := n ← strlen m p; read_bytes (Z.to_nat n) m p.

Section fsutil.
Context {D E : Type} {drvD : BlockDriver D} {drvE : BlockDriver E}.
(** The uninitialised struct dir_entry, the byte behind a struct dir, the
    current directory, and the addresses of the string literals. *)
Context (e0 : list Z) (slack : bool) (cwd : option dir) (lit : string -> Z).

(** The file system, memory, the device with the role BLOCK_SCRATCH, and
    the static variables [sector] of fsutil_extract and fsutil_append. *)
Record util := Util { u_fs : fsys D; u_mem : mem; u_scratch : option (block E); extract_sector : Z; append_sector : Z }.

Definition on_fs {A} (f : st (fsys D) A) : st util A := fun u =>
  r ← f (u_fs u); Ok (r.1, Util r.2 (u_mem u) (u_scratch u) (extract_sector u) (append_sector u)).
Definition on_mem {A} (f : mem -> outcome (A * mem)) : st util A := fun u =>
  r ← f (u_mem u); Ok (r.1, Util (u_fs u) r.2 (u_scratch u) (extract_sector u) (append_sector u)).
Definition read_mem {A} (f : mem -> outcome A) : st util A := fun u => a ← f (u_mem u); Ok (a, u).
Definition on_scratch {A} (f : st (block E) A) : st util A := fun u =>
  match u_scratch u with
  | Some b => r ← f b; Ok (r.1, Util (u_fs u) (u_mem u) (Some r.2) (extract_sector u) (append_sector u))
  | None => Err Fault
  end.
Definition panic_if {S} (b : bool) : st S unit := if b then lift (Err Panic) else mret tt.

(** [block_get_role (BLOCK_SCRATCH)] must not be NULL: its size. *)
Definition scratch_size : st util Z := fun u => match u_scratch u with Some b => Ok (block_size b, u) | None => Err Panic end.
Definition read_sector (sector p : Z) : st util unit :=
  l ← on_scratch (block_read sector); on_mem (fun m => m ← store_all l p m; Ok (tt, m)).
Definition write_sector (sector p : Z) : st util unit :=
  l ← read_mem (fun m => read_bytes 512 m p); on_scratch (block_write sector l).
Definition clear (p size : Z) : st util unit := on_mem (fun m => r ← memset m p 0 size; Ok (tt, r.2)).

(** [sector++] of each function. *)
Definition next_extract : st util Z := fun u =>
  Ok (extract_sector u, Util (u_fs u) (u_mem u) (u_scratch u) (u32 (extract_sector u + 1)) (append_sector u)).
Definition next_append : st util Z := fun u =>
  Ok (append_sector u, Util (u_fs u) (u_mem u) (u_scratch u) (extract_sector u) (u32 (append_sector u + 1))).

Definition chunk_size (size : Z) : Z := if BLOCK_SECTOR_SIZE <? size then BLOCK_SECTOR_SIZE else size.

(** ** Listing, printing and removing: what is printed *)

Fixpoint ls_loop (fuel : nat) (d : dir) : st (fsys D) (list (list Z)) :=
  match fuel with
  | O => lift (Err Fuel)
  | S fuel' =>
      r ← dir_readdir e0 d;
      match r.1 with None => mret [] | Some name => l ← ls_loop fuel' r.2; mret (name :: l) end
  end.
Definition fsutil_ls : st (fsys D) (list (list Z)) :=
  d ← dir_open_root;
  match d with
  | None => lift (Err Panic)
  | Some d => n ← inode_length (d_inode d); ls_loop (S (Z.to_nat n)) d
  end.

(** The arguments of each hex_dump: the position and the bytes. *)
Fixpoint cat_loop (fuel : nat) (f : file) : st (fsys D) (list (Z * list Z) * file) :=
  match fuel with
  | O => lift (Err Fuel)
  | S fuel' =>
      let pos := file_tell f in
      r ← file_read f 4096;
      match r.1 with
      | [] => mret ([], r.2)
      | _ :: _ => l ← cat_loop fuel' r.2; mret ((pos, r.1) :: l.1, l.2)
      end
  end.
Definition fsutil_cat (file_name : list Z) : st (fsys D) (list (Z * list Z)) :=
  o ← filesys_open e0 cwd file_name;
  match o with
  | None => lift (Err Panic)
  | Some o =>
      n ← file_length (as_file slack o);
      r ← cat_loop (S (Z.to_nat n)) (as_file slack o);
      file_close (Some r.2) ≫= fun _ => mret r.1
  end.

Definition fsutil_rm (file_name : list Z) : st (fsys D) unit :=
  ok ← filesys_remove e0 cwd file_name; panic_if (negb ok).

(** ** Extracting an archive *)

Fixpoint copy_in (fuel : nat) (data : Z) (dst : file) (size : Z) : st util file :=
  match fuel with
  | O => lift (Err Fuel)
  | S fuel' =>
      if 0 <? size then
        let chunk := chunk_size size in
        sector ← next_extract;
        read_sector sector data ≫= fun _ =>
        buf ← read_mem (fun m => read_bytes (Z.to_nat chunk) m data);
        r ← on_fs (file_write dst buf);
        panic_if (negb (r.1 =? chunk)) ≫= fun _ => copy_in fuel' data r.2 (size - chunk)
      else mret dst
  end.

Fixpoint extract_loop (fuel : nat) (header data : Z) : st util unit :=
  match fuel with
  | O => lift (Err Fuel)
  | S fuel' =>
      sector ← next_extract;
      read_sector sector header ≫= fun _ =>
      p ← read_mem (fun m => ustar_parse_header lit m header);
      match p with
      | inl _ => lift (Err Panic)
      | inr (file_name, type, size) =>
          if type =? USTAR_EOF then mret tt
          else if type =? USTAR_DIRECTORY then extract_loop fuel' header data
          else if type =? USTAR_REGULAR then
            name ← read_mem (string_at file_name);
            ok ← on_fs (filesys_create e0 cwd name size false);
            panic_if (negb ok) ≫= fun _ =>
            o ← on_fs (filesys_open e0 cwd name);
            match o with
            | None => lift (Err Panic)
            | Some o =>
                f ← copy_in (S (Z.to_nat size)) data (as_file slack o) size;
                on_fs (file_close (Some f)) ≫= fun _ => extract_loop fuel' header data
            end
          else extract_loop fuel' header data
      end
  end.

(** block_read panics at the end of the device, so the loop makes at most as
    many iterations as it has sectors, and one. *)
Definition fsutil_extract (header data : Z) : st util unit :=
  panic_if ((header =? NULL) || (data =? NULL)) ≫= fun _ =>
  n ← scratch_size;
  extract_loop (S (Z.to_nat n)) header data ≫= fun _ =>
  clear header BLOCK_SECTOR_SIZE ≫= fun _ =>
  write_sector 0 header ≫= fun _ => write_sector 1 header.

(** ** Appending a file *)

Fixpoint copy_out (fuel : nat) (buffer : Z) (src : file) (size : Z) : st util file :=
  match fuel with
  | O => lift (Err Fuel)
  | S fuel' =>
      if 0 <? size then
        let chunk := chunk_size size in
        sector ← gets append_sector;
        n ← scratch_size;
        panic_if (n <=? sector) ≫= fun _ =>
        r ← on_fs (file_read src chunk);
        on_mem (fun m => m ← store_all r.1 buffer m; Ok (tt, m)) ≫= fun _ =>
        panic_if (negb (Z.of_nat (length r.1) =? chunk)) ≫= fun _ =>
        clear (buffer + chunk) (BLOCK_SECTOR_SIZE - chunk) ≫= fun _ =>
        sector ← next_append;
        write_sector sector buffer ≫= fun _ => copy_out fuel' buffer r.2 (size - chunk)
      else mret src
  end.

Definition fsutil_append (buffer : Z) (argv : list Z) : st util unit :=
  file_name ← lift (zget argv 1);
  panic_if (buffer =? NULL) ≫= fun _ =>
  name ← read_mem (string_at file_name);
  o ← on_fs (filesys_open e0 cwd name);
  match o with
  | None => lift (Err Panic)
  | Some o =>
      size ← on_fs (file_length (as_file slack o));
      _ ← scratch_size;
      ok ← on_mem (fun m => ustar_make_header lit m file_name USTAR_REGULAR size buffer);
      panic_if (negb ok) ≫= fun _ =>
      sector ← next_append;
      write_sector sector buffer ≫= fun _ =>
      f ← copy_out (S (Z.to_nat size)) buffer (as_file slack o) size;
      clear buffer BLOCK_SECTOR_SIZE ≫= fun _ =>
      sector ← gets append_sector;
      write_sector sector buffer ≫= fun _ =>
      write_sector sector (buffer + 1) ≫= fun _ =>
      on_fs (file_close (Some f))
  end.
End fsutil.
Arguments util : clear implicits.

(** ** Archives

    What an archive holds, and what extracting it does to the file system
    without the device, the headers and the buffers. *)

Inductive item := Regular (name contents : list Z) | Folder (name : list Z).

(** The pieces of 512 bytes of a file. *)
Fixpoint pieces (fuel : nat) (c : list Z) : list (list Z) :=
  match fuel, c with
  | S fuel', _ :: _ => take 512 c :: pieces fuel' (drop 512 c)
  | _, _ => []
  end.
Definition chunks (c : list Z) : list (list Z) := pieces (length c) c.

(** The sectors of the items, without the end marker. *)
Inductive entries_of : list item -> list (list Z) -> Prop :=
| no_entries : entries_of [] []
| regular_entry name c hd items ls :
    header_of name USTAR_REGULAR (Z.of_nat (length c)) hd -> Forall is_byte c -> entries_of items ls ->
    entries_of (Regular name c :: items) (hd :: (pad_sector <$> chunks c) ++ ls)
| folder_entry name size hd items ls :
    header_of name USTAR_DIRECTORY size hd -> entries_of items ls -> entries_of (Folder name :: items) (hd :: ls).
Definition end_marker : list Z := replicate 512 0.

Section spec.
Context {D : Type} {drvD : BlockDriver D}.
Context (e0 : list Z) (slack : bool) (cwd : option dir).

Fixpoint write_chunks (f : file) (cs : list (list Z)) : st (fsys D) file :=
  match cs with
  | [] => mret f
  | c :: cs' => r ← file_write f c; panic_if (negb (r.1 =? Z.of_nat (length c))) ≫= fun _ => write_chunks r.2 cs'
  end.
Definition restore_item (it : item) : st (fsys D) unit :=
  match it with
  | Folder _ => mret tt
  | Regular name c =>
      ok ← filesys_create e0 cwd name (Z.of_nat (length c)) false;
      panic_if (negb ok) ≫= fun _ =>
      o ← filesys_open e0 cwd name;
      match o with
      | None => lift (Err Panic)
      | Some o => f ← write_chunks (as_file slack o) (chunks c); file_close (Some f)
      end
  end.
Fixpoint restore (items : list item) : st (fsys D) unit :=
  match items with [] => mret tt | it :: items' => restore_item it ≫= fun _ => restore items' end.

(** The contents of a file, of a length that is not negative, read in
    pieces. *)
Fixpoint fetch_loop (fuel : nat) (f : file) (size : Z) : st (fsys D) (list Z * file) :=
  match fuel with
  | O => lift (Err Fuel)
  | S fuel' =>
      if 0 <? size then
        r ← file_read f (chunk_size size);
        panic_if (negb (Z.of_nat (length r.1) =? chunk_size size)) ≫= fun _ =>
        x ← fetch_loop fuel' r.2 (size - chunk_size size); mret (r.1 ++ x.1, x.2)
      else mret ([], f)
  end.
Definition fetch (name : list Z) : st (fsys D) (list Z) :=
  o ← filesys_open e0 cwd name;
  match o with
  | None => lift (Err Panic)
  | Some o =>
      size ← file_length (as_file slack o);
      kassert_st (0 <=? size) ≫= fun _ =>
      r ← fetch_loop (S (Z.to_nat size)) (as_file slack o) size;
      file_close (Some r.2) ≫= fun _ => mret r.1
  end.
End spec.

(** ** Sample machines *)

Definition tape_disk (n : nat) : block ramdisk := Block [] BLOCK_SCRATCH (Z.of_nat n) (replicate n (replicate 512 0)) 0 0.
(** The name "f" at 2000, a buffer at 3000 followed by the byte [x], one at
    4000. *)
Definition util_mem (x : Z) : mem := put (put (mem_name "f") 3512 [x]) 4000 (replicate 512 7).
Definition machine (σ : fsys ramdisk) (x : Z) (b : block ramdisk) : util ramdisk ramdisk := Util σ (util_mem x) (Some b) 0 0.
Definition final {S A} (m : st S A) (s : S) : option S := match m s with Ok (_, s') => Some s' | Err _ => None end.

Definition small_file (l : list Z) : st (fsys ramdisk) unit :=
  boot true ≫= fun _ => restore entry0 false None [Regular (str "f") l].
Definition append_f (x : Z) (l : list Z) : option (util ramdisk ramdisk) :=
  σ ← final (small_file l) (blank 64);
  final (fsutil_append entry0 false None lit0 3000 [0; 2000]) (machine σ x (tape_disk 8)).
