(* ===== verification/FsUtilLaws.v ===== *)
(** * Laws of the file system utilities

    Extracting an archive does to the file system what creating and writing
    its files does ([restore]), and append archives what reading the file
    gives ([fetch]); [tracks] relates a run of a utility to a computation on
    the file system alone, and its rules follow the two together. *)

From Stdlib Require Import Ascii String.
From S2P Require Import Prelude Memory Wp CString HeapSort Printf Ustar Bitmap Block BufferCache InodeLayout InodeGrow InodeData Inode FsLaws FsFiles Directory Filesys FsUtil.
#[local] Close Scope string_scope.
#[local] Open Scope list_scope.
#[local] Open Scope Z_scope.

(** ** Following a computation of the file system *)

Section tracks.
Context {D E : Type}.
Implicit Types (u : util D E).

(** A run of a utility does to the file system what [r] says, failures
    included. *)
Definition tracks {A B} (r : outcome (A * fsys D)) (x : outcome (B * util D E)) (R : A -> B -> util D E -> Prop) : Prop :=
  match r with
  | Ok (a, σ) => exists b u, x = Ok (b, u) /\ u_fs u = σ /\ R a b u
  | Err e => x = Err e
  end.

Lemma tracks_bind {A B A' B'} (f : st (fsys D) A) (g : st (util D E) B) (k : A -> st (fsys D) A') (k' : B -> st (util D E) B') R R' σ u :
  tracks (f σ) (g u) R -> (forall a b u1, R a b u1 -> tracks (k a (u_fs u1)) (k' b u1) R') -> tracks ((f ≫= k) σ) ((g ≫= k') u) R'.
Proof.
  intros Hf Hk. unfold mbind, st_bind. unfold tracks in Hf. destruct (f σ) as [[a σ1]|e].
  - destruct Hf as (b & u1 & -> & <- & HR). by apply Hk.
  - by rewrite Hf.
Qed.
(** A step that leaves the file system alone. *)
Lemma tracks_step {A B B'} (r : outcome (A * fsys D)) (g : st (util D E) B) (k' : B -> st (util D E) B') R u :
  wp g (fun b u1 => tracks r (k' b u1) R) u -> tracks r ((g ≫= k') u) R.
Proof. unfold wp, mbind, st_bind. by destruct (g u) as [[b u1]|]. Qed.
Lemma tracks_ret {A B} (a : A) (b : B) R u : R a b u -> tracks ((mret a : st (fsys D) A) (u_fs u)) ((mret b : st (util D E) B) u) R.
Proof. intros HR. by exists b, u. Qed.
Lemma tracks_fs {A} (f : st (fsys D) A) (R : A -> A -> util D E -> Prop) u :
  (forall a σ', f (u_fs u) = Ok (a, σ') -> R a a (Util σ' (u_mem u) (u_scratch u) (extract_sector u) (append_sector u))) -> tracks (f (u_fs u)) (on_fs f u) R.
Proof. intros HR. unfold tracks, on_fs. destruct (f (u_fs u)) as [[a σ']|e]; [|done]. cbn. eexists a, _. split; [done|]. split; [done|]. by apply HR. Qed.
Lemma tracks_panic_if b (R : unit -> unit -> util D E -> Prop) u : (b = false -> R tt tt u) -> tracks (panic_if b (u_fs u)) (panic_if b u) R.
Proof. intros HR. destruct b; [done|]. apply tracks_ret. by apply HR. Qed.
Lemma tracks_mono {A B} r x (R R' : A -> B -> util D E -> Prop) : tracks r x R -> (forall a b u, R a b u -> R' a b u) -> tracks r x R'.
Proof. unfold tracks. destruct r as [[a σ]|]; [|done]. intros (b & u & -> & <- & HR) Hm. exists b, u. split_and!; auto. Qed.
(** Steps after the last one of the file system. *)
Lemma tracks_then {A B B'} r (g : st (util D E) B) (k : B -> st (util D E) B') (R : A -> B -> util D E -> Prop) R' u :
  tracks r (g u) R -> (forall a b u1, R a b u1 -> wp (k b) (fun b' u2 => u_fs u2 = u_fs u1 /\ R' a b' u2) u1) -> tracks r ((g ≫= k) u) R'.
Proof.
  unfold tracks, wp, mbind, st_bind. destruct r as [[a σ]|e]; [|by intros ->]. intros (b & u1 & -> & <- & HR) Hk. specialize (Hk a b u1 HR).
  destruct (k b u1) as [[b' u2]|]; [|done]. destruct Hk as [<- HR']. by exists b', u2.
Qed.
End tracks.

(** ** Memory and the scratch device *)

Lemma store_all_ok l p m : mapped m p (length l) -> store_all l p m = Ok (put m p l).
Proof.
  revert p m. induction l as [|b l IH]; intros p m Hm; cbn [store_all]; [by rewrite put_nil|].
  cbn [length] in Hm. rewrite store_Ok by (apply Hm; lia). cbn [mbind outcome_bind]. rewrite IH; [by rewrite <- put_cons, <- put_cons, put_nil|].
  apply mapped_put. intros a Ha. apply Hm. lia.
Qed.

Lemma string_at_ok p s m : p <> NULL -> cstr m p s -> string_at p m = Ok s.
Proof.
  intros Hp Hs. unfold string_at. rewrite (strlen_ok _ _ s) by done. cbn [mbind outcome_bind]. rewrite Nat2Z.id. apply read_bytes_ok, cstr_bytes, Hs.
Qed.

Section device.
Context {E : Type} `{BlockDriverLaws E}.
Implicit Types (b : block E).

Definition content b (s : Z) : list Z := drv_content (driver b) s.
Definition device_ok b : Prop := block_ok b /\ b_size b < 2 ^ 32.
(** The device holds [ls] from sector [s] on. *)
Definition holds b (s : Z) (ls : list (list Z)) : Prop :=
  forall k l, ls !! k = Some l -> 0 <= s + Z.of_nat k < b_size b /\ content b (s + Z.of_nat k) = l.
Definition same_disk b b' : Prop :=
  device_ok b' /\ b_size b' = b_size b /\ forall s, 0 <= s < b_size b -> content b' s = content b s.

Lemma same_disk_trans b1 b2 b3 : same_disk b1 b2 -> same_disk b2 b3 -> same_disk b1 b3.
Proof. intros (_ & E1 & H1') (H2 & E2 & H2'). split; [done|]. split; [congruence|]. intros s Hs. rewrite H2' by lia. by apply H1'. Qed.
Lemma holds_same b b' s ls : same_disk b b' -> holds b s ls -> holds b' s ls.
Proof. intros (_ & E1 & H1') Hh k l Hk. destruct (Hh k l Hk) as [Hr Hc]. rewrite E1. split; [done|]. by rewrite H1'. Qed.
Lemma holds_cons b s l ls : holds b s (l :: ls) <-> (0 <= s < b_size b /\ content b s = l) /\ holds b (s + 1) ls.
Proof.
  split.
  - intros Hh. split; [specialize (Hh 0%nat l eq_refl); by rewrite Z.add_0_r in Hh|]. intros k x Hk. specialize (Hh (S k) x Hk). by replace (s + 1 + Z.of_nat k) with (s + Z.of_nat (S k)) by lia.
  - intros [H1' H2] [|k] x Hk; [cbn in Hk; simplify_eq; by rewrite Z.add_0_r|]. specialize (H2 k x Hk). by replace (s + Z.of_nat (S k)) with (s + 1 + Z.of_nat k) by lia.
Qed.
Lemma holds_app b s l1 l2 : holds b s (l1 ++ l2) <-> holds b s l1 /\ holds b (s + Z.of_nat (length l1)) l2.
Proof.
  revert s. induction l1 as [|l l1 IH]; intros s; cbn [app length].
  - rewrite Z.add_0_r. split; [intros Hh; split; [by intros k x Hk|done]|by intros [_ ?]].
  - rewrite !holds_cons, IH. replace (s + 1 + Z.of_nat (length l1)) with (s + Z.of_nat (S (length l1))) by lia. tauto.
Qed.

Lemma device_read b s : device_ok b -> 0 <= s < b_size b ->
  exists b', block_read s b = Ok (content b s, b') /\ same_disk b b' /\ length (content b s) = 512%nat /\ Forall is_byte (content b s).
Proof.
  intros [Hb Hn] Hs. destruct (block_read_ok b s Hb Hs) as (b' & E1 & Hb' & Hsz & Hc). exists b'. split; [done|]. destruct Hb as (Hd & Hr & _).
  split; [split; [split; [done|lia]|done]|]. split; [apply drv_content_len|apply drv_content_bytes]; (done || lia).
Qed.
Lemma device_write b s l : device_ok b -> 0 <= s < b_size b -> length l = 512%nat -> Forall is_byte l ->
  exists b', block_write s l b = Ok (tt, b') /\ device_ok b' /\ b_size b' = b_size b /\
    forall t, 0 <= t < b_size b -> content b' t = if decide (s = t) then l else content b t.
Proof.
  intros [Hb Hn] Hs Hl Hby. destruct (block_write_ok b s l Hb Hs Hl Hby) as (b' & E1 & Hb' & Hsz & Hc). exists b'. split; [done|]. split; [split; [done|lia]|done].
Qed.
End device.

(** Memory that changes in the 512 bytes at [p] only. *)
Definition mem_frame (p : Z) (m m' : mem) : Prop :=
  (forall a, ~ (p <= a < p + 512) -> m' !! a = m !! a) /\ (forall a, is_Some (m !! a) -> is_Some (m' !! a)).
Lemma mem_frame_refl p m : mem_frame p m m.
Proof. done. Qed.
Lemma mem_frame_trans p m1 m2 m3 : mem_frame p m1 m2 -> mem_frame p m2 m3 -> mem_frame p m1 m3.
Proof. intros [H1 H2] [H3 H4]. split; [intros a Ha; by rewrite H3, H1|auto]. Qed.
Lemma mem_frame_put p m q l : p <= q -> q + Z.of_nat (length l) <= p + 512 -> mem_frame p m (put m q l).
Proof.
  intros Hp Hl. split; intros a Ha; rewrite lookup_put; case_decide as Hc; try done; [lia|]. apply lookup_lt_is_Some. lia.
Qed.
Lemma mem_frame_mapped p m m' q n : mem_frame p m m' -> mapped m q n -> mapped m' q n.
Proof. intros [_ Hm] Hq a Ha. apply Hm, Hq, Ha. Qed.
Lemma mem_frame_cstr p m m' q s : mem_frame p m m' -> apart p q s -> cstr m q s -> cstr m' q s.
Proof.
  intros [Hf _] Ha Hs. apply (cstr_frame m); [done|]. intros k Hk. apply Hf. unfold apart in Ha. lia.
Qed.

Lemma pieces_length n c : Forall (fun l : list Z => (length l <= 512)%nat) (pieces n c).
Proof. revert c. induction n as [|n IH]; intros [|x c]; try constructor; [rewrite length_take; lia|apply IH]. Qed.
Lemma pieces_fuel n c : (length c <= n)%nat -> pieces n c = chunks c.
Proof.
  unfold chunks. enough (forall k n c, length c <= n -> length c <= k -> pieces n c = pieces k c)%nat as Hk by (intros; apply Hk; lia).
  clear. induction k as [|k IH]; intros [|n] [|x c]; cbn [length]; intros; try done; try lia. cbn [pieces]. f_equal. apply IH; rewrite length_drop; cbn [length]; lia.
Qed.
Lemma length_pad l : (length l <= 512)%nat -> length (pad_sector l) = 512%nat.
Proof. intros. unfold pad_sector. rewrite length_app, length_replicate. lia. Qed.
Lemma chunk_take (x : Z) (c : list Z) : chunk_size (Z.of_nat (length (x :: c))) = Z.of_nat (length (take 512 (x :: c))).
Proof.
  unfold chunk_size, BLOCK_SECTOR_SIZE. rewrite length_take. destruct (Z.ltb_spec 512 (Z.of_nat (length (x :: c)))); lia.
Qed.

Section utilities.
Context {D E : Type} {drvD : BlockDriver D} `{BlockDriverLaws E}.
Implicit Types (σ : fsys D) (m : mem) (b : block E).

Lemma wp_read_sector s p σ m b x a (Q : unit -> util D E -> Prop) : device_ok b -> 0 <= s < b_size b -> mapped m p 512 ->
  (forall b', same_disk b b' -> Q tt (Util σ (put m p (content b s)) (Some b') x a)) -> wp (read_sector s p) Q (Util σ m (Some b) x a).
Proof.
  intros Hb Hs Hm HQ. destruct (device_read b s Hb Hs) as (b' & E1 & Hsd & Hl & _). apply wp_bind. unfold wp, on_scratch, on_mem. cbn [u_scratch]. rewrite E1.
  cbn [mbind outcome_bind fst snd u_mem]. rewrite store_all_ok by (by rewrite Hl). by apply HQ.
Qed.
Lemma wp_write_sector s p l σ m b x a (Q : unit -> util D E -> Prop) : device_ok b -> 0 <= s < b_size b -> bytes_at m p l -> length l = 512%nat -> Forall is_byte l ->
  (forall b', device_ok b' -> b_size b' = b_size b -> (forall t, 0 <= t < b_size b -> content b' t = if decide (s = t) then l else content b t) ->
     Q tt (Util σ m (Some b') x a)) -> wp (write_sector s p) Q (Util σ m (Some b) x a).
Proof.
  intros Hb Hs Hm Hl Hby HQ. destruct (device_write b s l Hb Hs Hl Hby) as (b' & E1 & Hok & Hsz & Hc). apply wp_bind. unfold wp, on_scratch, read_mem. cbn [u_mem u_scratch].
  rewrite <- Hl, read_bytes_ok by done. cbn [mbind outcome_bind u_scratch]. rewrite E1. by apply HQ.
Qed.
Lemma wp_read_mem {A} (f : mem -> outcome A) v σ m sc x a (Q : A -> util D E -> Prop) : f m = Ok v -> Q v (Util σ m sc x a) -> wp (read_mem f) Q (Util σ m sc x a).
Proof. intros E1 HQ. unfold wp, read_mem. cbn [u_mem]. by rewrite E1. Qed.
Lemma wp_change_mem {A} (f : mem -> outcome (A * mem)) v m' σ m sc x a (Q : A -> util D E -> Prop) : f m = Ok (v, m') -> Q v (Util σ m' sc x a) -> wp (on_mem f) Q (Util σ m sc x a).
Proof. intros E1 HQ. unfold wp, on_mem. cbn [u_mem]. by rewrite E1. Qed.
Lemma wp_clear p n σ m sc x a (Q : unit -> util D E -> Prop) : p <> NULL -> mapped m p n -> Q tt (Util σ (put m p (replicate n 0)) sc x a) ->
  wp (clear p (Z.of_nat n)) Q (Util σ m sc x a).
Proof. intros Hp Hm HQ. eapply wp_change_mem; [|exact HQ]. rewrite memset_ok by done. done. Qed.

(** The copy loop writes the pieces of the file. *)
Lemma copy_in_ok data n c f σ m b x a : (length c <= n)%nat -> device_ok b -> holds b x (pad_sector <$> pieces n c) -> mapped m data 512 ->
  tracks (write_chunks f (pieces n c) σ) (copy_in (S n) data f (Z.of_nat (length c)) (Util σ m (Some b) x a))
    (fun f1 f2 u => f1 = f2 /\ exists σ' m' b', u = Util σ' m' (Some b') (x + Z.of_nat (length (pieces n c))) a /\ same_disk b b' /\ mem_frame data m m').
Proof.
  revert c f σ m b x. induction n as [|n IH]; intros c f σ m b x Hn Hb Hh Hm.
  { destruct c; [|simpl in Hn; lia]. apply tracks_ret. split; [done|]. exists σ, m, b. cbn. rewrite Z.add_0_r. by split_and!. }
  destruct c as [|y c]. { apply tracks_ret. split; [done|]. exists σ, m, b. cbn. rewrite Z.add_0_r. by split_and!. }
  assert (pieces (S n) (y :: c) = take 512 (y :: c) :: pieces n (drop 512 (y :: c))) as Ep by done. rewrite Ep in *. rewrite fmap_cons, holds_cons in Hh. destruct Hh as [[Hx Hc] Hh].
  set (t := take 512 (y :: c)) in *. set (c' := drop 512 (y :: c)) in *. remember (S n) as n' eqn:En'. cbn [copy_in write_chunks].
  rewrite (proj2 (Z.ltb_lt 0 _)) by (simpl; lia). rewrite chunk_take. fold t.
  assert (length t <= 512)%nat as Ht by (unfold t; rewrite length_take; lia).
  pose proof (proj2 Hb) as Hsz. apply tracks_step. unfold wp, next_extract. cbn [extract_sector u_fs u_mem u_scratch append_sector]. rewrite u32_small by lia.
  apply tracks_step, wp_read_sector; [done|done|done|]. intros b1 Hb1. rewrite Hc.
  apply tracks_step. eapply wp_read_mem. { rewrite Nat2Z.id. apply read_bytes_ok. pose proof (bytes_at_put m data (pad_sector t)) as Hp. unfold pad_sector in Hp at 2. apply bytes_at_app in Hp. apply Hp. }
  set (m1 := put m data (pad_sector t)). apply (tracks_bind (file_write f t) _ _ _ (fun r1 r2 u => r1 = r2 /\ exists σ', u = Util σ' m1 (Some b1) (x + 1) a)).
  { apply (tracks_fs _ _ (Util σ m1 (Some b1) (x + 1) a)). intros r σ' _. eauto. }
  intros r ? u1 [<- [σ' ->]]. eapply tracks_bind; [apply (tracks_panic_if _ (fun _ _ u => u = Util σ' m1 (Some b1) (x + 1) a)); done|].
  intros [] [] u2 ->. cbn [u_fs]. replace (Z.of_nat (length (y :: c)) - Z.of_nat (length t)) with (Z.of_nat (length c')).
  2:{ unfold t, c'. rewrite length_take, length_drop. lia. }
  subst n'. assert (mem_frame data m m1) as Hf1 by (apply mem_frame_put; rewrite ?length_pad by done; lia).
  eapply tracks_mono; [apply IH|].
  - unfold c'. rewrite length_drop. simpl in *. lia.
  - apply Hb1.
  - by eapply holds_same.
  - by eapply mem_frame_mapped.
  - intros f1 f2 u [-> (σ'' & m' & b' & -> & Hsd & Hf)]. split; [done|]. exists σ'', m', b'. split; [f_equal; simpl length; lia|].
    split; [by eapply same_disk_trans|by eapply mem_frame_trans].
Qed.
End utilities.

Lemma all_zeros_true k p m : bytes_at m p (replicate k 0) -> all_zeros k m p = Ok true.
Proof.
  revert p. induction k as [|k IH]; intros p Hb; [done|]. cbn [replicate] in Hb. apply bytes_at_cons in Hb as [Hp Hb]. cbn [all_zeros].
  rewrite (load_Ok _ _ _ Hp). cbn. by apply IH.
Qed.
Lemma parse_end_marker lit m h : ustar_parse_header lit (put m h end_marker) h = Ok (inr (NULL, USTAR_EOF, 0)).
Proof.
  unfold ustar_parse_header, is_all_zeros. change (Z.to_nat USTAR_HEADER_SIZE) with 512%nat. rewrite all_zeros_true; [reflexivity|]. apply bytes_at_put.
Qed.

(** The size of a header sector. *)
Lemma header_length name type size l : header_of name type size l -> length l = 512%nat /\ Forall is_byte l.
Proof. intros (_ & _ & _ & _ & sz & sm & (Hl & Hb & _) & _). done. Qed.
Lemma entries_snoc items ls name c hd : entries_of items ls -> header_of name USTAR_REGULAR (Z.of_nat (length c)) hd -> Forall is_byte c ->
  entries_of (items ++ [Regular name c]) (ls ++ hd :: (pad_sector <$> chunks c)).
Proof.
  intros Hls Hhd Hc. induction Hls as [|name0 c0 hd0 items ls H0 Hc0 _ IH|name0 size0 hd0 items ls H0 _ IH]; cbn [app]; rewrite <- ?app_assoc.
  - rewrite <- (app_nil_r (pad_sector <$> chunks c)). apply regular_entry; [done|done|constructor].
  - by apply regular_entry.
  - by eapply folder_entry.
Qed.
Lemma entries_count items ls : entries_of items ls -> (length items <= length ls)%nat.
Proof. induction 1; cbn [length]; rewrite ?length_app; lia. Qed.

(** The first two sectors are zeros, the others as they were. *)
Definition erased {E} `{BlockDriverLaws E} (b b' : block E) : Prop :=
  device_ok b' /\ b_size b' = b_size b /\ forall t, 0 <= t < b_size b -> content b' t = if t <? 2 then end_marker else content b t.

Section extract.
Context {D E : Type} {drvD : BlockDriver D} `{BlockDriverLaws E}.
Context (e0 : list Z) (slack : bool) (cwd : option dir) (lit : string -> Z).
Implicit Types (σ : fsys D) (m : mem) (b : block E).

(** A buffer away from the literals of the program. *)
Record buffer_at (p : Z) : Prop := {
  bf_pos : 0 < p;
  bf_lits : Forall (fun s => apart p (lit s) (str s)) (fst <$> ustar_lits)
}.

Lemma image_frame p m m' : buffer_at p -> mem_frame p m m' -> image lit m -> image lit m'.
Proof.
  intros [_ Hl] Hf Hi. unfold image in *. rewrite list.Forall_forall in Hi, Hl |- *. intros s Hs. destruct (Hi s Hs) as [H1 H2]. split; [done|].
  eapply mem_frame_cstr; [exact Hf|by apply Hl|done].
Qed.

Variables header data : Z.
Hypotheses (Hhb : buffer_at header) (Hdb : buffer_at data).

Definition ready m : Prop := image lit m /\ mapped m header 512 /\ mapped m data 512.
Lemma ready_frame p m m' : p = header \/ p = data -> mem_frame p m m' -> ready m -> ready m'.
Proof.
  intros Hp Hf (H1 & H2 & H3). split; [eapply image_frame; [|exact Hf|done]; destruct Hp as [-> | ->]; done|].
  by split; eapply mem_frame_mapped.
Qed.

Lemma extract_loop_ok items ls : entries_of items ls -> forall fuel σ m b x a, (length items < fuel)%nat -> ready m -> device_ok b -> holds b x (ls ++ [end_marker]) ->
  tracks (restore e0 slack cwd items σ) (extract_loop e0 slack cwd lit fuel header data (Util σ m (Some b) x a))
    (fun _ _ u => exists σ' m' b', u = Util σ' m' (Some b') (x + Z.of_nat (length ls) + 1) a /\ same_disk b b' /\ ready m').
Proof.
  assert (forall l m, length l = 512%nat -> ready m -> ready (put m header l)) as Hput.
  { intros l m Hl. apply (ready_frame header); [by left|]. apply mem_frame_put; lia. }
  induction 1 as [|name c hd items ls Hhd Hc Hls IH|name size hd items ls Hhd Hls IH]; intros [|fuel] σ m b x a Hfuel Hm Hb Hh; simpl in Hfuel; try lia;
    pose proof (proj2 Hb) as Hsz; cbn [app] in Hh; rewrite holds_cons in Hh; destruct Hh as [[Hx Hcx] Hh]; cbn [extract_loop];
    apply tracks_step; unfold wp at 1, next_extract; cbn [extract_sector u_fs u_mem u_scratch append_sector]; rewrite u32_small by lia;
    (apply tracks_step, wp_read_sector; [done|done|apply Hm|]); intros b1 Hb1; rewrite Hcx.
  - apply tracks_step. eapply wp_read_mem; [apply parse_end_marker|]. cbn [Z.eqb USTAR_EOF Pos.eqb]. apply (tracks_ret tt tt _ (Util σ _ _ _ _)).
    eexists σ, _, b1. split; [f_equal; simpl; lia|]. split; [done|]. by apply Hput.
  - destruct (header_length _ _ _ _ Hhd) as [Hl _]. destruct (parse_header_ok lit m header (bf_pos _ Hhb) (proj1 Hm) (bf_lits _ Hhb) _ _ _ _ Hhd) as (q & Eq & Hq0 & Hq).
    apply tracks_step. eapply wp_read_mem; [exact Eq|]. change (USTAR_REGULAR =? USTAR_EOF) with false. change (USTAR_REGULAR =? USTAR_DIRECTORY) with false.
    change (USTAR_REGULAR =? USTAR_REGULAR) with true. cbv iota. cbn [restore restore_item].
    apply tracks_step. eapply wp_read_mem; [apply string_at_ok; [unfold NULL; lia|exact Hq]|]. set (m1 := put m header hd). set (n := length c).
    assert (ready m1) as Hm1 by (by apply Hput).
    rewrite st_bind_assoc. apply (tracks_bind _ _ _ _ (fun r1 r2 u => r1 = r2 /\ exists σ', u = Util σ' m1 (Some b1) (x + 1) a));
      [apply (tracks_fs _ _ (Util σ m1 (Some b1) (x + 1) a)); eauto|]. intros ok ? u1 [<- [σ1 ->]].
    rewrite st_bind_assoc. apply (tracks_bind _ _ _ _ (fun _ _ u => u = Util σ1 m1 (Some b1) (x + 1) a)); [by apply tracks_panic_if|]. intros [] [] u2 ->.
    rewrite st_bind_assoc. apply (tracks_bind _ _ _ _ (fun r1 r2 u => r1 = r2 /\ exists σ', u = Util σ' m1 (Some b1) (x + 1) a));
      [apply (tracks_fs _ _ (Util σ1 m1 (Some b1) (x + 1) a)); eauto|]. intros [o|] ? u1 [<- [σ2 ->]]; [|done].
    rewrite <- app_assoc, holds_app in Hh. destruct Hh as [Hh1 Hh2]. rewrite length_fmap in Hh2.
    rewrite st_bind_assoc. rewrite Nat2Z.id. eapply tracks_bind; [apply (copy_in_ok data n c); [done|apply Hb1|by eapply holds_same|apply Hm1]|].
    intros f1 f2 u [-> (σ3 & m2 & b2 & -> & Hb2 & Hf2)]. cbn [u_fs]. set (y := x + 1 + _).
    apply (tracks_bind _ _ _ _ (fun r1 r2 u => r1 = r2 /\ exists σ', u = Util σ' m2 (Some b2) y a));
      [apply (tracks_fs _ _ (Util σ3 m2 (Some b2) y a)); eauto|]. intros [] [] u [_ [σ4 ->]].
    pose proof (same_disk_trans _ _ _ Hb1 Hb2) as Hb12. eapply tracks_mono; [apply IH; [lia|eapply (ready_frame data); [by right|done|done]|apply Hb2|by eapply holds_same]|].
    intros [] [] u (σ' & m' & b' & -> & Hsd & Hr). exists σ', m', b'. split; [|split; [by eapply same_disk_trans|done]].
    f_equal. unfold y, chunks. simpl length. rewrite length_app, length_fmap. fold n. lia.
  - destruct (header_length _ _ _ _ Hhd) as [Hl _]. destruct (parse_header_ok lit m header (bf_pos _ Hhb) (proj1 Hm) (bf_lits _ Hhb) _ _ _ _ Hhd) as (q & Eq & Hq0 & Hq).
    apply tracks_step. eapply wp_read_mem; [exact Eq|]. change (USTAR_DIRECTORY =? USTAR_EOF) with false. change (USTAR_DIRECTORY =? USTAR_DIRECTORY) with true. cbv iota.
    cbn [restore restore_item]. eapply tracks_mono; [apply IH; [lia|by apply Hput|apply Hb1|by eapply holds_same]|].
    intros [] [] u (σ' & m' & b' & -> & Hsd & Hr). exists σ', m', b'. split; [f_equal; simpl length; lia|]. split; [by eapply same_disk_trans|done].
Qed.

Lemma fsutil_extract_ok items ls σ m b x a : entries_of items ls -> ready m -> device_ok b -> 2 <= b_size b -> holds b x (ls ++ [end_marker]) ->
  tracks (restore e0 slack cwd items σ) (fsutil_extract e0 slack cwd lit header data (Util σ m (Some b) x a))
    (fun _ _ u => extract_sector u = x + Z.of_nat (length ls) + 1 /\ exists b', u_scratch u = Some b' /\ erased b b').
Proof.
  intros Hls Hm Hb Hsz Hh. unfold fsutil_extract. destruct Hhb as [Hh0 _], Hdb as [Hd0 _]. apply tracks_step.
  rewrite (proj2 (Z.eqb_neq header NULL)), (proj2 (Z.eqb_neq data NULL)) by (unfold NULL; lia). apply tracks_step. cbn [orb scratch_size u_scratch wp].
  assert (length items <= Z.to_nat (b_size b))%nat as Hn.
  { pose proof (entries_count _ _ Hls). destruct (Hh (length ls) end_marker) as [Hr _]; [by rewrite lookup_app_r, Nat.sub_diag by lia|].
    destruct ls as [|l ls']; [simpl in *; lia|]. destruct (Hh 0%nat l eq_refl) as [Hr0 _]. lia. }
  eapply tracks_then; [apply extract_loop_ok; [done|unfold block_size; lia|done|done|done]|].
  intros [] [] u (σ' & m' & b' & -> & (Hb' & Esz & Hsd) & Hm'). cbn [u_fs].
  change BLOCK_SECTOR_SIZE with (Z.of_nat 512). apply wp_bind, wp_clear; [unfold NULL; lia|apply Hm'|].
  assert (forall m, bytes_at (put m header end_marker) header end_marker) as Hz by (intros; apply bytes_at_put).
  apply wp_bind, (wp_write_sector 0 header end_marker); [done|lia|apply Hz|done|apply Forall_replicate; unfold is_byte; lia|]. intros b1 Hb1 E1 Hc1.
  apply (wp_write_sector 1 header end_marker); [done|lia|apply Hz|done|apply Forall_replicate; unfold is_byte; lia|]. intros b2 Hb2 E2 Hc2.
  split; [done|]. split; [done|]. exists b2. split; [done|]. split; [done|]. split; [by rewrite E2, E1|]. intros t Ht.
  rewrite Hc2, Hc1 by lia. destruct (Z.ltb_spec t 2); [|rewrite !decide_False by lia; apply Hsd; lia].
  destruct (decide (1 = t)); [reflexivity|]. rewrite decide_True by lia. reflexivity.
Qed.
End extract.

(** ** Appending *)

Section append.
Context {D E : Type} {drvD : BlockDriver D} `{BlockDriverLaws E}.
Context (e0 : list Z) (slack : bool) (cwd : option dir) (lit : string -> Z).
Implicit Types (σ : fsys D) (m : mem) (b : block E).

(** [ls] has been written from sector [s] on. *)
Definition wrote b b' (s : Z) (ls : list (list Z)) : Prop :=
  device_ok b' /\ b_size b' = b_size b /\ holds b' s ls /\
  forall t, 0 <= t < b_size b -> ~ (s <= t < s + Z.of_nat (length ls)) -> content b' t = content b t.

Lemma wrote_nil b s : device_ok b -> wrote b b s [].
Proof. intros Hb. split; [done|]. split; [done|]. split; [by intros k l Hk|done]. Qed.
Lemma wrote_one b b' s l : 0 <= s < b_size b -> device_ok b' -> b_size b' = b_size b ->
  (forall t, 0 <= t < b_size b -> content b' t = if decide (s = t) then l else content b t) -> wrote b b' s [l].
Proof.
  intros Hs Hb Hsz Hc. split; [done|]. split; [done|]. split.
  - apply holds_cons. split; [|by intros k x Hk]. rewrite Hsz, Hc by lia. by rewrite decide_True.
  - intros t Ht Hn. rewrite Hc by done. rewrite decide_False; [done|]. intros <-. simpl in Hn. lia.
Qed.
Lemma wrote_app b b1 b2 s l1 l2 : 0 <= s -> wrote b b1 s l1 -> wrote b1 b2 (s + Z.of_nat (length l1)) l2 -> wrote b b2 s (l1 ++ l2).
Proof.
  intros Hs (_ & E1 & Hh1 & Hc1) (Hb2 & E2 & Hh2 & Hc2). split; [done|]. split; [congruence|]. split.
  - apply holds_app. split; [|done]. intros k l Hk. destruct (Hh1 k l Hk) as [Hr Hc]. apply lookup_lt_Some in Hk. split; [lia|]. rewrite Hc2 by lia. done.
  - intros t Ht Hn. rewrite length_app in Hn. rewrite Hc2 by lia. apply Hc1; lia.
Qed.
Lemma wrote_holds b b' s ls t ls' : wrote b b' s ls -> holds b t ls' -> t + Z.of_nat (length ls') <= s -> holds b' t ls'.
Proof.
  intros (_ & E1 & _ & Hc) Hh Hle k l Hk. destruct (Hh k l Hk) as [Hr Hx]. apply lookup_lt_Some in Hk. rewrite E1. split; [done|]. by rewrite Hc by lia.
Qed.

Lemma fetch_loop_length n f size σ c f' σ' : 0 <= size -> fetch_loop n f size σ = Ok ((c, f'), σ') -> Z.of_nat (length c) = size.
Proof.
  revert f size σ c f' σ'. induction n as [|n IH]; intros f size σ c f' σ' Hs; [done|]. cbn [fetch_loop]. destruct (Z.ltb_spec 0 size) as [Hp|]; [|intros [= <- <- <-]; simpl; lia].
  rewrite st_bind_Ok. intros ([r f1] & σ1 & _ & Hk). cbn [fst snd] in Hk. destruct (Z.eqb_spec (Z.of_nat (length r)) (chunk_size size)) as [Hl|]; [|done].
  cbn [negb panic_if] in Hk. rewrite st_bind_Ok in Hk. destruct Hk as ([] & σ2 & [= <-] & Hk). rewrite st_bind_Ok in Hk. destruct Hk as ([x f2] & σ3 & Hx & [= <- <- <-]).
  unfold chunk_size, BLOCK_SECTOR_SIZE in *. apply IH in Hx; destruct (Z.ltb_spec 512 size); rewrite ?length_app; cbn [fst]; lia.
Qed.

Lemma copy_out_ok buffer n f size σ c f' σ' m b x a : 0 < buffer -> fetch_loop n f size σ = Ok ((c, f'), σ') -> 0 <= size -> size <= Z.of_nat n -> Forall is_byte c ->
  device_ok b -> 0 <= a -> a + Z.of_nat (length (pieces n c)) < b_size b -> mapped m buffer 512 ->
  wp (copy_out n buffer f size) (fun r u => r = f' /\ exists m' b', u = Util σ' m' (Some b') x (a + Z.of_nat (length (pieces n c))) /\
    mem_frame buffer m m' /\ wrote b b' a (pad_sector <$> pieces n c)) (Util σ m (Some b) x a).
Proof.
  intros Hbuf. revert f size σ c f' σ' m b a. induction n as [|n IH]; intros f size σ c f' σ' m b a Hf Hs Hn Hc Hb Ha Hsp Hm; [done|].
  pose proof (fetch_loop_length _ _ _ _ _ _ _ Hs Hf) as Hlen. cbn [fetch_loop copy_out] in *. destruct (Z.ltb_spec 0 size) as [Hp|].
  2:{ destruct c; [|simpl in Hlen; lia]. injection Hf as <- <-. apply wp_ret. split; [done|]. exists m, b. cbn. rewrite Z.add_0_r. split; [done|]. split; [done|]. by apply wrote_nil. }
  rewrite st_bind_Ok in Hf. destruct Hf as ([r f1] & σ1 & Hr & Hk). cbn [fst snd] in Hk. destruct (Z.eqb_spec (Z.of_nat (length r)) (chunk_size size)) as [Hl|]; [|done].
  cbn [negb panic_if] in Hk. rewrite st_bind_Ok in Hk. destruct Hk as ([] & ? & [= <-] & Hk). rewrite st_bind_Ok in Hk. destruct Hk as ([y f2] & σ3 & Hx & [= <- <- <-]). cbn [fst snd] in *.
  assert (length r <= 512)%nat as Hr512 by (unfold chunk_size, BLOCK_SECTOR_SIZE in *; destruct (Z.ltb_spec 512 size); lia).
  assert (pieces (S n) (r ++ y) = r :: pieces n y) as Ep.
  { assert (take 512 (r ++ y) = r /\ drop 512 (r ++ y) = y) as [Et Ed].
    { unfold chunk_size, BLOCK_SECTOR_SIZE in *. rewrite length_app in Hlen. destruct (Z.ltb_spec 512 size).
      - split; [by apply take_app_length'; lia|by apply drop_app_length'; lia].
      - assert (length y = 0)%nat as Hy by lia. apply nil_length_inv in Hy as ->. rewrite app_nil_r. split; [apply take_ge; lia|apply drop_ge; lia]. }
    cbn [pieces]. destruct (r ++ y) eqn:Er; [apply app_eq_nil in Er as [-> ->]; simpl in Hlen; lia|]. by rewrite Et, Ed. }
  rewrite Ep in *. cbn [length] in Hsp. apply Forall_app in Hc as [Hcr Hcy]. apply wp_bind, wp_gets, wp_bind. cbn [append_sector]. unfold wp at 1, scratch_size, block_size. cbn [u_scratch].
  apply wp_bind. rewrite (proj2 (Z.leb_gt _ _)) by lia. apply wp_ret, wp_bind. unfold wp at 1, on_fs. cbn [u_fs]. rewrite Hr. cbn [mbind outcome_bind fst snd u_mem u_scratch extract_sector append_sector].
  apply wp_bind. eapply wp_change_mem. { rewrite store_all_ok; [done|]. intros k Hk. apply Hm. lia. }
  apply wp_bind. rewrite (proj2 (Z.eqb_eq _ _)) by done. apply wp_ret, wp_bind. set (m1 := put m buffer r).
  assert (BLOCK_SECTOR_SIZE - chunk_size size = Z.of_nat (512 - length r)) as -> by (unfold BLOCK_SECTOR_SIZE; lia). rewrite <- Hl.
  apply wp_clear; [unfold NULL; lia|apply mapped_put; intros k Hk; apply Hm; lia|]. unfold m1. rewrite put_app.
  change (r ++ replicate (512 - length r) 0) with (pad_sector r). set (m2 := put m buffer (pad_sector r)).
  pose proof (proj2 Hb) as Hsz. apply wp_bind. unfold wp at 1, next_append. cbn [u_fs u_mem u_scratch extract_sector append_sector]. rewrite u32_small by lia.
  apply wp_bind, (wp_write_sector a buffer (pad_sector r)); [done|lia|apply bytes_at_put|by apply length_pad|apply Forall_app; split; [done|apply Forall_replicate; unfold is_byte; lia]|].
  intros b1 Hb1 E1 Hc1. pose proof (wrote_one b b1 a _ ltac:(lia) Hb1 E1 Hc1) as Hw1.
  assert (mem_frame buffer m m2) as Hf2 by (apply mem_frame_put; rewrite ?length_pad by done; lia).
  assert (0 <= size - chunk_size size <= Z.of_nat n) as [Hs1 Hs2] by (unfold chunk_size, BLOCK_SECTOR_SIZE in *; destruct (Z.ltb_spec 512 size); lia).
  rewrite Hl. eapply wp_mono; [apply (IH f1 _ σ1 y f2 σ3 m2 b1 (a + 1)); try done; [lia|lia|by eapply mem_frame_mapped]|].
  intros r' u [-> (m' & b' & -> & Hf' & Hw')]. split; [done|]. exists m', b'. split; [f_equal; simpl; lia|]. split; [by eapply mem_frame_trans|].
  rewrite fmap_cons. apply (wrote_app _ b1 _ _ [pad_sector r]); [lia|done|done].
Qed.

Lemma end_marker_twice m p : m !! (p + 512) = Some 0 -> bytes_at (put m p end_marker) (p + 1) end_marker.
Proof.
  intros Hz. apply bytes_at_lookup. intros k v Hk. apply lookup_replicate in Hk as [-> Hk]. rewrite lookup_put. change (length end_marker) with 512%nat. case_decide.
  - apply lookup_replicate_2. lia.
  - by replace (p + 1 + Z.of_nat k) with (p + 512) by lia.
Qed.

(** The end marker, when the byte behind the buffer is zero. *)
Lemma wp_marker buffer σ m b x a (k : st (util D E) unit) Q : 0 < buffer -> mapped m buffer 512 -> m !! (buffer + 512) = Some 0 -> device_ok b -> 0 <= a < b_size b ->
  (forall m' b', wrote b b' a [end_marker] -> wp k Q (Util σ m' (Some b') x a)) ->
  wp (clear buffer BLOCK_SECTOR_SIZE ≫= fun _ => sector ← gets append_sector; write_sector sector buffer ≫= fun _ => write_sector sector (buffer + 1) ≫= fun _ => k)
    Q (Util σ m (Some b) x a).
Proof.
  intros Hb0 Hm Hz Hb Ha Hk. change BLOCK_SECTOR_SIZE with (Z.of_nat 512). assert (Forall is_byte end_marker) as Hzb by (apply Forall_replicate; unfold is_byte; lia).
  apply wp_bind, wp_clear; [unfold NULL; lia|done|]. change (replicate 512 0) with end_marker. apply wp_bind, wp_gets. cbn [append_sector].
  apply wp_bind, (wp_write_sector a buffer end_marker); [done|lia|apply bytes_at_put|done|done|]. intros b1 Hb1 E1 Hc1.
  apply wp_bind, (wp_write_sector a (buffer + 1) end_marker); [done|lia|by apply end_marker_twice|done|done|]. intros b2 Hb2 E2 Hc2.
  apply Hk, wrote_one; [done|done|by rewrite E2|]. intros t Ht. rewrite Hc2, Hc1 by lia. by destruct (decide (a = t)).
Qed.

(** The archive [items] grows by the file [name]. *)
Lemma fsutil_append_ok buffer argv p name c σ σ' m b x items ls : buffer_at lit buffer -> image lit m -> mapped m buffer 512 -> m !! (buffer + 512) = Some 0 ->
  zget argv 1 = Ok p -> 0 < p -> cstr m p name -> apart buffer p name -> (length (safe_name name) <= 99)%nat ->
  fetch e0 slack cwd name σ = Ok (c, σ') -> Forall is_byte c -> Z.of_nat (length c) <= INT_MAX ->
  device_ok b -> entries_of items ls -> holds b 0 ls -> Z.of_nat (length ls) + 1 + Z.of_nat (length (chunks c)) < b_size b ->
  exists m' b' ls', fsutil_append e0 slack cwd lit buffer argv (Util σ m (Some b) x (Z.of_nat (length ls))) = Ok (tt, Util σ' m' (Some b') x (Z.of_nat (length ls'))) /\
    device_ok b' /\ b_size b' = b_size b /\ entries_of (items ++ [Regular (safe_name name) c]) ls' /\ holds b' 0 (ls' ++ [end_marker]).
Proof.
  intros [Hb0 Hlits] Himg Hm Hz Hargv Hp Hname Hap Hshort Hfetch Hc Hmax Hb Hls Hh Hsp. unfold fetch in Hfetch.
  apply st_bind_Ok in Hfetch as ([o|] & σ1 & Ho & Hfetch); [|done]. apply st_bind_Ok in Hfetch as (size & σ2 & Hsize & Hfetch).
  apply st_bind_Ok in Hfetch as ([] & σ2' & Hpos & Hfetch). unfold kassert_st in Hpos. destruct (Z.leb_spec 0 size) as [Hs0|]; [|done]. injection Hpos as <-.
  apply st_bind_Ok in Hfetch as ([c1 f1] & σ3 & Hloop & Hfetch). apply st_bind_Ok in Hfetch as ([] & σ4 & Hclose & Hret). injection Hret as -> ->. cbn [fst snd] in *.
  pose proof (fetch_loop_length _ _ _ _ _ _ _ Hs0 Hloop) as Hlen. pose proof (proj2 Hb) as Hsz. set (a := Z.of_nat (length ls)) in *.
  destruct (make_header_ok lit m buffer Hb0 Hm Himg Hlits p name USTAR_REGULAR size) as (hd & Ehd & Hhd); [done|done|by left|lia|done|done|].
  destruct (header_length _ _ _ _ Hhd) as [Hl Hby]. set (ls' := ls ++ hd :: (pad_sector <$> chunks c)).
  enough (wp (fsutil_append e0 slack cwd lit buffer argv) (fun _ u => exists m' b', u = Util σ' m' (Some b') x (Z.of_nat (length ls')) /\
    wrote b b' a ((hd :: (pad_sector <$> chunks c)) ++ [end_marker])) (Util σ m (Some b) x a)) as Hwp.
  { apply wp_unit_Ok in Hwp as (u & Eu & m' & b' & -> & Hw). exists m', b', ls'. split; [exact Eu|]. pose proof Hw as (Hb' & E1 & Hh' & _). split; [done|]. split; [done|]. split.
    - apply entries_snoc; [done|by rewrite Hlen|done].
    - unfold ls'. rewrite <- app_assoc. apply holds_app. split; [eapply wrote_holds; [exact Hw|exact Hh|lia]|]. by rewrite Z.add_0_l. }
  unfold fsutil_append. apply wp_bind. eapply wp_lift; [exact Hargv|]. apply wp_bind. rewrite (proj2 (Z.eqb_neq buffer NULL)) by (unfold NULL; lia). apply wp_ret, wp_bind.
  eapply wp_read_mem; [by apply string_at_ok; [unfold NULL; lia|]|]. apply wp_bind. unfold wp at 1, on_fs. cbn [u_fs]. rewrite Ho. cbn [mbind outcome_bind fst snd u_mem u_scratch extract_sector append_sector].
  apply wp_bind. unfold wp at 1, on_fs. cbn [u_fs]. rewrite Hsize. cbn [mbind outcome_bind fst snd u_mem u_scratch extract_sector append_sector].
  apply wp_bind. unfold wp at 1, scratch_size. cbn [u_scratch]. apply wp_bind. eapply wp_change_mem; [exact Ehd|]. apply wp_bind, wp_ret, wp_bind.
  unfold wp at 1, next_append. cbn [u_fs u_mem u_scratch extract_sector append_sector]. rewrite u32_small by lia.
  apply wp_bind, (wp_write_sector a buffer hd); [done|lia|apply bytes_at_put|done|done|]. intros b1 Hb1 E1 Hc1. pose proof (wrote_one b b1 a hd ltac:(lia) Hb1 E1 Hc1) as Hw1.
  set (m1 := put m buffer hd). assert (mem_frame buffer m m1) as Hf1 by (apply mem_frame_put; lia).
  apply wp_bind. assert (pieces (S (Z.to_nat size)) c = chunks c) as Ep by (apply pieces_fuel; lia).
  eapply wp_mono; [apply (copy_out_ok buffer _ _ _ σ2 c f1 σ3 m1 b1 x (a + 1)); rewrite ?Ep, ?E1; try done; [lia..|by eapply mem_frame_mapped]|].
  rewrite Ep. intros ? u [-> (m2 & b2 & -> & Hf2 & Hw2)]. pose proof Hw2 as (Hb2 & E2 & _ & _). set (a2 := a + 1 + _) in *.
  pose proof (mem_frame_trans _ _ _ _ Hf1 Hf2) as Hf12. apply wp_marker; [done|by eapply mem_frame_mapped|by rewrite (proj1 Hf12) by lia|done|lia|]. intros m3 b3 Hw3.
  unfold wp, on_fs. cbn [u_fs]. rewrite Hclose. cbn [mbind outcome_bind fst snd u_mem u_scratch extract_sector append_sector]. exists m3, b3. split.
  - f_equal. unfold ls', a2, a. rewrite length_app. cbn [length]. rewrite length_fmap. lia.
  - apply (wrote_app _ b2); [lia| |by unfold a2 in Hw3; cbn [length]; rewrite length_fmap; replace (a + Z.of_nat (S (length (chunks c)))) with (a + 1 + Z.of_nat (length (chunks c))) by lia].
    by apply (wrote_app _ b1 _ _ [hd]); [lia|..].
Qed.
End append.

(** ** The contents of files

    Reading and writing in pieces is reading and writing the file. *)

Section contents.
Context {D : Type} `{BlockDriverLaws D} (N : Z).
Implicit Types (σ : fsys D).

(** A write inside the file. *)
Lemma inode_write_inside n σ h i c off buf : fs_inv N (length buf + n) σ -> open_file σ h i c -> i_deny i = 0 -> Forall is_byte buf -> 0 <= off -> off + fsize buf <= fsize c ->
  exists σ', inode_write_at h buf off σ = Ok (fsize buf, σ') /\ fs_inv N n σ' /\ tbl σ' = tbl σ /\ open_file σ' h i (splice c (Z.to_nat off) buf).
Proof.
  intros Hok [Hfind Hne Hrep] Hd Hby Ho Hl. rewrite inode_write_at_split. unfold get_inode, mbind, st_bind. rewrite Hfind, Hd. cbn [negb Z.eqb].
  pose proof (fr_max _ _ _ Hrep) as Hcm. unfold grow_step. rewrite (fr_len _ _ _ Hrep). unfold fsize, MAX_SECTORS in *. rewrite s32_small by lia.
  rewrite (proj2 (Z.ltb_ge _ _)) by lia. cbn. rewrite Hfind.
  destruct (write_loop_ok (H1 := io_fs N (tbl σ)) (length buf) n σ (i_data i) c buf off 0) as (σ' & Hrun & Hok' & Hrep' & _); [done|exact Hok|exact Hrep|done|done|done|].
  pose proof (fo_tbl _ _ _ _ Hok') as Ht. exists σ'. split; [exact Hrun|]. split; [unfold fs_inv; by rewrite Ht|]. split; [exact Ht|]. injection Ht as Ht1 Ht2 _ _ _.
  split; [by rewrite Ht1|by rewrite Ht2|exact Hrep'].
Qed.

Lemma write_chunks_ok k c n σ h i pre old d : (length c <= k)%nat -> fs_inv N (length c + n) σ -> open_file σ h i (pre ++ old) -> length old = length c -> i_deny i = 0 -> Forall is_byte c ->
  exists σ', write_chunks (File h (fsize pre) d) (pieces k c) σ = Ok (File h (fsize (pre ++ c)) d, σ') /\ fs_inv N n σ' /\ tbl σ' = tbl σ /\ open_file σ' h i (pre ++ c).
Proof.
  revert c σ pre old. induction k as [|k IH]; intros c σ pre old Hk Hok Hof Hl Hd Hc.
  { destruct c; [|simpl in Hk; lia]. apply nil_length_inv in Hl as ->. exists σ. by rewrite app_nil_r in *. }
  destruct c as [|y c]. { apply nil_length_inv in Hl as ->. exists σ. by rewrite app_nil_r in *. }
  cbn [pieces]. set (t := take 512 (y :: c)). set (c' := drop 512 (y :: c)). cbn [write_chunks].
  assert (length c' <= k)%nat as Hk' by (unfold c'; rewrite length_drop; simpl in *; lia).
  assert (y :: c = t ++ c') as Ec by (symmetry; apply take_drop). clearbody t c'. rewrite Ec in Hl, Hok, Hc |- *. rewrite length_app in Hl, Hok.
  pose proof (fr_max _ _ _ (of_rep _ _ _ _ Hof)) as Hmax. unfold fsize in Hmax. rewrite length_app in Hmax. apply Forall_app in Hc as [Hct Hcc].
  destruct (inode_write_inside (length c' + n) σ h i (pre ++ old) (fsize pre) t) as (σ1 & E1 & Hok1 & Ht1 & Hof1);
    [by rewrite Nat.add_assoc|done|done|done|unfold fsize; lia|unfold fsize; rewrite length_app; lia|].
  assert (splice (pre ++ old) (Z.to_nat (fsize pre)) t = (pre ++ t) ++ drop (length t) old) as Es.
  { unfold splice, fsize. rewrite Nat2Z.id, take_app_length, drop_app_ge by lia. rewrite <- app_assoc. do 3 f_equal. lia. }
  rewrite Es in Hof1. destruct (IH c' σ1 (pre ++ t) (drop (length t) old)) as (σ2 & E2 & Hok2 & Ht2 & Hof2); try done.
  { rewrite length_drop. lia. }
  exists σ2. rewrite <- app_assoc in E2, Hof2. split; [|split; [done|split; [congruence|done]]].
  unfold file_write, mbind, st_bind. cbn [f_inode f_pos f_deny]. rewrite E1. cbn. unfold panic_if. rewrite (proj2 (Z.eqb_eq _ _)) by done. cbn.
  unfold MAX_SECTORS in Hmax. rewrite s32_small by (unfold fsize; lia). unfold fsize in E2 |- *. rewrite length_app, Nat2Z.inj_add in E2. exact E2.
Qed.

Lemma file_read_ok n σ h i c p d size : fs_inv N (Z.to_nat size + n) σ -> open_file σ h i c -> 0 <= size <= 4096 -> 0 <= p <= fsize c ->
  let l := window c (Z.to_nat p) (Z.to_nat size) in
  exists σ', file_read (File h p d) size σ = Ok ((l, File h (p + fsize l) d), σ') /\ fs_inv N n σ' /\ tbl σ' = tbl σ /\ open_file σ' h i c.
Proof.
  intros Hok Hof Hs Hp l. pose proof (fr_max _ _ _ (of_rep _ _ _ _ Hof)) as Hmax. unfold fsize, MAX_SECTORS in *.
  destruct (inode_read_at_ok N n σ h i c size p) as (σ' & E1 & Hok' & Ht & Hof' & _); [done|done|lia..|]. exists σ'. split; [|done].
  unfold file_read, mbind, st_bind. cbn [f_inode f_pos f_deny]. rewrite E1. fold l. cbn. assert (length l <= 4096)%nat by (unfold l, window; rewrite length_take; lia).
  by rewrite s32_small by lia.
Qed.

Lemma fetch_loop_ok k size n σ h i c p d : size <= Z.of_nat k -> 0 <= p -> p + size = fsize c -> 0 <= size -> fs_inv N (Z.to_nat size + n) σ -> open_file σ h i c ->
  exists σ', fetch_loop (S k) (File h p d) size σ = Ok ((drop (Z.to_nat p) c, File h (fsize c) d), σ') /\ fs_inv N n σ' /\ tbl σ' = tbl σ /\ open_file σ' h i c.
Proof.
  revert size σ p. induction k as [|k IH]; intros size σ p Hk Hp He Hs Hok Hof.
  all: assert (size <= 0 -> drop (Z.to_nat p) c = [] /\ p = fsize c) as Hend by (intros; split; [apply drop_ge; unfold fsize in *; lia|lia]).
  { cbn [fetch_loop]. rewrite (proj2 (Z.ltb_ge _ _)) by lia. destruct Hend as [-> ->]; [lia|]. exists σ. split; [done|]. by replace (Z.to_nat size + n)%nat with n in Hok by lia. }
  remember (S k) as k' eqn:Ek. cbn [fetch_loop]. destruct (Z.ltb_spec 0 size) as [Hpos|].
  2:{ destruct Hend as [-> ->]; [lia|]. exists σ. split; [done|]. by replace (Z.to_nat size + n)%nat with n in Hok by lia. }
  set (t := chunk_size size). assert (0 < t <= 512 /\ t <= size) as Ht by (unfold t, chunk_size, BLOCK_SECTOR_SIZE; destruct (Z.ltb_spec 512 size); lia).
  destruct (file_read_ok (Z.to_nat (size - t) + n) σ h i c p d t) as (σ1 & E1 & Hok1 & Ht1 & Hof1); [by replace (Z.to_nat t + _)%nat with (Z.to_nat size + n)%nat by lia|done|lia|lia|].
  set (l := window c (Z.to_nat p) (Z.to_nat t)) in *. assert (length l = Z.to_nat t) as Hl by (apply length_window; unfold fsize in *; lia).
  subst k'. destruct (IH (size - t) σ1 (p + t)) as (σ2 & E2 & Hok2 & Ht2 & Hof2); [lia|lia|lia|lia|done|done|].
  exists σ2. split; [|split; [done|split; [congruence|done]]]. unfold mbind, st_bind. rewrite E1. cbn [fst snd]. unfold panic_if. rewrite (proj2 (Z.eqb_eq _ _)) by lia. cbn [negb mret st_ret].
  replace (p + fsize l) with (p + t) by (unfold fsize; lia). rewrite E2. cbn [fst snd]. unfold mret, st_ret. do 3 f_equal. unfold l, window.
  replace (Z.to_nat (p + t)) with (Z.to_nat p + Z.to_nat t)%nat by lia. rewrite <- drop_drop. apply take_drop.
Qed.

(** The dumps of [l] from position [p] on, 4096 bytes each. *)
Fixpoint dumps (k : nat) (p : Z) (l : list Z) : list (Z * list Z) :=
  match k, l with S k', _ :: _ => (p, take 4096 l) :: dumps k' (p + fsize (take 4096 l)) (drop 4096 l) | _, _ => [] end.
Lemma dumps_all k p l : fsize l <= 4096 * Z.of_nat k -> concat (snd <$> dumps k p l) = l.
Proof.
  revert p l. induction k as [|k IH]; intros p [|x l] Hk; [done|unfold fsize in Hk; simpl in Hk; lia|done|]. cbn [dumps]. rewrite fmap_cons. cbn [concat snd].
  rewrite IH; [apply take_drop|]. unfold fsize in *. rewrite length_drop. lia.
Qed.

Lemma cat_loop_ok fuel k n σ h i c p d : (k < fuel)%nat -> fsize c - p <= 4096 * Z.of_nat k -> 0 <= p <= fsize c -> fs_inv N (S k * 4096 + n) σ -> open_file σ h i c ->
  exists σ', cat_loop fuel (File h p d) σ = Ok ((dumps k p (drop (Z.to_nat p) c), File h (fsize c) d), σ') /\ fs_inv N n σ' /\ tbl σ' = tbl σ /\ open_file σ' h i c.
Proof.
  revert k σ p. induction fuel as [|fuel IH]; intros k σ p Hf Hk Hp Hok Hof; [lia|]. cbn [cat_loop].
  destruct (file_read_ok (k * 4096 + n) σ h i c p d 4096) as (σ1 & E1 & Hok1 & Ht1 & Hof1); [by change (Z.to_nat 4096) with 4096%nat; rewrite Nat.add_assoc|done|lia|done|].
  unfold mbind, st_bind. rewrite E1. cbn [fst snd]. change (Z.to_nat 4096) with 4096%nat in *. unfold window in *. destruct (drop (Z.to_nat p) c) as [|x l] eqn:El.
  - assert (fsize c = p) as Hc by (apply (f_equal length) in El; rewrite length_drop in El; simpl in El; unfold fsize in *; lia).
    exists σ1. rewrite take_nil. cbn. rewrite Z.add_0_r, Hc. split; [by destruct k|]. split; [|done]. eapply fs_inv_mono; [|exact Hok1]. lia.
  - assert (fsize c - p = fsize (x :: l)) as Hl by (apply (f_equal length) in El; rewrite length_drop in El; unfold fsize in *; lia).
    destruct k as [|k]; [unfold fsize in *; simpl in *; lia|]. rewrite <- El in Hl, E1 |- *. set (t := take 4096 (drop (Z.to_nat p) c)) in *.
    assert (fsize t = Z.min 4096 (fsize c - p)) as Htl by (unfold t, fsize in *; rewrite length_take, length_drop; lia).
    destruct (IH k σ1 (p + fsize t)) as (σ2 & E2 & Hok2 & Ht2 & Hof2); [lia|lia|lia|done|done|]. exists σ2. split; [|split; [done|split; [congruence|done]]].
    assert (drop (Z.to_nat (p + fsize t)) c = drop 4096 (drop (Z.to_nat p) c)) as Ed.
    { rewrite drop_drop. destruct (Z.le_gt_cases 4096 (fsize c - p)); [f_equal; lia|]. rewrite !drop_ge by (unfold fsize in *; lia). done. }
    assert (dumps (S k) p (drop (Z.to_nat p) c) = (p, t) :: dumps k (p + fsize t) (drop 4096 (drop (Z.to_nat p) c))) as -> by (unfold t; rewrite El; done).
    rewrite Ed in E2. assert (fsize t <> 0) as Hne by (rewrite Htl, Hl, El; unfold fsize; simpl; lia). clearbody t. destruct t as [|y l']; [done|]. by rewrite E2.
Qed.
End contents.

(** What extract writes, in pieces, into a file of the right size is what
    append reads from it, in pieces. *)
Theorem pieces_read_back {D} `{BlockDriverLaws D} N n (σ : fsys D) h i old c :
  fs_inv N (length c + (length c + n)) σ -> open_file σ h i old -> length old = length c -> i_deny i = 0 -> Forall is_byte c ->
  exists f' f'' σ1 σ2, write_chunks (File h 0 false) (chunks c) σ = Ok (f', σ1) /\
    fetch_loop (S (length c)) (File h 0 false) (Z.of_nat (length c)) σ1 = Ok ((c, f''), σ2) /\ open_file σ2 h i c.
Proof.
  intros Hok Hof Hl Hd Hc. destruct (write_chunks_ok N (length c) c (length c + n) σ h i [] old false) as (σ1 & E1 & Hok1 & _ & Hof1); try done.
  destruct (fetch_loop_ok N (length c) (Z.of_nat (length c)) n σ1 h i c 0 false) as (σ2 & E2 & _ & _ & Hof2); [done|done|done|lia|by rewrite Nat2Z.id|done|].
  eexists _, _, σ1, σ2. split; [exact E1|]. split; [exact E2|done].
Qed.

(** cat dumps the whole file, in order. *)
Theorem cat_prints_file {D} `{BlockDriverLaws D} N n (σ : fsys D) h i c k :
  fsize c <= 4096 * Z.of_nat k -> fs_inv N (S k * 4096 + n) σ -> open_file σ h i c ->
  exists l f' σ', cat_loop (S k) (File h 0 false) σ = Ok ((l, f'), σ') /\ concat (snd <$> l) = c.
Proof.
  intros Hk Hok Hof. destruct (cat_loop_ok N (S k) k n σ h i c 0 false) as (σ' & E1 & _); [lia|lia|unfold fsize; lia|done|done|].
  eexists _, _, σ'. split; [exact E1|]. by apply dumps_all.
Qed.


Definition or_blank (o : option (fsys ramdisk)) : fsys ramdisk := default (blank 64) o.
Definition saved_fs : fsys ramdisk := or_blank (final (small_file [5; 6; 7]) (blank 64)).
Definition fresh_fs : fsys ramdisk := or_blank (final (boot true) (blank 64)).

Lemma util_image x : image lit0 (util_mem x).
Proof.
  unfold image. cbn [fmap list_fmap ustar_lits fst]. repeat (apply Forall_cons; [split; [reflexivity|apply cstr_check_ok; vm_compute; reflexivity]|]). apply Forall_nil.
Qed.
Lemma util_buffer x p : p = 3000 \/ p = 4000 -> buffer_at lit0 p /\ mapped (util_mem x) p 512.
Proof.
  intros Hp. split; [split; [lia|]; destruct Hp as [-> | ->]; unfold apart; repeat constructor; vm_compute; reflexivity|].
  intros a Ha. unfold util_mem, mem_name. rewrite !lookup_put, !length_replicate. repeat case_decide; try (apply lookup_lt_is_Some; rewrite ?length_replicate; lia).
  destruct Hp; simpl in *; lia.
Qed.


(** The end marker is written twice to the same sector, the second time from
    the buffer plus one: a byte behind the buffer that is not zero spoils it,
    and extracting the archive panics. *)
Theorem spoilt_marker :
  exists u b, append_f 1 [5; 6; 7] = Some u /\ u_scratch u = Some b /\ fsutil_extract entry0 false None lit0 3000 4000 (machine fresh_fs 9 b) = Err Panic.
Proof. eexists _, _. split; [vm_compute; reflexivity|]. split; [reflexivity|]. vm_compute. reflexivity. Qed.
