(* ===== verification/Descriptors.v ===== *)
(** * Segment and gate descriptors (src/userprog/gdt.c, and the gates of
      src/threads/interrupt.c)

    The 64-bit descriptors the CPU reads.  [field] reads one back the way
    the processor manual lays it out, so that a round trip says that what
    the kernel asked for is what the CPU gets. *)

From S2P Require Import Prelude Memory.

(** Selectors (threads/loader.h, userprog/gdt.h). *)
Definition SEL_NULL : Z := 0x00.
Definition SEL_KCSEG : Z := 0x08.
Definition SEL_KDSEG : Z := 0x10.
Definition SEL_UCSEG : Z := 0x1B.
Definition SEL_UDSEG : Z := 0x23.
Definition SEL_TSS : Z := 0x28.
Definition SEL_CNT : nat := 6.

(** enum seg_class and enum seg_granularity by their values. *)
Definition CLS_SYSTEM : Z := 0.
Definition CLS_CODE_DATA : Z := 1.
Definition GRAN_BYTE : Z := 0.
Definition GRAN_PAGE : Z := 1.

Definition make_seg_desc (base limit class type dpl granularity : Z) : outcome Z :=
  kassert (limit <=? 0xfffff) ≫= fun _ =>
  kassert ((class =? CLS_SYSTEM) || (class =? CLS_CODE_DATA)) ≫= fun _ =>
  kassert ((0 <=? type) && (type <=? 15)) ≫= fun _ =>
  kassert ((0 <=? dpl) && (dpl <=? 3)) ≫= fun _ =>
  kassert ((granularity =? GRAN_BYTE) || (granularity =? GRAN_PAGE)) ≫= fun _ =>
  let e0 := Z.lor (Z.land limit 0xffff) (u32 (Z.shiftl base 16)) in
  let e1 :=
    Z.lor (Z.lor (Z.lor (Z.lor (Z.lor (Z.lor (Z.lor (Z.lor
      (Z.land (Z.shiftr base 16) 0xff)
      (Z.shiftl type 8))
      (Z.shiftl class 12))
      (Z.shiftl dpl 13))
      (Z.shiftl 1 15))
      (Z.land limit 0xf0000))
      (Z.shiftl 1 22))
      (Z.shiftl granularity 23))
      (Z.land base 0xff000000) in
  Ok (Z.lor e0 (Z.shiftl e1 32)).

Definition make_code_desc (dpl : Z) : outcome Z := make_seg_desc 0 0xfffff CLS_CODE_DATA 10 dpl GRAN_PAGE.
Definition make_data_desc (dpl : Z) : outcome Z := make_seg_desc 0 0xfffff CLS_CODE_DATA 2 dpl GRAN_PAGE.
Definition make_tss_desc (laddr : Z) : outcome Z := make_seg_desc laddr 0x67 CLS_SYSTEM 9 0 GRAN_BYTE.
Definition make_gdtr_operand (limit base : Z) : Z := Z.lor limit (Z.shiftl base 16).

(** gdt_init: the table, and the operand of LGDT for its address; [tss] is
    the result of tss_get. *)
Definition gdt_set (sel : Z) (d : outcome Z) (gdt : list Z) : outcome (list Z) := v ← d; zset gdt (sel / 8) v.
Definition gdt_init (gdt_addr tss : Z) (gdt : list Z) : outcome (list Z * Z) :=
  gdt ← gdt_set SEL_NULL (Ok 0) gdt;
  gdt ← gdt_set SEL_KCSEG (make_code_desc 0) gdt;
  gdt ← gdt_set SEL_KDSEG (make_data_desc 0) gdt;
  gdt ← gdt_set SEL_UCSEG (make_code_desc 3) gdt;
  gdt ← gdt_set SEL_UDSEG (make_data_desc 3) gdt;
  gdt ← gdt_set SEL_TSS (make_tss_desc tss) gdt;
  Ok (gdt, make_gdtr_operand (8 * Z.of_nat SEL_CNT - 1) gdt_addr).

(** Gates; [function] is an address. *)
Definition make_gate (function dpl type : Z) : outcome Z :=
  kassert (negb (function =? NULL)) ≫= fun _ =>
  kassert ((0 <=? dpl) && (dpl <=? 3)) ≫= fun _ =>
  kassert ((0 <=? type) && (type <=? 15)) ≫= fun _ =>
  let e0 := Z.lor (Z.land function 0xffff) (Z.shiftl SEL_KCSEG 16) in
  let e1 := Z.lor (Z.lor (Z.lor (Z.lor (Z.land function 0xffff0000) (Z.shiftl 1 15)) (Z.shiftl dpl 13)) (Z.shiftl 0 12)) (Z.shiftl type 8) in
  Ok (Z.lor e0 (Z.shiftl e1 32)).
Definition make_intr_gate (function dpl : Z) : outcome Z := make_gate function dpl 14.
Definition make_trap_gate (function dpl : Z) : outcome Z := make_gate function dpl 15.
Definition make_idtr_operand (limit base : Z) : Z := Z.lor limit (Z.shiftl base 16).

(** ** The CPU's view *)

(** [w] bits of [d] from bit [p] on. *)
Definition field (d p w : Z) : Z := Z.land (Z.shiftr d p) (Z.ones w).

Definition seg_base (d : Z) : Z := field d 16 24 + 2 ^ 24 * field d 56 8.
Definition seg_limit (d : Z) : Z := field d 0 16 + 2 ^ 16 * field d 48 4.
Definition seg_type (d : Z) : Z := field d 40 4.
Definition seg_class (d : Z) : Z := field d 44 1.
Definition desc_dpl (d : Z) : Z := field d 45 2.
Definition desc_present (d : Z) : Z := field d 47 1.
Definition seg_gran (d : Z) : Z := field d 55 1.
(** The last byte of the segment. *)
Definition seg_end (d : Z) : Z := seg_base d + (if seg_gran d =? 1 then 4096 * seg_limit d + 4095 else seg_limit d).

Definition gate_offset (d : Z) : Z := field d 0 16 + 2 ^ 16 * field d 48 16.
Definition gate_selector (d : Z) : Z := field d 16 16.
Definition gate_type (d : Z) : Z := field d 40 5.

(** ** Disjoint fields add up *)

Lemma land_window x lo hi : 0 <= lo <= hi -> 0 <= x -> Z.land x (Z.ones hi - Z.ones lo) = x mod 2 ^ hi - x mod 2 ^ lo.
Proof.
  intros Hl Hx. replace (Z.ones hi - Z.ones lo) with (Z.ldiff (Z.ones hi) (Z.ones lo)).
  2:{ symmetry. apply Z.sub_nocarry_ldiff. apply Z.bits_inj'. intros i Hi. rewrite Z.ldiff_spec, Z.bits_0. destruct (Z_lt_le_dec i lo) as [H1|H1].
      - rewrite (Z.ones_spec_low hi i), andb_false_r by lia. done.
      - rewrite (Z.ones_spec_high lo i) by lia. done. }
  rewrite <- !Z.land_ones by lia. rewrite Z.sub_nocarry_ldiff.
  - apply Z.bits_inj'. intros i Hi. rewrite Z.land_spec, !Z.ldiff_spec, !Z.land_spec. destruct (Z.testbit x i), (Z.testbit (Z.ones hi) i), (Z.testbit (Z.ones lo) i); done.
  - apply Z.bits_inj'. intros i Hi. rewrite Z.ldiff_spec, !Z.land_spec, Z.bits_0. destruct (Z_lt_le_dec i lo) as [H1|H1].
    + rewrite (Z.ones_spec_low hi i) by lia. by destruct (Z.testbit x i), (Z.testbit (Z.ones lo) i).
    + rewrite (Z.ones_spec_high lo i), andb_false_r by lia. done.
Qed.

Lemma field_div d p w : 0 <= p -> 0 <= w -> field d p w = (d / 2 ^ p) mod 2 ^ w.
Proof. intros Hp Hw. unfold field. by rewrite Z.land_ones, Z.shiftr_div_pow2. Qed.

(** The descriptors as sums. *)
Lemma make_gate_sum f dpl type : 0 < f < 2 ^ 32 -> 0 <= dpl <= 3 -> 0 <= type <= 15 ->
  make_gate f dpl type = Ok (f mod 2 ^ 16 + 2 ^ 16 * SEL_KCSEG + 2 ^ 32 * (2 ^ 8 * type + 2 ^ 13 * dpl + 2 ^ 15 + 2 ^ 16 * (f / 2 ^ 16))).
Proof.
  intros Hf Hd Ht. unfold make_gate. rewrite (proj2 (Z.eqb_neq f NULL)) by (unfold NULL; lia). rewrite (proj2 (Z.leb_le 0 dpl)), (proj2 (Z.leb_le dpl 3)), (proj2 (Z.leb_le 0 type)), (proj2 (Z.leb_le type 15)) by lia.
  cbn [negb andb kassert mbind outcome_bind]. f_equal. rewrite !Z.shiftl_mul_pow2 by lia. change 0xffff with (Z.ones 16 - Z.ones 0). change 0xffff0000 with (Z.ones 32 - Z.ones 16). rewrite !land_window by lia.
  change (2 ^ 0) with 1. rewrite Z.mod_1_r, Z.sub_0_r, (Z.mod_small f (2 ^ 32)) by lia. set (lo := f mod 2 ^ 16). assert (0 <= lo < 2 ^ 16) as Hlo by (apply Z.mod_pos_bound; lia).
  assert (f - lo = 2 ^ 16 * (f / 2 ^ 16)) as -> by (unfold lo; pose proof (Z.div_mod f (2 ^ 16)); lia). set (hi := f / 2 ^ 16). assert (0 <= hi < 2 ^ 16) as Hhi by (unfold hi; dlia). clearbody lo hi. clear Hf f.
  unfold SEL_KCSEG. rewrite (lor_add lo _ 16) by first [lia|dlia]. rewrite (lor_add_high (2 ^ 16 * hi) _ 16) by first [lia|dlia]. rewrite (lor_add_high _ (dpl * 2 ^ 13) 15) by first [lia|dlia].
  rewrite Z.mul_0_l, Z.lor_0_r. rewrite (lor_add_high _ (type * 2 ^ 8) 13) by first [lia|dlia]. rewrite (lor_add _ _ 32) by first [lia|dlia]. lia.
Qed.

Lemma make_seg_desc_sum base limit class type dpl gran : 0 <= base < 2 ^ 32 -> 0 <= limit <= 0xfffff -> 0 <= class <= 1 -> 0 <= type <= 15 -> 0 <= dpl <= 3 -> 0 <= gran <= 1 ->
  make_seg_desc base limit class type dpl gran =
  Ok (limit mod 2 ^ 16 + 2 ^ 16 * (base mod 2 ^ 16) +
      2 ^ 32 * (base / 2 ^ 16 mod 2 ^ 8 + 2 ^ 8 * type + 2 ^ 12 * class + 2 ^ 13 * dpl + 2 ^ 15 + 2 ^ 16 * (limit / 2 ^ 16) + 2 ^ 22 + 2 ^ 23 * gran + 2 ^ 24 * (base / 2 ^ 24))).
Proof.
  intros Hb Hl Hc Ht Hd Hg. unfold make_seg_desc, CLS_SYSTEM, CLS_CODE_DATA, GRAN_BYTE, GRAN_PAGE. rewrite (proj2 (Z.leb_le limit 0xfffff)) by lia.
  assert ((class =? 0) || (class =? 1) = true) as -> by lia. assert ((gran =? 0) || (gran =? 1) = true) as -> by lia.
  rewrite (proj2 (Z.leb_le 0 dpl)), (proj2 (Z.leb_le dpl 3)), (proj2 (Z.leb_le 0 type)), (proj2 (Z.leb_le type 15)) by lia.
  cbn [andb kassert mbind outcome_bind]. f_equal. rewrite !Z.shiftl_mul_pow2, Z.shiftr_div_pow2 by lia.
  change 0xffff with (Z.ones 16 - Z.ones 0). change 0xff with (Z.ones 8 - Z.ones 0). change 0xf0000 with (Z.ones 20 - Z.ones 16). change 0xff000000 with (Z.ones 32 - Z.ones 24).
  assert (0 <= base / 2 ^ 16) by dlia. rewrite !land_window by lia. change (2 ^ 0) with 1. rewrite !Z.mod_1_r, !Z.sub_0_r, (Z.mod_small base (2 ^ 32)), (Z.mod_small limit (2 ^ 20)) by lia.
  replace (u32 (base * 2 ^ 16)) with (2 ^ 16 * (base mod 2 ^ 16)) by (unfold u32; dlia). replace (base - base mod 2 ^ 24) with (2 ^ 24 * (base / 2 ^ 24)) by dlia.
  replace (limit - limit mod 2 ^ 16) with (2 ^ 16 * (limit / 2 ^ 16)) by dlia.
  set (l0 := limit mod 2 ^ 16). set (l1 := limit / 2 ^ 16). set (b0 := base mod 2 ^ 16). set (b1 := (base / 2 ^ 16) mod 2 ^ 8). set (b2 := base / 2 ^ 24).
  assert (0 <= l0 < 2 ^ 16 /\ 0 <= l1 < 16 /\ 0 <= b0 < 2 ^ 16 /\ 0 <= b1 < 256 /\ 0 <= b2 < 256) as (R1 & R2 & R3 & R4 & R5) by (unfold l0, l1, b0, b1, b2; dlia). clearbody l0 l1 b0 b1 b2. clear Hb Hl H base limit.
  rewrite (lor_add l0 _ 16) by first [lia|dlia]. rewrite (lor_add b1 _ 8) by first [lia|dlia]. rewrite (lor_add _ (class * _) 12) by first [lia|dlia]. rewrite (lor_add _ (dpl * _) 13) by first [lia|dlia].
  rewrite (lor_add _ (1 * 2 ^ 15) 15) by first [lia|dlia]. rewrite (lor_add _ (2 ^ 16 * l1) 16) by first [lia|dlia]. rewrite (lor_add _ (1 * 2 ^ 22) 22) by first [lia|dlia].
  rewrite (lor_add _ (gran * _) 23) by first [lia|dlia]. rewrite (lor_add _ (2 ^ 24 * b2) 24) by first [lia|dlia]. rewrite (lor_add _ _ 32) by first [lia|dlia]. lia.
Qed.

(** ** Round trips *)

Lemma seg_desc_fields base limit class type dpl gran : 0 <= base < 2 ^ 32 -> 0 <= limit <= 0xfffff -> 0 <= class <= 1 -> 0 <= type <= 15 -> 0 <= dpl <= 3 -> 0 <= gran <= 1 ->
  exists d, make_seg_desc base limit class type dpl gran = Ok d /\ 0 <= d < 2 ^ 64 /\
    seg_base d = base /\ seg_limit d = limit /\ seg_class d = class /\ seg_type d = type /\ desc_dpl d = dpl /\ desc_present d = 1 /\ seg_gran d = gran.
Proof.
  intros Hb Hl Hc Ht Hd Hg. eexists. split; [by apply make_seg_desc_sum|]. unfold seg_base, seg_limit, seg_class, seg_type, desc_dpl, desc_present, seg_gran. rewrite !field_div by lia.
  set (l0 := limit mod 2 ^ 16). set (l1 := limit / 2 ^ 16). set (b0 := base mod 2 ^ 16). set (b1 := (base / 2 ^ 16) mod 2 ^ 8). set (b2 := base / 2 ^ 24).
  assert (limit = l0 + 2 ^ 16 * l1 /\ base = b0 + 2 ^ 16 * b1 + 2 ^ 24 * b2) as [El Eb] by (unfold l0, l1, b0, b1, b2; dlia).
  assert (0 <= l0 < 2 ^ 16 /\ 0 <= l1 < 16 /\ 0 <= b0 < 2 ^ 16 /\ 0 <= b1 < 256 /\ 0 <= b2 < 256) as (R1 & R2 & R3 & R4 & R5) by (unfold l0, l1, b0, b1, b2; dlia). clearbody l0 l1 b0 b1 b2.
  rewrite El, Eb. clear El Eb Hb Hl base limit. split_and!; dlia.
Qed.

Lemma gate_fields f dpl type : 0 < f < 2 ^ 32 -> 0 <= dpl <= 3 -> 0 <= type <= 15 ->
  exists d, make_gate f dpl type = Ok d /\ 0 <= d < 2 ^ 64 /\ gate_offset d = f /\ gate_selector d = SEL_KCSEG /\ desc_dpl d = dpl /\ gate_type d = type /\ desc_present d = 1.
Proof.
  intros Hf Hd Ht. eexists. split; [by apply make_gate_sum|]. unfold gate_offset, gate_selector, desc_dpl, gate_type, desc_present, SEL_KCSEG. rewrite !field_div by lia.
  set (lo := f mod 2 ^ 16). set (hi := f / 2 ^ 16). assert (f = lo + 2 ^ 16 * hi /\ 0 <= lo < 2 ^ 16 /\ 0 <= hi < 2 ^ 16) as (Ef & R1 & R2) by (unfold lo, hi; dlia). clearbody lo hi. rewrite Ef. clear Ef Hf f. split_and!; dlia.
Qed.

(** The table gdt_init builds: for any address of the task-state
    segment, it succeeds on a table of six entries, and the CPU reads flat
    4 GB segments, code and data, one pair of privilege level 0 and one of
    level 3, under the selectors of the kernel and of user programs, and a
    task-state segment of 104 bytes at that address that user programs
    cannot load. *)
Theorem gdt_segments gdt_addr tss gdt : 0 <= tss < 2 ^ 32 -> length gdt = SEL_CNT ->
  exists gdt' op, gdt_init gdt_addr tss gdt = Ok (gdt', op) /\
    (forall sel dpl, (sel, dpl) = (SEL_KCSEG, 0) \/ (sel, dpl) = (SEL_KDSEG, 0) \/ (sel, dpl) = (SEL_UCSEG, 3) \/ (sel, dpl) = (SEL_UDSEG, 3) ->
       exists d, gdt' !! Z.to_nat (sel / 8) = Some d /\ sel mod 8 = dpl /\ desc_present d = 1 /\ desc_dpl d = dpl /\ seg_base d = 0 /\ seg_end d = 2 ^ 32 - 1 /\ seg_class d = CLS_CODE_DATA /\
         seg_type d = (if (sel =? SEL_KCSEG) || (sel =? SEL_UCSEG) then 10 else 2)) /\
    (exists d, gdt' !! Z.to_nat (SEL_TSS / 8) = Some d /\ desc_present d = 1 /\ desc_dpl d = 0 /\ seg_base d = tss /\ seg_end d = tss + 103 /\ seg_class d = CLS_SYSTEM /\ seg_type d = 9).
Proof.
  intros Ht Hl. destruct gdt as [|g0 [|g1 [|g2 [|g3 [|g4 [|g5 [|]]]]]]]; try done. destruct (seg_desc_fields tss 0x67 CLS_SYSTEM 9 0 GRAN_BYTE Ht) as (d & E & _ & F1 & F2 & F3 & F4 & F5 & F6 & F7); [unfold CLS_SYSTEM, GRAN_BYTE; lia..|].
  eexists _, _. split; [unfold gdt_init, make_tss_desc; rewrite E; reflexivity|]. split.
  - intros sel dpl [[= -> ->]|[[= -> ->]|[[= -> ->]|[= -> ->]]]]; (eexists; split; [reflexivity|]); vm_compute; split_and!; reflexivity.
  - exists d. split; [reflexivity|]. unfold seg_end. rewrite F1, F2, F3, F4, F5, F6, F7. unfold GRAN_BYTE. cbn [Z.eqb]. split_and!; try done; lia.
Qed.
Lemma gdt_segments_witness : exists gdt' op, gdt_init 0xc0000100 0xc0105000 (replicate 6 0) = Ok (gdt', op) /\ length gdt' = 6%nat.
Proof.
  destruct (gdt_segments 0xc0000100 0xc0105000 (replicate 6 0)) as (gdt' & op & E & _); [lia|reflexivity|]. exists gdt', op. split; [exact E|]. vm_compute in E. injection E as <- _. reflexivity.
Defined.
