(* ===== verification/Thread.v ===== *)
(** * Threads and synchronisation (src/threads/thread.c, synch.c and the
      interrupt level of interrupt.c)

    The kernel's scheduling state and every operation on it.  A struct
    thread is a page, named by its address.  switch_threads changes which
    thread is running; what the thread that was switched out does when
    schedule() returns to it is recorded in its [cont] field (on the real
    machine: the return addresses on its stack).  [resume] continues the
    running thread from there. *)

From S2P Require Import Prelude Memory.

Inductive thread_status := THREAD_RUNNING | THREAD_READY | THREAD_BLOCKED | THREAD_DYING.

#[global] Instance thread_status_eq_dec : EqDecision thread_status.
Proof. solve_decision. Defined.

Definition THREAD_MAGIC : Z := 3446325067. (* 0xcd6abf4b *)
Definition PRI_MIN : Z := 0.
Definition PRI_DEFAULT : Z := 31.
Definition PRI_MAX : Z := 63.
Definition TID_ERROR : Z := -1.
Definition TIME_SLICE : Z := 4.
Definition PGSIZE : Z := 4096.

(** What follows a sema_down: nothing, setting the holder of a lock
    (lock_acquire), or acquiring a lock again (cond_wait). *)
Inductive after := Return | TakeLock (lock : Z) | Reacquire (lock : Z).

(** Where a thread continues when schedule() switches to it. *)
Inductive resume_point :=
| InKernelThread                                  (* kernel_thread, first run *)
| InYield (old_level iret : bool)                 (* after schedule () in thread_yield *)
| InDown (sema : Z) (old_level : bool) (a : after) (* the loop of sema_down *)
| InIdle.                                         (* after thread_block () in idle *)

(** struct thread; [pagedir] tells whether it is nonnull. *)
Record thread := Thread {
  tid : Z;
  status : thread_status;
  name : list Z;
  t_stack : Z;
  priority : Z;
  magic : Z;
  pagedir : bool;
  cont : option resume_point
}.

Record semaphore := Sema { value : Z; waiters : list Z }.

(** struct lock with the address of its embedded semaphore. *)
Record lock := Lock { holder : option Z; lock_sema : Z }.

(** The static variables of thread.c and interrupt.c, the threads, the
    semaphores, locks and condition variables (the semaphores of the
    waiters), and the interrupt flag of the CPU. *)
Record kernel := Kernel {
  threads : gmap Z thread;
  running : Z;
  ready_list : list Z;
  all_list : list Z;
  idle_thread : Z;
  initial_thread : Z;
  thread_ticks : Z;
  tick_counts : Z * Z * Z; (* idle, kernel, user *)
  next_tid : Z;
  intr_on : bool;
  in_external_intr : bool;
  yield_on_return : bool;
  semas : gmap Z semaphore;
  locks : gmap Z lock;
  conds : gmap Z (list Z)
}.

Definition set_status (s : thread_status) (t : thread) : thread :=
  Thread (tid t) s (name t) (t_stack t) (priority t) (magic t) (pagedir t) (cont t).
Definition set_cont (c : option resume_point) (t : thread) : thread :=
  Thread (tid t) (status t) (name t) (t_stack t) (priority t) (magic t) (pagedir t) c.
Definition set_pri (p : Z) (t : thread) : thread :=
  Thread (tid t) (status t) (name t) (t_stack t) p (magic t) (pagedir t) (cont t).
Definition push_stack (n : Z) (t : thread) : thread :=
  Thread (tid t) (status t) (name t) (t_stack t - n) (priority t) (magic t) (pagedir t) (cont t).

Definition set_tid (n : Z) (t : thread) : thread :=
  Thread n (status t) (name t) (t_stack t) (priority t) (magic t) (pagedir t) (cont t).

Definition set_threads (m : gmap Z thread) (k : kernel) : kernel :=
  Kernel m (running k) (ready_list k) (all_list k) (idle_thread k) (initial_thread k) (thread_ticks k) (tick_counts k)
    (next_tid k) (intr_on k) (in_external_intr k) (yield_on_return k) (semas k) (locks k) (conds k).
Definition set_running (t : Z) (k : kernel) : kernel :=
  Kernel (threads k) t (ready_list k) (all_list k) (idle_thread k) (initial_thread k) (thread_ticks k) (tick_counts k)
    (next_tid k) (intr_on k) (in_external_intr k) (yield_on_return k) (semas k) (locks k) (conds k).
Definition set_ready (l : list Z) (k : kernel) : kernel :=
  Kernel (threads k) (running k) l (all_list k) (idle_thread k) (initial_thread k) (thread_ticks k) (tick_counts k)
    (next_tid k) (intr_on k) (in_external_intr k) (yield_on_return k) (semas k) (locks k) (conds k).
Definition set_all (l : list Z) (k : kernel) : kernel :=
  Kernel (threads k) (running k) (ready_list k) l (idle_thread k) (initial_thread k) (thread_ticks k) (tick_counts k)
    (next_tid k) (intr_on k) (in_external_intr k) (yield_on_return k) (semas k) (locks k) (conds k).
Definition set_special (idle initial : Z) (k : kernel) : kernel :=
  Kernel (threads k) (running k) (ready_list k) (all_list k) idle initial (thread_ticks k) (tick_counts k)
    (next_tid k) (intr_on k) (in_external_intr k) (yield_on_return k) (semas k) (locks k) (conds k).
Definition set_ticks (n : Z) (k : kernel) : kernel :=
  Kernel (threads k) (running k) (ready_list k) (all_list k) (idle_thread k) (initial_thread k) n (tick_counts k)
    (next_tid k) (intr_on k) (in_external_intr k) (yield_on_return k) (semas k) (locks k) (conds k).
Definition set_counts (c : Z * Z * Z) (k : kernel) : kernel :=
  Kernel (threads k) (running k) (ready_list k) (all_list k) (idle_thread k) (initial_thread k) (thread_ticks k) c
    (next_tid k) (intr_on k) (in_external_intr k) (yield_on_return k) (semas k) (locks k) (conds k).
Definition set_next_tid (n : Z) (k : kernel) : kernel :=
  Kernel (threads k) (running k) (ready_list k) (all_list k) (idle_thread k) (initial_thread k) (thread_ticks k) (tick_counts k)
    n (intr_on k) (in_external_intr k) (yield_on_return k) (semas k) (locks k) (conds k).
Definition set_intr (b : bool) (k : kernel) : kernel :=
  Kernel (threads k) (running k) (ready_list k) (all_list k) (idle_thread k) (initial_thread k) (thread_ticks k) (tick_counts k)
    (next_tid k) b (in_external_intr k) (yield_on_return k) (semas k) (locks k) (conds k).
Definition set_external (ext yield : bool) (k : kernel) : kernel :=
  Kernel (threads k) (running k) (ready_list k) (all_list k) (idle_thread k) (initial_thread k) (thread_ticks k) (tick_counts k)
    (next_tid k) (intr_on k) ext yield (semas k) (locks k) (conds k).
Definition set_semas (m : gmap Z semaphore) (k : kernel) : kernel :=
  Kernel (threads k) (running k) (ready_list k) (all_list k) (idle_thread k) (initial_thread k) (thread_ticks k) (tick_counts k)
    (next_tid k) (intr_on k) (in_external_intr k) (yield_on_return k) m (locks k) (conds k).
Definition set_locks (m : gmap Z lock) (k : kernel) : kernel :=
  Kernel (threads k) (running k) (ready_list k) (all_list k) (idle_thread k) (initial_thread k) (thread_ticks k) (tick_counts k)
    (next_tid k) (intr_on k) (in_external_intr k) (yield_on_return k) (semas k) m (conds k).
Definition set_conds (m : gmap Z (list Z)) (k : kernel) : kernel :=
  Kernel (threads k) (running k) (ready_list k) (all_list k) (idle_thread k) (initial_thread k) (thread_ticks k) (tick_counts k)
    (next_tid k) (intr_on k) (in_external_intr k) (yield_on_return k) (semas k) (locks k) m.

(** Access to an object through its address; a bad pointer faults. *)
Definition deref {A} (m : kernel -> gmap Z A) (p : Z) : st kernel A := fun k =>
  match m k !! p with Some x => Ok (x, k) | None => Err Fault end.
Definition on_thread (t : Z) (f : thread -> thread) : st kernel unit :=
  th ← deref threads t; modify (fun k => set_threads (<[t := f th]> (threads k)) k).
Definition on_sema (s : Z) (f : semaphore -> semaphore) : st kernel unit :=
  sm ← deref semas s; modify (fun k => set_semas (<[s := f sm]> (semas k)) k).

(** ** interrupt.c: the interrupt level *)

Definition intr_get_level : st kernel bool := gets intr_on.
Definition intr_context : st kernel bool := gets in_external_intr.

Definition intr_enable : st kernel bool :=
  old_level ← intr_get_level;
  c ← intr_context; kassert_st (negb c) ≫= fun _ =>
  modify (set_intr true) ≫= fun _ => mret old_level.
Definition intr_disable : st kernel bool :=
  old_level ← intr_get_level; modify (set_intr false) ≫= fun _ => mret old_level.
Definition intr_set_level (level : bool) : st kernel bool := if level then intr_enable else intr_disable.

Definition intr_yield_on_return : st kernel unit :=
  c ← intr_context; kassert_st c ≫= fun _ => modify (set_external true true).

(** ** thread.c *)

Definition is_thread (t : Z) : st kernel bool := fun k =>
  if t =? NULL then Ok (false, k)
  else match threads k !! t with Some th => Ok (magic th =? THREAD_MAGIC, k) | None => Err Fault end.

Definition running_thread : st kernel Z := gets running.

Definition thread_current : st kernel Z :=
  t ← running_thread;
  b ← is_thread t; kassert_st b ≫= fun _ =>
  th ← deref threads t; kassert_st (bool_decide (status th = THREAD_RUNNING)) ≫= fun _ => mret t.

Definition thread_tid : st kernel Z := t ← thread_current; th ← deref threads t; mret (tid th).
Definition thread_name : st kernel (list Z) := t ← thread_current; th ← deref threads t; mret (name th).

Definition next_thread_to_run : st kernel Z :=
  l ← gets ready_list;
  match l with
  | [] => gets idle_thread
  | t :: l' => modify (set_ready l') ≫= fun _ => mret t
  end.

(** palloc_free_page of a struct thread. *)
Definition free_thread (t : Z) : st kernel unit := modify (fun k => set_threads (delete t (threads k)) k).

(** process_activate loads page table and stack registers of the CPU,
    which are not part of this state. *)
Definition thread_schedule_tail (prev : option Z) : st kernel unit :=
  cur ← running_thread;
  level ← intr_get_level; kassert_st (negb level) ≫= fun _ =>
  on_thread cur (set_status THREAD_RUNNING) ≫= fun _ =>
  modify (set_ticks 0) ≫= fun _ =>
  match prev with
  | None => mret tt
  | Some p =>
      th ← deref threads p;
      initial ← gets initial_thread;
      if bool_decide (status th = THREAD_DYING) && negb (p =? initial) then
        kassert_st (negb (p =? cur)) ≫= fun _ => free_thread p
      else mret tt
  end.

Definition schedule : st kernel unit :=
  cur ← running_thread;
  next ← next_thread_to_run;
  level ← intr_get_level; kassert_st (negb level) ≫= fun _ =>
  th ← deref threads cur; kassert_st (negb (bool_decide (status th = THREAD_RUNNING))) ≫= fun _ =>
  b ← is_thread next; kassert_st b ≫= fun _ =>
  if negb (cur =? next) then modify (set_running next) ≫= fun _ => thread_schedule_tail (Some cur)
  else thread_schedule_tail None.

(** [c] is where the caller continues after thread_block () returns. *)
Definition thread_block (c : resume_point) : st kernel unit :=
  ctx ← intr_context; kassert_st (negb ctx) ≫= fun _ =>
  level ← intr_get_level; kassert_st (negb level) ≫= fun _ =>
  cur ← thread_current;
  on_thread cur (fun t => set_cont (Some c) (set_status THREAD_BLOCKED t)) ≫= fun _ =>
  schedule.

Definition thread_unblock (t : Z) : st kernel unit :=
  b ← is_thread t; kassert_st b ≫= fun _ =>
  old_level ← intr_disable;
  th ← deref threads t; kassert_st (bool_decide (status th = THREAD_BLOCKED)) ≫= fun _ =>
  modify (fun k => set_ready (ready_list k ++ [t]) k) ≫= fun _ =>
  on_thread t (set_status THREAD_READY) ≫= fun _ =>
  intr_set_level old_level ≫= fun _ => mret tt.

(** thread_yield up to the switch; [iret] tells that the caller is
    intr_handler, which returns from the interrupt afterwards. *)
Definition thread_yield (iret : bool) : st kernel unit :=
  cur ← thread_current;
  ctx ← intr_context; kassert_st (negb ctx) ≫= fun _ =>
  old_level ← intr_disable;
  idle ← gets idle_thread;
  (if negb (cur =? idle) then modify (fun k => set_ready (ready_list k ++ [cur]) k) else mret tt) ≫= fun _ =>
  on_thread cur (fun t => set_cont (Some (InYield old_level iret)) (set_status THREAD_READY t)) ≫= fun _ =>
  schedule.

(** thread_exit after process_exit (); it does not return. *)
Definition thread_exit : st kernel unit :=
  ctx ← intr_context; kassert_st (negb ctx) ≫= fun _ =>
  intr_disable ≫= fun _ =>
  cur ← thread_current;
  modify (fun k => set_all (filter (.≠ cur) (all_list k)) k) ≫= fun _ =>
  on_thread cur (set_status THREAD_DYING) ≫= fun _ =>
  schedule.

Definition thread_tick : st kernel unit :=
  t ← thread_current;
  idle ← gets idle_thread;
  th ← deref threads t;
  modify (fun k =>
    let '(i, kt, u) := tick_counts k in
    set_counts (if t =? idle then (i + 1, kt, u) else if pagedir th then (i, kt, u + 1) else (i, kt + 1, u)) k) ≫= fun _ =>
  modify (fun k => set_ticks (u32 (thread_ticks k + 1)) k) ≫= fun _ =>
  n ← gets thread_ticks;
  if TIME_SLICE <=? n then intr_yield_on_return else mret tt.

(** timer_interrupt as intr_handler runs it: the CPU clears the interrupt
    flag on entry and sets it again on return. *)
Definition timer_tick : st kernel unit :=
  modify (set_intr false) ≫= fun _ =>
  level ← intr_get_level; kassert_st (negb level) ≫= fun _ =>
  ctx ← intr_context; kassert_st (negb ctx) ≫= fun _ =>
  modify (set_external true false) ≫= fun _ =>
  thread_tick ≫= fun _ =>
  level ← intr_get_level; kassert_st (negb level) ≫= fun _ =>
  ctx ← intr_context; kassert_st ctx ≫= fun _ =>
  y ← gets yield_on_return;
  modify (set_external false y) ≫= fun _ =>
  if y : bool then thread_yield true else modify (set_intr true).

(** init_thread; strlcpy keeps 15 characters of the name. *)
Definition init_thread (t : Z) (nm : list Z) (pri : Z) : st kernel unit :=
  kassert_st (negb (t =? NULL)) ≫= fun _ =>
  kassert_st ((PRI_MIN <=? pri) && (pri <=? PRI_MAX)) ≫= fun _ =>
  modify (fun k => set_threads (<[t := Thread 0 THREAD_BLOCKED (take 15 nm) (t + PGSIZE) pri THREAD_MAGIC false None]> (threads k)) k)
  ≫= fun _ => modify (fun k => set_all (all_list k ++ [t]) k).

(** tid_lock makes this one step. *)
Definition allocate_tid : st kernel Z :=
  n ← gets next_tid; modify (set_next_tid (s32 (n + 1))) ≫= fun _ => mret n.

Definition alloc_frame (t : Z) (size : Z) : st kernel unit :=
  b ← is_thread t; kassert_st b ≫= fun _ =>
  kassert_st (size mod 4 =? 0) ≫= fun _ => on_thread t (push_stack size).

Definition KERNEL_FRAME : Z := 12. (* struct kernel_thread_frame *)
Definition ENTRY_FRAME : Z := 4.   (* struct switch_entry_frame *)
Definition SWITCH_FRAME : Z := 28. (* struct switch_threads_frame *)

(** thread_create; [page] is what palloc_get_page returns.  The working
    directory and the record of the child process belong to other parts of
    struct thread and are not part of this state. *)
Definition thread_create (page : option Z) (nm : list Z) (pri : Z) : st kernel Z :=
  match page with
  | None => mret TID_ERROR
  | Some t =>
      init_thread t nm pri ≫= fun _ =>
      n ← allocate_tid;
      on_thread t (set_tid n) ≫= fun _ =>
      thread_current ≫= fun _ =>
      old_level ← intr_disable;
      alloc_frame t KERNEL_FRAME ≫= fun _ =>
      alloc_frame t ENTRY_FRAME ≫= fun _ =>
      alloc_frame t SWITCH_FRAME ≫= fun _ =>
      on_thread t (set_cont (Some InKernelThread)) ≫= fun _ =>
      intr_set_level old_level ≫= fun _ =>
      thread_unblock t ≫= fun _ => mret n
  end.

Definition thread_set_priority (p : Z) : st kernel unit := cur ← thread_current; on_thread cur (set_pri p).
Definition thread_get_priority : st kernel Z := t ← thread_current; th ← deref threads t; mret (priority th).

(** The loop of idle (). *)
Definition idle_loop : st kernel unit := intr_disable ≫= fun _ => thread_block InIdle.

(** ** synch.c *)

Definition sema_init (s v : Z) : st kernel unit :=
  kassert_st (negb (s =? NULL)) ≫= fun _ => modify (fun k => set_semas (<[s := Sema v []]> (semas k)) k).

(** One round of [while (sema->value == 0)]: it blocks, or decrements and
    continues with [fin], which [a] names for a thread that blocked. *)
Definition down_loop (s : Z) (old_level : bool) (a : after) (fin : st kernel unit) : st kernel unit :=
  sm ← deref semas s;
  if value sm =? 0 then
    cur ← thread_current;
    on_sema s (fun sm => Sema (value sm) (waiters sm ++ [cur])) ≫= fun _ =>
    thread_block (InDown s old_level a)
  else
    on_sema s (fun sm => Sema (value sm - 1) (waiters sm)) ≫= fun _ =>
    intr_set_level old_level ≫= fun _ => fin.

Definition down_enter (s : Z) (a : after) (fin : st kernel unit) : st kernel unit :=
  kassert_st (negb (s =? NULL)) ≫= fun _ =>
  ctx ← intr_context; kassert_st (negb ctx) ≫= fun _ =>
  old_level ← intr_disable; down_loop s old_level a fin.

Definition sema_down (s : Z) : st kernel unit := down_enter s Return (mret tt).

Definition sema_try_down (s : Z) : st kernel bool :=
  kassert_st (negb (s =? NULL)) ≫= fun _ =>
  old_level ← intr_disable;
  sm ← deref semas s;
  (if 0 <? value sm then on_sema s (fun sm => Sema (value sm - 1) (waiters sm)) else mret tt) ≫= fun _ =>
  intr_set_level old_level ≫= fun _ => mret (0 <? value sm).

Definition sema_up (s : Z) : st kernel unit :=
  kassert_st (negb (s =? NULL)) ≫= fun _ =>
  old_level ← intr_disable;
  sm ← deref semas s;
  match waiters sm with
  | [] => mret tt
  | t :: l => on_sema s (fun sm => Sema (value sm) l) ≫= fun _ => thread_unblock t
  end ≫= fun _ =>
  on_sema s (fun sm => Sema (u32 (value sm + 1)) (waiters sm)) ≫= fun _ =>
  intr_set_level old_level ≫= fun _ => mret tt.

Definition lock_init (l s : Z) : st kernel unit :=
  kassert_st (negb (l =? NULL)) ≫= fun _ =>
  modify (fun k => set_locks (<[l := Lock None s]> (locks k)) k) ≫= fun _ => sema_init s 1.

Definition lock_held_by_current_thread (l : Z) : st kernel bool :=
  lk ← deref locks l; cur ← thread_current; mret (bool_decide (holder lk = Some cur)).

Definition set_holder (l : Z) (h : option Z) : st kernel unit :=
  lk ← deref locks l; modify (fun k => set_locks (<[l := Lock h (lock_sema lk)]> (locks k)) k).

Definition take_lock (l : Z) : st kernel unit := cur ← thread_current; set_holder l (Some cur).

Definition lock_acquire (l : Z) : st kernel unit :=
  ctx ← intr_context; kassert_st (negb ctx) ≫= fun _ =>
  held ← lock_held_by_current_thread l; kassert_st (negb held) ≫= fun _ =>
  lk ← deref locks l;
  down_enter (lock_sema lk) (TakeLock l) (take_lock l).

Definition lock_try_acquire (l : Z) : st kernel bool :=
  held ← lock_held_by_current_thread l; kassert_st (negb held) ≫= fun _ =>
  lk ← deref locks l;
  success ← sema_try_down (lock_sema lk);
  if success : bool then take_lock l ≫= fun _ => mret true else mret false.

Definition lock_release (l : Z) : st kernel unit :=
  held ← lock_held_by_current_thread l; kassert_st held ≫= fun _ =>
  set_holder l None ≫= fun _ =>
  lk ← deref locks l; sema_up (lock_sema lk).

Definition cond_init (c : Z) : st kernel unit :=
  kassert_st (negb (c =? NULL)) ≫= fun _ => modify (fun k => set_conds (<[c := []]> (conds k)) k).

(** [w] is the address of the semaphore of the local [waiter]. *)
Definition cond_wait (c l w : Z) : st kernel unit :=
  ctx ← intr_context; kassert_st (negb ctx) ≫= fun _ =>
  held ← lock_held_by_current_thread l; kassert_st held ≫= fun _ =>
  sema_init w 0 ≫= fun _ =>
  ws ← deref conds c;
  modify (fun k => set_conds (<[c := ws ++ [w]]> (conds k)) k) ≫= fun _ =>
  lock_release l ≫= fun _ =>
  down_enter w (Reacquire l) (lock_acquire l).

Definition cond_signal (c l : Z) : st kernel unit :=
  ctx ← intr_context; kassert_st (negb ctx) ≫= fun _ =>
  held ← lock_held_by_current_thread l; kassert_st held ≫= fun _ =>
  ws ← deref conds c;
  match ws with
  | [] => mret tt
  | w :: ws' => modify (fun k => set_conds (<[c := ws']> (conds k)) k) ≫= fun _ => sema_up w
  end.

(** Every call takes one waiter off the list. *)
Fixpoint broadcast_loop (n : nat) (c l : Z) : st kernel unit :=
  match n with
  | O => mret tt
  | S n' => cond_signal c l ≫= fun _ => broadcast_loop n' c l
  end.
Definition cond_broadcast (c l : Z) : st kernel unit :=
  ws ← deref conds c; broadcast_loop (length ws) c l.

(** ** Starting the scheduler *)

(** [tl] and [ts] are the addresses of tid_lock and its semaphore. *)
Definition thread_init (tl ts : Z) : st kernel unit :=
  level ← intr_get_level; kassert_st (negb level) ≫= fun _ =>
  lock_init tl ts ≫= fun _ =>
  modify (set_ready []) ≫= fun _ =>
  modify (set_all []) ≫= fun _ =>
  t ← running_thread;
  modify (fun k => set_special (idle_thread k) t k) ≫= fun _ =>
  init_thread t [109; 97; 105; 110] PRI_DEFAULT ≫= fun _ =>
  on_thread t (set_status THREAD_RUNNING) ≫= fun _ =>
  n ← allocate_tid;
  on_thread t (set_tid n).

(** [sem] is the address of the local semaphore idle_started. *)
Definition thread_start (page : option Z) (sem : Z) : st kernel unit :=
  sema_init sem 0 ≫= fun _ =>
  thread_create page [105; 100; 108; 101] PRI_MIN ≫= fun _ =>
  intr_enable ≫= fun _ =>
  sema_down sem.

(** The beginning of idle (), before its loop. *)
Definition idle_start (sem : Z) : st kernel unit :=
  cur ← thread_current;
  modify (fun k => set_special cur (initial_thread k) k) ≫= fun _ => sema_up sem.

(** ** Continuing a thread *)

Definition finish (a : after) : st kernel unit :=
  match a with
  | Return => mret tt
  | TakeLock l => take_lock l
  | Reacquire l => lock_acquire l
  end.

Definition resume : st kernel unit :=
  cur ← running_thread;
  th ← deref threads cur;
  on_thread cur (set_cont None) ≫= fun _ =>
  match cont th with
  | None => mret tt
  | Some InKernelThread => intr_enable ≫= fun _ => mret tt
  | Some (InYield old_level iret) =>
      intr_set_level old_level ≫= fun _ => if iret : bool then modify (set_intr true) else mret tt
  | Some (InDown s old_level a) => down_loop s old_level a (finish a)
  | Some InIdle => modify (set_intr true)
  end.
