(* ===== verification/Interrupts.v ===== *)
(** * Interrupt dispatch and exceptions (src/threads/interrupt.c,
      src/userprog/exception.c and the registrations of the drivers)

    The interrupt descriptor table and the table of handlers, how they are
    set up at boot, and intr_handler, which runs a registered handler on
    the scheduler of Thread.v.  A handler function is named; what it does is
    a parameter of intr_handler.  The names of the interrupts, kept for
    messages, and the messages are left out. *)

From S2P Require Import Prelude Memory Wp Descriptors Thread.

Definition INTR_CNT : nat := 256.

Inductive handler := Kill | Page_fault | Syscall_handler | Timer_interrupt | Keyboard_interrupt | Serial_interrupt | Ide_interrupt.

#[global] Instance handler_eq_dec : EqDecision handler.
Proof. solve_decision. Defined.

Record tables := Tables { idt : list Z; intr_handlers : list (option handler); unexpected_cnt : list Z }.

(** struct intr_frame: the members the C code reads. *)
Record intr_frame := Frame { vec_no : Z; error_code : Z; cs : Z }.

(** ** Setting up *)

Section tables.
(** The addresses of the stubs (threads/intr-stubs.S). *)
Context (intr_stubs : list Z).

(** The gates of intr_init, which also calls [pic_init] (below) and loads
    the table's address ([make_idtr_operand]). *)
Definition init_gate (i : Z) (t : tables) : outcome tables :=
  stub ← zget intr_stubs i; g ← make_intr_gate stub 0; l ← zset (idt t) i g; Ok (Tables l (intr_handlers t) (unexpected_cnt t)).
Definition intr_init (t : tables) : outcome tables := for_range INTR_CNT 0 init_gate t.

Definition register_handler (vec_no dpl : Z) (level : bool) (h : handler) (t : tables) : outcome tables :=
  old ← zget (intr_handlers t) vec_no;
  kassert (bool_decide (old = None)) ≫= fun _ =>
  stub ← zget intr_stubs vec_no;
  g ← (if level then make_trap_gate stub dpl else make_intr_gate stub dpl);
  l ← zset (idt t) vec_no g;
  hs ← zset (intr_handlers t) vec_no (Some h);
  Ok (Tables l hs (unexpected_cnt t)).

Definition intr_register_ext (vec_no : Z) (h : handler) (t : tables) : outcome tables :=
  kassert ((0x20 <=? vec_no) && (vec_no <=? 0x2f)) ≫= fun _ => register_handler vec_no 0 false h t.
Definition intr_register_int (vec_no dpl : Z) (level : bool) (h : handler) (t : tables) : outcome tables :=
  kassert ((vec_no <? 0x20) || (0x2f <? vec_no)) ≫= fun _ => register_handler vec_no dpl level h t.

Definition exception_init (t : tables) : outcome tables :=
  t ← intr_register_int 3 3 true Kill t; t ← intr_register_int 4 3 true Kill t; t ← intr_register_int 5 3 true Kill t;
  t ← intr_register_int 0 0 true Kill t; t ← intr_register_int 1 0 true Kill t; t ← intr_register_int 6 0 true Kill t;
  t ← intr_register_int 7 0 true Kill t; t ← intr_register_int 11 0 true Kill t; t ← intr_register_int 12 0 true Kill t;
  t ← intr_register_int 13 0 true Kill t; t ← intr_register_int 16 0 true Kill t; t ← intr_register_int 19 0 true Kill t;
  intr_register_int 14 0 false Page_fault t.

(** The registrations of main, in order: timer_init, kbd_init,
    exception_init, syscall_init, serial_init_queue and the two channels of
    ide_init. *)
Definition boot_tables (t : tables) : outcome tables :=
  t ← intr_init t;
  t ← intr_register_ext 0x20 Timer_interrupt t;
  t ← intr_register_ext 0x21 Keyboard_interrupt t;
  t ← exception_init t;
  t ← intr_register_int 0x30 3 true Syscall_handler t;
  t ← intr_register_ext (0x20 + 4) Serial_interrupt t;
  t ← intr_register_ext (14 + 0x20) Ide_interrupt t;
  intr_register_ext (15 + 0x20) Ide_interrupt t.
End tables.

(** ** Dispatch *)

(** The scheduler, the tables, the port writes so far and the number of
    page faults. *)
Record cpu := Cpu { kern : kernel; tabs : tables; port_log : list (Z * Z); page_fault_cnt : Z }.
Definition set_kern (k : kernel) (c : cpu) : cpu := Cpu k (tabs c) (port_log c) (page_fault_cnt c).
Definition on_kern {A} (f : st kernel A) : st cpu A := fun c => r ← f (kern c); Ok (r.1, set_kern r.2 c).
Definition outb (port v : Z) : st cpu unit := modify (fun c => Cpu (kern c) (tabs c) (port_log c ++ [(port, u8 v)]) (page_fault_cnt c)).

Definition PIC0_CTRL : Z := 0x20.
Definition PIC0_DATA : Z := 0x21.
Definition PIC1_CTRL : Z := 0xa0.
Definition PIC1_DATA : Z := 0xa1.

Definition pic_init : st cpu unit :=
  outb PIC0_DATA 0xff ≫= fun _ => outb PIC1_DATA 0xff ≫= fun _ =>
  outb PIC0_CTRL 0x11 ≫= fun _ => outb PIC0_DATA 0x20 ≫= fun _ => outb PIC0_DATA 0x04 ≫= fun _ => outb PIC0_DATA 0x01 ≫= fun _ =>
  outb PIC1_CTRL 0x11 ≫= fun _ => outb PIC1_DATA 0x28 ≫= fun _ => outb PIC1_DATA 0x02 ≫= fun _ => outb PIC1_DATA 0x01 ≫= fun _ =>
  outb PIC0_DATA 0x00 ≫= fun _ => outb PIC1_DATA 0x00.

Definition pic_end_of_interrupt (irq : Z) : st cpu unit :=
  kassert_st ((0x20 <=? irq) && (irq <? 0x30)) ≫= fun _ =>
  outb 0x20 0x20 ≫= fun _ => if 0x28 <=? irq then outb 0xa0 0x20 else mret tt.

Definition unexpected_interrupt (f : intr_frame) : st cpu unit := fun c =>
  n ← zget (unexpected_cnt (tabs c)) (vec_no f);
  l ← zset (unexpected_cnt (tabs c)) (vec_no f) (u32 (n + 1));
  Ok (tt, Cpu (kern c) (Tables (idt (tabs c)) (intr_handlers (tabs c)) l) (port_log c) (page_fault_cnt c)).

Section dispatch.
(** What the handlers do. *)
Context (run : handler -> intr_frame -> st cpu unit).

(** intr_handler; the result tells whether it yielded. *)
Definition intr_handler (f : intr_frame) : st cpu bool :=
  let external := (0x20 <=? vec_no f) && (vec_no f <? 0x30) in
  (if external then
     level ← on_kern intr_get_level; kassert_st (negb level) ≫= fun _ =>
     ctx ← on_kern intr_context; kassert_st (negb ctx) ≫= fun _ =>
     on_kern (modify (set_external true false))
   else mret tt) ≫= fun _ =>
  hs ← gets (fun c => intr_handlers (tabs c));
  h ← lift (zget hs (vec_no f));
  (match h with
   | Some h => run h f
   | None => if (vec_no f =? 0x27) || (vec_no f =? 0x2f) then mret tt else unexpected_interrupt f
   end) ≫= fun _ =>
  if external then
    level ← on_kern intr_get_level; kassert_st (negb level) ≫= fun _ =>
    ctx ← on_kern intr_context; kassert_st ctx ≫= fun _ =>
    y ← on_kern (gets yield_on_return);
    on_kern (modify (set_external false y)) ≫= fun _ =>
    pic_end_of_interrupt (vec_no f) ≫= fun _ =>
    if y : bool then on_kern (thread_yield true) ≫= fun _ => mret true else mret false
  else mret false.

(** An interrupt taken through an interrupt gate while interrupts are on:
    the CPU clears the flag and the return sets it again, unless the thread
    was switched out, which resumes with the flag set later. *)
Definition take_interrupt (f : intr_frame) : st cpu unit :=
  on_kern (modify (set_intr false)) ≫= fun _ =>
  y ← intr_handler f;
  if y : bool then mret tt else on_kern (modify (set_intr true)).
End dispatch.

(** ** Exceptions *)

Definition kill (f : intr_frame) : st cpu unit :=
  if cs f =? SEL_UCSEG then on_kern thread_exit
  else if cs f =? SEL_KCSEG then lift (Err Panic)
  else on_kern thread_exit.

Definition page_fault (f : intr_frame) : st cpu unit :=
  on_kern intr_enable ≫= fun _ =>
  modify (fun c => Cpu (kern c) (tabs c) (port_log c) (page_fault_cnt c + 1)) ≫= fun _ => kill f.

(** ** The tables at boot *)

Section gates.
Context (intr_stubs : list Z) (Hlen : length intr_stubs = INTR_CNT) (Hstub : Forall (fun f => 0 < f < 2 ^ 32) intr_stubs).

(** The gate of vector [v], as the CPU reads it: privilege level and type
    (14 interrupt gate, 15 trap gate). *)
Definition gate_is (g : Z) (v : nat) (dpl type : Z) : Prop :=
  intr_stubs !! v = Some (gate_offset g) /\ gate_selector g = SEL_KCSEG /\ desc_present g = 1 /\ desc_dpl g = dpl /\ gate_type g = type.

(** The expected contents of the tables. *)
Definition expected : Type := nat -> Z * Z * option handler.
Definition tables_are (t : tables) (e : expected) : Prop :=
  length (idt t) = INTR_CNT /\ length (intr_handlers t) = INTR_CNT /\ length (unexpected_cnt t) = INTR_CNT /\
  forall v, (v < INTR_CNT)%nat -> (exists g, idt t !! v = Some g /\ gate_is g v (e v).1.1 (e v).1.2) /\ intr_handlers t !! v = Some (e v).2.

Lemma make_gate_ok v dpl type : (v < INTR_CNT)%nat -> 0 <= dpl <= 3 -> 0 <= type <= 15 ->
  exists stub g, zget intr_stubs (Z.of_nat v) = Ok stub /\ make_gate stub dpl type = Ok g /\ gate_is g v dpl type.
Proof.
  intros Hv Hd Ht. destruct (lookup_lt_is_Some_2 intr_stubs v ltac:(lia)) as [stub Hs]. pose proof (Forall_lookup_1 _ _ _ _ Hstub Hs) as Hr.
  destruct (gate_fields stub dpl type Hr Hd Ht) as (g & E & _ & F1 & F2 & F3 & F4 & F5). exists stub, g. split_and!; [apply zget_Ok; split; [lia|by rewrite Nat2Z.id]|done|]. split_and!; try done. by rewrite F1.
Qed.

Definition default : expected := fun _ => (0, 14, None).

Lemma intr_init_ok t : length (idt t) = INTR_CNT -> intr_handlers t = replicate INTR_CNT None -> length (unexpected_cnt t) = INTR_CNT -> exists t', intr_init intr_stubs t = Ok t' /\ tables_are t' default.
Proof.
  intros H1 H2 H3. set (I := fun k t' => length (idt t') = INTR_CNT /\ intr_handlers t' = replicate INTR_CNT None /\ length (unexpected_cnt t') = INTR_CNT /\
    forall v, Z.of_nat v < k -> (v < INTR_CNT)%nat -> exists g, idt t' !! v = Some g /\ gate_is g v 0 14).
  destruct (for_range_inv I INTR_CNT 0 (init_gate intr_stubs) t) as (t' & E & Hl1 & Hh & Hl2 & Hg).
  - split_and!; try done. intros v Hv. lia.
  - intros k t' Hk (Hl1 & Hh & Hl2 & Hg). destruct (make_gate_ok (Z.to_nat k) 0 14) as (stub & g & E1 & E2 & Hgate); [lia..|]. rewrite Z2Nat.id in E1 by lia.
    eexists. split; [unfold init_gate, make_intr_gate; rewrite E1; cbn; rewrite E2; cbn; rewrite zset_Ok by (rewrite Hl1; lia); reflexivity|].
    split_and!; cbn [idt intr_handlers unexpected_cnt]; [by rewrite length_insert|done|done|]. intros v Hv Hlt. destruct (decide (v = Z.to_nat k)) as [->|Hne].
    + exists g. split; [apply list_lookup_insert_eq; rewrite Hl1; lia|done].
    + rewrite list_lookup_insert_ne by done. apply Hg; [lia|done].
  - exists t'. split; [done|]. split_and!; [done|by rewrite Hh, length_replicate|done|]. intros v Hv. split; [apply Hg; [unfold INTR_CNT in *; lia|done]|]. rewrite Hh. by apply lookup_replicate_2.
Qed.

Definition registered (v : nat) (dpl type : Z) (h : handler) (e : expected) : expected := fun w => if decide (w = v) then (dpl, type, Some h) else e w.

Lemma register_ok t e v dpl level h : tables_are t e -> (v < INTR_CNT)%nat -> (e v).2 = None -> 0 <= dpl <= 3 ->
  exists t', register_handler intr_stubs (Z.of_nat v) dpl level h t = Ok t' /\ tables_are t' (registered v dpl (if level then 15 else 14) h e).
Proof.
  intros (H1 & H2 & H3 & Ht) Hv He Hd. destruct (make_gate_ok v dpl (if level then 15 else 14) Hv Hd) as (stub & g & E1 & E2 & Hg); [destruct level; lia|].
  eexists. split.
  { unfold register_handler. rewrite (proj2 (zget_Ok (intr_handlers t) (Z.of_nat v) None)); [|split; [lia|rewrite Nat2Z.id, <- He; by apply Ht]]. cbn. rewrite E1. cbn.
    replace (if level then make_trap_gate stub dpl else make_intr_gate stub dpl) with (Ok g) by (by destruct level). cbn. rewrite !zset_Ok by lia. reflexivity. }
  rewrite Nat2Z.id. split_and!; cbn [idt intr_handlers unexpected_cnt]; rewrite ?length_insert; try done. intros w Hw. unfold registered. destruct (decide (w = v)) as [->|Hne].
  - split; [exists g; split; [apply list_lookup_insert_eq; lia|done]|apply list_lookup_insert_eq; lia].
  - rewrite !list_lookup_insert_ne by done. by apply Ht.
Qed.

Lemma register_int_ok t e v dpl level h : tables_are t e -> 0 <= v < 256 -> v < 0x20 \/ 0x2f < v -> (e (Z.to_nat v)).2 = None -> 0 <= dpl <= 3 ->
  exists t', intr_register_int intr_stubs v dpl level h t = Ok t' /\ tables_are t' (registered (Z.to_nat v) dpl (if level then 15 else 14) h e).
Proof.
  intros Ht Hv Hr He Hd. destruct (register_ok t e (Z.to_nat v) dpl level h Ht) as (t' & E & Ht'); [unfold INTR_CNT; lia|done|done|]. rewrite Z2Nat.id in E by lia. exists t'. split; [|done].
  unfold intr_register_int. rewrite kassert_true; [done|]. apply orb_true_iff. destruct Hr; [left|right]; apply Z.ltb_lt; lia.
Qed.
Lemma register_ext_ok t e v h : tables_are t e -> 0x20 <= v <= 0x2f -> (e (Z.to_nat v)).2 = None ->
  exists t', intr_register_ext intr_stubs v h t = Ok t' /\ tables_are t' (registered (Z.to_nat v) 0 14 h e).
Proof.
  intros Ht Hv He. destruct (register_ok t e (Z.to_nat v) 0 false h Ht) as (t' & E & Ht'); [unfold INTR_CNT; lia|done|lia|]. rewrite Z2Nat.id in E by lia. exists t'. split; [|done].
  unfold intr_register_ext. rewrite kassert_true; [done|]. apply andb_true_iff. split; apply Z.leb_le; lia.
Qed.

(** The vectors of exception_init that kill, and the whole table. *)
Definition kill_vectors : list nat := [0; 1; 3; 4; 5; 6; 7; 11; 12; 13; 16; 19]%nat.
Definition user_vectors : list nat := [3; 4; 5; 48]%nat.
Definition boot_expected : expected := fun v =>
  (if bool_decide (v ∈ user_vectors) then 3 else 0,
   if bool_decide (v ∈ kill_vectors) || (v =? 48)%nat then 15 else 14,
   if bool_decide (v ∈ kill_vectors) then Some Kill
   else if (v =? 14)%nat then Some Page_fault else if (v =? 48)%nat then Some Syscall_handler
   else if (v =? 32)%nat then Some Timer_interrupt else if (v =? 33)%nat then Some Keyboard_interrupt
   else if (v =? 36)%nat then Some Serial_interrupt else if (v =? 46)%nat || (v =? 47)%nat then Some Ide_interrupt else None).

Lemma tables_are_ext t e e' : tables_are t e -> (forall v, (v < INTR_CNT)%nat -> e v = e' v) -> tables_are t e'.
Proof. intros (H1 & H2 & H3 & Ht) He. split_and!; try done. intros v Hv. rewrite <- He by done. by apply Ht. Qed.

Ltac next_registration :=
  match goal with
  | Ht : tables_are ?t ?e |- context [intr_register_int _ ?v ?dpl ?level ?h ?t] =>
      let t' := fresh "t" in let E := fresh "E" in let Ht' := fresh "Ht" in
      destruct (register_int_ok t e v dpl level h Ht) as (t' & E & Ht'); [lia|lia|reflexivity|lia|]; rewrite E; clear E Ht; cbn [mbind outcome_bind]
  | Ht : tables_are ?t ?e |- context [intr_register_ext _ ?v ?h ?t] =>
      let t' := fresh "t" in let E := fresh "E" in let Ht' := fresh "Ht" in
      destruct (register_ext_ok t e v h Ht) as (t' & E & Ht'); [lia|reflexivity|]; rewrite E; clear E Ht; cbn [mbind outcome_bind]
  end.

Lemma boot_tables_are t : length (idt t) = INTR_CNT -> intr_handlers t = replicate INTR_CNT None -> length (unexpected_cnt t) = INTR_CNT ->
  exists t', boot_tables intr_stubs t = Ok t' /\ tables_are t' boot_expected.
Proof.
  intros H1 H2 H3. unfold boot_tables. destruct (intr_init_ok t H1 H2 H3) as (t0 & E & Ht0). rewrite E. clear E. cbn [mbind outcome_bind]. unfold exception_init.
  do 19 next_registration. eexists. split; [reflexivity|]. eapply tables_are_ext; [eassumption|]. intros v Hv.
  match goal with |- ?e v = _ => assert (forallb (fun v => bool_decide (e v = boot_expected v)) (seq 0 256) = true) as Hall by (vm_compute; reflexivity) end.
  rewrite forallb_forall in Hall. specialize (Hall v). apply bool_decide_eq_true in Hall; [done|]. apply in_seq. unfold INTR_CNT in Hv. lia.
Qed.
End gates.


Definition sample_stubs : list Z := (fun i => 0xc0020000 + 16 * i) <$> seqZ 0 256.
Definition bss_tables : tables := Tables (replicate 256 0) (replicate 256 None) (replicate 256 0).

(** ** Timer interrupts *)

(** The timer's handler runs thread_tick (the tick count of timer.c is in
    Timer.v). *)
Definition run_timer (run : handler -> intr_frame -> st cpu unit) : Prop := forall f, run Timer_interrupt f = on_kern thread_tick.


Definition lone_kernel : kernel :=
  Kernel {[4096 := Thread 1 THREAD_RUNNING [] 8192 PRI_DEFAULT THREAD_MAGIC false None]} 4096 [] [4096] 0 4096 0 (0, 0, 0) 2 true false false ∅ ∅ ∅.
Definition run_none (h : handler) (f : intr_frame) : st cpu unit := match h with Timer_interrupt => on_kern thread_tick | _ => mret tt end.
