(* ===== verification/Timer.v ===== *)
(** * The timer (src/devices/timer.c, src/devices/pit.c)

    Time is counted in iterations of the loop of busy_wait, [T] of which
    take as long as one tick of the timer: [T] is the speed of the machine.
    A tick that comes while interrupts are off is kept until they are on
    again, one at most.  thread_yield lets other threads run for the next
    of the [turns], a time that is a parameter of the state; what
    timer_interrupt does to the scheduler is in Interrupts.v. *)

From S2P Require Import Prelude Wp.

Definition TIMER_FREQ : Z := 100.
Definition PIT_HZ : Z := 1193180.
Definition PIT_PORT_CONTROL : Z := 0x43.
Definition PIT_PORT_COUNTER (channel : Z) : Z := 0x40 + channel.

(** The time, the statics ticks and loops_per_tick, the interrupt flag and
    the pending interrupt, the bytes written to ports, and the turns of the
    other threads. *)
Record clock := Clock {
  now : Z;
  ticks : Z;
  loops_per_tick : Z;
  intr_on : bool;
  pending : bool;
  port_log : list (Z * Z);
  turns : list Z
}.
Definition set_loops (l : Z) (c : clock) : clock := Clock (now c) (ticks c) l (intr_on c) (pending c) (port_log c) (turns c).
Definition set_turns (l : list Z) (c : clock) : clock := Clock (now c) (ticks c) (loops_per_tick c) (intr_on c) (pending c) (port_log c) l.
Definition outb (port v : Z) : st clock unit :=
  modify (fun c => Clock (now c) (ticks c) (loops_per_tick c) (intr_on c) (pending c) (port_log c ++ [(port, u8 v)]) (turns c)).

(** timer_interrupt, less the call of thread_tick. *)
Definition timer_interrupt (c : clock) : clock := Clock (now c) (ticks c + 1) (loops_per_tick c) (intr_on c) (pending c) (port_log c) (turns c).

Definition intr_get_level : st clock bool := gets intr_on.
Definition intr_disable : st clock bool := fun c => Ok (intr_on c, Clock (now c) (ticks c) (loops_per_tick c) false (pending c) (port_log c) (turns c)).
Definition intr_enable (c : clock) : clock :=
  let c' := Clock (now c) (ticks c) (loops_per_tick c) true false (port_log c) (turns c) in if pending c then timer_interrupt c' else c'.
Definition intr_set_level (level : bool) : st clock unit := if level then modify intr_enable else x ← intr_disable; mret tt.

(** ** The interval timer *)

Definition pit_count (frequency : Z) : Z :=
  if frequency <? 19 then 0 else if PIT_HZ <? frequency then 2 else ((PIT_HZ + frequency / 2) / frequency) mod 2 ^ 16.

Definition pit_configure_channel (channel mode frequency : Z) : st clock unit :=
  kassert_st ((channel =? 0) || (channel =? 2)) ≫= fun _ =>
  kassert_st ((mode =? 2) || (mode =? 3)) ≫= fun _ =>
  let count := pit_count frequency in
  old_level ← intr_disable;
  outb PIT_PORT_CONTROL (Z.lor (Z.lor (Z.shiftl channel 6) 0x30) (Z.shiftl mode 1)) ≫= fun _ =>
  outb (PIT_PORT_COUNTER channel) count ≫= fun _ =>
  outb (PIT_PORT_COUNTER channel) (Z.shiftr count 8) ≫= fun _ =>
  intr_set_level old_level.

(** timer_init, less the registration of the handler. *)
Definition timer_init : st clock unit := pit_configure_channel 0 2 TIMER_FREQ.

(** ** Time *)

Section timer.
Context (T : Z).

(** One iteration of a loop with an empty body. *)
Definition barrier (c : clock) : clock :=
  let c' := Clock (now c + 1) (ticks c) (loops_per_tick c) (intr_on c) (pending c) (port_log c) (turns c) in
  if (now c + 1) mod T =? 0 then
    if intr_on c then timer_interrupt c' else Clock (now c + 1) (ticks c) (loops_per_tick c) false true (port_log c) (turns c)
  else c'.

Definition yield_turn : st clock unit := modify (fun c =>
  match turns c with k :: rest => Z.iter (1 + k) barrier (set_turns rest c) | [] => barrier c end).

Definition timer_ticks : st clock Z := old_level ← intr_disable; t ← gets ticks; intr_set_level old_level ≫= fun _ => mret t.
Definition timer_elapsed (thn : Z) : st clock Z := t ← timer_ticks; mret (t - thn).

Fixpoint sleep_loop (fuel : nat) (start ticks : Z) : st clock unit :=
  match fuel with
  | O => lift (Err Fuel)
  | S fuel' =>
      e ← timer_elapsed start;
      if e <? ticks then yield_turn ≫= fun _ => sleep_loop fuel' start ticks else mret tt
  end.
Definition timer_sleep (fuel : nat) (ticks : Z) : st clock unit :=
  start ← timer_ticks;
  level ← intr_get_level; kassert_st level ≫= fun _ => sleep_loop fuel start ticks.

Definition busy_wait (loops : Z) : st clock unit := modify (fun c => Z.iter loops barrier c).

Definition real_time_delay (num denom : Z) : st clock unit :=
  kassert_st (Z.rem denom 1000 =? 0) ≫= fun _ =>
  l ← gets loops_per_tick;
  busy_wait (Z.quot (s64 (Z.quot (s64 (l * num)) 1000 * TIMER_FREQ)) (Z.quot denom 1000)).
Definition real_time_sleep (fuel : nat) (num denom : Z) : st clock unit :=
  let ticks := Z.quot (s64 (num * TIMER_FREQ)) denom in
  level ← intr_get_level; kassert_st level ≫= fun _ =>
  if 0 <? ticks then timer_sleep fuel ticks else real_time_delay num denom.

Definition timer_msleep (fuel : nat) (ms : Z) : st clock unit := real_time_sleep fuel ms 1000.
Definition timer_usleep (fuel : nat) (us : Z) : st clock unit := real_time_sleep fuel us (1000 * 1000).
Definition timer_nsleep (fuel : nat) (ns : Z) : st clock unit := real_time_sleep fuel ns (1000 * 1000 * 1000).
Definition timer_mdelay (ms : Z) : st clock unit := real_time_delay ms 1000.
Definition timer_udelay (us : Z) : st clock unit := real_time_delay us (1000 * 1000).
Definition timer_ndelay (ns : Z) : st clock unit := real_time_delay ns (1000 * 1000 * 1000).

(** ** Calibration *)

Fixpoint wait_tick (fuel : nat) (start : Z) : st clock unit :=
  match fuel with
  | O => lift (Err Fuel)
  | S fuel' => t ← gets ticks; if t =? start then modify barrier ≫= fun _ => wait_tick fuel' start else mret tt
  end.
Definition too_many_loops (loops : Z) : st clock bool :=
  start ← gets ticks; wait_tick (S (Z.to_nat T)) start ≫= fun _ =>
  start ← gets ticks; busy_wait loops ≫= fun _ =>
  t ← gets ticks; mret (negb (start =? t)).

Fixpoint double_loop (fuel : nat) : st clock unit :=
  match fuel with
  | O => lift (Err Fuel)
  | S fuel' =>
      l ← gets loops_per_tick;
      many ← too_many_loops (u32 (Z.shiftl l 1));
      if many : bool then mret tt
      else modify (set_loops (u32 (Z.shiftl l 1))) ≫= fun _ => kassert_st (negb (u32 (Z.shiftl l 1) =? 0)) ≫= fun _ => double_loop fuel'
  end.
Fixpoint refine_loop (fuel : nat) (high_bit test_bit : Z) : st clock unit :=
  if test_bit =? Z.shiftr high_bit 10 then mret tt
  else match fuel with
  | O => lift (Err Fuel)
  | S fuel' =>
      many ← too_many_loops (Z.lor high_bit test_bit);
      (if many : bool then mret tt else modify (fun c => set_loops (Z.lor (loops_per_tick c) test_bit) c)) ≫= fun _ =>
      refine_loop fuel' high_bit (Z.shiftr test_bit 1)
  end.
Definition timer_calibrate : st clock unit :=
  level ← intr_get_level; kassert_st level ≫= fun _ =>
  modify (set_loops (Z.shiftl 1 10)) ≫= fun _ =>
  double_loop 32 ≫= fun _ =>
  high_bit ← gets loops_per_tick;
  refine_loop 32 high_bit (Z.shiftr high_bit 1).
End timer.

(** ** The interval timer's count *)

(** From 19 Hz to the clock's own rate the count is the nearest divisor, and
    fits the 16-bit counter. *)
Lemma pit_count_nearest f : 19 <= f <= PIT_HZ -> 1 <= pit_count f < 2 ^ 16 /\ 2 * Z.abs (pit_count f * f - PIT_HZ) <= f.
Proof.
  unfold pit_count, PIT_HZ. intros Hf. destruct (Z.ltb_spec f 19); [lia|]. destruct (Z.ltb_spec 1193180 f); [lia|].
  pose proof (Z.div_mod (1193180 + f / 2) f ltac:(lia)) as E. pose proof (Z.mod_pos_bound (1193180 + f / 2) f ltac:(lia)) as Hm.
  pose proof (Z.div_mod f 2 ltac:(lia)). pose proof (Z.mod_pos_bound f 2 ltac:(lia)).
  set (q := (1193180 + f / 2) / f) in *. assert (1 <= q < 2 ^ 16) by nia. rewrite Z.mod_small by lia. split; [lia|]. nia.
Qed.

(** The counter is loaded with the count, low byte first, whatever the
    interrupt level. *)
Lemma pit_configure_writes ch m f c :
  (ch = 0 \/ ch = 2) -> (m = 2 \/ m = 3) -> pending c = false ->
  exists c', pit_configure_channel ch m f c = Ok (tt, c') /\
    port_log c' = port_log c ++ [(0x43, ch * 64 + 0x30 + 2 * m); (0x40 + ch, pit_count f mod 256); (0x40 + ch, pit_count f / 256 mod 256)] /\
    intr_on c' = intr_on c /\ ticks c' = ticks c.
Proof.
  intros Hch Hm Hp. destruct c as [n t l on p log tr]. simpl in Hp. subst p. unfold pit_configure_channel.
  assert ((ch =? 0) || (ch =? 2) = true) as -> by lia. assert ((m =? 2) || (m =? 3) = true) as -> by lia.
  assert (u8 (Z.lor (Z.lor (Z.shiftl ch 6) 0x30) (Z.shiftl m 1)) = ch * 64 + 0x30 + 2 * m) as E by (destruct Hch as [->| ->], Hm as [->| ->]; done).
  unfold outb. rewrite E. unfold u8. rewrite Z.shiftr_div_pow2 by lia.
  destruct on; (eexists; split; [reflexivity|]); simpl; rewrite <- !app_assoc; done.
Qed.

(** Between the two thirds of the clock's rate and that rate the count is 1,
    which mode 2 does not allow. *)
Lemma pit_count_one f : 795454 <= f <= PIT_HZ -> pit_count f = 1.
Proof. unfold pit_count, PIT_HZ. intros Hf. destruct (Z.ltb_spec f 19); [lia|]. destruct (Z.ltb_spec 1193180 f); [lia|].
  assert ((1193180 + f / 2) / f = 1) as -> by (symmetry; apply (Z.div_unique _ _ _ (1193180 + f / 2 - f)); [left; dlia|lia]). done.
Qed.

(** ** Time passing with interrupts on *)

Section laws.
Context (T : Z) (HT : 0 < T).

(** The clock at time [n] of a machine that has lost no tick. *)
Definition at_time (n l : Z) (log : list (Z * Z)) (tr : list Z) : clock := Clock n (n / T) l true false log tr.
Definition in_time (c : clock) : Prop := 0 <= now c /\ intr_on c = true /\ pending c = false /\ ticks c = now c / T.

Lemma in_time_at c : in_time c -> c = at_time (now c) (loops_per_tick c) (port_log c) (turns c).
Proof. destruct c. intros (_ & H1 & H2 & H3). simpl in *. subst. done. Qed.
Lemma at_in_time n l log tr : 0 <= n -> in_time (at_time n l log tr).
Proof. done. Qed.

Lemma barrier_at n l log tr : 0 <= n -> barrier T (at_time n l log tr) = at_time (n + 1) l log tr.
Proof.
  intros Hn. unfold barrier, at_time, timer_interrupt. simpl. destruct (Z.eqb_spec ((n + 1) mod T) 0) as [E|E]; f_equal.
  - pose proof (Z.div_mod (n + 1) T ltac:(lia)) as E1. pose proof (Z.div_mod n T ltac:(lia)) as E2. pose proof (Z.mod_pos_bound n T HT).
    rewrite E, Z.add_0_r in E1. assert (T * ((n + 1) / T - n / T) = n mod T + 1) by lia.
    assert ((n + 1) / T - n / T = 1) by nia. lia.
  - apply (Z.div_unique _ _ _ (n mod T + 1)); [|pose proof (Z.div_mod n T ltac:(lia)); lia]. left. pose proof (Z.mod_pos_bound n T HT). split; [lia|].
    destruct (decide (n mod T + 1 = T)) as [E'|]; [|lia]. exfalso. apply E. pose proof (Z.div_mod n T ltac:(lia)). replace (n + 1) with (0 + (n / T + 1) * T) by lia. rewrite Z_mod_plus_full. apply Z.mod_0_l. lia.
Qed.
Lemma iter_barrier_at k n l log tr : 0 <= k -> 0 <= n -> Z.iter k (barrier T) (at_time n l log tr) = at_time (n + k) l log tr.
Proof.
  intros Hk Hn. rewrite iter_nat_of_Z by done. replace k with (Z.of_nat (Z.abs_nat k)) at 2 by lia. generalize (Z.abs_nat k). intros j.
  induction j as [|j IH]; simpl nat_rect; [f_equal; lia|]. rewrite IH, barrier_at by lia. f_equal. lia.
Qed.
Lemma timer_ticks_at n l log tr : timer_ticks (at_time n l log tr) = Ok (n / T, at_time n l log tr).
Proof. done. Qed.
Lemma wp_elapsed n l log tr s (Q : Z -> clock -> Prop) : Q (n / T - s) (at_time n l log tr) -> wp (timer_elapsed s) Q (at_time n l log tr).
Proof. done. Qed.

(** ** Sleeping *)

Definition turns_ok (D : Z) (tr : list Z) : Prop := Forall (fun k => 0 <= k <= D) tr.

Lemma wp_yield n l log tr D (Q : unit -> clock -> Prop) :
  0 <= n -> 0 <= D -> turns_ok D tr -> (forall k tr', 1 <= k <= 1 + D -> turns_ok D tr' -> Q tt (at_time (n + k) l log tr')) -> wp (yield_turn T) Q (at_time n l log tr).
Proof.
  intros Hn HD Htr HQ. apply wp_modify. destruct tr as [|k tr]; simpl turns.
  - rewrite barrier_at by done. apply HQ; [lia|constructor].
  - inversion Htr; subst. change (set_turns tr (at_time n l log (k :: tr))) with (at_time n l log tr). rewrite iter_barrier_at by lia. apply HQ; [lia|done].
Qed.

(** The loop ends at the first look after the deadline. *)
Lemma wp_sleep_loop D fuel n l log tr s k (Q : unit -> clock -> Prop) :
  0 <= n -> 0 <= D -> turns_ok D tr -> n < (s + k) * T -> (s + k) * T - n < Z.of_nat fuel ->
  (forall n' tr', (s + k) * T <= n' <= (s + k) * T + D -> turns_ok D tr' -> Q tt (at_time n' l log tr')) ->
  wp (sleep_loop T fuel s k) Q (at_time n l log tr).
Proof.
  intros Hn HD Htr Hlt Hf HQ. revert n tr Hn Htr Hlt Hf. induction fuel as [|fuel IH]; intros n tr Hn Htr Hlt Hf; [lia|].
  cbn [sleep_loop]. apply wp_bind, wp_elapsed. destruct (Z.ltb_spec (n / T - s) k) as [_|H]; [|exfalso; pose proof (Z.mul_div_le n T HT); nia].
  apply wp_bind. apply (wp_yield _ _ _ _ D); [done..|]. intros j tr' Hj Htr'. destruct (Z_lt_le_dec (n + j) ((s + k) * T)) as [Hlt'|Hge]; [apply IH; [lia|done|lia|lia]|].
  destruct fuel as [|fuel]; [lia|]. cbn [sleep_loop]. apply wp_bind, wp_elapsed.
  pose proof (Z.div_le_mono _ _ T HT Hge) as Hd. rewrite Z.div_mul in Hd by lia. destruct (Z.ltb_spec ((n + j) / T - s) k); [lia|].
  apply wp_ret, HQ; [lia|done].
Qed.

Lemma wp_timer_sleep D fuel k c :
  in_time c -> 1 <= k -> 0 <= D -> turns_ok D (turns c) -> k * T < Z.of_nat fuel ->
  wp (timer_sleep T fuel k) (fun _ c' => in_time c' /\ loops_per_tick c' = loops_per_tick c /\ (now c / T + k) * T <= now c' <= (now c / T + k) * T + D) c.
Proof.
  intros Hc Hk HD Htr Hf. pose proof Hc as (Hn & _). rewrite (in_time_at c Hc). unfold timer_sleep. apply wp_bind. unfold wp at 1. rewrite timer_ticks_at.
  apply wp_bind, wp_gets, wp_bind, wp_assert; [done|]. pose proof (Z.div_mod (now c) T ltac:(lia)). pose proof (Z.mod_pos_bound (now c) T HT).
  assert (0 <= now c / T) by (apply Z.div_pos; lia).
  apply (wp_sleep_loop D); [done..|nia|nia|]. intros n' tr' Hn' Htr'. split; [apply at_in_time; nia|]. split; [done|]. exact Hn'.
Qed.

(** ** Calibration *)

Lemma wp_wait_tick fuel n l log tr (Q : unit -> clock -> Prop) :
  0 <= n -> T - n mod T < Z.of_nat fuel -> Q tt (at_time ((n / T + 1) * T) l log tr) -> wp (wait_tick T fuel (n / T)) Q (at_time n l log tr).
Proof.
  intros Hn Hf HQ. set (s := n / T) in *. assert (s * T <= n < (s + 1) * T /\ (s + 1) * T - n < Z.of_nat fuel) as [Hr Hf'].
  { pose proof (Z.div_mod n T ltac:(lia)). pose proof (Z.mod_pos_bound n T HT). unfold s. nia. }
  clear Hf. assert (0 <= s) by (apply Z.div_pos; lia). clearbody s. revert n Hn Hr Hf'. induction fuel as [|fuel IH]; intros n Hn Hr Hf'; [lia|].
  cbn [wait_tick]. apply wp_bind, wp_gets. simpl ticks. assert (n / T = s) as -> by (symmetry; apply (Z.div_unique _ _ _ (n - s * T)); lia). rewrite Z.eqb_refl.
  apply wp_bind, wp_modify. rewrite barrier_at by done. destruct (decide (n + 1 < (s + 1) * T)); [apply IH; lia|]. replace (n + 1) with ((s + 1) * T) by lia.
  destruct fuel as [|fuel]; [lia|]. cbn [wait_tick]. apply wp_bind, wp_gets. simpl ticks. rewrite Z.div_mul by lia. destruct (Z.eqb_spec (s + 1) s); [lia|]. by apply wp_ret.
Qed.

Lemma wp_too_many n l log tr loops (Q : bool -> clock -> Prop) :
  0 <= n -> 0 <= loops -> (forall n', 0 <= n' -> Q (T <=? loops) (at_time n' l log tr)) -> wp (too_many_loops T loops) Q (at_time n l log tr).
Proof.
  intros Hn Hl HQ. unfold too_many_loops. apply wp_bind, wp_gets. simpl ticks. apply wp_bind, wp_wait_tick; [done|pose proof (Z.mod_pos_bound n T HT); lia|].
  assert (0 <= n / T) by (apply Z.div_pos; lia). apply wp_bind, wp_gets. simpl ticks. apply wp_bind, wp_modify. rewrite iter_barrier_at by nia.
  apply wp_bind, wp_gets, wp_ret. simpl ticks. rewrite Z.div_mul by lia. rewrite (Z.add_comm _ loops), Z.div_add by lia.
  assert (negb (n / T + 1 =? loops / T + (n / T + 1)) = (T <=? loops)) as ->; [|apply HQ; nia].
  destruct (Z.leb_spec T loops) as [Hle|Hgt]; [pose proof (Z.div_le_mono _ _ T HT Hle) as Hd; rewrite Z.div_same in Hd by lia; lia|].
  rewrite (Z.div_small loops) by lia. lia.
Qed.

Lemma wp_double_loop fuel n k log tr (Q : unit -> clock -> Prop) :
  0 <= n -> 0 <= k <= 30 -> 2 ^ k < T <= 2 ^ 31 -> 31 - k <= Z.of_nat fuel ->
  (forall n' k', 0 <= n' -> k <= k' <= 30 -> 2 ^ k' < T <= 2 ^ (k' + 1) -> Q tt (at_time n' (2 ^ k') log tr)) ->
  wp (double_loop T fuel) Q (at_time n (2 ^ k) log tr).
Proof.
  revert n k. induction fuel as [|fuel IH]; intros n k Hn Hk HTk Hf HQ; [lia|]. cbn [double_loop]. apply wp_bind, wp_gets. simpl loops_per_tick.
  assert (0 < 2 ^ k) by (apply Z.pow_pos_nonneg; lia). assert (2 ^ (k + 1) = 2 * 2 ^ k) as E by (rewrite Z.pow_add_r; lia).
  assert (u32 (Z.shiftl (2 ^ k) 1) = 2 ^ (k + 1)) as ->.
  { rewrite Z.shiftl_mul_pow2, u32_small by first [lia|pose proof (Z.pow_le_mono_r 2 k 30); lia]. lia. }
  apply wp_bind, wp_too_many; [done|lia|]. intros n' Hn'. destruct (Z.leb_spec T (2 ^ (k + 1))) as [Hle|Hgt]; [apply wp_ret, HQ; lia|].
  assert (k < 30) by (destruct (decide (k = 30)) as [->|]; [simpl in Hgt|]; lia).
  apply wp_bind, wp_modify, wp_bind, wp_assert; [destruct (Z.eqb_spec (2 ^ (k + 1)) 0); [lia|done]|].
  apply (IH n' (k + 1)); [done|lia|lia|lia|]. intros n'' k' Hn'' Hk'. apply HQ; lia.
Qed.

(** What the refinement adds: every bit that fits on its own. *)
Record gained (k j g : Z) : Prop := {
  g_range : 0 <= g < 2 ^ (j + 1);
  g_over : 0 < g -> g < 2 * (T - 2 ^ k);
  g_all : 2 ^ j < T - 2 ^ k -> g = 2 ^ (j + 1) - 2 ^ (k - 9);
  g_under : T - 2 ^ k <= 2 ^ (j + 1) -> T - 2 ^ k <= g + 2 ^ (k - 9) }.

Lemma wp_refine_loop m fuel n k a log tr (Q : unit -> clock -> Prop) :
  let j := k - 10 + Z.of_nat m in
  0 <= n -> 10 <= k -> (m <= 9)%nat -> (m <= fuel)%nat -> 2 ^ k < T -> 0 <= a -> a mod 2 ^ (j + 1) = 0 ->
  (forall n' g, 0 <= n' -> gained k j g -> Q tt (at_time n' (a + g) log tr)) ->
  wp (refine_loop T fuel (2 ^ k) (2 ^ j)) Q (at_time n a log tr).
Proof.
  revert fuel n a. induction m as [|m IH]; intros fuel n a j Hn Hk Hm Hf HTk Ha Hmod HQ.
  - assert (j = k - 10) as Ej by lia. rewrite Ej in *. assert ((if 2 ^ (k - 10) =? Z.shiftr (2 ^ k) 10 then true else false) = true) as E.
    { rewrite Z.shiftr_div_pow2, <- Z.pow_sub_r by lia. by rewrite Z.eqb_refl. }
    unfold refine_loop. destruct fuel; destruct (2 ^ (k - 10) =? Z.shiftr (2 ^ k) 10); try done; apply wp_ret; replace a with (a + 0) by lia; apply HQ; [done| |done|];
      (replace (k - 10 + 1) with (k - 9) by lia; assert (0 < 2 ^ (k - 9)) by (apply Z.pow_pos_nonneg; lia); split; try lia; replace (k - 10 + 1) with (k - 9) by lia; lia).
  - destruct fuel as [|fuel]; [lia|]. set (j' := k - 10 + Z.of_nat m). assert (j = j' + 1) as Ej by lia. assert (0 < 2 ^ j') by (apply Z.pow_pos_nonneg; lia).
    assert (2 ^ j = 2 * 2 ^ j') as E2 by (rewrite Ej, Z.pow_add_r; lia). assert (2 ^ (j + 1) = 2 * 2 ^ j) as E3 by (rewrite Z.pow_add_r; lia).
    cbn [refine_loop]. assert ((2 ^ j =? Z.shiftr (2 ^ k) 10) = false) as ->.
    { rewrite Z.shiftr_div_pow2, <- Z.pow_sub_r by lia. apply Z.eqb_neq. intros E%Z.pow_inj_r; lia. }
    assert (Z.lor (2 ^ k) (2 ^ j) = 2 ^ k + 2 ^ j) as ->.
    { apply (lor_add_high _ _ k); [lia|by rewrite Z.mod_same by (apply Z.pow_nonzero; lia)|]. split; [lia|]. apply Z.pow_lt_mono_r; lia. }
    apply wp_bind, wp_too_many; [done|pose proof (Z.pow_pos_nonneg 2 k); lia|]. intros n1 Hn1.
    assert (Z.shiftr (2 ^ j) 1 = 2 ^ j') as Es by (rewrite Z.shiftr_div_pow2, E2, Z.mul_comm, Z.div_mul by lia; done).
    assert (a mod 2 ^ j = 0) as Hmodj. { apply Z.mod_divide in Hmod as [q ->]; [|lia]. rewrite E3. replace (q * (2 * 2 ^ j)) with ((2 * q) * 2 ^ j) by lia. apply Z.mod_mul. lia. }
    assert (2 ^ (k - 9) <= 2 ^ j) as Hlow by (apply Z.pow_le_mono_r; lia).
    apply wp_bind. destruct (Z.leb_spec T (2 ^ k + 2 ^ j)) as [Hle|Hgt].
    + apply wp_ret. rewrite Es. apply IH; [done|lia|lia|lia|done|done|by fold j'; rewrite <- Ej|]. intros n' g Hn' [G1 G2 G3 G4]. apply HQ; [done|].
      fold j' in G1, G3, G4. replace (j' + 1) with j in G1, G3, G4 by lia. split; first [lia|intros; apply G4; lia].
    + apply wp_modify. change (set_loops (Z.lor (loops_per_tick (at_time n1 a log tr)) (2 ^ j)) (at_time n1 a log tr)) with (at_time n1 (Z.lor a (2 ^ j)) log tr).
      rewrite (lor_add_high a _ (j + 1)), Es by first [lia|done]. apply IH; [done|lia|lia|lia|done|lia| |].
      * fold j'. rewrite <- Ej, <- Z.add_mod_idemp_l, Hmodj by lia. rewrite Z.add_0_l. apply Z.mod_same. lia.
      * intros n' g Hn' [G1 G2 G3 G4]. fold j' in G1, G3, G4. replace (j' + 1) with j in G1, G3, G4 by lia. rewrite <- Z.add_assoc. apply HQ; [done|].
        specialize (G3 ltac:(lia)). split; lia.
Qed.

(** A clock whose loops_per_tick is as [timer_calibrate] leaves it. *)
Definition calibrated (c : clock) : Prop := 511 * T < 512 * loops_per_tick c /\ 3 * loops_per_tick c < 4 * T.

Lemma wp_calibrate c : in_time c -> 2 ^ 10 < T <= 2 ^ 31 -> wp (timer_calibrate T) (fun _ c' => in_time c' /\ calibrated c') c.
Proof.
  intros Hc HTr. pose proof Hc as (Hn & _). rewrite (in_time_at c Hc). unfold timer_calibrate. apply wp_bind, wp_gets, wp_bind, wp_assert; [done|].
  apply wp_bind, wp_modify. change (set_loops (Z.shiftl 1 10) _) with (at_time (now c) (2 ^ 10) (port_log c) (turns c)).
  apply wp_bind, wp_double_loop; [done|lia|lia|lia|]. intros n k Hn' Hk HTk. apply wp_bind, wp_gets. simpl loops_per_tick.
  assert (2 ^ k = 2 * 2 ^ (k - 1)) as E by (rewrite <- Z.pow_succ_r by lia; f_equal; lia).
  assert (Z.shiftr (2 ^ k) 1 = 2 ^ (k - 10 + Z.of_nat 9)) as ->. { rewrite Z.shiftr_div_pow2, E, Z.mul_comm, Z.div_mul by lia. f_equal. lia. }
  apply wp_refine_loop; [done|lia|lia|lia|lia|lia| |].
  { replace (k - 10 + Z.of_nat 9 + 1) with k by lia. apply Z.mod_same, Z.pow_nonzero; lia. }
  intros n' g Hn1 [G1 G2 G3 G4]. replace (k - 10 + Z.of_nat 9 + 1) with k in * by lia. split; [done|]. unfold calibrated. simpl loops_per_tick.
  assert (2 ^ k = 512 * 2 ^ (k - 9)) as E9. { replace k with (9 + (k - 9)) at 1 by lia. rewrite Z.pow_add_r by lia. done. }
  assert (2 ^ (k + 1) = 2 * 2 ^ k) as E1 by (rewrite Z.pow_add_r; lia). specialize (G4 ltac:(lia)). destruct (decide (g = 0)) as [->|]; [lia|]. specialize (G2 ltac:(lia)). lia.
Qed.

Lemma wp_delay num denom c :
  in_time c -> 0 <= num -> 0 < denom -> denom mod 1000 = 0 -> calibrated c -> loops_per_tick c * num * TIMER_FREQ < 2 ^ 63 ->
  wp (real_time_delay T num denom) (fun _ c' => in_time c' /\ now c' = now c + loops_per_tick c * num / 1000 * TIMER_FREQ / (denom / 1000)) c.
Proof.
  intros Hc Hnum Hd Hm [HL _] Hov. pose proof Hc as (Hn & _). assert (0 <= loops_per_tick c) as HL0 by lia. rewrite (in_time_at c Hc). unfold real_time_delay, TIMER_FREQ in *.
  apply wp_bind, wp_assert; [rewrite Z.rem_mod_nonneg by lia; lia|]. apply wp_bind, wp_gets. simpl loops_per_tick. simpl now. set (l := loops_per_tick c) in *.
  assert (0 <= l * num) by nia. assert (0 <= l * num / 1000) by (apply Z.div_pos; lia). assert (l * num / 1000 * 1000 <= l * num) by (pose proof (Z.mul_div_le (l * num) 1000); lia).
  assert (1 <= denom / 1000) by dlia.
  rewrite (s64_small (l * num)) by lia. rewrite (Z.quot_div_nonneg (l * num)) by lia. rewrite s64_small by lia.
  rewrite (Z.quot_div_nonneg denom) by lia. rewrite Z.quot_div_nonneg by lia.
  apply wp_modify. rewrite iter_barrier_at by first [lia|apply Z.div_pos; lia]. split; [apply at_in_time|done]. assert (0 <= l * num / 1000 * 100 / (denom / 1000)) by (apply Z.div_pos; lia). lia.
Qed.
End laws.

(** ** Claims *)

(** C34: timer_calibrate terminates, on every machine whose tick lasts more
    than 2^10 and at most 2^31 loop iterations, and leaves in loops_per_tick
    less than four thirds of the iterations of a tick and more than 511/512
    of them. *)
Theorem timer_calibrate_accuracy (T : Z) (c : clock) :
  2 ^ 10 < T <= 2 ^ 31 -> in_time T c ->
  exists c', timer_calibrate T c = Ok (tt, c') /\ in_time T c' /\ 511 * T < 512 * loops_per_tick c' /\ 3 * loops_per_tick c' < 4 * T.
Proof.
  intros HT Hc. destruct (wp_Ok _ _ _ (wp_calibrate T ltac:(lia) c Hc HT)) as ([] & c' & E & Hc' & Hcal). by exists c'.
Qed.

Definition booted : clock := Clock 5 0 0 true false [] [300; 0; 40].

(** A tick of 1537 iterations: the bits of the refinement are tested one by
    one, so that each fits and their sum does not. *)
Lemma timer_calibrate_accuracy_witness :
  (exists c', timer_calibrate 1537 booted = Ok (tt, c') /\ loops_per_tick c' = 2046) /\
  exists c', timer_calibrate 1537 booted = Ok (tt, c') /\ in_time 1537 c' /\ 511 * 1537 < 512 * loops_per_tick c' /\ 3 * loops_per_tick c' < 4 * 1537.
Proof. split; [eexists; split; vm_compute; reflexivity|]. apply (timer_calibrate_accuracy 1537 booted); [lia|]. unfold in_time. by vm_compute. Defined.


