(* ===== verification/Rtc.v ===== *)
(** * The real-time clock (src/devices/rtc.c)

    The chip is reached through two ports, a parameter; [chip] below is one
    that updates its registers between any two reads. *)

From S2P Require Import Prelude Wp.

Definition CMOS_REG_SET : Z := 0x70.
Definition CMOS_REG_IO : Z := 0x71.
Definition RTC_REG_SEC : Z := 0.
Definition RTC_REG_MIN : Z := 2.
Definition RTC_REG_HOUR : Z := 4.
Definition RTC_REG_MDAY : Z := 7.
Definition RTC_REG_MON : Z := 8.
Definition RTC_REG_YEAR : Z := 9.

Class CmosPorts (H : Type) := {
  cmos_inb : Z -> H -> Z * H;
  cmos_outb : Z -> Z -> H -> H
}.

(** The components of the time, as rtc_get_time reads them. *)
Record civil := Civil { sec : Z; min : Z; hour : Z; mday : Z; mon : Z; year : Z }.

Definition bcd_to_bin (x : Z) : Z := Z.land x 0x0f + Z.shiftr x 4 * 10.

Definition days_per_month : list Z := [31; 28; 31; 30; 31; 30; 31; 31; 30; 31; 30; 31].

(** The second half of rtc_get_time: time_t is unsigned long. *)
Definition since_1970 (year : Z) : Z := (if year <? 70 then year + 100 else year) - 70.
Definition add_months (mon time : Z) : outcome Z :=
  for_range (Z.to_nat mon) 1 (fun i time => d ← zget days_per_month (i - 1); Ok (u32 (time + d * 24 * 60 * 60))) time.
Definition to_seconds (t : civil) : outcome Z :=
  let year := since_1970 (year t) in
  let time := u32 ((year * 365 + Z.quot (year - 1) 4) * 24 * 60 * 60) in
  time ← add_months (mon t) time;
  let time := if (2 <? mon t) && (Z.rem year 4 =? 0) then u32 (time + 24 * 60 * 60) else time in
  let time := u32 (time + (mday t - 1) * 24 * 60 * 60) in
  let time := u32 (time + hour t * 60 * 60) in
  let time := u32 (time + min t * 60) in
  Ok (u32 (time + sec t)).

Section rtc.
Context {H : Type} {ports : CmosPorts H}.

Definition cmos_read (index : Z) : st H Z := fun h => Ok (cmos_inb CMOS_REG_IO (cmos_outb CMOS_REG_SET index h)).
Definition read_bin (index : Z) : st H Z := x ← cmos_read index; mret (bcd_to_bin x).

Fixpoint read_loop (fuel : nat) : st H civil :=
  match fuel with
  | O => lift (Err Fuel)
  | S fuel' =>
      sec ← read_bin RTC_REG_SEC; min ← read_bin RTC_REG_MIN; hour ← read_bin RTC_REG_HOUR;
      mday ← read_bin RTC_REG_MDAY; mon ← read_bin RTC_REG_MON; year ← read_bin RTC_REG_YEAR;
      again ← read_bin RTC_REG_SEC;
      if sec =? again then mret (Civil sec min hour mday mon year) else read_loop fuel'
  end.
Definition rtc_get_time (fuel : nat) : st H Z := t ← read_loop fuel; lift (to_seconds t).
End rtc.

(** ** A running chip

    [date t] are the components of the time [t], in seconds; [clk n] is the
    time of the [n]-th read. *)

Section chip.
Context (date : Z -> civil) (clk : nat -> Z).

Record chip := Chip { selected : Z; reads : nat }.
Definition bcd (n : Z) : Z := n / 10 * 16 + n mod 10.
Definition register (t : civil) (index : Z) : Z :=
  bcd (if index =? RTC_REG_SEC then sec t else if index =? RTC_REG_MIN then min t else if index =? RTC_REG_HOUR then hour t
       else if index =? RTC_REG_MDAY then mday t else if index =? RTC_REG_MON then mon t else year t).
#[export] Instance chip_ports : CmosPorts chip := {
  cmos_inb := fun port c => (register (date (clk (reads c))) (selected c), Chip (selected c) (S (reads c)));
  cmos_outb := fun port v c => Chip v (reads c)
}.

Definition two_digits (n : Z) : Prop := 0 <= n < 100.
Definition digits (t : civil) : Prop :=
  two_digits (sec t) /\ two_digits (min t) /\ two_digits (hour t) /\ two_digits (mday t) /\ two_digits (mon t) /\ two_digits (year t).

(** The chip keeps the time, and at most one second passes in fourteen
    reads. *)
Context (Hdigits : forall t, digits (date t)) (Hsec : forall t, sec (date t) = t mod 60).
Context (Hmono : forall n, clk n <= clk (S n)) (Hslow : forall n, clk (n + 13) <= clk n + 1).

Lemma bcd_roundtrip n : two_digits n -> bcd_to_bin (bcd n) = n.
Proof.
  unfold two_digits, bcd_to_bin, bcd. intros Hn. rewrite Z.shiftr_div_pow2 by lia. change 15 with (Z.ones 4). rewrite Z.land_ones by lia. dlia.
Qed.
Lemma clk_mono n m : (n <= m)%nat -> clk n <= clk m.
Proof. induction 1 as [|m _ IH]; [lia|]. specialize (Hmono m). lia. Qed.

Lemma wp_read index (Q : Z -> chip -> Prop) c :
  Q (bcd_to_bin (register (date (clk (reads c))) index)) (Chip index (S (reads c))) -> wp (read_bin index) Q c.
Proof. done. Qed.

(** A pass of the loop that finds the seconds unchanged read the components
    of one time. *)
Lemma wp_read_loop fuel c (Q : civil -> chip -> Prop) :
  (clk (reads c + 6) = clk (reads c) -> forall s, Q (date (clk (reads c))) (Chip s (reads c + 7))) ->
  (clk (reads c + 6) = clk (reads c) + 1 -> forall s, wp (read_loop fuel) Q (Chip s (reads c + 7))) ->
  wp (read_loop (S fuel)) Q c.
Proof.
  intros Hsame Hnext. cbn [read_loop]. do 7 apply wp_bind, wp_read. cbn [reads]. set (n := reads c) in *.
  replace (S (S (S (S (S (S (S n))))))) with (n + 7)%nat by lia. replace (S (S (S (S (S (S n)))))) with (n + 6)%nat by lia.
  pose proof (clk_mono n (n + 6) ltac:(lia)). pose proof (clk_mono (n + 6) (n + 13) ltac:(lia)). specialize (Hslow n).
  unfold register. simpl. rewrite !bcd_roundtrip by apply Hdigits. rewrite !Hsec.
  destruct (Z.eqb_spec (clk n mod 60) (clk (n + 6) mod 60)) as [E|E].
  - assert (clk (n + 6) = clk n) as Ec by (destruct (decide (clk (n + 6) = clk n + 1)) as [E'|]; [rewrite E' in E; dlia|lia]).
    assert (forall m, (n <= m <= n + 6)%nat -> clk m = clk n) as Hall.
    { intros m Hm. pose proof (clk_mono n m ltac:(lia)). pose proof (clk_mono m (n + 6) ltac:(lia)). lia. }
    rewrite !(Hall (S _)) by lia. apply wp_ret. rewrite <- Hsec. destruct (date (clk n)) eqn:Ed. simpl. apply Hsame. done.
  - apply Hnext. destruct (decide (clk (n + 6) = clk n)) as [E'|]; [rewrite E' in E; done|lia].
Qed.

(** Two passes are enough, and what they read is the time of one of the
    reads. *)
Lemma wp_snapshot c :
  wp (read_loop 2) (fun d c' => exists n, (reads c <= n < reads c')%nat /\ d = date (clk n)) c.
Proof.
  apply wp_read_loop; [intros _ s; exists (reads c); split; [simpl; lia|done]|]. intros E s. apply wp_read_loop; cbn [reads].
  - intros _ s'. exists (reads c + 7)%nat. split; [simpl; lia|done].
  - intros E'. exfalso. pose proof (clk_mono (reads c + 6) (reads c + 7) ltac:(lia)). specialize (Hslow (reads c)).
    replace (reads c + 7 + 6)%nat with (reads c + 13)%nat in E' by lia. lia.
Qed.
End chip.

(** ** The calendar *)

Definition leap (y : Z) : bool := ((y mod 4 =? 0) && negb (y mod 100 =? 0)) || (y mod 400 =? 0).
Definition month_days (y m : Z) : Z := if m =? 2 then (if leap y then 29 else 28) else if (m =? 4) || (m =? 6) || (m =? 9) || (m =? 11) then 30 else 31.
Definition zsum (l : list Z) : Z := foldr Z.add 0 l.
Definition days_before (y m : Z) : Z :=
  zsum ((fun x => if leap x then 366 else 365) <$> seqZ 1970 (y - 1970)) + zsum (month_days y <$> seqZ 1 (m - 1)).
(** Seconds since the epoch of a date of the year [y]. *)
Definition unix_time (y : Z) (t : civil) : Z := (days_before y (mon t) + mday t - 1) * 86400 + hour t * 3600 + min t * 60 + sec t.
Definition valid_date (y : Z) (t : civil) : Prop :=
  1970 <= y <= 2037 /\ year t = y mod 100 /\ 1 <= mon t <= 12 /\ 1 <= mday t <= month_days y (mon t) /\ 0 <= hour t < 24 /\ 0 <= min t < 60 /\ 0 <= sec t < 60.

(** The seconds to_seconds counts up to the first of the month. *)
Definition month_start (y m : Z) : outcome Z :=
  let year := since_1970 (y mod 100) in
  time ← add_months m (u32 ((year * 365 + Z.quot (year - 1) 4) * 24 * 60 * 60));
  Ok (if (2 <? m) && (Z.rem year 4 =? 0) then u32 (time + 24 * 60 * 60) else time).
Definition month_ahead (y m : Z) : bool :=
  match month_start y m with
  | Ok x => (27 <=? x / 86400 - days_before y m) && (x / 86400 - days_before y m <=? 32) && (x mod 86400 =? 0) && (x <? 2 ^ 31) && (0 <=? days_before y m)
  | Err _ => false
  end.
Lemma months_ahead y m : 1970 <= y <= 2037 -> 1 <= m <= 12 -> month_ahead y m = true.
Proof.
  intros Hy Hm. assert (forallb (fun y => forallb (month_ahead y) (seqZ 1 12)) (seqZ 1970 68) = true) as Hall by (vm_compute; reflexivity).
  rewrite forallb_forall in Hall. specialize (Hall y). rewrite forallb_forall in Hall. apply Hall; apply list_elem_of_In, elem_of_seqZ; lia.
Qed.

Lemma to_seconds_ahead y t : valid_date y t -> exists r, to_seconds t = Ok r /\ 27 * 86400 <= r - unix_time y t <= 32 * 86400.
Proof.
  intros (Hy & Ey & Hm & Hd & Hh & Hmin & Hs). pose proof (months_ahead y (mon t) Hy Hm) as Ha.
  assert (month_days y (mon t) <= 31) by (unfold month_days; repeat case_match; lia). unfold month_ahead, month_start in Ha. unfold to_seconds. rewrite Ey.
  destruct (add_months _ _) as [x|]; [|done]. simpl in *. set (z := if (2 <? mon t) && _ then _ else x) in *.
  rewrite !andb_true_iff in Ha. destruct Ha as [[[[Ha1 Ha2] Ha3] Ha4] Hpos].
  pose proof (Z.div_mod z 86400 ltac:(lia)). eexists. split; [reflexivity|]. unfold unix_time.
  rewrite (u32_small (z + _)) by lia. rewrite (u32_small (_ + hour t * 60 * 60)) by lia. rewrite (u32_small (_ + min t * 60)) by lia. rewrite u32_small by lia. lia.
Qed.

(** C39: rtc_get_time returns, after at most two passes of its loop on a chip
    that updates at any moment but at most once in fourteen reads, seconds
    made from the components of one instant of the call; for every instant
    from 1970 to 2037 the result is between 27 and 32 days ahead of the
    seconds since the epoch, for the days of the current month are counted
    in. *)
Theorem rtc_get_time_ahead (date : Z -> civil) (yr : Z -> Z) (clk : nat -> Z) (c : chip) :
  (forall t, valid_date (yr t) (date t)) -> (forall t, sec (date t) = t mod 60) ->
  (forall n, clk n <= clk (S n)) -> (forall n, clk (n + 13)%nat <= clk n + 1) ->
  exists r c' n, rtc_get_time (ports := chip_ports date clk) 2 c = Ok (r, c') /\ (reads c <= n < reads c')%nat /\
    27 * 86400 <= r - unix_time (yr (clk n)) (date (clk n)) <= 32 * 86400.
Proof.
  intros Hv Hs Hmono Hslow. assert (forall t, digits (date t)) as Hdig.
  { intros t. destruct (Hv t) as (Hy & Ey & Hm & Hd & Hh & Hmin & Hsec). assert (month_days (yr t) (mon (date t)) <= 31) by (unfold month_days; repeat case_match; lia).
    unfold digits, two_digits. rewrite Ey. split_and!; try lia; dlia. }
  destruct (wp_Ok _ _ _ (wp_snapshot date clk Hdig Hs Hmono Hslow c)) as (d & c' & E & n & Hn & ->).
  destruct (to_seconds_ahead _ _ (Hv (clk n))) as (r & Er & Hr). exists r, c', n. split; [|done]. unfold rtc_get_time, mbind, st_bind. rewrite E. unfold lift. by rewrite Er.
Qed.

(** A chip that shows minutes and seconds of the noon hour of 1 March 2024
    and updates every twenty reads. *)
Definition noon (t : Z) : civil := Civil (t mod 60) (t / 60 mod 60) 12 1 3 24.
Definition every_twenty (n : nat) : Z := 59 + (Z.of_nat n + 15) / 20.
Lemma rtc_get_time_ahead_witness :
  rtc_get_time (ports := chip_ports noon every_twenty) 2 (Chip 0 0) = Ok (unix_time 2024 (noon 60) + 30 * 86400, Chip 0 14) /\
  exists r c' n, rtc_get_time (ports := chip_ports noon every_twenty) 2 (Chip 0 0) = Ok (r, c') /\ (0 <= n < reads c')%nat /\
    27 * 86400 <= r - unix_time 2024 (noon (every_twenty n)) <= 32 * 86400.
Proof.
  split; [vm_compute; reflexivity|].
  apply (rtc_get_time_ahead noon (fun _ => 2024) every_twenty (Chip 0 0)); [|done|intros n; unfold every_twenty; dlia..].
  intros t. unfold valid_date, noon. cbn [sec min hour mday mon year]. change (month_days 2024 3) with 31. change (2024 mod 100) with 24. dlia.
Defined.
