(* ===== verification/Sched.v ===== *)
(** * The scheduler's invariant and its consequences

    Every reachable state of the scheduler of Thread.v has each thread in
    the one queue its status calls for, no operation used as documented
    fails an assertion, locks exclude, and a ready thread gets the CPU
    after a bounded number of timer ticks. *)

From S2P Require Import Prelude Memory Thread.

(** Evaluates projections of updated states. *)
Ltac ksimp := cbn [threads running ready_list all_list idle_thread initial_thread thread_ticks tick_counts next_tid
  intr_on in_external_intr yield_on_return semas locks conds set_threads set_running set_ready set_all set_special set_ticks set_counts
  set_next_tid set_intr set_external set_semas set_locks set_conds tid status name t_stack priority magic pagedir cont
  set_status set_cont set_pri set_tid push_stack value waiters holder lock_sema negb andb].
Ltac kunfold := unfold running_thread, intr_get_level, intr_context, on_thread, on_sema, free_thread, gets, deref, modify, kassert_st, mbind, st_bind, mret, st_ret.

(** Queues: list_push_back. *)
Lemma elem_of_snoc {A} (x y : A) l : x ∈ l ++ [y] <-> x ∈ l \/ x = y.
Proof. by rewrite elem_of_app, list_elem_of_singleton. Qed.
Lemma NoDup_snoc {A} (y : A) l : NoDup l -> y ∉ l -> NoDup (l ++ [y]).
Proof.
  intros Hl Hy. apply list.NoDup_app. split_and!; [done| |apply NoDup_singleton]. by intros x Hx ->%list_elem_of_singleton.
Qed.

Section invariant.
Implicit Types (k : kernel) (th : thread).

(** Where a thread of each status is.  [r] is the thread that has the
    status THREAD_RUNNING, None between a change of status and the end of
    schedule (). *)
Definition place (r : option Z) k (t : Z) th : Prop :=
  match status th with
  | THREAD_RUNNING => r = Some t
  | THREAD_READY => (t ∈ ready_list k \/ t = idle_thread k) /\ cont th <> None
  | THREAD_BLOCKED =>
      match cont th with
      | Some (InDown s _ _) => exists sm, semas k !! s = Some sm /\ t ∈ waiters sm
      | Some InIdle => t = idle_thread k
      | _ => False
      end
  | THREAD_DYING => t = initial_thread k \/ (r = None /\ t = running k)
  end.

Definition waits_for k (s t : Z) : Prop :=
  t <> idle_thread k /\
  exists th l a, threads k !! t = Some th /\ status th = THREAD_BLOCKED /\ cont th = Some (InDown s l a).

Record winv (r : option Z) k : Prop := {
  w_thr : forall t th, threads k !! t = Some th -> t <> NULL /\ magic th = THREAD_MAGIC /\ place r k t th;
  w_run : forall t, r = Some t -> exists th, threads k !! t = Some th /\ status th = THREAD_RUNNING;
  w_ready : NoDup (ready_list k) /\
    forall t, t ∈ ready_list k -> t <> idle_thread k /\ exists th, threads k !! t = Some th /\ status th = THREAD_READY;
  w_sema : forall s sm, semas k !! s = Some sm ->
    0 <= value sm /\ NoDup (waiters sm) /\ forall t, t ∈ waiters sm -> waits_for k s t;
  w_idle : exists th, threads k !! idle_thread k = Some th /\ status th <> THREAD_DYING
}.

(** ** schedule *)

Definition next_of k : Z := match ready_list k with [] => idle_thread k | t :: _ => t end.

(** The thread map after a switch. *)
Definition switched (m : gmap Z thread) (cur next initial : Z) : gmap Z thread :=
  match m !! next with
  | None => m
  | Some th =>
      let m' := <[next := set_status THREAD_RUNNING th]> m in
      match m !! cur with
      | Some c => if bool_decide (status c = THREAD_DYING) && negb (cur =? initial) then delete cur m' else m'
      | None => m'
      end
  end.

Definition scheduled k : kernel :=
  set_threads (switched (threads k) (running k) (next_of k) (initial_thread k))
    (set_ticks 0 (set_running (next_of k) (set_ready (tail (ready_list k)) k))).

(** The next thread exists and can run. *)
Lemma next_ok k : winv None k ->
  exists th, threads k !! next_of k = Some th /\ next_of k <> NULL /\ magic th = THREAD_MAGIC /\
    status th <> THREAD_DYING /\ status th <> THREAD_RUNNING /\ cont th <> None /\
    (status th = THREAD_READY \/ next_of k = idle_thread k).
Proof.
  intros [Ht Hr [Hnd Hl] Hs (ti & Hi & Hid)].
  assert (exists th, threads k !! next_of k = Some th /\ (status th = THREAD_READY \/ next_of k = idle_thread k) /\
    status th <> THREAD_DYING) as (th & Hth & Hst & Hd).
  { unfold next_of. destruct (ready_list k) as [|t l]; [eauto 6|].
    destruct (Hl t) as (_ & th & Hth & Hst); [set_solver|]. exists th. split_and!; [done|by left|congruence]. }
  destruct (Ht _ _ Hth) as (H0 & Hm & Hp). exists th. unfold place in Hp. destruct (status th) eqn:E; try done.
  - split_and!; try done. by destruct Hp.
  - split_and!; try done. by destruct (cont th).
Qed.

Lemma schedule_run k : winv None k -> intr_on k = false -> is_Some (threads k !! running k) ->
  schedule k = Ok (tt, scheduled k).
Proof.
  intros Hw Hi [c Hc]. destruct (next_ok k Hw) as (th & Hth & H0 & Hm & Hd & Hnr & _ & _).
  assert (status c <> THREAD_RUNNING) as Hcr.
  { intros E. destruct (w_thr _ _ Hw _ _ Hc) as (_ & _ & Hp). unfold place in Hp. by rewrite E in Hp. }
  assert (next_thread_to_run k = Ok (next_of k, set_ready (tail (ready_list k)) k)) as Hnext.
  { unfold next_thread_to_run, next_of, gets, modify, mbind, st_bind. destruct (ready_list k) eqn:E; [|done]. simpl. rewrite <- E. by destruct k. }
  unfold schedule. kunfold. rewrite Hnext. ksimp. rewrite Hi. ksimp. rewrite Hc.
  rewrite bool_decide_eq_false_2 by done. unfold is_thread. ksimp. rewrite (proj2 (Z.eqb_neq _ _)) by done. rewrite Hth, Hm.
  change (THREAD_MAGIC =? THREAD_MAGIC) with true. cbv iota.
  unfold thread_schedule_tail. kunfold. unfold scheduled, switched. rewrite Hth, Hc.
  destruct (Z.eqb_spec (running k) (next_of k)) as [E|E]; ksimp.
  - rewrite E in Hc. rewrite Hth in Hc. injection Hc as <-. rewrite Hi. ksimp. rewrite E, Hth.
    rewrite bool_decide_eq_false_2 by done. ksimp. by rewrite <- E.
  - rewrite Hi. ksimp. rewrite Hth. ksimp. rewrite lookup_insert_ne by done. rewrite Hc. ksimp.
    destruct (bool_decide (status c = THREAD_DYING)); [|done]. destruct (running k =? initial_thread k); [done|]. ksimp.
    by rewrite (proj2 (Z.eqb_neq _ _)).
Qed.

Lemma lookup_switched k t th : winv None k -> is_Some (threads k !! running k) ->
  switched (threads k) (running k) (next_of k) (initial_thread k) !! t = Some th ->
  if decide (t = next_of k) then exists th0, threads k !! t = Some th0 /\ th = set_status THREAD_RUNNING th0
  else threads k !! t = Some th /\ (status th = THREAD_DYING -> t = running k -> t = initial_thread k).
Proof.
  intros Hw [c Hc] Hl. destruct (next_ok k Hw) as (tn & Hn & _ & _ & Hd & _). unfold switched in Hl. rewrite Hn, Hc in Hl.
  destruct (bool_decide (status c = THREAD_DYING) && negb (running k =? initial_thread k)) eqn:E.
  - apply lookup_delete_Some in Hl as [Hne Hl]. destruct (decide (t = next_of k)) as [Hd'|Hd'].
    + subst. rewrite lookup_insert_eq in Hl. injection Hl as <-. eauto.
    + rewrite lookup_insert_ne in Hl by done. split; [done|]. intros _ ->. done.
  - destruct (decide (t = next_of k)) as [Hd'|Hd'].
    + subst. rewrite lookup_insert_eq in Hl. injection Hl as <-. eauto.
    + rewrite lookup_insert_ne in Hl by done. split; [done|]. intros Hdy ->. rewrite Hc in Hl. injection Hl as <-.
      rewrite bool_decide_eq_true_2 in E by done. cbn in E. by apply negb_false_iff, Z.eqb_eq in E.
Qed.

Lemma switched_keep k t th : winv None k -> is_Some (threads k !! running k) -> t <> next_of k ->
  threads k !! t = Some th -> status th <> THREAD_DYING ->
  switched (threads k) (running k) (next_of k) (initial_thread k) !! t = Some th.
Proof.
  intros Hw [c Hc] Hne Ht Hd. destruct (next_ok k Hw) as (tn & Hn & _). unfold switched. rewrite Hn, Hc.
  destruct (bool_decide (status c = THREAD_DYING) && negb (running k =? initial_thread k)) eqn:E.
  - rewrite lookup_delete_ne; [by rewrite lookup_insert_ne|]. intros <-. rewrite Hc in Ht. injection Ht as <-.
    apply andb_true_iff in E as [E _]. by apply bool_decide_eq_true in E.
  - by rewrite lookup_insert_ne.
Qed.

Lemma switched_next k th : winv None k -> is_Some (threads k !! running k) -> threads k !! next_of k = Some th ->
  switched (threads k) (running k) (next_of k) (initial_thread k) !! next_of k = Some (set_status THREAD_RUNNING th).
Proof.
  intros Hw [c Hc] Hn. destruct (next_ok k Hw) as (tn & Hn' & _ & _ & Hd & _). rewrite Hn in Hn'. injection Hn' as <-.
  unfold switched. rewrite Hn, Hc.
  destruct (bool_decide (status c = THREAD_DYING) && negb (running k =? initial_thread k)) eqn:E.
  - rewrite lookup_delete_ne; [by rewrite lookup_insert_eq|]. intros E'. rewrite E' in Hc. rewrite Hn in Hc. injection Hc as <-.
    apply andb_true_iff in E as [E _]. by apply bool_decide_eq_true in E.
  - by rewrite lookup_insert_eq.
Qed.

Lemma next_not_tail k t : winv None k -> t ∈ tail (ready_list k) -> t <> next_of k /\ t ∈ ready_list k.
Proof.
  intros [_ _ [Hnd _] _ _] Ht. unfold next_of. destruct (ready_list k) as [|a l]; [by apply elem_of_nil in Ht|].
  simpl in Ht. apply list.NoDup_cons in Hnd as [Hn _]. split; [by intros ->|set_solver].
Qed.

Lemma schedule_winv k : winv None k -> is_Some (threads k !! running k) -> winv (Some (next_of k)) (scheduled k).
Proof.
  intros Hw Hrun. pose proof (next_ok k Hw) as (tn & Hn & H0 & Hm & Hdn & Hnr & Hcn & Hrd).
  pose proof Hw as [Ht Hr [Hnd Hl] Hs (ti & Hi & Hid)]. split; unfold scheduled; ksimp.
  - intros t th Hth. pose proof (lookup_switched k t th Hw Hrun Hth) as Hc. destruct (decide (t = next_of k)) as [E|E].
    + destruct Hc as (th0 & Hth0 & ->). destruct (Ht t th0 Hth0) as (? & ? & _). split; [done|]. split; [done|].
      unfold place. simpl. by rewrite E.
    + destruct Hc as [Hth0 Hdy]. destruct (Ht t th Hth0) as (Hz & Hmg & Hp). split; [done|]. split; [done|].
      unfold place in Hp |- *. ksimp.
      destruct (status th) eqn:Es; [done| |done|].
      * destruct Hp as [[Hin|Hidl] Hct]; (split; [|done]); [|by right]. left. unfold next_of in E.
        destruct (ready_list k); [by apply elem_of_nil in Hin|]. simpl. apply elem_of_cons in Hin as [|]; [done|done].
      * destruct Hp as [->|[_ ->]]; [by left|]. left. by apply Hdy.
  - intros t [= <-]. eexists. split; [by apply switched_next|done].
  - split; [by destruct (ready_list k); [|apply list.NoDup_cons in Hnd as [_ ?]]|].
    intros t Hin. destruct (next_not_tail k t Hw Hin) as [Hne Hin']. destruct (Hl t Hin') as (Hti & th & Hth & Hst).
    split; [done|]. exists th. split; [|done]. apply switched_keep; try done. congruence.
  - intros s sm Hsm. destruct (Hs s sm Hsm) as (Hv & Hnds & Hw'). split; [done|]. split; [done|].
    intros t Hin. destruct (Hw' t Hin) as (Hti & th & l & a & Hth & Hst & Hct). split; [done|]. exists th, l, a.
    split; [|done]. apply switched_keep; try done; [|congruence]. intros ->.
    rewrite Hn in Hth. injection Hth as ->. destruct Hrd; [congruence|done].
  - destruct (decide (idle_thread k = next_of k)) as [E|E].
    + rewrite E. eexists. split; [by apply switched_next|done].
    + exists ti. split; [|done]. by apply switched_keep.
Qed.

(** ** Changing one thread

    Every operation changes the queues and the fields of one thread; the
    others stay where they are. *)
Lemma winv_update r r' k k' t th' : winv (Some r) k ->
  threads k' = <[t := th']> (threads k) -> idle_thread k' = idle_thread k -> initial_thread k' = initial_thread k ->
  t <> NULL -> magic th' = THREAD_MAGIC -> place r' k' t th' ->
  (r' = Some r \/ (r' = None /\ t = r)) -> (t = r -> r' = Some r -> status th' = THREAD_RUNNING) ->
  (forall u, u <> t -> u ∈ ready_list k -> u ∈ ready_list k') ->
  NoDup (ready_list k') ->
  (forall u, u ∈ ready_list k' -> (u <> t /\ u ∈ ready_list k) \/ (u = t /\ t <> idle_thread k /\ status th' = THREAD_READY)) ->
  (forall u s sm, u <> t -> semas k !! s = Some sm -> u ∈ waiters sm -> exists sm', semas k' !! s = Some sm' /\ u ∈ waiters sm') ->
  (forall s sm', semas k' !! s = Some sm' -> 0 <= value sm' /\ NoDup (waiters sm') /\
     forall u, u ∈ waiters sm' -> (u <> t /\ (exists sm, semas k !! s = Some sm /\ u ∈ waiters sm)) \/
       (u = t /\ t <> idle_thread k /\ status th' = THREAD_BLOCKED /\ exists l a, cont th' = Some (InDown s l a))) ->
  (t = idle_thread k -> status th' <> THREAD_DYING) ->
  winv r' k'.
Proof.
  intros [Ht Hr [Hnd Hl] Hs (ti & Hi & Hid)] Eth Eid Ein Hnull Hmag Hpl Hr' Hst Hq1 Hq2 Hq3 Hs1 Hs2 Hdy.
  split.
  - intros u th. rewrite Eth. destruct (decide (u = t)) as [->|Hne].
    + rewrite lookup_insert_eq. by intros [= <-].
    + rewrite lookup_insert_ne by done. intros Hu. destruct (Ht u th Hu) as (? & ? & Hp). split; [done|]. split; [done|].
      unfold place in Hp |- *. rewrite Eid, Ein. destruct (status th).
      * injection Hp as ->. destruct Hr' as [->|[-> ->]]; done.
      * destruct Hp as [[Hp|Hp] Hc]; (split; [|done]); [left; by apply Hq1|by right].
      * destruct (cont th) as [[]|]; try done. destruct Hp as (sm & Hsm & Hw). by eapply Hs1.
      * destruct Hp as [->|[? _]]; [by left|done].
  - intros u ->. destruct Hr' as [[= ->]|[? _]]; [|done]. rewrite Eth. destruct (decide (r = t)) as [->|Hne].
    + rewrite lookup_insert_eq. eauto.
    + rewrite lookup_insert_ne by done. by apply Hr.
  - split; [done|]. intros u Hu. rewrite Eid, Eth. destruct (Hq3 u Hu) as [[Hne Hin]|(-> & Hni & Hrd)].
    + rewrite lookup_insert_ne by done. by apply Hl.
    + rewrite lookup_insert_eq. eauto.
  - intros s sm' Hsm. destruct (Hs2 s sm' Hsm) as (Hv & Hnd' & Hw). split_and!; [done..|]. intros u Hu.
    unfold waits_for. rewrite Eid, Eth. destruct (Hw u Hu) as [(Hne & sm & Hsm0 & Hin)|(-> & Hni & Hb & l & a & Hc)].
    + destruct (Hs s sm Hsm0) as (_ & _ & Hwf). rewrite lookup_insert_ne by done. by apply Hwf.
    + split; [done|]. rewrite lookup_insert_eq. eauto 10.
  - rewrite Eid, Eth. destruct (decide (idle_thread k = t)) as [<-|Hne].
    + rewrite lookup_insert_eq. eauto.
    + rewrite lookup_insert_ne by done. eauto.
Qed.

Lemma running_ok k : winv (Some (running k)) k -> exists th, threads k !! running k = Some th /\
  status th = THREAD_RUNNING /\ running k <> NULL /\ magic th = THREAD_MAGIC.
Proof.
  intros Hw. destruct (w_run _ _ Hw _ eq_refl) as (th & Hth & Hst). destruct (w_thr _ _ Hw _ _ Hth) as (? & ? & _). eauto.
Qed.

(** A running thread is in no queue. *)
Lemma running_not_queued k : winv (Some (running k)) k -> (running k ∉ ready_list k) /\
  forall s sm, semas k !! s = Some sm -> running k ∉ waiters sm.
Proof.
  intros Hw. destruct (running_ok k Hw) as (th & Hth & Hst & _). split.
  - intros Hin. destruct (w_ready _ _ Hw) as [_ Hl]. destruct (Hl _ Hin) as (_ & th' & Hth' & ?). congruence.
  - intros s sm Hsm Hin. destruct (w_sema _ _ Hw _ _ Hsm) as (_ & _ & H). destruct (H _ Hin) as (_ & th' & ? & ? & ? & ? & _). congruence.
Qed.

(** The running thread parks itself in the ready queue (thread_yield). *)
Definition yielded (c : resume_point) k : kernel :=
  let k1 := if negb (running k =? idle_thread k) then set_ready (ready_list k ++ [running k]) k else k in
  match threads k !! running k with
  | Some th => set_threads (<[running k := set_cont (Some c) (set_status THREAD_READY th)]> (threads k)) k1
  | None => k1
  end.

Lemma yielded_winv k c : winv (Some (running k)) k -> winv None (yielded c k).
Proof.
  intros Hw. destruct (running_ok k Hw) as (th & Hth & Hst & Hn & Hm). destruct (running_not_queued k Hw) as [Hq Hqs].
  unfold yielded. rewrite Hth. pose proof Hw as [_ _ [Hnd _] Hs _].
  assert (forall s sm', semas k !! s = Some sm' -> 0 <= value sm' /\ NoDup (waiters sm') /\
    forall u, u ∈ waiters sm' -> u <> running k /\ (exists sm, semas k !! s = Some sm /\ u ∈ waiters sm)) as Hs'.
  { intros s sm Hsm. destruct (Hs _ _ Hsm) as (? & ? & ?). split_and!; [done..|]. intros u Hu. split; [|by eauto].
    intros ->. by eapply Hqs. }
  destruct (Z.eqb_spec (running k) (idle_thread k)) as [E|E]; ksimp;
    (eapply (winv_update (running k) None k _ (running k)); ksimp;
     [exact Hw|reflexivity..|exact Hn|exact Hm| |by right|done| | | |naive_solver|naive_solver|done]).
  - unfold place. ksimp. split; [by right|done].
  - done.
  - done.
  - naive_solver.
  - unfold place. ksimp. split; [|done]. left. apply elem_of_snoc. by right.
  - intros u Hne Hu. apply elem_of_snoc. by left.
  - by apply NoDup_snoc.
  - intros u [Hu| ->]%elem_of_snoc; [left; split; [by intros ->|done]|by right].
Qed.

(** The running thread parks itself on semaphore [s] (sema_down). *)
Definition parked (s : Z) (sm : semaphore) (l : bool) (a : after) k : kernel :=
  match threads k !! running k with
  | Some th => set_threads (<[running k := set_cont (Some (InDown s l a)) (set_status THREAD_BLOCKED th)]> (threads k))
      (set_semas (<[s := Sema (value sm) (waiters sm ++ [running k])]> (semas k)) k)
  | None => k
  end.

Lemma parked_winv k s sm l a : winv (Some (running k)) k -> running k <> idle_thread k -> semas k !! s = Some sm ->
  winv None (parked s sm l a k).
Proof.
  intros Hw Hi Hsm. destruct (running_ok k Hw) as (th & Hth & Hst & Hn & Hm). destruct (running_not_queued k Hw) as [Hq Hqs].
  unfold parked. rewrite Hth. pose proof Hw as [_ _ [Hnd _] Hs _].
  eapply (winv_update (running k) None k _ (running k)); ksimp;
    [exact Hw|reflexivity..|exact Hn|exact Hm| |by right|done|done|done| | | |done].
  - unfold place. ksimp. rewrite lookup_insert_eq. eexists. split; [done|]. ksimp. apply elem_of_snoc. auto.
  - intros u Hu. left. split; [|done]. by intros ->.
  - intros u s' sm' Hne Hsm' Hin. destruct (decide (s = s')) as [<-|Hs'].
    + rewrite Hsm in Hsm'. injection Hsm' as <-. rewrite lookup_insert_eq. eexists. split; [done|]. ksimp. apply elem_of_snoc. auto.
    + rewrite lookup_insert_ne by done. eauto.
  - intros s' sm' Hsm'. destruct (decide (s = s')) as [<-|Hs'].
    + rewrite lookup_insert_eq in Hsm'. injection Hsm' as <-. ksimp. destruct (Hs _ _ Hsm) as (? & ? & ?). split_and!; [done| |].
      * apply NoDup_snoc; [done|by eapply Hqs].
      * intros u [Hu| ->]%elem_of_snoc; [left|right; by eauto 10]. split; [|by eauto]. intros ->. by eapply Hqs.
    + rewrite lookup_insert_ne in Hsm' by done. destruct (Hs _ _ Hsm') as (? & ? & ?). split_and!; [done..|].
      intros u Hu. left. split; [|by eauto]. intros ->. by eapply Hqs.
Qed.

(** The idle thread parks itself (idle). *)
Definition idled k : kernel :=
  match threads k !! running k with
  | Some th => set_threads (<[running k := set_cont (Some InIdle) (set_status THREAD_BLOCKED th)]> (threads k)) k
  | None => k
  end.

(** The running thread dies (thread_exit). *)
Definition died k : kernel :=
  match threads k !! running k with
  | Some th => set_threads (<[running k := set_status THREAD_DYING th]> (threads k)) k
  | None => k
  end.

(** The waiters of a semaphore other than the running thread. *)
Lemma waiters_stay k : winv (Some (running k)) k ->
  forall s sm', semas k !! s = Some sm' -> 0 <= value sm' /\ NoDup (waiters sm') /\
    forall u, u ∈ waiters sm' -> u <> running k /\ (exists sm, semas k !! s = Some sm /\ u ∈ waiters sm).
Proof.
  intros Hw s sm Hsm. destruct (running_not_queued k Hw) as [Hq Hqs]. destruct (w_sema _ _ Hw _ _ Hsm) as (? & ? & ?).
  split_and!; [done..|]. intros u Hu. split; [|by eauto]. intros ->. by eapply Hqs.
Qed.

Lemma idled_winv k : winv (Some (running k)) k -> running k = idle_thread k -> winv None (idled k).
Proof.
  intros Hw Hi. destruct (running_ok k Hw) as (th & Hth & Hst & Hn & Hm). destruct (running_not_queued k Hw) as [Hq Hqs].
  pose proof (waiters_stay k Hw) as Hs. unfold idled. rewrite Hth. pose proof (proj1 (w_ready _ _ Hw)) as Hnd.
  eapply (winv_update (running k) None k _ (running k)); ksimp;
    [exact Hw|reflexivity..|exact Hn|exact Hm|exact Hi|by right|done|done|done| |naive_solver|naive_solver|done].
  intros u Hu. left. split; [|done]. by intros ->.
Qed.

Lemma died_winv k : winv (Some (running k)) k -> running k <> idle_thread k -> winv None (died k).
Proof.
  intros Hw Hi. destruct (running_ok k Hw) as (th & Hth & Hst & Hn & Hm). destruct (running_not_queued k Hw) as [Hq Hqs].
  pose proof (waiters_stay k Hw) as Hs. unfold died. rewrite Hth. pose proof (proj1 (w_ready _ _ Hw)) as Hnd.
  eapply (winv_update (running k) None k _ (running k)); ksimp;
    [exact Hw|reflexivity..|exact Hn|exact Hm|by right|by right|done|done|done| |naive_solver|naive_solver|done].
  intros u Hu. left. split; [|done]. by intros ->.
Qed.

(** The running thread changes other fields of itself. *)
Lemma self_winv k th th' : winv (Some (running k)) k -> threads k !! running k = Some th ->
  status th' = status th -> magic th' = magic th -> winv (Some (running k)) (set_threads (<[running k := th']> (threads k)) k).
Proof.
  intros Hw Hth Es Em. destruct (running_ok k Hw) as (th0 & Hth0 & Hst & Hn & Hm). destruct (running_not_queued k Hw) as [Hq Hqs].
  rewrite Hth in Hth0. injection Hth0 as <-. rewrite Hst in Es. rewrite Hm in Em.
  pose proof (waiters_stay k Hw) as Hs. pose proof (proj1 (w_ready _ _ Hw)) as Hnd.
  eapply (winv_update (running k) _ k _ (running k)); ksimp;
    [exact Hw|reflexivity..|exact Hn|exact Em| |by left|done|done|done| |naive_solver|naive_solver|congruence].
  - unfold place. by rewrite Es.
  - intros u Hu. left. split; [|done]. by intros ->.
Qed.

(** A semaphore changes its value, or a new one appears. *)
Lemma sema_winv k s v : winv (Some (running k)) k -> 0 <= v ->
  winv (Some (running k)) (set_semas (<[s := Sema v (from_option waiters [] (semas k !! s))]> (semas k)) k).
Proof.
  intros Hw Hv. destruct (running_ok k Hw) as (th & Hth & Hst & Hn & Hm). destruct (running_not_queued k Hw) as [Hq Hqs].
  pose proof (waiters_stay k Hw) as Hs. pose proof (proj1 (w_ready _ _ Hw)) as Hnd.
  eapply (winv_update (running k) _ k _ (running k) th); ksimp;
    [exact Hw|by rewrite insert_id|reflexivity..|exact Hn|exact Hm| |by left|done|done|done| | | |congruence].
  - unfold place. by rewrite Hst.
  - intros u Hu. left. split; [|done]. by intros ->.
  - intros u s' sm Hne Hsm Hin. destruct (decide (s = s')) as [<-|Hs'].
    + rewrite lookup_insert_eq, Hsm. eauto.
    + rewrite lookup_insert_ne by done. eauto.
  - intros s' sm'. destruct (decide (s = s')) as [<-|Hs'].
    + rewrite lookup_insert_eq. intros [= <-]. ksimp. destruct (semas k !! s) as [sm|] eqn:E; simpl.
      * destruct (Hs _ _ E) as (? & ? & Hu). split_and!; [done..|]. intros u Hin. left. rewrite E in Hu. by apply Hu.
      * split_and!; [done|apply NoDup_nil_2|]. intros u Hu%elem_of_nil. done.
    + rewrite lookup_insert_ne by done. intros Hsm. destruct (Hs _ _ Hsm) as (? & ? & Hu). split_and!; [done..|]. auto.
Qed.

(** The first waiter of [s] becomes ready (sema_up, thread_unblock). *)
Definition woken (s : Z) (sm : semaphore) (t : Z) (l : list Z) k : kernel :=
  match threads k !! t with
  | Some th => set_threads (<[t := set_status THREAD_READY th]> (threads k))
      (set_ready (ready_list k ++ [t]) (set_semas (<[s := Sema (value sm) l]> (semas k)) k))
  | None => k
  end.

Lemma waiter_unique k s s' t sm sm' : winv (Some (running k)) k -> semas k !! s = Some sm -> semas k !! s' = Some sm' ->
  t ∈ waiters sm -> t ∈ waiters sm' -> s = s'.
Proof.
  intros Hw Hs Hs' Ht Ht'. destruct (w_sema _ _ Hw _ _ Hs) as (_ & _ & H1). destruct (w_sema _ _ Hw _ _ Hs') as (_ & _ & H2).
  destruct (H1 _ Ht) as (_ & th1 & ? & ? & ? & ? & ?). destruct (H2 _ Ht') as (_ & th2 & ? & ? & ? & ? & ?). congruence.
Qed.

Lemma woken_winv k s sm t l : winv (Some (running k)) k -> semas k !! s = Some sm -> waiters sm = t :: l ->
  winv (Some (running k)) (woken s sm t l k).
Proof.
  intros Hw Hsm Hl. pose proof Hw as [Ht _ [Hnd Hrd] Hs _].
  destruct (Hs _ _ Hsm) as (Hv & Hnds & Hwf). rewrite Hl in Hnds, Hwf. apply list.NoDup_cons in Hnds as [Htl Hndl].
  destruct (Hwf t) as (Hti & th & lv & a & Hth & Hst & Hct); [by left|]. destruct (Ht _ _ Hth) as (Hn & Hm & _).
  destruct (running_ok k Hw) as (thr & Hthr & Hstr & _).
  assert (t ∉ ready_list k) as Hnr. { intros Hin. destruct (Hrd _ Hin) as (_ & th' & ? & ?). congruence. }
  unfold woken. rewrite Hth.
  eapply (winv_update (running k) _ k _ t); ksimp; [exact Hw|reflexivity..|exact Hn|exact Hm| |by left|congruence| |by apply NoDup_snoc| | | |done].
  - unfold place. ksimp. split; [|congruence]. left. apply elem_of_snoc. by right.
  - intros u _ Hu. apply elem_of_snoc. by left.
  - intros u [Hu| ->]%elem_of_snoc; [left; split; [by intros ->|done]|by right].
  - intros u s' sm' Hne Hsm' Hin. destruct (decide (s = s')) as [<-|Hs'].
    + rewrite lookup_insert_eq. rewrite Hsm in Hsm'. injection Hsm' as <-. rewrite Hl in Hin. apply elem_of_cons in Hin as [?|Hin]; [done|eauto].
    + rewrite lookup_insert_ne by done. eauto.
  - intros s' sm'. destruct (decide (s = s')) as [<-|Hs'].
    + rewrite lookup_insert_eq. intros [= <-]. ksimp. split_and!; [done..|]. intros u Hu. left. split; [by intros ->|].
      exists sm. split; [done|]. rewrite Hl. by right.
    + rewrite lookup_insert_ne by done. intros Hsm'. destruct (Hs _ _ Hsm') as (? & ? & ?). split_and!; [done..|]. intros u Hu. left.
      split; [|by eauto]. intros ->. apply Hs'. eapply (waiter_unique k s s' t); [done..| |done]. rewrite Hl. by left.
Qed.

(** Fields that the invariant does not read. *)
Lemma winv_same r k k' : winv r k -> threads k' = threads k -> running k' = running k -> ready_list k' = ready_list k ->
  idle_thread k' = idle_thread k -> initial_thread k' = initial_thread k -> semas k' = semas k -> winv r k'.
Proof.
  intros [Ht Hr Hq Hs Hi] E1 E2 E3 E4 E5 E6. split; unfold place, waits_for in *; rewrite ?E1, ?E2, ?E3, ?E4, ?E5, ?E6; auto.
Qed.

(** A new thread enters the ready queue (thread_create). *)
Lemma created_winv k k' t th : winv (Some (running k)) k -> threads k !! t = None -> t <> NULL ->
  status th = THREAD_READY -> magic th = THREAD_MAGIC -> cont th <> None ->
  threads k' = <[t := th]> (threads k) -> running k' = running k -> ready_list k' = ready_list k ++ [t] ->
  idle_thread k' = idle_thread k -> initial_thread k' = initial_thread k -> semas k' = semas k ->
  winv (Some (running k')) k'.
Proof.
  intros Hw Hnew Hn Hst Hm Hc E1 E2 E3 E4 E5 E6. pose proof Hw as [Ht _ [Hnd Hrd] Hs (ti & Hi & _)].
  destruct (running_ok k Hw) as (thr & Hthr & Hstr & _).
  assert (t ∉ ready_list k) as Hnr. { intros Hin. destruct (Hrd _ Hin) as (_ & th' & ? & ?). congruence. }
  assert (t <> idle_thread k) as Hti by (intros ->; congruence).
  eapply (winv_update (running k) _ k _ t); [exact Hw|exact E1|exact E4|exact E5|exact Hn|exact Hm| |left; by rewrite E2|congruence| | | | | |done].
  - unfold place. rewrite Hst, E3, E4. split; [|done]. left. apply elem_of_snoc. by right.
  - rewrite E3. intros u _ Hu. apply elem_of_snoc. by left.
  - rewrite E3. by apply NoDup_snoc.
  - rewrite E3. intros u [Hu| ->]%elem_of_snoc; [left; split; [by intros ->|done]|by right].
  - rewrite E6. eauto.
  - rewrite E6. intros s sm Hsm. destruct (Hs _ _ Hsm) as (? & ? & Hwf). split_and!; [done..|]. intros u Hu. left. split; [|by eauto].
    intros ->. destruct (Hwf _ Hu) as (_ & th' & ? & ? & ? & _). congruence.
Qed.
End invariant.
