(* ===== verification/SchedOps.v ===== *)
(** * Every scheduling operation keeps the invariant

    A weakest-precondition reading of the operations of Thread.v, the
    invariant of the whole scheduling state (queues, interrupt flag, time
    slice, locks, condition variables), and, operation by operation, that
    it runs without a failed assertion from the states its comment allows
    and keeps the invariant.  [grows] and [pops] record what an operation
    does to the ready queue; SchedLive.v counts with them. *)

From S2P Require Import Prelude Memory Wp Thread Sched.

Section wp.
Implicit Types (k : kernel).

Lemma wp_deref {A} (m : kernel -> gmap Z A) p x Q k : m k !! p = Some x -> Q x k -> wp (deref m p) Q k.
Proof. unfold wp, deref. by intros ->. Qed.
Lemma wp_on_thread t th f Q k : threads k !! t = Some th ->
  Q tt (set_threads (<[t := f th]> (threads k)) k) -> wp (on_thread t f) Q k.
Proof. intros H HQ. apply wp_bind. eapply wp_deref; [exact H|]. by apply wp_modify. Qed.
Lemma wp_on_sema s sm f Q k : semas k !! s = Some sm ->
  Q tt (set_semas (<[s := f sm]> (semas k)) k) -> wp (on_sema s f) Q k.
Proof. intros H HQ. apply wp_bind. eapply wp_deref; [exact H|]. by apply wp_modify. Qed.

(** The running thread is intact. *)
Definition cur_ok k (th : thread) : Prop :=
  threads k !! running k = Some th /\ status th = THREAD_RUNNING /\ magic th = THREAD_MAGIC /\ running k <> NULL.

Lemma wp_is_thread t th Q k : threads k !! t = Some th -> t <> NULL -> magic th = THREAD_MAGIC -> Q true k -> wp (is_thread t) Q k.
Proof. intros H Hn Hm HQ. unfold wp, is_thread. rewrite (proj2 (Z.eqb_neq _ _)) by done. by rewrite H, Hm. Qed.

Lemma wp_current th Q k : cur_ok k th -> Q (running k) k -> wp thread_current Q k.
Proof.
  intros (Hth & Hst & Hm & Hn) HQ. apply wp_bind, wp_gets, wp_bind. eapply wp_is_thread; [done..|].
  apply wp_bind, wp_assert; [done|]. apply wp_bind. eapply wp_deref; [done|].
  apply wp_bind, wp_assert; [by apply bool_decide_eq_true|]. by apply wp_ret.
Qed.

Lemma wp_disable Q k : Q (intr_on k) (set_intr false k) -> wp intr_disable Q k.
Proof. done. Qed.
Lemma wp_enable Q k : in_external_intr k = false -> Q (intr_on k) (set_intr true k) -> wp intr_enable Q k.
Proof. intros H HQ. unfold wp, intr_enable. kunfold. by rewrite H. Qed.
Lemma wp_set_level l Q k : in_external_intr k = false -> Q (intr_on k) (set_intr l k) -> wp (intr_set_level l) Q k.
Proof. destruct l; [apply wp_enable|by intros]. Qed.

Lemma wp_schedule Q k : winv None k -> intr_on k = false -> is_Some (threads k !! running k) -> Q tt (scheduled k) -> wp schedule Q k.
Proof. intros Hw Hi Hr HQ. unfold wp. by rewrite schedule_run. Qed.
End wp.

(** Symbolic execution of the administrative steps. *)
Ltac wstep :=
  lazymatch goal with
  | |- wp (_ ≫= _) _ _ => apply wp_bind
  | |- wp (mret _) _ _ => apply wp_ret
  | |- wp (gets _) _ _ => apply wp_gets
  | |- wp running_thread _ _ => apply wp_gets
  | |- wp intr_get_level _ _ => apply wp_gets
  | |- wp intr_context _ _ => apply wp_gets
  | |- wp (modify _) _ _ => apply wp_modify
  | |- wp intr_disable _ _ => apply wp_disable
  | |- wp thread_current _ _ => eapply wp_current; [eassumption|]
  | |- wp (kassert_st _) _ _ => apply wp_assert; [done|]
  end; cbv beta; ksimp.

(** ** The invariant *)

Section inv.
Implicit Types (k : kernel).

Definition lock_semaphore k (s : Z) : Prop := exists l lk, locks k !! l = Some lk /\ lock_sema lk = s.

(** What a parked thread relies on when it continues. *)
Definition cont_ok k (t : Z) (c : option resume_point) : Prop :=
  match c with
  | Some (InDown s _ a) =>
      t <> idle_thread k /\ is_Some (semas k !! s) /\
      match a with
      | Return => ~ lock_semaphore k s
      | TakeLock l => exists lk, locks k !! l = Some lk /\ lock_sema lk = s /\ holder lk <> Some t
      | Reacquire l => ~ lock_semaphore k s /\ exists lk, locks k !! l = Some lk /\ holder lk <> Some t
      end
  | Some InIdle => t = idle_thread k
  | _ => True
  end.

(** The semaphore of a lock is 1 when the lock is free and 0 when it is
    held.  [o] is the lock between the change of its semaphore and the
    change of its holder. *)
Definition lock_value (o : option Z) (l : Z) (lk : lock) : Z :=
  match holder lk with Some _ => 0 | None => if decide (o = Some l) then 0 else 1 end.

Record linv (o : option Z) k : Prop := {
  l_sema : forall l lk, locks k !! l = Some lk ->
    lock_sema lk <> NULL /\ exists sm, semas k !! lock_sema lk = Some sm /\ value sm = lock_value o l lk;
  l_inj : forall l l' lk lk', locks k !! l = Some lk -> locks k !! l' = Some lk' -> lock_sema lk = lock_sema lk' -> l = l';
  l_cont : forall t th, threads k !! t = Some th -> cont_ok k t (cont th);
  l_cond : forall c ws w, conds k !! c = Some ws -> w ∈ ws -> w <> NULL /\ is_Some (semas k !! w) /\ ~ lock_semaphore k w
}.

Record inv (o : option Z) k : Prop := {
  i_w : winv (Some (running k)) k;
  i_l : linv o k;
  i_ext : in_external_intr k = false;
  i_ticks : 0 <= thread_ticks k < TIME_SLICE;
  i_off : forall th, threads k !! running k = Some th -> cont th <> None -> intr_on k = false
}.

(** The running thread executes its own code: it is not about to return
    from schedule (). *)
Definition user k : Prop := exists th, cur_ok k th /\ cont th = None.

(** What an operation does to the ready queue: threads only join at the
    tail, or the thread at the head gets the CPU with a new time slice. *)
Definition grows k k' : Prop :=
  running k' = running k /\ thread_ticks k' = thread_ticks k /\ exists l, ready_list k' = ready_list k ++ l.
Definition pops k k' : Prop :=
  thread_ticks k' = 0 /\ exists l, match ready_list k ++ l with [] => True | t :: q => running k' = t /\ ready_list k' = q end.

Lemma grows_refl k : grows k k.
Proof. split_and!; [done..|]. exists []. by rewrite app_nil_r. Qed.
Lemma grows_trans k1 k2 k3 : grows k1 k2 -> grows k2 k3 -> grows k1 k3.
Proof. intros (E1 & E2 & l & E3) (F1 & F2 & l' & F3). split_and!; [congruence..|]. exists (l ++ l'). by rewrite F3, E3, app_assoc. Qed.
Lemma grows_pops k1 k2 k3 : grows k1 k2 -> pops k2 k3 -> pops k1 k3.
Proof. intros (E1 & E2 & l & E3) (F1 & l' & F2). split; [done|]. exists (l ++ l'). by rewrite app_assoc, <- E3. Qed.

Lemma inv_cur o k : inv o k -> exists th, cur_ok k th.
Proof. intros H. destruct (running_ok k (i_w _ _ H)) as (th & ? & ? & ? & ?). by exists th. Qed.

(** [linv] does not read statuses, queues or the interrupt flag. *)
Lemma linv_same o k k' : linv o k -> locks k' = locks k -> conds k' = conds k -> idle_thread k' = idle_thread k ->
  (forall t th', threads k' !! t = Some th' -> (exists th, threads k !! t = Some th /\ cont th' = cont th) \/ cont_ok k t (cont th')) ->
  (forall s, is_Some (semas k !! s) -> is_Some (semas k' !! s)) ->
  (forall s, lock_semaphore k s -> value <$> (semas k' !! s) = value <$> (semas k !! s)) -> linv o k'.
Proof.
  intros [Hs Hi Hc Hd] El Ec Ei Ht Hsome Hv.
  assert (forall t c, cont_ok k t c -> cont_ok k' t c) as Hcont.
  { intros t c. unfold cont_ok, lock_semaphore. rewrite El, Ei. destruct c as [[]|]; [done|done| |done|done]. naive_solver. }
  split; unfold lock_semaphore; rewrite ?El, ?Ec; [|done| |].
  - intros l lk Hl. destruct (Hs l lk Hl) as (Hn & sm & Hsm & Hval). split; [done|].
    specialize (Hv (lock_sema lk) ltac:(by exists l, lk)). rewrite Hsm in Hv. destruct (semas k' !! lock_sema lk) as [sm'|]; [|done]. exists sm'. injection Hv as Hv. by rewrite Hv.
  - intros t th' Hth'. destruct (Ht t th' Hth') as [(th & Hth & ->)|?]; apply Hcont; eauto.
  - intros c ws w Hc' Hw. destruct (Hd c ws w Hc' Hw) as (? & ? & ?). auto.
Qed.

(** schedule () from a state in which the running thread has parked. *)
Lemma wp_switch o k : winv None k -> linv o k -> intr_on k = false -> in_external_intr k = false ->
  is_Some (threads k !! running k) -> wp schedule (fun _ k' => inv o k' /\ pops k k') k.
Proof.
  intros Hw Hl Hi He Hr. apply wp_schedule; [done..|]. split; [split|].
  - by apply schedule_winv.
  - eapply linv_same; [exact Hl|done..| |done|done]. intros t th Hth. left. pose proof (lookup_switched k t th Hw Hr Hth) as H.
    case_decide; [|naive_solver]. destruct H as (th0 & ? & ->). eauto.
  - done.
  - unfold TIME_SLICE. simpl. lia.
  - by intros.
  - split; [done|]. exists []. rewrite app_nil_r. unfold scheduled, next_of. ksimp. by destruct (ready_list k).
Qed.

(** The postcondition of an operation started in [k0]. *)
Definition done_from k0 : unit -> kernel -> Prop := fun _ k' => inv None k' /\ (grows k0 k' \/ pops k0 k').

Lemma linv_values o k m : linv o k -> (forall s, value <$> (m !! s) = value <$> (semas k !! s)) -> linv o (set_semas m k).
Proof.
  intros Hl Hv. eapply linv_same; [exact Hl|done..| | |by intros]; [by eauto|]. intros s. ksimp. rewrite <- !(fmap_is_Some value). by rewrite Hv.
Qed.

Lemma linv_thread o k t th : linv o k -> cont_ok k t (cont th) -> linv o (set_threads (<[t := th]> (threads k)) k).
Proof.
  intros Hl Hc. eapply linv_same; [exact Hl|done..| |done|done]. ksimp. intros u th'. destruct (decide (t = u)) as [<-|Hne].
  - rewrite lookup_insert_eq. intros [= <-]. by right.
  - rewrite lookup_insert_ne by done. eauto.
Qed.

(** The loop of sema_down blocks: the thread parks and another runs. *)
Lemma wp_down_block s sm l a fin Q k : inv None k -> intr_on k = false -> semas k !! s = Some sm -> value sm = 0 ->
  cont_ok k (running k) (Some (InDown s l a)) ->
  (winv None (parked s sm l a k) -> inv None (scheduled (parked s sm l a k)) -> pops k (scheduled (parked s sm l a k)) ->
   Q tt (scheduled (parked s sm l a k))) ->
  wp (down_loop s l a fin) Q k.
Proof.
  intros Hinv Hi Hs E Hc HQ. unfold down_loop. wstep. eapply wp_deref; [done|]. rewrite E, Z.eqb_refl.
  destruct (inv_cur _ _ Hinv) as [th Hth]. pose proof Hth as (Hrun & Hst & Hm & Hn). repeat wstep.
  eapply wp_on_sema; [done|]. unfold thread_block. repeat wstep. apply wp_assert; [by rewrite (i_ext _ _ Hinv)|]. repeat wstep.
  apply wp_assert; [by rewrite Hi|]. repeat wstep. eapply wp_on_thread; [exact Hrun|]. ksimp.
  assert (winv None (parked s sm l a k)) as Hw by (apply parked_winv; [apply Hinv|apply Hc|done]).
  assert (linv None (parked s sm l a k)) as Hl.
  { unfold parked. rewrite Hrun. apply (linv_values None (set_threads _ k)); [apply linv_thread; [apply Hinv|done]|]. intros s'. ksimp.
    destruct (decide (s = s')) as [<-|Hs']; [rewrite lookup_insert_eq; ksimp; by rewrite Hs|by rewrite lookup_insert_ne]. }
  specialize (HQ Hw). unfold parked in Hw, Hl, HQ. rewrite Hrun in Hw, Hl, HQ.
  match type of Hw with winv None ?x => pose proof (wp_switch None x Hw Hl Hi (i_ext _ _ Hinv)) as Hsw; assert (is_Some (threads x !! running x)) as Hr end.
  { ksimp. rewrite lookup_insert_eq. eauto. }
  specialize (Hsw Hr). unfold wp in Hsw |- *. rewrite schedule_run in Hsw |- * by done. destruct Hsw. auto.
Qed.

Lemma wp_down_loop s sm l a fin Q k : inv None k -> intr_on k = false -> semas k !! s = Some sm ->
  cont_ok k (running k) (Some (InDown s l a)) ->
  (forall k', inv None k' -> pops k k' -> Q tt k') ->
  (value sm <> 0 -> wp fin Q (set_intr l (set_semas (<[s := Sema (value sm - 1) (waiters sm)]> (semas k)) k))) ->
  wp (down_loop s l a fin) Q k.
Proof.
  intros Hinv Hi Hs Hc Hblock Hfin. destruct (Z.eqb_spec (value sm) 0) as [E|E].
  - eapply wp_down_block; eauto.
  - unfold down_loop. wstep. eapply wp_deref; [done|]. rewrite (proj2 (Z.eqb_neq _ _)) by done. repeat wstep.
    eapply wp_on_sema; [done|]. ksimp. wstep. apply wp_set_level; [apply Hinv|]. by apply Hfin.
Qed.

(** ** Operations that do not block *)

Lemma user_cur k : user k -> exists th, cur_ok k th.
Proof. intros (th & H & _). eauto. Qed.

Lemma inv_intr o k b : inv o k -> user k -> inv o (set_intr b k).
Proof.
  intros [Hw Hl He Ht Hoff] (th & (Hth & _) & Hc). split; [by eapply winv_same|by eapply linv_same; eauto|done..|].
  ksimp. intros th' Hth'. congruence.
Qed.

(** [k'] is [k] with the value of [s] set to [v]; waiting threads may
    have become ready. *)
Record sema_set (s v : Z) k k' : Prop := {
  ss_locks : locks k' = locks k;
  ss_conds : conds k' = conds k;
  ss_idle : idle_thread k' = idle_thread k;
  ss_cont : forall t, cont <$> (threads k' !! t) = cont <$> (threads k !! t);
  ss_value : forall s', value <$> (semas k' !! s') = if decide (s = s') then Some v else value <$> (semas k !! s')
}.

Lemma sema_set_some s v k k' s' : sema_set s v k k' -> is_Some (semas k !! s') -> is_Some (semas k' !! s').
Proof. intros H Hs. apply (fmap_is_Some value). rewrite (ss_value _ _ _ _ H). case_decide; [done|by apply fmap_is_Some]. Qed.

Lemma sema_set_cont s v k k' t th' : sema_set s v k k' -> threads k' !! t = Some th' -> exists th, threads k !! t = Some th /\ cont th' = cont th.
Proof.
  intros H Ht. pose proof (ss_cont _ _ _ _ H t) as Hc. rewrite Ht in Hc. destruct (threads k !! t) as [th|]; [|done].
  exists th. split; [done|]. by injection Hc.
Qed.

Lemma linv_other o s v k k' : linv o k -> ~ lock_semaphore k s -> sema_set s v k k' -> linv o k'.
Proof.
  intros Hl Hs H. eapply linv_same; [exact Hl|apply H..| | |].
  - intros t th' Ht. left. by eapply sema_set_cont.
  - intros s'. by apply (sema_set_some _ _ _ _ _ H).
  - intros s' Hs'. rewrite (ss_value _ _ _ _ H). by case_decide; subst.
Qed.

(** The semaphore of lock [l] changes from what [o] calls for to what
    [o'] calls for. *)
Lemma linv_lock_sema o o' l lk v k k' : linv o k -> locks k !! l = Some lk -> v = lock_value o' l lk ->
  (forall l' lk', l' <> l -> lock_value o l' lk' = lock_value o' l' lk') ->
  sema_set (lock_sema lk) v k k' -> linv o' k'.
Proof.
  intros [Hs Hi Hc Hd] Hlk -> Ho H. split; unfold cont_ok, lock_semaphore in *;
    rewrite ?(ss_locks _ _ _ _ H), ?(ss_conds _ _ _ _ H), ?(ss_idle _ _ _ _ H); [|done| |].
  - intros l' lk' Hl'. destruct (Hs l' lk' Hl') as (Hn & sm & Hsm & Hv). split; [done|].
    pose proof (ss_value _ _ _ _ H (lock_sema lk')) as Hval. rewrite Hsm in Hval. destruct (semas k' !! lock_sema lk') as [sm'|]; [|by case_decide].
    exists sm'. split; [done|]. case_decide as E.
    + pose proof (Hi _ _ _ _ Hlk Hl' E) as <-. rewrite Hlk in Hl'. injection Hl' as <-. by injection Hval.
    + injection Hval as Hval. rewrite Hval, Hv. apply Ho. intros ->. congruence.
  - intros t th' Ht. destruct (sema_set_cont _ _ _ _ _ _ H Ht) as (th & Hth & ->). specialize (Hc t th Hth).
    destruct (cont th) as [[| |s l' a|]|]; [done|done| |done|done].
    destruct Hc as (? & ? & Ha). split_and!; [done|by eapply sema_set_some|exact Ha].
  - intros c ws w Hc' Hw. destruct (Hd c ws w Hc' Hw) as (? & ? & ?). split_and!; [done| |done]. by eapply sema_set_some.
Qed.

Lemma lock_value_other o l l' lk : l' <> l -> o = None \/ o = Some l -> lock_value o l' lk = lock_value None l' lk.
Proof. intros Hne Ho. unfold lock_value. destruct (holder lk); [done|]. rewrite !decide_False; naive_solver. Qed.

Lemma lock_semaphore_holder k l lk h s : locks k !! l = Some lk ->
  lock_semaphore (set_locks (<[l := Lock h (lock_sema lk)]> (locks k)) k) s <-> lock_semaphore k s.
Proof.
  intros Hl. unfold lock_semaphore. ksimp. split; intros (l' & lk' & Hl' & Hs).
  - destruct (decide (l = l')) as [<-|Hne].
    + rewrite lookup_insert_eq in Hl'. injection Hl' as <-. eauto.
    + rewrite lookup_insert_ne in Hl' by done. eauto.
  - exists l'. destruct (decide (l = l')) as [<-|Hne].
    + rewrite lookup_insert_eq. eexists. split; [done|]. rewrite Hl in Hl'. by injection Hl' as <-.
    + rewrite lookup_insert_ne by done. eauto.
Qed.

(** The holder of lock [l] changes, to nobody or to a thread that is not
    parked. *)
Lemma linv_holder o o' l lk h k : linv o k -> locks k !! l = Some lk ->
  lock_value o l lk = lock_value o' l (Lock h (lock_sema lk)) ->
  (forall l' lk', l' <> l -> lock_value o l' lk' = lock_value o' l' lk') ->
  (forall t th, threads k !! t = Some th -> h = Some t -> cont th = None) ->
  linv o' (set_locks (<[l := Lock h (lock_sema lk)]> (locks k)) k).
Proof.
  intros [Hs Hi Hc Hd] Hlk Hv Ho Hh. pose proof (fun s => lock_semaphore_holder k l lk h s Hlk) as Hls.
  assert (forall l' lk', <[l:=Lock h (lock_sema lk)]> (locks k) !! l' = Some lk' ->
    exists lk0, locks k !! l' = Some lk0 /\ lock_sema lk' = lock_sema lk0 /\ lock_value o' l' lk' = lock_value o l' lk0) as Hold.
  { intros l' lk'. destruct (decide (l = l')) as [<-|Hne].
    - rewrite lookup_insert_eq. intros [= <-]. eauto.
    - rewrite lookup_insert_ne by done. intros Hl'. exists lk'. split_and!; [done..|]. symmetry. by apply Ho. }
  assert (forall t l', (h = Some t -> False) -> (exists lk0, locks k !! l' = Some lk0 /\ holder lk0 <> Some t) ->
    exists lk0, <[l:=Lock h (lock_sema lk)]> (locks k) !! l' = Some lk0 /\ holder lk0 <> Some t) as Hkeep.
  { intros t l' Ht (lk0 & Hl0 & Hh0). destruct (decide (l = l')) as [<-|Hne].
    - rewrite lookup_insert_eq. eexists. split; [done|exact Ht].
    - rewrite lookup_insert_ne by done. eauto. }
  split.
  - ksimp. intros l' lk' Hl'. destruct (Hold _ _ Hl') as (lk0 & Hl0 & -> & ->). by apply Hs.
  - ksimp. intros l1 l2 lk1 lk2 H1 H2 E. destruct (Hold _ _ H1) as (a & Ha & Ea & _). destruct (Hold _ _ H2) as (b & Hb & Eb & _).
    eapply Hi; [exact Ha|exact Hb|congruence].
  - intros t th Hth. pose proof (Hc t th Hth) as Hok. pose proof (Hh t th Hth) as Hht. ksimp.
    destruct (cont th) as [[| |s l' a|]|]; [done|done| |done|done]. destruct Hok as (? & ? & Ha). split_and!; [done..|].
    destruct a as [|l0|l0].
    + by rewrite Hls.
    + destruct Ha as (lk0 & Hl0 & E0 & Hh0). ksimp. destruct (decide (l = l0)) as [<-|Hne].
      * rewrite lookup_insert_eq. eexists. split; [done|]. rewrite Hlk in Hl0. injection Hl0 as <-. split; [done|]. ksimp. intros E. by specialize (Hht E).
      * rewrite lookup_insert_ne by done. eauto.
    + rewrite Hls. destruct Ha as [? Ha]. split; [done|]. ksimp. apply Hkeep; [|done]. intros E. by specialize (Hht E).
  - intros c ws w Hcw Hw. rewrite Hls. by eapply Hd.
Qed.

(** sema_up on a semaphore with a waiter or without. *)
Definition upped (s : Z) (sm : semaphore) k : kernel :=
  match waiters sm with
  | [] => set_semas (<[s := Sema (u32 (value sm + 1)) []]> (semas k)) k
  | t :: l => let k1 := woken s sm t l k in set_semas (<[s := Sema (u32 (value sm + 1)) l]> (semas k1)) k1
  end.

Lemma upped_grows s sm k : grows k (upped s sm k).
Proof.
  unfold upped, woken. destruct (waiters sm) as [|t l]; [|destruct (threads k !! t)]; split_and!; try done; ksimp.
  - exists []. by rewrite app_nil_r.
  - by exists [t].
  - exists []. by rewrite app_nil_r.
Qed.

Lemma upped_winv s sm k : winv (Some (running k)) k -> semas k !! s = Some sm -> winv (Some (running k)) (upped s sm k).
Proof.
  intros Hw Hs. unfold upped. pose proof (proj1 (u32_range (value sm + 1))) as Hv. destruct (waiters sm) as [|t l] eqn:E.
  - pose proof (sema_winv k s _ Hw Hv) as H. rewrite Hs in H. simpl in H. by rewrite E in H.
  - assert (running (woken s sm t l k) = running k) as Er by (unfold woken; by destruct (threads k !! t)).
    destruct (w_sema _ _ Hw _ _ Hs) as (_ & _ & Hwf). rewrite E in Hwf. destruct (Hwf t) as (_ & th & _ & _ & Hth & _); [by left|].
    pose proof (woken_winv k s sm t l Hw Hs E) as H1. rewrite <- Er in H1. pose proof (sema_winv _ s _ H1 Hv) as H2. cbv zeta. rewrite Er in H2.
    unfold woken in H2 |- *. rewrite Hth in H2 |- *. ksimp. cbn [semas set_threads set_ready set_semas] in H2. rewrite lookup_insert_eq in H2. exact H2.
Qed.

Lemma upped_set s sm k : winv (Some (running k)) k -> semas k !! s = Some sm -> sema_set s (u32 (value sm + 1)) k (upped s sm k).
Proof.
  intros Hw Hs. unfold upped. destruct (waiters sm) as [|t l] eqn:E.
  - split; [done..|]. intros s'. ksimp. case_decide; [subst; by rewrite lookup_insert_eq|by rewrite lookup_insert_ne].
  - destruct (w_sema _ _ Hw _ _ Hs) as (_ & _ & Hwf). rewrite E in Hwf. destruct (Hwf t) as (_ & th & _ & _ & Hth & _); [by left|].
    unfold woken. rewrite Hth. split; ksimp; [done..| |].
    + intros t'. destruct (decide (t = t')) as [<-|]; [by rewrite lookup_insert_eq, Hth|by rewrite lookup_insert_ne].
    + intros s'. case_decide; [subst; by rewrite lookup_insert_eq|by rewrite !lookup_insert_ne].
Qed.

Lemma wp_unblock t th Q k : threads k !! t = Some th -> t <> NULL -> magic th = THREAD_MAGIC -> status th = THREAD_BLOCKED ->
  in_external_intr k = false ->
  Q tt (set_threads (<[t := set_status THREAD_READY th]> (threads k)) (set_ready (ready_list k ++ [t]) k)) ->
  wp (thread_unblock t) Q k.
Proof.
  intros Hth Hn Hm Hst He HQ. unfold thread_unblock. wstep. eapply wp_is_thread; [done..|]. repeat wstep.
  eapply wp_deref; [exact Hth|]. wstep. apply wp_assert; [by apply bool_decide_eq_true|]. repeat wstep.
  eapply wp_on_thread; [exact Hth|]. repeat wstep. apply wp_set_level; [exact He|]. wstep. exact HQ.
Qed.

Lemma wp_sema_up s sm Q k : winv (Some (running k)) k -> semas k !! s = Some sm -> s <> NULL -> in_external_intr k = false ->
  Q tt (upped s sm k) -> wp (sema_up s) Q k.
Proof.
  intros Hw Hs Hn He HQ. unfold sema_up. wstep. apply wp_assert; [by rewrite (proj2 (Z.eqb_neq _ _))|]. repeat wstep.
  eapply wp_deref; [exact Hs|]. unfold upped in HQ. destruct (waiters sm) as [|t l] eqn:E.
  - repeat wstep. eapply wp_on_sema; [exact Hs|]. wstep. apply wp_set_level; [done|]. wstep. by rewrite E.
  - destruct (w_sema _ _ Hw _ _ Hs) as (_ & _ & Hwf). rewrite E in Hwf. destruct (Hwf t) as (_ & th & _ & _ & Hth & Hst & _); [by left|].
    destruct (w_thr _ _ Hw _ _ Hth) as (Htn & Hm & _).
    repeat wstep. eapply wp_on_sema; [exact Hs|]. ksimp. eapply wp_unblock; [exact Hth|done..|]. repeat wstep.
    eapply wp_on_sema; [apply lookup_insert_eq|]. wstep. apply wp_set_level; [done|]. wstep. unfold woken in HQ. by rewrite Hth in HQ.
Qed.

(** What a change of a semaphore by the running thread keeps. *)
Lemma inv_sema_set o o' s v k k' : inv o k -> user k -> winv (Some (running k)) k' -> linv o' k' -> sema_set s v k k' -> grows k k' ->
  in_external_intr k' = false -> inv o' k' /\ user k'.
Proof.
  intros Hi (th & (Hth & Hst & Hm & Hn) & Hc) Hw Hl Hs (Er & Et & Hq) He.
  assert (user k') as Hu.
  { rewrite <- Er in Hw. destruct (running_ok k' Hw) as (th' & Hth' & ? & ? & ?).
    destruct (sema_set_cont _ _ _ _ _ _ Hs Hth') as (th0 & Hth0 & Ec). exists th'. split; [done|]. rewrite Er in Hth0. congruence. }
  split; [|done]. destruct Hu as (th' & (Hth' & _) & Hc'). split; [by rewrite Er|done|done|rewrite Et; apply Hi|]. intros ? ?. congruence.
Qed.

Lemma upped_inv o o' s sm k : inv o k -> user k -> semas k !! s = Some sm ->
  (forall k', sema_set s (u32 (value sm + 1)) k k' -> linv o' k') -> inv o' (upped s sm k) /\ user (upped s sm k).
Proof.
  intros Hi Hu Hs Hl. pose proof (i_w _ _ Hi) as Hw. pose proof (upped_set s sm k Hw Hs) as Hset.
  eapply inv_sema_set; [exact Hi|exact Hu|by apply upped_winv|by apply Hl|exact Hset|apply upped_grows|].
  pose proof (i_ext _ _ Hi) as He. unfold upped, woken. destruct (waiters sm); [done|]. by destruct (threads k !! _).
Qed.

(** A semaphore takes a new value, with the same waiters. *)
Lemma valued_inv o o' s v k : inv o k -> user k -> 0 <= v ->
  (forall k', sema_set s v k k' -> linv o' k') ->
  let k' := set_semas (<[s := Sema v (from_option waiters [] (semas k !! s))]> (semas k)) k in inv o' k' /\ user k'.
Proof.
  intros Hi Hu Hv Hl. pose proof (i_w _ _ Hi) as Hw. cbv zeta.
  assert (sema_set s v k (set_semas (<[s := Sema v (from_option waiters [] (semas k !! s))]> (semas k)) k)) as Hset.
  { split; [done..|]. intros s'. ksimp. case_decide; [subst; by rewrite lookup_insert_eq|by rewrite lookup_insert_ne]. }
  eapply inv_sema_set; [exact Hi|exact Hu|by apply sema_winv|by apply Hl|exact Hset| |apply Hi].
  split_and!; [done..|]. exists []. by rewrite app_nil_r.
Qed.
End inv.
