(* ===== verification/SchedSafe.v ===== *)
(** * No assertion of the scheduler fails

    The operations of thread.c and synch.c as the requests a running
    thread makes, the conditions under which their comments allow them,
    and the steps of the machine: a request, a timer interrupt, or the
    continuation of a thread that schedule () returned to.  Every step
    from a state that satisfies the invariant runs to the end and gives
    such a state. *)

From S2P Require Import Prelude Memory Wp Thread Sched SchedOps.

Section blocking.
Implicit Types (k : kernel).

Lemma done_mono k k0 u k' : grows k0 k -> done_from k u k' -> done_from k0 u k'.
Proof.
  intros Hg [Hi [H|H]]; (split; [done|]); [left; by eapply grows_trans|right; by eapply grows_pops].
Qed.

Lemma grows_same k k' : running k' = running k -> thread_ticks k' = thread_ticks k -> ready_list k' = ready_list k -> grows k k'.
Proof. intros E1 E2 E3. split_and!; [done..|]. exists []. by rewrite app_nil_r. Qed.

(** Taking one unit of a semaphore that is not a lock's. *)
Lemma taken_inv s sm k : inv None k -> user k -> semas k !! s = Some sm -> value sm <> 0 -> ~ lock_semaphore k s ->
  let k' := set_semas (<[s := Sema (value sm - 1) (waiters sm)]> (semas k)) k in inv None k' /\ user k'.
Proof.
  intros Hi Hu Hs Hv Hn. destruct (w_sema _ _ (i_w _ _ Hi) _ _ Hs) as (Hv0 & _).
  pose proof (valued_inv None None s (value sm - 1) k Hi Hu ltac:(lia)) as H. rewrite Hs in H. apply H.
  intros k' Hk'. eapply linv_other; [apply Hi|done|done].
Qed.

(** Taking the semaphore of a free lock; the holder is set next. *)
Lemma taken_lock_inv l lk sm k : inv None k -> user k -> locks k !! l = Some lk -> semas k !! lock_sema lk = Some sm -> value sm <> 0 ->
  let k' := set_semas (<[lock_sema lk := Sema (value sm - 1) (waiters sm)]> (semas k)) k in
  inv (Some l) k' /\ user k' /\ holder lk = None.
Proof.
  intros Hi Hu Hlk Hs Hv. destruct (l_sema _ _ (i_l _ _ Hi) _ _ Hlk) as (_ & sm' & Hs' & Hval). rewrite Hs in Hs'. injection Hs' as <-.
  assert (holder lk = None) as Hh by (unfold lock_value in Hval; by destruct (holder lk)).
  assert (value sm = 1) as E1 by (unfold lock_value in Hval; by rewrite Hh in Hval).
  pose proof (valued_inv None (Some l) (lock_sema lk) (value sm - 1) k Hi Hu ltac:(lia)) as H. rewrite Hs in H. cbv zeta.
  refine ((fun x => conj (proj1 x) (conj (proj2 x) Hh)) (H _)).
  intros k' Hk'. eapply linv_lock_sema; [apply Hi|exact Hlk| | |exact Hk'].
  - unfold lock_value. rewrite Hh, decide_True by done. lia.
  - intros l' lk' Hne. symmetry. eapply lock_value_other; [done|by right].
Qed.

(** The running thread becomes the holder. *)
Lemma held_inv l lk k : inv (Some l) k -> user k -> locks k !! l = Some lk -> holder lk = None ->
  inv None (set_locks (<[l := Lock (Some (running k)) (lock_sema lk)]> (locks k)) k).
Proof.
  intros [Hw Hl He Ht Ho] (th & (Hth & _) & Hc) Hlk Hh. split; [by eapply winv_same| |done|done|done].
  eapply linv_holder; [exact Hl|exact Hlk| | |].
  - unfold lock_value. by rewrite Hh, decide_True.
  - intros l' lk' Hne. eapply lock_value_other; [done|by right].
  - intros t th' Hth' [= <-]. congruence.
Qed.

Lemma wp_take_lock l lk k Q : user k -> locks k !! l = Some lk ->
  Q tt (set_locks (<[l := Lock (Some (running k)) (lock_sema lk)]> (locks k)) k) -> wp (take_lock l) Q k.
Proof.
  intros (th & Hth & _) Hlk HQ. unfold take_lock, set_holder. repeat wstep. eapply wp_deref; [exact Hlk|]. wstep. exact HQ.
Qed.

Lemma wp_held l lk k Q : user k -> locks k !! l = Some lk -> Q (bool_decide (holder lk = Some (running k))) k ->
  wp (lock_held_by_current_thread l) Q k.
Proof.
  intros (th & Hth & _) Hlk HQ. unfold lock_held_by_current_thread. wstep. eapply wp_deref; [exact Hlk|]. repeat wstep. exact HQ.
Qed.

(** Down to [finish] for a thread that does not wait for a lock again. *)
Lemma wp_down_direct s l a k : inv None k -> user k -> intr_on k = false ->
  cont_ok k (running k) (Some (InDown s l a)) -> match a with Reacquire _ => False | _ => True end ->
  wp (down_loop s l a (finish a)) (done_from k) k.
Proof.
  intros Hi Hu Hoff Hc Ha. pose proof Hc as (_ & [sm Hs] & Hx). eapply wp_down_loop; [done..| |].
  - intros k' Hk' Hp. split; [done|by right].
  - intros Hv. destruct a as [|lk|lk]; [| |done]; simpl.
    + wstep. destruct (taken_inv s sm k) as [Hi' Hu']; [done..|]. split; [by apply inv_intr|left; by apply grows_same].
    + destruct Hx as (lkr & Hlk & <- & _). destruct (taken_lock_inv lk lkr sm k) as (Hi' & Hu' & Hh); [done..|].
      eapply wp_take_lock; [done|exact Hlk|]. split; [|left; by apply grows_same].
      apply (held_inv lk lkr (set_intr l (set_semas _ k))); [by apply inv_intr|done..].
Qed.

Lemma wp_down_enter s a fin k : s <> NULL -> in_external_intr k = false ->
  wp (down_loop s (intr_on k) a fin) (done_from (set_intr false k)) (set_intr false k) -> wp (down_enter s a fin) (done_from k) k.
Proof.
  intros Hn He H. unfold down_enter. wstep. apply wp_assert; [by rewrite (proj2 (Z.eqb_neq _ _))|]. repeat wstep.
  apply wp_assert; [by rewrite He|]. repeat wstep. eapply wp_mono; [exact H|]. intros. eapply done_mono; [|done]. by apply grows_same.
Qed.

Lemma cont_ok_intr k t c b : cont_ok k t c -> cont_ok (set_intr b k) t c.
Proof. done. Qed.

Lemma wp_sema_down s k : inv None k -> user k -> s <> NULL -> is_Some (semas k !! s) -> ~ lock_semaphore k s -> running k <> idle_thread k ->
  wp (sema_down s) (done_from k) k.
Proof.
  intros Hi Hu Hn Hs Hl Hr. apply wp_down_enter; [done|apply Hi|]. apply (wp_down_direct s _ Return); [by apply inv_intr|done..].
Qed.

Lemma wp_lock_acquire l lk k : inv None k -> user k -> locks k !! l = Some lk -> holder lk <> Some (running k) -> running k <> idle_thread k ->
  wp (lock_acquire l) (done_from k) k.
Proof.
  intros Hi Hu Hlk Hh Hr. destruct (l_sema _ _ (i_l _ _ Hi) _ _ Hlk) as (Hn & sm & Hs & _).
  unfold lock_acquire. repeat wstep. apply wp_assert; [by rewrite (i_ext _ _ Hi)|]. wstep. eapply wp_held; [done..|]. wstep.
  apply wp_assert; [by rewrite bool_decide_eq_false_2|]. wstep. eapply wp_deref; [exact Hlk|].
  apply wp_down_enter; [done|apply Hi|]. apply (wp_down_direct (lock_sema lk) _ (TakeLock l)); [by apply inv_intr|done|done| |done].
  split_and!; [done|by eauto|]. exists lk. done.
Qed.

(** The loop of sema_down and what follows it, for every continuation. *)
Lemma wp_down_after s l a k : inv None k -> user k -> intr_on k = false ->
  cont_ok k (running k) (Some (InDown s l a)) -> wp (down_loop s l a (finish a)) (done_from k) k.
Proof.
  intros Hi Hu Hoff Hc. destruct a as [|lk|lk]; [by apply wp_down_direct..|]. pose proof Hc as (Hr & [sm Hs] & Hn & lkr & Hlk & Hh).
  eapply wp_down_loop; [done..| |].
  - intros k' Hk' Hp. split; [done|by right].
  - intros Hv. destruct (taken_inv s sm k) as [Hi' Hu']; [done..|]. simpl.
    eapply wp_mono; [eapply (wp_lock_acquire lk lkr); [by apply inv_intr|done..]|]. intros. eapply done_mono; [|done]. by apply grows_same.
Qed.

(** ** The other requests *)

(** The running thread keeps the CPU and stays in its own code. *)
Definition stay_from k : unit -> kernel -> Prop := fun _ k' => inv None k' /\ user k' /\ grows k k'.

Lemma stay_done k u k' : stay_from k u k' -> done_from k u k'.
Proof. intros (? & ? & ?). split; [done|by left]. Qed.

Lemma wp_up s k : inv None k -> user k -> s <> NULL -> is_Some (semas k !! s) -> ~ lock_semaphore k s ->
  wp (sema_up s) (stay_from k) k.
Proof.
  intros Hi Hu Hn [sm Hs] Hl. eapply wp_sema_up; [apply Hi|exact Hs|done|apply Hi|].
  destruct (upped_inv None None s sm k) as [Hi' Hu']; [done..| |].
  - intros k' Hk'. eapply linv_other; [apply Hi|done..].
  - split_and!; [done..|apply upped_grows].
Qed.

Lemma wp_try_down s sm k Q : s <> NULL -> semas k !! s = Some sm -> in_external_intr k = false ->
  (value sm <= 0 -> Q false k) ->
  (0 < value sm -> Q true (set_semas (<[s := Sema (value sm - 1) (waiters sm)]> (semas k)) k)) -> wp (sema_try_down s) Q k.
Proof.
  intros Hn Hs He Hno Hyes. unfold sema_try_down. wstep. apply wp_assert; [by rewrite (proj2 (Z.eqb_neq _ _))|]. repeat wstep.
  eapply wp_deref; [exact Hs|]. wstep. destruct (Z.ltb_spec 0 (value sm)).
  - eapply wp_on_sema; [exact Hs|]. wstep. apply wp_set_level; [done|]. wstep. by apply Hyes.
  - repeat wstep. apply wp_set_level; [done|]. wstep. destruct k. by apply Hno.
Qed.

Lemma wp_sema_try_down s k : inv None k -> user k -> s <> NULL -> is_Some (semas k !! s) -> ~ lock_semaphore k s ->
  wp (sema_try_down s) (fun _ => stay_from k tt) k.
Proof.
  intros Hi Hu Hn [sm Hs] Hl. eapply wp_try_down; [done|exact Hs|apply Hi| |].
  - intros _. split_and!; [done..|apply grows_refl].
  - intros Hv. destruct (taken_inv s sm k) as [Hi' Hu']; [done..|lia|done|]. split_and!; [done..|by apply grows_same].
Qed.

Lemma wp_lock_try_acquire l lk k : inv None k -> user k -> locks k !! l = Some lk -> holder lk <> Some (running k) ->
  wp (lock_try_acquire l) (fun _ => stay_from k tt) k.
Proof.
  intros Hi Hu Hlk Hh. destruct (l_sema _ _ (i_l _ _ Hi) _ _ Hlk) as (Hn & sm & Hs & _). unfold lock_try_acquire. wstep.
  eapply wp_held; [done..|]. wstep. apply wp_assert; [by rewrite bool_decide_eq_false_2|]. wstep. eapply wp_deref; [exact Hlk|]. wstep.
  eapply wp_try_down; [done|exact Hs|apply Hi| |].
  - intros _. wstep. split_and!; [done..|apply grows_refl].
  - intros Hv. destruct (taken_lock_inv l lk sm k) as (Hi' & Hu' & Hh0); [done..|lia|]. wstep.
    eapply wp_take_lock; [done|exact Hlk|]. wstep. split_and!; [|done|by apply grows_same].
    by apply (held_inv l lk (set_semas _ k)).
Qed.

(** The holder gives the lock up. *)
Lemma released_inv l lk k : inv None k -> user k -> locks k !! l = Some lk -> holder lk = Some (running k) ->
  let k' := set_locks (<[l := Lock None (lock_sema lk)]> (locks k)) k in inv (Some l) k' /\ user k'.
Proof.
  intros [Hw Hl He Ht Ho] Hu Hlk Hh. split; [|done]. split; [by eapply winv_same| |done|done|done].
  eapply linv_holder; [exact Hl|exact Hlk| |intros l' lk' Hne; symmetry; eapply lock_value_other; [done|by right]|done].
  unfold lock_value. by rewrite Hh, decide_True.
Qed.

Lemma wp_lock_release l lk k : inv None k -> user k -> locks k !! l = Some lk -> holder lk = Some (running k) ->
  wp (lock_release l) (fun u k' => stay_from k u k' /\ conds k' = conds k /\ running k' = running k /\
    (forall s, is_Some (semas k !! s) -> is_Some (semas k' !! s)) /\ (forall s, lock_semaphore k' s -> lock_semaphore k s) /\
    idle_thread k' = idle_thread k /\
    (exists lk', locks k' !! l = Some lk' /\ holder lk' = None)) k.
Proof.
  intros Hi Hu Hlk Hh. destruct (l_sema _ _ (i_l _ _ Hi) _ _ Hlk) as (Hn & sm & Hs & Hv).
  destruct (released_inv l lk k) as [Hi1 Hu1]; [done..|]. unfold lock_release. wstep. eapply wp_held; [done..|]. wstep.
  apply wp_assert; [by apply bool_decide_eq_true|]. unfold set_holder. repeat wstep. eapply wp_deref; [exact Hlk|]. repeat wstep.
  eapply wp_deref; [ksimp; apply lookup_insert_eq|].
  match type of Hi1 with inv _ ?x => set (k1 := x) in * end.
  eapply wp_sema_up; [apply Hi1|exact Hs|done|apply Hi|]. ksimp.
  pose proof (upped_set (lock_sema lk) sm k1 (i_w _ _ Hi1) Hs) as Hset. pose proof (upped_grows (lock_sema lk) sm k1) as Hg.
  destruct (upped_inv (Some l) None (lock_sema lk) sm k1) as [Hi' Hu']; [done..| |].
  { intros k' Hk'. eapply (linv_lock_sema (Some l) None l (Lock None (lock_sema lk))); [apply Hi1|apply lookup_insert_eq| |
      intros l' lk' Hne; eapply lock_value_other; [done|by right]|exact Hk'].
    unfold lock_value in Hv |- *. rewrite Hh in Hv. rewrite Hv. done. }
  split; [split_and!; [done..|]|].
  { eapply grows_trans; [|exact Hg]. by apply grows_same. }
  split_and!.
  - apply (ss_conds _ _ _ _ Hset).
  - apply Hg.
  - intros s Hs'. by eapply (sema_set_some _ _ _ _ _ Hset).
  - intros s. unfold lock_semaphore. rewrite (ss_locks _ _ _ _ Hset). apply lock_semaphore_holder, Hlk.
  - apply (ss_idle _ _ _ _ Hset).
  - rewrite (ss_locks _ _ _ _ Hset). eexists. split; [apply lookup_insert_eq|done].
Qed.

Lemma wp_sema_init s v k : inv None k -> user k -> s <> NULL -> 0 <= v -> ~ lock_semaphore k s -> from_option waiters [] (semas k !! s) = [] ->
  wp (sema_init s v) (fun u k' => stay_from k u k' /\ k' = set_semas (<[s := Sema v []]> (semas k)) k) k.
Proof.
  intros Hi Hu Hn Hv Hl Hw. unfold sema_init. wstep. apply wp_assert; [by rewrite (proj2 (Z.eqb_neq _ _))|]. wstep. split; [|done].
  destruct (valued_inv None None s v k Hi Hu Hv) as [Hi' Hu'].
  { intros k' Hk'. eapply linv_other; [apply Hi|done..]. }
  rewrite Hw in Hi', Hu'. split_and!; [done..|by apply grows_same].
Qed.

Lemma linv_new_lock l s k : linv None k -> locks k !! l = None -> semas k !! s = None -> s <> NULL ->
  linv None (set_semas (<[s := Sema 1 []]> (semas k)) (set_locks (<[l := Lock None s]> (locks k)) k)).
Proof.
  intros [Hs Hi Hc Hd] Hl Hsm Hn.
  assert (forall l' lk', <[l:=Lock None s]> (locks k) !! l' = Some lk' -> (l' = l /\ lk' = Lock None s) \/
    (l' <> l /\ locks k !! l' = Some lk' /\ lock_sema lk' <> s)) as Hold.
  { intros l' lk' Hl'. destruct (decide (l = l')) as [<-|Hne].
    - rewrite lookup_insert_eq in Hl'. injection Hl' as <-. by left.
    - rewrite lookup_insert_ne in Hl' by done. right. split_and!; [done..|]. intros E. destruct (Hs _ _ Hl') as (_ & sm & Hsm' & _). congruence. }
  set (k' := set_semas _ _).
  assert (forall w, is_Some (semas k !! w) -> ~ lock_semaphore k w -> is_Some (semas k' !! w) /\ ~ lock_semaphore k' w) as Hother.
  { intros w Hw Hnl. assert (s <> w) as Hne by (intros ->; rewrite Hsm in Hw; by destruct Hw).
    split; [unfold k'; ksimp; by rewrite lookup_insert_ne|]. intros (l' & lk' & Hl' & E). apply Hold in Hl' as [[-> ->]|(_ & Hl' & _)]; [done|].
    apply Hnl. by exists l', lk'. }
  split.
  - unfold k'. ksimp. intros l' lk' [[-> ->]|(Hne & Hl' & Hne')]%Hold; ksimp.
    + split; [done|]. rewrite lookup_insert_eq. eauto.
    + rewrite lookup_insert_ne by done. by apply Hs.
  - unfold k'. ksimp. intros l1 l2 lk1 lk2 [[-> ->]|(? & H1 & N1)]%Hold [[-> ->]|(? & H2 & N2)]%Hold E; [done|done|done|]. by eapply Hi.
  - unfold k' at 1. ksimp. intros t th Hth. specialize (Hc t th Hth). destruct (cont th) as [[| |s' l' a|]|]; [done|done| |done|done].
    destruct Hc as (Hti & Hsome & Ha).
    assert (forall l0 lk, locks k !! l0 = Some lk -> locks k' !! l0 = Some lk) as Hlk.
    { intros l0 lk Hl0. unfold k'. ksimp. rewrite lookup_insert_ne; [done|]. intros <-. congruence. }
    split; [done|]. split; [|destruct a as [|l0|l0]].
    + unfold k'. ksimp. rewrite lookup_insert_ne; [done|]. intros <-. rewrite Hsm in Hsome. by destruct Hsome.
    + by apply Hother.
    + destruct Ha as (lk & Hl0 & ? & ?). eauto.
    + destruct Ha as (Hnl & lk & Hl0 & ?). split; [by apply Hother|eauto].
  - intros c ws w Hcw Hw. destruct (Hd c ws w Hcw Hw) as (? & ? & ?). split; [done|by apply Hother].
Qed.

Lemma wp_lock_init l s k : inv None k -> user k -> l <> NULL -> s <> NULL -> locks k !! l = None -> semas k !! s = None ->
  wp (lock_init l s) (stay_from k) k.
Proof.
  intros Hi Hu Hl Hs Hlk Hsm. unfold lock_init. wstep. apply wp_assert; [by rewrite (proj2 (Z.eqb_neq _ _))|]. repeat wstep.
  unfold sema_init. wstep. apply wp_assert; [by rewrite (proj2 (Z.eqb_neq _ _))|]. wstep. split_and!; [|done|by apply grows_same].
  split; [|by apply linv_new_lock; [apply Hi|..]|apply Hi..].
  eapply winv_same; [apply (sema_winv k s 1); [apply Hi|lia]|..]; try reflexivity. ksimp. by rewrite Hsm.
Qed.

(** The waiters of a condition variable change. *)
Lemma conds_inv c ws k : inv None k -> user k ->
  (forall w, w ∈ ws -> w <> NULL /\ is_Some (semas k !! w) /\ ~ lock_semaphore k w) ->
  stay_from k tt (set_conds (<[c := ws]> (conds k)) k).
Proof.
  intros Hi Hu Hws. split_and!; [|done|by apply grows_same]. pose proof Hi as [Hw [Hs Hj Hc Hd] He Ht Ho].
  split; [by eapply winv_same| |done..]. split; [done..|]. ksimp. intros c' ws' w Hc' Hw'.
  destruct (decide (c = c')) as [<-|Hne].
  - rewrite lookup_insert_eq in Hc'. injection Hc' as <-. by apply Hws.
  - rewrite lookup_insert_ne in Hc' by done. by eapply Hd.
Qed.

Lemma wp_cond_init c k : inv None k -> user k -> c <> NULL -> wp (cond_init c) (stay_from k) k.
Proof.
  intros Hi Hu Hc. unfold cond_init. wstep. apply wp_assert; [by rewrite (proj2 (Z.eqb_neq _ _))|]. wstep.
  apply conds_inv; [done..|]. by intros w ?%elem_of_nil.
Qed.

Lemma wp_cond_wait c l w ws lk k : inv None k -> user k -> locks k !! l = Some lk -> holder lk = Some (running k) ->
  conds k !! c = Some ws -> w <> NULL -> ~ lock_semaphore k w -> from_option waiters [] (semas k !! w) = [] -> running k <> idle_thread k ->
  wp (cond_wait c l w) (done_from k) k.
Proof.
  intros Hi Hu Hlk Hh Hc Hw Hnl Hws Hr. unfold cond_wait. repeat wstep. apply wp_assert; [by rewrite (i_ext _ _ Hi)|]. wstep.
  eapply wp_held; [done..|]. wstep. apply wp_assert; [by apply bool_decide_eq_true|]. wstep.
  eapply wp_mono; [apply (wp_sema_init w 0); done|]. intros [] k1 [(Hi1 & Hu1 & Hg1) E1]. wstep.
  assert (conds k1 !! c = Some ws) as Hc1 by (by subst). eapply wp_deref; [exact Hc1|]. repeat wstep.
  destruct (conds_inv c (ws ++ [w]) k1) as (Hi2 & Hu2 & Hg2); [done..| |].
  { intros w' [Hin| ->]%elem_of_snoc; [by eapply (l_cond _ _ (i_l _ _ Hi1))|]. split; [done|]. split; [|by subst]. subst k1. ksimp.
    by rewrite lookup_insert_eq. }
  eapply wp_mono; [apply (wp_lock_release l lk); [done|done|by subst|by subst]|].
  intros [] k3 ((Hi3 & Hu3 & Hg3) & Ec & Er & Hse & Hls & Eid & lk' & Hlk' & Hh').
  assert (grows k k3) as Hg by exact (grows_trans _ _ _ Hg1 (grows_trans _ _ _ Hg2 Hg3)).
  eapply wp_mono; [apply wp_down_enter; [done|apply Hi3|]|intros; by eapply done_mono].
  apply (wp_down_after w _ (Reacquire l)); [by apply inv_intr|done|done|]. split_and!.
  - ksimp. rewrite Er, Eid. by subst k1.
  - apply Hse. subst k1. ksimp. by rewrite lookup_insert_eq.
  - intros Hl. apply Hnl. by subst k1; apply Hls.
  - exists lk'. split; [done|]. by rewrite Hh'.
Qed.

Lemma wp_cond_signal c l ws lk k : inv None k -> user k -> locks k !! l = Some lk -> holder lk = Some (running k) -> conds k !! c = Some ws ->
  wp (cond_signal c l) (fun u k' => stay_from k u k' /\ locks k' = locks k /\ is_Some (conds k' !! c)) k.
Proof.
  intros Hi Hu Hlk Hh Hc. unfold cond_signal. repeat wstep. apply wp_assert; [by rewrite (i_ext _ _ Hi)|]. wstep.
  eapply wp_held; [done..|]. wstep. apply wp_assert; [by apply bool_decide_eq_true|]. wstep. eapply wp_deref; [exact Hc|].
  pose proof (fun w H => l_cond _ _ (i_l _ _ Hi) c ws w Hc H) as Hws. destruct ws as [|w ws']; repeat wstep.
  - split; [|by eauto]. split_and!; [done..|apply grows_refl].
  - destruct (conds_inv c ws' k) as (Hi1 & Hu1 & Hg1); [done..|intros w' Hw'; apply Hws; by right|].
    destruct (Hws w) as (Hn & [sm Hs] & Hnl); [by left|]. eapply wp_sema_up; [apply Hi1|exact Hs|done|apply Hi|].
    match type of Hi1 with inv _ ?x => set (k1 := x) in * end.
    pose proof (upped_set w sm k1 (i_w _ _ Hi1) Hs) as Hset.
    destruct (upped_inv None None w sm k1) as [Hi' Hu']; [done..|intros k' Hk'; eapply linv_other; [apply Hi1|done..]|].
    split; [split_and!; [done..|eapply grows_trans; [exact Hg1|apply upped_grows]]|split].
    + by rewrite (ss_locks _ _ _ _ Hset).
    + rewrite (ss_conds _ _ _ _ Hset). unfold k1. ksimp. rewrite lookup_insert_eq. eauto.
Qed.

Lemma wp_broadcast_loop n c l lk k : inv None k -> user k -> locks k !! l = Some lk -> holder lk = Some (running k) -> is_Some (conds k !! c) ->
  wp (broadcast_loop n c l) (stay_from k) k.
Proof.
  revert k. induction n as [|n IH]; intros k Hi Hu Hlk Hh [ws Hc]; cbn [broadcast_loop].
  - wstep. split_and!; [done..|apply grows_refl].
  - wstep. eapply wp_mono; [by eapply wp_cond_signal|]. intros [] k1 ((Hi1 & Hu1 & Hg1) & El & Hc1).
    eapply wp_mono; [apply IH; [done..|by rewrite El|by rewrite (proj1 Hg1)|done]|]. intros u k2 (? & ? & ?). split_and!; [done..|by eapply grows_trans].
Qed.

Lemma wp_cond_broadcast c l lk k : inv None k -> user k -> locks k !! l = Some lk -> holder lk = Some (running k) -> is_Some (conds k !! c) ->
  wp (cond_broadcast c l) (stay_from k) k.
Proof.
  intros Hi Hu Hlk Hh Hc. pose proof Hc as [ws Hws]. unfold cond_broadcast. wstep. eapply wp_deref; [exact Hws|]. by eapply wp_broadcast_loop.
Qed.

(** ** Threads *)

Lemma wp_thread_yield iret k : winv (Some (running k)) k -> linv None k -> in_external_intr k = false -> user k ->
  wp (thread_yield iret) (fun _ k' => inv None k' /\ pops k k') k.
Proof.
  intros Hw0 Hl0 He Hu. pose proof Hu as (th & Hth & Hc). pose proof Hth as (Hrun & Hst & Hm & Hn). unfold thread_yield. repeat wstep.
  apply wp_assert; [by rewrite He|]. repeat wstep.
  assert (winv (Some (running k)) (set_intr false k)) as Hw1 by (by eapply winv_same).
  assert (linv None (set_intr false k)) as Hl1 by (by eapply linv_same; eauto).
  pose proof (yielded_winv (set_intr false k) (InYield (intr_on k) iret) Hw1) as Hw.
  assert (linv None (yielded (InYield (intr_on k) iret) (set_intr false k))) as Hl.
  { unfold yielded. ksimp. rewrite Hrun.
    assert (linv None (if negb (running k =? idle_thread k) then set_ready (ready_list k ++ [running k]) (set_intr false k) else set_intr false k)) as H.
    { destruct (negb _); [by eapply linv_same; [apply Hl1|..]; eauto|apply Hl1]. }
    destruct (negb (running k =? idle_thread k)); exact (linv_thread None _ (running k) (set_cont (Some (InYield (intr_on k) iret)) (set_status THREAD_READY th)) H I). }
  unfold yielded in Hw, Hl. ksimp. cbn [threads running set_intr] in Hw, Hl. rewrite Hrun in Hw, Hl.
  destruct (negb (running k =? idle_thread k)) eqn:E; repeat wstep; (eapply wp_on_thread; [exact Hrun|]); cbv beta.
  - cbn [idle_thread set_intr] in Hw, Hl. rewrite E in Hw, Hl.
    eapply wp_mono; [eapply wp_switch; [exact Hw|exact Hl|done|done|]|].
    + ksimp. rewrite lookup_insert_eq. eauto.
    + intros [] k' [? Hp]. split; [done|]. eapply grows_pops; [|exact Hp]. split_and!; [done..|by exists [running k]].
  - cbn [idle_thread set_intr] in Hw, Hl. rewrite E in Hw, Hl.
    eapply wp_mono; [eapply wp_switch; [exact Hw|exact Hl|done|done|]|].
    + ksimp. rewrite lookup_insert_eq. eauto.
    + intros [] k' [? Hp]. split; [done|]. eapply grows_pops; [|exact Hp]. by apply grows_same.
Qed.

Lemma wp_thread_exit k : inv None k -> user k -> running k <> idle_thread k -> wp thread_exit (fun _ k' => inv None k' /\ pops k k') k.
Proof.
  intros Hi Hu Hr. pose proof Hu as (th & Hth & Hc). pose proof Hth as (Hrun & Hst & Hm & Hn). unfold thread_exit. repeat wstep.
  apply wp_assert; [by rewrite (i_ext _ _ Hi)|]. repeat wstep. eapply wp_on_thread; [exact Hrun|]. ksimp.
  pose proof (died_winv k (i_w _ _ Hi) Hr) as Hw. unfold died in Hw. rewrite Hrun in Hw.
  eapply wp_mono; [eapply wp_switch; [eapply winv_same; [exact Hw|done..]| |done|apply Hi|ksimp; rewrite lookup_insert_eq; by eauto]|].
  - eapply (linv_same None (set_threads (<[running k := set_status THREAD_DYING th]> (threads k)) k)); [|done..| |done|done]; [|by eauto].
    apply linv_thread; [apply Hi|]. ksimp. by rewrite Hc.
  - intros [] k' [? Hp]. split; [done|]. eapply grows_pops; [|exact Hp]. by apply grows_same.
Qed.

Lemma wp_idle_loop k : inv None k -> user k -> running k = idle_thread k -> wp idle_loop (fun _ k' => inv None k' /\ pops k k') k.
Proof.
  intros Hi Hu Hr. pose proof Hu as (th & Hth & Hc). pose proof Hth as (Hrun & Hst & Hm & Hn). unfold idle_loop, thread_block. repeat wstep.
  apply wp_assert; [by rewrite (i_ext _ _ Hi)|]. repeat wstep. eapply wp_on_thread; [exact Hrun|]. ksimp.
  pose proof (idled_winv k (i_w _ _ Hi) Hr) as Hw. unfold idled in Hw. rewrite Hrun in Hw.
  eapply wp_mono; [eapply wp_switch; [eapply winv_same; [exact Hw|done..]| |done|apply Hi|ksimp; rewrite lookup_insert_eq; by eauto]|].
  - apply (linv_thread None (set_intr false k)); [by apply inv_intr|]. exact Hr.
  - intros [] k' [? Hp]. split; [done|]. eapply grows_pops; [|exact Hp]. by apply grows_same.
Qed.

Lemma wp_frame t th n Q k : threads k !! t = Some th -> t <> NULL -> magic th = THREAD_MAGIC -> n mod 4 = 0 ->
  Q tt (set_threads (<[t := push_stack n th]> (threads k)) k) -> wp (alloc_frame t n) Q k.
Proof.
  intros Hth Ht Hm Hn HQ. unfold alloc_frame. wstep. eapply wp_is_thread; [done..|]. repeat wstep. apply wp_assert; [by apply Z.eqb_eq|].
  by eapply wp_on_thread.
Qed.

(** The thread that thread_create adds. *)
Definition new_thread (t : Z) (nm : list Z) (pri n : Z) : thread :=
  Thread n THREAD_READY (take 15 nm) (t + PGSIZE - KERNEL_FRAME - ENTRY_FRAME - SWITCH_FRAME) pri THREAD_MAGIC false (Some InKernelThread).

Lemma wp_thread_create t nm pri k : inv None k -> user k -> t <> NULL -> threads k !! t = None -> PRI_MIN <= pri <= PRI_MAX ->
  wp (thread_create (Some t) nm pri) (fun n k' => n = next_tid k /\ threads k' !! t = Some (new_thread t nm pri n) /\ stay_from k tt k') k.
Proof.
  intros Hi Hu Ht Hnew Hpri. pose proof Hu as (th & Hth & Hc). pose proof Hth as (Hrun & Hst & Hm & Hn).
  assert (t <> running k) as Hne by (intros ->; congruence).
  unfold thread_create, init_thread, allocate_tid. repeat wstep. apply wp_assert; [by rewrite (proj2 (Z.eqb_neq _ _))|]. repeat wstep.
  apply wp_assert; [unfold PRI_MIN, PRI_MAX in *; lia|]. repeat wstep.
  eapply wp_on_thread; [apply lookup_insert_eq|]. ksimp; rewrite insert_insert_eq. wstep.
  eapply (wp_current th); [split_and!; ksimp; [by rewrite lookup_insert_ne|done..]|]. repeat wstep.
  do 3 (eapply wp_frame; [apply lookup_insert_eq|done|done|done|]; ksimp; rewrite insert_insert_eq; repeat wstep).
  eapply wp_on_thread; [apply lookup_insert_eq|]. ksimp; rewrite insert_insert_eq. wstep. apply wp_set_level; [apply Hi|]. wstep.
  eapply wp_unblock; [apply lookup_insert_eq|done..|apply Hi|]. ksimp; rewrite insert_insert_eq. ksimp. repeat wstep. split; [done|]. split; [by rewrite lookup_insert_eq|].
  split_and!.
  - split; [|eapply (linv_same None k); [apply Hi|done..| |done|done]|apply Hi..|].
    + eapply (created_winv k _ t (new_thread t nm pri (next_tid k))); [apply Hi|done..].
    + ksimp. intros u th'. destruct (decide (t = u)) as [<-|Hne'].
      * rewrite lookup_insert_eq. intros [= <-]. by right.
      * rewrite lookup_insert_ne by done. eauto.
    + ksimp. intros th'. rewrite lookup_insert_ne by done. intros. congruence.
  - exists th. split; [|done]. split_and!; ksimp; [by rewrite lookup_insert_ne|done..].
  - split_and!; [done..|by exists [t]].
Qed.

Lemma wp_set_priority p k : inv None k -> user k -> wp (thread_set_priority p) (stay_from k) k.
Proof.
  intros Hi Hu. pose proof Hu as (th & Hth & Hc). pose proof Hth as (Hrun & Hst & Hm & Hn). unfold thread_set_priority. repeat wstep.
  eapply wp_on_thread; [exact Hrun|]. split_and!; [|exists (set_pri p th); split; [split_and!; ksimp; [by rewrite lookup_insert_eq|done..]|done]|by apply grows_same].
  pose proof Hi as [Hw Hl He Ht Ho]. split; [by eapply (self_winv k th)|by apply linv_thread; [|ksimp; rewrite Hc]|done..|].
  ksimp. rewrite lookup_insert_eq. by intros ? [= <-].
Qed.

(** ** Interrupts and returns from schedule () *)

Lemma tick_user k : inv None k -> intr_on k = true -> user k.
Proof.
  intros Hi Hon. destruct (inv_cur _ _ Hi) as [th Hth]. exists th. split; [done|]. destruct (cont th) eqn:E; [|done].
  pose proof (i_off _ _ Hi th (proj1 Hth) ltac:(congruence)). congruence.
Qed.

(** The accounting of a tick. *)
Definition ticked k : kernel :=
  let '(i, kt, u) := tick_counts k in
  let th := threads k !! running k in
  set_ticks (thread_ticks k + 1)
    (set_counts (if running k =? idle_thread k then (i + 1, kt, u)
                 else if from_option pagedir false th then (i, kt, u + 1) else (i, kt + 1, u)) k).

Lemma wp_timer_tick k : inv None k -> intr_on k = true ->
  wp timer_tick (fun _ k' => inv None k' /\
    ((thread_ticks k + 1 < TIME_SLICE /\ running k' = running k /\ ready_list k' = ready_list k /\ thread_ticks k' = thread_ticks k + 1) \/
     (thread_ticks k + 1 = TIME_SLICE /\ pops k k'))) k.
Proof.
  intros Hi Hon. pose proof (tick_user k Hi Hon) as Hu. pose proof Hu as (th & Hth & Hc). pose proof Hth as (Hrun & Hst & Hm & Hn).
  pose proof (i_ticks _ _ Hi) as Hticks. unfold timer_tick, thread_tick. repeat wstep.
  apply wp_assert; [by rewrite (i_ext _ _ Hi)|]. repeat wstep. eapply wp_deref; [exact Hrun|]. repeat wstep.
  destruct (tick_counts k) as [[ci ck] cu]. cbv beta iota; ksimp. rewrite u32_small by (unfold TIME_SLICE in Hticks; lia).
  destruct (Z.leb_spec TIME_SLICE (thread_ticks k + 1)) as [E|E].
  - unfold intr_yield_on_return. repeat wstep.
    eapply wp_mono; [apply wp_thread_yield|].
    + eapply winv_same; [apply Hi|reflexivity..].
    + eapply linv_same; [apply Hi|reflexivity..| |done|done]. by eauto.
    + done.
    + done.
    + intros [] k' [? Hp]. split; [done|]. right. split; [unfold TIME_SLICE in *; lia|]. exact Hp.
  - repeat wstep. split; [|left; by split_and!].
    split; [by eapply winv_same; [apply Hi|..]|by eapply linv_same; [apply Hi|..]; eauto|done|ksimp; unfold TIME_SLICE in *; lia|].
    ksimp. intros. congruence.
Qed.

(** The thread that schedule () returned to continues. *)
Lemma wp_resume th k : inv None k -> threads k !! running k = Some th -> cont th <> None -> wp resume (done_from k) k.
Proof.
  intros Hi Hth Hc. pose proof (i_off _ _ Hi th Hth Hc) as Hoff. unfold resume. repeat wstep. eapply wp_deref; [exact Hth|]. wstep.
  eapply wp_on_thread; [exact Hth|].
  match goal with |- wp _ _ ?x => set (k1 := x) end.
  assert (user k1) as Hu1.
  { destruct (inv_cur _ _ Hi) as (th' & Hth' & Hst & Hm & Hn). rewrite Hth in Hth'. injection Hth' as <-. exists (set_cont None th).
    split; [|done]. split_and!; try done. unfold k1. ksimp. by rewrite lookup_insert_eq. }
  assert (inv None k1) as Hi1.
  { pose proof Hi as [Hw Hl He Ht Ho]. split; [by eapply (self_winv k th)|by apply linv_thread|done..]. }
  pose proof (l_cont _ _ (i_l _ _ Hi) _ _ Hth) as Hok. destruct (cont th) as [[|lv iret|s l a|]|]; [| | | |done].
  - wstep. apply wp_enable; [apply Hi|]. wstep. split; [by apply inv_intr|left; by apply grows_same].
  - wstep. apply wp_set_level; [apply Hi|]. destruct iret; wstep; (split; [|left; by apply grows_same]).
    + apply (inv_intr None (set_intr lv k1)); [by apply inv_intr|done].
    + by apply inv_intr.
  - eapply wp_mono; [apply wp_down_after; [done..|exact Hok]|]. intros. eapply done_mono; [|done]. by apply grows_same.
  - wstep. split; [by apply inv_intr|left; by apply grows_same].
Qed.
End blocking.
