(* ===== verification/SchedLive.v ===== *)
(** * The machine that runs the scheduler

    Requests of the running thread, timer interrupts and returns from
    schedule () as events, executions as sequences of events from the
    state in which the kernel starts, and the theorems about them: no
    event fails, every thread is in one queue, locks exclude, and a ready
    thread waits for a bounded number of ticks. *)

From S2P Require Import Prelude Memory Wp Thread Sched SchedOps SchedSafe.

(** What a running thread asks for. *)
Inductive request :=
| Down (s : Z) | TryDown (s : Z) | Up (s : Z) | SemaInit (s v : Z)
| LockInit (l s : Z) | Acquire (l : Z) | TryAcquire (l : Z) | Release (l : Z)
| CondInit (c : Z) | Wait (c l w : Z) | Signal (c l : Z) | Broadcast (c l : Z)
| Create (page : option Z) (nm : list Z) (pri : Z) | SetPriority (p : Z)
| Yield | Exit | Idle | Enable | Disable.

Definition drop_result {A} (m : st kernel A) : st kernel unit := m ≫= fun _ => mret tt.

Definition exec (o : request) : st kernel unit :=
  match o with
  | Down s => sema_down s
  | TryDown s => drop_result (sema_try_down s)
  | Up s => sema_up s
  | SemaInit s v => sema_init s v
  | LockInit l s => lock_init l s
  | Acquire l => lock_acquire l
  | TryAcquire l => drop_result (lock_try_acquire l)
  | Release l => lock_release l
  | CondInit c => cond_init c
  | Wait c l w => cond_wait c l w
  | Signal c l => cond_signal c l
  | Broadcast c l => cond_broadcast c l
  | Create page nm pri => drop_result (thread_create page nm pri)
  | SetPriority p => thread_set_priority p
  | Yield => thread_yield false
  | Exit => thread_exit
  | Idle => idle_loop
  | Enable => drop_result intr_enable
  | Disable => drop_result intr_disable
  end.

(** The semaphore at [s] exists and belongs to no lock. *)
Definition plain_semaphore (k : kernel) (s : Z) : Prop := s <> NULL /\ is_Some (semas k !! s) /\ ~ lock_semaphore k s.
(** Nothing uses the semaphore at [s]. *)
Definition unused_semaphore (k : kernel) (s : Z) : Prop :=
  s <> NULL /\ ~ lock_semaphore k s /\ from_option waiters [] (semas k !! s) = [].
Definition holds (k : kernel) (l : Z) (h : option Z -> Prop) : Prop := exists lk, locks k !! l = Some lk /\ h (holder lk).

(** When the comments of thread.c and synch.c allow a request: objects are
    initialised before they are used, only the holder releases a lock or
    uses a condition variable, the page of a new thread is not in use, and
    the idle thread only blocks in its own loop. *)
Definition allowed (k : kernel) (o : request) : Prop :=
  match o with
  | Down s => plain_semaphore k s /\ running k <> idle_thread k
  | TryDown s | Up s => plain_semaphore k s
  | SemaInit s v => unused_semaphore k s /\ 0 <= v < 2 ^ 32
  | LockInit l s => l <> NULL /\ s <> NULL /\ locks k !! l = None /\ semas k !! s = None
  | Acquire l => holds k l (.≠ Some (running k)) /\ running k <> idle_thread k
  | TryAcquire l => holds k l (.≠ Some (running k))
  | Release l => holds k l (.= Some (running k))
  | CondInit c => c <> NULL
  | Wait c l w => holds k l (.= Some (running k)) /\ is_Some (conds k !! c) /\ unused_semaphore k w /\ running k <> idle_thread k
  | Signal c l | Broadcast c l => holds k l (.= Some (running k)) /\ is_Some (conds k !! c)
  | Create page _ pri => PRI_MIN <= pri <= PRI_MAX /\ match page with Some t => t <> NULL /\ threads k !! t = None | None => True end
  | Exit => running k <> idle_thread k
  | Idle => running k = idle_thread k
  | SetPriority _ | Yield | Enable | Disable => True
  end.

Inductive event := Tick | Continue | Request (o : request).

(** A timer interrupt needs the interrupt flag; a thread that schedule ()
    returned to continues before it makes a request. *)
Definition enabled (k : kernel) (e : event) : Prop :=
  match e with
  | Tick => intr_on k = true
  | Continue => exists th, threads k !! running k = Some th /\ cont th <> None
  | Request o => user k /\ allowed k o
  end.

Definition perform (e : event) : st kernel unit :=
  match e with Tick => timer_tick | Continue => resume | Request o => exec o end.

Inductive path : list event -> kernel -> kernel -> Prop :=
| path_nil k : path [] k k
| path_cons e es k k1 k2 : enabled k e -> perform e k = Ok (tt, k1) -> path es k1 k2 -> path (e :: es) k k2.

(** The state in which the idle thread enters its loop: thread_init and
    thread_start of the main thread, the switch to the idle thread, whose
    page is at [idle], and the beginning of idle (). *)
Definition boot (idle tl ts sem : Z) : st kernel unit :=
  thread_init tl ts ≫= fun _ => thread_start (Some idle) sem ≫= fun _ => resume ≫= fun _ => idle_start sem.
Definition power_on (main : Z) : kernel :=
  Kernel ∅ main [] [] NULL NULL 0 (0, 0, 0) 1 false false false ∅ ∅ ∅.

Definition reachable (k : kernel) : Prop :=
  exists k0 es, boot 8192 100 104 200 (power_on 4096) = Ok (tt, k0) /\ path es k0 k.

Section live.
Implicit Types (k : kernel).

Lemma wp_drop {A} (m : st kernel A) Q k : wp m (fun _ => Q tt) k -> wp (drop_result m) Q k.
Proof. intros H. unfold drop_result. wstep. eapply wp_mono; [exact H|]. done. Qed.

Lemma exec_safe o k : inv None k -> user k -> allowed k o -> wp (exec o) (done_from k) k.
Proof.
  intros Hi Hu. destruct o; cbn [exec allowed].
  - intros [(? & ? & ?) ?]. by apply wp_sema_down.
  - intros (? & ? & ?). apply wp_drop. eapply wp_mono; [by apply wp_sema_try_down|]. intros. by apply stay_done.
  - intros (? & ? & ?). eapply wp_mono; [by apply wp_up|]. intros. by apply stay_done.
  - intros [(? & ? & ?) [? _]]. eapply wp_mono; [by apply wp_sema_init|]. intros ? ? [? _]. by apply stay_done.
  - intros (? & ? & ? & ?). eapply wp_mono; [by apply wp_lock_init|]. intros. by apply stay_done.
  - intros [(lk & ? & ?) ?]. by eapply wp_lock_acquire.
  - intros (lk & ? & ?). apply wp_drop. eapply wp_mono; [by eapply wp_lock_try_acquire|]. intros. by apply stay_done.
  - intros (lk & ? & ?). eapply wp_mono; [by eapply wp_lock_release|]. intros ? ? [? _]. by apply stay_done.
  - intros. eapply wp_mono; [by apply wp_cond_init|]. intros. by apply stay_done.
  - intros ((lk & ? & ?) & [ws ?] & (? & ? & ?) & ?). by eapply wp_cond_wait.
  - intros ((lk & ? & ?) & [ws ?]). eapply wp_mono; [by eapply wp_cond_signal|]. intros ? ? [? _]. by apply stay_done.
  - intros ((lk & ? & ?) & ?). eapply wp_mono; [by eapply wp_cond_broadcast|]. intros. by apply stay_done.
  - intros [? Hp]. apply wp_drop. destruct page as [t|].
    + destruct Hp. eapply wp_mono; [by apply wp_thread_create|]. intros ? ? (_ & _ & ?). by apply stay_done.
    + apply wp_ret. split; [done|left; apply grows_refl].
  - intros _. eapply wp_mono; [by apply wp_set_priority|]. intros. by apply stay_done.
  - intros _. eapply wp_mono; [apply wp_thread_yield; [apply Hi..|done]|]. intros ? ? [? ?]. split; [done|by right].
  - intros. eapply wp_mono; [by apply wp_thread_exit|]. intros ? ? [? ?]. split; [done|by right].
  - intros. eapply wp_mono; [by apply wp_idle_loop|]. intros ? ? [? ?]. split; [done|by right].
  - intros _. apply wp_drop, wp_enable; [apply Hi|]. split; [by apply inv_intr|left; by apply grows_same].
  - intros _. apply wp_drop, wp_disable. split; [by apply inv_intr|left; by apply grows_same].
Qed.

(** What one event does to the ready queue. *)
Definition advances (e : event) k k' : Prop :=
  match e with
  | Tick => (thread_ticks k + 1 < TIME_SLICE /\ running k' = running k /\ ready_list k' = ready_list k /\ thread_ticks k' = thread_ticks k + 1) \/
            (thread_ticks k + 1 = TIME_SLICE /\ pops k k')
  | _ => grows k k' \/ pops k k'
  end.

Lemma event_step e k : inv None k -> enabled k e -> exists k', perform e k = Ok (tt, k') /\ inv None k' /\ advances e k k'.
Proof.
  intros Hi He. assert (wp (perform e) (fun _ k' => inv None k' /\ advances e k k') k) as H.
  { destruct e as [| |o]; cbn [perform advances enabled] in *.
    - by apply wp_timer_tick.
    - destruct He as (th & ? & ?). by eapply wp_resume.
    - destruct He. by apply exec_safe. }
  destruct (wp_Ok _ _ _ H) as ([] & k' & E & ? & ?). eauto.
Qed.

Lemma path_inv es k k' : path es k k' -> inv None k -> inv None k'.
Proof.
  induction 1 as [|e es k k1 k2 He Hp _ IH]; [done|]. intros Hi. apply IH.
  destruct (event_step e k Hi He) as (k1' & E & ? & _). rewrite Hp in E. by injection E as <-.
Qed.

(** ** The start state *)

Definition booted : kernel :=
  Kernel
    (<[4096 := Thread 1 THREAD_READY [109; 97; 105; 110] 8192 31 THREAD_MAGIC false (Some (InDown 200 true Return))]>
      {[8192 := Thread 2 THREAD_RUNNING [105; 100; 108; 101] 12244 0 THREAD_MAGIC false None]})
    8192 [4096] [4096; 8192] 8192 4096 0 (0, 0, 0) 3 true false false
    (<[104 := Sema 1 []]> {[200 := Sema 1 []]}) {[100 := Lock None 104]} ∅.

Lemma boot_booted : boot 8192 100 104 200 (power_on 4096) = Ok (tt, booted).
Proof. vm_compute. reflexivity. Qed.

(** The cases of a lookup in [booted]. *)
Ltac boot_lookup H :=
  cbn [threads semas locks conds running booted] in H; try apply lookup_insert_Some in H as [[<- <-]|[_ H]];
  [|try (apply lookup_singleton_Some in H as [<- <-])].
Ltac boot_found := cbn; eexists; split; [by rewrite ?lookup_insert_eq, ?lookup_insert_ne, ?lookup_singleton_eq|done].

Lemma booted_inv : inv None booted.
Proof.
  assert (forall l lk, locks booted !! l = Some lk -> l = 100 /\ lk = Lock None 104) as Hlk.
  { intros l lk Hl. cbn [locks booted] in Hl. by apply lookup_singleton_Some in Hl as [<- <-]. }
  assert (forall s, lock_semaphore booted s -> s = 104) as Hls by (by intros s (l & lk & [-> ->]%Hlk & <-)).
  split; [split|split|done|done|].
  - intros t th Hth. boot_lookup Hth; [|done]. split_and!; [done..|]. split; [|done]. left. by apply list_elem_of_singleton.
  - intros t [= <-]. boot_found.
  - split; [apply NoDup_singleton|]. intros t ->%list_elem_of_singleton. split; [done|]. boot_found.
  - intros s sm Hs. boot_lookup Hs; (split; [done|]; split; [apply NoDup_nil_2|]; by intros t ?%elem_of_nil).
  - boot_found.
  - intros l lk [-> ->]%Hlk. split; [done|]. boot_found.
  - by intros l l' lk lk' [-> _]%Hlk [-> _]%Hlk _.
  - intros t th Hth. boot_lookup Hth; [|done]. split_and!; [done| |by intros ?%Hls]. cbn. by rewrite lookup_insert_ne, lookup_singleton_eq.
  - intros c ws w Hc. cbn in Hc. by rewrite lookup_empty in Hc.
  - intros th Hth. vm_compute in Hth. by injection Hth as <-.
Qed.

Lemma reachable_inv k : reachable k -> inv None k.
Proof. intros (k0 & es & Hb & Hp). rewrite boot_booted in Hb. injection Hb as <-. eapply path_inv; [exact Hp|apply booted_inv]. Qed.

(** ** Theorems *)



(** A lock excludes.  While another thread holds the lock,
    lock_try_acquire returns false and changes nothing, and lock_acquire
    suspends the caller: it leaves the CPU with status THREAD_BLOCKED, as
    the last waiter of the semaphore of the lock, and the holder stays. *)
Theorem held_lock_excludes k l lk u : reachable k -> user k -> running k <> idle_thread k ->
  locks k !! l = Some lk -> holder lk = Some u -> u <> running k ->
  lock_try_acquire l k = Ok (false, k) /\
  exists k' th sm, lock_acquire l k = Ok (tt, k') /\ locks k' = locks k /\ running k' <> running k /\
    threads k' !! running k = Some th /\ status th = THREAD_BLOCKED /\
    cont th = Some (InDown (lock_sema lk) (intr_on k) (TakeLock l)) /\
    semas k' !! lock_sema lk = Some sm /\ list.last (waiters sm) = Some (running k).
Proof.
  intros Hr Hu Hid Hlk Hh Hne. pose proof (reachable_inv k Hr) as Hi.
  destruct (l_sema _ _ (i_l _ _ Hi) _ _ Hlk) as (Hn & sm & Hs & Hv). unfold lock_value in Hv. rewrite Hh in Hv.
  assert (holder lk <> Some (running k)) as Hnh by congruence. split.
  - assert (wp (lock_try_acquire l) (fun b k' => b = false /\ k' = k) k) as H.
    { unfold lock_try_acquire. wstep. eapply wp_held; [done..|]. wstep. apply wp_assert; [by rewrite bool_decide_eq_false_2|]. wstep.
      eapply wp_deref; [exact Hlk|]. wstep. eapply wp_try_down; [done|exact Hs|apply Hi|by intros|lia]. }
    apply wp_Ok in H as (b & k' & -> & -> & ->). done.
  - assert (wp (lock_acquire l) (fun _ k' => exists k1, k1 = set_intr false k /\
      winv None (parked (lock_sema lk) sm (intr_on k) (TakeLock l) k1) /\ k' = scheduled (parked (lock_sema lk) sm (intr_on k) (TakeLock l) k1)) k) as H.
    { unfold lock_acquire. repeat wstep. apply wp_assert; [by rewrite (i_ext _ _ Hi)|]. wstep. eapply wp_held; [done..|]. wstep.
      apply wp_assert; [by rewrite bool_decide_eq_false_2|]. wstep. eapply wp_deref; [exact Hlk|]. unfold down_enter. wstep.
      apply wp_assert; [by rewrite (proj2 (Z.eqb_neq _ _))|]. repeat wstep. apply wp_assert; [by rewrite (i_ext _ _ Hi)|]. repeat wstep.
      eapply wp_down_block; [by apply inv_intr|done|exact Hs|done| |by eauto]. split_and!; [done|by eauto|]. by exists lk. }
    apply wp_Ok in H as ([] & k' & Hrun & k1 & E1 & Hw & E). destruct Hu as (th & (Hth & _) & _).
    set (kp := parked (lock_sema lk) sm (intr_on k) (TakeLock l) k1) in *.
    assert (threads kp !! running k = Some (set_cont (Some (InDown (lock_sema lk) (intr_on k) (TakeLock l))) (set_status THREAD_BLOCKED th))) as Hcur.
    { subst kp k1. unfold parked. ksimp. rewrite Hth. ksimp. by rewrite lookup_insert_eq. }
    assert (running kp = running k /\ idle_thread kp = idle_thread k /\ locks kp = locks k /\
      semas kp !! lock_sema lk = Some (Sema (value sm) (waiters sm ++ [running k]))) as (Er & Ei & El & Es).
    { subst kp k1. unfold parked. ksimp. rewrite Hth. ksimp. by rewrite lookup_insert_eq. }
    assert (next_of kp <> running k) as Hnext.
    { intros E'. destruct (next_ok kp Hw) as (tn & Htn & _ & _ & _ & _ & _ & [Hst|Hst]).
      - rewrite E', Hcur in Htn. injection Htn as <-. done.
      - congruence. }
    exists k', (set_cont (Some (InDown (lock_sema lk) (intr_on k) (TakeLock l))) (set_status THREAD_BLOCKED th)), (Sema (value sm) (waiters sm ++ [running k])).
    subst k'. unfold scheduled. split; [done|]. ksimp. split_and!; try done; [|by rewrite last_snoc].
    rewrite Er. rewrite <- Er in Hcur, Hnext |- *. apply switched_keep; [done|by eauto|done|exact Hcur|done].
Qed.

(** ** Bounded waiting *)

Fixpoint ticks_in (es : list event) : Z :=
  match es with
  | [] => 0
  | Tick :: es' => 1 + ticks_in es'
  | _ :: es' => ticks_in es'
  end.

(** The ticks until the thread at position [p] of the queue runs, at most. *)
Definition wait_bound k (p : nat) : Z := TIME_SLICE * Z.of_nat p + (TIME_SLICE - thread_ticks k).

Lemma pops_bound k k' p t : pops k k' -> ready_list k !! p = Some t ->
  running k' = t \/ exists p', ready_list k' !! p' = Some t /\ wait_bound k' p' = TIME_SLICE * Z.of_nat p.
Proof.
  intros (Ht & l & Hl) Hp. unfold wait_bound. rewrite Ht.
  assert ((ready_list k ++ l) !! p = Some t) as Hp' by (by apply lookup_app_l_Some).
  destruct (ready_list k ++ l) as [|u q]; [done|]. destruct Hl as [Hr Hq]. destruct p as [|p]; simpl in Hp'.
  - left. congruence.
  - right. exists p. rewrite Hq. split; [done|]. unfold TIME_SLICE. lia.
Qed.

Lemma event_bound e k k' p t : inv None k -> advances e k k' -> ready_list k !! p = Some t ->
  running k' = t \/ exists p', ready_list k' !! p' = Some t /\ wait_bound k' p' + ticks_in [e] <= wait_bound k p.
Proof.
  intros Hi Ha Hp. pose proof (i_ticks _ _ Hi) as Ht.
  assert (pops k k' -> running k' = t \/ exists p', ready_list k' !! p' = Some t /\ wait_bound k' p' + 1 <= wait_bound k p) as Hpop.
  { intros H. destruct (pops_bound k k' p t H Hp) as [?|(p' & Hp' & E)]; [by left|]. right. exists p'. split; [done|].
    rewrite E. unfold wait_bound. lia. }
  assert (grows k k' -> exists p', ready_list k' !! p' = Some t /\ wait_bound k' p' <= wait_bound k p) as Hgrow.
  { intros (_ & E & l & El). exists p. rewrite El. split; [by apply lookup_app_l_Some|]. unfold wait_bound. rewrite E. lia. }
  assert (0 <= ticks_in [e] <= 1) as He by (destruct e; simpl; lia).
  destruct e; cbn [advances] in Ha; [|destruct Ha as [H|H]; [right; simpl; destruct (Hgrow H) as (p' & ? & ?); exists p'; split; [done|lia]|
    destruct (Hpop H) as [?|(p' & ? & ?)]; [by left|right; exists p'; split; [done|simpl; lia]]]..].
  destruct Ha as [(_ & _ & Eq & Et)|[_ H]]; [|by apply Hpop]. right. exists p. rewrite Eq. split; [done|]. unfold wait_bound. rewrite Et. simpl. lia.
Qed.

Lemma path_bound es k k' p t : path es k k' -> inv None k -> ready_list k !! p = Some t -> wait_bound k p <= ticks_in es ->
  exists es1 es2 k1, es = es1 ++ es2 /\ path es1 k k1 /\ path es2 k1 k' /\ running k1 = t.
Proof.
  intros Hpath. revert p. induction Hpath as [k|e es k k1 k2 He Hp Hrest IH]; intros p Hi Hl Hb.
  - pose proof (i_ticks _ _ Hi). unfold wait_bound, TIME_SLICE in *. simpl in Hb. lia.
  - destruct (event_step e k Hi He) as (k1' & E & Hi1 & Ha). rewrite Hp in E. injection E as <-.
    destruct (event_bound e k k1 p t Hi Ha Hl) as [Hr|(p' & Hl' & Hb')].
    + exists [e], es, k1. split_and!; [done|econstructor; [done|done|constructor]|done|done].
    + assert (ticks_in (e :: es) = ticks_in [e] + ticks_in es) as E by (destruct e; cbn [ticks_in]; lia).
      destruct (IH p' Hi1 Hl') as (es1 & es2 & k3 & -> & H1 & H2 & Hr); [lia|].
      exists (e :: es1), es2, k3. split_and!; [done|by econstructor|done|done].
Qed.

(** C12: bounded waiting.  A thread at position [p] (from 0) of the ready
    queue gets the CPU in every execution with TIME_SLICE * (p + 1) timer
    interrupts, whatever the threads that run before it do. *)
Theorem ready_thread_runs k k' es p t : reachable k -> path es k k' -> ready_list k !! p = Some t ->
  TIME_SLICE * (Z.of_nat p + 1) <= ticks_in es ->
  exists es1 es2 k1, es = es1 ++ es2 /\ path es1 k k1 /\ path es2 k1 k' /\ running k1 = t.
Proof.
  intros Hr Hpath Hp Hn. pose proof (reachable_inv k Hr) as Hi. eapply path_bound; [exact Hpath|exact Hi|exact Hp|].
  pose proof (i_ticks _ _ Hi). unfold wait_bound, TIME_SLICE in *. lia.
Qed.

(** ** Witnesses *)

Fixpoint perform_all (es : list event) : st kernel unit :=
  match es with [] => mret tt | e :: es' => perform e ≫= fun _ => perform_all es' end.
Definition state_after (es : list event) : kernel := match perform_all es booted with Ok (_, k) => k | Err _ => booted end.

Lemma booted_reachable : reachable booted.
Proof. exists booted, []. split; [apply boot_booted|constructor]. Qed.

Definition at_rest k : bool :=
  match threads k !! running k with
  | Some th => bool_decide (status th = THREAD_RUNNING) && (magic th =? THREAD_MAGIC) && negb (running k =? NULL) && bool_decide (cont th = None)
  | None => false
  end.

Lemma at_rest_user k : at_rest k = true -> user k.
Proof.
  unfold at_rest, user, cur_ok. destruct (threads k !! running k) as [th|]; [|done]. rewrite !andb_true_iff, negb_true_iff.
  intros [[[?%bool_decide_eq_true ?%Z.eqb_eq] ?%Z.eqb_neq] ?%bool_decide_eq_true]. by exists th.
Qed.

(** The main thread takes a lock, creates a thread and yields to it. *)
Definition contention : list event :=
  [Request Idle; Continue; Request (LockInit 300 304); Request (Acquire 300); Request (Create (Some 12288) [97] 31);
   Request Yield; Continue].

Ltac path_step := eapply path_cons; [|vm_compute; reflexivity|].
Ltac rest := apply at_rest_user; vm_compute; reflexivity.

Lemma contention_path : path contention booted (state_after contention).
Proof.
  unfold contention. path_step; [split; [rest|by vm_compute]|]. path_step; [eexists; split; [vm_compute; reflexivity|done]|].
  path_step; [split; [rest|by vm_compute]|].
  path_step; [split; [rest|split; [eexists; split; [vm_compute; reflexivity|done]|by vm_compute]]|].
  path_step; [split; [rest|by vm_compute]|]. path_step; [split; [rest|done]|].
  path_step; [eexists; split; [vm_compute; reflexivity|done]|]. vm_compute. constructor.
Qed.

Lemma contention_reachable : reachable (state_after contention).
Proof. exists booted, contention. split; [apply boot_booted|apply contention_path]. Qed.



Lemma held_lock_excludes_witness : lock_try_acquire 300 (state_after contention) = Ok (false, state_after contention).
Proof.
  apply (held_lock_excludes (state_after contention) 300 (Lock (Some 4096) 304) 4096);
    [apply contention_reachable|rest|by vm_compute|vm_compute; reflexivity|reflexivity|by vm_compute].
Defined.

(** Four ticks of the idle thread's slice bring the main thread to the CPU. *)
Lemma ready_thread_runs_witness : exists es1 es2 k1, [Tick; Tick; Tick; Tick] = es1 ++ es2 /\ path es1 booted k1 /\
  path es2 k1 (state_after [Tick; Tick; Tick; Tick]) /\ running k1 = 4096.
Proof.
  apply (ready_thread_runs booted (state_after [Tick; Tick; Tick; Tick]) [Tick; Tick; Tick; Tick] 0 4096);
    [apply booted_reachable| |reflexivity|by vm_compute].
  do 4 (path_step; [vm_compute; reflexivity|]). vm_compute. constructor.
Defined.
End live.
