(* ===== verification/Pages.v ===== *)
(** * Pages and page tables (src/threads/vaddr.h, pte.h, palloc.c and
      src/userprog/pagedir.c)

    Virtual addresses are 32-bit integers.  Physical memory is a map from
    the kernel virtual address of a page to its 1024 words.  The bitmap
    of a pool, which the code keeps in the first pages of the pool, is a
    bitmap of Bitmap.v.  The locks of the pools make each allocation one
    step. *)

From S2P Require Import Prelude Memory Wp Bitmap.

(** ** vaddr.h *)

Definition BITMASK (shift cnt : Z) : Z := u32 (Z.shiftl (Z.shiftl 1 cnt - 1) shift).
Definition PGBITS : Z := 12.
Definition PGSIZE : Z := 4096.
Definition PGMASK : Z := BITMASK 0 PGBITS.
Definition pg_ofs (va : Z) : Z := Z.land va PGMASK.
Definition pg_no (va : Z) : Z := Z.shiftr va PGBITS.
Definition pg_round_up (va : Z) : Z := Z.land (u32 (va + PGSIZE - 1)) (u32 (Z.lnot PGMASK)).
Definition pg_round_down (va : Z) : Z := Z.land va (u32 (Z.lnot PGMASK)).
Definition PHYS_BASE : Z := 0xc0000000.
Definition is_user_vaddr (va : Z) : bool := va <? PHYS_BASE.
Definition is_kernel_vaddr (va : Z) : bool := PHYS_BASE <=? va.
Definition ptov (paddr : Z) : outcome Z := kassert (paddr <? PHYS_BASE) ≫= fun _ => Ok (u32 (paddr + PHYS_BASE)).
Definition vtop (va : Z) : outcome Z := kassert (is_kernel_vaddr va) ≫= fun _ => Ok (u32 (va - PHYS_BASE)).

(** ** pte.h *)

Definition PTSHIFT : Z := PGBITS.
Definition PTBITS : Z := 10.
Definition PTMASK : Z := BITMASK PTSHIFT PTBITS.
Definition PDSHIFT : Z := PTSHIFT + PTBITS.
Definition pt_no (va : Z) : Z := Z.shiftr (Z.land va PTMASK) PTSHIFT.
Definition pd_no (va : Z) : Z := Z.shiftr va PDSHIFT.
Definition PTE_ADDR : Z := 0xfffff000.
Definition PTE_P : Z := 0x1.
Definition PTE_W : Z := 0x2.
Definition PTE_U : Z := 0x4.
Definition PTE_A : Z := 0x20.
Definition PTE_D : Z := 0x40.

Definition pde_create (pt : Z) : outcome Z :=
  kassert (pg_ofs pt =? 0) ≫= fun _ => p ← vtop pt; Ok (Z.lor (Z.lor (Z.lor p PTE_U) PTE_P) PTE_W).
Definition pde_get_pt (pde : Z) : outcome Z :=
  kassert (negb (Z.land pde PTE_P =? 0)) ≫= fun _ => ptov (Z.land pde PTE_ADDR).
Definition pte_create_kernel (page : Z) (writable : bool) : outcome Z :=
  kassert (pg_ofs page =? 0) ≫= fun _ => p ← vtop page; Ok (Z.lor (Z.lor p PTE_P) (if writable then PTE_W else 0)).
Definition pte_create_user (page : Z) (writable : bool) : outcome Z :=
  p ← pte_create_kernel page writable; Ok (Z.lor p PTE_U).
Definition pte_get_page (pte : Z) : outcome Z := ptov (Z.land pte PTE_ADDR).

(** ** The machine *)

Record pool := Pool { used_map : bitmap; base : Z }.

(** [cr3] is the page directory base register; [tlb_loads] counts the
    loads of it, each of which empties the TLB. *)
Record machine := Machine {
  kernel_pool : pool;
  user_pool : pool;
  pages : gmap Z (list Z);
  init_page_dir : Z;
  init_ram_pages : Z;
  cr3 : Z;
  tlb_loads : Z
}.

Definition set_pools (k u : pool) (m : machine) : machine :=
  Machine k u (pages m) (init_page_dir m) (init_ram_pages m) (cr3 m) (tlb_loads m).
Definition set_pages (p : gmap Z (list Z)) (m : machine) : machine :=
  Machine (kernel_pool m) (user_pool m) p (init_page_dir m) (init_ram_pages m) (cr3 m) (tlb_loads m).
Definition set_cr3 (c : Z) (m : machine) : machine :=
  Machine (kernel_pool m) (user_pool m) (pages m) (init_page_dir m) (init_ram_pages m) c (tlb_loads m + 1).

(** A word of memory. *)
Definition load_word (a : Z) : st machine Z := fun m =>
  match pages m !! pg_round_down a with
  | Some l => match l !! Z.to_nat (pg_ofs a / 4) with Some w => Ok (w, m) | None => Err Fault end
  | None => Err Fault
  end.
Definition store_word (a w : Z) : st machine unit := fun m =>
  match pages m !! pg_round_down a with
  | Some l => Ok (tt, set_pages (<[pg_round_down a := <[Z.to_nat (pg_ofs a / 4) := w]> l]> (pages m)) m)
  | None => Err Fault
  end.

(** memset over whole pages. *)
Fixpoint fill_pages (n : nat) (a w : Z) (p : gmap Z (list Z)) : outcome (gmap Z (list Z)) :=
  match n with
  | O => Ok p
  | S n' => match p !! a with
            | Some _ => fill_pages n' (u32 (a + PGSIZE)) w (<[a := replicate 1024 w]> p)
            | None => Err Fault
            end
  end.
Definition memset_pages (a w cnt : Z) : st machine unit := fun m =>
  match fill_pages (Z.to_nat cnt) a w (pages m) with Ok p => Ok (tt, set_pages p m) | Err e => Err e end.
(** memcpy of a page. *)
Definition copy_page (dst src : Z) : st machine unit := fun m =>
  match pages m !! src, pages m !! dst with
  | Some l, Some _ => Ok (tt, set_pages (<[dst := l]> (pages m)) m)
  | _, _ => Err Fault
  end.

(** ** palloc.c *)

Definition PAL_ASSERT : Z := 1.
Definition PAL_ZERO : Z := 2.
Definition PAL_USER : Z := 4.
Definition has (flags f : Z) : bool := negb (Z.land flags f =? 0).

(** The words of [cnt] pages from [a] on. *)
Fixpoint page_words (cnt : nat) (a : Z) (p : gmap Z (list Z)) : outcome (list Z) :=
  match cnt with
  | O => Ok []
  | S n => match p !! a with
           | Some l => r ← page_words n (u32 (a + PGSIZE)) p; Ok (l ++ r)
           | None => Err Fault
           end
  end.

(** The bitmap header takes two words of the buffer at [b]. *)
Definition init_pool (m : machine) (b page_cnt : Z) : outcome pool :=
  let bm_pages := DIV_ROUND_UP (bitmap_buf_size page_cnt) PGSIZE in
  if page_cnt <? bm_pages then Err Panic
  else
    let cnt := page_cnt - bm_pages in
    ws ← page_words (Z.to_nat bm_pages) b (pages m);
    map ← bitmap_create_in_buf cnt (take (Z.to_nat (elem_cnt cnt)) (drop 2 ws)) (u32 (bm_pages * PGSIZE));
    Ok (Pool map (u32 (b + bm_pages * PGSIZE))).

Definition palloc_init (user_page_limit : Z) : st machine unit := fun m =>
  free_start ← ptov (1024 * 1024);
  free_end ← ptov (u32 (init_ram_pages m * PGSIZE));
  let free_pages := u32 (free_end - free_start) / PGSIZE in
  let user_pages := free_pages / 2 in
  let user_pages := if user_page_limit <? user_pages then user_page_limit else user_pages in
  let kernel_pages := free_pages - user_pages in
  k ← init_pool m free_start kernel_pages;
  u ← init_pool m (u32 (free_start + kernel_pages * PGSIZE)) user_pages;
  Ok (tt, set_pools k u m).

Definition palloc_get_multiple (flags page_cnt : Z) : st machine Z :=
  if page_cnt =? 0 then mret NULL
  else
    p ← gets (if has flags PAL_USER then user_pool else kernel_pool);
    r ← lift (bitmap_scan_and_flip (used_map p) 0 page_cnt false);
    modify (fun m => if has flags PAL_USER then set_pools (kernel_pool m) (Pool (snd r) (base p)) m
                     else set_pools (Pool (snd r) (base p)) (user_pool m) m) ≫= fun _ =>
    let page_idx := fst r in
    let pgs := if negb (page_idx =? BITMAP_ERROR) then u32 (base p + PGSIZE * page_idx) else NULL in
    (if negb (pgs =? NULL) then
       if has flags PAL_ZERO then memset_pages pgs 0 page_cnt else mret tt
     else kassert_st (negb (has flags PAL_ASSERT))) ≫= fun _ =>
    mret pgs.

Definition palloc_get_page (flags : Z) : st machine Z := palloc_get_multiple flags 1.

Definition page_from_pool (p : pool) (page : Z) : bool :=
  let page_no := pg_no page in
  let start_page := pg_no (base p) in
  let end_page := u32 (start_page + bitmap_size (used_map p)) in
  (start_page <=? page_no) && (page_no <? end_page).

Definition palloc_free_multiple (pgs page_cnt : Z) : st machine unit :=
  kassert_st (pg_ofs pgs =? 0) ≫= fun _ =>
  if (pgs =? NULL) || (page_cnt =? 0) then mret tt
  else
    k ← gets kernel_pool; u ← gets user_pool;
    p ← (if page_from_pool k pgs then mret k else if page_from_pool u pgs then mret u else lift (Err Panic));
    let page_idx := u32 (pg_no pgs - pg_no (base p)) in
    memset_pages pgs 0xcccccccc page_cnt ≫= fun _ =>
    b ← lift (bitmap_all (used_map p) page_idx page_cnt); kassert_st b ≫= fun _ =>
    map ← lift (bitmap_set_multiple (used_map p) page_idx page_cnt false);
    modify (fun m => if page_from_pool k pgs then set_pools (Pool map (base p)) (user_pool m) m
                     else set_pools (kernel_pool m) (Pool map (base p)) m).

Definition palloc_free_page (page : Z) : st machine unit := palloc_free_multiple page 1.

(** ** pagedir.c *)

Definition pagedir_create : st machine Z :=
  pd ← palloc_get_page 0;
  (if negb (pd =? NULL) then ipd ← gets init_page_dir; copy_page pd ipd else mret tt) ≫= fun _ => mret pd.

Definition lookup_page (pd vaddr : Z) (create : bool) : st machine Z :=
  kassert_st (negb (pd =? NULL)) ≫= fun _ =>
  kassert_st (negb create || is_user_vaddr vaddr) ≫= fun _ =>
  let pde := u32 (pd + 4 * pd_no vaddr) in
  w ← load_word pde;
  ok ← (if w =? 0 then
          if create then
            pt ← palloc_get_page PAL_ZERO;
            if pt =? NULL then mret false
            else e ← lift (pde_create pt); store_word pde e ≫= fun _ => mret true
          else mret false
        else mret true);
  if ok : bool then
    w ← load_word pde;
    pt ← lift (pde_get_pt w);
    mret (u32 (pt + 4 * pt_no vaddr))
  else mret NULL.

Definition pagedir_set_page (pd upage kpage : Z) (writable : bool) : st machine bool :=
  kassert_st (pg_ofs upage =? 0) ≫= fun _ =>
  kassert_st (pg_ofs kpage =? 0) ≫= fun _ =>
  kassert_st (is_user_vaddr upage) ≫= fun _ =>
  p ← lift (vtop kpage); n ← gets init_ram_pages; kassert_st (Z.shiftr p PTSHIFT <? n) ≫= fun _ =>
  ipd ← gets init_page_dir; kassert_st (negb (pd =? ipd)) ≫= fun _ =>
  pte ← lookup_page pd upage true;
  if negb (pte =? NULL) then
    w ← load_word pte; kassert_st (Z.land w PTE_P =? 0) ≫= fun _ =>
    e ← lift (pte_create_user kpage writable); store_word pte e ≫= fun _ => mret true
  else mret false.

Definition pagedir_get_page (pd uaddr : Z) : st machine Z :=
  kassert_st (is_user_vaddr uaddr) ≫= fun _ =>
  pte ← lookup_page pd uaddr false;
  if pte =? NULL then mret NULL
  else
    w ← load_word pte;
    if negb (Z.land w PTE_P =? 0) then p ← lift (pte_get_page w); mret (u32 (p + pg_ofs uaddr)) else mret NULL.

Definition pagedir_activate (pd : Z) : st machine unit :=
  ipd ← gets init_page_dir;
  p ← lift (vtop (if pd =? NULL then ipd else pd)); modify (set_cr3 p).
Definition active_pd : st machine Z := c ← gets cr3; lift (ptov c).
Definition invalidate_pagedir (pd : Z) : st machine unit :=
  a ← active_pd; if a =? pd then pagedir_activate pd else mret tt.

Definition pagedir_clear_page (pd upage : Z) : st machine unit :=
  kassert_st (pg_ofs upage =? 0) ≫= fun _ =>
  kassert_st (is_user_vaddr upage) ≫= fun _ =>
  pte ← lookup_page pd upage false;
  if pte =? NULL then mret tt
  else
    w ← load_word pte;
    if negb (Z.land w PTE_P =? 0) then
      store_word pte (Z.land w (u32 (Z.lnot PTE_P))) ≫= fun _ => invalidate_pagedir pd
    else mret tt.

(** The dirty and the accessed bit are read and written alike. *)
Definition flag_is_set (flag pd vpage : Z) : st machine bool :=
  pte ← lookup_page pd vpage false;
  if pte =? NULL then mret false else w ← load_word pte; mret (negb (Z.land w flag =? 0)).
Definition flag_set (flag pd vpage : Z) (v : bool) : st machine unit :=
  pte ← lookup_page pd vpage false;
  if pte =? NULL then mret tt
  else
    w ← load_word pte;
    if v then store_word pte (Z.lor w flag)
    else store_word pte (Z.land w (u32 (Z.lnot flag))) ≫= fun _ => invalidate_pagedir pd.
Definition pagedir_is_dirty : Z -> Z -> st machine bool := flag_is_set PTE_D.
Definition pagedir_set_dirty : Z -> Z -> bool -> st machine unit := flag_set PTE_D.
Definition pagedir_is_accessed : Z -> Z -> st machine bool := flag_is_set PTE_A.
Definition pagedir_set_accessed : Z -> Z -> bool -> st machine unit := flag_set PTE_A.

(** [for (i = from; i < from + n; i++) body]. *)
Fixpoint for_words (n : nat) (i : Z) (body : Z -> st machine unit) : st machine unit :=
  match n with
  | O => mret tt
  | S n' => body i ≫= fun _ => for_words n' (i + 1) body
  end.
Definition pagedir_destroy (pd : Z) : st machine unit :=
  if pd =? NULL then mret tt
  else
    ipd ← gets init_page_dir; kassert_st (negb (pd =? ipd)) ≫= fun _ =>
    for_words (Z.to_nat (pd_no PHYS_BASE)) 0 (fun i =>
      pde ← load_word (u32 (pd + 4 * i));
      if negb (Z.land pde PTE_P =? 0) then
        pt ← lift (pde_get_pt pde);
        for_words 1024 0 (fun j =>
          pte ← load_word (u32 (pt + 4 * j));
          if negb (Z.land pte PTE_P =? 0) then page ← lift (pte_get_page pte); palloc_free_page page else mret tt) ≫= fun _ =>
        palloc_free_page pt
      else mret tt) ≫= fun _ =>
    palloc_free_page pd.
