(* ===== verification/PageLaws.v ===== *)
(** * Page allocation and address translation

    The page allocator hands out pages that are not in use, and a page
    directory is a map from user pages to frames: pagedir_set_page adds
    one entry and changes no other. *)

From S2P Require Import Prelude Memory Wp Bitmap Pages.

(** ** Addresses *)

Lemma pg_ofs_mod va : pg_ofs va = va mod 4096.
Proof. unfold pg_ofs. change PGMASK with (Z.ones 12). by rewrite Z.land_ones. Qed.
Lemma pg_no_div va : pg_no va = va / 4096.
Proof. unfold pg_no, PGBITS. by rewrite Z.shiftr_div_pow2. Qed.
Lemma pd_no_div va : pd_no va = va / 2 ^ 22.
Proof. unfold pd_no. change PDSHIFT with 22. by rewrite Z.shiftr_div_pow2. Qed.
Lemma pt_no_mod va : pt_no va = va / 4096 mod 1024.
Proof.
  unfold pt_no. change PTMASK with (Z.shiftl (Z.ones 10) 12). change PTSHIFT with 12. rewrite Z.shiftr_land, Z.shiftr_shiftl_l by lia.
  change (12 - 12) with 0. rewrite Z.shiftl_0_r, Z.land_ones, Z.shiftr_div_pow2 by lia. done.
Qed.

Lemma land_addr va : 0 <= va < 2 ^ 32 -> Z.land va PTE_ADDR = va - va mod 4096.
Proof.
  intros H. change PTE_ADDR with (Z.land (Z.ones 32) (Z.lnot (Z.ones 12))).
  rewrite Z.land_assoc, (Z.land_ones va 32), Z.mod_small by lia.
  rewrite <- Z.ldiff_land, Z.ldiff_ones_r by lia. rewrite Z.shiftr_div_pow2, Z.shiftl_mul_pow2 by lia.
  change (2 ^ 12) with 4096. pose proof (Z.div_mod va 4096 ltac:(lia)). lia.
Qed.
Lemma pg_round_down_sub va : 0 <= va < 2 ^ 32 -> pg_round_down va = va - va mod 4096.
Proof. apply land_addr. Qed.

Lemma lor_flags p f : p mod 4096 = 0 -> 0 <= f < 4096 -> Z.lor p f = p + f.
Proof.
  intros Hp Hf. symmetry. apply Z.add_nocarry_lor. rewrite <- (Z.mod_small f 4096) by lia. change 4096 with (2 ^ 12) in *.
  rewrite <- Z.land_ones by lia. rewrite (Z.land_comm f), Z.land_assoc, Z.land_ones, Hp by lia. apply Z.land_0_l.
Qed.

(** A page that the kernel can address. *)
Definition kpage (p : Z) : Prop := PHYS_BASE <= p < 2 ^ 32 /\ p mod 4096 = 0.

Lemma vtop_ok p : kpage p -> vtop p = Ok (p - PHYS_BASE).
Proof. intros [H _]. unfold vtop, is_kernel_vaddr. rewrite kassert_true by lia. simpl. rewrite u32_small; [done|]. unfold PHYS_BASE in *. lia. Qed.
Lemma ptov_ok p : kpage p -> ptov (p - PHYS_BASE) = Ok p.
Proof. intros [H _]. unfold ptov, PHYS_BASE in *. rewrite kassert_true by lia. simpl. rewrite u32_small by lia. f_equal. lia. Qed.

(** An entry for page [p] with flags [f]. *)
Definition entry (p f : Z) : Z := p - PHYS_BASE + f.

Lemma entry_mod p f : kpage p -> 0 <= f < 4096 -> entry p f mod 4096 = f.
Proof. intros [Hr Hm] Hf. unfold entry, PHYS_BASE in *. dlia. Qed.

Lemma entry_page p f : kpage p -> 0 <= f < 4096 -> ptov (Z.land (entry p f) PTE_ADDR) = Ok p.
Proof.
  intros Hp Hf. pose proof Hp as [Hr Hm]. rewrite land_addr by (unfold entry, PHYS_BASE in *; lia). rewrite entry_mod by done.
  unfold entry. replace (p - PHYS_BASE + f - f) with (p - PHYS_BASE) by lia. by apply ptov_ok.
Qed.
Lemma entry_flag p f b : kpage p -> 0 <= f < 4096 -> 0 <= b < 12 -> Z.testbit (entry p f) b = Z.testbit f b.
Proof.
  intros Hp Hf Hb. rewrite <- (Z.mod_pow2_bits_low _ 12 b) by lia. change (2 ^ 12) with 4096. by rewrite entry_mod.
Qed.
Lemma entry_present p f : kpage p -> 0 <= f < 4096 -> Z.testbit f 0 = true -> Z.land (entry p f) PTE_P <> 0.
Proof.
  intros Hp Hf Hb E. assert (Z.testbit (Z.land (entry p f) PTE_P) 0 = true) as H; [|by rewrite E in H].
  rewrite Z.land_spec, entry_flag by (done || lia). by rewrite Hb.
Qed.

Lemma minus_base_mod p : kpage p -> (p - PHYS_BASE) mod 4096 = 0.
Proof. intros [_ Hm]. unfold PHYS_BASE. rewrite Zminus_mod, Hm. done. Qed.

Lemma pde_create_ok p : kpage p -> pde_create p = Ok (entry p 7).
Proof.
  intros Hp. pose proof Hp as [Hr Hm]. unfold pde_create. rewrite pg_ofs_mod, kassert_true by (by apply Z.eqb_eq). simpl. rewrite vtop_ok by done. simpl. f_equal.
  rewrite <- !Z.lor_assoc. change (Z.lor PTE_U (Z.lor PTE_P PTE_W)) with 7. apply lor_flags; [by apply minus_base_mod|lia].
Qed.
Lemma pte_create_ok p w : kpage p -> pte_create_user p w = Ok (entry p (if w then 7 else 5)).
Proof.
  intros Hp. pose proof Hp as [Hr Hm]. unfold pte_create_user, pte_create_kernel. rewrite pg_ofs_mod, kassert_true by (by apply Z.eqb_eq). simpl.
  rewrite vtop_ok by done. simpl. f_equal. rewrite <- !Z.lor_assoc.
  replace (Z.lor PTE_P (Z.lor (if w then PTE_W else 0) PTE_U)) with (if w then 7 else 5) by (by destruct w).
  apply lor_flags; [by apply minus_base_mod|by destruct w].
Qed.
Lemma pde_get_pt_ok p f : kpage p -> 0 <= f < 4096 -> Z.testbit f 0 = true -> pde_get_pt (entry p f) = Ok p.
Proof.
  intros Hp Hf Hb. unfold pde_get_pt. rewrite kassert_true; [|by rewrite negb_true_iff, Z.eqb_neq; apply entry_present]. by apply entry_page.
Qed.

(** ** Words of memory *)

Section memory.
Implicit Types (m : machine).

Lemma word_addr p i : kpage p -> 0 <= i < 1024 ->
  u32 (p + 4 * i) = p + 4 * i /\ pg_round_down (p + 4 * i) = p /\ pg_ofs (p + 4 * i) / 4 = i.
Proof.
  intros [Hr Hm] Hi. unfold PHYS_BASE in Hr. assert (p + 4 * i < 2 ^ 32) by dlia. assert ((p + 4 * i) mod 4096 = 4 * i) as E by dlia.
  split; [apply u32_small; lia|]. rewrite pg_round_down_sub by lia. rewrite pg_ofs_mod, E. split; [lia|]. by rewrite (Z.mul_comm 4), Z.div_mul.
Qed.

Lemma wp_load p i l w Q m : kpage p -> 0 <= i < 1024 -> pages m !! p = Some l -> l !! Z.to_nat i = Some w -> Q w m ->
  wp (load_word (u32 (p + 4 * i))) Q m.
Proof. intros Hp Hi Hl Hw HQ. destruct (word_addr p i Hp Hi) as (-> & E1 & E2). unfold wp, load_word. by rewrite E1, Hl, E2, Hw. Qed.

Lemma wp_store p i l w Q m : kpage p -> 0 <= i < 1024 -> pages m !! p = Some l ->
  Q tt (set_pages (<[p := <[Z.to_nat i := w]> l]> (pages m)) m) -> wp (store_word (u32 (p + 4 * i)) w) Q m.
Proof. intros Hp Hi Hl HQ. destruct (word_addr p i Hp Hi) as (-> & E1 & E2). unfold wp, store_word. by rewrite E1, Hl, E2. Qed.


(** ** The page allocator *)

(** All pages of the pool are memory. *)
Record pool_wf m (p : pool) : Prop := {
  pw_map : bitmap_wf (used_map p);
  pw_base : kpage (base p);
  pw_end : base p + 4096 * bit_cnt (used_map p) <= 2 ^ 32;
  pw_mem : forall i, 0 <= i < bit_cnt (used_map p) -> exists l, pages m !! (base p + 4096 * i) = Some l /\ length l = 1024%nat
}.

(** Page [a] belongs to the pool and is allocated ([v] true) or free. *)
Definition page_state (p : pool) (a : Z) (v : bool) : Prop :=
  exists i, 0 <= i < bit_cnt (used_map p) /\ a = base p + 4096 * i /\ bit (used_map p) i = v.

Definition selected (flags : Z) m : pool := if has flags PAL_USER then user_pool m else kernel_pool m.
Definition with_pool (flags : Z) (p : pool) m : machine :=
  if has flags PAL_USER then set_pools (kernel_pool m) p m else set_pools p (user_pool m) m.

Lemma bit_after_set b b' i v : bitmap_wf b -> bitmap_wf b' -> 0 <= i < bit_cnt b ->
  to_bools b' = set_run (to_bools b) (Z.to_nat i) 1 v ->
  bit_cnt b' = bit_cnt b /\ forall j, 0 <= j < bit_cnt b -> bit b' j = if decide (i = j) then v else bit b j.
Proof.
  intros Hwf Hwf' Hi E. assert (bit_cnt b' = bit_cnt b) as Ec.
  { apply bit_cnt_to_bools; [done..|]. rewrite E. unfold set_run. apply length_splice. rewrite length_replicate, length_to_bools. lia. }
  split; [done|]. intros j Hj. assert (to_bools b' !! Z.to_nat j = Some (bit b' j)) as H by (apply lookup_to_bools; lia).
  rewrite E in H. unfold set_run in H. rewrite lookup_splice in H by (rewrite length_replicate, length_to_bools; lia). rewrite length_replicate in H.
  destruct (decide (i = j)) as [->|Hne].
  - rewrite decide_True in H by lia. rewrite lookup_replicate_2 in H by lia. by injection H.
  - rewrite decide_False in H by lia. rewrite lookup_to_bools in H by lia. by injection H.
Qed.

Lemma run_one b i v : 0 <= i < bit_cnt b -> run (to_bools b) (Z.to_nat i) 1 v <-> bit b i = v.
Proof.
  intros Hi. split.
  - intros H. specialize (H (Z.to_nat i) ltac:(lia)). rewrite lookup_to_bools in H by done. by injection H.
  - intros <- k Hk. replace k with (Z.to_nat i) by lia. by apply lookup_to_bools.
Qed.

(** The state after page [i] of the pool is handed out. *)
Definition handed_out (flags : Z) (b : bitmap) (i : Z) m : machine :=
  let p := selected flags m in
  let m1 := with_pool flags (Pool b (base p)) m in
  if has flags PAL_ZERO then set_pages (<[base p + 4096 * i := replicate 1024 0]> (pages m)) m1 else m1.

Lemma page_from_pool_ok m p a : pool_wf m p -> kpage a -> page_from_pool p a = true <-> exists v, page_state p a v.
Proof.
  intros [Hmap [Hb1 Hb2] Hend _] [Ha1 Ha2]. unfold page_from_pool, bitmap_size. rewrite !pg_no_div. pose proof (wf_cnt _ Hmap). unfold PHYS_BASE in *.
  assert (base p = 4096 * (base p / 4096) /\ a = 4096 * (a / 4096)) as [Eb Ea] by (split; dlia).
  rewrite u32_small by dlia. rewrite andb_true_iff, Z.leb_le, Z.ltb_lt. split.
  - intros Hr. exists (bit (used_map p) (a / 4096 - base p / 4096)), (a / 4096 - base p / 4096). split_and!; (lia || done).
  - intros (v & i & Hi & E & _). assert (a / 4096 = base p / 4096 + i) by lia. lia.
Qed.

(** palloc_get_page without PAL_ASSERT. *)
Lemma wp_palloc_get_page flags Q m : pool_wf m (selected flags m) -> has flags PAL_ASSERT = false ->
  ((forall i, 0 <= i < bit_cnt (used_map (selected flags m)) -> bit (used_map (selected flags m)) i = true) -> Q NULL m) ->
  (forall i b, let p := selected flags m in
     0 <= i < bit_cnt (used_map p) -> bit (used_map p) i = false -> bitmap_wf b -> bit_cnt b = bit_cnt (used_map p) ->
     (forall j, 0 <= j < bit_cnt b -> bit b j = if decide (i = j) then true else bit (used_map p) j) ->
     kpage (base p + 4096 * i) -> Q (base p + 4096 * i) (handed_out flags b i m)) ->
  wp (palloc_get_page flags) Q m.
Proof.
  intros [Hmap Hbase Hend Hmem] Ha Hnone Hsome. set (p := selected flags m) in *. pose proof (wf_cnt _ Hmap) as Hcnt.
  unfold palloc_get_page, palloc_get_multiple. cbn [Z.eqb]. apply wp_bind, wp_gets.
  assert ((if has flags PAL_USER then user_pool else kernel_pool) m = p) as -> by (unfold p, selected; by destruct (has flags PAL_USER)).
  destruct (bitmap_scan_and_flip_spec (used_map p) 0 1 false Hmap ltac:(lia) ltac:(lia))
    as [(i & b & E & Hi & Hi0 & Hi1 & Hb & Hrun & _ & Htb)|[E Hno]]; (apply wp_bind; eapply wp_lift; [exact E|]); apply wp_bind, wp_modify; cbn [fst snd].
  - rewrite (proj2 (Z.eqb_neq i BITMAP_ERROR)) by done. cbn [negb]. destruct Hbase as [Hb1 Hb2]. unfold PHYS_BASE in Hb1.
    assert (kpage (base p + 4096 * i)) as Hk by (split; [unfold PHYS_BASE; lia|dlia]).
    rewrite u32_small by (unfold PGSIZE; lia). unfold PGSIZE. rewrite (proj2 (Z.eqb_neq _ NULL)) by (unfold NULL; lia). cbn [negb].
    apply (run_one (used_map p) i false) in Hrun; [|lia].
    destruct (bit_after_set (used_map p) b i true Hmap Hb ltac:(lia) Htb) as [Ec Hbits].
    assert (Q (base p + 4096 * i) (handed_out flags b i m)) as HQ by (apply Hsome; try done; [lia|]; intros j Hj; apply Hbits; lia).
    unfold handed_out in HQ. fold p in HQ. destruct (Hmem i ltac:(lia)) as (l & Hl & _).
    destruct (has flags PAL_ZERO).
    + apply wp_bind. unfold wp, memset_pages. change (Z.to_nat 1) with 1%nat. cbn [fill_pages].
      unfold with_pool in HQ. destruct (has flags PAL_USER); cbn [pages set_pools]; rewrite Hl; exact HQ.
    + apply wp_bind, wp_ret, wp_ret. unfold with_pool in HQ. by destruct (has flags PAL_USER).
  - cbn. apply wp_bind. rewrite Ha. apply wp_assert; [done|]. apply wp_ret.
    assert ((if has flags PAL_USER then set_pools (kernel_pool m) (Pool (used_map p) (base p)) m
             else set_pools (Pool (used_map p) (base p)) (user_pool m) m) = m) as ->.
    { unfold p, selected. destruct m as [[] [] ? ? ? ? ?]; simpl. by destruct (has flags PAL_USER). }
    apply Hnone. intros i Hi. destruct (bit (used_map p) i) eqn:F; [done|]. exfalso. apply (Hno i); [lia|]. by apply run_one.
Qed.

(** A page that palloc_get_page returns was free and is allocated
    afterwards; every other page of the pool keeps its state and, unless
    PAL_ZERO clears the new page, memory is not touched.  A null pointer
    means that no page of the pool is free, and changes nothing. *)
Theorem palloc_get_page_fresh flags m : pool_wf m (selected flags m) -> has flags PAL_ASSERT = false ->
  exists r m', palloc_get_page flags m = Ok (r, m') /\ pool_wf m' (selected flags m') /\
    ((r = NULL /\ m' = m /\ forall a, ~ page_state (selected flags m) a false) \/
     (kpage r /\ page_state (selected flags m) r false /\ page_state (selected flags m') r true /\
      (forall a v, a <> r -> page_state (selected flags m) a v <-> page_state (selected flags m') a v) /\
      pages m' = if has flags PAL_ZERO then <[r := replicate 1024 0]> (pages m) else pages m)).
Proof.
  intros Hp Ha. set (R := fun r m' => pool_wf m' (selected flags m') /\
    ((r = NULL /\ m' = m /\ forall a, ~ page_state (selected flags m) a false) \/
     (kpage r /\ page_state (selected flags m) r false /\ page_state (selected flags m') r true /\
      (forall a v, a <> r -> page_state (selected flags m) a v <-> page_state (selected flags m') a v) /\
      pages m' = if has flags PAL_ZERO then <[r := replicate 1024 0]> (pages m) else pages m))).
  destruct (wp_Ok (palloc_get_page flags) R m) as (r & m' & ? & ?); [|by exists r, m'].
  apply wp_palloc_get_page; [done|done| |].
  - intros Hall. split; [done|]. left. split_and!; [done..|]. intros a (i & Hi & _ & Hb). rewrite Hall in Hb; done.
  - intros i b p Hi Hf Hb Ec Hbits Hk. pose proof Hp as [Hmap Hbase Hend Hmem]. fold p in Hmap, Hbase, Hend, Hmem.
    assert (selected flags (handed_out flags b i m) = Pool b (base p)) as Esel.
    { unfold p, handed_out, with_pool, selected. destruct (has flags PAL_ZERO), (has flags PAL_USER); done. }
    assert (pages (handed_out flags b i m) = if has flags PAL_ZERO then <[base p + 4096 * i := replicate 1024 0]> (pages m) else pages m) as Epg.
    { unfold p, handed_out, with_pool. destruct (has flags PAL_ZERO), (has flags PAL_USER); done. }
    unfold R. rewrite Esel, Epg. split.
    { split; cbn [used_map base]; [done..|rewrite Ec; done|]. intros j Hj. rewrite Ec in Hj. rewrite Epg. destruct (has flags PAL_ZERO); [|by apply Hmem].
      destruct (decide (i = j)) as [<-|Hne]; [rewrite lookup_insert_eq; eexists; split; [done|by rewrite length_replicate]|].
      rewrite lookup_insert_ne by lia. by apply Hmem. }
    right. split_and!; [done|by exists i| | |done].
    + exists i. cbn [used_map base]. rewrite Ec. split_and!; [lia..|]. rewrite Hbits by lia. by rewrite decide_True.
    + intros a v Hne. unfold page_state. fold p. cbn [used_map base]. rewrite Ec.
      split; intros (j & Hj & -> & Hv); exists j; pose proof (Hbits j ltac:(lia)) as Hbj; rewrite decide_False in Hbj by (intros ->; done);
        (split_and!; [lia|lia|done|congruence]).
Qed.

(** ** Page directories *)

Definition table (pg : gmap Z (list Z)) (p : Z) (l : list Z) : Prop := pg !! p = Some l /\ length l = 1024%nat /\ kpage p.

(** A page table entry that is present names a frame. *)
Definition pte_ok (w : Z) : Prop := Z.land w PTE_P <> 0 -> exists k f, kpage k /\ 0 <= f < 4096 /\ w = entry k f.

(** The user part of the directory at [pd] is empty or points to page
    tables of its own, which are allocated. *)
Record pd_wf m (pd : Z) (l : list Z) : Prop := {
  pd_pool : pool_wf m (kernel_pool m);
  pd_table : table (pages m) pd l;
  pd_used : page_state (kernel_pool m) pd true;
  pd_pt : forall i e, 0 <= i < 768 -> l !! Z.to_nat i = Some e -> e <> 0 ->
    exists pt lt, e = entry pt 7 /\ table (pages m) pt lt /\ Forall pte_ok lt /\ pt <> pd /\ page_state (kernel_pool m) pt true;
  pd_inj : forall i j e, 0 <= i < 768 -> 0 <= j < 768 -> e <> 0 -> l !! Z.to_nat i = Some e -> l !! Z.to_nat j = Some e -> i = j
}.

(** The page table entry for [va], and the address it translates to. *)
Definition pte_of (pg : gmap Z (list Z)) (pd va : Z) : option Z :=
  l ← pg !! pd; e ← l !! Z.to_nat (pd_no va);
  if e =? 0 then None else lt ← pg !! (e - 7 + PHYS_BASE); lt !! Z.to_nat (pt_no va).
Definition translate (pg : gmap Z (list Z)) (pd va : Z) : Z :=
  match pte_of pg pd va with
  | Some w => if Z.land w PTE_P =? 0 then NULL else w - w mod 4096 + PHYS_BASE + va mod 4096
  | None => NULL
  end.

Definition user (va : Z) : Prop := 0 <= va < PHYS_BASE.

Lemma user_index va : user va -> 0 <= pd_no va < 768 /\ 0 <= pt_no va < 1024 /\ is_user_vaddr va = true.
Proof.
  unfold user, is_user_vaddr, PHYS_BASE. intros H. rewrite pd_no_div, pt_no_mod. split_and!; try lia; [apply Z.div_pos; lia|apply Z.div_lt_upper_bound; lia|..];
    try (apply Z.mod_pos_bound; lia).
Qed.

Lemma same_page_index u v : user u -> user v -> pd_no u = pd_no v -> pt_no u = pt_no v -> pg_no u = pg_no v.
Proof.
  unfold user, PHYS_BASE. rewrite !pd_no_div, !pt_no_mod, !pg_no_div. intros Hu Hv. change (2 ^ 22) with (4096 * 1024). rewrite <- !Z.div_div by lia.
  intros. pose proof (Z.div_mod (u / 4096) 1024 ltac:(lia)). pose proof (Z.div_mod (v / 4096) 1024 ltac:(lia)). congruence.
Qed.

Lemma lookup_word (l : list Z) i : length l = 1024%nat -> 0 <= i < 1024 -> exists w, l !! Z.to_nat i = Some w.
Proof. intros Hl Hi. apply lookup_lt_is_Some_2. lia. Qed.

Lemma page_nonnull p i : kpage p -> 0 <= i < 1024 -> u32 (p + 4 * i) = p + 4 * i /\ u32 (p + 4 * i) <> NULL.
Proof. intros Hp Hi. destruct (word_addr p i Hp Hi) as (E & _). rewrite E. split; [done|]. destruct Hp. unfold NULL, PHYS_BASE in *. lia. Qed.

(** lookup_page on a directory whose entry for [va] is [e]. *)
Lemma wp_lookup_read pd l va c Q m : pd_wf m pd l -> user va ->
  (l !! Z.to_nat (pd_no va) = Some 0 -> c = false /\ Q NULL m) ->
  (forall pt lt, l !! Z.to_nat (pd_no va) = Some (entry pt 7) -> table (pages m) pt lt -> Forall pte_ok lt -> pt <> pd -> Q (u32 (pt + 4 * pt_no va)) m) ->
  wp (lookup_page pd va c) Q m.
Proof.
  intros Hw Hva H0 H1. destruct (user_index va Hva) as (Hi & Hj & Hu). pose proof Hw as [_ (Hl & Hlen & Hk) _ Hpt _].
  unfold lookup_page. apply wp_bind, wp_assert; [destruct Hk; rewrite (proj2 (Z.eqb_neq _ _)); [done|unfold NULL, PHYS_BASE in *; lia]|].
  apply wp_bind, wp_assert; [rewrite Hu; by destruct c|]. cbv zeta. destruct (lookup_word l (pd_no va) Hlen ltac:(lia)) as [e He].
  apply wp_bind. eapply wp_load; [done|lia|exact Hl|exact He|]. destruct (Z.eqb_spec e 0) as [->|Hne].
  - destruct (H0 He) as [-> HQ]. apply wp_bind, wp_ret, wp_ret. exact HQ.
  - apply wp_bind, wp_ret. apply wp_bind. eapply wp_load; [done|lia|exact Hl|exact He|].
    destruct (Hpt _ _ Hi He Hne) as (pt & lt & -> & Ht & Hok & Hnpd & _). apply wp_bind. eapply wp_lift; [apply pde_get_pt_ok; [apply Ht|lia|done]|].
    apply wp_ret. by eapply H1.
Qed.

Lemma entry_back p f : entry p f - f + PHYS_BASE = p.
Proof. unfold entry. lia. Qed.
Lemma entry_nonzero p f : kpage p -> 0 < f -> entry p f <> 0.
Proof. intros [? _] ?. unfold entry, PHYS_BASE in *. lia. Qed.

Lemma get_page_translates pd l va m : pd_wf m pd l -> user va -> pagedir_get_page pd va m = Ok (translate (pages m) pd va, m).
Proof.
  intros Hw Hva. destruct (user_index va Hva) as (Hi & Hj & Hu). pose proof Hw as [_ (Hl & Hlen & Hk) _ _ _].
  destruct (wp_Ok (pagedir_get_page pd va) (fun r m' => r = translate (pages m) pd va /\ m' = m) m) as (r & m' & E & -> & ->); [|exact E].
  unfold pagedir_get_page. apply wp_bind, wp_assert; [done|]. apply wp_bind. unfold translate, pte_of. rewrite Hl. cbn [mbind option_bind].
  eapply wp_lookup_read; [exact Hw|exact Hva| |].
  - intros ->. split; [done|]. by apply wp_ret.
  - intros pt lt He (Hlt & Hlenl & Hkp) Hok _. rewrite He. cbn [mbind option_bind]. rewrite (proj2 (Z.eqb_neq (entry pt 7) 0)) by (apply entry_nonzero; [done|lia]).
    rewrite entry_back, Hlt. cbn [mbind option_bind]. destruct (page_nonnull pt (pt_no va) Hkp Hj) as [_ Hn]. rewrite (proj2 (Z.eqb_neq _ NULL)) by done.
    destruct (lookup_word lt (pt_no va) Hlenl Hj) as [w Hwd]. rewrite Hwd. apply wp_bind. eapply wp_load; [exact Hkp|exact Hj|exact Hlt|exact Hwd|].
    destruct (Z.eqb_spec (Z.land w PTE_P) 0) as [E|E]; cbn [negb]; [by apply wp_ret|].
    destruct (proj1 (Forall_lookup _ _) Hok _ _ Hwd E) as (k & f & Hkk & Hf & ->). apply wp_bind. eapply wp_lift; [by apply entry_page|].
    apply wp_ret. split; [|done]. rewrite entry_mod, pg_ofs_mod by done. pose proof Hkk as [Hr Hm]. unfold entry.
    rewrite u32_small; [lia|]. unfold PHYS_BASE in *. dlia.
Qed.

(** *** Writing one entry of a page table *)

Lemma table_insert pg p l q lq : table pg p l -> length lq = 1024%nat -> table (<[q := lq]> pg) p (if decide (q = p) then lq else l).
Proof.
  intros (Hl & Hlen & Hk) Hq. case_decide as E; [subst; split_and!; [apply lookup_insert_eq|done|done]|].
  split_and!; [by rewrite lookup_insert_ne|done|done].
Qed.

Lemma pool_wf_pages m pg p : pool_wf m p ->
  (forall a l, pages m !! a = Some l -> length l = 1024%nat -> exists l', pg !! a = Some l' /\ length l' = 1024%nat) -> pool_wf (set_pages pg m) p.
Proof. intros [H1 H2 H3 H4] Hpg. split; [done..|]. intros i Hi. destruct (H4 i Hi) as (l & Hl & Hlen). by eapply Hpg. Qed.

Lemma insert_table_len (pg : gmap Z (list Z)) q lq a l : length lq = 1024%nat -> pg !! a = Some l -> length l = 1024%nat ->
  exists l', <[q := lq]> pg !! a = Some l' /\ length l' = 1024%nat.
Proof. intros. destruct (decide (q = a)) as [->|]; [rewrite lookup_insert_eq; eauto|rewrite lookup_insert_ne by done; eauto]. Qed.

(** [w] is stored as entry [j] of page table [pt], the table for [u]. *)
Lemma store_pte m pd l u pt lt w : pd_wf m pd l -> user u -> l !! Z.to_nat (pd_no u) = Some (entry pt 7) -> table (pages m) pt lt -> pt <> pd -> pte_ok w ->
  let pg := <[pt := <[Z.to_nat (pt_no u) := w]> lt]> (pages m) in
  pd_wf (set_pages pg m) pd l /\
  pte_of pg pd u = Some w /\ forall v, user v -> pg_no v <> pg_no u -> pte_of pg pd v = pte_of (pages m) pd v.
Proof.
  intros [Hpool Htab Hused Hpt Hinj] Hu He Ht Hne Hok pg. pose proof Ht as (Hlt & Hlen & Hk). destruct (user_index u Hu) as (Hi & Hj & _).
  assert (length (<[Z.to_nat (pt_no u) := w]> lt) = 1024%nat) as Hlen' by (by rewrite length_insert).
  assert (entry pt 7 <> 0) as Hnz by (apply entry_nonzero; [done|lia]).
  assert (pg !! pd = Some l) as Hpd by (unfold pg; rewrite lookup_insert_ne by done; apply Htab).
  assert (pages m !! pd = Some l) as Hpd0 by apply Htab.
  assert (Forall pte_ok (<[Z.to_nat (pt_no u) := w]> lt)) as HokF.
  { destruct (Hpt _ _ Hi He Hnz) as (pt' & lt' & E & Ht' & HF & _). assert (pt' = pt) as -> by (unfold entry in E; lia).
    destruct Ht' as [Ht' _]. rewrite Hlt in Ht'. injection Ht' as <-. by apply Forall_insert. }
  split_and!.
  - split; cbn [pages set_pages kernel_pool]; [|pose proof (table_insert _ pd l pt _ Htab Hlen') as H; by rewrite decide_False in H|done| |done].
    + apply pool_wf_pages; [done|]. intros a la Ha Hla. by eapply insert_table_len.
    + intros i e Hii Hie Hn. destruct (Hpt i e Hii Hie Hn) as (q & lq & -> & Hq & HF & Hqd & Hqu). pose proof (table_insert _ q lq pt _ Hq Hlen') as Hq'.
      exists q. case_decide; [subst; eauto 10|eauto 10].
  - unfold pte_of. rewrite Hpd. cbn [mbind option_bind]. rewrite He. cbn [mbind option_bind]. rewrite (proj2 (Z.eqb_neq _ _)) by done.
    rewrite entry_back. unfold pg. rewrite lookup_insert_eq. cbn [mbind option_bind]. rewrite list_lookup_insert_eq by lia. done.
  - intros v Hv Hpn. unfold pte_of. rewrite Hpd, Hpd0. cbn [mbind option_bind]. destruct (l !! Z.to_nat (pd_no v)) as [e|] eqn:Ev; [|done]. cbn [mbind option_bind].
    destruct (Z.eqb_spec e 0) as [|Hn]; [done|]. destruct (user_index v Hv) as (Hvi & Hvj & _).
    destruct (Hpt _ _ Hvi Ev Hn) as (q & lq & -> & Hq & _). rewrite entry_back. unfold pg. destruct (decide (pt = q)) as [<-|Hnq]; [|by rewrite lookup_insert_ne].
    rewrite lookup_insert_eq, Hlt. cbn [mbind option_bind]. rewrite list_lookup_insert_ne; [done|]. intros E. apply Hpn.
    apply same_page_index; [done..| |lia]. by apply (Hinj _ _ _ Hvi Hi Hnz).
Qed.

(** *** A new page table *)

Lemma has_zero_user : has PAL_ZERO PAL_USER = false /\ has PAL_ZERO PAL_ZERO = true.
Proof. done. Qed.

Lemma zero_pte : pte_ok 0.
Proof. intros H. by rewrite Z.land_0_l in H. Qed.

(** [pt], a free page of the kernel pool, becomes the page table for [u]. *)
Lemma new_table m pd l u i b : let p := kernel_pool m in let pt := base p + 4096 * i in
  let m1 := handed_out PAL_ZERO b i m in let l' := <[Z.to_nat (pd_no u) := entry pt 7]> l in
  pd_wf m pd l -> user u -> l !! Z.to_nat (pd_no u) = Some 0 -> 0 <= i < bit_cnt (used_map p) -> bit (used_map p) i = false -> bitmap_wf b ->
  bit_cnt b = bit_cnt (used_map p) -> (forall j, 0 <= j < bit_cnt b -> bit b j = if decide (i = j) then true else bit (used_map p) j) -> kpage pt ->
  let m2 := set_pages (<[pd := l']> (pages m1)) m1 in
  pd_wf m2 pd l' /\ table (pages m2) pt (replicate 1024 0) /\ pt <> pd /\
  forall v, user v -> translate (pages m2) pd v = translate (pages m) pd v.
Proof.
  intros p pt m1 l' Hw Hu He Hi Hf Hb Ec Hbits Hk m2. pose proof Hw as [Hpool (Hl & Hlen & Hkpd) Hused Hpt Hinj]. destruct (user_index u Hu) as (Hui & _ & _).
  assert (forall a, page_state p a true -> page_state (Pool b (base p)) a true) as Hmono.
  { intros a (j & Hj & -> & Hbj). exists j. cbn [used_map base]. rewrite Ec. split_and!; [lia|lia|done|]. rewrite Hbits by lia. by case_decide. }
  assert (forall a, page_state p a true -> a <> pt) as Hfresh.
  { intros a (j & Hj & -> & Hbj) E. unfold pt in E. assert (j = i) as -> by lia. congruence. }
  assert (pt <> pd) as Hptpd by (intros E; by apply (Hfresh pd)).
  assert (kernel_pool m2 = Pool b (base p) /\ pages m2 = <[pd := l']> (<[pt := replicate 1024 0]> (pages m))) as [Ek Epg] by done.
  assert (length l' = 1024%nat) as Hlen' by (unfold l'; by rewrite length_insert).
  assert (entry pt 7 <> 0) as Hnz by (apply entry_nonzero; [done|lia]).
  assert (forall j e, 0 <= j < 768 -> l' !! Z.to_nat j = Some e -> (j = pd_no u /\ e = entry pt 7) \/ (j <> pd_no u /\ l !! Z.to_nat j = Some e)) as Hl'.
  { intros j e Hj Hje. unfold l' in Hje. destruct (decide (j = pd_no u)) as [->|Hne].
    - rewrite list_lookup_insert_eq in Hje by lia. injection Hje as <-. by left.
    - rewrite list_lookup_insert_ne in Hje by lia. by right. }
  assert (forall q lq, table (pages m) q lq -> page_state p q true -> q <> pd -> table (pages m2) q lq) as Hold.
  { intros q lq (Hq & Hql & Hqk) Hqu Hqd. split_and!; [|done|done]. rewrite Epg, !lookup_insert_ne; [done| |done]. apply not_eq_sym. by apply Hfresh. }
  assert (forall e q, l !! Z.to_nat e = Some (entry q 7) -> 0 <= e < 768 -> kpage q -> page_state p q true /\ q <> pd) as Hent.
  { intros e q Heq Hee Hkq. destruct (Hpt _ _ Hee Heq) as (q' & lq & E & _ & _ & ? & ?); [apply entry_nonzero; [done|lia]|].
    assert (q = q') as -> by (unfold entry in E; lia). done. }
  split_and!.
  - split.
    + rewrite Ek. destruct Hpool as [P1 P2 P3 P4]. split; cbn [used_map base]; [done|done|rewrite Ec; done|]. intros j Hj. rewrite Ec in Hj. rewrite Epg.
      destruct (P4 j Hj) as (la & Hla & Hlla). destruct (insert_table_len (pages m) pt (replicate 1024 0) _ la ltac:(by rewrite length_replicate) Hla Hlla) as (lb & Hlb & Hllb).
      by eapply insert_table_len.
    + rewrite Epg. split_and!; [apply lookup_insert_eq|done|done].
    + rewrite Ek. by apply Hmono.
    + rewrite Ek. intros j e Hj Hje Hne. destruct (Hl' j e Hj Hje) as [[-> ->]|[Hju Hje']].
      * exists pt, (replicate 1024 0). split_and!; [done| |by apply Forall_replicate, zero_pte|done|].
        { rewrite Epg. split_and!; [by rewrite lookup_insert_ne, lookup_insert_eq|by rewrite length_replicate|done]. }
        exists i. cbn [used_map base]. rewrite Ec. split_and!; [lia|lia|done|]. rewrite Hbits by lia. by rewrite decide_True.
      * destruct (Hpt j e Hj Hje' Hne) as (q & lq & -> & Hq & HF & Hqd & Hqu). exists q, lq. split_and!; [done|by apply Hold|done|done|by apply Hmono].
    + intros j j' e Hj Hj' Hne H1 H2. destruct (Hl' j e Hj H1) as [[-> E1]|[N1 E1]], (Hl' j' e Hj' H2) as [[-> E2]|[N2 E2]]; [done| | |by eapply Hinj].
      * rewrite E1 in E2. destruct (Hent j' pt E2 Hj' Hk) as [Hx _]. by apply Hfresh in Hx.
      * rewrite E2 in E1. destruct (Hent j pt E1 Hj Hk) as [Hx _]. by apply Hfresh in Hx.
  - rewrite Epg. split_and!; [by rewrite lookup_insert_ne, lookup_insert_eq|by rewrite length_replicate|done].
  - done.
  - intros v Hv. destruct (user_index v Hv) as (Hvi & Hvj & _). unfold translate, pte_of. rewrite Epg, lookup_insert_eq, Hl. cbn [mbind option_bind].
    destruct (decide (pd_no v = pd_no u)) as [E|E].
    + rewrite E, He. unfold l'. rewrite list_lookup_insert_eq by lia. cbn [mbind option_bind]. rewrite (proj2 (Z.eqb_neq (entry pt 7) 0)) by done.
      rewrite entry_back, lookup_insert_ne, lookup_insert_eq by done. cbn [mbind option_bind]. by rewrite lookup_replicate_2 by lia.
    + unfold l'. rewrite list_lookup_insert_ne by lia. destruct (l !! Z.to_nat (pd_no v)) as [e|] eqn:Ev; [|done]. cbn [mbind option_bind].
      destruct (Z.eqb_spec e 0) as [|Hn]; [done|]. destruct (Hpt _ _ Hvi Ev Hn) as (q & lq & -> & Hq & _ & Hqd & Hqu). rewrite entry_back.
      rewrite !lookup_insert_ne; [done|apply not_eq_sym; by apply Hfresh|done].
Qed.

(** What a change of page tables leaves alone: everything outside the
    kernel pool. *)
Record kframe m m' : Prop := {
  kf_user : user_pool m' = user_pool m;
  kf_ram : init_ram_pages m' = init_ram_pages m;
  kf_init : init_page_dir m' = init_page_dir m;
  kf_base : base (kernel_pool m') = base (kernel_pool m);
  kf_cnt : bit_cnt (used_map (kernel_pool m')) = bit_cnt (used_map (kernel_pool m));
  kf_pages : forall a, (forall v, ~ page_state (kernel_pool m) a v) -> pages m' !! a = pages m !! a
}.

Lemma kframe_refl m : kframe m m.
Proof. by split. Qed.

(** Whether a page belongs to a pool depends on its base and size only. *)
Lemma page_state_any p p' a v : base p' = base p -> bit_cnt (used_map p') = bit_cnt (used_map p) -> page_state p' a v -> exists w, page_state p a w.
Proof. intros Eb Ec (i & Hi & -> & _). exists (bit (used_map p) i), i. rewrite Eb, Ec in *. done. Qed.

Lemma kframe_store m m' a l : kframe m m' -> (exists v, page_state (kernel_pool m') a v) -> kframe m (set_pages (<[a := l]> (pages m')) m').
Proof.
  intros [H1 H2 H3 H4 H5 H6] [v Ha]. split; cbn [set_pages user_pool init_ram_pages init_page_dir kernel_pool pages]; try done.
  intros b Hb. rewrite lookup_insert_ne; [by apply H6|]. intros ->. destruct (page_state_any _ _ _ _ H4 H5 Ha) as [w Hw]. by eapply Hb.
Qed.

Lemma wp_lookup_create pd l u Q m : pd_wf m pd l -> user u ->
  Q NULL m ->
  (forall pt lt l' m', pd_wf m' pd l' -> l' !! Z.to_nat (pd_no u) = Some (entry pt 7) -> table (pages m') pt lt -> pt <> pd ->
     (forall v, user v -> translate (pages m') pd v = translate (pages m) pd v) -> kframe m m' ->
     Q (u32 (pt + 4 * pt_no u)) m') ->
  wp (lookup_page pd u true) Q m.
Proof.
  intros Hw Hu Hnull Hok. destruct (user_index u Hu) as (Hi & Hj & Huv). pose proof Hw as [Hpool (Hl & Hlen & Hk) _ Hpt _].
  destruct (lookup_word l (pd_no u) Hlen ltac:(lia)) as [e He]. destruct (decide (e = 0)) as [->|Hne].
  2: { eapply wp_lookup_read; [exact Hw|exact Hu| |]; [intros H; congruence|]. intros pt lt He' Ht _ Hd. eapply Hok; [done..|apply kframe_refl]. }
  unfold lookup_page. apply wp_bind, wp_assert; [destruct Hk; rewrite (proj2 (Z.eqb_neq _ _)); [done|unfold NULL, PHYS_BASE in *; lia]|].
  apply wp_bind, wp_assert; [by rewrite Huv|]. cbv zeta. apply wp_bind. eapply wp_load; [done|lia|exact Hl|exact He|]. cbn [Z.eqb].
  apply wp_bind, wp_bind. apply wp_palloc_get_page; [done|done| |].
  - intros _. cbn. by apply wp_ret, wp_ret.
  - intros i b p Hib Hf Hb Ec Hbits Hkp. change p with (kernel_pool m) in *. clear p. set (pt := base (kernel_pool m) + 4096 * i) in *.
    rewrite (proj2 (Z.eqb_neq pt NULL)) by (destruct Hkp; unfold NULL, PHYS_BASE in *; lia).
    destruct (new_table m pd l u i b Hw Hu He Hib Hf Hb Ec Hbits Hkp) as (Hw2 & Ht2 & Hd2 & Htr). fold pt in Hw2, Ht2, Hd2, Htr.
    assert (pages (handed_out PAL_ZERO b i m) !! pd = Some l) as Hl1.
    { change (pages (handed_out PAL_ZERO b i m)) with (<[pt := replicate 1024 0]> (pages m)). by rewrite lookup_insert_ne. }
    apply wp_bind. eapply wp_lift; [by apply pde_create_ok|]. apply wp_bind. eapply wp_store; [done|lia|exact Hl1|]. apply wp_ret. apply wp_bind.
    assert (<[Z.to_nat (pd_no u) := entry pt 7]> l !! Z.to_nat (pd_no u) = Some (entry pt 7)) as He2 by (apply list_lookup_insert_eq; lia).
    eapply wp_load; [done|lia|apply (pd_table _ _ _ Hw2)|exact He2|].
    apply wp_bind. eapply wp_lift; [apply pde_get_pt_ok; [done|lia|done]|]. apply wp_ret. eapply Hok; [done..|].
    split; [done..|exact Ec|]. intros a Ha. assert (a <> pd) by (intros ->; eapply Ha, (pd_used _ _ _ Hw)). assert (a <> pt) by (intros ->; eapply Ha; by exists i).
    change (<[pd := <[Z.to_nat (pd_no u) := entry pt 7]> l]> (<[pt := replicate 1024 0]> (pages m)) !! a = pages m !! a). by rewrite !lookup_insert_ne.
Qed.

Lemma unmapped_entry pg pd u w : 0 <= u -> pte_of pg pd u = Some w -> pte_ok w -> translate pg pd u = NULL -> Z.land w PTE_P = 0.
Proof.
  intros Hu Hw Hok Ht. unfold translate in Ht. rewrite Hw in Ht. destruct (Z.eqb_spec (Z.land w PTE_P) 0) as [|E]; [done|].
  destruct (Hok E) as (k & f & [Hk _] & Hf & ->). pose proof (Z.mod_pos_bound u 4096 ltac:(lia)). pose proof (Z.mod_le (entry k f) 4096).
  unfold entry, NULL, PHYS_BASE in *. lia.
Qed.

Lemma translate_mapped pg pd u v k f : kpage k -> 0 <= f < 4096 -> Z.testbit f 0 = true -> pte_of pg pd u = Some (entry k f) -> user u -> user v ->
  pg_no v = pg_no u -> pd_no v = pd_no u -> pt_no v = pt_no u -> translate pg pd v = k + pg_ofs v.
Proof.
  intros Hk Hf Hb He Hu Hv E1 E2 E3. unfold translate. assert (pte_of pg pd v = Some (entry k f)) as -> by (unfold pte_of in *; by rewrite E2, E3).
  rewrite (proj2 (Z.eqb_neq _ _)) by (by apply entry_present). rewrite entry_mod, pg_ofs_mod by done. unfold entry. lia.
Qed.

Lemma page_index u v : user u -> user v -> pg_no v = pg_no u -> pd_no v = pd_no u /\ pt_no v = pt_no u.
Proof.
  intros Hu Hv. rewrite !pd_no_div, !pt_no_mod, !pg_no_div. change (2 ^ 22) with (4096 * 1024). rewrite <- !Z.div_div by lia. by intros ->.
Qed.

Lemma set_page_ok pd l u k w m : pd_wf m pd l -> user u -> pg_ofs u = 0 -> kpage k -> (k - PHYS_BASE) / 4096 < init_ram_pages m ->
  pd <> init_page_dir m -> translate (pages m) pd u = NULL ->
  wp (pagedir_set_page pd u k w) (fun b m' =>
    if b : bool then (exists l', pd_wf m' pd l') /\ kframe m m' /\
      forall v, user v -> translate (pages m') pd v = if pg_no v =? pg_no u then k + pg_ofs v else translate (pages m) pd v
    else m' = m) m.
Proof.
  intros Hw Hu Hal Hk Hram Hinit Hun.
  destruct (user_index u Hu) as (Hi & Hj & Huv). set (f := if w then 7 else 5).
  assert (0 <= f < 4096 /\ Z.testbit f 0 = true) as [Hf Hfb] by (unfold f; destruct w; split; (lia || done)).
  unfold pagedir_set_page. apply wp_bind, wp_assert; [by apply Z.eqb_eq|]. apply wp_bind, wp_assert; [rewrite pg_ofs_mod; apply Z.eqb_eq, Hk|].
  apply wp_bind, wp_assert; [done|]. apply wp_bind. eapply wp_lift; [by apply vtop_ok|]. apply wp_bind, wp_gets.
  apply wp_bind, wp_assert; [change PTSHIFT with 12; rewrite Z.shiftr_div_pow2 by lia; apply Z.ltb_lt; exact Hram|].
  apply wp_bind, wp_gets. apply wp_bind, wp_assert; [by rewrite (proj2 (Z.eqb_neq _ _))|]. apply wp_bind. apply (wp_lookup_create pd l u); [done|done| |].
  - cbn. apply wp_ret. done.
  - intros pt lt l' m1 Hw1 He1 Ht1 Hd1 Htr Hkf. pose proof Ht1 as (Hlt & Hlen & Hkp). destruct (page_nonnull pt (pt_no u) Hkp Hj) as [_ Hn].
    rewrite (proj2 (Z.eqb_neq _ NULL)) by done. cbn [negb]. destruct (lookup_word lt (pt_no u) Hlen Hj) as [x Hx].
    assert (pte_of (pages m1) pd u = Some x) as Hpx.
    { unfold pte_of. destruct (pd_table _ _ _ Hw1) as (-> & _ & _). cbn [mbind option_bind]. rewrite He1. cbn [mbind option_bind].
      rewrite (proj2 (Z.eqb_neq (entry pt 7) 0)) by (apply entry_nonzero; [done|lia]). by rewrite entry_back, Hlt. }
    assert (pte_ok x) as Hxok.
    { destruct (pd_pt _ _ _ Hw1 _ _ Hi He1) as (q & lq & E & (Hq & _) & HF & _); [apply entry_nonzero; [done|lia]|].
      assert (q = pt) as -> by (unfold entry in E; lia). rewrite Hlt in Hq. injection Hq as <-. exact (proj1 (Forall_lookup _ _) HF _ _ Hx). }
    assert (Z.land x PTE_P = 0) as Hx0.
    { eapply (unmapped_entry (pages m1) pd u); [destruct Hu; lia|exact Hpx|exact Hxok|]. by rewrite Htr. }
    apply wp_bind. eapply wp_load; [exact Hkp|exact Hj|exact Hlt|exact Hx|]. apply wp_bind, wp_assert; [by apply Z.eqb_eq|].
    apply wp_bind. eapply wp_lift; [by apply pte_create_ok|]. apply wp_bind. eapply wp_store; [exact Hkp|exact Hj|exact Hlt|]. apply wp_ret. fold f.
    assert (pte_ok (entry k f)) as Hnew by (intros _; by exists k, f).
    destruct (store_pte m1 pd l' u pt lt (entry k f) Hw1 Hu He1 Ht1 Hd1 Hnew) as (Hw2 & Hpu & Hpo). split; [by eauto|]. split.
    { apply kframe_store; [done|]. destruct (pd_pt _ _ _ Hw1 _ _ Hi He1) as (q & lq & E & _ & _ & _ & Hq); [apply entry_nonzero; [done|lia]|].
      assert (q = pt) as -> by (unfold entry in E; lia). eauto. }
    intros v Hv. cbn [pages set_pages]. destruct (Z.eqb_spec (pg_no v) (pg_no u)) as [E|E].
    + destruct (page_index u v Hu Hv E) as [E1 E2]. by eapply translate_mapped.
    + unfold translate at 1. rewrite (Hpo v Hv E). fold (translate (pages m1) pd v). by apply Htr.
Qed.

End memory.

(** ** A small machine

    Eight pages of memory from 1 MB on, all in the kernel pool; page 0 is
    a page directory and page 7 a frame. *)
Definition small_pool : pool := Pool (Bitmap 8 [129]) 0xc0100000.
Definition small_pages : gmap Z (list Z) :=
  list_to_map ((fun i => (0xc0100000 + 4096 * i, replicate 1024 0)) <$> seqZ 0 8).
Definition small_machine : machine := Machine small_pool small_pool small_pages 0xc0200000 1024 0 0.

Lemma small_lookup i : 0 <= i < 8 -> small_pages !! (0xc0100000 + 4096 * i) = Some (replicate 1024 0).
Proof.
  intros Hi. assert (i ∈ seqZ 0 8) as H by (apply elem_of_seqZ; lia).
  apply elem_of_list_to_map_1; [|apply list_elem_of_fmap; eauto]. rewrite <- list_fmap_compose.
  match goal with |- NoDup (?f <$> _) => assert (Inj (=) (=) f) by (intros x y; cbn; lia) end. apply NoDup_fmap_2; [done|apply NoDup_seqZ].
Qed.

Lemma small_pool_wf : pool_wf small_machine small_pool.
Proof.
  split; [split; cbn; [lia|done|]|split; [unfold PHYS_BASE; cbn; lia|done]|cbn; lia|].
  - constructor; [unfold is_word; lia|constructor].
  - intros i Hi. exists (replicate 1024 0). split; [by apply small_lookup|by rewrite length_replicate].
Qed.

Lemma small_pd_wf : pd_wf small_machine 0xc0100000 (replicate 1024 0).
Proof.
  split; [apply small_pool_wf|split_and!; [exact (small_lookup 0 ltac:(lia))|by rewrite length_replicate|split; [unfold PHYS_BASE; lia|done]]| | |].
  - exists 0. split_and!; [done..|]. reflexivity.
  - intros i e Hi He Hne. apply lookup_replicate in He as [-> _]. done.
  - intros i j e Hi Hj Hne He _. apply lookup_replicate in He as [-> _]. done.
Qed.

Lemma palloc_get_page_fresh_witness : exists r m', palloc_get_page PAL_ZERO small_machine = Ok (r, m') /\ page_state (selected PAL_ZERO m') 0xc0101000 true.
Proof.
  destruct (palloc_get_page_fresh PAL_ZERO small_machine small_pool_wf eq_refl) as (r & m' & E & _ & _).
  exists r, m'. split; [exact E|]. vm_compute in E. injection E as <- <-. exists 1. split; [split; [discriminate|reflexivity]|]. split; reflexivity.
Defined.

