(* ===== verification/Boot.v ===== *)
(** * Start-up: the kernel's page tables and the task-state segment
      (src/threads/init.c: paging_init; src/userprog/tss.c)

    paging_init builds the page directory every process's directory starts
    from.  [start] and [end_text] are the addresses of the symbols _start
    and _end_kernel_text.  *)

From S2P Require Import Prelude Memory Wp Bitmap Pages PageLaws Descriptors.

Definition set_init_page_dir (pd : Z) (m : machine) : machine :=
  Machine (kernel_pool m) (user_pool m) (pages m) pd (init_ram_pages m) (cr3 m) (tlb_loads m).

Section paging.
Context (start end_text : Z).

Definition in_kernel_text (vaddr : Z) : bool := (start <=? vaddr) && (vaddr <? end_text).

(** The loop of paging_init; [pt] is the page table in use. *)
Fixpoint map_loop (n : nat) (page pd pt : Z) : st machine unit :=
  match n with
  | O => mret tt
  | S n' =>
      vaddr ← lift (ptov (u32 (page * PGSIZE)));
      let pde := u32 (pd + 4 * pd_no vaddr) in
      w ← load_word pde;
      pt' ← (if w =? 0 then
               q ← palloc_get_page (Z.lor PAL_ASSERT PAL_ZERO);
               e ← lift (pde_create q); store_word pde e ≫= fun _ => mret q
             else mret pt);
      e ← lift (pte_create_kernel vaddr (negb (in_kernel_text vaddr)));
      store_word (u32 (pt' + 4 * pt_no vaddr)) e ≫= fun _ => map_loop n' (page + 1) pd pt'
  end.

Definition paging_init : st machine unit :=
  pd ← palloc_get_page (Z.lor PAL_ASSERT PAL_ZERO);
  modify (set_init_page_dir pd) ≫= fun _ =>
  n ← gets init_ram_pages;
  map_loop (Z.to_nat n) 0 pd NULL ≫= fun _ =>
  ipd ← gets init_page_dir; p ← lift (vtop ipd); modify (set_cr3 p).
End paging.

(** ** The task-state segment

    struct tss in a page: esp0 is word 1, ss0 the low half of word 2, bitmap
    the high half of word 25. *)

Definition set_low (v w : Z) : Z := Z.land w 0xffff0000 + v.
Definition set_high (v w : Z) : Z := Z.land w 0xffff + 2 ^ 16 * v.
Definition update_word (a : Z) (f : Z -> Z) : st machine unit := w ← load_word a; store_word a (f w).

(** [cur] is thread_current (). *)
Definition tss_update (tss cur : Z) : st machine unit :=
  kassert_st (negb (tss =? NULL)) ≫= fun _ => store_word (u32 (tss + 4 * 1)) (u32 (cur + PGSIZE)).
Definition tss_init (cur : Z) : st machine Z :=
  tss ← palloc_get_page (Z.lor PAL_ASSERT PAL_ZERO);
  update_word (u32 (tss + 4 * 2)) (set_low SEL_KDSEG) ≫= fun _ =>
  update_word (u32 (tss + 4 * 25)) (set_high 0xdfff) ≫= fun _ =>
  tss_update tss cur ≫= fun _ => mret tss.

(** ** Allocation that must not fail *)

(** The kernel pool has at least [k] free pages. *)
Definition free_pages (k : nat) (m : machine) : Prop :=
  exists l, (k <= length l)%nat /\ NoDup l /\ forall a, a ∈ l -> page_state (kernel_pool m) a false.

Lemma free_pages_mono k k' m : (k' <= k)%nat -> free_pages k m -> free_pages k' m.
Proof. intros Hk (l & Hl & H). exists l. split; [lia|done]. Qed.

(** The new page [a] of [m'], zeroed. *)
Record taken (m m' : machine) (a : Z) : Prop := {
  tk_free : page_state (kernel_pool m) a false;
  tk_used : page_state (kernel_pool m') a true;
  tk_page : kpage a;
  tk_pool : pool_wf m' (kernel_pool m');
  tk_pages : pages m' = <[a := replicate 1024 0]> (pages m);
  tk_keep : forall x v, x <> a -> page_state (kernel_pool m) x v <-> page_state (kernel_pool m') x v;
  tk_rest : user_pool m' = user_pool m /\ init_page_dir m' = init_page_dir m /\ init_ram_pages m' = init_ram_pages m /\ cr3 m' = cr3 m
}.

Lemma assert_same m r m' : palloc_get_page PAL_ZERO m = Ok (r, m') -> r <> NULL -> palloc_get_page (Z.lor PAL_ASSERT PAL_ZERO) m = Ok (r, m').
Proof.
  unfold palloc_get_page, palloc_get_multiple. change (has (Z.lor PAL_ASSERT PAL_ZERO) PAL_USER) with false. change (has PAL_ZERO PAL_USER) with false.
  change (has (Z.lor PAL_ASSERT PAL_ZERO) PAL_ZERO) with true. change (has PAL_ZERO PAL_ZERO) with true. change (has (Z.lor PAL_ASSERT PAL_ZERO) PAL_ASSERT) with true. change (has PAL_ZERO PAL_ASSERT) with false.
  cbn [Z.eqb]. unfold mbind, st_bind, lift, gets, modify, mret, st_ret. destruct (bitmap_scan_and_flip _ 0 1 false) as [b|]; [|done]. cbn [negb].
  set (pgs := if negb (fst b =? BITMAP_ERROR) then _ else _). destruct (Z.eqb_spec pgs NULL) as [->|Hne]; cbn [negb kassert_st]; [|done]. by intros [= <- <-].
Qed.

Lemma wp_take k m Q : pool_wf m (kernel_pool m) -> free_pages (S k) m -> (forall a m', taken m m' a -> free_pages k m' -> Q a m') -> wp (palloc_get_page (Z.lor PAL_ASSERT PAL_ZERO)) Q m.
Proof.
  intros Hw (l & Hl & Hnd & Hf) HQ. assert (wp (palloc_get_page PAL_ZERO) (fun a m' => taken m m' a) m) as Hwp.
  { apply wp_palloc_get_page; [exact Hw|done| |].
    - intros Hall. destruct l as [|a l]; [cbn in Hl; lia|]. destruct (Hf a ltac:(by left)) as (i & Hi & _ & Hb). exfalso. change (selected PAL_ZERO m) with (kernel_pool m) in Hall. rewrite Hall in Hb; done.
    - cbv zeta. change (selected PAL_ZERO m) with (kernel_pool m). intros i b Hi Hfr Hb Hc Hbits Hk.
      change (handed_out PAL_ZERO b i m) with (set_pages (<[base (kernel_pool m) + 4096 * i := replicate 1024 0]> (pages m)) (set_pools (Pool b (base (kernel_pool m))) (user_pool m) m)).
      destruct Hw as [H1 H2 H3 H4]. split; cbn [set_pages set_pools kernel_pool pages user_pool init_page_dir init_ram_pages cr3].
      + by exists i.
      + exists i. cbn [used_map base]. rewrite Hc. split_and!; [lia|lia|done|]. rewrite Hbits by lia. by rewrite decide_True.
      + done.
      + split; cbn [used_map base pages set_pools set_pages]; rewrite ?Hc; [done..|]. intros j Hj. destruct (H4 j Hj) as (lj & Hlj & Hn). eapply insert_table_len; [by rewrite length_replicate|exact Hlj|done].
      + done.
      + intros x v Hx. unfold page_state. cbn [used_map base]. rewrite Hc. split; intros (j & Hj & -> & Hv); exists j; (split_and!; [lia|lia|done|]); rewrite Hbits in * by lia; rewrite decide_False in * by (intros ->; done); done.
      + done. }
  unfold wp in Hwp. destruct (palloc_get_page PAL_ZERO m) as [[a m']|] eqn:E; [|done]. unfold wp. rewrite (assert_same m a m'); [|done|destruct Hwp as [_ _ [Hk _] _ _ _ _]; unfold NULL, PHYS_BASE in *; lia].
  apply HQ; [done|]. exists (filter (.≠ a) l). split_and!.
  - destruct (decide (a ∈ l)) as [Hin|Hnot].
    + apply list_elem_of_split in Hin as (l1 & l2 & ->). rewrite list.filter_app, filter_cons_False by naive_solver. apply list.NoDup_app in Hnd as (_ & Hd & H2). apply list.NoDup_cons in H2 as [H2 _].
      assert (filter (.≠ a) l1 = l1 /\ filter (.≠ a) l2 = l2) as [-> ->].
      { split; apply filter_all, list.Forall_forall; intros x Hx ->; [apply (Hd _ Hx); by left|done]. }
      rewrite !length_app in *. cbn [length] in Hl. lia.
    + rewrite filter_all; [lia|]. apply list.Forall_forall. intros x Hx ->. done.
  - by apply list.NoDup_filter.
  - intros x [Hx Hin]%list_elem_of_filter. eapply (tk_keep _ _ _ Hwp); [done|]. by apply Hf.
Qed.

(** ** The tables paging_init builds *)

Section tables.
Context (start end_text : Z).

(** The address of page [j] of memory, and its entry. *)
Definition ram (j : Z) : Z := PHYS_BASE + 4096 * j.
Definition kpte (j : Z) : Z := entry (ram j) (if in_kernel_text start end_text (ram j) then 1 else 3).
(** Page table [i] and the directory when the first [k] pages are mapped. *)
Definition pt_words (i k : Z) : list Z := (fun x => if 1024 * i + x <? k then kpte (1024 * i + x) else 0) <$> seqZ 0 1024.
Definition pd_words (pts : list Z) : list Z := replicate 768 0 ++ ((fun q => entry q 7) <$> pts) ++ replicate (256 - length pts) 0.

Record mapped (m0 : machine) (k pd : Z) (pts : list Z) (m : machine) : Prop := {
  mp_pool : pool_wf m (kernel_pool m);
  mp_pd : kpage pd /\ pages m !! pd = Some (pd_words pts) /\ page_state (kernel_pool m) pd true;
  mp_len : (length pts <= 256)%nat;
  mp_pts : forall i q, pts !! i = Some q -> kpage q /\ pages m !! q = Some (pt_words (Z.of_nat i) k) /\ page_state (kernel_pool m) q true;
  mp_nodup : NoDup (pd :: pts);
  mp_fresh : forall q, q ∈ pd :: pts -> page_state (kernel_pool m0) q false;
  mp_frame : forall a, (a ∉ pd :: pts) -> pages m !! a = pages m0 !! a;
  mp_keep : forall a, page_state (kernel_pool m0) a true -> page_state (kernel_pool m) a true;
  mp_back : forall a, page_state (kernel_pool m) a false -> page_state (kernel_pool m0) a false;
  mp_rest : init_page_dir m = pd /\ init_ram_pages m = init_ram_pages m0
}.

Lemma ram_ok k : 0 <= k < 2 ^ 18 -> ptov (u32 (k * PGSIZE)) = Ok (ram k) /\ kpage (ram k) /\ pd_no (ram k) = 768 + k / 1024 /\ pt_no (ram k) = k mod 1024.
Proof.
  intros Hk. unfold ram, PGSIZE. rewrite pd_no_div, pt_no_mod. split_and!.
  - rewrite u32_small by lia. unfold ptov, PHYS_BASE. rewrite kassert_true by (apply Z.ltb_lt; lia). cbn. rewrite u32_small by lia. f_equal. lia.
  - unfold kpage, PHYS_BASE. split; [lia|dlia].
  - unfold PHYS_BASE. dlia.
  - unfold PHYS_BASE. dlia.
Qed.

Lemma pte_kernel_ok p w : kpage p -> pte_create_kernel p w = Ok (entry p (if w then 3 else 1)).
Proof.
  intros Hp. pose proof Hp as [Hr Hm]. unfold pte_create_kernel. rewrite pg_ofs_mod, kassert_true by (by apply Z.eqb_eq). simpl. rewrite vtop_ok by done. simpl. f_equal.
  rewrite <- !Z.lor_assoc. replace (Z.lor PTE_P (if w then PTE_W else 0)) with (if w then 3 else 1) by (by destruct w). apply lor_flags; [by apply minus_base_mod|by destruct w].
Qed.

Lemma length_pt_words i k : length (pt_words i k) = 1024%nat.
Proof. unfold pt_words. by rewrite length_fmap, length_seqZ. Qed.
Lemma lookup_pt_words i k x : 0 <= x < 1024 -> pt_words i k !! Z.to_nat x = Some (if 1024 * i + x <? k then kpte (1024 * i + x) else 0).
Proof. intros Hx. unfold pt_words. rewrite list_lookup_fmap, lookup_seqZ_lt by lia. cbn. rewrite Z2Nat.id by lia. done. Qed.
Lemma pt_words_zero i k : k <= 1024 * i -> pt_words i k = replicate 1024 0.
Proof.
  intros Hk. apply list_eq. intros n. destruct (decide (n < 1024)%nat) as [Hn|Hn].
  - rewrite lookup_replicate_2 by done. rewrite <- (Nat2Z.id n), lookup_pt_words by lia. by rewrite (proj2 (Z.ltb_ge _ _)) by lia.
  - rewrite !lookup_ge_None_2; [done|rewrite length_replicate; lia|rewrite length_pt_words; lia].
Qed.
Lemma pt_words_store i k : 1024 * i <= k < 1024 * i + 1024 -> <[Z.to_nat (k - 1024 * i) := kpte k]> (pt_words i k) = pt_words i (k + 1).
Proof.
  intros Hk. apply list_eq. intros n. destruct (decide (n < 1024)%nat) as [Hn|Hn].
  - rewrite <- (Nat2Z.id n), lookup_pt_words by lia. destruct (decide (Z.of_nat n = k - 1024 * i)) as [E|Hne].
    + rewrite E, list_lookup_insert_eq by (rewrite length_pt_words; lia). rewrite (proj2 (Z.ltb_lt _ _)) by lia. do 2 f_equal. lia.
    + rewrite list_lookup_insert_ne by lia. rewrite lookup_pt_words by lia. destruct (Z.ltb_spec (1024 * i + Z.of_nat n) k), (Z.ltb_spec (1024 * i + Z.of_nat n) (k + 1)); try done; lia.
  - rewrite !lookup_ge_None_2; [done|rewrite length_pt_words; lia|rewrite length_insert, length_pt_words; lia].
Qed.
Lemma pt_words_other i k : k < 1024 * i \/ 1024 * i + 1024 <= k -> pt_words i k = pt_words i (k + 1).
Proof.
  intros Hk. apply list_eq. intros n. destruct (decide (n < 1024)%nat) as [Hn|Hn].
  - rewrite <- (Nat2Z.id n), !lookup_pt_words by lia. destruct (Z.ltb_spec (1024 * i + Z.of_nat n) k), (Z.ltb_spec (1024 * i + Z.of_nat n) (k + 1)); try done; lia.
  - rewrite !lookup_ge_None_2; [done|rewrite length_pt_words; lia..].
Qed.

Lemma length_pd_words pts : (length pts <= 256)%nat -> length (pd_words pts) = 1024%nat.
Proof. intros Hl. unfold pd_words. rewrite !length_app, length_fmap, !length_replicate. lia. Qed.
Lemma lookup_pd_words pts i : (length pts <= 256)%nat -> 0 <= i < 1024 ->
  pd_words pts !! Z.to_nat i = Some (match pts !! Z.to_nat (i - 768) with Some q => if i <? 768 then 0 else entry q 7 | None => 0 end).
Proof.
  intros Hl Hi. unfold pd_words. destruct (Z.ltb_spec i 768) as [Hlt|Hge].
  - rewrite lookup_app_l by (rewrite length_replicate; lia). rewrite lookup_replicate_2 by lia. by destruct (pts !! _).
  - rewrite lookup_app_r, length_replicate by (rewrite length_replicate; lia). replace (Z.to_nat i - 768)%nat with (Z.to_nat (i - 768)) by lia. destruct (pts !! Z.to_nat (i - 768)) as [q|] eqn:E.
    + rewrite lookup_app_l by (rewrite length_fmap; by eapply lookup_lt_Some). rewrite list_lookup_fmap, E. done.
    + apply lookup_ge_None in E. rewrite lookup_app_r, length_fmap by (rewrite length_fmap; lia). by rewrite lookup_replicate_2 by lia.
Qed.
Lemma pd_words_store pts q : (length pts < 256)%nat -> <[(768 + length pts)%nat := entry q 7]> (pd_words pts) = pd_words (pts ++ [q]).
Proof.
  intros Hl. unfold pd_words. rewrite insert_app_r_alt by (rewrite length_replicate; lia). rewrite length_replicate. replace (768 + length pts - 768)%nat with (length ((fun q => entry q 7) <$> pts) + 0)%nat by (rewrite length_fmap; lia).
  rewrite insert_app_r. rewrite fmap_app, length_app. cbn [length fmap list_fmap]. replace (256 - length pts)%nat with (S (256 - (length pts + 1)))%nat by lia. cbn [replicate insert list_insert]. by rewrite <- !app_assoc.
Qed.

(** A new page table. *)
Lemma mapped_grow m0 k pd pts m m1 q : mapped m0 k pd pts m -> k <= 1024 * Z.of_nat (length pts) -> (length pts < 256)%nat -> taken m m1 q ->
  mapped m0 k pd (pts ++ [q]) (set_pages (<[pd := pd_words (pts ++ [q])]> (pages m1)) m1).
Proof.
  intros [H1 (H2 & H2' & H2'') H3 H4 H5 H6 H7 H8 Hb [H9 H10]] Hk Hl [T1 T2 T3 T4 T5 T6 (T7 & T8 & T9 & _)].
  assert (forall a, page_state (kernel_pool m) a true -> a <> q) as Hfun.
  { intros a (i & Hi & Ei & Hbi) ->. destruct T1 as (j & Hj & Ej & Hbj). assert (i = j) by lia. congruence. }
  pose proof (Hfun pd H2'') as Hqpd. assert (q ∉ pts) as Hqn. { intros Hin. apply list_elem_of_lookup in Hin as (n & Hn). destruct (H4 n q Hn) as (_ & _ & Hu). by apply (Hfun q). }
  apply list.NoDup_cons in H5 as [Hpd Hnd].
  split; cbn [set_pages pages kernel_pool init_page_dir init_ram_pages].
  - destruct T4 as [P1 P2 P3 P4]. split; cbn [set_pages pages]; [done..|]. intros j Hj. destruct (P4 j Hj) as (lj & Hlj & Hn). eapply insert_table_len; [|exact Hlj|done]. apply length_pd_words. rewrite length_app. cbn. lia.
  - rewrite lookup_insert_eq. split_and!; [done|done|]. by apply T6.
  - rewrite length_app. cbn. lia.
  - intros i x Hx. rewrite T5. apply lookup_app_Some in Hx as [Hx|[Hge Hx]].
    + destruct (H4 i x Hx) as (Ha & Hbb & Hc). assert (x <> pd) as Hn2 by (intros ->; apply Hpd; by eapply list_elem_of_lookup_2). pose proof (Hfun x Hc).
      rewrite !lookup_insert_ne by done. split_and!; [done|done|by apply T6].
    + apply list_lookup_singleton_Some in Hx as [Hi <-]. rewrite lookup_insert_ne, lookup_insert_eq by done. split_and!; [done| |done]. f_equal. symmetry. apply pt_words_zero. lia.
  - apply list.NoDup_cons. split; [rewrite elem_of_app, list_elem_of_singleton; naive_solver|]. apply list.NoDup_app. split_and!; [done|intros x Hx ->%list_elem_of_singleton; done|apply NoDup_singleton].
  - intros x. rewrite elem_of_cons, elem_of_app, list_elem_of_singleton. intros [->|[Hx| ->]]; [apply H6; by left|apply H6; by right|by apply Hb].
  - intros a. rewrite elem_of_cons, elem_of_app, list_elem_of_singleton. intros Hna. rewrite T5, !lookup_insert_ne by naive_solver. apply H7. rewrite elem_of_cons. naive_solver.
  - intros a Ha. apply H8 in Ha. apply T6; [|done]. by apply Hfun.
  - intros a Ha. apply Hb. destruct (decide (a = q)) as [->|Hne]; [done|]. by apply T6.
  - by rewrite T8, T9.
Qed.

(** The entry of page [k]. *)
Lemma mapped_store m0 k pd pts m q : mapped m0 k pd pts m -> 0 <= k -> pts !! Z.to_nat (k / 1024) = Some q ->
  mapped m0 (k + 1) pd pts (set_pages (<[q := <[Z.to_nat (k mod 1024) := kpte k]> (pt_words (k / 1024) k)]> (pages m)) m).
Proof.
  intros [H1 (H2 & H2' & H2'') H3 H4 H5 H6 H7 H8 Hb [H9 H10]] Hk Hq. pose proof H5 as Hnd. apply list.NoDup_cons in Hnd as [Hpd Hnd]. assert (q <> pd) as Hqpd by (intros ->; apply Hpd; by eapply list_elem_of_lookup_2).
  replace (k mod 1024) with (k - 1024 * (k / 1024)) by dlia. rewrite pt_words_store by dlia.
  split; cbn [set_pages pages kernel_pool init_page_dir init_ram_pages]; try done.
  - destruct H1 as [P1 P2 P3 P4]. split; cbn [set_pages pages]; [done..|]. intros j Hj. destruct (P4 j Hj) as (lj & Hlj & Hn). eapply insert_table_len; [|exact Hlj|done]. apply length_pt_words.
  - rewrite lookup_insert_ne by done. done.
  - intros i x Hx. destruct (H4 i x Hx) as (Ha & Hbb & Hc). destruct (decide (x = q)) as [->|Hne].
    + assert (i = Z.to_nat (k / 1024)) as -> by (by eapply NoDup_lookup). rewrite lookup_insert_eq. rewrite Z2Nat.id by dlia. done.
    + rewrite lookup_insert_ne by done. split_and!; [done| |done]. rewrite Hbb. f_equal. apply pt_words_other. assert (Z.of_nat i <> k / 1024) by (intros E; apply Hne; rewrite <- E, Nat2Z.id in Hq; congruence). dlia.
  - intros a Ha. rewrite lookup_insert_ne; [by apply H7|]. intros ->. apply Ha. right. by eapply list_elem_of_lookup_2.
Qed.

Lemma wp_map_loop n : forall k pd pt pts m m0 free, mapped m0 k pd pts m -> 0 <= k -> k + Z.of_nat n <= 2 ^ 18 ->
  Z.of_nat (length pts) = (k + 1023) / 1024 -> (k mod 1024 <> 0 -> pts !! Z.to_nat (k / 1024) = Some pt) ->
  (k + Z.of_nat n + 1023) / 1024 <= Z.of_nat (length pts) + Z.of_nat free -> free_pages free m ->
  wp (map_loop start end_text n k pd pt) (fun _ m' => exists pts', mapped m0 (k + Z.of_nat n) pd pts' m' /\ Z.of_nat (length pts') = (k + Z.of_nat n + 1023) / 1024) m.
Proof.
  induction n as [|n IH]; intros k pd pt pts m m0 free Hm Hk Hn Hlen Hpt Hfr Hfree; cbn [map_loop].
  { apply wp_ret. exists pts. rewrite Nat2Z.inj_0, Z.add_0_r. done. }
  destruct (ram_ok k ltac:(lia)) as (Ev & Hkp & Epd & Ept). pose proof (mp_pd _ _ _ _ _ Hm) as (Hpk & Hpg & _). pose proof (mp_len _ _ _ _ _ Hm) as Hl.
  apply wp_bind. eapply wp_lift; [exact Ev|]. cbv zeta. rewrite Epd, Ept. pose proof (lookup_pd_words pts (768 + k / 1024) Hl ltac:(dlia)) as Hw. replace (768 + k / 1024 - 768) with (k / 1024) in Hw by lia.
  apply wp_bind. eapply wp_load; [done|dlia|exact Hpg|exact Hw|]. rewrite (proj2 (Z.ltb_ge _ 768)) by dlia.
  assert (forall q pts1 m1 free1, mapped m0 k pd pts1 m1 -> pts1 !! Z.to_nat (k / 1024) = Some q -> Z.of_nat (length pts1) = (k + 1 + 1023) / 1024 ->
    (k + Z.of_nat (S n) + 1023) / 1024 <= Z.of_nat (length pts1) + Z.of_nat free1 -> free_pages free1 m1 ->
    wp (e ← lift (pte_create_kernel (ram k) (negb (in_kernel_text start end_text (ram k)))); store_word (u32 (q + 4 * (k mod 1024))) e ≫= fun _ => map_loop start end_text n (k + 1) pd q)
      (fun _ m' => exists pts', mapped m0 (k + Z.of_nat (S n)) pd pts' m' /\ Z.of_nat (length pts') = (k + Z.of_nat (S n) + 1023) / 1024) m1) as Hrest.
  { intros q pts1 m1 free1 Hm1 Hq Hl1 Hfr1 Hf1. destruct (mp_pts _ _ _ _ _ Hm1 _ _ Hq) as (Hqk & Hqp & _). rewrite Z2Nat.id in Hqp by dlia.
    apply wp_bind. eapply wp_lift; [by apply pte_kernel_ok|]. apply wp_bind. eapply wp_store; [done|dlia|exact Hqp|]. pose proof (mapped_store _ _ _ _ _ _ Hm1 Hk Hq) as Hm2.
    replace (entry (ram k) (if negb (in_kernel_text start end_text (ram k)) then 3 else 1)) with (kpte k) by (unfold kpte; by destruct (in_kernel_text start end_text (ram k))).
    eapply wp_mono; [eapply (IH (k + 1) pd q pts1 _ m0 free1 Hm2); [lia|lia|done| | |]|].
    - intros Hne. replace ((k + 1) / 1024) with (k / 1024) by dlia. done.
    - replace (k + 1 + Z.of_nat n) with (k + Z.of_nat (S n)) by lia. done.
    - done.
    - intros u m' (pts' & H1 & H2). exists pts'. replace (k + Z.of_nat (S n)) with (k + 1 + Z.of_nat n) by lia. done. }
  destruct (decide (k mod 1024 = 0)) as [E0|E0].
  - assert (pts !! Z.to_nat (k / 1024) = None) as Hnone by (apply lookup_ge_None; dlia). rewrite Hnone. cbn [Z.eqb]. destruct free as [|free]; [exfalso; dlia|].
    apply wp_bind, wp_bind. eapply wp_take; [apply (mp_pool _ _ _ _ _ Hm)|exact Hfree|]. intros q m1 Ht Hf1. apply wp_bind. eapply wp_lift; [apply pde_create_ok, (tk_page _ _ _ Ht)|].
    assert (pages m1 !! pd = Some (pd_words pts)) as Hpg1.
    { rewrite (tk_pages _ _ _ Ht). rewrite lookup_insert_ne; [done|]. intros <-. destruct (mp_pd _ _ _ _ _ Hm) as (_ & _ & (i & Hi & Ei & Hb)), (tk_free _ _ _ Ht) as (j & Hj & Ej & Hb'). assert (i = j) by lia. congruence. }
    apply wp_bind. eapply wp_store; [done|dlia|exact Hpg1|]. apply wp_ret. replace (Z.to_nat (768 + k / 1024)) with (768 + length pts)%nat by dlia. rewrite pd_words_store by dlia.
    eapply (Hrest q (pts ++ [q]) _ free); [eapply mapped_grow; [exact Hm|dlia|dlia|exact Ht]| | | |].
    + rewrite lookup_app_r by dlia. replace (Z.to_nat (k / 1024) - length pts)%nat with 0%nat by dlia. done.
    + rewrite length_app. cbn. dlia.
    + rewrite length_app. cbn. lia.
    + exact Hf1.
  - rewrite (Hpt E0). destruct (mp_pts _ _ _ _ _ Hm _ _ (Hpt E0)) as (Hqk & _). rewrite (proj2 (Z.eqb_neq _ 0)) by (by apply entry_nonzero). apply wp_bind, wp_ret.
    eapply (Hrest pt pts m free); [done|by apply Hpt|dlia|done|done].
Qed.

(** ** What they map *)

Lemma mapped_pte m0 n pd pts m va : mapped m0 n pd pts m -> 0 <= n <= 2 ^ 18 -> Z.of_nat (length pts) = (n + 1023) / 1024 -> 0 <= va < 2 ^ 32 ->
  pte_of (pages m) pd va = if decide (PHYS_BASE <= va < PHYS_BASE + 4096 * (1024 * ((n + 1023) / 1024))) then Some (if (va - PHYS_BASE) / 4096 <? n then kpte ((va - PHYS_BASE) / 4096) else 0) else None.
Proof.
  intros Hm Hn Hlen Hva. destruct (mp_pd _ _ _ _ _ Hm) as (Hpk & Hpg & _). pose proof (mp_len _ _ _ _ _ Hm) as Hl. unfold pte_of. rewrite Hpg. cbn [mbind option_bind]. rewrite pd_no_div, pt_no_mod.
  rewrite lookup_pd_words by (done || dlia). cbn [mbind option_bind]. destruct (Z.ltb_spec (va / 2 ^ 22) 768) as [Hu|Hge].
  - rewrite decide_False by (unfold PHYS_BASE; dlia). by destruct (pts !! _).
  - set (i := va / 2 ^ 22 - 768). destruct (pts !! Z.to_nat i) as [q|] eqn:Eq.
    + apply lookup_lt_Some in Eq as Hlt. rewrite decide_True by (unfold PHYS_BASE, i in *; dlia). destruct (mp_pts _ _ _ _ _ Hm _ _ Eq) as (Hqk & Hqp & _).
      rewrite (proj2 (Z.eqb_neq _ 0)) by (by apply entry_nonzero). rewrite entry_back, Hqp. cbn [mbind option_bind]. rewrite lookup_pt_words by dlia. rewrite Z2Nat.id by (unfold i; dlia).
      replace (1024 * i + va / 4096 mod 1024) with ((va - PHYS_BASE) / 4096) by (unfold i, PHYS_BASE; dlia). done.
    + apply lookup_ge_None in Eq. rewrite decide_False by (unfold PHYS_BASE, i in *; dlia). done.
Qed.

Lemma kpte_ok j : 0 <= j < 2 ^ 18 -> Z.land (kpte j) PTE_P <> 0 /\ kpte j - kpte j mod 4096 + PHYS_BASE = ram j /\
  Z.testbit (kpte j) 1 = negb (in_kernel_text start end_text (ram j)) /\ Z.testbit (kpte j) 2 = false.
Proof.
  intros Hj. destruct (ram_ok j Hj) as (_ & Hk & _). unfold kpte. set (f := if in_kernel_text _ _ _ then 1 else 3). assert (0 <= f < 4096) as Hf by (unfold f; case_match; lia).
  split_and!; [apply entry_present; [done|done|unfold f; by case_match]|rewrite entry_mod by done; unfold entry; lia|rewrite entry_flag by (done || lia); unfold f; by case_match|rewrite entry_flag by (done || lia); unfold f; by case_match].
Qed.
End tables.

(** C21: paging_init maps the memory of the machine.  With n pages of RAM, up
    to 1 GB, and enough free pages for the tables, it returns with a new
    page directory active in which each kernel address of RAM stands for
    its own page, writable unless it is kernel code and never accessible to
    user programs, and nothing else, user addresses included, is mapped;
    it is a directory processes can be built from, and the pages allocated
    before keep their contents. *)
Theorem paging_init_maps_ram start end_text m n free : pool_wf m (kernel_pool m) -> init_ram_pages m = n -> 0 <= n <= 2 ^ 18 ->
  (n + 1023) / 1024 <= Z.of_nat free -> free_pages (S free) m ->
  exists m' l, let pd := init_page_dir m' in
    paging_init start end_text m = Ok (tt, m') /\ cr3 m' = pd - PHYS_BASE /\ pd_wf m' pd l /\
    (forall va, PHYS_BASE <= va < PHYS_BASE + 4096 * n -> translate (pages m') pd va = va /\
       exists w, pte_of (pages m') pd va = Some w /\ Z.testbit w 1 = negb (in_kernel_text start end_text (va - va mod 4096)) /\ Z.testbit w 2 = false) /\
    (forall va, user va \/ PHYS_BASE + 4096 * n <= va < 2 ^ 32 -> translate (pages m') pd va = NULL) /\
    (forall a, page_state (kernel_pool m) a true -> pages m' !! a = pages m !! a).
Proof.
  intros Hw Hram Hn Hfree Hfp.
  set (R := fun (_ : unit) m' => exists pts, mapped start end_text m n (init_page_dir m') pts m' /\ Z.of_nat (length pts) = (n + 1023) / 1024 /\ cr3 m' = init_page_dir m' - PHYS_BASE).
  destruct (wp_Ok (paging_init start end_text) R m) as ([] & m' & E & pts & Hm & Hlen & Hcr).
  { unfold paging_init. apply wp_bind. eapply wp_take; [done|exact Hfp|]. intros pd m1 Ht Hf1. apply wp_bind, wp_modify. apply wp_bind, wp_gets. cbn [set_init_page_dir init_ram_pages].
    destruct (tk_rest _ _ _ Ht) as (Hu & _ & Hr1 & _). rewrite Hr1, Hram.
    assert (mapped start end_text m 0 pd [] (set_init_page_dir pd m1)) as Hm0.
    { destruct Ht as [T1 T2 T3 T4 T5 T6 _]. split; cbn [set_init_page_dir kernel_pool pages init_page_dir init_ram_pages]; try done.
      - destruct T4 as [P1 P2 P3 P4]. split; done.
      - split_and!; [done| |done]. rewrite T5, lookup_insert_eq. reflexivity.
      - cbn. lia.
      - apply NoDup_singleton.
      - intros q ->%list_elem_of_singleton. done.
      - intros a Ha. rewrite T5, lookup_insert_ne; [done|]. intros ->. apply Ha. by left.
      - intros a Ha. apply T6; [|done]. intros ->. destruct T1 as (i & Hi & Ei & Hb), Ha as (j & Hj & Ej & Hb'). assert (i = j) by lia. congruence.
      - intros a Ha. destruct (decide (a = pd)) as [->|Hne]; [done|]. by apply T6. }
    apply wp_bind. eapply wp_mono; [eapply (wp_map_loop start end_text _ 0 pd NULL [] _ m free Hm0); [lia|lia|done|done|rewrite Z2Nat.id by lia; rewrite Z.add_0_l; cbn [length]; lia|exact Hf1]|].
    intros [] m2 (pts & Hm2 & Hl2). rewrite Z2Nat.id, Z.add_0_l in Hm2, Hl2 by lia. apply wp_bind, wp_gets. destruct (mp_pd _ _ _ _ _ _ _ Hm2) as (Hk & _). rewrite (proj1 (mp_rest _ _ _ _ _ _ _ Hm2)).
    apply wp_bind. eapply wp_lift; [by apply vtop_ok|]. apply wp_modify. exists pts. cbn [set_cr3 init_page_dir cr3]. rewrite (proj1 (mp_rest _ _ _ _ _ _ _ Hm2)). split_and!; [|done|done].
    destruct Hm2 as [[P1 P2 P3 P4] M2 M3 M4 M5 M6 M7 M8 M9 M10]. split; cbn [set_cr3 kernel_pool pages init_page_dir init_ram_pages]; done. }
  exists m', (pd_words pts). cbv zeta. set (pd := init_page_dir m') in *. destruct (mp_pd _ _ _ _ _ _ _ Hm) as (Hpk & Hpg & Hpu). pose proof (mp_len _ _ _ _ _ _ _ Hm) as Hl. split_and!; [done|done| | | |].
  - split; [apply (mp_pool _ _ _ _ _ _ _ Hm)|split_and!; [done|by apply length_pd_words|done]|done| |].
    + intros i e Hi He Hne. rewrite lookup_pd_words in He by (done || lia). rewrite (proj2 (Z.ltb_lt i 768)) in He by lia. exfalso. destruct (pts !! _); injection He; congruence.
    + intros i j e Hi Hj Hne He _. rewrite lookup_pd_words in He by (done || lia). rewrite (proj2 (Z.ltb_lt i 768)) in He by lia. exfalso. destruct (pts !! _); injection He; congruence.
  - intros va Hva. set (j := (va - PHYS_BASE) / 4096). assert (0 <= j < n /\ va - va mod 4096 = ram j) as [Hj Er] by (unfold j, ram, PHYS_BASE in *; dlia).
    pose proof (mapped_pte start end_text _ _ _ _ _ va Hm Hn Hlen) as Hp. rewrite decide_True in Hp by (unfold PHYS_BASE in *; dlia). fold j in Hp. rewrite (proj2 (Z.ltb_lt j n)) in Hp by lia.
    specialize (Hp ltac:(unfold PHYS_BASE in *; lia)). destruct (kpte_ok start end_text j ltac:(lia)) as (K1 & K2 & K3 & K4). split; [|exists (kpte start end_text j); rewrite Er; done].
    unfold translate. rewrite Hp, (proj2 (Z.eqb_neq _ 0)) by done. rewrite K2, <- Er. lia.
  - intros va Hva. assert (0 <= va < 2 ^ 32) as Hr by (unfold user, PHYS_BASE in *; lia). unfold translate. rewrite (mapped_pte start end_text _ _ _ _ _ va Hm Hn Hlen Hr). case_decide as Hd; [|done].
    rewrite (proj2 (Z.ltb_ge _ n)) by (unfold user, PHYS_BASE in *; dlia). done.
  - intros a Ha. apply (mp_frame _ _ _ _ _ _ _ Hm). intros Hin. apply (mp_fresh _ _ _ _ _ _ _ Hm) in Hin. destruct Hin as (i & Hi & Ei & Hb), Ha as (j & Hj & Ej & Hb'). assert (i = j) by lia. congruence.
Qed.

Lemma paging_init_maps_ram_witness : exists m', paging_init 0xc0020000 0xc0040000 small_machine = Ok (tt, m') /\ translate (pages m') (init_page_dir m') 0xc0104321 = 0xc0104321.
Proof.
  destruct (paging_init_maps_ram 0xc0020000 0xc0040000 small_machine 1024 1) as (m' & l & E & _ & _ & Ht & _).
  - exact small_pool_wf.
  - reflexivity.
  - lia.
  - reflexivity.
  - exists [0xc0101000; 0xc0102000]. split; [cbn; lia|]. split; [apply (bool_decide_eq_true_1 _); reflexivity|].
    intros a [->|[->|[]%elem_of_nil]%elem_of_cons]%elem_of_cons; [exists 1|exists 2]; (split; [cbn; lia|]); split; reflexivity.
  - exists m'. split; [exact E|]. apply Ht. unfold PHYS_BASE. lia.
Defined.

(** ** The task-state segment *)

(** The CPU takes the kernel stack from the segment: tss_init leaves the
    end of the current thread's page and the kernel data selector there. *)
Lemma tss_init_ok cur m : pool_wf m (kernel_pool m) -> free_pages 1 m ->
  wp (tss_init cur) (fun tss m' => exists l, pages m' !! tss = Some l /\ l !! 1%nat = Some (u32 (cur + PGSIZE)) /\ l !! 2%nat = Some SEL_KDSEG /\ l !! 25%nat = Some 0xdfff0000 /\
    page_state (kernel_pool m') tss true) m.
Proof.
  intros Hw Hf. unfold tss_init. apply wp_bind. eapply wp_take; [done|exact Hf|]. intros tss m1 Ht _. pose proof (tk_page _ _ _ Ht) as Hk. pose proof (tk_pages _ _ _ Ht) as Hp.
  assert (pages m1 !! tss = Some (replicate 1024 0)) as Hl by (rewrite Hp; apply lookup_insert_eq). unfold update_word, tss_update.
  apply wp_bind, wp_bind. eapply wp_load; [done|lia|exact Hl|reflexivity|]. eapply wp_store; [done|lia|exact Hl|].
  apply wp_bind, wp_bind. eapply wp_load; [done|lia|cbn [set_pages pages]; apply lookup_insert_eq|reflexivity|]. eapply wp_store; [done|lia|cbn [set_pages pages]; apply lookup_insert_eq|].
  apply wp_bind, wp_bind, wp_assert; [apply negb_true_iff, Z.eqb_neq; destruct Hk; unfold NULL, PHYS_BASE in *; lia|]. eapply wp_store; [done|lia|cbn [set_pages pages]; apply lookup_insert_eq|].
  apply wp_ret. cbn [set_pages pages kernel_pool]. rewrite !insert_insert_eq, lookup_insert_eq. eexists. split; [reflexivity|]. split_and!; [reflexivity..|apply (tk_used _ _ _ Ht)].
Qed.
