(* ===== verification/Malloc.v ===== *)
(** * The block allocator (src/threads/malloc.c)

    Small blocks come from arenas, pages divided into blocks of one size; a
    descriptor keeps the free blocks of its size.  Big blocks are runs of
    pages.  The arena header is in the first three words of its page, in
    the memory of Pages.v.  The free list, whose elements are the free
    blocks themselves, is the sequence of their addresses (KListLaws.v);
    what a free block contains is not specified.  The lock of a descriptor
    makes each call one step. *)

From S2P Require Import Prelude Memory Wp Bitmap Pages.

(** ** Data *)

Record desc := Desc { block_size : Z; blocks_per_arena : Z; free_list : list Z }.

Definition ARENA_MAGIC : Z := 0x9a548eed.
(** sizeof (struct arena), and of struct desc: two words, a list of four
    and a lock of six. *)
Definition ARENA_SIZE : Z := 12.
Definition DESC_SIZE : Z := 48.
Definition DESC_MAX : Z := 10.

Record heap := Heap { mach : machine; descs : list desc }.

Definition on_mach {A} (c : st machine A) : st heap A := fun h => r ← c (mach h); Ok (r.1, Heap r.2 (descs h)).
Definition set_desc (i : nat) (d : desc) : st heap unit := modify (fun h => Heap (mach h) (<[i := d]> (descs h))).
Definition set_free (l : list Z) (d : desc) : desc := Desc (block_size d) (blocks_per_arena d) l.

(** Bytes of kernel memory. *)
Definition get_byte (a : Z) : st machine Z := fun m =>
  match pages m !! pg_round_down a with
  | Some l => match words_to_bytes l !! Z.to_nat (pg_ofs a) with Some b => Ok (b, m) | None => Err Fault end
  | None => Err Fault
  end.
Definition put_byte (a b : Z) : st machine unit := fun m =>
  match pages m !! pg_round_down a with
  | Some l => Ok (tt, set_pages (<[pg_round_down a := bytes_to_words 1024 (<[Z.to_nat (pg_ofs a) := b]> (words_to_bytes l))]> (pages m)) m)
  | None => Err Fault
  end.
Fixpoint fill_bytes (n : nat) (a b : Z) : st machine unit :=
  match n with O => mret tt | S n' => put_byte a b ≫= fun _ => fill_bytes n' (u32 (a + 1)) b end.
Fixpoint copy_bytes (n : nat) (dst src : Z) : st machine unit :=
  match n with O => mret tt | S n' => b ← get_byte src; put_byte dst b ≫= fun _ => copy_bytes n' (u32 (dst + 1)) (u32 (src + 1)) end.

(** malloc_init: [fuel] bounds the doublings. *)
Fixpoint init_descs (fuel : nat) (size : Z) (l : list desc) : outcome (list desc) :=
  if size <? PGSIZE / 2 then
    match fuel with
    | O => Err Fuel
    | S fuel' =>
        kassert (Z.of_nat (length l) + 1 <=? DESC_MAX) ≫= fun _ =>
        init_descs fuel' (size * 2) (l ++ [Desc size ((PGSIZE - ARENA_SIZE) / size) []])
    end
  else Ok l.
Definition malloc_init : st heap unit := fun h => l ← init_descs 32 16 (descs h); Ok (tt, Heap (mach h) l).

Section malloc.
(** The address of the array descs. *)
Context (descs_addr : Z).

Definition desc_ptr (i : nat) : Z := descs_addr + DESC_SIZE * Z.of_nat i.

(** The descriptor a non-null pointer points to. *)
Definition get_desc (p : Z) : st heap (nat * desc) := fun h =>
  let i := Z.to_nat ((p - descs_addr) / DESC_SIZE) in
  if p =? desc_ptr i then match descs h !! i with Some d => Ok ((i, d), h) | None => Err Fault end else Err Fault.

(** The words of an arena header. *)
Definition arena_magic (a : Z) : st heap Z := on_mach (load_word a).
Definition arena_desc (a : Z) : st heap Z := on_mach (load_word (u32 (a + 4))).
Definition arena_free_cnt (a : Z) : st heap Z := on_mach (load_word (u32 (a + 8))).
Definition set_free_cnt (a n : Z) : st heap unit := on_mach (store_word (u32 (a + 8)) n).
Definition set_arena (a desc free_cnt : Z) : st heap unit :=
  on_mach (store_word a ARENA_MAGIC) ≫= fun _ => on_mach (store_word (u32 (a + 4)) desc) ≫= fun _ => set_free_cnt a free_cnt.

Definition block_to_arena (b : Z) : st heap Z :=
  let a := pg_round_down b in
  kassert_st (negb (a =? NULL)) ≫= fun _ =>
  magic ← arena_magic a; kassert_st (magic =? ARENA_MAGIC) ≫= fun _ =>
  p ← arena_desc a;
  (if p =? NULL then mret tt else d ← get_desc p; kassert_st (u32 (pg_ofs b - ARENA_SIZE) mod block_size d.2 =? 0)) ≫= fun _ =>
  kassert_st (negb (p =? NULL) || (pg_ofs b =? ARENA_SIZE)) ≫= fun _ => mret a.

Definition arena_to_block (a idx : Z) : st heap Z :=
  kassert_st (negb (a =? NULL)) ≫= fun _ =>
  magic ← arena_magic a; kassert_st (magic =? ARENA_MAGIC) ≫= fun _ =>
  p ← arena_desc a; d ← get_desc p;
  kassert_st (idx <? blocks_per_arena d.2) ≫= fun _ => mret (u32 (a + ARENA_SIZE + idx * block_size d.2)).

(** The first descriptor, from [i] on, of blocks of at least [size] bytes. *)
Fixpoint find_desc (l : list desc) (i : nat) (size : Z) : option nat :=
  match l with [] => None | d :: l' => if size <=? block_size d then Some i else find_desc l' (S i) size end.

(** The blocks of a new arena go to the free list of [i]. *)
Fixpoint add_blocks (n : nat) (k : Z) (i : nat) (a : Z) : st heap unit :=
  match n with
  | O => mret tt
  | S n' =>
      b ← arena_to_block a k;
      l ← gets descs;
      match l !! i with
      | Some d => set_desc i (set_free (free_list d ++ [b]) d) ≫= fun _ => add_blocks n' (k + 1) i a
      | None => lift (Err Fault)
      end
  end.

Definition malloc_small (i : nat) (d : desc) : st heap Z :=
  ok ← (if bool_decide (free_list d = []) then
          a ← on_mach (palloc_get_page 0);
          if a =? NULL then mret false
          else
            set_arena a (desc_ptr i) (blocks_per_arena d) ≫= fun _ =>
            add_blocks (Z.to_nat (blocks_per_arena d)) 0 i a ≫= fun _ => mret true
        else mret true);
  if negb ok then mret NULL
  else
    l ← gets descs;
    match l !! i with
    | Some d =>
        match free_list d with
        | b :: rest =>
            set_desc i (set_free rest d) ≫= fun _ =>
            a ← block_to_arena b; n ← arena_free_cnt a; set_free_cnt a (u32 (n - 1)) ≫= fun _ => mret b
        | [] => lift (Err Panic)
        end
    | None => lift (Err Fault)
    end.

Definition malloc (size : Z) : st heap Z :=
  if size =? 0 then mret NULL
  else
    l ← gets descs;
    match find_desc l 0 size with
    | None =>
        let page_cnt := DIV_ROUND_UP (u32 (size + ARENA_SIZE)) PGSIZE in
        a ← on_mach (palloc_get_multiple 0 page_cnt);
        if a =? NULL then mret NULL else set_arena a NULL page_cnt ≫= fun _ => mret (u32 (a + ARENA_SIZE))
    | Some i => match l !! i with Some d => malloc_small i d | None => lift (Err Fault) end
    end.

Definition calloc (a b : Z) : st heap Z :=
  let size := u32 (a * b) in
  if (size <? a) || (size <? b) then mret NULL
  else
    p ← malloc size;
    (if p =? NULL then mret tt else on_mach (fill_bytes (Z.to_nat size) p 0)) ≫= fun _ => mret p.

Definition block_size_of (block : Z) : st heap Z :=
  a ← block_to_arena block; p ← arena_desc a;
  if p =? NULL then n ← arena_free_cnt a; mret (u32 (PGSIZE * n - pg_ofs block)) else d ← get_desc p; mret (block_size d.2).

(** list_remove of the blocks of an arena. *)
Fixpoint remove_block (b : Z) (l : list Z) : outcome (list Z) :=
  match l with [] => Err Fault | x :: l' => if x =? b then Ok l' else r ← remove_block b l'; Ok (x :: r) end.
Fixpoint remove_blocks (n : nat) (k : Z) (i : nat) (a : Z) : st heap unit :=
  match n with
  | O => mret tt
  | S n' =>
      b ← arena_to_block a k;
      l ← gets descs;
      match l !! i with
      | Some d => r ← lift (remove_block b (free_list d)); set_desc i (set_free r d) ≫= fun _ => remove_blocks n' (k + 1) i a
      | None => lift (Err Fault)
      end
  end.

Definition free (p : Z) : st heap unit :=
  if p =? NULL then mret tt
  else
    a ← block_to_arena p;
    dp ← arena_desc a;
    if negb (dp =? NULL) then
      id ← get_desc dp;
      on_mach (fill_bytes (Z.to_nat (block_size id.2)) p 0xcc) ≫= fun _ =>
      set_desc id.1 (set_free (p :: free_list id.2) id.2) ≫= fun _ =>
      n ← arena_free_cnt a;
      set_free_cnt a (u32 (n + 1)) ≫= fun _ =>
      if blocks_per_arena id.2 <=? u32 (n + 1) then
        kassert_st (u32 (n + 1) =? blocks_per_arena id.2) ≫= fun _ =>
        remove_blocks (Z.to_nat (blocks_per_arena id.2)) 0 id.1 a ≫= fun _ => on_mach (palloc_free_page a)
      else mret tt
    else n ← arena_free_cnt a; on_mach (palloc_free_multiple a n).

Definition realloc (old_block new_size : Z) : st heap Z :=
  if new_size =? 0 then free old_block ≫= fun _ => mret NULL
  else
    new_block ← malloc new_size;
    (if negb (old_block =? NULL) && negb (new_block =? NULL) then
       old_size ← block_size_of old_block;
       let min_size := if new_size <? old_size then new_size else old_size in
       on_mach (copy_bytes (Z.to_nat min_size) new_block old_block) ≫= fun _ => free old_block
     else mret tt) ≫= fun _ => mret new_block.
End malloc.
