(* ===== verification/MallocLaws.v ===== *)
(** * Properties of the block allocator (src/threads/malloc.c)

    malloc and free of small blocks implement a set of disjoint blocks: a
    new block overlaps no allocated one, the contents of the others are
    left alone, no assertion fails, and a page none of whose blocks is in
    use goes back to the page allocator. *)

From S2P Require Import Prelude Memory Wp Bitmap Pages PageLaws Malloc.

(** ** Geometry *)

Definition bs (i : nat) : Z := 16 * 2 ^ Z.of_nat i.
Definition per (i : nat) : Z := (PGSIZE - ARENA_SIZE) / bs i.
Definition slot (a : Z) (i : nat) (k : Z) : Z := a + ARENA_SIZE + k * bs i.
Definition slots_from (n : nat) (a : Z) (i : nat) (k : Z) : list Z := slot a i <$> seqZ k (Z.of_nat n).
Definition slots (a : Z) (i : nat) : list Z := slots_from (Z.to_nat (per i)) a i 0.
Definition page_of (b : Z) : Z := b - b mod 4096.

Lemma sizes i : (i < 7)%nat -> 16 <= bs i <= 1024 /\ 3 <= per i <= 255 /\ per i * bs i <= 4084.
Proof. intros Hi. do 7 (destruct i as [|i]; [vm_compute; split_and!; congruence|]). lia. Qed.

Lemma slot_page a i k : (i < 7)%nat -> a mod 4096 = 0 -> 0 <= k < per i ->
  page_of (slot a i k) = a /\ slot a i k mod 4096 = 12 + k * bs i /\ 12 <= slot a i k mod 4096 /\ slot a i k mod 4096 + bs i <= 4096.
Proof.
  intros Hi Ha Hk. destruct (sizes i Hi) as (Hb & Hp & Hm). assert (0 <= k * bs i /\ (k + 1) * bs i <= per i * bs i) as [H1 H2] by nia.
  assert (slot a i k mod 4096 = 12 + k * bs i) as E. { unfold slot, ARENA_SIZE. replace (a + 12 + k * bs i) with ((12 + k * bs i) + (a / 4096) * 4096) by (pose proof (Z.div_mod a 4096); lia). rewrite Z.mod_add by lia. apply Z.mod_small. lia. }
  unfold page_of. rewrite E. unfold slot, ARENA_SIZE. lia.
Qed.

Lemma slot_inj a i k k' : (i < 7)%nat -> slot a i k = slot a i k' -> k = k'.
Proof. intros Hi. destruct (sizes i Hi) as (Hb & _). unfold slot. intros E. nia. Qed.

Lemma elem_of_slots_from n a i k b : b ∈ slots_from n a i k <-> exists j, k <= j < k + Z.of_nat n /\ b = slot a i j.
Proof. unfold slots_from. rewrite list_elem_of_fmap. setoid_rewrite elem_of_seqZ. naive_solver. Qed.
Lemma elem_of_slots a i b : (i < 7)%nat -> b ∈ slots a i <-> exists j, 0 <= j < per i /\ b = slot a i j.
Proof. intros Hi. destruct (sizes i Hi) as (_ & Hp & _). unfold slots. rewrite elem_of_slots_from. rewrite Z2Nat.id by lia. done. Qed.
Lemma slots_nodup n a i k : (i < 7)%nat -> NoDup (slots_from n a i k).
Proof.
  intros Hi. unfold slots_from. assert (Inj (=) (=) (slot a i)) by (intros x y; by apply slot_inj). apply NoDup_fmap_2; [done|apply NoDup_seqZ].
Qed.
Lemma slots_from_S n a i k : slots_from (S n) a i k = slot a i k :: slots_from n a i (k + 1).
Proof. unfold slots_from. replace (Z.of_nat (S n)) with (Z.succ (Z.of_nat n)) by lia. rewrite seqZ_cons by lia. cbn [fmap list_fmap]. by replace (Z.pred (Z.succ (Z.of_nat n))) with (Z.of_nat n) by lia. Qed.

(** ** Pages of the kernel pool *)

Lemma wp_take_kernel m : pool_wf m (kernel_pool m) ->
  wp (palloc_get_page 0) (fun a m' => (a = NULL /\ m' = m /\ forall x, ~ page_state (kernel_pool m) x false) \/
    (page_state (kernel_pool m) a false /\ page_state (kernel_pool m') a true /\ kpage a /\ pool_wf m' (kernel_pool m') /\ pages m' = pages m /\
     forall x v, x <> a -> page_state (kernel_pool m) x v -> page_state (kernel_pool m') x v)) m.
Proof.
  intros Hw. apply wp_palloc_get_page; [exact Hw|done| |].
  { intros Hall. left. split_and!; [done..|]. intros a (i & Hi & _ & Hb). rewrite Hall in Hb; done. }
  cbv zeta. change (selected 0 m) with (kernel_pool m). intros i b Hi Hf Hb Hc Hbits Hk. right.
  change (handed_out 0 b i m) with (set_pools (Pool b (base (kernel_pool m))) (user_pool m) m). cbn [set_pools kernel_pool pages]. destruct Hw as [H1 H2 H3 H4]. split_and!.
  - by exists i.
  - exists i. cbn [used_map base]. rewrite Hc. split_and!; [lia|lia|done|]. rewrite Hbits by lia. by rewrite decide_True.
  - done.
  - split; cbn [used_map base pages set_pools]; rewrite ?Hc; done.
  - done.
  - intros x v Hx (j & Hj & -> & Hv). exists j. cbn [used_map base]. rewrite Hc. split_and!; [lia|lia|done|]. rewrite Hbits by lia. rewrite decide_False by (intros ->; done). done.
Qed.

Lemma wp_release_kernel m a : pool_wf m (kernel_pool m) -> page_state (kernel_pool m) a true ->
  wp (palloc_free_page a) (fun _ m' => pool_wf m' (kernel_pool m') /\ (forall x, x <> a -> pages m' !! x = pages m !! x) /\
    (page_state (kernel_pool m') a false) /\ forall x v, x <> a -> page_state (kernel_pool m) x v -> page_state (kernel_pool m') x v) m.
Proof.
  intros Hw Hu. assert (kpage a) as Hk.
  { destruct Hw as [_ [Hb1 Hb2] Hend _]. destruct Hu as (i & Hi & -> & _). unfold kpage, PHYS_BASE in *. split; [lia|]. rewrite (Z.mul_comm 4096), Z.mod_add by lia. done. }
  pose proof Hk as [Hk1 Hk2]. pose proof Hu as (i & Hi & Ea & Hbit). destruct (pw_mem _ _ Hw i Hi) as (l & Hl & Hlen). rewrite <- Ea in Hl.
  unfold palloc_free_page, palloc_free_multiple. apply wp_bind, wp_assert; [rewrite pg_ofs_mod; by apply Z.eqb_eq|].
  rewrite (proj2 (Z.eqb_neq a NULL)) by (unfold NULL, PHYS_BASE in *; lia). cbn [orb Z.eqb]. apply wp_bind, wp_gets, wp_bind, wp_gets.
  assert (page_from_pool (kernel_pool m) a = true) as -> by (rewrite (page_from_pool_ok m) by done; eauto). apply wp_bind, wp_ret. cbv zeta. rewrite !pg_no_div.
  assert (u32 (a / 4096 - base (kernel_pool m) / 4096) = i) as ->.
  { pose proof (wf_cnt _ (pw_map _ _ Hw)). destruct (pw_base _ _ Hw) as [_ Hbm]. assert (a / 4096 = base (kernel_pool m) / 4096 + i) as -> by dlia. rewrite u32_small; lia. }
  apply wp_bind. unfold wp at 1, memset_pages. change (Z.to_nat 1) with 1%nat. cbn [fill_pages]. rewrite Hl. cbv beta iota.
  destruct (bitmap_all_spec (used_map (kernel_pool m)) i 1 (pw_map _ _ Hw)) as (r & Er & Hr); [lia..|].
  assert (r = true) as -> by (apply Hr, run_one; [lia|done]). apply wp_bind. eapply wp_lift; [exact Er|]. apply wp_bind, wp_assert; [done|].
  destruct (bitmap_set_multiple_spec (used_map (kernel_pool m)) i 1 (pw_map _ _ Hw)) with (v := false) as (b & Eb & Hbw & Htb); [lia..|].
  destruct (bit_after_set _ b i false (pw_map _ _ Hw) Hbw Hi Htb) as [Ec Hbits]. apply wp_bind. eapply wp_lift; [exact Eb|]. apply wp_modify.
  cbn [set_pools set_pages kernel_pool pages]. destruct Hw as [H1 H2 H3 H4]. split_and!.
  - split; cbn [used_map base pages set_pools set_pages]; rewrite ?Ec; [done..|]. intros j Hj. destruct (H4 j Hj) as (lj & Hlj & Hn). eapply insert_table_len; [by rewrite length_replicate|exact Hlj|done].
  - intros x Hx. by rewrite lookup_insert_ne.
  - exists i. cbn [used_map base]. rewrite Ec. split_and!; [lia|lia|done|]. rewrite Hbits by lia. by rewrite decide_True.
  - intros x v Hx (j & Hj & -> & Hv). exists j. cbn [used_map base]. rewrite Ec. split_and!; [lia|lia|done|]. rewrite Hbits by lia. rewrite decide_False by (intros ->; done). done.
Qed.

(** ** The state *)

Section laws.
Context (descs_addr : Z) (Hda : 0 < descs_addr) (Hda2 : descs_addr + 480 <= 2 ^ 32).
Implicit Types (h : heap) (m : machine) (S : gmap Z nat) (A : gset Z).

Definition header (i : nat) (n : Z) : list Z := [ARENA_MAGIC; desc_ptr descs_addr i; n].
(** The free blocks of the page [a]. *)
Definition free_in (a : Z) (l : list Z) : list Z := filter (fun b => page_of b = a) l.

(** [S] are the arenas, with the index of their descriptor, and [A] the
    blocks in use. *)
Record heap_ok h S A : Prop := {
  ho_pool : pool_wf (mach h) (kernel_pool (mach h));
  ho_len : length (descs h) = 7%nat;
  ho_desc : forall i d, descs h !! i = Some d -> block_size d = bs i /\ blocks_per_arena d = per i /\ NoDup (free_list d);
  ho_arena : forall a i, S !! a = Some i -> page_state (kernel_pool (mach h)) a true /\
    exists d rest, descs h !! i = Some d /\ length rest = 1021%nat /\ pages (mach h) !! a = Some (header i (Z.of_nat (length (free_in a (free_list d)))) ++ rest);
  ho_free : forall i d b, descs h !! i = Some d -> b ∈ free_list d -> exists a k, S !! a = Some i /\ 0 <= k < per i /\ b = slot a i k;
  ho_split : forall a i d k, S !! a = Some i -> descs h !! i = Some d -> 0 <= k < per i -> slot a i k ∈ A <-> slot a i k ∉ free_list d;
  ho_used : forall b, b ∈ A -> exists a i k, S !! a = Some i /\ 0 <= k < per i /\ b = slot a i k
}.

Lemma desc_index h S A i d : heap_ok h S A -> descs h !! i = Some d -> (i < 7)%nat.
Proof. intros Ho Hd. apply lookup_lt_Some in Hd. rewrite (ho_len _ _ _ Ho) in Hd. done. Qed.

Lemma arena_page m a v : pool_wf m (kernel_pool m) -> page_state (kernel_pool m) a v -> kpage a.
Proof. intros [Hmap [Hb1 Hb2] Hend _] (i & Hi & -> & _). unfold kpage, PHYS_BASE in *. split; [lia|]. rewrite (Z.mul_comm 4096), Z.mod_add by lia. done. Qed.

Record arena_at h S A (a : Z) (i : nat) (d : desc) (rest : list Z) : Prop := {
  aa_map : S !! a = Some i;
  aa_lt : (i < 7)%nat;
  aa_desc : descs h !! i = Some d;
  aa_kpage : kpage a;
  aa_rest : length rest = 1021%nat;
  aa_page : pages (mach h) !! a = Some (header i (Z.of_nat (length (free_in a (free_list d)))) ++ rest)
}.

Lemma arena_facts h S A a i : heap_ok h S A -> S !! a = Some i -> exists d rest, arena_at h S A a i d rest.
Proof.
  intros Ho Ha. destruct (ho_arena _ _ _ Ho a i Ha) as (Hp & d & rest & Hd & Hr & Hpg). exists d, rest.
  split; try done; [by eapply desc_index|by eapply arena_page; [apply (ho_pool _ _ _ Ho)|]].
Qed.

(** Counting: an arena has at most [per] free blocks, and all blocks of it
    are free if it has as many. *)
Lemma free_in_slots h S A a i d : heap_ok h S A -> S !! a = Some i -> descs h !! i = Some d -> NoDup (free_in a (free_list d)) /\ free_in a (free_list d) ⊆ slots a i.
Proof.
  intros Ho Ha Hd. pose proof (desc_index _ _ _ _ _ Ho Hd) as Hi. destruct (ho_desc _ _ _ Ho i d Hd) as (_ & _ & Hnd). split; [by apply list.NoDup_filter|]. intros b Hb.
  apply list_elem_of_filter in Hb as [Hp Hb]. destruct (ho_free _ _ _ Ho i d b Hd Hb) as (a' & k & Ha' & Hk & ->).
  destruct (ho_arena _ _ _ Ho a' i Ha') as (Hps & _). pose proof (arena_page _ _ _ (ho_pool _ _ _ Ho) Hps) as [_ Hal]. destruct (slot_page a' i k Hi Hal Hk) as (E & _). rewrite E in Hp. subst a'.
  apply elem_of_slots; [done|]. eauto.
Qed.

Lemma length_slots a i : (i < 7)%nat -> Z.of_nat (length (slots a i)) = per i.
Proof. intros Hi. destruct (sizes i Hi) as (_ & Hp & _). unfold slots, slots_from. rewrite length_fmap, length_seqZ. lia. Qed.

Lemma free_count h S A a i d : heap_ok h S A -> S !! a = Some i -> descs h !! i = Some d -> Z.of_nat (length (free_in a (free_list d))) <= per i.
Proof.
  intros Ho Ha Hd. pose proof (desc_index _ _ _ _ _ Ho Hd) as Hi. destruct (free_in_slots _ _ _ _ _ _ Ho Ha Hd) as [Hnd Hsub]. rewrite <- (length_slots a i Hi).
  apply inj_le, submseteq_length, NoDup_submseteq; done.
Qed.

Lemma full_arena h S A a i d : heap_ok h S A -> S !! a = Some i -> descs h !! i = Some d -> Z.of_nat (length (free_in a (free_list d))) = per i -> slots a i ⊆ free_list d.
Proof.
  intros Ho Ha Hd Hl. pose proof (desc_index _ _ _ _ _ Ho Hd) as Hi. destruct (free_in_slots _ _ _ _ _ _ Ho Ha Hd) as [Hnd Hsub]. rewrite <- (length_slots a i Hi) in Hl.
  assert (free_in a (free_list d) ≡ₚ slots a i) as Hp by (apply submseteq_length_Permutation; [by apply NoDup_submseteq|lia]).
  intros b Hb. rewrite <- Hp in Hb. by apply list_elem_of_filter in Hb as [_ ?].
Qed.

(** ** Arena headers *)

Record has_header h (a : Z) (i : nat) (d : desc) (n : Z) (rest : list Z) : Prop := {
  hh_kpage : kpage a;
  hh_lt : (i < 7)%nat;
  hh_desc : descs h !! i = Some d;
  hh_size : block_size d = bs i /\ blocks_per_arena d = per i;
  hh_rest : length rest = 1021%nat;
  hh_page : pages (mach h) !! a = Some (header i n ++ rest)
}.

Lemma arena_header h S A a i d rest : heap_ok h S A -> arena_at h S A a i d rest -> has_header h a i d (Z.of_nat (length (free_in a (free_list d)))) rest.
Proof. intros Ho [H1 H2 H3 H4 H5 H6]. destruct (ho_desc _ _ _ Ho i d H3) as (E1 & E2 & _). by split. Qed.

Lemma wp_mach {B} (c : st machine B) Q h : wp c (fun b m => Q b (Heap m (descs h))) (mach h) -> wp (on_mach c) Q h.
Proof. unfold wp, on_mach. by destruct (c (mach h)) as [[]|]. Qed.

Lemma word0 a : kpage a -> a = u32 (a + 4 * 0).
Proof. intros [H1 _]. rewrite u32_small; unfold PHYS_BASE in *; lia. Qed.

Lemma wp_arena_magic h a i d n rest Q : has_header h a i d n rest -> Q ARENA_MAGIC h -> wp (arena_magic a) Q h.
Proof. intros [H1 H2 H3 H4 H5 H6] HQ. apply wp_mach. rewrite (word0 a) by done. eapply wp_load; [done|lia|exact H6|reflexivity|]. by destruct h. Qed.
Lemma wp_arena_desc h a i d n rest Q : has_header h a i d n rest -> Q (desc_ptr descs_addr i) h -> wp (arena_desc a) Q h.
Proof. intros [H1 H2 H3 H4 H5 H6] HQ. apply wp_mach. eapply (wp_load a 1); [done|lia|exact H6|reflexivity|]. by destruct h. Qed.
Lemma wp_free_cnt h a i d n rest Q : has_header h a i d n rest -> Q n h -> wp (arena_free_cnt a) Q h.
Proof. intros [H1 H2 H3 H4 H5 H6] HQ. apply wp_mach. eapply (wp_load a 2); [done|lia|exact H6|reflexivity|]. by destruct h. Qed.

Definition with_page (a : Z) (l : list Z) h : heap := Heap (set_pages (<[a := l]> (pages (mach h))) (mach h)) (descs h).

Lemma wp_set_cnt h a i d n n' rest Q : has_header h a i d n rest -> Q tt (with_page a (header i n' ++ rest) h) -> wp (set_free_cnt a n') Q h.
Proof. intros [H1 H2 H3 H4 H5 H6] HQ. apply wp_mach. eapply (wp_store a 2); [done|lia|exact H6|]. exact HQ. Qed.

(** The header of a new arena: whatever the page held. *)
Lemma wp_set_arena h a i n w0 w1 w2 rest Q : kpage a -> pages (mach h) !! a = Some (w0 :: w1 :: w2 :: rest) ->
  Q tt (with_page a (header i n ++ rest) h) -> wp (set_arena a (desc_ptr descs_addr i) n) Q h.
Proof.
  intros Hk Hp HQ. unfold set_arena. apply wp_bind, wp_mach. rewrite (word0 a) at 1 by done. eapply wp_store; [done|lia|exact Hp|].
  apply wp_bind, wp_mach. eapply (wp_store a 1); [done|lia|cbn [mach set_pages pages]; apply lookup_insert_eq|].
  apply wp_mach. eapply (wp_store a 2); [done|lia|cbn [mach set_pages pages]; apply lookup_insert_eq|]. cbn [mach descs set_pages pages].
  rewrite !insert_insert_eq. exact HQ.
Qed.

Lemma desc_ptr_ok i : (i < 7)%nat -> desc_ptr descs_addr i <> NULL /\ Z.to_nat ((desc_ptr descs_addr i - descs_addr) / DESC_SIZE) = i.
Proof.
  intros Hi. unfold desc_ptr, DESC_SIZE, NULL. split; [lia|]. replace (descs_addr + 48 * Z.of_nat i - descs_addr) with (Z.of_nat i * 48) by lia. rewrite Z.div_mul by lia. lia.
Qed.

Lemma wp_get_desc h i d Q : (i < 7)%nat -> descs h !! i = Some d -> Q (i, d) h -> wp (get_desc descs_addr (desc_ptr descs_addr i)) Q h.
Proof. intros Hi Hd HQ. unfold wp, get_desc. destruct (desc_ptr_ok i Hi) as [_ ->]. by rewrite Z.eqb_refl, Hd. Qed.

Lemma wp_block_to_arena h a i d n rest k Q : has_header h a i d n rest -> 0 <= k < per i -> Q a h -> wp (block_to_arena descs_addr (slot a i k)) Q h.
Proof.
  intros Hh Hk HQ. pose proof Hh as [[Ha1 Ha2] Hi Hd [Hbs Hper] _ _]. destruct (slot_page a i k Hi Ha2 Hk) as (E1 & E2 & E3 & E4). destruct (sizes i Hi) as (Hb & _). pose proof (desc_ptr_ok i Hi) as [Hn _].
  assert (0 <= slot a i k < 2 ^ 32) as Hr by (unfold page_of in E1; unfold PHYS_BASE in Ha1; split; [lia|]; assert (a <= 2 ^ 32 - 4096) by dlia; lia).
  unfold block_to_arena. rewrite pg_round_down_sub by done. fold (page_of (slot a i k)). rewrite E1. apply wp_bind, wp_assert; [apply negb_true_iff, Z.eqb_neq; unfold NULL, PHYS_BASE in *; lia|].
  apply wp_bind. eapply wp_arena_magic; [exact Hh|]. apply wp_bind, wp_assert; [done|]. apply wp_bind. eapply wp_arena_desc; [exact Hh|].
  rewrite (proj2 (Z.eqb_neq _ NULL)) by done. cbn [negb orb]. apply wp_bind, wp_bind. eapply wp_get_desc; [done|exact Hd|]. cbn [snd].
  apply wp_assert; [|apply wp_bind, wp_assert; [done|by apply wp_ret]]. rewrite pg_ofs_mod, E2, Hbs. unfold ARENA_SIZE. replace (12 + k * bs i - 12) with (k * bs i) by lia.
  rewrite u32_small by lia. rewrite Z.mod_mul by lia. done.
Qed.

Lemma wp_arena_to_block h a i d n rest k Q : has_header h a i d n rest -> 0 <= k < per i -> Q (slot a i k) h -> wp (arena_to_block descs_addr a k) Q h.
Proof.
  intros Hh Hk HQ. pose proof Hh as [[Ha1 Ha2] Hi Hd [Hbs Hper] _ _]. destruct (slot_page a i k Hi Ha2 Hk) as (E1 & E2 & E3 & E4). destruct (sizes i Hi) as (Hb & _).
  unfold arena_to_block. apply wp_bind, wp_assert; [apply negb_true_iff, Z.eqb_neq; unfold NULL, PHYS_BASE in *; lia|]. apply wp_bind. eapply wp_arena_magic; [exact Hh|]. apply wp_bind, wp_assert; [done|].
  apply wp_bind. eapply wp_arena_desc; [exact Hh|]. apply wp_bind. eapply wp_get_desc; [done|exact Hd|]. cbn [snd]. apply wp_bind, wp_assert; [rewrite Hper; apply Z.ltb_lt; lia|].
  apply wp_ret. rewrite Hbs, u32_small; [exact HQ|]. fold (slot a i k). unfold page_of in E1. unfold PHYS_BASE in Ha1. split; [lia|]. assert (a <= 2 ^ 32 - 4096) by dlia. lia.
Qed.

(** ** Free lists *)

Definition with_free (i : nat) (d : desc) (l : list Z) h : heap := Heap (mach h) (<[i := set_free l d]> (descs h)).

Lemma header_with_free h a i d n rest l : has_header h a i d n rest -> has_header (with_free i d l h) a i (set_free l d) n rest.
Proof. intros [H1 H2 H3 H4 H5 H6]. split; try done. cbn. apply list_lookup_insert_eq. by eapply lookup_lt_Some. Qed.

Lemma wp_add_blocks n a i c rest Q : forall k h d, has_header h a i d c rest -> 0 <= k -> k + Z.of_nat n <= per i ->
  Q tt (with_free i d (free_list d ++ slots_from n a i k) h) -> wp (add_blocks descs_addr n k i a) Q h.
Proof.
  induction n as [|n IH]; intros k h d Hh Hk Hn HQ; cbn [add_blocks].
  - apply wp_ret. replace (with_free i d _ h) with h in HQ; [done|]. unfold with_free, slots_from. cbn [seqZ fmap list_fmap]. rewrite app_nil_r, list_insert_id; [by destruct h|]. destruct d. apply (hh_desc _ _ _ _ _ _ Hh).
  - apply wp_bind. eapply wp_arena_to_block; [exact Hh|lia|]. apply wp_bind, wp_gets. rewrite (hh_desc _ _ _ _ _ _ Hh). apply wp_bind, wp_modify. fold (with_free i d (free_list d ++ [slot a i k]) h).
    eapply IH; [by apply header_with_free|lia|lia|]. unfold with_free in *. cbn [descs mach set_free free_list block_size blocks_per_arena] in *. rewrite list_insert_insert_eq.
    rewrite slots_from_S in HQ. by rewrite <- app_assoc.
Qed.

Lemma remove_block_ok b l : NoDup l -> b ∈ l -> remove_block b l = Ok (filter (fun x => x <> b) l).
Proof.
  induction l as [|x l IH]; [by intros _ ?%elem_of_nil|]. intros [Hx Hn]%list.NoDup_cons Hin. cbn [remove_block]. destruct (Z.eqb_spec x b) as [->|Hne].
  - rewrite filter_cons_False by naive_solver. f_equal. symmetry. apply filter_all. apply list.Forall_forall. intros y Hy ->. done.
  - rewrite filter_cons_True by done. apply elem_of_cons in Hin as [->|Hin]; [done|]. by rewrite IH.
Qed.

Lemma wp_remove_blocks n a i c rest Q : forall k h d, has_header h a i d c rest -> 0 <= k -> k + Z.of_nat n <= per i -> NoDup (free_list d) -> slots_from n a i k ⊆ free_list d ->
  Q tt (with_free i d (filter (fun b => b ∉ slots_from n a i k) (free_list d)) h) -> wp (remove_blocks descs_addr n k i a) Q h.
Proof.
  induction n as [|n IH]; intros k h d Hh Hk Hn Hnd Hsub HQ; cbn [remove_blocks].
  - apply wp_ret. replace (with_free i d _ h) with h in HQ; [done|]. unfold with_free, slots_from. cbn [seqZ fmap list_fmap]. rewrite filter_all by (apply list.Forall_forall; intros; apply not_elem_of_nil).
    rewrite list_insert_id; [by destruct h|]. destruct d. apply (hh_desc _ _ _ _ _ _ Hh).
  - pose proof (hh_lt _ _ _ _ _ _ Hh) as Hi. rewrite slots_from_S in Hsub, HQ. pose proof (slots_nodup (S n) a i k Hi) as Hnds. rewrite slots_from_S in Hnds. apply list.NoDup_cons in Hnds as [Hnot _].
    apply wp_bind. eapply wp_arena_to_block; [exact Hh|lia|]. apply wp_bind, wp_gets. rewrite (hh_desc _ _ _ _ _ _ Hh).
    apply wp_bind. eapply wp_lift; [apply remove_block_ok; [done|apply Hsub; by left]|]. apply wp_bind, wp_modify. fold (with_free i d (filter (fun x => x <> slot a i k) (free_list d)) h).
    eapply IH; [by apply header_with_free|lia|lia|by apply list.NoDup_filter| |].
    + cbn [set_free free_list]. intros b Hb. apply list_elem_of_filter. split; [by intros ->|]. apply Hsub. by right.
    + unfold with_free in *. cbn [descs mach set_free free_list block_size blocks_per_arena] in *. rewrite list_insert_insert_eq. rewrite list_filter_filter.
      erewrite list_filter_iff; [exact HQ|]. intros b. cbn. rewrite elem_of_cons. tauto.
Qed.

(** ** The bytes of a block *)

Lemma page_put (w0 w1 w2 : Z) rest x b : is_word w0 -> is_word w1 -> is_word w2 -> length rest = 1021%nat ->
  bytes_to_words 1024 (<[(12 + x)%nat := b]> (words_to_bytes ([w0; w1; w2] ++ rest))) = [w0; w1; w2] ++ bytes_to_words 1021 (<[x := b]> (words_to_bytes rest)).
Proof.
  intros H0 H1 H2 Hl. change (words_to_bytes ([w0; w1; w2] ++ rest)) with (le_bytes 4 w0 ++ (le_bytes 4 w1 ++ (le_bytes 4 w2 ++ words_to_bytes rest))).
  assert (forall w, length (le_bytes 4 w) = 4%nat) as L by (intros; apply length_le_bytes).
  replace (12 + x)%nat with (length (le_bytes 4 w0) + (length (le_bytes 4 w1) + (length (le_bytes 4 w2) + x)))%nat by (rewrite !L; lia). rewrite !insert_app_r.
  assert (forall n w l, is_word w -> bytes_to_words (S n) (le_bytes 4 w ++ l) = w :: bytes_to_words n l) as Hs.
  { intros n w l Hw. cbn [bytes_to_words]. rewrite take_app_length', drop_app_length' by (by rewrite length_le_bytes). by rewrite le_value_bytes32, u32_small. }
  by rewrite !Hs.
Qed.

Lemma header_words i c : (i < 7)%nat -> is_word c -> is_word ARENA_MAGIC /\ is_word (desc_ptr descs_addr i) /\ is_word c.
Proof. intros Hi Hc. unfold is_word, desc_ptr, DESC_SIZE, ARENA_MAGIC in *. lia. Qed.

(** Filling bytes of an arena's body. *)
Lemma wp_fill_bytes n a i c b : is_byte b -> is_word c -> (i < 7)%nat -> kpage a -> forall x m rest,
  pages m !! a = Some (header i c ++ rest) -> length rest = 1021%nat -> (x + n <= 4084)%nat ->
  wp (fill_bytes n (a + 12 + Z.of_nat x) b) (fun _ m' => exists rest', m' = set_pages (<[a := header i c ++ rest']> (pages m)) m /\ length rest' = 1021%nat /\
    forall y, ~ (x <= y < x + n)%nat -> words_to_bytes rest' !! y = words_to_bytes rest !! y) m.
Proof.
  intros Hb Hc Hi Hk. pose proof (header_words i c Hi Hc) as (W0 & W1 & W2). pose proof Hk as [Ha1 Ha2]. assert (a <= 2 ^ 32 - 4096) as Ha3 by dlia. unfold PHYS_BASE in Ha1.
  induction n as [|n IH]; intros x m rest Hp Hl Hx; cbn [fill_bytes].
  - apply wp_ret. exists rest. rewrite insert_id by done. by destruct m.
  - assert (pg_round_down (a + 12 + Z.of_nat x) = a /\ pg_ofs (a + 12 + Z.of_nat x) = 12 + Z.of_nat x) as [E1 E2].
    { assert ((a + 12 + Z.of_nat x) mod 4096 = 12 + Z.of_nat x) as E by dlia. rewrite pg_round_down_sub, pg_ofs_mod, E by lia. lia. }
    apply wp_bind. unfold wp at 1, put_byte. rewrite E1, E2, Hp. replace (Z.to_nat (12 + Z.of_nat x)) with (12 + x)%nat by lia. pose proof (page_put ARENA_MAGIC (desc_ptr descs_addr i) c rest x b W0 W1 W2 Hl) as Epp. fold (header i c) in Epp. rewrite Epp.
    set (rest1 := bytes_to_words 1021 _). assert (length rest1 = 1021%nat) as Hl1 by apply length_bytes_to_words.
    assert (words_to_bytes rest1 = <[x := b]> (words_to_bytes rest)) as Eb.
    { apply words_to_bytes_to_words; [rewrite length_insert, length_words_to_bytes; lia|]. apply Forall_insert; [apply words_are_bytes|done]. }
    destruct n as [|n]; [apply wp_ret; exists rest1; split_and!; [done..|]; intros y Hny; rewrite Eb; apply list_lookup_insert_ne; lia|].
    rewrite u32_small by lia. replace (a + 12 + Z.of_nat x + 1) with (a + 12 + Z.of_nat (S x)) by lia.
    eapply wp_mono; [eapply (IH (S x) _ rest1); [cbn [set_pages pages]; apply lookup_insert_eq|done|lia]|].
    intros _ m' (rest' & -> & Hl' & Hy). exists rest'. cbn [set_pages pages]. rewrite insert_insert_eq. split_and!; [done..|]. intros y Hny. rewrite Hy by lia. rewrite Eb. apply list_lookup_insert_ne. lia.
Qed.

(** ** Transitions *)

Lemma arena_slot h S A a i k : heap_ok h S A -> S !! a = Some i -> 0 <= k < per i -> page_of (slot a i k) = a /\ (i < 7)%nat.
Proof.
  intros Ho Ha Hk. destruct (arena_facts _ _ _ _ _ Ho Ha) as (d & rest & [_ Hi _ [_ Hal] _ _]). split; [|done]. by apply slot_page.
Qed.

(** The free list of one arena's descriptor changes in the blocks of that
    arena only. *)
Lemma relist h S A A' a i d rest rest' l' : heap_ok h S A -> arena_at h S A a i d rest -> NoDup l' -> length rest' = 1021%nat ->
  (forall a', a' <> a -> free_in a' l' = free_in a' (free_list d)) -> free_in a l' ⊆ slots a i ->
  (forall k, 0 <= k < per i -> slot a i k ∈ A' <-> slot a i k ∉ l') -> (forall x, page_of x <> a -> x ∈ A' <-> x ∈ A) -> (forall x, x ∈ A' -> page_of x = a -> x ∈ slots a i) ->
  heap_ok (with_page a (header i (Z.of_nat (length (free_in a l'))) ++ rest') (with_free i d l' h)) S A'.
Proof.
  intros Ho [Ha Hi Hd Hk Hr Hp] Hnd Hr' Hoth Hown Hsp HA HAown. pose proof Ho as [H1 H2 H3 H4 H5 H6 H7].
  assert (forall x, page_of x <> a -> x ∈ l' <-> x ∈ free_list d) as Hmem.
  { intros x Hx. pose proof (Hoth (page_of x) Hx) as E. split; intros Hin.
    - assert (x ∈ free_in (page_of x) l') as Hf by (by apply list_elem_of_filter). rewrite E in Hf. by apply list_elem_of_filter in Hf as [_ ?].
    - assert (x ∈ free_in (page_of x) (free_list d)) as Hf by (by apply list_elem_of_filter). rewrite <- E in Hf. by apply list_elem_of_filter in Hf as [_ ?]. }
  assert (forall j e, <[i := set_free l' d]> (descs h) !! j = Some e -> (j = i /\ e = set_free l' d) \/ (j <> i /\ descs h !! j = Some e)) as Hlk.
  { intros j e. rewrite list_lookup_insert_Some. naive_solver. }
  assert (<[i := set_free l' d]> (descs h) !! i = Some (set_free l' d)) as Hii by (apply list_lookup_insert_eq; by eapply lookup_lt_Some).
  split; cbn [with_page with_free mach descs set_pages kernel_pool pages].
  - destruct H1 as [P1 P2 P3 P4]. split; cbn [set_pages pages]; [done..|]. intros j Hj. destruct (P4 j Hj) as (lj & Hlj & Hn). eapply insert_table_len; [by rewrite length_app, Hr'|exact Hlj|done].
  - by rewrite length_insert.
  - intros j e [[-> ->]|[Hne He]]%Hlk; [|by apply H3]. destruct (H3 i d Hd) as (E1 & E2 & _). done.
  - intros a' i' Ha'. destruct (H4 a' i' Ha') as (Hps & d' & r' & Hd' & Hr2 & Hpg). split; [done|]. destruct (decide (a' = a)) as [->|Hna].
    + assert (i' = i) as -> by congruence. exists (set_free l' d), rest'. split_and!; [done..|]. by rewrite lookup_insert_eq.
    + rewrite lookup_insert_ne by done. destruct (decide (i' = i)) as [->|Hni].
      * exists (set_free l' d), r'. assert (d' = d) as -> by congruence. split_and!; [done..|]. cbn [set_free free_list]. by rewrite Hoth.
      * exists d', r'. by rewrite list_lookup_insert_ne.
  - intros j e b [[-> ->]|[Hne He]]%Hlk Hb; [|by eapply H5]. cbn [set_free free_list] in Hb. destruct (decide (page_of b = a)) as [Hpb|Hpb].
    + assert (b ∈ slots a i) as Hs by (apply Hown; by apply list_elem_of_filter). apply elem_of_slots in Hs as (k & Hkk & ->); [|done]. eauto.
    + eapply H5; [exact Hd|]. by apply Hmem.
  - intros a' j e k Ha' Hje Hk'. pose proof (arena_slot _ _ _ _ _ _ Ho Ha' Hk') as [Hpo _]. apply Hlk in Hje as [[-> ->]|[Hne He]].
    + cbn [set_free free_list]. destruct (decide (a' = a)) as [->|Hna]; [by apply Hsp|]. rewrite HA, Hmem by congruence. by eapply H6.
    + rewrite HA; [by eapply H6|]. rewrite Hpo. intros ->. congruence.
  - intros b Hb. destruct (decide (page_of b = a)) as [Hpb|Hpb].
    + apply HAown in Hb as Hs; [|done]. apply elem_of_slots in Hs as (k & Hkk & ->); [|done]. by exists a, i, k.
    + apply H7. by apply HA.
Qed.

(** malloc takes the first free block. *)
Lemma heap_pop h S A a i d rest k l : heap_ok h S A -> arena_at h S A a i d rest -> 0 <= k < per i -> free_list d = slot a i k :: l ->
  (slot a i k ∉ A) /\ heap_ok (with_page a (header i (Z.of_nat (length (free_in a (free_list d))) - 1) ++ rest) (with_free i d l h)) S ({[slot a i k]} ∪ A).
Proof.
  intros Ho Hat Hk Hl. pose proof Hat as [Ha Hi Hd [_ Hal] Hr Hp]. destruct (slot_page a i k Hi Hal Hk) as (Hpo & _). destruct (ho_desc _ _ _ Ho i d Hd) as (_ & _ & Hnd).
  rewrite Hl in Hnd. apply list.NoDup_cons in Hnd as [Hnot Hnd]. pose proof (ho_split _ _ _ Ho a i d k Ha Hd Hk) as Hsp. rewrite Hl in Hsp.
  assert (slot a i k ∉ A) as HnA by (rewrite Hsp; intros H; apply H; by left). split; [done|]. unfold free_in. rewrite Hl, filter_cons_True by done. cbn [length].
  rewrite Nat2Z.inj_succ. unfold Z.succ. rewrite Z.add_simpl_r. fold (free_in a l). eapply relist; try done.
  - intros a' Hna. unfold free_in. rewrite Hl, filter_cons_False; [done|congruence].
  - intros b Hb. eapply free_in_slots; [done..|]. rewrite Hl. apply list_elem_of_filter in Hb as [? ?]. apply list_elem_of_filter. split; [done|]. by right.
  - intros k' Hk'. rewrite elem_of_union, elem_of_singleton, (ho_split _ _ _ Ho a i d k' Ha Hd Hk'), Hl, elem_of_cons. split; [intros [E|H]; [by rewrite E|tauto]|]. destruct (decide (slot a i k' = slot a i k)); tauto.
  - intros x Hx. rewrite elem_of_union, elem_of_singleton. split; [intros [->|?]; [done|done]|tauto].
  - intros x [->%elem_of_singleton|HxA]%elem_of_union Hpx; [apply elem_of_slots; eauto|]. destruct (ho_used _ _ _ Ho x HxA) as (a' & i' & k' & Ha' & Hk' & ->).
    destruct (arena_slot _ _ _ _ _ _ Ho Ha' Hk') as [E _]. assert (a' = a) as -> by congruence. assert (i' = i) as -> by congruence. apply elem_of_slots; eauto.
Qed.

(** free puts the block in front. *)
Lemma heap_push h S A a i d rest rest' k : heap_ok h S A -> arena_at h S A a i d rest -> 0 <= k < per i -> slot a i k ∈ A -> length rest' = 1021%nat ->
  heap_ok (with_page a (header i (Z.of_nat (length (free_in a (free_list d))) + 1) ++ rest') (with_free i d (slot a i k :: free_list d) h)) S (A ∖ {[slot a i k]}).
Proof.
  intros Ho Hat Hk HA Hr'. pose proof Hat as [Ha Hi Hd [_ Hal] Hr Hp]. destruct (slot_page a i k Hi Hal Hk) as (Hpo & _). destruct (ho_desc _ _ _ Ho i d Hd) as (_ & _ & Hnd).
  pose proof (proj1 (ho_split _ _ _ Ho a i d k Ha Hd Hk) HA) as Hnot. replace (Z.of_nat (length (free_in a (free_list d))) + 1) with (Z.of_nat (length (free_in a (slot a i k :: free_list d)))) by (unfold free_in; rewrite filter_cons_True by done; cbn [length]; lia).
  eapply relist; try done.
  - by apply list.NoDup_cons.
  - intros a' Hna. unfold free_in. rewrite filter_cons_False; [done|congruence].
  - intros b Hb. apply list_elem_of_filter in Hb as [Hpb [->|Hb]%elem_of_cons]; [apply elem_of_slots; eauto|]. eapply free_in_slots; [done..|]. by apply list_elem_of_filter.
  - intros k' Hk'. rewrite elem_of_difference, elem_of_singleton, (ho_split _ _ _ Ho a i d k' Ha Hd Hk'), elem_of_cons. tauto.
  - intros x Hx. rewrite elem_of_difference, elem_of_singleton. split; [tauto|]. intros ?. split; [done|congruence].
  - intros x [HxA _]%elem_of_difference Hpx. destruct (ho_used _ _ _ Ho x HxA) as (a' & i' & k' & Ha' & Hk' & ->).
    destruct (arena_slot _ _ _ _ _ _ Ho Ha' Hk') as [E _]. assert (a' = a) as -> by congruence. assert (i' = i) as -> by congruence. apply elem_of_slots; eauto.
Qed.

Lemma page_state_fun p a : page_state p a true -> page_state p a false -> False.
Proof. intros (i & Hi & E & Hb) (j & Hj & E' & Hb'). assert (i = j) as -> by lia. congruence. Qed.

(** A new arena joins an empty free list. *)
Lemma heap_grow h m' S A a i d rest : heap_ok h S A -> descs h !! i = Some d -> free_list d = [] -> length rest = 1021%nat ->
  page_state (kernel_pool (mach h)) a false -> page_state (kernel_pool m') a true -> pool_wf m' (kernel_pool m') -> pages m' = pages (mach h) ->
  (forall x v, x <> a -> page_state (kernel_pool (mach h)) x v -> page_state (kernel_pool m') x v) ->
  heap_ok (with_free i d (slots a i) (with_page a (header i (per i) ++ rest) (Heap m' (descs h)))) (<[a := i]> S) A.
Proof.
  intros Ho Hd Hnil Hr Hps Hps' Hw Hpg Hkeep. pose proof Ho as [H1 H2 H3 H4 H5 H6 H7]. pose proof (desc_index _ _ _ _ _ Ho Hd) as Hi.
  destruct (arena_page _ _ _ H1 Hps) as [Hk1 Hal]. assert (S !! a = None) as HaS.
  { destruct (S !! a) as [j|] eqn:E; [|done]. destruct (H4 a j E) as [Hp _]. destruct (page_state_fun _ _ Hp Hps). }
  assert (forall k, 0 <= k < per i -> page_of (slot a i k) = a) as Hpo by (intros k Hk; by apply slot_page).
  assert (forall j e, <[i := set_free (slots a i) d]> (descs h) !! j = Some e -> (j = i /\ e = set_free (slots a i) d) \/ (j <> i /\ descs h !! j = Some e)) as Hlk.
  { intros j e. rewrite list_lookup_insert_Some. naive_solver. }
  assert (<[i := set_free (slots a i) d]> (descs h) !! i = Some (set_free (slots a i) d)) as Hii by (apply list_lookup_insert_eq; by eapply lookup_lt_Some).
  assert (forall a' i', S !! a' = Some i' -> a' <> a) as Hna by (intros a' i' Ha' ->; congruence).
  assert (forall x, x ∈ slots a i -> page_of x = a) as Hall by (intros x Hx; apply elem_of_slots in Hx as (k & Hk & ->); auto).
  split; cbn [with_page with_free mach descs set_pages kernel_pool pages].
  - destruct Hw as [P1 P2 P3 P4]. split; cbn [set_pages pages]; [done..|]. intros j Hj. destruct (P4 j Hj) as (lj & Hlj & Hn). eapply insert_table_len; [by rewrite length_app, Hr|exact Hlj|done].
  - by rewrite length_insert.
  - intros j e [[-> ->]|[Hne He]]%Hlk; [|by apply H3]. destruct (H3 i d Hd) as (E1 & E2 & _). split_and!; [done..|]. by apply slots_nodup.
  - intros a' i'. rewrite lookup_insert_Some. intros [[<- <-]|[Hne Ha']].
    + split; [done|]. exists (set_free (slots a i) d), rest. split_and!; [done..|]. rewrite lookup_insert_eq. do 3 f_equal. cbn [set_free free_list].
      unfold free_in. rewrite filter_all by (by apply list.Forall_forall). symmetry. by apply length_slots.
    + destruct (H4 a' i' Ha') as (Hp' & d' & r' & Hd' & Hr2 & Hpg'). split; [by apply Hkeep|]. rewrite lookup_insert_ne, Hpg by done. destruct (decide (i' = i)) as [->|Hni].
      * exists (set_free (slots a i) d), r'. assert (d' = d) as -> by congruence. split_and!; [done..|]. rewrite Hpg'. do 4 f_equal. cbn [set_free free_list]. unfold free_in. rewrite Hnil.
        replace (filter (fun b => page_of b = a') (slots a i)) with (@nil Z); [done|]. symmetry. apply filter_none, list.Forall_forall. intros x Hx. rewrite (Hall x Hx). congruence.
      * exists d', r'. by rewrite list_lookup_insert_ne.
  - intros j e b [[-> ->]|[Hne He]]%Hlk Hb.
    + apply elem_of_slots in Hb as (k & Hk & ->); [|done]. exists a, k. by rewrite lookup_insert_eq.
    + destruct (H5 j e b He Hb) as (a' & k & Ha' & Hk & ->). exists a', k. rewrite lookup_insert_ne; [done|]. intros ->. by apply (Hna _ _ Ha').
  - intros a' j e k. rewrite lookup_insert_Some. intros [[<- <-]|[Hne Ha']] Hje Hk.
    + apply Hlk in Hje as [[_ ->]|[? _]]; [|done]. cbn [set_free free_list]. split; [|intros Hn; destruct Hn; apply elem_of_slots; eauto].
      intros HA. destruct (H7 _ HA) as (a' & i' & k' & Ha' & Hk' & E). destruct (arena_slot _ _ _ _ _ _ Ho Ha' Hk') as [E' _]. rewrite <- E, Hpo in E' by done. subst a'. congruence.
    + destruct (arena_slot _ _ _ _ _ _ Ho Ha' Hk) as [E' _]. apply Hlk in Hje as [[-> ->]|[Hne' He]]; [|by eapply H6]. cbn [set_free free_list]. rewrite (H6 a' i d k Ha' Hd Hk), Hnil.
      split; intros _; [|apply not_elem_of_nil]. intros Hin. apply Hne. rewrite <- E'. symmetry. by apply Hall.
  - intros b Hb. destruct (H7 b Hb) as (a' & i' & k & Ha' & Hk & ->). exists a', i', k. rewrite lookup_insert_ne; [done|]. intros ->. by apply (Hna _ _ Ha').
Qed.

(** An arena whose blocks are all free leaves. *)
Lemma heap_release h m' S A a i d rest : heap_ok h S A -> arena_at h S A a i d rest -> slots a i ⊆ free_list d -> pool_wf m' (kernel_pool m') ->
  (forall x, x <> a -> pages m' !! x = pages (mach h) !! x) -> (forall x v, x <> a -> page_state (kernel_pool (mach h)) x v -> page_state (kernel_pool m') x v) ->
  heap_ok (with_free i d (filter (fun b => b ∉ slots a i) (free_list d)) (Heap m' (descs h))) (delete a S) A.
Proof.
  intros Ho [Ha Hi Hd [Hk1 Hal] Hr Hp] Hsub Hw Hpg Hkeep. pose proof Ho as [H1 H2 H3 H4 H5 H6 H7]. set (l' := filter _ (free_list d)).
  assert (forall j e, <[i := set_free l' d]> (descs h) !! j = Some e -> (j = i /\ e = set_free l' d) \/ (j <> i /\ descs h !! j = Some e)) as Hlk.
  { intros j e. rewrite list_lookup_insert_Some. naive_solver. }
  assert (<[i := set_free l' d]> (descs h) !! i = Some (set_free l' d)) as Hii by (apply list_lookup_insert_eq; by eapply lookup_lt_Some).
  assert (forall x, x ∈ slots a i -> page_of x = a) as Hall by (intros x Hx; apply elem_of_slots in Hx as (k & Hk & ->); [by apply slot_page|done]).
  assert (forall x, x ∈ l' <-> (x ∉ slots a i) /\ x ∈ free_list d) as Hl' by (intros x; unfold l'; by rewrite list_elem_of_filter).
  split; cbn [with_page with_free mach descs set_pages kernel_pool pages].
  - done.
  - by rewrite length_insert.
  - intros j e [[-> ->]|[Hne He]]%Hlk; [|by apply H3]. destruct (H3 i d Hd) as (E1 & E2 & ?). split_and!; [done..|]. by apply list.NoDup_filter.
  - intros a' i' [Hne Ha']%lookup_delete_Some. destruct (H4 a' i' Ha') as (Hp' & d' & r' & Hd' & Hr2 & Hpg'). split; [by apply Hkeep|]. rewrite Hpg by done. destruct (decide (i' = i)) as [->|Hni].
    + exists (set_free l' d), r'. assert (d' = d) as -> by congruence. split_and!; [done..|]. rewrite Hpg'. do 5 f_equal. cbn [set_free free_list]. unfold free_in, l'. rewrite list_filter_filter.
      f_equal. apply list_filter_iff. intros x. split; [intros E; split; [done|]|tauto]. intros Hx. apply Hne. rewrite <- E. symmetry. by apply Hall.
    + exists d', r'. by rewrite list_lookup_insert_ne.
  - intros j e b [[-> ->]|[Hne He]]%Hlk Hb.
    + apply Hl' in Hb as [Hns Hb]. destruct (H5 i d b Hd Hb) as (a' & k & Ha' & Hk & ->). exists a', k. rewrite lookup_delete_ne; [done|]. intros ->. apply Hns, elem_of_slots; eauto.
    + destruct (H5 j e b He Hb) as (a' & k & Ha' & Hk & ->). exists a', k. rewrite lookup_delete_ne; [done|]. intros ->. congruence.
  - intros a' j e k [Hna Ha']%lookup_delete_Some Hje Hk. destruct (arena_slot _ _ _ _ _ _ Ho Ha' Hk) as [E' _]. apply Hlk in Hje as [[-> ->]|[Hne' He]]; [|by eapply H6].
    cbn [set_free free_list]. rewrite (H6 a' i d k Ha' Hd Hk), Hl'. split; [tauto|]. intros Hn Hin. apply Hn. split; [|done]. intros Hs. apply Hna. rewrite <- E'. symmetry. by apply Hall.
  - intros b Hb. destruct (H7 b Hb) as (a' & i' & k & Ha' & Hk & ->). exists a', i', k. rewrite lookup_delete_ne; [done|]. intros ->. assert (i' = i) as -> by congruence.
    apply (H6 a' i d k Ha Hd Hk) in Hb. destruct Hb. apply Hsub, elem_of_slots; eauto.
Qed.

(** ** Contents *)

Definition byte_at h (x : Z) : option Z := pages (mach h) !! page_of x ≫= fun l => words_to_bytes l !! Z.to_nat (x mod 4096).
(** The size of an allocated block. *)
Definition size_of S (b : Z) : Z := from_option bs 0 (S !! page_of b).
(** The bytes of the blocks [A] are the same in both heaps. *)
Definition keeps S A h h' : Prop := forall b x, b ∈ A -> b <= x < b + size_of S b -> byte_at h' x = byte_at h x.
(** Every arena has a block in use. *)
Definition tight S A : Prop := forall a i, S !! a = Some i -> exists b, b ∈ A /\ page_of b = a.

Lemma body_byte i n rest y : words_to_bytes (header i n ++ rest) !! (12 + y)%nat = words_to_bytes rest !! y.
Proof. unfold header. cbn [app]. by rewrite !words_to_bytes_cons. Qed.

(** A byte of an allocated block is in the body of its arena. *)
Lemma in_block h S A b x : heap_ok h S A -> b ∈ A -> b <= x < b + size_of S b ->
  exists i k y, S !! page_of b = Some i /\ 0 <= k < per i /\ b = slot (page_of b) i k /\ page_of x = page_of b /\ Z.to_nat (x mod 4096) = (12 + y)%nat /\
    k * bs i <= Z.of_nat y < (k + 1) * bs i.
Proof.
  intros Ho Hb Hx. destruct (ho_used _ _ _ Ho b Hb) as (a & i & k & Ha & Hk & ->). destruct (arena_facts _ _ _ _ _ Ho Ha) as (d & rest & [_ Hi _ [Hk1 Hal] _ _]).
  destruct (slot_page a i k Hi Hal Hk) as (Hpo & E1 & E2 & E3). rewrite Hpo in *. unfold size_of in Hx. rewrite Hpo, Ha in Hx. cbn [from_option] in Hx.
  assert (slot a i k = a + (12 + k * bs i)) as Es by (unfold slot, ARENA_SIZE; lia). assert (x mod 4096 = x - a /\ page_of x = a) as [Em Ep].
  { assert (x mod 4096 = x - a) as E; [|unfold page_of; lia]. rewrite <- (Z.mod_small (x - a) 4096) by lia. rewrite Zminus_mod, Hal, Z.sub_0_r, Z.mod_mod by lia. done. }
  exists i, k, (Z.to_nat (x - a - 12)). split_and!; [done|lia|lia|done|done|rewrite Em; lia|lia|lia].
Qed.

Lemma keeps_page h h' S A a i n n' rest : heap_ok h S A -> pages (mach h) !! a = Some (header i n ++ rest) ->
  pages (mach h') = <[a := header i n' ++ rest]> (pages (mach h)) -> keeps S A h h'.
Proof.
  intros Ho Hp Hp' b x Hb Hx. destruct (in_block _ _ _ _ _ Ho Hb Hx) as (j & k & y & _ & _ & _ & _ & Ey & _). unfold byte_at. rewrite Hp', Ey.
  destruct (decide (page_of x = a)) as [->|Hne]; [|by rewrite lookup_insert_ne]. rewrite lookup_insert_eq, Hp. cbn [mbind option_bind]. by rewrite !body_byte.
Qed.

Lemma keeps_trans S S' A h1 h2 h3 : S ⊆ S' -> (forall b, b ∈ A -> is_Some (S !! page_of b)) -> keeps S A h1 h2 -> keeps S' A h2 h3 -> keeps S A h1 h3.
Proof.
  intros Hs Hd K1 K2 b x Hb Hx. rewrite <- (K1 b x) by done. apply (K2 b x Hb). destruct (Hd b Hb) as [i Hi]. unfold size_of in *. rewrite (lookup_weaken _ _ _ _ Hi Hs). by rewrite Hi in Hx.
Qed.

Lemma used_page h S A b : heap_ok h S A -> b ∈ A -> is_Some (S !! page_of b).
Proof. intros Ho Hb. destruct (ho_used _ _ _ Ho b Hb) as (a & i & k & Ha & Hk & ->). destruct (arena_slot _ _ _ _ _ _ Ho Ha Hk) as [-> _]. eauto. Qed.

(** No block starts inside another, so blocks do not overlap. *)
Lemma not_inside h S A b b' : heap_ok h S A -> b ∈ A -> b' ∈ A -> b <> b' -> ~ (b <= b' < b + size_of S b).
Proof.
  intros Ho Hb Hb' Hne Hin. destruct (in_block _ _ _ _ _ Ho Hb Hin) as (i & k & y & Hi & Hk & E & Ep & Ey & Hr). destruct (ho_used _ _ _ Ho b' Hb') as (a' & i' & k' & Ha' & Hk' & ->).
  destruct (arena_slot _ _ _ _ _ _ Ho Ha' Hk') as [Ep' Hi7]. rewrite Ep' in Ep. rewrite <- Ep in *. assert (i' = i) as -> by congruence.
  destruct (arena_facts _ _ _ _ _ Ho Ha') as (d & rest & [_ _ _ [_ Hal] _ _]). destruct (slot_page a' i k' Hi7 Hal Hk') as (_ & E2 & _). rewrite E2 in Ey.
  destruct (sizes i Hi7) as (Hbs & _). assert (k = k') by nia. subst k'. congruence.
Qed.
Lemma blocks_disjoint h S A b b' : heap_ok h S A -> b ∈ A -> b' ∈ A -> b <> b' -> b + size_of S b <= b' \/ b' + size_of S b' <= b.
Proof. intros Ho Hb Hb' Hne. pose proof (not_inside _ _ _ b b' Ho Hb Hb' Hne). pose proof (not_inside _ _ _ b' b Ho Hb' Hb ltac:(done)). lia. Qed.

(** ** malloc *)

Lemma find_desc_ok h S A size : heap_ok h S A -> 0 < size <= 1024 ->
  exists i d, find_desc (descs h) 0 size = Some i /\ descs h !! i = Some d /\ size <= bs i /\ (forall j, (j < i)%nat -> bs j < size).
Proof.
  intros Ho Hs. pose proof (ho_len _ _ _ Ho) as Hl. pose proof (fun i d H => proj1 (ho_desc _ _ _ Ho i d H)) as Hd.
  destruct (descs h) as [|d0 [|d1 [|d2 [|d3 [|d4 [|d5 [|d6 [|]]]]]]]]; try done.
  pose proof (Hd 0%nat d0 eq_refl) as E0. pose proof (Hd 1%nat d1 eq_refl) as E1. pose proof (Hd 2%nat d2 eq_refl) as E2. pose proof (Hd 3%nat d3 eq_refl) as E3.
  pose proof (Hd 4%nat d4 eq_refl) as E4. pose proof (Hd 5%nat d5 eq_refl) as E5. pose proof (Hd 6%nat d6 eq_refl) as E6.
  cbn [find_desc]. rewrite E0, E1, E2, E3, E4, E5, E6. clear Hd.
  assert (bs 0 = 16 /\ bs 1 = 32 /\ bs 2 = 64 /\ bs 3 = 128 /\ bs 4 = 256 /\ bs 5 = 512 /\ bs 6 = 1024) as (B0 & B1 & B2 & B3 & B4 & B5 & B6) by done.
  repeat match goal with |- context [size <=? ?x] => destruct (Z.leb_spec size x) end; try lia;
    (eexists _, _; split_and!; [reflexivity|reflexivity|lia|]; intros j Hj; do 6 (destruct j as [|j]; [lia|]); lia).
Qed.

(** The state after a possible new arena. *)
Lemma wp_refill h S A i d : heap_ok h S A -> descs h !! i = Some d ->
  wp (if bool_decide (free_list d = []) then
        a ← on_mach (palloc_get_page 0);
        if a =? NULL then mret false
        else set_arena a (desc_ptr descs_addr i) (blocks_per_arena d) ≫= fun _ => add_blocks descs_addr (Z.to_nat (blocks_per_arena d)) 0 i a ≫= fun _ => mret true
      else mret true)
    (fun ok h1 => (ok = false /\ h1 = h /\ forall x, ~ page_state (kernel_pool (mach h)) x false) \/
       (ok = true /\ exists S1 d1, heap_ok h1 S1 A /\ descs h1 !! i = Some d1 /\ free_list d1 <> [] /\ S ⊆ S1 /\ keeps S A h h1 /\
          forall a j, S1 !! a = Some j -> S !! a = Some j \/ Forall (fun b => page_of b = a) (free_list d1))) h.
Proof.
  intros Ho Hd. case_bool_decide as Hnil.
  2:{ apply wp_ret. right. split; [done|]. exists S, d. split_and!; [done..|by intros b x| ]. by left. }
  pose proof (desc_index _ _ _ _ _ Ho Hd) as Hi. destruct (sizes i Hi) as (_ & Hper & _). destruct (ho_desc _ _ _ Ho i d Hd) as (Ebs & Eper & _). rewrite Eper. apply wp_bind, wp_mach.
  eapply wp_mono; [apply wp_take_kernel, (ho_pool _ _ _ Ho)|]. intros a m' [(-> & -> & Hno)|(Hfree & Hused & Hk & Hw & Hpg & Hkeep)].
  { rewrite Z.eqb_refl. apply wp_ret. left. by destruct h. }
  pose proof Hk as [Hk1 Hal]. rewrite (proj2 (Z.eqb_neq a NULL)) by (unfold NULL, PHYS_BASE in *; lia).
  assert (exists w0 w1 w2 rest, pages (mach h) !! a = Some (w0 :: w1 :: w2 :: rest) /\ length rest = 1021%nat) as (w0 & w1 & w2 & rest & Hp & Hr).
  { destruct Hfree as (j & Hj & -> & _). destruct (pw_mem _ _ (ho_pool _ _ _ Ho) j Hj) as (l & Hl & Hlen). destruct l as [|w0 [|w1 [|w2 rest]]]; try done. exists w0, w1, w2, rest. split; [done|]. cbn in Hlen. lia. }
  apply wp_bind. eapply wp_set_arena; [done|by cbn [mach]; rewrite Hpg|]. apply wp_bind.
  pose proof (heap_grow h m' S A a i d rest Ho Hd Hnil Hr Hfree Hused Hw Hpg Hkeep) as Hgrow.
  eapply (wp_add_blocks _ a i (per i) rest _ 0 _ d); [|lia|lia|].
  { split; try done. cbn [with_page mach set_pages pages]. apply lookup_insert_eq. }
  rewrite Hnil. cbn [app]. fold (slots a i). apply wp_ret. right. split; [done|]. exists (<[a := i]> S), (set_free (slots a i) d).
  assert (S !! a = None) as HaS. { destruct (S !! a) as [j|] eqn:E; [|done]. destruct (ho_arena _ _ _ Ho a j E) as [Hps _]. destruct (page_state_fun _ _ Hps Hfree). }
  split_and!.
  - exact Hgrow.
  - cbn. apply list_lookup_insert_eq. by eapply lookup_lt_Some.
  - cbn [set_free free_list]. intros E. pose proof (length_slots a i Hi). rewrite E in *. cbn in *. lia.
  - by apply insert_subseteq.
  - intros b x Hb Hx. destruct (in_block _ _ _ _ _ Ho Hb Hx) as (j & k & y & Hj & _ & _ & Ep & _). unfold byte_at. rewrite Ep. cbn [with_free with_page mach set_pages pages].
    rewrite lookup_insert_ne, Hpg by congruence. done.
  - intros a' j. rewrite lookup_insert_Some. intros [[<- <-]|[_ ?]]; [right|by left]. apply list.Forall_forall. cbn [set_free free_list]. intros x Hx. apply elem_of_slots in Hx as (k & Hk' & ->); [by apply slot_page|done].
Qed.

Definition fresh_block h S A (i : nat) (b : Z) h' : Prop :=
  exists S', heap_ok h' S' ({[b]} ∪ A) /\ (b ∉ A) /\ b <> NULL /\ S' !! page_of b = Some i /\ S ⊆ S' /\ keeps S A h h' /\ (tight S A -> tight S' ({[b]} ∪ A)).

Lemma wp_malloc_small h S A i d : heap_ok h S A -> descs h !! i = Some d ->
  wp (malloc_small descs_addr i d) (fun b h' => (b = NULL /\ h' = h /\ forall x, ~ page_state (kernel_pool (mach h)) x false) \/ fresh_block h S A i b h') h.
Proof.
  intros Ho Hd. unfold malloc_small. apply wp_bind. eapply wp_mono; [by eapply wp_refill|]. intros ok h1 [(-> & -> & Hno)|(-> & S1 & d1 & Ho1 & Hd1 & Hne & Hsub & Hkeep & Hnew)]; cbn [negb].
  { apply wp_ret. by left. }
  apply wp_bind, wp_gets. rewrite Hd1. destruct (free_list d1) as [|b l] eqn:El; [done|]. destruct (ho_free _ _ _ Ho1 i d1 b Hd1) as (a & k & Ha & Hk & ->); [rewrite El; by left|].
  destruct (arena_facts _ _ _ _ _ Ho1 Ha) as (d' & rest & Hat). assert (d' = d1) as -> by (pose proof (aa_desc _ _ _ _ _ _ _ Hat); congruence).
  pose proof (arena_header _ _ _ _ _ _ _ Ho1 Hat) as Hh. apply (header_with_free _ _ _ _ _ _ l) in Hh as Hh2. pose proof (free_count _ _ _ _ _ _ Ho1 Ha Hd1) as Hcnt.
  destruct (heap_pop _ _ _ _ _ _ _ _ _ Ho1 Hat Hk El) as [HnA Ho2]. destruct (arena_slot _ _ _ _ _ _ Ho1 Ha Hk) as [Hpo Hi]. destruct (sizes i Hi) as (Hb16 & Hper & _).
  assert (0 < Z.of_nat (length (free_in a (free_list d1)))) as Hpos by (rewrite El; unfold free_in; rewrite filter_cons_True by done; cbn [length]; lia).
  apply wp_bind, wp_modify. fold (with_free i d1 l h1). apply wp_bind. eapply wp_block_to_arena; [exact Hh2|done|]. apply wp_bind. eapply wp_free_cnt; [exact Hh2|].
  apply wp_bind. eapply wp_set_cnt; [exact Hh2|]. rewrite u32_small by lia. apply wp_ret. right. exists S1. split_and!; try done.
  - pose proof (aa_kpage _ _ _ _ _ _ _ Hat) as [Hk1 _]. unfold slot, ARENA_SIZE, NULL, PHYS_BASE in *. nia.
  - by rewrite Hpo.
  - eapply keeps_trans; [exact Hsub|by intros; eapply used_page|exact Hkeep|]. eapply keeps_page; [exact Ho1|apply (aa_page _ _ _ _ _ _ _ Hat)|done].
  - intros Ht a' j Ha'. destruct (Hnew a' j Ha') as [HS|Hall]; [destruct (Ht a' j HS) as (b & Hb & <-); exists b; set_solver|].
    apply list.Forall_cons_1 in Hall as [<- _]. exists (slot a i k). set_solver.
Qed.

(** ** free *)

Lemma with_comm a l i d r h : with_page a l (with_free i d r h) = with_free i d r (with_page a l h).
Proof. done. Qed.

Lemma some_used h S A a i d : heap_ok h S A -> S !! a = Some i -> descs h !! i = Some d -> Z.of_nat (length (free_in a (free_list d))) < per i -> exists b, b ∈ A /\ page_of b = a.
Proof.
  intros Ho Ha Hd Hlt. pose proof (desc_index _ _ _ _ _ Ho Hd) as Hi. destruct (decide (Forall (fun x => x ∈ free_in a (free_list d)) (slots a i))) as [Hall|Hnot].
  - exfalso. assert (length (slots a i) <= length (free_in a (free_list d)))%nat as Hle by (apply submseteq_length, NoDup_submseteq; [by apply slots_nodup|by apply list.Forall_forall]).
    pose proof (length_slots a i Hi). lia.
  - apply not_Forall_Exists in Hnot; [|apply _]. apply list.Exists_exists in Hnot as (x & Hx & Hn). cbn in Hn. apply elem_of_slots in Hx as (k & Hk & ->); [|done].
    destruct (arena_slot _ _ _ _ _ _ Ho Ha Hk) as [Hpo _]. exists (slot a i k). split; [|done]. apply (ho_split _ _ _ Ho a i d k Ha Hd Hk). intros Hin. apply Hn. by apply list_elem_of_filter.
Qed.

Definition block_freed h S A (b : Z) h' : Prop :=
  exists S', heap_ok h' S' (A ∖ {[b]}) /\ S' ⊆ S /\ keeps S (A ∖ {[b]}) h h' /\ (tight S A -> tight S' (A ∖ {[b]})).

Lemma header_with_page h a i d n n' rest rest' : has_header h a i d n rest -> length rest' = 1021%nat -> has_header (with_page a (header i n' ++ rest') h) a i d n' rest'.
Proof. intros [H1 H2 H3 H4 H5 H6] Hr. split; try done. cbn [with_page mach set_pages pages]. apply lookup_insert_eq. Qed.

Lemma with_page_twice a l l' i d r h : with_page a l (with_free i d r (with_page a l' h)) = with_page a l (with_free i d r h).
Proof. unfold with_page, with_free. cbn [mach descs set_pages pages]. by rewrite insert_insert_eq. Qed.

(** Filling a block with 0xcc leaves the others. *)
Lemma keeps_fill h h' S A a i n n' rest rest' k : heap_ok h S A -> S !! a = Some i -> 0 <= k < per i -> pages (mach h) !! a = Some (header i n ++ rest) ->
  pages (mach h') = <[a := header i n' ++ rest']> (pages (mach h)) ->
  (forall y, ~ (k * bs i <= Z.of_nat y < (k + 1) * bs i) -> words_to_bytes rest' !! y = words_to_bytes rest !! y) -> keeps S (A ∖ {[slot a i k]}) h h'.
Proof.
  intros Ho Ha Hk Hp Hp' Hy b x [Hb Hne]%elem_of_difference Hx. destruct (in_block _ _ _ _ _ Ho Hb Hx) as (j & k' & y & Hj & Hk' & Eb & Ep & Ey & Hr). unfold byte_at. rewrite Hp', Ep, Ey.
  destruct (decide (page_of b = a)) as [E|Hna]; [|by rewrite lookup_insert_ne]. rewrite E in *. rewrite lookup_insert_eq, Hp. cbn [mbind option_bind]. rewrite !body_byte. apply Hy.
  assert (j = i) as -> by congruence. destruct (arena_slot _ _ _ _ _ _ Ho Ha Hk) as [_ Hi]. destruct (sizes i Hi) as (Hbs & _). intros Hin. apply Hne, elem_of_singleton. rewrite Eb. f_equal. nia.
Qed.

(** The end of free: an arena that is all free goes. *)
Lemma wp_free_full h S A a i d rest : heap_ok h S A -> arena_at h S A a i d rest -> Z.of_nat (length (free_in a (free_list d))) = per i ->
  wp (remove_blocks descs_addr (Z.to_nat (per i)) 0 i a ≫= fun _ => on_mach (palloc_free_page a)) (fun _ h' => heap_ok h' (delete a S) A /\ keeps S A h h') h.
Proof.
  intros Ho Hat Hfull. pose proof Hat as [Ha Hi Hd Hk Hr Hp]. pose proof (full_arena _ _ _ _ _ _ Ho Ha Hd Hfull) as Hsub. destruct (sizes i Hi) as (_ & Hper & _).
  destruct (ho_desc _ _ _ Ho i d Hd) as (_ & _ & Hnd). apply wp_bind. eapply wp_remove_blocks; [by eapply arena_header|lia|lia|done|exact Hsub|]. fold (slots a i).
  apply wp_mach. cbn [with_free mach]. eapply wp_mono; [apply wp_release_kernel; [apply (ho_pool _ _ _ Ho)|apply (ho_arena _ _ _ Ho a i Ha)]|].
  intros _ m' (Hw & Hpg & _ & Hkeep). split; [by eapply (heap_release h m')|].
  intros b x Hb Hx. destruct (in_block _ _ _ _ _ Ho Hb Hx) as (j & k & y & Hj & Hkk & Eb & Ep & _). unfold byte_at. rewrite Ep. cbn [with_free mach]. rewrite Hpg; [done|].
  intros E. rewrite E in *. assert (j = i) as -> by congruence. rewrite Eb in Hb. apply (ho_split _ _ _ Ho a i d k Ha Hd Hkk) in Hb. apply Hb, Hsub, elem_of_slots; eauto.
Qed.

Lemma tight_drop S A b : tight S A -> forall a, (exists b', b' ∈ A ∖ {[b]} /\ page_of b' = a) -> (forall a' i, a' <> a -> S !! a' = Some i -> page_of b <> a') -> tight S (A ∖ {[b]}).
Proof.
  intros Ht a Hex Hoth a' i Ha'. destruct (decide (a' = a)) as [->|Hne]; [done|]. destruct (Ht a' i Ha') as (b' & Hb' & E). exists b'. split; [|done].
  apply elem_of_difference. split; [done|]. intros ->%elem_of_singleton. by apply (Hoth a' i).
Qed.

Lemma wp_free h S A b : heap_ok h S A -> b ∈ A -> wp (free descs_addr b) (fun _ h' => block_freed h S A b h') h.
Proof.
  intros Ho Hb. destruct (ho_used _ _ _ Ho b Hb) as (a & i & k & Ha & Hk & ->). destruct (arena_facts _ _ _ _ _ Ho Ha) as (d & rest & Hat). pose proof Hat as [_ Hi Hd [Hk1 Hal] Hr Hp].
  pose proof (arena_header _ _ _ _ _ _ _ Ho Hat) as Hh. set (n := Z.of_nat (length (free_in a (free_list d)))) in *. destruct (sizes i Hi) as (Hbs & Hper & Hmul). destruct (ho_desc _ _ _ Ho i d Hd) as (Ebs & Eper & _).
  pose proof (free_count _ _ _ _ _ _ Ho Ha Hd) as Hcnt. fold n in Hcnt. destruct (arena_slot _ _ _ _ _ _ Ho Ha Hk) as [Hpo _].
  unfold free. rewrite (proj2 (Z.eqb_neq _ NULL)) by (unfold slot, ARENA_SIZE, NULL, PHYS_BASE in *; nia). apply wp_bind. eapply wp_block_to_arena; [exact Hh|done|].
  apply wp_bind. eapply wp_arena_desc; [exact Hh|]. rewrite (proj2 (Z.eqb_neq _ NULL)) by apply (desc_ptr_ok i Hi). cbn [negb]. apply wp_bind. eapply wp_get_desc; [done|exact Hd|]. cbn [fst snd]. rewrite Ebs, Eper.
  apply wp_bind, wp_mach. replace (slot a i k) with (a + 12 + Z.of_nat (Z.to_nat (k * bs i))) at 1 by (unfold slot, ARENA_SIZE; nia).
  eapply wp_mono; [eapply (wp_fill_bytes (Z.to_nat (bs i)) a i n 0xcc); [done|unfold is_word; lia|done|done|exact Hp|done|nia]|]. intros _ m' (rest' & -> & Hr' & Hy).
  fold (with_page a (header i n ++ rest') h). pose proof (header_with_page _ _ _ _ _ n _ _ Hh Hr') as Hh1. apply wp_bind, wp_modify. fold (with_free i d (slot a i k :: free_list d) (with_page a (header i n ++ rest') h)).
  apply (header_with_free _ _ _ _ _ _ (slot a i k :: free_list d)) in Hh1 as Hh2. apply wp_bind. eapply wp_free_cnt; [exact Hh2|]. apply wp_bind. eapply wp_set_cnt; [exact Hh2|].
  rewrite u32_small by lia. rewrite with_page_twice. pose proof (heap_push _ _ _ _ _ _ _ rest' _ Ho Hat Hk Hb Hr') as Ho2. fold n in Ho2.
  set (h2 := with_page a (header i (n + 1) ++ rest') (with_free i d (slot a i k :: free_list d) h)) in *. assert (keeps S (A ∖ {[slot a i k]}) h h2) as Hkp.
  { eapply (keeps_fill h h2 S A a i n (n + 1) rest rest' k); [done..|]. intros y Hny. apply Hy. nia. }
  set (d2 := set_free (slot a i k :: free_list d) d). assert (arena_at h2 S (A ∖ {[slot a i k]}) a i d2 rest') as Hat2.
  { split; try done; [by apply list_lookup_insert_eq, (lookup_lt_Some _ _ d)|]. cbn [h2 with_page with_free mach set_pages pages]. rewrite lookup_insert_eq. do 3 f_equal.
    unfold d2, free_in. cbn [set_free free_list]. rewrite filter_cons_True by done. cbn [length]. fold (free_in a (free_list d)). lia. }
  assert (Z.of_nat (length (free_in a (free_list d2))) = n + 1) as Ecnt by (unfold d2, free_in; cbn [set_free free_list]; rewrite filter_cons_True by done; cbn [length]; fold (free_in a (free_list d)); lia).
  pose proof (aa_desc _ _ _ _ _ _ _ Hat2) as Hd2. pose proof (free_count _ _ _ _ _ _ Ho2 Ha Hd2) as Hc2. destruct (Z.leb_spec (per i) (n + 1)) as [Hfull|Hnot].
  - apply wp_bind, wp_assert; [apply Z.eqb_eq; lia|]. eapply wp_mono; [eapply (wp_free_full h2); [exact Ho2|exact Hat2|lia]|]. intros _ h3 [Ho3 Hk3]. exists (delete a S). split_and!; [done|apply delete_subseteq| |].
    + eapply keeps_trans; [reflexivity|by intros; eapply used_page|exact Hkp|exact Hk3].
    + intros Ht a' i' [Hne Ha']%lookup_delete_Some. destruct (Ht a' i' Ha') as (b' & Hb' & E). exists b'. split; [|done]. apply elem_of_difference. split; [done|]. intros ->%elem_of_singleton. congruence.
  - apply wp_ret. exists S. split_and!; [done..|]. intros Ht. eapply (tight_drop S A _ Ht a); [eapply (some_used h2); [exact Ho2|exact Ha|exact Hd2|lia]|]. congruence.
Qed.
End laws.

(** ** The allocator *)

Definition heap_inv (descs_addr : Z) (h : heap) (S : gmap Z nat) (A : gset Z) : Prop := heap_ok descs_addr h S A /\ tight S A.

Lemma malloc_init_ok descs_addr m : pool_wf m (kernel_pool m) -> exists h, malloc_init (Heap m []) = Ok (tt, h) /\ heap_inv descs_addr h ∅ ∅.
Proof.
  intros Hw. eexists. split; [reflexivity|]. split; [|intros a i E; by rewrite lookup_empty in E]. split; cbn [mach descs]; [done|done| | | | |].
  - intros i d Hd. do 7 (destruct i as [|i]; [injection Hd as <-; split_and!; [done..|apply NoDup_nil_2]|]). done.
  - intros a i E. by rewrite lookup_empty in E.
  - intros i d b Hd Hb. do 7 (destruct i as [|i]; [injection Hd as <-; by apply elem_of_nil in Hb|]). done.
  - intros a i d k E. by rewrite lookup_empty in E.
  - intros b Hb. by apply elem_of_empty in Hb.
Qed.

Lemma malloc_block descs_addr h S A size : 0 < descs_addr -> descs_addr + 480 <= 2 ^ 32 -> heap_ok descs_addr h S A -> 0 < size <= 1024 ->
  wp (malloc descs_addr size) (fun b h' => (b = NULL /\ h' = h /\ forall x, ~ page_state (kernel_pool (mach h)) x false) \/ exists i, size <= bs i /\ fresh_block descs_addr h S A i b h') h.
Proof.
  intros Hd1 Hd2 Ho Hs. destruct (find_desc_ok _ _ _ _ _ Ho Hs) as (i & d & Hf & Hd & Hle & _). unfold malloc. rewrite (proj2 (Z.eqb_neq size 0)) by lia. apply wp_bind, wp_gets. rewrite Hf, Hd.
  eapply wp_mono; [eapply wp_malloc_small; done|]. intros b h' [H|H]; [by left|right; by exists i].
Qed.

(** C5: malloc of 1 to 1024 bytes returns, without failing an assertion,
    either a null pointer, when no page of the kernel pool is free, and
    then nothing changes; or a new block, at least as big as asked, that
    overlaps no allocated block; the bytes of the allocated blocks are kept
    and so is the invariant, with the new block allocated. *)
Theorem malloc_fresh_block descs_addr h S A size : 0 < descs_addr -> descs_addr + 480 <= 2 ^ 32 -> heap_inv descs_addr h S A -> 0 < size <= 1024 ->
  exists b h', malloc descs_addr size h = Ok (b, h') /\
    ((b = NULL /\ h' = h /\ forall a, ~ page_state (kernel_pool (mach h)) a false) \/
     exists S', heap_inv descs_addr h' S' ({[b]} ∪ A) /\ b <> NULL /\ size <= size_of S' b /\ keeps S A h h' /\
       forall b', b' ∈ A -> size_of S' b' = size_of S b' /\ (b + size_of S' b <= b' \/ b' + size_of S b' <= b)).
Proof.
  intros Hd1 Hd2 [Ho Ht] Hs. destruct (wp_Ok _ _ _ (malloc_block _ _ _ _ _ Hd1 Hd2 Ho Hs)) as (b & h' & E & [Hn|(i & Hi & S' & Ho' & HnA & Hnn & Hp & Hsub & Hk & Ht')]); exists b, h'; (split; [exact E|]); [by left|right].
  exists S'. assert (size_of S' b = bs i) as Eb by (unfold size_of; by rewrite Hp). split_and!; [split; auto|done|lia|done|]. intros b' Hb'.
  assert (size_of S' b' = size_of S b') as E'. { destruct (used_page _ _ _ _ _ Ho Hb') as [j Hj]. unfold size_of. by rewrite (lookup_weaken _ _ _ _ Hj Hsub), Hj. }
  split; [done|]. rewrite <- E'. eapply blocks_disjoint; [exact Ho'|set_solver|set_solver|]. by intros ->.
Qed.


Definition example_heap : heap := match malloc_init (Heap small_machine []) with Ok (_, h) => h | Err _ => Heap small_machine [] end.
Lemma example_heap_inv : heap_inv 4096 example_heap ∅ ∅.
Proof. destruct (malloc_init_ok 4096 small_machine small_pool_wf) as (h & E & H). unfold example_heap. by rewrite E. Qed.
Lemma example_page : page_state (kernel_pool (mach example_heap)) 0xc0101000 false.
Proof. exists 1. split_and!; done. Qed.

Lemma malloc_fresh_block_witness : exists b h', malloc 4096 100 example_heap = Ok (b, h') /\ b <> NULL.
Proof.
  destruct (malloc_fresh_block 4096 example_heap ∅ ∅ 100 ltac:(lia) ltac:(lia) example_heap_inv ltac:(lia)) as (b & h' & E & [(_ & _ & Hno)|(S' & _ & Hn & _)]).
  - destruct (Hno _ example_page).
  - exists b, h'. exact (conj E Hn).
Defined.


(** Sizes that overflow.  calloc of 65537 elements of 65537 bytes is
    calloc of 131073 bytes: the product is reduced modulo 2^32 and its
    check does not see it.  malloc of 2^32 - 1 bytes returns a block of one
    page, since the size of the header is added to it modulo 2^32. *)
Theorem malloc_sizes_wrap : (forall descs_addr h, calloc descs_addr 65537 65537 h = calloc descs_addr 1 131073 h) /\
  exists h', malloc 4096 0xffffffff example_heap = Ok (0xc010100c, h') /\ exists h2, block_size_of 4096 0xc010100c h' = Ok (4084, h2).
Proof.
  split; [reflexivity|].
  assert (match malloc 4096 0xffffffff example_heap with
          | Ok (b, h') => Some (b, match block_size_of 4096 0xc010100c h' with Ok (n, _) => n | Err _ => 0 end)
          | Err _ => None
          end = Some (0xc010100c, 4084)) as V by (vm_compute; reflexivity).
  destruct (malloc 4096 0xffffffff example_heap) as [[b h']|e]; [|discriminate V]. injection V as -> V. exists h'. split; [reflexivity|].
  destruct (block_size_of 4096 0xc010100c h') as [[n h2]|]; [|discriminate V]. exists h2. by rewrite V.
Qed.
