(* ===== verification/ArgStack.v ===== *)
(** * The argument stack of a new process (src/userprog/process.c, load)

    What [load] does with the command line: copy it, cut it into words and
    lay out [argc], [argv] and the words on the user stack.  Kernel memory
    and the mapped stack page are one byte memory. *)

From S2P Require Import Prelude Memory CString.

(** [*(T * ) p = w] for a 32-bit value. *)
Fixpoint store_bytes (p : Z) (l : list Z) (m : mem) : outcome mem :=
  match l with
  | [] => Ok m
  | b :: l' => m ← store m p b; store_bytes (p + 1) l' m
  end.
Definition store32 (p w : Z) (m : mem) : outcome mem := store_bytes p (le_bytes 4 w) m.

Section code.
(** The address of the literal [" "]. *)
Context (space : Z).

(** [while (token != NULL)]: the stack pointer, argc and the memory. *)
Fixpoint push_words (fuel : nat) (token save_ptr stack_pointer argc : Z) (m : mem) : outcome (Z * Z * mem) :=
  if token =? NULL then Ok (stack_pointer, argc, m)
  else match fuel with
  | O => Err Fuel
  | S fuel' =>
      arg_length ← strlen m token;
      let stack_pointer := stack_pointer - (arg_length + 1) in
      r ← memcpy m stack_pointer token arg_length;
      '(token, save_ptr, m) ← strtok_r r.2 NULL space save_ptr;
      push_words fuel' token save_ptr stack_pointer (argc + 1) m
  end.

(** [for (int i = 0; i < argc; i++)]: the stack pointer and the memory. *)
Fixpoint push_pointers (n : nat) (stack_pointer args_pointer : Z) (m : mem) : outcome (Z * mem) :=
  match n with
  | O => Ok (stack_pointer, m)
  | S n' =>
      let stack_pointer := stack_pointer - 4 in
      m ← store32 stack_pointer args_pointer m;
      k ← strlen m args_pointer;
      push_pointers n' stack_pointer (args_pointer + (k + 1)) m
  end.

Definition setup_arguments (fn_copy save_ptr esp : Z) (m : mem) : outcome (Z * mem) :=
  '(stack_pointer, argc, m) ← push_words (size m) fn_copy save_ptr esp 0 m;
  let args_pointer := stack_pointer in
  let stack_pointer := stack_pointer - 4 in
  r ← memset m stack_pointer 0 1;
  '(stack_pointer, m) ← push_pointers (Z.to_nat argc) stack_pointer args_pointer r.2;
  let stack_pointer := stack_pointer - 4 in
  m ← store32 stack_pointer (stack_pointer + 4) m;
  let stack_pointer := stack_pointer - 4 in
  m ← store32 stack_pointer argc m;
  let stack_pointer := stack_pointer - 4 in
  m ← store32 stack_pointer 0 m;
  Ok (stack_pointer, m).

(** The copy of the command line in the block [buf] that malloc returned,
    its first word, and later the stack: the pointer given to [free], the
    new *esp, and the memory. *)
Definition copy_command (file_name buf : Z) (m : mem) : outcome (Z * Z * mem) :=
  n ← strlen m file_name;
  let name_length := n + 1 in
  r ← strlcpy m buf file_name name_length;
  strtok_r r.2 buf space 0.

Definition load_arguments (file_name buf esp : Z) (m : mem) : outcome (Z * Z * mem) :=
  '(fn_copy, save_ptr, m) ← copy_command file_name buf m;
  '(esp, m) ← setup_arguments fn_copy save_ptr esp m;
  Ok (fn_copy, esp, m).
End code.

(** ** Sizes *)

Definition zstr (s : list Z) : list Z := s ++ [0].

(** The words from low to high addresses: the last word lowest. *)
Definition words_image (ws : list (list Z)) : list Z := mjoin (zstr <$> reverse ws).
Definition words_size (ws : list (list Z)) : nat := length (words_image ws).

(** All that the stack needs: the words, the null pointer, argv, and the
    three words of the call frame. *)
Definition stack_size (ws : list (list Z)) : nat := words_size ws + 4 + 4 * length ws + 12.

Lemma words_image_cons t ws : words_image (t :: ws) = words_image ws ++ zstr t.
Proof.
  unfold words_image. rewrite reverse_cons, fmap_app, join_app. f_equal.
  change (mjoin (zstr <$> [t])) with (zstr t ++ []). by rewrite app_nil_r.
Qed.

Lemma words_size_cons t ws : words_size (t :: ws) = (words_size ws + length t + 1)%nat.
Proof. unfold words_size. rewrite words_image_cons. unfold zstr. rewrite !length_app. simpl. lia. Qed.

(** ** Memory lemmas *)

Lemma store_bytes_ok p l m : mapped m p (length l) -> store_bytes p l m = Ok (put m p l).
Proof.
  revert p m. induction l as [|b l IH]; intros p m Hm; cbn [store_bytes]; [by rewrite put_nil|].
  cbn [length] in Hm. rewrite store_Ok by (apply Hm; lia). cbn [mbind outcome_bind]. rewrite IH.
  - by rewrite <- put_cons, <- put_cons, put_nil.
  - apply mapped_put. intros a Ha. apply Hm. lia.
Qed.

Lemma store32_ok p w m : mapped m p 4 -> store32 p w m = Ok (put m p (le_bytes 4 w)).
Proof. intros Hm. apply store_bytes_ok. by rewrite length_le_bytes. Qed.

Lemma mapped_sub m p n q k : mapped m p n -> p <= q -> q + Z.of_nat k <= p + Z.of_nat n -> mapped m q k.
Proof. intros Hm Hq Hk a Ha. apply Hm. lia. Qed.

Lemma bytes_at_frame m m' p l :
  bytes_at m p l -> (forall a, p <= a < p + Z.of_nat (length l) -> m' !! a = m !! a) -> bytes_at m' p l.
Proof.
  rewrite !bytes_at_lookup. intros Hb Hf i b Hi. pose proof (lookup_lt_Some _ _ _ Hi).
  rewrite Hf by lia. by apply Hb.
Qed.

Lemma zeros_split m p n k :
  bytes_at m p (replicate n 0) -> (k <= n)%nat ->
  bytes_at m p (replicate (n - k) 0) /\ bytes_at m (p + Z.of_nat (n - k)) (replicate k 0).
Proof.
  intros Hb Hk. replace n with (n - k + k)%nat in Hb by lia. rewrite replicate_add in Hb.
  apply bytes_at_app in Hb. by rewrite length_replicate in Hb.
Qed.

Lemma zeros_window m p n q k :
  bytes_at m p (replicate n 0) -> p <= q -> q + Z.of_nat k <= p + Z.of_nat n -> bytes_at m q (replicate k 0).
Proof.
  rewrite !bytes_at_lookup. intros Hb Hq Hk i b Hi. apply lookup_replicate in Hi as [-> Hi].
  rewrite <- (Hb (Z.to_nat (q + Z.of_nat i - p)) 0); [f_equal; lia|]. apply lookup_replicate. split; [done|lia].
Qed.

Lemma lookup_put_out m p l a : ~ (p <= a < p + Z.of_nat (length l)) -> put m p l !! a = m !! a.
Proof. intros Ha. by rewrite lookup_put, decide_False by done. Qed.

Lemma tokens_length d str : (length (tokens d str) <= length str)%nat.
Proof.
  remember (length str) as n eqn:Hn. revert str Hn. induction (lt_wf n) as [n _ IH]; intros str ->.
  destruct (tokens_cases d str) as [[-> _]|(l & t & rest & -> & _ & Hne & _ & _ & ->)]; [simpl; lia|].
  assert (length t <> 0%nat) by (by destruct t). rewrite !length_app in *. cbn [length].
  specialize (IH (length rest) ltac:(lia) rest eq_refl). lia.
Qed.

(** ** The words *)

Section stack.
Context (space : Z).

(** The bytes [p .. p + k) lie outside the stack area [lo .. hi). *)
Definition apart (lo hi p : Z) (k : nat) : Prop := p + Z.of_nat k <= lo \/ hi <= p.

(** What the word loop relies on: a current word, the rest of the command
    line, and [n] zero bytes below the stack pointer [sp]. *)
Record pushing (m : mem) (token save sp : Z) (n : nat) (t rest : list Z) : Prop := {
  p_token : 0 < token /\ cstr m token t;
  p_save : 0 < save /\ cstr m save rest;
  p_space : 0 < space /\ cstr m space [32];
  p_zeros : 0 < sp - Z.of_nat n /\ bytes_at m (sp - Z.of_nat n) (replicate n 0);
  p_apart : apart (sp - Z.of_nat n) sp token (S (length t)) /\ apart (sp - Z.of_nat n) sp save (S (length rest)) /\
    apart (sp - Z.of_nat n) sp space 2;
  p_literal : space + 1 < save \/ save + Z.of_nat (length rest) < space }.

Lemma push_words_null fuel save sp argc m : push_words space fuel NULL save sp argc m = Ok (sp, argc, m).
Proof. by destruct fuel. Qed.

(** One turn up to the next call of strtok_r. *)
Lemma push_word m token save sp n t rest :
  pushing m token save sp n t rest -> (length t < n)%nat ->
  strlen m token = Ok (Z.of_nat (length t)) /\
  memcpy m (sp - (Z.of_nat (length t) + 1)) token (Z.of_nat (length t)) =
    Ok (sp - (Z.of_nat (length t) + 1), put m (sp - (Z.of_nat (length t) + 1)) t) /\
  bytes_at (put m (sp - (Z.of_nat (length t) + 1)) t) (sp - (Z.of_nat (length t) + 1)) (zstr t).
Proof.
  intros [[Ht Hct] [Hs Hcs] _ [Hn Hz] (Ha & _) _] Hlen. unfold apart in Ha.
  assert (mapped m (sp - Z.of_nat n) n) as Hm by (pose proof (bytes_at_mapped _ _ _ Hz) as H; by rewrite length_replicate in H).
  split_and!.
  - apply strlen_ok; [unfold NULL; lia|done].
  - apply memcpy_ok; [unfold NULL; lia|unfold NULL; lia|by apply cstr_bytes|eapply mapped_sub; [done|lia|lia]|lia].
  - apply bytes_at_app. split; [apply bytes_at_put|].
    apply bytes_at_frame with m; [|intros a Hr; apply lookup_put_out; simpl in Hr; lia].
    destruct (zeros_split m (sp - Z.of_nat n) n 1) as [_ H1]; [done|lia|].
    by replace (sp - Z.of_nat n + Z.of_nat (n - 1)) with (sp - (Z.of_nat (length t) + 1) + Z.of_nat (length t)) in H1 by lia.
Qed.

Lemma push_words_ok fuel m token save sp n argc t rest :
  pushing m token save sp n t rest ->
  let ws := t :: tokens [32] rest in
  (words_size ws <= n)%nat -> (length ws <= fuel)%nat ->
  exists m', push_words space fuel token save sp argc m =
      Ok (sp - Z.of_nat (words_size ws), argc + Z.of_nat (length ws), m') /\
    bytes_at m' (sp - Z.of_nat (words_size ws)) (words_image ws) /\
    (forall a, ~ (sp - Z.of_nat (words_size ws) <= a < sp) -> ~ (save <= a < save + Z.of_nat (length rest)) ->
       m' !! a = m !! a).
Proof.
  revert m token save sp n argc t rest. induction fuel as [|fuel IH]; intros m token save sp n argc t rest Hp ws Hn Hf;
    [simpl in Hf; lia|]. subst ws. rewrite words_size_cons in Hn |- *. cbn [length] in Hf.
  destruct (push_word m token save sp n t rest Hp ltac:(lia)) as (E1 & E2 & Hzt).
  destruct Hp as [[Ht Hct] [Hs Hcs] [Hq Hcq] [Hb Hz] (A1 & A2 & A3) Hlit]. unfold apart in A1, A2, A3.
  cbn [push_words]. rewrite (proj2 (Z.eqb_neq token NULL)) by (unfold NULL; lia). rewrite E1. cbn [mbind outcome_bind].
  rewrite E2. cbn [mbind outcome_bind snd]. set (sp1 := sp - (Z.of_nat (length t) + 1)) in *. set (m1 := put m sp1 t) in *.
  assert (forall a, ~ (sp1 <= a < sp) -> m1 !! a = m !! a) as F1 by (intros a Ha; apply lookup_put_out; lia).
  assert (cstr m1 space [32]) as Hcq1 by (eapply cstr_frame; [exact Hcq|]; intros a Ha; apply F1; simpl in Ha; lia).
  assert (cstr m1 save rest) as Hcs1 by (eapply cstr_frame; [exact Hcs|]; intros a Ha; apply F1; lia).
  destruct (tokens_cases [32] rest) as [[-> Hl]|(l & t2 & rest2 & -> & Hl & Hne & Htd & Hc & Etk)].
  - rewrite (strtok_none m1 NULL save space [32] rest) by done. cbn [mbind outcome_bind].
    rewrite push_words_null. change (words_size []) with 0%nat. exists m1. split_and!.
    + do 3 f_equal; simpl; lia.
    + rewrite words_image_cons. change (words_image []) with (@nil Z). cbn [app].
      replace (sp - Z.of_nat (0 + length t + 1)) with sp1 by lia. exact Hzt.
    + intros a Ha _. apply F1. lia.
  - destruct (strtok_some m1 NULL save space [32] l t2 rest2) as (m2 & Hct2 & Hcr2 & -> & Hm2); [done..|].
    change (tok_start NULL save) with save in *. cbn [mbind outcome_bind].
    set (cut := save + Z.of_nat (length l) + Z.of_nat (length t2)) in *.
    assert (length t2 <> 0%nat) as Hne2 by (by destruct t2). rewrite !length_app in *.
    assert (length rest2 = length (take 1 rest2) + length (drop 1 rest2))%nat as Hlr by (by rewrite <- length_app, take_drop).
    assert (forall a, ~ (save <= a < save + Z.of_nat (length l + (length t2 + length rest2))) -> m2 !! a = m1 !! a) as F2.
    { intros a Ha. destruct Hm2 as [->|[-> Hr0]]; [done|]. apply lookup_put_out. simpl.
      assert (length rest2 <> 0%nat) by (by destruct rest2). unfold cut. lia. }
    rewrite Etk, <- (tokens_rest _ _ Hc) in Hn, Hf |- *.
    edestruct (IH m2 (save + Z.of_nat (length l)) (cut + Z.of_nat (length (take 1 rest2))) sp1 (n - length t - 1)%nat (argc + 1)) as (m' & E & Hi & F3);
      [| | |].
    + assert (sp1 - Z.of_nat (n - length t - 1) = sp - Z.of_nat n) as E0 by lia. split; unfold apart; rewrite ?E0.
      * split; [lia|done].
      * split; [unfold cut; lia|done].
      * split; [done|]. eapply cstr_frame; [exact Hcq1|]. intros a Ha. apply F2. simpl in Ha. lia.
      * split; [lia|]. destruct (zeros_split _ _ _ (length t + 1) Hz) as [H1 _]; [lia|].
        replace (n - (length t + 1))%nat with (n - length t - 1)%nat in H1 by lia.
        eapply bytes_at_frame; [exact H1|]. intros a Ha. rewrite length_replicate in Ha. rewrite F2, F1; [done|lia|lia].
      * split_and!; unfold cut; lia.
      * unfold cut. lia.
    + lia.
    + simpl in Hf |- *; lia.
    + exists m'. rewrite E. split_and!.
      * do 3 f_equal; cbn [length]; lia.
      * rewrite words_image_cons. apply bytes_at_app. fold (words_size (t2 :: tokens [32] (drop 1 rest2))).
        replace (sp - Z.of_nat (words_size (t2 :: tokens [32] (drop 1 rest2)) + length t + 1))
          with (sp1 - Z.of_nat (words_size (t2 :: tokens [32] (drop 1 rest2)))) by lia.
        split; [exact Hi|]. rewrite Z.sub_add. eapply bytes_at_frame; [exact Hzt|].
        intros a Ha. unfold zstr in Ha. rewrite length_app in Ha. simpl in Ha. rewrite F3, F2; [done|lia|lia|].
        unfold cut. lia.
      * intros a Ha Hb'. rewrite F3, F2, F1; [done|lia|lia|lia|]. unfold cut. lia.
Qed.
End stack.

(** ** The pointers *)

Lemma words_to_bytes_app l l' : words_to_bytes (l ++ l') = words_to_bytes l ++ words_to_bytes l'.
Proof. unfold words_to_bytes. by rewrite fmap_app, join_app. Qed.

Lemma words_to_bytes_one w : words_to_bytes [w] = le_bytes 4 w.
Proof. rewrite words_to_bytes_cons. apply app_nil_r. Qed.

Lemma push_pointers_ok L m sp args :
  0 < args -> sp <= args -> Forall text L -> bytes_at m args (mjoin (zstr <$> L)) ->
  mapped m (sp - 4 * Z.of_nat (length L)) (4 * length L) ->
  exists ps m', push_pointers (length L) sp args m = Ok (sp - 4 * Z.of_nat (length L), m') /\
    Forall2 (fun p s => args <= p /\ cstr m p s) ps L /\
    bytes_at m' (sp - 4 * Z.of_nat (length L)) (words_to_bytes (reverse ps)) /\
    (forall a, ~ (sp - 4 * Z.of_nat (length L) <= a < sp) -> m' !! a = m !! a).
Proof.
  revert m sp args. induction L as [|s L IH]; intros m sp args Ha0 Hsp Ht Hb Hm; cbn [push_pointers length].
  - exists [], m. split_and!; [do 2 f_equal; lia|done|apply bytes_at_nil|done].
  - apply Forall_cons_1 in Ht as [Hts Ht]. change (mjoin (zstr <$> s :: L)) with (zstr s ++ mjoin (zstr <$> L)) in Hb.
    apply bytes_at_app in Hb as [Hs Hb]. unfold zstr at 1 in Hb. rewrite length_app in Hb. simpl in Hb.
    rewrite store32_ok by (eapply mapped_sub; [exact Hm|simpl; lia|simpl; lia]). cbn [mbind outcome_bind].
    set (m1 := put m (sp - 4) (le_bytes 4 args)).
    assert (forall a, ~ (sp - 4 <= a < sp) -> m1 !! a = m !! a) as F1.
    { intros a Ha. apply lookup_put_out. rewrite length_le_bytes. lia. }
    assert (cstr m1 args s) as Hc1 by (eapply cstr_frame; [by split|]; intros a Ha; apply F1; lia).
    rewrite (strlen_ok m1 args s) by (done || (unfold NULL; lia)). cbn [mbind outcome_bind].
    destruct (IH m1 (sp - 4) (args + (Z.of_nat (length s) + 1))) as (ps & m' & E & Hps & Hw & F2).
    + lia.
    + lia.
    + done.
    + replace (args + (Z.of_nat (length s) + 1)) with (args + Z.of_nat (length s + 1)) by lia.
      eapply bytes_at_frame; [exact Hb|]. intros a Ha. apply F1. lia.
    + apply mapped_put. eapply mapped_sub; [exact Hm|simpl; lia|simpl; lia].
    + exists (args :: ps), m'. rewrite E. split_and!.
      * do 2 f_equal. lia.
      * constructor; [split; [lia|by split]|]. eapply Forall2_impl; [|exact Hps]. simpl. intros p w [Hp Hc].
        split; [lia|]. eapply cstr_frame; [exact Hc|]. intros a Ha. symmetry. apply F1. lia.
      * rewrite reverse_cons, words_to_bytes_app, words_to_bytes_one. apply bytes_at_app.
        assert (length ps = length L) as El by (by eapply Forall2_length).
        rewrite length_words_to_bytes, length_reverse, El.
        replace (sp - 4 * Z.of_nat (S (length L))) with (sp - 4 - 4 * Z.of_nat (length L)) by lia. split; [done|].
        replace (sp - 4 - 4 * Z.of_nat (length L) + Z.of_nat (4 * length L)) with (sp - 4) by lia.
        eapply bytes_at_frame; [apply bytes_at_put|]. intros a Ha. rewrite length_le_bytes in Ha. apply F2. lia.
      * intros a Ha. rewrite F2, F1; [done|lia|lia].
Qed.

(** ** The whole frame *)

(** What the new process finds at its stack pointer [esp]: a return
    address, argc, argv, the array of pointers with its null pointer. *)
Definition frame (esp : Z) (ps : list Z) : list Z :=
  words_to_bytes ([0; Z.of_nat (length ps); esp + 12] ++ ps ++ [0]).

(** The three words below the pointer array. *)
Lemma push_frame m b argc ps :
  mapped m (b - 12) 12 -> bytes_at m b (words_to_bytes (ps ++ [0])) -> Z.of_nat (length ps) = argc ->
  exists m', (m1 ← store32 (b - 4) (b - 4 + 4) m; m2 ← store32 (b - 4 - 4) argc m1; store32 (b - 4 - 4 - 4) 0 m2) = Ok m' /\
    bytes_at m' (b - 12) (frame (b - 12) ps) /\ (forall a, ~ (b - 12 <= a < b) -> m' !! a = m !! a).
Proof.
  intros Hm Hb Hargc. rewrite store32_ok by (eapply mapped_sub; [exact Hm|lia|lia]). cbn [mbind outcome_bind].
  set (m1 := put m _ _). assert (mapped m1 (b - 12) 12) as Hm1 by (by apply mapped_put).
  rewrite store32_ok by (eapply mapped_sub; [exact Hm1|lia|lia]). cbn [mbind outcome_bind].
  set (m2 := put m1 _ _). assert (mapped m2 (b - 12) 12) as Hm2 by (by apply mapped_put).
  rewrite store32_ok by (eapply mapped_sub; [exact Hm2|lia|lia]). eexists. split; [done|]. split.
  - unfold frame. cbn [app]. rewrite !words_to_bytes_cons. rewrite !bytes_at_app, !length_le_bytes. split_and!.
    + replace (b - 12) with (b - 4 - 4 - 4) by lia. apply bytes_at_put.
    + replace (b - 12 + Z.of_nat 4) with (b - 4 - 4) by lia. rewrite Hargc.
      eapply bytes_at_frame; [apply bytes_at_put|]. intros a Ha. rewrite length_le_bytes in Ha. apply lookup_put_out. rewrite length_le_bytes. lia.
    + replace (b - 12 + Z.of_nat 4 + Z.of_nat 4) with (b - 4) by lia. replace (b - 12 + 12) with (b - 4 + 4) by lia.
      eapply bytes_at_frame; [apply bytes_at_put|]. intros a Ha. rewrite length_le_bytes in Ha.
      unfold m2. rewrite !lookup_put_out by (rewrite length_le_bytes; lia). done.
    + replace (b - 12 + Z.of_nat 4 + Z.of_nat 4 + Z.of_nat 4) with b by lia.
      eapply bytes_at_frame; [exact Hb|]. intros a Ha. unfold m2, m1. by rewrite !lookup_put_out by (rewrite length_le_bytes; lia).
  - intros a Ha. unfold m2, m1. by rewrite !lookup_put_out by (rewrite length_le_bytes; lia).
Qed.

Lemma bind_store3 a b c x y z m m' :
  (m1 ← store32 a x m; m2 ← store32 b y m1; store32 c z m2) = Ok m' <->
  exists m1 m2, store32 a x m = Ok m1 /\ store32 b y m1 = Ok m2 /\ store32 c z m2 = Ok m'.
Proof.
  split.
  - intros (m1 & H1 & H)%obind_Ok. apply obind_Ok in H as (m2 & H2 & H3). eauto.
  - intros (m1 & m2 & -> & E2 & E3). cbn [mbind outcome_bind]. by rewrite E2.
Qed.

Lemma text_tokens d str : text str -> Forall text (tokens d str).
Proof.
  remember (length str) as n eqn:Hn. revert str Hn. induction (lt_wf n) as [n _ IH]; intros str -> Ht.
  destruct (tokens_cases d str) as [[-> _]|(l & t & rest & -> & _ & Hne & _ & _ & ->)]; [constructor|].
  apply text_app in Ht as [_ Ht]. apply text_app in Ht as [Ht Hr]. constructor; [done|].
  apply (IH (length rest)); [|done|done]. assert (length t <> 0%nat) by (by destruct t). rewrite !length_app. lia.
Qed.

Lemma setup_arguments_ok space m token save esp n t rest :
  pushing space m token save esp n t rest ->
  let ws := t :: tokens [32] rest in
  (stack_size ws <= n)%nat ->
  let esp' := esp - Z.of_nat (stack_size ws) in
  exists ps m', setup_arguments space token save esp m = Ok (esp', m') /\
    bytes_at m' esp' (frame esp' ps) /\ Forall2 (cstr m') ps ws /\
    (forall a, ~ (esp' <= a < esp) -> ~ (save <= a < save + Z.of_nat (length rest)) -> m' !! a = m !! a).
Proof.
  intros Hp ws Hn esp'. unfold stack_size in *. set (k := length ws) in *. set (W := words_size ws) in *.
  assert (Forall text ws) as Htx.
  { constructor; [apply Hp|]. apply text_tokens. apply Hp. }
  destruct (push_words_ok space (size m) m token save esp n 0 t rest Hp) as (m1 & E1 & Hi & F1).
  { fold ws W. lia. }
  { destruct Hp as [_ [_ Hc] _ [_ Hz] _ _]. apply bytes_at_size in Hz. rewrite length_replicate in Hz.
    fold ws k. lia. }
  fold ws W k in E1, Hi, F1. set (sp1 := esp - Z.of_nat W) in *.
  destruct Hp as [_ _ _ [Hb Hz] (_ & A2 & _) _]. unfold apart in A2.
  assert (bytes_at m1 (esp - Z.of_nat n) (replicate (n - W) 0)) as Hz1.
  { destruct (zeros_split _ _ _ W Hz) as [H1 _]; [lia|]. eapply bytes_at_frame; [exact H1|].
    intros a Ha. rewrite length_replicate in Ha. apply F1; lia. }
  pose proof (bytes_at_mapped _ _ _ Hz1) as Hm1. rewrite length_replicate in Hm1.
  unfold setup_arguments. rewrite E1. cbn [mbind outcome_bind].
  change 1 with (Z.of_nat 1) at 1. rewrite memset_ok; [|unfold NULL; lia|eapply mapped_sub; [exact Hm1|lia|lia]].
  cbn [mbind outcome_bind snd]. set (m2 := put m1 (sp1 - 4) _).
  assert (m2 = m1) as -> by (apply put_bytes_at; eapply zeros_window; [exact Hz1|lia|simpl; lia]).
  assert (Z.to_nat (0 + Z.of_nat k) = length (reverse ws)) as -> by (rewrite length_reverse; fold k; lia).
  destruct (push_pointers_ok (reverse ws) m1 (sp1 - 4) sp1) as (ps & m3 & E3 & Hps & Hw & F3).
  { lia. } { lia. } { by apply Forall_reverse. } { exact Hi. }
  { rewrite length_reverse. fold k. eapply mapped_sub; [exact Hm1|lia|lia]. }
  rewrite E3. cbn [mbind outcome_bind]. rewrite length_reverse in Hw, F3 |- *. fold k in Hw, F3 |- *.
  set (b := sp1 - 4 - 4 * Z.of_nat k) in *. pose proof (Forall2_length Hps) as El. rewrite length_reverse in El.
  destruct (push_frame m3 b (0 + Z.of_nat k) (reverse ps)) as (m6 & E6 & Hf & F6).
  { intros a Ha. rewrite F3 by lia. apply Hm1. lia. }
  { rewrite words_to_bytes_app. apply bytes_at_app. rewrite length_words_to_bytes, length_reverse, El. split; [done|].
    fold k. change (words_to_bytes [0]) with (replicate 4 0). replace (b + Z.of_nat (4 * k)) with (sp1 - 4) by lia.
    eapply bytes_at_frame; [eapply zeros_window; [exact Hz1|lia|lia]|]. intros a Ha. rewrite length_replicate in Ha. apply F3. lia. }
  { rewrite length_reverse, El. fold k. lia. }
  assert (b - 12 = esp') as Eb by lia. rewrite Eb in Hf, F6. exists (reverse ps), m6. split_and!.
  - rewrite bind_store3 in E6. destruct E6 as (m4 & m5 & -> & E6). cbn [mbind outcome_bind].
    destruct E6 as [-> E6]. cbn [mbind outcome_bind]. rewrite E6. cbn [mbind outcome_bind]. do 2 f_equal. lia.
  - exact Hf.
  - rewrite <- (reverse_involutive ws). apply Forall2_reverse. eapply Forall2_impl; [|exact Hps]. simpl.
    intros p w [Hp' Hc]. eapply cstr_frame; [exact Hc|]. intros a Ha. rewrite F6, F3; [done|lia|lia].
  - intros a Ha Hs. rewrite F6, F3, F1; [done|lia|done|lia|lia].
Qed.

(** The memory a call of [load] starts from: the command line, the block
    from malloc, the literal and [n] zero bytes of stack, in places of
    their own. *)
Record loadable (space : Z) (m : mem) (file_name buf esp : Z) (n : nat) (str : list Z) : Prop := {
  l_name : 0 < file_name /\ cstr m file_name str;
  l_buf : 0 < buf /\ mapped m buf (S (length str));
  l_space : 0 < space /\ cstr m space [32];
  l_zeros : 0 < esp - Z.of_nat n /\ bytes_at m (esp - Z.of_nat n) (replicate n 0);
  l_apart : apart (esp - Z.of_nat n) esp buf (S (length str)) /\ apart (esp - Z.of_nat n) esp space 2;
  l_copy : file_name + Z.of_nat (length str) < buf \/ buf + Z.of_nat (length str) < file_name;
  l_literal : space + 1 < buf \/ buf + Z.of_nat (length str) < space }.

(** The copy and its first word: what the word loop starts from. *)
Lemma copy_command_ok space m file_name buf esp n str t ts :
  loadable space m file_name buf esp n str -> tokens [32] str = t :: ts ->
  exists token save m' rest, copy_command space file_name buf m = Ok (token, save, m') /\
    pushing space m' token save esp n t rest /\ tokens [32] rest = ts /\
    buf <= save /\ save + Z.of_nat (length rest) <= buf + Z.of_nat (length str) /\
    (forall a, ~ (buf <= a <= buf + Z.of_nat (length str)) -> m' !! a = m !! a).
Proof.
  intros [[Hf Hcf] [Hb Hmb] [Hq Hcq] [Hn Hz] [A1 A2] Hcp Hlit] Htk. unfold apart in A1, A2. unfold copy_command.
  rewrite (strlen_ok m file_name str) by (done || (unfold NULL; lia)). cbn [mbind outcome_bind].
  destruct (strlcpy_ok m buf file_name str (Z.of_nat (length str) + 1)) as (-> & Hc1 & _);
    [lia|lia|done|lia|by replace (Z.to_nat (Z.of_nat (length str) + 1)) with (S (length str)) by lia|lia|].
  rewrite take_ge in Hc1 |- * by lia. cbn [mbind outcome_bind snd]. set (m1 := put m buf (str ++ [0])) in *.
  assert (forall a, ~ (buf <= a <= buf + Z.of_nat (length str)) -> m1 !! a = m !! a) as F1.
  { intros a Ha. apply lookup_put_out. rewrite length_app. simpl. lia. }
  assert (cstr m1 space [32]) as Hcq1 by (eapply cstr_frame; [exact Hcq|]; intros a Ha; apply F1; simpl in Ha; lia).
  assert (tok_start buf 0 = buf) as Es by (unfold tok_start, NULL; destruct (Z.eqb_spec buf 0); lia).
  destruct (tokens_cases [32] str) as [[E _]|(l & t' & rest & -> & Hl & Hne & Htd & Hc & E)]; [congruence|].
  rewrite Htk in E. injection E as -> ->.
  destruct (strtok_some m1 buf 0 space [32] l t' rest) as (m2 & Hct2 & Hcr2 & -> & Hm2); rewrite ?Es; try done.
  rewrite Es in *. set (cut := buf + Z.of_nat (length l) + Z.of_nat (length t')) in *.
  assert (length t' <> 0%nat) as Hne2 by (by destruct t'). rewrite !length_app in *.
  assert (length rest = length (take 1 rest) + length (drop 1 rest))%nat as Hlr by (by rewrite <- length_app, take_drop).
  assert (forall a, ~ (buf <= a <= buf + Z.of_nat (length l + (length t' + length rest))) -> m2 !! a = m1 !! a) as F2.
  { intros a Ha. destruct Hm2 as [->|[-> Hr0]]; [done|]. apply lookup_put_out. simpl.
    assert (length rest <> 0%nat) by (by destruct rest). unfold cut. lia. }
  eexists _, _, m2, (drop 1 rest). split; [done|]. split.
  { split; unfold apart.
    - split; [lia|done].
    - split; [unfold cut; lia|done].
    - split; [done|]. eapply cstr_frame; [exact Hcq1|]. intros a Ha. apply F2. simpl in Ha. lia.
    - split; [done|]. eapply bytes_at_frame; [exact Hz|]. intros a Ha. rewrite length_replicate in Ha. rewrite F2, F1; [done|lia|lia].
    - split_and!; unfold cut; lia.
    - unfold cut. lia. }
  split_and!; [by apply tokens_rest|unfold cut; lia|unfold cut; lia|]. intros a Ha. by rewrite F2, F1.
Qed.

(** C14: For a command line of at least one word whose arguments fit the
    [n] zeroed bytes of the stack, [load] leaves at the new stack pointer a
    null return address, argc, argv and the pointer array ended by a null
    pointer; each pointer is the address of the corresponding word, null
    terminated.  Only the stack and the copy of the command line change. *)
Theorem load_passes_arguments space m file_name buf esp n str :
  loadable space m file_name buf esp n str -> tokens [32] str <> [] -> (stack_size (tokens [32%Z] str) <= n)%nat ->
  let esp' := esp - Z.of_nat (stack_size (tokens [32] str)) in
  exists fn_copy ps m', load_arguments space file_name buf esp m = Ok (fn_copy, esp', m') /\
    bytes_at m' esp' (words_to_bytes ([0; Z.of_nat (length (tokens [32] str)); esp' + 12] ++ ps ++ [0])) /\
    Forall2 (cstr m') ps (tokens [32] str) /\
    (forall a, ~ (esp' <= a < esp) -> ~ (buf <= a <= buf + Z.of_nat (length str)) -> m' !! a = m !! a).
Proof.
  intros Hl Hne Hn esp'. destruct (tokens [32] str) as [|t ts] eqn:Htk; [done|].
  destruct (copy_command_ok _ _ _ _ _ _ _ _ _ Hl Htk) as (token & save & m1 & rest & E1 & Hp & Hts & Hs1 & Hs2 & F1).
  destruct (setup_arguments_ok space m1 token save esp n t rest Hp) as (ps & m2 & E2 & Hf & Hps & F2); rewrite Hts in *; [done|].
  exists token, ps, m2. unfold load_arguments. rewrite E1. cbn [mbind outcome_bind]. rewrite E2. split_and!.
  - done.
  - unfold frame in Hf. by rewrite (Forall2_length Hps) in Hf.
  - done.
  - intros a Ha Hb. rewrite F2, F1; [done|done|done|lia].
Qed.

(** "echo x y" at 100, the block at 200, the literal at 300, 64 bytes of
    stack below 1000. *)
Definition echo_line : list Z := [101; 99; 104; 111; 32; 120; 32; 121].
Definition echo_mem : mem :=
  put (put (put (map_seqZ 936 (replicate 64 0)) 100 (echo_line ++ [0])) 200 (replicate 9 204)) 300 [32; 0].

Lemma echo_loadable : loadable 300 echo_mem 100 200 1000 64 echo_line.
Proof.
  split.
  - split; [lia|]. apply cstr_check_ok. vm_compute. reflexivity.
  - split; [lia|]. change (S (length echo_line)) with (length (replicate 9 204)). apply bytes_at_mapped, bytes_check_ok. vm_compute. reflexivity.
  - split; [lia|]. apply cstr_check_ok. vm_compute. reflexivity.
  - split; [lia|]. apply bytes_check_ok. vm_compute. reflexivity.
  - unfold apart. simpl. lia.
  - simpl. lia.
  - simpl. lia.
Qed.

Lemma load_passes_arguments_witness :
  exists fn_copy ps m', load_arguments 300 100 200 1000 echo_mem = Ok (fn_copy, 963, m') /\
    bytes_at m' 963 (words_to_bytes ([0; 3; 975] ++ ps ++ [0])) /\
    Forall2 (cstr m') ps [[101; 99; 104; 111]; [120]; [121]].
Proof.
  destruct (load_passes_arguments 300 echo_mem 100 200 1000 64 echo_line echo_loadable) as (fn & ps & m' & H1 & H2 & H3 & _).
  - discriminate.
  - vm_compute. lia.
  - exists fn, ps, m'. split_and!; [exact H1|exact H2|exact H3].
Defined.

(** A command line that starts with a space: the pointer that [load] frees
    is not the one malloc returned. *)
Lemma leading_space_frees_other_pointer :
  exists esp m', load_arguments 300 100 200 1000
    (put (put (put (map_seqZ 936 (replicate 64 0)) 100 [32; 120; 0]) 200 (replicate 3 204)) 300 [32; 0])
    = Ok (201, esp, m').
Proof. do 2 eexists. vm_compute. reflexivity. Qed.

(** Arguments that need more than the mapped bytes: a word is copied below
    the stack page. *)
Lemma long_command_faults :
  load_arguments 300 100 200 1000
    (put (put (put (map_seqZ 972 (replicate 28 0)) 100 (echo_line ++ [0])) 200 (replicate 9 204)) 300 [32; 0])
    = Err Fault.
Proof. vm_compute. reflexivity. Qed.
