(* ===== verification/Loader.v ===== *)
(** * Loading executables (src/userprog/process.c: the ELF part of load,
      validate_segment, load_segment, setup_stack, install_page)

    The loader reads an executable file and maps its segments into a page
    directory.  The file is seen through [ExecFile], the operations of
    file.c the loader calls; the machine is that of Pages.v.  The part of
    load before the header is read (the page directory, the copy of the
    command line, filesys_open) is in Pages.v, ArgStack.v and Filesys.v,
    and so are the arguments it pushes on the stack afterwards. *)

From S2P Require Import Prelude Memory Wp Bitmap Pages PageLaws.

(** ** The file *)

Class ExecFile (F : Type) := {
  ef_length : st F Z;
  ef_seek : Z -> st F unit;
  ef_read : Z -> st F (list Z)
}.

(** A file is a list of bytes and a position: [ef_at n c p f] says that [f]
    is the file [c] at position [p]; [n] bounds the bytes that can still be
    read. *)
Class ExecFileLaws (F : Type) `{ExecFile F} := {
  ef_at : nat -> list Z -> Z -> F -> Prop;
  ef_mono : forall m n c p f, (n <= m)%nat -> ef_at m c p f -> ef_at n c p f;
  ef_bytes : forall n c p f, ef_at n c p f -> Forall is_byte c /\ Z.of_nat (length c) < 2 ^ 30;
  ef_length_ok : forall n c p f, ef_at n c p f -> exists f', ef_length f = Ok (Z.of_nat (length c), f') /\ ef_at n c p f';
  ef_seek_ok : forall n c p f q, ef_at n c p f -> 0 <= q < 2 ^ 31 -> exists f', ef_seek q f = Ok (tt, f') /\ ef_at n c q f';
  ef_read_ok : forall n c p f k, ef_at (Z.to_nat k + n) c p f -> 0 <= k <= 4096 -> 0 <= p <= 2 ^ 30 ->
    let bs := window c (Z.to_nat p) (Z.to_nat k) in exists f', ef_read k f = Ok (bs, f') /\ ef_at n c (p + Z.of_nat (length bs)) f'
}.

(** ** ELF headers *)

Definition half (l : list Z) (i : nat) : Z := le_value (window l i 2).
Definition word (l : list Z) (i : nat) : Z := le_value (window l i 4).

(** struct Elf32_Ehdr and struct Elf32_Phdr: the fields the loader uses. *)
Record Elf32_Ehdr := Ehdr {
  e_ident : list Z; e_type : Z; e_machine : Z; e_version : Z; e_entry : Z; e_phoff : Z; e_phentsize : Z; e_phnum : Z
}.
Record Elf32_Phdr := Phdr { p_type : Z; p_offset : Z; p_vaddr : Z; p_filesz : Z; p_memsz : Z; p_flags : Z }.

Definition EHDR_SIZE : Z := 52.
Definition PHDR_SIZE : Z := 32.
Definition ehdr_of (l : list Z) : Elf32_Ehdr :=
  Ehdr (window l 0 16) (half l 16) (half l 18) (word l 20) (word l 24) (word l 28) (half l 42) (half l 44).
Definition phdr_of (l : list Z) : Elf32_Phdr :=
  Phdr (word l 0) (word l 4) (word l 8) (word l 16) (word l 20) (word l 24).

Definition PT_NULL : Z := 0.
Definition PT_LOAD : Z := 1.
Definition PT_DYNAMIC : Z := 2.
Definition PT_INTERP : Z := 3.
Definition PT_NOTE : Z := 4.
Definition PT_SHLIB : Z := 5.
Definition PT_PHDR : Z := 6.
Definition PT_STACK : Z := 0x6474e551.
Definition PF_W : Z := 2.

(** The checks of the executable header, after the read. *)
Definition ehdr_ok (h : Elf32_Ehdr) : bool :=
  bool_decide (take 7 (e_ident h) = [127; 69; 76; 70; 1; 1; 1]) && (e_type h =? 2) && (e_machine h =? 3) && (e_version h =? 1) &&
  (e_phentsize h =? PHDR_SIZE) && (e_phnum h <=? 1024).

Definition validate_segment (ph : Elf32_Phdr) (file_length : Z) : bool :=
  if negb (Z.land (p_offset ph) PGMASK =? Z.land (p_vaddr ph) PGMASK) then false
  else if u32 file_length <? p_offset ph then false
  else if p_memsz ph <? p_filesz ph then false
  else if p_memsz ph =? 0 then false
  else if negb (is_user_vaddr (p_vaddr ph)) then false
  else if negb (is_user_vaddr (u32 (p_vaddr ph + p_memsz ph))) then false
  else if u32 (p_vaddr ph + p_memsz ph) <? p_vaddr ph then false
  else if p_vaddr ph <? PGSIZE then false
  else true.

(** What load computes from a program header: file page, memory page,
    bytes to read and bytes to zero. *)
Definition ROUND_UP (x step : Z) : Z := u32 (u32 (x + step - 1) / step * step).
Definition NOT_PGMASK : Z := u32 (Z.lnot PGMASK).
Definition file_page (ph : Elf32_Phdr) : Z := Z.land (p_offset ph) NOT_PGMASK.
Definition mem_page (ph : Elf32_Phdr) : Z := Z.land (p_vaddr ph) NOT_PGMASK.
Definition page_offset (ph : Elf32_Phdr) : Z := Z.land (p_vaddr ph) PGMASK.
Definition seg_read (ph : Elf32_Phdr) : Z := if 0 <? p_filesz ph then u32 (page_offset ph + p_filesz ph) else 0.
Definition seg_zero (ph : Elf32_Phdr) : Z :=
  if 0 <? p_filesz ph then u32 (ROUND_UP (u32 (page_offset ph + p_memsz ph)) PGSIZE - seg_read ph)
  else ROUND_UP (u32 (page_offset ph + p_memsz ph)) PGSIZE.

(** ** Loading *)

Section load.
Context {F : Type} `{ExecFile F}.

Record lstate := LState { mach : machine; exe : F }.
Definition on_mach {A} (m : st machine A) : st lstate A := fun s => r ← m (mach s); Ok (r.1, LState r.2 (exe s)).
Definition on_exe {A} (m : st F A) : st lstate A := fun s => r ← m (exe s); Ok (r.1, LState (mach s) r.2).

(** Bytes written into the page [k] from offset [ofs] on. *)
Definition write_bytes (k : Z) (ofs : nat) (bs : list Z) : st machine unit := fun m =>
  match pages m !! k with
  | Some l =>
      if bool_decide (ofs + length bs <= 4096)%nat
      then Ok (tt, set_pages (<[k := bytes_to_words 1024 (splice (words_to_bytes l) ofs bs)]> (pages m)) m) else Err Fault
  | None => Err Fault
  end.

(** [pd] is the page directory of the current thread. *)
Definition install_page (pd upage kpage : Z) (writable : bool) : st machine bool :=
  p ← pagedir_get_page pd upage;
  if p =? NULL then pagedir_set_page pd upage kpage writable else mret false.

(** [while (read_bytes > 0 || zero_bytes > 0)] *)
Fixpoint load_pages (fuel : nat) (pd upage read_bytes zero_bytes : Z) (writable : bool) : st lstate bool :=
  if (0 <? read_bytes) || (0 <? zero_bytes) then
    match fuel with
    | O => fun _ => Err Fuel
    | S fuel' =>
        let page_read_bytes := if read_bytes <? PGSIZE then read_bytes else PGSIZE in
        let page_zero_bytes := PGSIZE - page_read_bytes in
        kpage ← on_mach (palloc_get_page PAL_USER);
        if kpage =? NULL then mret false
        else
          bs ← on_exe (ef_read page_read_bytes);
          on_mach (write_bytes kpage 0 bs) ≫= fun _ =>
          if negb (Z.of_nat (length bs) =? page_read_bytes) then on_mach (palloc_free_page kpage) ≫= fun _ => mret false
          else
            on_mach (write_bytes kpage (Z.to_nat page_read_bytes) (replicate (Z.to_nat page_zero_bytes) 0)) ≫= fun _ =>
            ok ← on_mach (install_page pd upage kpage writable);
            if negb ok then on_mach (palloc_free_page kpage) ≫= fun _ => mret false
            else load_pages fuel' pd (u32 (upage + PGSIZE)) (u32 (read_bytes - page_read_bytes)) (u32 (zero_bytes - page_zero_bytes)) writable
    end
  else mret true.

Definition load_segment (pd ofs upage read_bytes zero_bytes : Z) (writable : bool) : st lstate bool :=
  kassert_st (u32 (read_bytes + zero_bytes) mod PGSIZE =? 0) ≫= fun _ =>
  kassert_st (pg_ofs upage =? 0) ≫= fun _ =>
  kassert_st (Z.rem ofs PGSIZE =? 0) ≫= fun _ =>
  on_exe (ef_seek ofs) ≫= fun _ =>
  load_pages (Z.to_nat ((read_bytes + zero_bytes) / PGSIZE)) pd upage read_bytes zero_bytes writable.

(** One program header, which has been read. *)
Definition load_phdr (pd : Z) (ph : Elf32_Phdr) : st lstate bool :=
  if (p_type ph =? PT_DYNAMIC) || (p_type ph =? PT_INTERP) || (p_type ph =? PT_SHLIB) then mret false
  else if p_type ph =? PT_LOAD then
    len ← on_exe ef_length;
    if validate_segment ph len then
      load_segment pd (s32 (file_page ph)) (mem_page ph) (seg_read ph) (seg_zero ph) (negb (Z.land (p_flags ph) PF_W =? 0))
    else mret false
  else mret true.

(** The loop over the [n] program headers from offset [file_ofs] on. *)
Fixpoint load_phdrs (n : nat) (pd file_ofs : Z) : st lstate bool :=
  match n with
  | O => mret true
  | S n' =>
      len ← on_exe ef_length;
      if (file_ofs <? 0) || (len <? file_ofs) then mret false
      else
        on_exe (ef_seek file_ofs) ≫= fun _ =>
        bs ← on_exe (ef_read PHDR_SIZE);
        if negb (Z.of_nat (length bs) =? PHDR_SIZE) then mret false
        else
          ok ← load_phdr pd (phdr_of bs);
          if ok : bool then load_phdrs n' pd (s32 (file_ofs + PHDR_SIZE)) else mret false
  end.

Definition setup_stack (pd : Z) : st machine (option Z) :=
  kpage ← palloc_get_page (Z.lor PAL_USER PAL_ZERO);
  if negb (kpage =? NULL) then
    success ← install_page pd (PHYS_BASE - PGSIZE) kpage true;
    if success : bool then mret (Some PHYS_BASE) else palloc_free_page kpage ≫= fun _ => mret None
  else mret None.

(** load from the executable header to the stack: the entry point and the
    stack pointer. *)
Definition load_image (pd : Z) : st lstate (option (Z * Z)) :=
  bs ← on_exe (ef_read EHDR_SIZE);
  if negb (Z.of_nat (length bs) =? EHDR_SIZE) || negb (ehdr_ok (ehdr_of bs)) then mret None
  else
    let ehdr := ehdr_of bs in
    ok ← load_phdrs (Z.to_nat (e_phnum ehdr)) pd (s32 (e_phoff ehdr));
    if negb ok then mret None
    else
      r ← on_mach (setup_stack pd);
      match r with Some esp => mret (Some (e_entry ehdr, esp)) | None => mret None end.
End load.
Arguments lstate F : clear implicits.
Arguments LState {F}.

(** A file held in memory. *)
#[global] Instance bytes_file : ExecFile (list Z * Z) := {|
  ef_length := gets (fun f => Z.of_nat (length f.1));
  ef_seek p := fun f => kassert (0 <=? p) ≫= fun _ => Ok (tt, (f.1, p));
  ef_read k := fun f => let bs := window f.1 (Z.to_nat f.2) (Z.to_nat k) in Ok (bs, (f.1, f.2 + Z.of_nat (length bs)))
|}.

#[global] Program Instance bytes_file_laws : ExecFileLaws (list Z * Z) := {|
  ef_at n c p f := f = (c, p) /\ Forall is_byte c /\ Z.of_nat (length c) < 2 ^ 30
|}.
Next Obligation. done. Qed.
Next Obligation. intros n c p f (_ & H). done. Qed.
Next Obligation. intros n c p f (-> & H). eexists. by split. Qed.
Next Obligation. intros n c p f q (-> & H) Hq. exists (c, q). unfold ef_seek. simpl. rewrite kassert_true by lia. done. Qed.
Next Obligation. intros n c p f k (-> & H) Hk Hp. eexists. by split. Qed.
