(* ===== verification/LoaderLaws.v ===== *)
(** * Properties of the loader (src/userprog/process.c)

    Loading is safe for every file: no assertion of the loader, the page
    allocator or the page directory fails, whatever the headers say.  When
    it succeeds, every loadable segment is in memory as its header
    describes it. *)

From S2P Require Import Prelude Memory Wp Bitmap Pages PageLaws Loader.

(** ** The arithmetic of a segment *)

Lemma land_pgmask x : 0 <= x -> Z.land x PGMASK = x mod 4096.
Proof. intros Hx. change PGMASK with (Z.ones 12). by rewrite Z.land_ones by lia. Qed.

Lemma land_not_pgmask x : 0 <= x < 2 ^ 32 -> Z.land x NOT_PGMASK = x - x mod 4096.
Proof. intros Hx. change NOT_PGMASK with PTE_ADDR. by apply land_addr. Qed.

Lemma ROUND_UP_page x : 0 <= x -> x + 4095 < 2 ^ 32 -> ROUND_UP x PGSIZE = (x + 4095) / 4096 * 4096.
Proof. intros H1 H2. unfold ROUND_UP, PGSIZE. replace (x + 4096 - 1) with (x + 4095) by lia. rewrite (u32_small (x + 4095)) by lia. apply u32_small. dlia. Qed.

(** The fields of a program header are 32-bit words. *)
Definition phdr_words (ph : Elf32_Phdr) : Prop :=
  is_word (p_offset ph) /\ is_word (p_vaddr ph) /\ is_word (p_filesz ph) /\ is_word (p_memsz ph).

(** The number of pages of a segment. *)
Definition seg_pages (ph : Elf32_Phdr) : Z := (p_vaddr ph mod 4096 + p_memsz ph + 4095) / 4096.

Record seg_ok (ph : Elf32_Phdr) (len : Z) : Prop := {
  so_ofs : p_offset ph mod 4096 = p_vaddr ph mod 4096;
  so_len : p_offset ph <= len;
  so_file : 0 <= p_filesz ph <= p_memsz ph;
  so_mem : 0 < p_memsz ph;
  so_lo : 4096 <= p_vaddr ph;
  so_hi : p_vaddr ph + p_memsz ph < PHYS_BASE
}.

Lemma validate_ok ph len : phdr_words ph -> 0 <= len < 2 ^ 32 -> validate_segment ph len = true -> seg_ok ph len.
Proof.
  intros (Ho & Hv & Hf & Hm) Hlen. unfold is_word in *. unfold validate_segment, is_user_vaddr. rewrite !land_pgmask by lia. rewrite (u32_small len) by done. unfold PGSIZE, PHYS_BASE.
  destruct (Z.eqb_spec (p_offset ph mod 4096) (p_vaddr ph mod 4096)); [|done]. cbn [negb].
  destruct (Z.ltb_spec len (p_offset ph)); [done|]. destruct (Z.ltb_spec (p_memsz ph) (p_filesz ph)); [done|].
  destruct (Z.eqb_spec (p_memsz ph) 0); [done|]. destruct (Z.ltb_spec (p_vaddr ph) 3221225472); [|done]. cbn [negb].
  destruct (Z.ltb_spec (u32 (p_vaddr ph + p_memsz ph)) 3221225472); [|done]. cbn [negb].
  destruct (Z.ltb_spec (u32 (p_vaddr ph + p_memsz ph)) (p_vaddr ph)); [done|]. destruct (Z.ltb_spec (p_vaddr ph) 4096); [done|]. intros _.
  split; unfold PHYS_BASE; try lia. unfold u32 in *. dlia.
Qed.

(** The numbers load computes for a segment it accepts meet the assertions
    of load_segment and stay inside user memory: whole pages, page-aligned,
    above page 0 and below the kernel, without overflow. *)
Definition seg_numbers (ph : Elf32_Phdr) : Prop :=
  seg_read ph + seg_zero ph = 4096 * seg_pages ph /\ 0 <= seg_read ph <= 4096 * seg_pages ph /\ 0 < seg_pages ph /\
  mem_page ph mod 4096 = 0 /\ 4096 <= mem_page ph /\ mem_page ph + 4096 * seg_pages ph <= PHYS_BASE /\
  file_page ph mod 4096 = 0 /\ 0 <= file_page ph <= p_offset ph /\
  mem_page ph <= p_vaddr ph /\ p_vaddr ph + p_memsz ph <= mem_page ph + 4096 * seg_pages ph /\
  p_vaddr ph - mem_page ph = p_offset ph - file_page ph /\
  (0 < p_filesz ph -> seg_read ph = p_vaddr ph - mem_page ph + p_filesz ph) /\ (p_filesz ph = 0 -> seg_read ph = 0).

Lemma segment_numbers ph len : phdr_words ph -> seg_ok ph len -> seg_numbers ph.
Proof.
  intros (Ho & Hv & Hf & Hm) [S1 S2 S3 S4 S5 S6]. unfold is_word in *.
  assert (page_offset ph = p_vaddr ph mod 4096) as Eo by (apply land_pgmask; lia).
  assert (mem_page ph = p_vaddr ph - p_vaddr ph mod 4096) as Em by (by apply land_not_pgmask).
  assert (file_page ph = p_offset ph - p_vaddr ph mod 4096) as Ef by (rewrite <- S1; by apply land_not_pgmask).
  pose proof (Z.mod_pos_bound (p_vaddr ph) 4096 ltac:(lia)) as Hb. pose proof (Z.mod_le (p_vaddr ph) 4096 ltac:(lia) ltac:(lia)).
  unfold PHYS_BASE in S6. unfold seg_numbers, PHYS_BASE.
  assert (p_vaddr ph mod 4096 + p_memsz ph <= 4096 * seg_pages ph /\ 4096 * seg_pages ph < p_vaddr ph mod 4096 + p_memsz ph + 4096) as [Hp1 Hp2] by (unfold seg_pages; dlia).
  assert (4096 * seg_pages ph + (p_vaddr ph - p_vaddr ph mod 4096) <= 3221225472) as Hp3.
  { clear Ho Hf S1 S2 S3 Ef Eo Em. pose proof (Z.div_mod (p_vaddr ph) 4096). lia. }
  assert (seg_read ph = if 0 <? p_filesz ph then p_vaddr ph mod 4096 + p_filesz ph else 0) as Er.
  { unfold seg_read. rewrite Eo. by rewrite u32_small by lia. }
  assert (seg_zero ph = 4096 * seg_pages ph - seg_read ph) as Ez.
  { unfold seg_zero. rewrite Eo, (u32_small (p_vaddr ph mod 4096 + p_memsz ph)), ROUND_UP_page by lia. fold (seg_pages ph). rewrite (Z.mul_comm (seg_pages ph)).
    rewrite Er. destruct (0 <? p_filesz ph); [apply u32_small; lia|lia]. }
  rewrite Ez, Em, Ef, Er. pose proof (Z.div_mod (p_vaddr ph) 4096). pose proof (Z.div_mod (p_offset ph) 4096). pose proof (Z.mod_le (p_offset ph) 4096).
  clear Er Ez Em Ef Eo. destruct (Z.ltb_spec 0 (p_filesz ph)); split_and!; intros; (lia || dlia).
Qed.

(** ** The memory of a process *)

Section process.
Implicit Types (m : machine) (pd : Z).

(** The page directory [pd] of a process: its frames are pages of the user
    pool, which is apart from the pool of the page tables, and no frame is
    mapped twice. *)
Record proc m pd (l : list Z) : Prop := {
  pr_pd : pd_wf m pd l;
  pr_user : pool_wf m (user_pool m);
  pr_apart : forall a v w, page_state (kernel_pool m) a v -> page_state (user_pool m) a w -> False;
  pr_ram : forall a v, page_state (user_pool m) a v -> (a - PHYS_BASE) / 4096 < init_ram_pages m;
  pr_init : pd <> init_page_dir m;
  pr_mapped : forall u, user u -> pg_ofs u = 0 -> translate (pages m) pd u <> NULL -> page_state (user_pool m) (translate (pages m) pd u) true;
  pr_inj : forall u v, user u -> user v -> pg_ofs u = 0 -> pg_ofs v = 0 -> translate (pages m) pd u <> NULL -> translate (pages m) pd v = translate (pages m) pd u -> v = u
}.
Definition process m pd : Prop := exists l, proc m pd l.

(** The bytes of the page mapped at [u]. *)
Definition view m pd (u : Z) : option (list Z) :=
  if translate (pages m) pd u =? NULL then None else words_to_bytes <$> pages m !! translate (pages m) pd u.
Definition same_view m m' pd : Prop := forall u, user u -> pg_ofs u = 0 -> view m' pd u = view m pd u.

(** A page of the user pool that is allocated and not mapped. *)
Record own_page m pd (k : Z) (l : list Z) : Prop := {
  op_used : page_state (user_pool m) k true;
  op_free : forall u, user u -> pg_ofs u = 0 -> translate (pages m) pd u <> k;
  op_data : pages m !! k = Some l /\ length l = 1024%nat
}.

Lemma user_kpage m k v : pool_wf m (user_pool m) -> page_state (user_pool m) k v -> kpage k.
Proof.
  intros [Hmap [Hb1 Hb2] Hend _] (i & Hi & -> & _). unfold kpage, PHYS_BASE in *. split; [lia|]. rewrite (Z.mul_comm 4096), Z.mod_add by lia. done.
Qed.

(** Writing to a page of the user pool changes no page table. *)
Lemma write_frame m pd l k v l' : proc m pd l -> page_state (user_pool m) k v -> length l' = 1024%nat ->
  let pg := <[k := l']> (pages m) in
  pd_wf (set_pages pg m) pd l /\ pool_wf (set_pages pg m) (user_pool m) /\ forall u, user u -> translate pg pd u = translate (pages m) pd u.
Proof.
  intros [[Hkp (Hl & Hlen & Hk) Hused Hpt Hinj] Hup Hap _ _ _ _] Hkv Hl' pg.
  assert (forall a w, page_state (kernel_pool m) a w -> pg !! a = pages m !! a) as Hsame.
  { intros a w Ha. unfold pg. rewrite lookup_insert_ne; [done|]. intros ->. by eapply Hap. }
  assert (forall p, pool_wf m p -> pool_wf (set_pages pg m) p) as Hpool.
  { intros p Hp. apply pool_wf_pages; [done|]. intros a la Ha Hla. by eapply insert_table_len. }
  split_and!; [|by apply Hpool|].
  - split; cbn [set_pages kernel_pool pages]; [by apply Hpool|split_and!; [by rewrite (Hsame _ _ Hused)|done..]|done| |done].
    intros i e Hi He Hne. destruct (Hpt i e Hi He Hne) as (pt & lt & -> & (H1 & H2 & H3) & H4 & H5 & H6). exists pt, lt.
    split_and!; [done| |done|done|done]. split_and!; [by rewrite (Hsame _ _ H6)|done..].
  - intros u Hu. destruct (user_index u Hu) as (Hi & _ & _). unfold translate, pte_of. rewrite (Hsame _ _ Hused), Hl. cbn [mbind option_bind].
    destruct (l !! Z.to_nat (pd_no u)) as [e|] eqn:E; [|done]. cbn [mbind option_bind]. destruct (Z.eqb_spec e 0) as [|Hne]; [done|].
    destruct (Hpt _ _ Hi E Hne) as (pt & lt & -> & (H1 & _) & _ & _ & H6). by rewrite entry_back, (Hsame _ _ H6).
Qed.

Lemma write_proc m pd l k v l' : proc m pd l -> page_state (user_pool m) k v -> length l' = 1024%nat -> proc (set_pages (<[k := l']> (pages m)) m) pd l.
Proof.
  intros Hp Hu Hl'. destruct (write_frame m pd l k v l' Hp Hu Hl') as (Hpd & Hup & Htr). destruct Hp as [_ _ Hap Hram Hinit Hmap Hinj].
  split; [exact Hpd|exact Hup|exact Hap|exact Hram|exact Hinit|..]; cbn [set_pages pages user_pool].
  - intros u Hu' Ho Hne. rewrite Htr in * by done. by apply Hmap.
  - intros u w Hu' Hw' Ho Ho'. rewrite !Htr by done. by apply Hinj.
Qed.

Lemma write_own m pd k l l' : process m pd -> own_page m pd k l -> length l' = 1024%nat ->
  let m' := set_pages (<[k := l']> (pages m)) m in process m' pd /\ own_page m' pd k l' /\ same_view m m' pd.
Proof.
  intros (lp & Hp) [Hu Hf [Hd Hl]] Hl' m'. destruct (write_frame m pd lp k true l' Hp Hu Hl') as (_ & _ & Htr). split_and!.
  - exists lp. by eapply write_proc.
  - split; [exact Hu| |split; [apply lookup_insert_eq|done]]. cbn [m' set_pages pages]. intros u Hu' Ho. rewrite Htr by done. by apply Hf.
  - intros u Hu' Ho. unfold view, m'. cbn [set_pages pages]. rewrite Htr by done. destruct (_ =? NULL); [done|]. rewrite lookup_insert_ne; [done|]. apply not_eq_sym. by apply Hf.
Qed.

(** A change of the user pool's bitmap that keeps the mapped pages. *)
Lemma pool_change m pd b : process m pd -> bitmap_wf b -> bit_cnt b = bit_cnt (used_map (user_pool m)) ->
  (forall u, user u -> pg_ofs u = 0 -> translate (pages m) pd u <> NULL -> page_state (Pool b (base (user_pool m))) (translate (pages m) pd u) true) ->
  process (set_pools (kernel_pool m) (Pool b (base (user_pool m))) m) pd.
Proof.
  intros (l & [[H1 H2 H3 H4 H5] [U1 U2 U3 U4] Hap Hram Hinit Hmap Hinj]) Hb Hc Hu. set (m' := set_pools _ _ m).
  assert (forall a v, page_state (user_pool m') a v -> exists w, page_state (user_pool m) a w) as Hback.
  { intros a v. apply page_state_any; [done|]. exact Hc. }
  exists l. split; [|split; cbn [m' set_pools user_pool used_map base pages]; [done|done|by rewrite Hc|by rewrite Hc]| | |done|exact Hu|exact Hinj].
  - split; [|exact H2|exact H3|exact H4|exact H5]. destruct H1 as [K1 K2 K3 K4]. by split.
  - intros a v w Hk Hw. destruct (Hback _ _ Hw) as [w' Hw']. by eapply Hap.
  - intros a v Ha. destruct (Hback _ _ Ha) as [w Hw]. by eapply Hram.
Qed.

Lemma take_user flags m pd : process m pd -> has flags PAL_USER = true -> has flags PAL_ASSERT = false ->
  wp (palloc_get_page flags) (fun k m' => (k = NULL /\ m' = m) \/
    (k <> NULL /\ process m' pd /\ same_view m m' pd /\ exists l, own_page m' pd k l /\ (has flags PAL_ZERO = true -> l = replicate 1024 0))) m.
Proof.
  intros Hp Hu Ha. pose proof Hp as (lp & [_ Hup _ _ _ Hmap _]). assert (selected flags m = user_pool m) as Esel by (unfold selected; by rewrite Hu).
  apply wp_palloc_get_page; [by rewrite Esel|done|by left|]. cbv zeta. rewrite Esel. intros i b Hi Hf Hb Hc Hbits Hk. right.
  set (k := base (user_pool m) + 4096 * i) in *. set (m1 := set_pools (kernel_pool m) (Pool b (base (user_pool m))) m).
  assert (forall u, user u -> pg_ofs u = 0 -> translate (pages m) pd u <> k) as Hfree.
  { intros u Hu' Ho E. destruct (Hmap u Hu' Ho) as (j & Hj & Ej & Hbj); [rewrite E; destruct Hk; unfold NULL, PHYS_BASE in *; lia|].
    rewrite E in Ej. assert (j = i) as -> by (unfold k in Ej; lia). congruence. }
  assert (process m1 pd) as Hp1.
  { apply pool_change; [done|done|done|]. intros u Hu' Ho Hne. destruct (Hmap u Hu' Ho Hne) as (j & Hj & Ej & Hbj). exists j. cbn [used_map base]. rewrite Hc.
    split_and!; [lia|lia|done|]. rewrite Hbits by lia. by case_decide. }
  destruct (pw_mem _ _ Hup i Hi) as (l & Hl & Hlen).
  assert (own_page m1 pd k l) as Ho1.
  { split; [|exact Hfree|done]. exists i. cbn. rewrite Hc. split_and!; [lia|lia|done|]. rewrite Hbits by lia. by rewrite decide_True. }
  assert (k <> NULL) as Hkn by (destruct Hk; unfold NULL, PHYS_BASE in *; lia).
  assert (handed_out flags b i m = if has flags PAL_ZERO then set_pages (<[k := replicate 1024 0]> (pages m1)) m1 else m1) as ->.
  { unfold handed_out, with_pool. by rewrite Esel, Hu. }
  destruct (has flags PAL_ZERO); [|split_and!; [done|done|by intros u _ _|by exists l]].
  destruct (write_own m1 pd k l (replicate 1024 0) Hp1 Ho1) as (Hp2 & Ho2 & Hv); [by rewrite length_replicate|].
  split_and!; [done|done|exact Hv|by exists (replicate 1024 0)].
Qed.

Lemma free_own m pd k l : process m pd -> own_page m pd k l -> wp (palloc_free_page k) (fun _ m' => process m' pd /\ same_view m m' pd) m.
Proof.
  intros Hp Hown. pose proof Hp as (lp & [[Hkp _ _ _ _] Hup Hap _ _ _ _]). pose proof Hown as [Hu Hf [Hd Hl]]. pose proof (user_kpage m k true Hup Hu) as Hk. pose proof Hk as [Hk1 Hk2].
  pose proof Hu as (i & Hi & Ek & Hbit). unfold palloc_free_page, palloc_free_multiple. apply wp_bind, wp_assert; [rewrite pg_ofs_mod; by apply Z.eqb_eq|].
  rewrite (proj2 (Z.eqb_neq k NULL)) by (unfold NULL, PHYS_BASE in *; lia). cbn [orb Z.eqb]. apply wp_bind, wp_gets, wp_bind, wp_gets.
  assert (page_from_pool (kernel_pool m) k = false) as Ek0.
  { apply not_true_iff_false. rewrite (page_from_pool_ok m) by done. intros (v & Hv). by eapply Hap. }
  assert (page_from_pool (user_pool m) k = true) as Eu0 by (rewrite (page_from_pool_ok m) by done; eauto).
  rewrite Ek0, Eu0. apply wp_bind, wp_ret. cbv zeta. rewrite !pg_no_div.
  assert (u32 (k / 4096 - base (user_pool m) / 4096) = i) as ->.
  { pose proof (wf_cnt _ (pw_map _ _ Hup)). destruct (pw_base _ _ Hup) as [_ Hbm]. assert (k / 4096 = base (user_pool m) / 4096 + i) as -> by dlia. rewrite u32_small; lia. }
  apply wp_bind. unfold wp at 1, memset_pages. change (Z.to_nat 1) with 1%nat. cbn [fill_pages]. rewrite Hd. cbv beta iota.
  destruct (bitmap_all_spec (used_map (user_pool m)) i 1 (pw_map _ _ Hup)) as (r & Er & Hr); [lia..|].
  assert (r = true) as -> by (apply Hr, run_one; [lia|done]). apply wp_bind. eapply wp_lift; [exact Er|]. apply wp_bind, wp_assert; [done|].
  destruct (bitmap_set_multiple_spec (used_map (user_pool m)) i 1 (pw_map _ _ Hup)) with (v := false) as (b & Eb & Hbw & Htb); [lia..|].
  destruct (bit_after_set _ b i false (pw_map _ _ Hup) Hbw Hi Htb) as [Ec Hbits]. apply wp_bind. eapply wp_lift; [exact Eb|]. apply wp_modify.
  destruct (write_own m pd k l (replicate 1024 0xcccccccc) Hp Hown) as (Hp1 & Ho1 & Hv1); [by rewrite length_replicate|].
  set (m1 := set_pages _ m) in *. split; [|exact Hv1].
  apply (pool_change m1 pd b Hp1 Hbw Ec). intros u Hu' Ho Hne. destruct Hp1 as (lp1 & [_ _ _ _ _ Hmap1 _]). destruct (Hmap1 u Hu' Ho Hne) as (j & Hj & Ej & Hbj).
  exists j. cbn [used_map base]. rewrite Ec. split_and!; [exact (proj1 Hj)|exact (proj2 Hj)|exact Ej|]. rewrite Hbits by exact Hj. case_decide as Ei; [|exact Hbj].
  exfalso. apply (op_free _ _ _ _ Ho1 u Hu' Ho). rewrite Ej, <- Ei. cbn. by rewrite Ek.
Qed.

Lemma aligned_page u v : user u -> user v -> pg_ofs u = 0 -> pg_ofs v = 0 -> pg_no v = pg_no u -> v = u.
Proof. rewrite !pg_ofs_mod, !pg_no_div. unfold user. intros. dlia. Qed.

Lemma install_ok m pd k l u w : process m pd -> own_page m pd k l -> user u -> pg_ofs u = 0 ->
  wp (install_page pd u k w) (fun b m' =>
    if b : bool then process m' pd /\ view m pd u = None /\ view m' pd u = Some (words_to_bytes l) /\
      (forall v, user v -> pg_ofs v = 0 -> v <> u -> view m' pd v = view m pd v)
    else m' = m) m.
Proof.
  intros (lp & Hp) [Hu Hf [Hd Hl]] Huu Ho. pose proof Hp as [Hpd Hup Hap Hram Hinit Hmap Hinj]. pose proof (user_kpage m k true Hup Hu) as Hk.
  unfold install_page. apply wp_bind. unfold wp at 1. rewrite (get_page_translates pd lp u m Hpd Huu).
  destruct (Z.eqb_spec (translate (pages m) pd u) NULL) as [E|E]; [|by apply wp_ret].
  eapply wp_mono; [apply (set_page_ok pd lp u k w m Hpd Huu Ho Hk); [by eapply Hram|done|done]|].
  intros [] m'; [|done]. intros ((l' & Hpd') & [K1 K2 K3 K4 K5 K6] & Htr).
  assert (forall a v, page_state (user_pool m) a v -> pages m' !! a = pages m !! a) as Hsame.
  { intros a v Ha. apply K6. intros w' Hw'. by eapply Hap. }
  assert (translate (pages m') pd u = k) as Eu by (rewrite Htr, Z.eqb_refl, Ho by done; lia).
  assert (forall v, user v -> pg_ofs v = 0 -> v <> u -> translate (pages m') pd v = translate (pages m) pd v) as Ev.
  { intros v Hv Hvo Hne. rewrite Htr by done. rewrite (proj2 (Z.eqb_neq _ _)); [done|]. intros En. apply Hne. by apply aligned_page. }
  assert (k <> NULL) as Hkn by (destruct Hk; unfold NULL, PHYS_BASE in *; lia). split_and!.
  - exists l'. split; [exact Hpd'| | | |by rewrite K3| |].
    + rewrite K1. destruct Hup as [U1 U2 U3 U4]. split; [done..|]. intros i Hi. rewrite (Hsame _ (bit (used_map (user_pool m)) i)); [by apply U4|]. by exists i.
    + rewrite K1. intros a v w' Ha Hb. destruct (page_state_any _ _ _ _ K4 K5 Ha) as [v' Hv']. by eapply Hap.
    + rewrite K1, K2. exact Hram.
    + rewrite K1. intros v Hv Hvo Hne. destruct (decide (v = u)) as [->|Hvu]; [by rewrite Eu|]. rewrite Ev in * by done. by apply Hmap.
    + intros v w' Hv Hw Hvo Hwo. destruct (decide (v = u)) as [->|Hvu], (decide (w' = u)) as [->|Hwu]; rewrite ?Eu, ?Ev by done; [done| | |by apply Hinj].
      * intros _ E'. by apply Hf in E'.
      * intros _ E'. symmetry in E'. by apply Hf in E'.
  - unfold view. by rewrite E.
  - unfold view. rewrite Eu, (proj2 (Z.eqb_neq k NULL)) by done. by rewrite (Hsame _ _ Hu), Hd.
  - intros v Hv Hvo Hne. unfold view. rewrite Ev by done. destruct (Z.eqb_spec (translate (pages m) pd v) NULL) as [|Hn]; [done|].
    by rewrite (Hsame _ true) by (by apply Hmap).
Qed.

(** Memory that only grows: what is mapped keeps its contents. *)
Definition extends m m' pd : Prop := forall u d, user u -> pg_ofs u = 0 -> view m pd u = Some d -> view m' pd u = Some d.

Lemma mem_extends_refl m pd : extends m m pd.
Proof. by intros u d. Qed.
Lemma mem_extends_trans m1 m2 m3 pd : extends m1 m2 pd -> extends m2 m3 pd -> extends m1 m3 pd.
Proof. intros H1 H2 u d Hu Ho Hd. by apply H2; [..|apply H1]. Qed.
Lemma same_extends m m' pd : same_view m m' pd -> extends m m' pd.
Proof. intros H u d Hu Ho Hd. by rewrite H. Qed.

Lemma write_bytes_ok m pd k l ofs bs : process m pd -> own_page m pd k l -> (ofs + length bs <= 4096)%nat ->
  wp (write_bytes k ofs bs) (fun _ m' => process m' pd /\ own_page m' pd k (bytes_to_words 1024 (splice (words_to_bytes l) ofs bs)) /\ same_view m m' pd) m.
Proof.
  intros Hp Ho Hl. pose proof Ho as [_ _ [Hd _]]. unfold wp, write_bytes. rewrite Hd, bool_decide_eq_true_2 by done. apply write_own with l; [done|done|by rewrite length_bytes_to_words].
Qed.
End process.

(** ** Segments *)

Section segments.
Context {F : Type} `{ExecFileLaws F}.
Implicit Types (s : lstate F).

Lemma wp_on_mach {A} (m : st machine A) Q s : wp m (fun a m' => Q a (LState m' (exe s))) (mach s) -> wp (on_mach m) Q s.
Proof. unfold wp, on_mach. by destruct (m (mach s)) as [[]|]. Qed.
Lemma wp_on_exe {A} (m : st F A) a f Q s : m (exe s) = Ok (a, f) -> Q a (LState (mach s) f) -> wp (on_exe m) Q s.
Proof. intros E HQ. unfold wp, on_exe. by rewrite E. Qed.

(** Byte [i] of a segment that reads [read] bytes of [c] from [pos] on, and
    its page [j]. *)
Definition seg_byte (c : list Z) (pos read i : Z) : Z := if i <? read then znth 0 c (pos + i) else 0.
Definition seg_page (c : list Z) (pos read j : Z) : list Z := (fun i => seg_byte c pos read (4096 * j + i)) <$> seqZ 0 4096.

Lemma length_seg_page c pos read j : length (seg_page c pos read j) = 4096%nat.
Proof. unfold seg_page. by rewrite length_fmap, length_seqZ. Qed.

Lemma seg_page_bytes c pos read j : Forall is_byte c -> Forall is_byte (seg_page c pos read j).
Proof.
  intros Hc. apply Forall_fmap, list.Forall_forall. intros i _. unfold compose, seg_byte. destruct (_ <? _); [|unfold is_byte; lia].
  unfold znth. rewrite nth_lookup. destruct (c !! _) as [b|] eqn:E; [|simpl; unfold is_byte; lia]. exact (proj1 (Forall_lookup _ _) Hc _ _ E).
Qed.

Lemma first_page c pos read : 0 <= pos -> 0 <= read -> let r := Z.min read 4096 in
  let bs := window c (Z.to_nat pos) (Z.to_nat r) in Z.of_nat (length bs) = r ->
  bs ++ replicate (Z.to_nat (4096 - r)) 0 = seg_page c pos read 0.
Proof.
  intros Hpos Hread r bs Hl. apply list_eq. intros i. unfold seg_page. rewrite list_lookup_fmap.
  destruct (decide (i < 4096)%nat) as [Hi|Hi].
  - rewrite lookup_seqZ_lt by lia. cbn [fmap option_fmap option_map]. unfold seg_byte. rewrite Z.mul_0_r, !Z.add_0_l.
    destruct (Z.ltb_spec (Z.of_nat i) read) as [Hr|Hr].
    + rewrite lookup_app_l by lia. destruct (lookup_lt_is_Some_2 bs i) as [b Hb]; [lia|]. rewrite Hb. f_equal. unfold bs in Hb. rewrite lookup_window in Hb. case_decide; [|done].
      unfold znth. rewrite nth_lookup. replace (Z.to_nat (pos + Z.of_nat i)) with (Z.to_nat pos + i)%nat by lia. by rewrite Hb.
    + rewrite lookup_app_r by lia. apply lookup_replicate_2. lia.
  - rewrite lookup_seqZ_ge by lia. apply lookup_ge_None. rewrite length_app, length_replicate. lia.
Qed.

Lemma seg_page_next c pos read j : 0 <= j -> 0 <= read -> let r := Z.min read 4096 in
  seg_page c (pos + r) (read - r) j = seg_page c pos read (j + 1).
Proof.
  intros Hj Hread r. unfold seg_page. apply list_fmap_ext. intros k i Hi. apply lookup_seqZ in Hi as [-> Hk]. unfold seg_byte.
  destruct (Z.ltb_spec (4096 * j + (0 + Z.of_nat k)) (read - r)), (Z.ltb_spec (4096 * (j + 1) + (0 + Z.of_nat k)) read); try lia. f_equal. lia.
Qed.

(** The two writes that fill a page. *)
Lemma page_filled l bs : length l = 1024%nat -> Forall is_byte bs -> (length bs <= 4096)%nat ->
  words_to_bytes (bytes_to_words 1024 (splice (words_to_bytes (bytes_to_words 1024 (splice (words_to_bytes l) 0 bs))) (length bs) (replicate (4096 - length bs) 0)))
  = bs ++ replicate (4096 - length bs) 0.
Proof.
  intros Hl Hb Hlen. assert (length (words_to_bytes l) = 4096%nat) as Hw by (rewrite length_words_to_bytes; lia).
  assert (length (splice (words_to_bytes l) 0 bs) = 4096%nat) as Hs by (rewrite length_splice; lia).
  rewrite (words_to_bytes_to_words 1024 (splice (words_to_bytes l) 0 bs)); [|lia|apply Forall_splice; [apply words_are_bytes|done]].
  rewrite words_to_bytes_to_words; [|rewrite length_splice; rewrite ?length_replicate; lia|apply Forall_splice; [apply Forall_splice; [apply words_are_bytes|done]|by apply bytes_replicate]].
  unfold splice at 1. rewrite length_replicate. unfold splice. rewrite take_0, app_nil_l, take_app_length. rewrite (drop_ge (bs ++ _)); [by rewrite app_nil_r|].
  rewrite length_app, length_drop. lia.
Qed.

(** The state of the file after reading. *)
Definition file_at (b : nat) (c : list Z) (f : F) : Prop := exists p, ef_at b c p f.

Lemma file_at_mono m n c p f : ef_at m c p f -> (n <= m)%nat -> file_at n c f.
Proof. intros Hf Hn. exists p. by eapply ef_mono. Qed.

Definition loaded s s' pd : Prop := process (mach s') pd /\ extends (mach s) (mach s') pd.

Lemma load_pages_ok n b pd c w : forall u read zero pos s,
  process (mach s) pd -> ef_at (Z.to_nat read + b) c pos (exe s) -> 0 <= pos <= Z.of_nat (length c) ->
  pg_ofs u = 0 -> 0 <= u -> u + 4096 * Z.of_nat n <= PHYS_BASE -> 0 <= read -> 0 <= zero -> read + zero = 4096 * Z.of_nat n ->
  wp (load_pages n pd u read zero w) (fun ok s' => loaded s s' pd /\ file_at b c (exe s') /\
    (ok = true -> pos + read <= Z.of_nat (length c) /\
       forall j, 0 <= j < Z.of_nat n -> view (mach s') pd (u + 4096 * j) = Some (seg_page c pos read j))) s.
Proof.
  induction n as [|n IH]; intros u read zero pos s Hp Hok Hpos Hu Hu0 Hu1 Hr Hz Hsum; cbn [load_pages].
  - assert (read = 0 /\ zero = 0) as [-> ->] by lia. apply wp_ret. split_and!; [by split; [|apply mem_extends_refl]|by exists pos|intros _; split; [lia|intros j Hj; lia]].
  - rewrite (proj2 (orb_true_iff _ _)) by (rewrite !Z.ltb_lt; lia). cbv zeta. unfold PGSIZE. pose proof (ef_bytes _ _ _ _ Hok) as [Hby Hlen].
    assert ((if read <? 4096 then read else 4096) = Z.min read 4096) as -> by (destruct (Z.ltb_spec read 4096); lia). set (r := Z.min read 4096).
    assert (user u) as Huser by (unfold user; lia).
    apply wp_bind, wp_on_mach. eapply wp_mono; [by apply (take_user PAL_USER)|]. intros k m1 [[-> ->]|(Hkn & Hp1 & Hv1 & l & Ho1 & _)].
    { cbn. apply wp_ret. destruct s as [m f]. split_and!; [by split; [|apply mem_extends_refl]|eapply file_at_mono; [exact Hok|lia]|done]. }
    rewrite (proj2 (Z.eqb_neq k NULL)) by done.
    destruct (ef_read_ok (Z.to_nat (read - r) + b) c pos (exe s) r) as (f & Ef & Hf); [eapply ef_mono; [|exact Hok]; lia|lia|lia|].
    set (bs := window c _ _) in *. apply wp_bind. eapply wp_on_exe; [exact Ef|]. cbn [mach].
    assert (length bs <= Z.to_nat r)%nat as Hbl by (unfold bs, window; rewrite length_take; lia).
    apply wp_bind, wp_on_mach. eapply wp_mono; [apply (write_bytes_ok m1 pd k l 0 bs Hp1 Ho1); lia|]. intros _ m2 (Hp2 & Ho2 & Hv2). cbn [exe].
    assert (extends (mach s) m2 pd) as Hx2 by (eapply mem_extends_trans; apply same_extends; [exact Hv1|exact Hv2]).
    destruct (Z.eqb_spec (Z.of_nat (length bs)) r) as [Hfull|Hshort]; cbn [negb].
    2:{ apply wp_bind, wp_on_mach. eapply wp_mono; [by eapply free_own|]. intros _ m3 [Hp3 Hv3]. apply wp_ret. cbn [mach exe].
        split_and!; [split; [done|eapply mem_extends_trans; [exact Hx2|by apply same_extends]]|eapply file_at_mono; [exact Hf|lia]|done]. }
    apply wp_bind, wp_on_mach. eapply wp_mono; [eapply (write_bytes_ok m2 pd k _ (Z.to_nat r) (replicate (Z.to_nat (4096 - r)) 0) Hp2 Ho2); rewrite length_replicate; lia|].
    intros _ m3 (Hp3 & Ho3 & Hv3). cbn [exe]. apply wp_bind, wp_on_mach. eapply wp_mono; [by apply (install_ok m3 pd k _ u w Hp3 Ho3)|]. intros [] m4; cbn [negb].
    2:{ intros ->. apply wp_bind, wp_on_mach. eapply wp_mono; [by eapply free_own|]. intros _ m5 [Hp5 Hv5]. apply wp_ret. cbn [mach exe].
        split_and!; [split; [done|]|eapply file_at_mono; [exact Hf|lia]|done].
        eapply mem_extends_trans; [exact Hx2|]. eapply mem_extends_trans; apply same_extends; [exact Hv3|exact Hv5]. }
    intros (Hp4 & Hnone & Hview & Hothers). unfold PHYS_BASE in Hu1. rewrite !u32_small by lia.
    assert (extends (mach s) m4 pd) as Hx4.
    { eapply mem_extends_trans; [exact Hx2|]. eapply mem_extends_trans; [apply same_extends, Hv3|]. intros v d Hv Ho Hd. rewrite Hothers; [done..|]. congruence. }
    replace (Z.to_nat (4096 - r)) with (4096 - length bs)%nat in Hview by lia. replace (Z.to_nat r) with (length bs) in Hview by lia.
    rewrite page_filled in Hview; [|apply (op_data _ _ _ _ Ho1)|by apply Forall_take, Forall_drop|lia].
    replace (4096 - length bs)%nat with (Z.to_nat (4096 - r)) in Hview by lia.
    unfold bs, r in Hview. rewrite (first_page c pos read) in Hview by (done || lia). rewrite Hfull in Hf.
    eapply wp_mono; [apply (IH (u + 4096) (read - r) (zero - (4096 - r)) (pos + r) (LState m4 f))|]; cbn [mach exe]; try done; try lia.
    + split; [lia|]. unfold bs, window in Hfull. rewrite length_take, length_drop in Hfull. lia.
    + rewrite pg_ofs_mod in *. by rewrite <- Zplus_mod_idemp_l, Hu.
    + unfold PHYS_BASE. lia.
    + intros ok s' ((Hp' & Hx') & Hfa & Hall). cbn [mach] in *. split_and!; [split; [done|by eapply mem_extends_trans]|done|]. intros Eok. destruct (Hall Eok) as [Hend Hpages].
      split; [lia|]. clear Hall. rename Hpages into Hall. intros j Hj.
      destruct (decide (j = 0)) as [->|Hj0]; [rewrite Z.mul_0_r, Z.add_0_r; by apply Hx'|]. specialize (Hall (j - 1) ltac:(lia)).
      unfold r in Hall. rewrite seg_page_next in Hall by lia. replace (u + 4096 + 4096 * (j - 1)) with (u + 4096 * j) in Hall by lia. by replace (j - 1 + 1) with j in Hall by lia.
Qed.

(** The byte of user memory at [v]. *)
Definition user_byte (m : machine) (pd v : Z) : option Z := d ← view m pd (v - v mod 4096); d !! Z.to_nat (v mod 4096).

Lemma user_byte_extends m m' pd v b : extends m m' pd -> user v -> user_byte m pd v = Some b -> user_byte m' pd v = Some b.
Proof.
  intros Hx Hv. unfold user_byte. destruct (view m pd (v - v mod 4096)) as [d|] eqn:E; [|done].
  assert (user (v - v mod 4096) /\ pg_ofs (v - v mod 4096) = 0) as [Hu Ho] by (unfold user in *; rewrite pg_ofs_mod; pose proof (Z.mod_pos_bound v 4096); pose proof (Z.mod_le v 4096); split; [lia|dlia]).
  by rewrite (Hx _ d Hu Ho E).
Qed.

(** A segment is in memory as its header says. *)
Definition in_memory (m : machine) (pd : Z) (c : list Z) (ph : Elf32_Phdr) : Prop :=
  p_offset ph + p_filesz ph <= Z.of_nat (length c) /\
  forall i, 0 <= i < p_memsz ph -> user (p_vaddr ph + i) /\
    user_byte m pd (p_vaddr ph + i) = Some (if i <? p_filesz ph then znth 0 c (p_offset ph + i) else 0).

Lemma in_memory_extends m m' pd c ph : extends m m' pd -> in_memory m pd c ph -> in_memory m' pd c ph.
Proof. intros Hx [Hl Hm]. split; [done|]. intros i Hi. destruct (Hm i Hi) as [Hu Hb]. split; [done|]. by eapply user_byte_extends. Qed.

Lemma pages_in_memory m pd c ph len : phdr_words ph -> seg_ok ph len -> file_page ph + seg_read ph <= Z.of_nat (length c) -> p_offset ph <= Z.of_nat (length c) ->
  (forall j, 0 <= j < seg_pages ph -> view m pd (mem_page ph + 4096 * j) = Some (seg_page c (file_page ph) (seg_read ph) j)) -> in_memory m pd c ph.
Proof.
  intros Hw Hs Hend Hoff Hpages. destruct (segment_numbers ph len Hw Hs) as (N1 & N2 & N3 & N4 & N5 & N6 & N7 & N8 & N9 & N10 & N11 & N12 & N13).
  pose proof (so_file _ _ Hs) as Hf. split; [destruct (decide (p_filesz ph = 0)); [lia|specialize (N12 ltac:(lia)); lia]|].
  intros i Hi. set (v := p_vaddr ph + i). set (o := v - mem_page ph). assert (0 <= o < 4096 * seg_pages ph) as Ho by lia. split; [unfold user, PHYS_BASE in *; lia|].
  assert (v - v mod 4096 = mem_page ph + 4096 * (o / 4096) /\ v mod 4096 = o mod 4096) as [E1 E2] by (clear -N4 Ho; subst o; split; dlia).
  unfold user_byte. rewrite E1, E2. rewrite Hpages by dlia. cbn [mbind option_bind]. unfold seg_page. rewrite list_lookup_fmap, lookup_seqZ_lt by dlia. cbn [fmap option_fmap option_map]. f_equal.
  replace (4096 * (o / 4096) + (0 + Z.of_nat (Z.to_nat (o mod 4096)))) with o by dlia. unfold seg_byte.
  destruct (decide (p_filesz ph = 0)) as [Hz|Hz].
  - rewrite N13 by done. rewrite (proj2 (Z.ltb_ge o 0)), (proj2 (Z.ltb_ge i _)) by lia. done.
  - specialize (N12 ltac:(lia)). destruct (Z.ltb_spec o (seg_read ph)), (Z.ltb_spec i (p_filesz ph)); try lia. f_equal. lia.
Qed.

(** What one header costs in bytes read, and the headers from [ofs] on. *)
Definition phdr_cost (c : list Z) (ph : Elf32_Phdr) : nat :=
  if (p_type ph =? PT_LOAD) && validate_segment ph (Z.of_nat (length c)) then Z.to_nat (seg_read ph) else 0.
Definition phdr_at (c : list Z) (ofs : Z) : Elf32_Phdr := phdr_of (window c (Z.to_nat ofs) 32).
Fixpoint phdrs_cost (n : nat) (c : list Z) (ofs : Z) : nat :=
  match n with O => 0 | S n' => 32 + (phdr_cost c (phdr_at c ofs) + phdrs_cost n' c (ofs + 32)) end.

Lemma load_phdr_ok b pd c ph s : process (mach s) pd -> file_at (phdr_cost c ph + b) c (exe s) -> phdr_words ph ->
  wp (load_phdr pd ph) (fun ok s' => loaded s s' pd /\ file_at b c (exe s') /\ (ok = true -> p_type ph = PT_LOAD -> in_memory (mach s') pd c ph)) s.
Proof.
  intros Hp [pos Hok] Hw. pose proof (ef_bytes _ _ _ _ Hok) as [Hby Hlen].
  assert (forall (o : bool), (o = true -> p_type ph <> PT_LOAD) -> wp (mret o) (fun ok s' => loaded s s' pd /\ file_at b c (exe s') /\ (ok = true -> p_type ph = PT_LOAD -> in_memory (mach s') pd c ph)) s) as Hret.
  { intros o Ho. apply wp_ret. split_and!; [by split; [|apply mem_extends_refl]|eapply file_at_mono; [exact Hok|lia]|intros E; by apply Ho in E]. }
  unfold load_phdr. destruct (_ || _); [by apply Hret|]. unfold phdr_cost in Hok. destruct (Z.eqb_spec (p_type ph) PT_LOAD) as [Et|Et]; [|by apply Hret].
  cbn [andb] in Hok. apply wp_bind. destruct (ef_length_ok _ _ _ _ Hok) as (f1 & E1 & Hf1). eapply wp_on_exe; [exact E1|]. cbn [mach].
  destruct (validate_segment ph (Z.of_nat (length c))) eqn:Hval.
  2:{ apply wp_ret. cbn [mach exe]. split_and!; [by split; [|apply mem_extends_refl]|by eexists|done]. }
  pose proof (validate_ok ph (Z.of_nat (length c)) Hw ltac:(lia) Hval) as Hs. destruct (segment_numbers ph _ Hw Hs) as (N1 & N2 & N3 & N4 & N5 & N6 & N7 & N8 & N9 & N10 & N11 & N12 & N13).
  pose proof (so_len _ _ Hs) as Hso. unfold load_segment, PGSIZE. rewrite N1. apply wp_bind, wp_assert; [apply Z.eqb_eq; unfold u32, PHYS_BASE in *; dlia|].
  apply wp_bind, wp_assert; [rewrite pg_ofs_mod; by apply Z.eqb_eq|]. rewrite s32_small by lia.
  apply wp_bind, wp_assert; [apply Z.eqb_eq; rewrite Z.rem_mod_nonneg; lia|].
  destruct (ef_seek_ok _ _ _ f1 (file_page ph) Hf1) as (f2 & E2 & Hf2); [lia|]. apply wp_bind. eapply wp_on_exe; [exact E2|]. cbn [mach].
  rewrite (Z.mul_comm 4096), Z.div_mul by lia.
  eapply wp_mono; [eapply (load_pages_ok (Z.to_nat (seg_pages ph)) b pd c)|]; cbn [mach exe]; [done|exact Hf2|try done; try lia..|].
  - by rewrite pg_ofs_mod.
  - intros ok s' (Hl & Hfa & Hdone). split_and!; [exact Hl|done|]. intros Eok _. destruct (Hdone Eok) as [Hend Hpages].
    eapply pages_in_memory; [done|exact Hs|done|done|]. intros j Hj. apply Hpages. lia.
Qed.

Lemma le_window_word l i n : Forall is_byte l -> (n <= 4)%nat -> is_word (le_value (window l i n)).
Proof.
  intros Hl Hn. assert (Forall is_byte (window l i n)) as Hb by (by apply Forall_take, Forall_drop). pose proof (le_value_range _ Hb). unfold is_word. split; [lia|].
  eapply Z.lt_le_trans; [apply H1|]. change (2 ^ 32) with (256 ^ 4). apply Z.pow_le_mono_r; [lia|]. unfold window. rewrite length_take. lia.
Qed.

Lemma phdr_of_words l : Forall is_byte l -> phdr_words (phdr_of l).
Proof. intros Hl. unfold phdr_words. split_and!; (apply le_window_word; [done|lia]). Qed.

Lemma load_phdrs_ok n b pd c : forall ofs s, process (mach s) pd -> file_at (phdrs_cost n c ofs + b) c (exe s) -> - 2 ^ 31 <= ofs < 2 ^ 31 ->
  wp (load_phdrs n pd ofs) (fun ok s' => loaded s s' pd /\ file_at b c (exe s') /\
    (ok = true -> forall i, 0 <= i < Z.of_nat n -> 0 <= ofs /\ (p_type (phdr_at c (ofs + 32 * i)) = PT_LOAD -> in_memory (mach s') pd c (phdr_at c (ofs + 32 * i))))) s.
Proof.
  induction n as [|n IH]; intros ofs s Hp [pos Hok] Hofs; cbn [load_phdrs].
  { apply wp_ret. split_and!; [by split; [|apply mem_extends_refl]|by eexists|lia]. }
  cbn [phdrs_cost] in Hok. pose proof (ef_bytes _ _ _ _ Hok) as [Hby Hlen].
  assert (forall m f, process m pd -> extends (mach s) m pd -> file_at b c f -> wp (mret false) (fun ok s' => loaded s s' pd /\ file_at b c (exe s') /\
    (ok = true -> forall i, 0 <= i < Z.of_nat (S n) -> 0 <= ofs /\ (p_type (phdr_at c (ofs + 32 * i)) = PT_LOAD -> in_memory (mach s') pd c (phdr_at c (ofs + 32 * i))))) (LState m f)) as Hret.
  { intros m f Hm Hx Hf. apply wp_ret. by split_and!. }
  apply wp_bind. destruct (ef_length_ok _ _ _ _ Hok) as (f1 & E1 & Hf1). eapply wp_on_exe; [exact E1|]. cbn [mach].
  destruct (Z.ltb_spec ofs 0) as [Hneg|Hnn]; cbn [orb]; [apply Hret; [done|apply mem_extends_refl|eapply file_at_mono; [exact Hf1|lia]]|].
  destruct (Z.ltb_spec (Z.of_nat (length c)) ofs) as [Hbig|Hin]; [apply Hret; [done|apply mem_extends_refl|eapply file_at_mono; [exact Hf1|lia]]|].
  destruct (ef_seek_ok _ _ _ f1 ofs Hf1) as (f2 & E2 & Hf2); [lia|]. apply wp_bind. eapply wp_on_exe; [exact E2|]. cbn [mach].
  destruct (ef_read_ok (phdr_cost c (phdr_at c ofs) + phdrs_cost n c (ofs + 32) + b) c ofs f2 PHDR_SIZE) as (f3 & E3 & Hf3); [eapply ef_mono; [|exact Hf2]; unfold PHDR_SIZE; lia|unfold PHDR_SIZE; lia|lia|].
  apply wp_bind. eapply wp_on_exe; [exact E3|]. change (Z.to_nat PHDR_SIZE) with 32%nat. cbn [mach].
  destruct (negb _); [apply Hret; [done|apply mem_extends_refl|eapply file_at_mono; [exact Hf3|lia]]|].
  fold (phdr_at c ofs). apply wp_bind.
  eapply wp_mono; [apply (load_phdr_ok (phdrs_cost n c (ofs + 32) + b) pd c)|]; cbn [mach exe]; [done|eapply file_at_mono; [exact Hf3|lia]|apply phdr_of_words; by apply Forall_take, Forall_drop|].
  intros ok s1 ([Hp1 Hx1] & Hfa1 & Hin1). cbn [mach] in *. destruct ok; [|destruct s1 as [m1 g1]; apply Hret; [done|done|destruct Hfa1 as [? Ha]; eapply file_at_mono; [exact Ha|lia]]].
  rewrite s32_small by (unfold PHDR_SIZE; lia). change (ofs + PHDR_SIZE) with (ofs + 32).
  eapply wp_mono; [apply (IH (ofs + 32) s1 Hp1 Hfa1); lia|]. intros ok s2 ([Hp2' Hx2] & Hfa2 & Hall).
  split_and!; [split; [done|by eapply mem_extends_trans]|done|]. intros Eok i Hi. split; [lia|]. destruct (decide (i = 0)) as [->|Hi0].
  - rewrite Z.mul_0_r, Z.add_0_r. intros Et. eapply in_memory_extends; [exact Hx2|]. by apply Hin1.
  - destruct (Hall Eok (i - 1) ltac:(lia)) as [_ Hm]. by replace (ofs + 32 + 32 * (i - 1)) with (ofs + 32 * i) in Hm by lia.
Qed.

Lemma setup_stack_ok m pd : process m pd ->
  wp (setup_stack pd) (fun r m' => process m' pd /\ extends m m' pd /\
    match r with Some esp => esp = PHYS_BASE /\ view m' pd (PHYS_BASE - 4096) = Some (replicate 4096 0) | None => True end) m.
Proof.
  intros Hp. unfold setup_stack. apply wp_bind. eapply wp_mono; [by apply (take_user (Z.lor PAL_USER PAL_ZERO))|].
  intros k m1 [[-> ->]|(Hkn & Hp1 & Hv1 & l & Ho1 & Hz)]; [cbn; apply wp_ret; split_and!; [done|apply mem_extends_refl|done]|].
  rewrite (Hz eq_refl) in Ho1. rewrite (proj2 (Z.eqb_neq k NULL)) by done. cbn [negb]. apply wp_bind.
  eapply wp_mono; [apply (install_ok m1 pd k _ (PHYS_BASE - PGSIZE) true Hp1 Ho1); [unfold user, PHYS_BASE, PGSIZE; lia|done]|].
  intros [] m2.
  - intros (Hp2 & Hnone & Hview & Hothers). apply wp_ret. split_and!; [done| |done|exact Hview].
    eapply mem_extends_trans; [by apply same_extends|]. intros v d Hv Ho Hd. rewrite Hothers; [done..|]. congruence.
  - intros ->. apply wp_bind. eapply wp_mono; [by eapply free_own|]. intros _ m3 [Hp3 Hv3]. apply wp_ret.
    split_and!; [done|eapply mem_extends_trans; by apply same_extends|done].
Qed.

(** The bytes load reads of an executable. *)
Definition load_cost (c : list Z) : nat :=
  let h := ehdr_of (window c 0 52) in 52 + (if ehdr_ok h then phdrs_cost (Z.to_nat (e_phnum h)) c (s32 (e_phoff h)) else 0).

Lemma load_image_ok b pd c s : process (mach s) pd -> ef_at (load_cost c + b) c 0 (exe s) ->
  wp (load_image pd) (fun r s' => loaded s s' pd /\ file_at b c (exe s') /\
    match r with
    | None => True
    | Some (eip, esp) =>
        let h := ehdr_of (window c 0 52) in
        ehdr_ok h = true /\ eip = e_entry h /\ esp = PHYS_BASE /\ view (mach s') pd (PHYS_BASE - 4096) = Some (replicate 4096 0) /\
        forall i, 0 <= i < e_phnum h -> p_type (phdr_at c (e_phoff h + 32 * i)) = PT_LOAD -> in_memory (mach s') pd c (phdr_at c (e_phoff h + 32 * i))
    end) s.
Proof.
  intros Hp Hok. unfold load_image. unfold load_cost in Hok. cbv zeta in Hok. set (h := ehdr_of (window c 0 52)) in *. set (k := (if ehdr_ok h then _ else _)) in *.
  pose proof (ef_bytes _ _ _ _ Hok) as [Hby Hlen].
  destruct (ef_read_ok (k + b) c 0 (exe s) EHDR_SIZE) as (f1 & E1 & Hf1); [eapply ef_mono; [|exact Hok]; unfold EHDR_SIZE; lia|unfold EHDR_SIZE; lia|lia|].
  apply wp_bind. eapply wp_on_exe; [exact E1|]. change (Z.to_nat 0) with 0%nat. change (Z.to_nat EHDR_SIZE) with 52%nat. fold h. cbn [mach].
  assert (forall m f, process m pd -> extends (mach s) m pd -> file_at b c f -> loaded s (LState m f) pd /\ file_at b c f /\ True) as Hret by (intros; by split_and!).
  destruct (negb _ || negb (ehdr_ok h)) eqn:Eh; [apply wp_ret, Hret; [done|apply mem_extends_refl|eapply file_at_mono; [exact Hf1|lia]]|].
  apply orb_false_iff in Eh as [_ Eh]. apply negb_false_iff in Eh. unfold k in *. rewrite Eh in *. cbv zeta. apply wp_bind.
  assert (0 <= e_phnum h /\ is_word (e_phoff h)) as [Hn Ho].
  { assert (Forall is_byte (window c 0 52)) as Hb52 by (by apply Forall_take, Forall_drop). split; [apply (le_window_word (window c 0 52) 44 2 Hb52); lia|by apply le_window_word; [|lia]]. }
  eapply wp_mono; [apply (load_phdrs_ok (Z.to_nat (e_phnum h)) b pd c (s32 (e_phoff h)))|]; cbn [mach exe]; [done|by eexists|pose proof (s32_range (e_phoff h)); lia|].
  intros ok s1 ([Hp1 Hx1] & Hfa & Hall). cbn [mach] in *. destruct ok; cbn [negb]; [|apply wp_ret; destruct s1; by apply Hret].
  apply wp_bind, wp_on_mach. eapply wp_mono; [by apply setup_stack_ok|]. intros r m2 (Hp2 & Hx2 & Hr). destruct r as [esp|]; apply wp_ret; cbn [mach exe]; [|by apply Hret; [|eapply mem_extends_trans|]].
  destruct Hr as [-> Hstack]. split_and!; [split; [done|by eapply mem_extends_trans]|done|done|done|done|exact Hstack|]. intros i Hi Et.
  destruct (Hall eq_refl i ltac:(lia)) as [Hnn Hin].
  assert (s32 (e_phoff h) = e_phoff h) as Es by (unfold s32, is_word in *; rewrite Z.mod_small in * by lia; destruct (e_phoff h <? 2 ^ 31); lia). rewrite Es in Hin.
  eapply in_memory_extends; [exact Hx2|]. by apply Hin.
Qed.
End segments.

(** C7: Loading is safe for every file: whatever the bytes of the
    executable are, load gets through the headers, the segments and the
    stack without a failed assertion or a fault, keeps the page directory
    and the allocator consistent and disturbs nothing that was mapped.  If
    it succeeds, the entry point is that of a valid header, a zeroed page is
    mapped below PHYS_BASE for the stack, and every loadable segment is in
    user memory: its bytes from the file, the rest of it zero. *)
Theorem load_image_safe {F} `{ExecFileLaws F} b pd c (s : lstate F) :
  process (mach s) pd -> ef_at (load_cost c + b) c 0 (exe s) ->
  exists r s', load_image pd s = Ok (r, s') /\ process (mach s') pd /\ extends (mach s) (mach s') pd /\
    match r with
    | None => True
    | Some (eip, esp) =>
        let h := ehdr_of (window c 0 52) in
        ehdr_ok h = true /\ eip = e_entry h /\ esp = PHYS_BASE /\ view (mach s') pd (PHYS_BASE - 4096) = Some (replicate 4096 0) /\
        forall i, 0 <= i < e_phnum h -> p_type (phdr_at c (e_phoff h + 32 * i)) = PT_LOAD -> in_memory (mach s') pd c (phdr_at c (e_phoff h + 32 * i))
    end.
Proof.
  intros Hp Hok. pose proof (load_image_ok b pd c s Hp Hok) as Hwp. apply wp_Ok in Hwp as (r & s' & E & [Hp' Hx] & _ & Hr). eauto 10.
Qed.

(** ** A small process

    Two pools of eight pages each, an empty page directory, and an
    executable of one page with one segment. *)

Definition user_pages : gmap Z (list Z) := list_to_map ((fun i => (0xc0100000 + 4096 * i, replicate 1024 0)) <$> seqZ 0 16).
Definition tiny_machine : machine := Machine small_pool (Pool (Bitmap 8 [0]) 0xc0108000) user_pages 0xc0200000 1024 0 0.

Lemma tiny_lookup i : 0 <= i < 16 -> user_pages !! (0xc0100000 + 4096 * i) = Some (replicate 1024 0).
Proof.
  intros Hi. assert (i ∈ seqZ 0 16) as H by (apply elem_of_seqZ; lia).
  apply elem_of_list_to_map_1; [|apply list_elem_of_fmap; eauto]. rewrite <- list_fmap_compose.
  match goal with |- NoDup (?f <$> _) => assert (Inj (=) (=) f) by (intros x y; cbn; lia) end. apply NoDup_fmap_2; [done|apply NoDup_seqZ].
Qed.

Lemma tiny_process : process tiny_machine 0xc0100000.
Proof.
  assert (forall b, b = 0xc0100000 \/ b = 0xc0108000 -> forall w, is_word w -> pool_wf tiny_machine (Pool (Bitmap 8 [w]) b)) as Hpool.
  { intros b Hb w Hw. split; [split; cbn; [lia|done|by apply Forall_cons]|split; [unfold PHYS_BASE; cbn; lia|by destruct Hb as [-> | ->]]|cbn; lia|].
    cbn [used_map bit_cnt base]. intros i Hi. exists (replicate 1024 0). split; [|by rewrite length_replicate].
    destruct Hb as [-> | ->]; [apply tiny_lookup; lia|]. replace (3222306816 + 4096 * i) with (0xc0100000 + 4096 * (i + 8)) by lia. apply tiny_lookup. lia. }
  assert (forall u, translate user_pages 0xc0100000 u = NULL) as Hnone.
  { intros u. unfold translate, pte_of. change 3222274048 with (3222274048 + 4096 * 0). rewrite tiny_lookup by lia. cbn [mbind option_bind].
    destruct (replicate 1024 0 !! _) as [e|] eqn:E; [|done]. apply lookup_replicate in E as [-> _]. done. }
  exists (replicate 1024 0). split.
  - split; [apply Hpool; [by left|unfold is_word; lia]|split_and!; [exact (tiny_lookup 0 ltac:(lia))|by rewrite length_replicate|split; [unfold PHYS_BASE; lia|done]]| | |].
    + exists 0. split_and!; [done..|]. reflexivity.
    + intros i e Hi He Hne. apply lookup_replicate in He as [-> _]. done.
    + intros i j e Hi Hj Hne He _. apply lookup_replicate in He as [-> _]. done.
  - apply Hpool; [by right|unfold is_word; lia].
  - intros a v w (i & Hi & -> & _) (j & Hj & E & _). cbn in *. lia.
  - intros a v (i & Hi & -> & _). cbn in *. unfold PHYS_BASE. dlia.
  - done.
  - intros u Hu Ho Hne. exfalso. apply Hne, Hnone.
  - intros u v _ _ _ _ Hne. exfalso. apply Hne, Hnone.
Qed.

(** The executable: the header, one program header (six bytes of file and
    two more zero bytes at 0x08048054, writable) and the six bytes. *)
Definition tiny_elf : list Z :=
  [127; 69; 76; 70; 1; 1; 1; 0; 0; 0; 0; 0; 0; 0; 0; 0; 2; 0; 3; 0; 1; 0; 0; 0; 0x54; 0x80; 4; 8; 52; 0; 0; 0; 0; 0; 0; 0; 0; 0; 0; 0; 52; 0; 32; 0; 1; 0; 0; 0; 0; 0; 0; 0;
   1; 0; 0; 0; 0x54; 0; 0; 0; 0x54; 0x80; 4; 8; 0; 0; 0; 0; 6; 0; 0; 0; 8; 0; 0; 0; 6; 0; 0; 0; 0; 0; 0; 0;
   72; 101; 108; 108; 111; 33].

Lemma load_image_safe_witness : exists s' : lstate (list Z * Z),
  load_image 0xc0100000 (LState tiny_machine (tiny_elf, 0)) = Ok (Some (0x08048054, PHYS_BASE), s') /\
  user_byte (mach s') 0xc0100000 0x08048058 = Some 111 /\ user_byte (mach s') 0xc0100000 0x0804805b = Some 0.
Proof.
  destruct (load_image_safe 0 0xc0100000 tiny_elf (LState tiny_machine (tiny_elf, 0)) tiny_process) as (r & s' & E & _ & _ & Hr).
  { split; [reflexivity|]. split; [|reflexivity]. apply (bool_decide_unpack _). vm_compute. exact I. }
  exists s'. assert (r = Some (0x08048054, PHYS_BASE)) as -> by (apply (f_equal (fun x => match x with Ok p => p.1 | Err _ => None end)) in E; vm_compute in E; by rewrite <- E).
  split; [exact E|]. destruct Hr as (_ & _ & _ & _ & Hseg). destruct (Hseg 0 ltac:(split; [discriminate|reflexivity]) eq_refl) as [_ Hm].
  split; [exact (proj2 (Hm 4 ltac:(split; [discriminate|reflexivity])))|exact (proj2 (Hm 7 ltac:(split; [discriminate|reflexivity])))].
Defined.

(** The process once it is loaded. *)
Definition tiny_loaded : machine := match load_image 0xc0100000 (LState tiny_machine (tiny_elf, 0)) with Ok (_, s) => mach s | Err _ => tiny_machine end.

Lemma tiny_loaded_process : process tiny_loaded 0xc0100000.
Proof.
  assert (wp (load_image 0xc0100000) (fun _ s => process (mach s) 0xc0100000) (LState tiny_machine (tiny_elf, 0))) as Hwp.
  { eapply wp_mono; [apply (load_image_ok 0 0xc0100000 tiny_elf); [apply tiny_process|]|by intros ? ? [[? _] _]].
    split; [reflexivity|]. split; [|reflexivity]. apply (bool_decide_unpack _). vm_compute. exact I. }
  unfold wp in Hwp. unfold tiny_loaded. by destruct (load_image _ _) as [[]|].
Qed.
