(* ===== verification/LoaderFiles.v ===== *)
(** * Loading from the file system (src/userprog/process.c and
      src/filesys/file.c)

    An open file of the file system is an [ExecFile]: file_length,
    file_seek and file_read keep the laws the loader relies on. *)

From S2P Require Import Prelude Memory Wp Bitmap Block BufferCache InodeLayout InodeGrow InodeData InodeFree Inode FsLaws FsFiles.
From S2P Require Import Pages PageLaws Loader LoaderLaws.

Section fs_file.
Context {D : Type} `{BlockDriverLaws D}.

(** The file system with one open file of it. *)
#[global] Instance fs_file : ExecFile (fsys D * file) := {|
  ef_length := fun s => r ← file_length s.2 s.1; Ok (r.1, (r.2, s.2));
  ef_seek p := fun s => f ← file_seek s.2 p; Ok (tt, (s.1, f));
  ef_read k := fun s => r ← file_read s.2 k s.1; Ok (r.1.1, (r.2, r.1.2))
|}.

Definition fs_file_at (n : nat) (c : list Z) (p : Z) (s : fsys D * file) : Prop :=
  exists N i, fs_inv N n s.1 /\ open_file s.1 (f_inode s.2) i c /\ f_pos s.2 = p.

Lemma fs_file_bytes n c p s : fs_file_at n c p s -> Forall is_byte c /\ Z.of_nat (length c) < 2 ^ 30.
Proof.
  intros (N & i & _ & [_ _ Hrep] & _). split; [apply Hrep|]. pose proof (fr_max _ _ _ Hrep) as Hm. unfold fsize in Hm.
  eapply Z.le_lt_trans; [exact Hm|]. reflexivity.
Qed.

#[global] Program Instance fs_file_laws : ExecFileLaws (fsys D * file) := {| ef_at := fs_file_at |}.
Next Obligation. intros m n c p s Hn (N & i & Hinv & Hof & Hp). exists N, i. split; [|done]. by eapply fs_inv_mono. Qed.
Next Obligation. exact fs_file_bytes. Qed.
Next Obligation.
  intros n c p [σ f] (N & i & Hinv & Hof & Hp). exists (σ, f). split; [|by exists N, i]. cbn -[Z.of_nat].
  unfold file_length, inode_length, get_inode, mbind, st_bind. cbn [fst snd] in *. rewrite (of_find _ _ _ _ Hof). cbn. by rewrite (fr_len _ _ _ (of_rep _ _ _ _ Hof)).
Qed.
Next Obligation.
  intros n c p [σ f] q (N & i & Hinv & Hof & Hp) Hq. exists (σ, File (f_inode f) q (f_deny f)). split; [|by exists N, i].
  cbn. unfold file_seek. by rewrite kassert_true by lia.
Qed.
Next Obligation.
  intros n c p [σ f] k Hat Hk Hpos bs. pose proof (fs_file_bytes _ _ _ _ Hat) as [_ Hlen]. destruct Hat as (N & i & Hinv & Hof & Hp). cbn [fst snd] in *.
  destruct (inode_read_at_ok N n σ (f_inode f) i c k (f_pos f)) as (σ' & E & Hinv' & _ & Hof' & _); [done|done|lia..|]. rewrite Hp in E. fold bs in E.
  exists (σ', File (f_inode f) (p + Z.of_nat (length bs)) (f_deny f)). split; [|by exists N, i].
  assert (length bs <= 4096)%nat by (unfold bs, window; rewrite length_take; lia).
  cbn. unfold file_read, mbind, st_bind. rewrite Hp, E. cbn. by rewrite s32_small by lia.
Qed.
End fs_file.
