(* ===== verification/Process.v ===== *)
(** * Child processes (src/userprog/process.c: process_wait, process_exit,
      start_process; src/userprog/syscall.c: exit, exec, get_child;
      src/threads/thread.c: create_child_process and thread_create's part)

    Parents and children share struct child_process records: a thread's
    child_processes lists the records of the children it created, a record
    points to the child's struct thread, and the semaphores sema_proc_exec
    and sema_proc_wait of the child wake a parent in exec and in wait.

    A thread and its record are named by the thread's tid.  A struct thread
    is in [live] until its page is freed; the page allocator fills a freed
    page with 0xcc, so a semaphore in it reads 0xcccccccc, and its list
    heads point to 0xcccccccc, beyond the memory of the machine: following
    them is a [Fault]. *)

From S2P Require Import Prelude Memory Wp Bitmap Pages.

(** ** Data *)

Definition CHILD_ALIVE : Z := 10.
Definition CHILD_KILLED : Z := -1.
Definition CHILD_EXITED : Z := 1.
Definition CHILD_NOT_EXITED : Z := 2.
Definition TID_ERROR : Z := -1.

Record child_process := Child {
  child_pid : Z;
  cur_status : Z;
  is_awaited : bool;
  is_loaded : bool;
  exit_status : Z;
  child_proc_thread : Z
}.

(** The fields of struct thread that processes use. *)
Record proc_thread := PThread {
  parent : option Z;
  child_processes : list Z;
  sema_proc_exec : Z;
  sema_proc_wait : Z
}.

Record world := World {
  live : gmap Z proc_thread;
  records : gmap Z child_process;
  next_tid : Z
}.

Definition with_live (l : gmap Z proc_thread) (w : world) : world := World l (records w) (next_tid w).
Definition with_records (r : gmap Z child_process) (w : world) : world := World (live w) r (next_tid w).

Definition get_thread (t : Z) : st world proc_thread := fun w => match live w !! t with Some p => Ok (p, w) | None => Err Fault end.
Definition set_thread (t : Z) (p : proc_thread) : st world unit := modify (fun w => with_live (<[t := p]> (live w)) w).
Definition get_record (r : Z) : st world child_process := fun w => match records w !! r with Some c => Ok (c, w) | None => Err Fault end.
Definition set_record (r : Z) (c : child_process) : st world unit := modify (fun w => with_records (<[r := c]> (records w)) w).

(** ** Operations *)

(** get_child over a list of records. *)
Fixpoint get_child (pid : Z) (l : list Z) : st world (option Z) :=
  match l with
  | [] => mret None
  | r :: l' => c ← get_record r; if child_pid c =? pid then mret (Some r) else get_child pid l'
  end.

(** list_remove of a record. *)
Fixpoint remove_record (r : Z) (l : list Z) : list Z := match l with [] => [] | x :: l' => if x =? r then l' else x :: remove_record r l' end.

(** A null pointer to a record is dereferenced by the code that uses it. *)
Definition the_child (r : option Z) : st world Z := match r with Some r => mret r | None => lift (Err Fault) end.

Definition create_child_process (t : Z) : st world unit :=
  set_record t (Child t CHILD_ALIVE false false CHILD_NOT_EXITED t).

(** thread_create by [cur], once the page is there. *)
Definition thread_create (cur : Z) : st world Z :=
  t ← gets next_tid;
  modify (fun w => World (live w) (records w) (t + 1)) ≫= fun _ =>
  set_thread t (PThread (Some cur) [] 0 0) ≫= fun _ =>
  create_child_process t ≫= fun _ =>
  p ← get_thread cur;
  set_thread cur (PThread (parent p) (child_processes p ++ [t]) (sema_proc_exec p) (sema_proc_wait p)) ≫= fun _ =>
  mret t.

Definition sema_up_exec (t : Z) : st world unit :=
  p ← get_thread t; set_thread t (PThread (parent p) (child_processes p) (sema_proc_exec p + 1) (sema_proc_wait p)).
Definition sema_up_wait (t : Z) : st world unit :=
  p ← get_thread t; set_thread t (PThread (parent p) (child_processes p) (sema_proc_exec p) (sema_proc_wait p + 1)).

(** The value of a semaphore in the struct thread of [t], and its decrement:
    in a freed page it changes nothing that is still used. *)
Definition freed_word : Z := 0xcccccccc.
Definition sema_value (f : proc_thread -> Z) (t : Z) (w : world) : Z := match live w !! t with Some p => f p | None => freed_word end.
Definition decrement (f : proc_thread -> proc_thread) (t : Z) : st world unit := modify (fun w => with_live (alter f t (live w)) w).

(** The child's side of start_process, after load. *)
Definition start_process (cur : Z) (success : bool) : st world unit :=
  p ← get_thread cur;
  match parent p with
  | None => mret tt
  | Some q =>
      pq ← get_thread q;
      r ← get_child cur (child_processes pq); r ← the_child r;
      c ← get_record r; set_record r (Child (child_pid c) (cur_status c) (is_awaited c) success (exit_status c) (child_proc_thread c))
  end ≫= fun _ => sema_up_exec cur.

(** exit, up to the call of thread_exit. *)
Definition exit_record (cur status : Z) : st world unit :=
  p ← get_thread cur;
  match parent p with
  | None => lift (Err Fault)
  | Some q =>
      pq ← get_thread q;
      r ← get_child cur (child_processes pq); r ← the_child r;
      c ← get_record r;
      set_record r (Child (child_pid c) (if status =? -1 then CHILD_KILLED else CHILD_EXITED) (is_awaited c) (is_loaded c) status (child_proc_thread c))
  end.

(** process_exit, up to the page directory. *)
Definition report_exit (cur : Z) : st world unit :=
  p ← get_thread cur;
  match parent p with
  | None => mret tt
  | Some q =>
      pq ← get_thread q;
      r ← get_child cur (child_processes pq); r ← the_child r;
      set_thread q (PThread (parent pq) (remove_record r (child_processes pq)) (sema_proc_exec pq) (sema_proc_wait pq)) ≫= fun _ =>
      c ← get_record r;
      (if cur_status c =? CHILD_ALIVE
       then set_record r (Child (child_pid c) CHILD_KILLED (is_awaited c) (is_loaded c) (-1) (child_proc_thread c)) else mret tt)
  end ≫= fun _ => sema_up_wait cur.

(** The rest of process_exit: the page directory [pd] of the thread. *)
Definition release_pagedir (pd : Z) : st machine unit :=
  if pd =? NULL then mret tt else pagedir_activate NULL ≫= fun _ => pagedir_destroy pd.

(** The page of a dead thread is freed by the next one that runs, unless
    it is the initial thread's. *)
Definition initial_tid : Z := 1.
Definition reap (cur : Z) : st world unit := modify (fun w => with_live (delete cur (live w)) w).

(** process_wait up to the sema_down: the value it returns, or the record of
    the child it waits for; and after it. *)
Definition process_wait (cur child_tid : Z) : st world (Z + Z) :=
  p ← get_thread cur;
  r ← get_child child_tid (child_processes p);
  match r with
  | None => mret (inl (-1))
  | Some r =>
      c ← get_record r;
      if negb (is_awaited c) then
        set_record r (Child (child_pid c) (cur_status c) true (is_loaded c) (exit_status c) (child_proc_thread c)) ≫= fun _ =>
        mret (if cur_status c =? CHILD_ALIVE then inr r else inl (exit_status c))
      else mret (inl (-1))
  end.

Definition can_wake (f : proc_thread -> Z) (r : Z) (w : world) : bool :=
  match records w !! r with Some c => negb (sema_value f (child_proc_thread c) w =? 0) | None => false end.

Definition wait_finish (r : Z) : st world Z :=
  c ← get_record r;
  decrement (fun p => PThread (parent p) (child_processes p) (sema_proc_exec p) (sema_proc_wait p - 1)) (child_proc_thread c) ≫= fun _ =>
  c ← get_record r; mret (exit_status c).

(** exec: process_execute is [thread_create]; the record is looked up
    before the sema_down, and read after it. *)
Definition exec_find (cur pid : Z) : st world Z :=
  p ← get_thread cur; r ← get_child pid (child_processes p); the_child r.
Definition exec_finish (r : Z) : st world Z :=
  c ← get_record r;
  decrement (fun p => PThread (parent p) (child_processes p) (sema_proc_exec p - 1) (sema_proc_wait p)) (child_proc_thread c) ≫= fun _ =>
  c ← get_record r; mret (if is_loaded c then child_pid c else -1).

(** ** The system

    What a thread is about to do: load its program, run, sleep in wait,
    look a new child's record up in exec, sleep in exec until the program of
    the child is loaded, call process_exit after exit or because it is
    killed, or be gone after process_exit. *)
Inductive phase := Starting | Running | Waiting (r : Z) | Execing (pid : Z) | Loading (r : Z) | Exiting | Reported.
#[global] Instance phase_eq_dec : EqDecision phase.
Proof. solve_decision. Defined.

Record psys := PSys { wd : world; ph : gmap Z phase }.

(** A process that neither exits nor has failed to load can be killed: the
    exception handler calls thread_exit in it. *)
Inductive step : psys -> psys -> Prop :=
| step_create cur t w w' h : h !! cur = Some Running -> thread_create cur w = Ok (t, w') -> step (PSys w h) (PSys w' (<[t := Starting]> h))
| step_start cur ok w w' h : h !! cur = Some Starting -> start_process cur ok w = Ok (tt, w') ->
    step (PSys w h) (PSys w' (<[cur := if ok : bool then Running else Exiting]> h))
| step_exit cur status w w' h : h !! cur = Some Running -> exit_record cur status w = Ok (tt, w') -> step (PSys w h) (PSys w' (<[cur := Exiting]> h))
| step_killed cur w h : h !! cur = Some Running -> step (PSys w h) (PSys w (<[cur := Exiting]> h))
| step_report cur w w' h : h !! cur = Some Exiting -> report_exit cur w = Ok (tt, w') -> step (PSys w h) (PSys w' (<[cur := Reported]> h))
| step_reap cur w w' h : cur <> initial_tid -> h !! cur = Some Reported -> reap cur w = Ok (tt, w') -> step (PSys w h) (PSys w' (delete cur h))
| step_wait cur tid r w w' h : h !! cur = Some Running -> process_wait cur tid w = Ok (r, w') ->
    step (PSys w h) (PSys w' (<[cur := match r with inl _ => Running | inr r => Waiting r end]> h))
| step_wake cur r v w w' h : h !! cur = Some (Waiting r) -> can_wake sema_proc_wait r w = true -> wait_finish r w = Ok (v, w') ->
    step (PSys w h) (PSys w' (<[cur := Running]> h))
| step_exec cur t w w' h : h !! cur = Some Running -> thread_create cur w = Ok (t, w') -> step (PSys w h) (PSys w' (<[t := Starting]> (<[cur := Execing t]> h)))
| step_find cur pid r w h : h !! cur = Some (Execing pid) -> exec_find cur pid w = Ok (r, w) -> step (PSys w h) (PSys w (<[cur := Loading r]> h))
| step_loaded cur r v w w' h : h !! cur = Some (Loading r) -> can_wake sema_proc_exec r w = true -> exec_finish r w = Ok (v, w') ->
    step (PSys w h) (PSys w' (<[cur := Running]> h)).

(** One thread, the first, with no parent. *)
Definition first_process : psys := PSys (World {[ 1 := PThread None [] 0 0 ]} ∅ 2) {[ 1 := Running ]}.

Inductive reachable : psys -> Prop :=
| reach_first : reachable first_process
| reach_step s s' : reachable s -> step s s' -> reachable s'.
