(* ===== verification/ProcessLaws.v ===== *)
(** * Properties of child processes (src/userprog/process.c and
      src/userprog/syscall.c)

    An invariant of the threads, their records and the semaphores, kept by
    every step: as long as its parent lives, a child finds its record, and
    a parent that sleeps in wait is woken and gets the status.  Then what
    happens without these conditions. *)

From S2P Require Import Prelude Memory Wp Bitmap Pages Process.

Section inv.
Implicit Types (w : world) (h : gmap Z phase) (t q r : Z).

(** A thread that has not called exit. *)
Definition at_work (f : phase) : Prop := f <> Exiting /\ f <> Reported.

(** The records, whatever the threads do. *)
Record recs_ok w h : Prop := {
  ro_ids : forall r c, records w !! r = Some c -> child_pid c = r /\ child_proc_thread c = r /\ r < next_tid w;
  ro_alive : forall t f c, h !! t = Some f -> at_work f -> records w !! t = Some c -> cur_status c = CHILD_ALIVE;
  ro_waiting : forall cur r, h !! cur = Some (Waiting r) -> exists c, records w !! r = Some c /\ is_awaited c = true;
  ro_one : forall a b r, h !! a = Some (Waiting r) -> h !! b = Some (Waiting r) -> a = b
}.

(** The threads: [live] without the semaphores is a tree. *)
Record tree_ok w h : Prop := {
  to_dom : forall t, is_Some (live w !! t) <-> is_Some (h !! t);
  to_next : forall t p, live w !! t = Some p -> t < next_tid w;
  to_child : forall q p r, live w !! q = Some p -> r ∈ child_processes p -> exists p' f, live w !! r = Some p' /\ parent p' = Some q /\ h !! r = Some f /\ f <> Reported;
  to_nodup : forall q p, live w !! q = Some p -> NoDup (child_processes p);
  to_parent : forall t p q p' f, live w !! t = Some p -> parent p = Some q -> live w !! q = Some p' -> h !! t = Some f -> f <> Reported -> t ∈ child_processes p';
  to_rec : forall t p q, live w !! t = Some p -> parent p = Some q -> q < t /\ is_Some (records w !! t)
}.

(** The semaphore a parent waits on: up exactly once. *)
Definition semas_ok w h : Prop := forall t p f, live w !! t = Some p -> h !! t = Some f ->
  (f <> Reported -> sema_proc_wait p = 0) /\ (f = Reported -> (exists cur, h !! cur = Some (Waiting t)) -> sema_proc_wait p = 1).

Record pinv (s : psys) : Prop := { pi_recs : recs_ok (wd s) (ph s); pi_tree : tree_ok (wd s) (ph s); pi_semas : semas_ok (wd s) (ph s) }.

(** ** The operations, on a state that satisfies the invariant *)

Lemma get_child_ok w h t l : recs_ok w h -> (forall r, r ∈ l -> is_Some (records w !! r)) -> get_child t l w = Ok (if bool_decide (t ∈ l) then Some t else None, w).
Proof.
  intros Hr. induction l as [|r l IH]; intros Hl; [done|]. cbn [get_child]. destruct (Hl r) as [c Hc]; [by left|]. unfold mbind, st_bind, get_record. rewrite Hc.
  destruct (ro_ids _ _ Hr _ _ Hc) as (-> & _ & _). destruct (Z.eqb_spec r t) as [->|Hne].
  - rewrite bool_decide_eq_true_2 by (by left). done.
  - rewrite IH by (intros r' Hr'; apply Hl; by right). assert (bool_decide (t ∈ r :: l) = bool_decide (t ∈ l)) as -> by (apply bool_decide_ext; rewrite elem_of_cons; naive_solver). done.
Qed.

Lemma children_recorded w h q p : tree_ok w h -> live w !! q = Some p -> forall r, r ∈ child_processes p -> is_Some (records w !! r).
Proof. intros Ht Hq r Hr. destruct (to_child _ _ Ht _ _ _ Hq Hr) as (p' & f & Hl & Hp & _). by apply (to_rec _ _ Ht _ _ _ Hl Hp). Qed.

Lemma get_own_child w h t q p' : recs_ok w h -> tree_ok w h -> live w !! q = Some p' -> t ∈ child_processes p' -> get_child t (child_processes p') w = Ok (Some t, w).
Proof. intros Hr Ht Hq Hin. rewrite (get_child_ok w h) by (done || by eapply children_recorded). by rewrite bool_decide_eq_true_2. Qed.

Lemma remove_record_elem t l x : NoDup l -> x ∈ remove_record t l <-> x ∈ l /\ x <> t.
Proof.
  induction l as [|y l IH]; intros Hn; [cbn; rewrite elem_of_nil; tauto|]. apply list.NoDup_cons in Hn as [Hy Hn]. cbn [remove_record]. rewrite elem_of_cons.
  destruct (Z.eqb_spec y t) as [->|Hne]; [split; [intros Hx; split; [by right|by intros ->]|intros [[->|?] ?]; done]|]. rewrite elem_of_cons, (IH Hn). naive_solver.
Qed.
Lemma remove_record_nodup t l : NoDup l -> NoDup (remove_record t l).
Proof.
  induction l as [|y l IH]; intros Hn; [done|]. pose proof Hn as Hn0. apply list.NoDup_cons in Hn as [Hy Hn]. cbn [remove_record]. destruct (y =? t); [done|].
  apply list.NoDup_cons. split; [|by apply IH]. rewrite remove_record_elem by done. tauto.
Qed.

(** ** Changes the tree does not see *)

Definition shape (l : gmap Z proc_thread) t : option (option Z * list Z) := (fun p => (parent p, child_processes p)) <$> l !! t.
Definition mark h t : option bool := (fun f => bool_decide (f = Reported)) <$> h !! t.

Lemma shape_some l t p : l !! t = Some p -> shape l t = Some (parent p, child_processes p).
Proof. unfold shape. by intros ->. Qed.
Lemma shape_inv l t a b : shape l t = Some (a, b) -> exists p, l !! t = Some p /\ parent p = a /\ child_processes p = b.
Proof. unfold shape. destruct (l !! t) as [p|]; [|done]. intros [= <- <-]. eauto. Qed.
Lemma mark_some h t f : h !! t = Some f -> mark h t = Some (bool_decide (f = Reported)).
Proof. unfold mark. by intros ->. Qed.
Lemma mark_inv h t b : mark h t = Some b -> exists f, h !! t = Some f /\ (f = Reported <-> b = true).
Proof. unfold mark. destruct (h !! t) as [f|]; [|done]. intros [= <-]. exists f. split; [done|]. symmetry. apply bool_decide_eq_true. Qed.

(** The same tree seen through the other state. *)
Lemma same_thread l l' t p : (forall t, shape l' t = shape l t) -> l' !! t = Some p -> exists p0, l !! t = Some p0 /\ parent p = parent p0 /\ child_processes p = child_processes p0.
Proof. intros E Hp. pose proof (shape_some _ _ _ Hp) as Hs. rewrite E in Hs. apply shape_inv in Hs as (p0 & H1 & H2 & H3). eauto. Qed.
Lemma same_phase h h' t f : (forall t, mark h' t = mark h t) -> h' !! t = Some f -> exists f0, h !! t = Some f0 /\ (f = Reported <-> f0 = Reported).
Proof.
  intros E Hf. pose proof (mark_some _ _ _ Hf) as Hs. rewrite E in Hs. apply mark_inv in Hs as (f0 & H1 & H2). exists f0. split; [done|]. rewrite H2. by rewrite bool_decide_eq_true.
Qed.

Lemma tree_frame w h w' h' : tree_ok w h -> (forall t, shape (live w') t = shape (live w) t) -> (forall t, mark h' t = mark h t) ->
  (forall t, is_Some (records w !! t) -> is_Some (records w' !! t)) -> next_tid w' = next_tid w -> tree_ok w' h'.
Proof.
  intros [T1 T2 T3 T4 T5 T6] Es Em Hr En.
  assert (forall t p, live w !! t = Some p -> exists p', live w' !! t = Some p' /\ parent p = parent p' /\ child_processes p = child_processes p') as Hfw by (intros t p; apply same_thread; auto).
  assert (forall t f, h !! t = Some f -> exists f', h' !! t = Some f' /\ (f = Reported <-> f' = Reported)) as Hfh by (intros t f; apply same_phase; auto).
  split.
  - intros t. transitivity (is_Some (shape (live w) t)); [rewrite <- Es; unfold shape; by rewrite fmap_is_Some|]. transitivity (is_Some (mark h t)); [unfold shape, mark; by rewrite !fmap_is_Some|].
    rewrite <- Em. unfold mark. by rewrite fmap_is_Some.
  - intros t p Hp. destruct (same_thread _ _ _ _ Es Hp) as (p0 & H1 & _). rewrite En. by eapply T2.
  - intros q p r Hq Hin. destruct (same_thread _ _ _ _ Es Hq) as (p0 & H1 & _ & Ec). rewrite Ec in Hin. destruct (T3 _ _ _ H1 Hin) as (p1 & f & H2 & H3 & H4 & H5).
    destruct (Hfw _ _ H2) as (p2 & H6 & E6 & _), (Hfh _ _ H4) as (f' & H7 & E7). exists p2, f'. rewrite <- E6. tauto.
  - intros q p Hq. destruct (same_thread _ _ _ _ Es Hq) as (p0 & H1 & _ & ->). by eapply T4.
  - intros t p q p' f Ht Hp Hq Hf Hne. destruct (same_thread _ _ _ _ Es Ht) as (p0 & H1 & E1 & _), (same_thread _ _ _ _ Es Hq) as (p1 & H2 & _ & ->), (same_phase _ _ _ _ Em Hf) as (f0 & H3 & E3).
    apply (T5 t p0 q p1 f0); [done|congruence|done|done|tauto].
  - intros t p q Ht Hp. destruct (same_thread _ _ _ _ Es Ht) as (p0 & H1 & E1 & _). destruct (T6 _ _ q H1) as [? ?]; [congruence|]. eauto.
Qed.

(** A thread other than a reported one changes its phase. *)
Lemma mark_set h t f f' : h !! t = Some f -> f <> Reported -> f' <> Reported -> forall x, mark (<[t := f']> h) x = mark h x.
Proof.
  intros Hf Hn Hn' x. unfold mark. destruct (decide (x = t)) as [->|Hx]; [rewrite lookup_insert_eq, Hf; cbn; by rewrite !bool_decide_eq_false_2|by rewrite lookup_insert_ne].
Qed.
Lemma shape_set l t p p' : l !! t = Some p -> parent p' = parent p -> child_processes p' = child_processes p -> forall x, shape (<[t := p']> l) x = shape l x.
Proof. intros Hp E1 E2 x. unfold shape. destruct (decide (x = t)) as [->|Hx]; [rewrite lookup_insert_eq, Hp; cbn; by rewrite E1, E2|by rewrite lookup_insert_ne]. Qed.
Lemma shape_alter l t g : (forall p, parent (g p) = parent p /\ child_processes (g p) = child_processes p) -> forall x, shape (alter g t l) x = shape l x.
Proof.
  intros Hg x. unfold shape. destruct (decide (x = t)) as [->|Hx]; [rewrite lookup_alter_eq|by rewrite lookup_alter_ne]. destruct (l !! t) as [p|]; [|done]. cbn. destruct (Hg p) as [-> ->]. done.
Qed.
Lemma some_set {A} (m : gmap Z A) t a x : is_Some (m !! x) -> is_Some (<[t := a]> m !! x).
Proof. intros Hx. destruct (decide (x = t)) as [->|Hn]; [rewrite lookup_insert_eq; eauto|by rewrite lookup_insert_ne]. Qed.

(** ** Changes the records do not see *)

Lemma recs_live w w' h : recs_ok w h -> records w' = records w -> next_tid w' = next_tid w -> recs_ok w' h.
Proof. intros [R1 R2 R3 R4] E1 E2. split; rewrite ?E1, ?E2; done. Qed.

Lemma recs_phase w h cur f f' : recs_ok w h -> h !! cur = Some f -> (at_work f' -> at_work f) -> (forall r, f' <> Waiting r) -> recs_ok w (<[cur := f']> h).
Proof.
  intros [R1 R2 R3 R4] Hf Hw Hn. split; [done|..].
  - intros t g c Hg Hat Hc. apply lookup_insert_Some in Hg as [[<- <-]|[_ Hg]]; [eapply R2; [exact Hf|by apply Hw|done]|by eapply R2].
  - intros a r Ha. apply lookup_insert_Some in Ha as [[<- E]|[_ Ha]]; [by apply Hn in E|by eapply R3].
  - intros a b r Ha Hb. apply lookup_insert_Some in Ha as [[<- E]|[_ Ha]]; [by apply Hn in E|]. apply lookup_insert_Some in Hb as [[<- E]|[_ Hb]]; [by apply Hn in E|]. by eapply R4.
Qed.

Lemma recs_record w h r c c' : recs_ok w h -> records w !! r = Some c -> child_pid c' = child_pid c -> child_proc_thread c' = child_proc_thread c ->
  (is_awaited c = true -> is_awaited c' = true) -> (forall f, h !! r = Some f -> at_work f -> cur_status c' = CHILD_ALIVE) ->
  recs_ok (with_records (<[r := c']> (records w)) w) h.
Proof.
  intros [R1 R2 R3 R4] Hc E1 E2 Ha Hs. split; cbn [with_records records next_tid]; [..|done].
  - intros x d Hd. apply lookup_insert_Some in Hd as [[<- <-]|[_ Hd]]; [|by apply R1]. rewrite E1, E2. by apply R1.
  - intros t f d Hf Hat Hd. apply lookup_insert_Some in Hd as [[<- <-]|[_ Hd]]; [by eapply Hs|by eapply R2].
  - intros a x Hx. destruct (R3 a x Hx) as (d & Hd & Haw). destruct (decide (x = r)) as [->|Hne]; [exists c'; rewrite lookup_insert_eq; split; [done|]; apply Ha; congruence|].
    exists d. by rewrite lookup_insert_ne.
Qed.

Lemma recs_wait w h cur r c c' : recs_ok w h -> h !! cur = Some Running -> records w !! r = Some c -> is_awaited c = false ->
  c' = Child (child_pid c) (cur_status c) true (is_loaded c) (exit_status c) (child_proc_thread c) ->
  recs_ok (with_records (<[r := c']> (records w)) w) (<[cur := Waiting r]> h).
Proof.
  intros Hr Hcur Hc Hna ->. assert (forall a, h !! a <> Some (Waiting r)) as Hnone by (intros a Ha; destruct (ro_waiting _ _ Hr _ _ Ha) as (d & Hd & Haw); congruence).
  destruct Hr as [R1 R2 R3 R4]. split; cbn [with_records records next_tid].
  - intros x d Hd. apply lookup_insert_Some in Hd as [[<- <-]|[_ Hd]]; [|by apply R1]. cbn. by apply R1.
  - intros t f d Hf Hat Hd. assert (exists g, h !! t = Some g /\ at_work g) as (g & Hg & Hgw).
    { apply lookup_insert_Some in Hf as [[<- <-]|[_ Hf]]; [exists Running; split; [done|by split]|eauto]. }
    apply lookup_insert_Some in Hd as [[<- <-]|[_ Hd]]; [cbn; by eapply R2|by eapply R2].
  - intros a x Hx. apply lookup_insert_Some in Hx as [[<- [= <-]]|[_ Hx]]; [eexists; by rewrite lookup_insert_eq|].
    destruct (R3 a x Hx) as (d & Hd & Haw). assert (x <> r) by congruence. exists d. by rewrite lookup_insert_ne.
  - intros a b x Ha Hb. apply lookup_insert_Some in Ha as [[<- [= <-]]|[_ Ha]], Hb as [[<- E]|[_ Hb]]; [done|by apply Hnone in Hb|injection E as <-; by apply Hnone in Ha|by eapply R4].
Qed.

Lemma semas_frame w h w' h' : semas_ok w h -> (forall t p', live w' !! t = Some p' -> exists p, live w !! t = Some p /\ sema_proc_wait p' = sema_proc_wait p) ->
  (forall t, mark h' t = mark h t) -> (forall cur t, h' !! cur = Some (Waiting t) -> h !! cur = Some (Waiting t) \/ h !! t <> Some Reported) -> semas_ok w' h'.
Proof.
  intros Hs Hl Em Hw t p' f' Hp' Hf'. destruct (Hl _ _ Hp') as (p & Hp & ->). destruct (same_phase _ _ _ _ Em Hf') as (f & Hf & Ef). destruct (Hs t p f Hp Hf) as [S1 S2].
  split; [intros Hn; apply S1; tauto|]. intros Hr [cur Hcur]. apply S2; [tauto|]. destruct (Hw _ _ Hcur) as [Hc|Hc]; [eauto|]. exfalso. apply Hc. rewrite Hf. f_equal. tauto.
Qed.

Lemma wait_same h cur f : (forall r, f <> Waiting r) -> forall a t, <[cur := f]> h !! a = Some (Waiting t) -> h !! a = Some (Waiting t) \/ h !! t <> Some Reported.
Proof. intros Hn a t Ha. apply lookup_insert_Some in Ha as [[<- E]|[_ Ha]]; [by apply Hn in E|by left]. Qed.

Lemma sema_set (l : gmap Z proc_thread) t p p' : l !! t = Some p -> sema_proc_wait p' = sema_proc_wait p ->
  forall x y, <[t := p']> l !! x = Some y -> exists z, l !! x = Some z /\ sema_proc_wait y = sema_proc_wait z.
Proof. intros Hp E x y Hy. apply lookup_insert_Some in Hy as [[<- <-]|[_ Hy]]; eauto. Qed.

(** ** The calls of a child whose parent lives *)

(** [t] can reach its record through its parent [q]. *)
Record child_of w h t q (p p' : proc_thread) (c : child_process) : Prop := {
  co_live : live w !! t = Some p;
  co_parent : parent p = Some q;
  co_plive : live w !! q = Some p';
  co_in : t ∈ child_processes p';
  co_rec : records w !! t = Some c;
  co_find : get_child t (child_processes p') w = Ok (Some t, w)
}.

Lemma child_found w h t q p p' f : recs_ok w h -> tree_ok w h -> live w !! t = Some p -> parent p = Some q -> live w !! q = Some p' -> h !! t = Some f -> f <> Reported ->
  exists c, child_of w h t q p p' c.
Proof.
  intros Hr Ht Hp Hq Hp' Hf Hn. pose proof (to_parent _ _ Ht _ _ _ _ _ Hp Hq Hp' Hf Hn) as Hin. destruct (to_rec _ _ Ht _ _ _ Hp Hq) as [_ [c Hc]].
  exists c. split; try done. by eapply get_own_child.
Qed.

Definition loaded_record (c : child_process) (ok : bool) : child_process := Child (child_pid c) (cur_status c) (is_awaited c) ok (exit_status c) (child_proc_thread c).
Definition exited_record (c : child_process) (status : Z) : child_process :=
  Child (child_pid c) (if status =? -1 then CHILD_KILLED else CHILD_EXITED) (is_awaited c) (is_loaded c) status (child_proc_thread c).
Definition final_record (c : child_process) : child_process :=
  if cur_status c =? CHILD_ALIVE then Child (child_pid c) CHILD_KILLED (is_awaited c) (is_loaded c) (-1) (child_proc_thread c) else c.
Definition exec_up (p : proc_thread) : proc_thread := PThread (parent p) (child_processes p) (sema_proc_exec p + 1) (sema_proc_wait p).
Definition wait_up (p : proc_thread) : proc_thread := PThread (parent p) (child_processes p) (sema_proc_exec p) (sema_proc_wait p + 1).
Definition without_child t (p : proc_thread) : proc_thread := PThread (parent p) (remove_record t (child_processes p)) (sema_proc_exec p) (sema_proc_wait p).

Lemma start_ok w h t q p p' c ok : child_of w h t q p p' c ->
  start_process t ok w = Ok (tt, World (<[t := exec_up p]> (live w)) (<[t := loaded_record c ok]> (records w)) (next_tid w)).
Proof.
  intros [H1 H2 H3 H4 H5 H6]. unfold start_process, sema_up_exec, mbind, st_bind, get_thread, get_record, the_child, set_record, set_thread, modify, mret, st_ret.
  rewrite H1, H2, H3, H6, H5. cbv beta iota. cbn [live with_records]. by rewrite H1.
Qed.

Lemma exit_ok w h t q p p' c status : child_of w h t q p p' c -> exit_record t status w = Ok (tt, with_records (<[t := exited_record c status]> (records w)) w).
Proof.
  intros [H1 H2 H3 H4 H5 H6]. unfold exit_record, mbind, st_bind, get_thread, get_record, the_child, set_record, modify, mret, st_ret. by rewrite H1, H2, H3, H6, H5.
Qed.

Lemma report_ok w h t q p p' c : q <> t -> child_of w h t q p p' c ->
  report_exit t w = Ok (tt, World (<[t := wait_up p]> (<[q := without_child t p']> (live w))) (<[t := final_record c]> (records w)) (next_tid w)).
Proof.
  intros Hne [H1 H2 H3 H4 H5 H6]. unfold report_exit, final_record, sema_up_wait, mbind, st_bind, get_thread, get_record, the_child, set_record, set_thread, modify, mret, st_ret.
  rewrite H1, H2, H3, H6. cbn [live records with_live]. rewrite H5. destruct (cur_status c =? CHILD_ALIVE); cbv beta iota; cbn [live records with_records with_live]; rewrite lookup_insert_ne, H1 by done; [done|].
  unfold with_live. cbn [live records next_tid]. by rewrite (insert_id (records w)).
Qed.

(** ** The invariant is kept *)

(** A change of phase alone. *)
Lemma pinv_phase w h cur f f' : pinv (PSys w h) -> h !! cur = Some f -> (at_work f' -> at_work f) -> f <> Reported -> f' <> Reported -> (forall r, f' <> Waiting r) ->
  pinv (PSys w (<[cur := f']> h)).
Proof.
  intros [Hr Ht Hs] Hf Hw Hn Hn' Hnw. split; cbn [wd ph] in *.
  - by eapply recs_phase.
  - eapply tree_frame; [exact Ht|done|by eapply mark_set|done|done].
  - eapply semas_frame; [exact Hs|eauto|by eapply mark_set|by apply wait_same].
Qed.

Lemma thread_of w h cur f : tree_ok w h -> h !! cur = Some f -> exists p, live w !! cur = Some p.
Proof. intros Ht Hf. apply (to_dom _ _ Ht). eauto. Qed.

(** An operation that reaches the parent's struct thread. *)
Lemma parent_lives {A} (k : proc_thread -> st world A) q w (x : A * world) : (get_thread q ≫= k) w = Ok x -> exists p', live w !! q = Some p'.
Proof. unfold get_thread, mbind, st_bind. destruct (live w !! q) as [p'|]; [eauto|done]. Qed.

Lemma pinv_start w w' h cur ok : pinv (PSys w h) -> h !! cur = Some Starting -> start_process cur ok w = Ok (tt, w') -> pinv (PSys w' (<[cur := if ok : bool then Running else Exiting]> h)).
Proof.
  intros Hi Hc E. assert (pinv (PSys w' h)) as Hi'.
  2:{ eapply pinv_phase; [exact Hi'|exact Hc|by split|done|by destruct ok|by destruct ok]. }
  destruct Hi as [Hr Ht Hs]. cbn [wd ph] in *. destruct (thread_of _ _ _ _ Ht Hc) as [p Hp]. destruct (parent p) as [q|] eqn:Hq.
  - assert (exists p', live w !! q = Some p') as [p' Hp'].
    { unfold start_process in E. apply st_bind_Ok in E as (x & w1 & E1 & E). unfold get_thread in E1. rewrite Hp in E1. injection E1 as <- <-. rewrite Hq in E.
      apply st_bind_Ok in E as ([] & w2 & E & _). by eapply parent_lives. }
    destruct (child_found w h cur q p p' Starting Hr Ht Hp Hq Hp' Hc) as [c Hco]; [done|]. rewrite (start_ok w h cur q p p' c ok Hco) in E. injection E as <-. destruct Hco as [_ _ _ _ Hrec _]. split; cbn [wd ph].
    + eapply recs_live; [eapply (recs_record w h cur c (loaded_record c ok)); try done|done|done]. intros f Hf _. cbn. apply (ro_alive _ _ Hr cur Starting); [done|by split|done].
    + eapply tree_frame; [exact Ht|cbn [live]; by eapply shape_set|done|cbn [records]; intros t; apply some_set|done].
    + eapply semas_frame; [exact Hs|cbn [live]; by eapply sema_set|done|by left].
  - unfold start_process, mbind, st_bind, get_thread in E. rewrite Hp, Hq in E. unfold sema_up_exec, mret, st_ret, mbind, st_bind, get_thread in E. rewrite Hp in E. injection E as <-. split; cbn [wd ph].
    + by eapply recs_live.
    + eapply tree_frame; [exact Ht|cbn [live]; by eapply shape_set|done|done|done].
    + eapply semas_frame; [exact Hs|cbn [live]; by eapply sema_set|done|by left].
Qed.

Lemma pinv_exit w w' h cur status : pinv (PSys w h) -> h !! cur = Some Running -> exit_record cur status w = Ok (tt, w') -> pinv (PSys w' (<[cur := Exiting]> h)).
Proof.
  intros Hi Hc E. pose proof (pinv_phase w h cur Running Exiting Hi Hc) as Hi'. destruct Hi' as [Hr' Ht' Hs']; try done. destruct Hi as [Hr Ht Hs]. cbn [wd ph] in *.
  destruct (thread_of _ _ _ _ Ht Hc) as [p Hp]. unfold exit_record in E. apply st_bind_Ok in E as (x & w1 & E1 & E). unfold get_thread in E1. rewrite Hp in E1. injection E1 as <- <-.
  destruct (parent p) as [q|] eqn:Hq; [|done]. destruct (parent_lives _ _ _ _ E) as [p' Hp'].
  destruct (child_found w h cur q p p' Running Hr Ht Hp Hq Hp' Hc) as [c Hco]; [done|]. pose proof (exit_ok w h cur q p p' c status Hco) as Eo.
  unfold exit_record, mbind at 1, st_bind at 1, get_thread at 1 in Eo. rewrite Hp, Hq in Eo. rewrite Eo in E. injection E as <-. destruct Hco as [_ _ _ _ Hrec _]. split; cbn [wd ph].
  - eapply recs_record; [exact Hr'|exact Hrec|done|done|done|]. rewrite lookup_insert_eq. intros f [= <-] [? _]. done.
  - eapply tree_frame; [exact Ht'|done|done|cbn [records with_records]; intros t; apply some_set|done].
  - eapply semas_frame; [exact Hs'|cbn [live with_records]; eauto|done|by left].
Qed.

(** process_exit: [t] leaves the children of its parent, if it has one. *)
Lemma tree_report w w' h t p : tree_ok w h -> live w !! t = Some p -> h !! t = Some Exiting ->
  (forall x y, live w' !! x = Some y -> exists z, live w !! x = Some z /\ parent y = parent z /\
     child_processes y = (if bool_decide (parent p = Some x) then remove_record t (child_processes z) else child_processes z)) ->
  (forall x, is_Some (live w !! x) -> is_Some (live w' !! x)) -> (forall x, is_Some (records w !! x) -> is_Some (records w' !! x)) -> next_tid w' = next_tid w ->
  tree_ok w' (<[t := Reported]> h).
Proof.
  intros [T1 T2 T3 T4 T5 T6] Hp Hf Hl Hd Hr En.
  assert (forall x y r, live w' !! x = Some y -> r ∈ child_processes y -> r <> t /\ exists z, live w !! x = Some z /\ r ∈ child_processes z) as Hsub.
  { intros x y r Hy Hin. destruct (Hl x y Hy) as (z & Hz & _ & Ec). rewrite Ec in Hin. case_bool_decide as Eq; [apply remove_record_elem in Hin as [? ?]; [eauto|by eapply T4]|].
    split; [|eauto]. intros ->. destruct (T3 _ _ _ Hz Hin) as (p2 & f & Hp2 & Hq & _). congruence. }
  split.
  - intros x. split.
    + intros [y Hy]. destruct (Hl x y Hy) as (z & Hz & _). apply some_set. apply T1. eauto.
    + intros [f Hx]. apply Hd. apply lookup_insert_Some in Hx as [[<- _]|[_ Hx]]; [eauto|]. apply T1. eauto.
  - intros x y Hy. destruct (Hl x y Hy) as (z & Hz & _). rewrite En. by eapply T2.
  - intros q y r Hq Hin. destruct (Hsub _ _ _ Hq Hin) as (Hne & z & Hz & Hin'). destruct (T3 _ _ _ Hz Hin') as (p2 & f & Hp2 & Hpar & Hf2 & Hn).
    destruct (Hd r ltac:(eauto)) as [y2 Hy2]. destruct (Hl _ _ Hy2) as (z2 & Hz2 & Ep & _). exists y2, f. split; [done|]. rewrite Ep, lookup_insert_ne by done. split; [congruence|done].
  - intros q y Hq. destruct (Hl q y Hq) as (z & Hz & _ & ->). case_bool_decide; [apply remove_record_nodup|]; by eapply T4.
  - intros x y q y' f Hx Hpar Hq Hfx Hn. apply lookup_insert_Some in Hfx as [[<- <-]|[Hxt Hfx]]; [done|].
    destruct (Hl _ _ Hx) as (z & Hz & Ez & _), (Hl _ _ Hq) as (z' & Hz' & _ & ->). assert (x ∈ child_processes z') as Hin by (apply (T5 x z q z' f); [done|congruence|done..]).
    case_bool_decide; [|done]. apply remove_record_elem; [by eapply T4|done].
  - intros x y q Hx Hpar. destruct (Hl _ _ Hx) as (z & Hz & Ez & _). destruct (T6 x z q Hz) as [? ?]; [congruence|]. eauto.
Qed.

Lemma semas_report w w' h t p : semas_ok w h -> live w !! t = Some p -> h !! t = Some Exiting ->
  (forall x y, live w' !! x = Some y -> exists z, live w !! x = Some z /\ sema_proc_wait y = sema_proc_wait z + if bool_decide (x = t) then 1 else 0) ->
  semas_ok w' (<[t := Reported]> h).
Proof.
  intros Hs Hp Hf Hl x y f Hy Hfx. destruct (Hl _ _ Hy) as (z & Hz & ->). apply lookup_insert_Some in Hfx as [[<- <-]|[Hne Hfx]].
  - rewrite bool_decide_eq_true_2 by done. split; [done|]. intros _ _. destruct (Hs t z Exiting Hz Hf) as [E _]. rewrite E by done. done.
  - rewrite bool_decide_eq_false_2, Z.add_0_r by done. destruct (Hs x z f Hz Hfx) as [S1 S2]. split; [done|]. intros Hr [a Ha]. apply S2; [done|].
    apply lookup_insert_Some in Ha as [[<- ?]|[_ Ha]]; [done|eauto].
Qed.

Lemma pinv_report w w' h cur : pinv (PSys w h) -> h !! cur = Some Exiting -> report_exit cur w = Ok (tt, w') -> pinv (PSys w' (<[cur := Reported]> h)).
Proof.
  intros [Hr Ht Hs] Hc E. cbn [wd ph] in *. destruct (thread_of _ _ _ _ Ht Hc) as [p Hp]. pose proof (recs_phase w h cur Exiting Reported Hr Hc) as Hr'.
  specialize (Hr' ltac:(by intros [])). specialize (Hr' ltac:(done)). destruct (parent p) as [q|] eqn:Hq.
  - assert (exists p', live w !! q = Some p') as [p' Hp'].
    { unfold report_exit in E. apply st_bind_Ok in E as (x & w1 & E1 & E). unfold get_thread in E1. rewrite Hp in E1. injection E1 as <- <-. rewrite Hq in E.
      apply st_bind_Ok in E as ([] & w2 & E & _). by eapply parent_lives. }
    destruct (to_rec _ _ Ht _ _ _ Hp Hq) as [Hqt%Z.lt_neq _]. destruct (child_found w h cur q p p' Exiting Hr Ht Hp Hq Hp' Hc) as [c Hco]; [done|].
    rewrite (report_ok w h cur q p p' c Hqt Hco) in E. injection E as <-. destruct Hco as [_ _ _ _ Hrec _].
    assert (forall x y, <[cur := wait_up p]> (<[q := without_child cur p']> (live w)) !! x = Some y -> exists z, live w !! x = Some z /\ parent y = parent z /\
      child_processes y = (if bool_decide (x = q) then remove_record cur (child_processes z) else child_processes z) /\ sema_proc_wait y = sema_proc_wait z + if bool_decide (x = cur) then 1 else 0) as Hl.
    { intros x y Hy. apply lookup_insert_Some in Hy as [[<- <-]|[Hxc Hy]].
      - exists p. rewrite (bool_decide_eq_false_2 (cur = q)), (bool_decide_eq_true_2 (cur = cur)) by congruence. done.
      - rewrite (bool_decide_eq_false_2 (x = cur)) by done. apply lookup_insert_Some in Hy as [[<- <-]|[Hxq Hy]].
        + exists p'. rewrite bool_decide_eq_true_2, Z.add_0_r by done. done.
        + exists y. rewrite bool_decide_eq_false_2, Z.add_0_r by done. done. }
    split; cbn [wd ph].
    + eapply recs_live; [eapply (recs_record w _ cur c (final_record c) Hr' Hrec); unfold final_record; try by destruct (_ =? _)|done|done]. rewrite lookup_insert_eq. intros f [= <-] [_ ?]. done.
    + eapply tree_report; [exact Ht|exact Hp|exact Hc|..]; cbn [live records next_tid]; [|intros; by repeat apply some_set|intros; by apply some_set|done].
      intros x y Hy. destruct (Hl x y Hy) as (z & Hz & E1 & E2 & _). exists z. split_and!; [done..|]. rewrite E2, Hq. f_equal. assert (bool_decide (x = q) = bool_decide (Some q = Some x)) as -> by (apply bool_decide_ext; naive_solver). done.
    + eapply semas_report; [exact Hs|exact Hp|exact Hc|]. intros x y Hy. destruct (Hl x y Hy) as (z & Hz & _ & _ & E). eauto.
  - unfold report_exit, mbind, st_bind, get_thread in E. rewrite Hp, Hq in E. unfold sema_up_wait, mret, st_ret, mbind, st_bind, get_thread in E. rewrite Hp in E. injection E as <-.
    assert (forall x y, <[cur := wait_up p]> (live w) !! x = Some y -> exists z, live w !! x = Some z /\ parent y = parent z /\ child_processes y = child_processes z /\
      sema_proc_wait y = sema_proc_wait z + if bool_decide (x = cur) then 1 else 0) as Hl.
    { intros x y Hy. apply lookup_insert_Some in Hy as [[<- <-]|[Hxc Hy]]; [exists p; by rewrite bool_decide_eq_true_2|exists y; by rewrite bool_decide_eq_false_2, Z.add_0_r]. }
    split; cbn [wd ph].
    + by eapply recs_live.
    + eapply tree_report; [exact Ht|exact Hp|exact Hc|..]; cbn [live records next_tid]; [|intros; by apply some_set|done|done].
      intros x y Hy. destruct (Hl x y Hy) as (z & Hz & E1 & E2 & _). exists z. split_and!; [done..|]. by rewrite E2, Hq.
    + eapply semas_report; [exact Hs|exact Hp|exact Hc|]. intros x y Hy. destruct (Hl x y Hy) as (z & Hz & _ & _ & E). eauto.
Qed.

Lemma pinv_reap w h cur : pinv (PSys w h) -> h !! cur = Some Reported -> pinv (PSys (with_live (delete cur (live w)) w) (delete cur h)).
Proof.
  intros [[R1 R2 R3 R4] [T1 T2 T3 T4 T5 T6] Hs] Hc. cbn [wd ph] in *. split; cbn [wd ph]; [split|split|]; cbn [live records next_tid with_live].
  - done.
  - intros t f c Hf. apply lookup_delete_Some in Hf as [_ Hf]. by eapply R2.
  - intros a r Ha. apply lookup_delete_Some in Ha as [_ Ha]. by eapply R3.
  - intros a b r Ha Hb. apply lookup_delete_Some in Ha as [_ Ha], Hb as [_ Hb]. by eapply R4.
  - intros t. destruct (decide (t = cur)) as [->|Hn]; [rewrite !lookup_delete_eq; by split; intros []|rewrite !lookup_delete_ne by done; apply T1].
  - intros t p Hp. apply lookup_delete_Some in Hp as [_ Hp]. by eapply T2.
  - intros q p r Hq Hin. apply lookup_delete_Some in Hq as [_ Hq]. destruct (T3 _ _ _ Hq Hin) as (p' & f & H1 & H2 & H3 & H4). assert (r <> cur) by congruence.
    exists p', f. by rewrite !lookup_delete_ne.
  - intros q p Hq. apply lookup_delete_Some in Hq as [_ Hq]. by eapply T4.
  - intros t p q p' f Ht Hp Hq Hf. apply lookup_delete_Some in Ht as [_ Ht], Hq as [_ Hq], Hf as [_ Hf]. by eapply T5.
  - intros t p q Ht. apply lookup_delete_Some in Ht as [_ Ht]. by eapply T6.
  - intros t p f Hp Hf. cbn [live with_live] in Hp. apply lookup_delete_Some in Hp as [_ Hp], Hf as [_ Hf]. destruct (Hs t p f Hp Hf) as [S1 S2]. split; [done|].
    intros Hr [a Ha]. apply S2; [done|]. apply lookup_delete_Some in Ha as [_ Ha]. eauto.
Qed.

(** thread_create by a live thread. *)
Definition with_child t (p : proc_thread) : proc_thread := PThread (parent p) (child_processes p ++ [t]) (sema_proc_exec p) (sema_proc_wait p).
Definition new_child t : child_process := Child t CHILD_ALIVE false false CHILD_NOT_EXITED t.
Definition created w cur (p : proc_thread) : world :=
  let t := next_tid w in World (<[cur := with_child t p]> (<[t := PThread (Some cur) [] 0 0]> (live w))) (<[t := new_child t]> (records w)) (t + 1).

Lemma create_ok w h cur p : tree_ok w h -> live w !! cur = Some p -> thread_create cur w = Ok (next_tid w, created w cur p).
Proof.
  intros Ht Hp. pose proof (to_next _ _ Ht _ _ Hp). unfold thread_create, create_child_process, mbind, st_bind, gets, get_thread, set_thread, set_record, modify, mret, st_ret.
  cbn [live records next_tid with_live with_records]. rewrite lookup_insert_ne, Hp by lia. done.
Qed.

(** The thread [t] to come is not there yet. *)
Lemma next_fresh w h : recs_ok w h -> tree_ok w h -> live w !! next_tid w = None /\ h !! next_tid w = None /\ records w !! next_tid w = None.
Proof.
  intros Hr Ht. assert (live w !! next_tid w = None) as Hl by (destruct (live w !! next_tid w) as [x|] eqn:Hx; [apply (to_next _ _ Ht) in Hx; lia|done]). split_and!; [done|..].
  - destruct (h !! next_tid w) as [x|] eqn:Hx; [destruct (proj2 (to_dom _ _ Ht (next_tid w))) as [y Hy]; [eauto|congruence]|done].
  - destruct (records w !! next_tid w) as [x|] eqn:Hx; [apply (ro_ids _ _ Hr) in Hx as (_ & _ & ?); lia|done].
Qed.

Lemma created_view w h cur p x y : recs_ok w h -> tree_ok w h -> live w !! cur = Some p -> live (created w cur p) !! x = Some y ->
  (x = next_tid w /\ y = PThread (Some cur) [] 0 0) \/
  (x <> next_tid w /\ exists z, live w !! x = Some z /\ parent y = parent z /\ sema_proc_wait y = sema_proc_wait z /\ child_processes y = child_processes z ++ if bool_decide (x = cur) then [next_tid w] else []).
Proof.
  intros Hr Ht Hp Hy. destruct (next_fresh w h Hr Ht) as (Hlt & _ & _). cbn [created live] in Hy.
  apply lookup_insert_Some in Hy as [[<- <-]|[Hx Hy]]; [right; split; [congruence|]; exists p; by rewrite bool_decide_eq_true_2|].
  apply lookup_insert_Some in Hy as [[<- <-]|[Hx' Hy]]; [by left|]. right. split; [done|]. exists y. rewrite bool_decide_eq_false_2, app_nil_r by done. done.
Qed.

Lemma recs_create w h cur p : recs_ok w h -> tree_ok w h -> live w !! cur = Some p -> recs_ok (created w cur p) (<[next_tid w := Starting]> h).
Proof.
  intros Hr Ht Hp. destruct (next_fresh w h Hr Ht) as (_ & _ & Hrt). destruct Hr as [R1 R2 R3 R4]. split; cbn [created records next_tid].
  - intros r c Hrc. apply lookup_insert_Some in Hrc as [[<- <-]|[_ Hrc]]; [split_and!; [done..|lia]|]. destruct (R1 _ _ Hrc) as (? & ? & ?). split_and!; [done..|lia].
  - intros x g c Hg Hw Hrc. apply lookup_insert_Some in Hg as [[<- <-]|[Hx Hg]]; [rewrite lookup_insert_eq in Hrc; by injection Hrc as <-|]. rewrite lookup_insert_ne in Hrc by done. by eapply R2.
  - intros a r Ha. apply lookup_insert_Some in Ha as [[<- ?]|[_ Ha]]; [done|]. destruct (R3 _ _ Ha) as (c & Hrc & ?). exists c. rewrite lookup_insert_ne by congruence. done.
  - intros a b r Ha Hb. apply lookup_insert_Some in Ha as [[<- ?]|[_ Ha]]; [done|]. apply lookup_insert_Some in Hb as [[<- ?]|[_ Hb]]; [done|]. by eapply R4.
Qed.

Lemma tree_create w h cur p : recs_ok w h -> tree_ok w h -> live w !! cur = Some p -> tree_ok (created w cur p) (<[next_tid w := Starting]> h).
Proof.
  intros Hr Ht Hp. destruct (next_fresh w h Hr Ht) as (Hlt & Hht & _). pose proof (fun x y => created_view w h cur p x y Hr Ht Hp) as Hl. destruct Ht as [T1 T2 T3 T4 T5 T6]. set (t := next_tid w) in *.
  assert (cur <> t) as Hct by congruence. assert (forall x, is_Some (live w !! x) -> is_Some (live (created w cur p) !! x)) as Hd by (intros x Hx; cbn [created live]; by repeat apply some_set).
  split.
  - intros x. destruct (decide (x = t)) as [->|Hx].
    + cbn [created live]. fold t. rewrite lookup_insert_ne, !lookup_insert_eq by done. split; eauto.
    + rewrite lookup_insert_ne by done. rewrite <- T1. split; [|apply Hd]. intros [y Hy]. destruct (Hl _ _ Hy) as [[? _]|(_ & z & Hz & _)]; [done|eauto].
  - intros x y Hy. cbn [created next_tid]. destruct (Hl _ _ Hy) as [[-> _]|(_ & z & Hz & _)]; [lia|]. apply T2 in Hz. lia.
  - intros q y r Hq Hin. destruct (Hl _ _ Hq) as [[-> ->]|(Hqt & z & Hz & _ & _ & Ec)]; [by apply elem_of_nil in Hin|]. rewrite Ec in Hin. apply elem_of_app in Hin as [Hin|Hin].
    + destruct (T3 _ _ _ Hz Hin) as (p' & g & H1 & H2 & H3 & H4). destruct (Hd r ltac:(eauto)) as [y2 Hy2]. destruct (Hl _ _ Hy2) as [[-> _]|(Hrt' & z2 & Hz2 & Ep & _)]; [congruence|].
      exists y2, g. split; [done|]. rewrite Ep, lookup_insert_ne by done. split; [congruence|done].
    + case_bool_decide as Eq; [|by apply elem_of_nil in Hin]. apply list_elem_of_singleton in Hin as ->. subst q. eexists _, Starting. split; [cbn [created live]; rewrite lookup_insert_ne by done; apply lookup_insert_eq|].
      by rewrite lookup_insert_eq.
  - intros q y Hq. destruct (Hl _ _ Hq) as [[-> ->]|(Hqt & z & Hz & _ & _ & ->)]; [constructor|]. apply list.NoDup_app. split_and!; [by eapply T4| |case_bool_decide; [apply NoDup_singleton|constructor]].
    intros x Hx. case_bool_decide; [|apply not_elem_of_nil]. intros ->%list_elem_of_singleton. destruct (T3 _ _ _ Hz Hx) as (? & ? & H1 & _). congruence.
  - intros x y q y' g Hx Hpar Hq Hg Hng. destruct (Hl _ _ Hq) as [[-> ->]|(Hqt & z' & Hz' & _ & _ & Ec)].
    + destruct (Hl _ _ Hx) as [[-> ->]|(_ & z & Hz & Ep & _)]; [injection Hpar as E; congruence|]. exfalso. destruct (T6 x z t Hz) as [Hlt' _]; [congruence|]. apply T2 in Hz. fold t in Hz. lia.
    + rewrite Ec. apply elem_of_app. destruct (Hl _ _ Hx) as [[-> ->]|(Hxt & z & Hz & Ep & _)].
      * right. injection Hpar as <-. rewrite bool_decide_eq_true_2 by done. by apply list_elem_of_singleton.
      * left. rewrite lookup_insert_ne in Hg by done. apply (T5 x z q z' g); [done|congruence|done..].
  - intros x y q Hx Hpar. destruct (Hl _ _ Hx) as [[-> ->]|(_ & z & Hz & Ep & _)].
    + injection Hpar as <-. split; [by apply (T2 _ _ Hp)|]. cbn [created records]. fold t. rewrite lookup_insert_eq. eauto.
    + destruct (T6 x z q Hz) as [? ?]; [congruence|]. split; [done|]. cbn [created records]. by apply some_set.
Qed.

Lemma pinv_create w w' h cur t f : pinv (PSys w h) -> h !! cur = Some f -> f <> Reported -> thread_create cur w = Ok (t, w') -> pinv (PSys w' (<[t := Starting]> h)).
Proof.
  intros [Hr Ht Hs] Hc Hn E. cbn [wd ph] in *. destruct (thread_of _ _ _ _ Ht Hc) as [p Hp]. rewrite (create_ok w h cur p Ht Hp) in E. injection E as <- <-.
  split; cbn [wd ph]; [by apply recs_create|by apply tree_create|].
  intros x y g Hy Hg. destruct (created_view w h cur p x y Hr Ht Hp Hy) as [[-> ->]|(Hxt & z & Hz & _ & Es & _)]; [rewrite lookup_insert_eq in Hg; injection Hg as <-; by split|].
  rewrite lookup_insert_ne in Hg by done. rewrite Es. destruct (Hs x z g Hz Hg) as [S1 S2]. split; [done|]. intros Hrep [a Ha]. apply S2; [done|].
  apply lookup_insert_Some in Ha as [[<- ?]|[_ Ha]]; [done|eauto].
Qed.

(** process_wait. *)
Definition awaited_record (c : child_process) : child_process := Child (child_pid c) (cur_status c) true (is_loaded c) (exit_status c) (child_proc_thread c).

Lemma wait_ok w h cur tid p : recs_ok w h -> tree_ok w h -> live w !! cur = Some p ->
  process_wait cur tid w =
    if bool_decide (tid ∈ child_processes p) then
      match records w !! tid with
      | Some c => if is_awaited c then Ok (inl (-1), w)
                  else Ok (if cur_status c =? CHILD_ALIVE then inr tid else inl (exit_status c), with_records (<[tid := awaited_record c]> (records w)) w)
      | None => Err Fault
      end
    else Ok (inl (-1), w).
Proof.
  intros Hr Ht Hp. unfold process_wait, mbind, st_bind, get_thread. rewrite Hp. rewrite (get_child_ok w h) by (done || by eapply children_recorded).
  case_bool_decide as Hin; [|done]. unfold get_record. destruct (records w !! tid) as [c|]; [|done]. by destruct (is_awaited c).
Qed.

Lemma pinv_wait w w' h cur tid (r : Z + Z) : pinv (PSys w h) -> h !! cur = Some Running -> process_wait cur tid w = Ok (r, w') ->
  pinv (PSys w' (<[cur := match r with inl _ => Running | inr r => Waiting r end]> h)).
Proof.
  intros Hi Hc E. pose proof Hi as [Hr Ht Hs]. cbn [wd ph] in *. destruct (thread_of _ _ _ _ Ht Hc) as [p Hp]. rewrite (wait_ok w h cur tid p Hr Ht Hp) in E.
  assert (forall x, mark (<[cur := match r with inl _ => Running | inr r => Waiting r end]> h) x = mark h x) as Hm by (eapply mark_set; [exact Hc|done|by destruct r]).
  case_bool_decide as Hin; [|injection E as <- <-; rewrite insert_id by done; exact Hi]. destruct (records w !! tid) as [c|] eqn:Hrec; [|done].
  destruct (is_awaited c) eqn:Ha; [injection E as <- <-; rewrite insert_id by done; exact Hi|]. injection E as <- <-.
  assert (forall f, h !! tid = Some f -> f <> Reported) as Hnr by (intros f Hf; destruct (to_child _ _ Ht _ _ _ Hp Hin) as (? & g & _ & _ & Hg & ?); congruence).
  destruct (Z.eqb_spec (cur_status c) CHILD_ALIVE) as [Ea|Ea]; split; cbn [wd ph].
  - by eapply recs_wait.
  - eapply tree_frame; [exact Ht|done|exact Hm|cbn [records with_records]; intros t; apply some_set|done].
  - eapply semas_frame; [exact Hs|cbn [live with_records]; eauto|exact Hm|]. intros a t Hat. apply lookup_insert_Some in Hat as [[<- [= <-]]|[_ Hat]]; [right; intros X; by apply (Hnr Reported)|by left].
  - rewrite (insert_id h) by done. eapply recs_record; [exact Hr|exact Hrec|done|done|done|]. intros f Hf Hw. cbn. by eapply ro_alive.
  - eapply tree_frame; [exact Ht|done|exact Hm|cbn [records with_records]; intros t; apply some_set|done].
  - eapply semas_frame; [exact Hs|cbn [live with_records]; eauto|exact Hm|by apply wait_same].
Qed.

(** The end of a wait: the semaphore of the child goes down. *)
Definition wait_down (p : proc_thread) : proc_thread := PThread (parent p) (child_processes p) (sema_proc_exec p) (sema_proc_wait p - 1).

Lemma finish_ok w h r c : recs_ok w h -> records w !! r = Some c -> wait_finish r w = Ok (exit_status c, with_live (alter wait_down r (live w)) w).
Proof.
  intros Hr Hc. unfold wait_finish, decrement, mbind, st_bind, get_record, modify. rewrite Hc. cbn [records with_live]. rewrite Hc. destruct (ro_ids _ _ Hr _ _ Hc) as (_ & -> & _). done.
Qed.

Lemma pinv_wake w w' h cur r v : pinv (PSys w h) -> h !! cur = Some (Waiting r) -> can_wake sema_proc_wait r w = true -> wait_finish r w = Ok (v, w') -> pinv (PSys w' (<[cur := Running]> h)).
Proof.
  intros [Hr Ht Hs] Hc Hw E. cbn [wd ph] in *. destruct (ro_waiting _ _ Hr _ _ Hc) as (c & Hrec & _). rewrite (finish_ok w h r c Hr Hrec) in E. injection E as <- <-. split; cbn [wd ph].
  - apply (recs_live w); [|done|done]. eapply recs_phase; [exact Hr|exact Hc|by split|done].
  - eapply tree_frame; [exact Ht|cbn [live with_live]; by apply shape_alter|by eapply mark_set|done|done].
  - intros t p f Hp Hf. assert (exists f0, h !! t = Some f0 /\ (f = Reported <-> f0 = Reported)) as (f0 & Hf0 & Ef) by (eapply same_phase; [|exact Hf]; by eapply mark_set).
    cbn [live with_live] in Hp. destruct (decide (t = r)) as [->|Hne].
    + rewrite lookup_alter_eq in Hp. destruct (live w !! r) as [p0|] eqn:Hp0; [|done]. injection Hp as <-. destruct (Hs r p0 f0 Hp0 Hf0) as [S1 S2].
      unfold can_wake, sema_value in Hw. destruct (ro_ids _ _ Hr _ _ Hrec) as (_ & Ec & _). rewrite Hrec, Ec, Hp0 in Hw. split; [intros Hn; rewrite S1 in Hw by tauto; done|].
      intros _ [a Ha]. apply lookup_insert_Some in Ha as [[<- ?]|[Hne Ha]]; [done|]. exfalso. apply Hne. by eapply ro_one.
    + rewrite lookup_alter_ne in Hp by done. destruct (Hs t p f0 Hp Hf0) as [S1 S2]. split; [tauto|]. intros Hrep [a Ha]. apply S2; [tauto|]. apply lookup_insert_Some in Ha as [[<- ?]|[_ Ha]]; [done|eauto].
Qed.

(** exec after its child has been created. *)
Lemma pinv_loaded w w' h cur r v : pinv (PSys w h) -> h !! cur = Some (Loading r) -> exec_finish r w = Ok (v, w') -> pinv (PSys w' (<[cur := Running]> h)).
Proof.
  intros [Hr Ht Hs] Hc E. cbn [wd ph] in *. unfold exec_finish, decrement, mbind, st_bind, get_record, modify in E. destruct (records w !! r) as [c|] eqn:Hrec; [|done].
  cbn [records with_live] in E. rewrite Hrec in E. injection E as <- <-. split; cbn [wd ph].
  - apply (recs_live w); [|done|done]. eapply recs_phase; [exact Hr|exact Hc|by split|done].
  - eapply tree_frame; [exact Ht|cbn [live with_live]; by apply shape_alter|by eapply mark_set|done|done].
  - eapply semas_frame; [exact Hs| |by eapply mark_set|by apply wait_same]. cbn [live with_live]. intros t p' Hp'. destruct (decide (t = child_proc_thread c)) as [->|Hne].
    + rewrite lookup_alter_eq in Hp'. destruct (live w !! child_proc_thread c) as [p|] eqn:Hp; [|done]. injection Hp' as <-. by exists p.
    + rewrite lookup_alter_ne in Hp' by done. eauto.
Qed.

Lemma pinv_step s s' : pinv s -> step s s' -> pinv s'.
Proof.
  intros Hi Hst. revert Hi. destruct Hst as [cur t w w' h Hc E|cur ok w w' h Hc E|cur status w w' h Hc E|cur w h Hc|cur w w' h Hc E|cur w w' h Hni Hc E|cur tid r w w' h Hc E|cur r v w w' h Hc Hw E|cur t w w' h Hc E|cur pid r w h Hc E|cur r v w w' h Hc Hw E]; intros Hi.
  - by apply (pinv_create w w' h cur t Running).
  - by eapply pinv_start.
  - by eapply pinv_exit.
  - eapply pinv_phase; [exact Hi|exact Hc|by split|done..].
  - by eapply pinv_report.
  - injection E as <-. by apply pinv_reap.
  - by eapply pinv_wait.
  - by eapply pinv_wake.
  - eapply (pinv_create w w' _ cur t (Execing t)); [|by rewrite lookup_insert_eq|done|exact E]. eapply pinv_phase; [exact Hi|exact Hc|by split|done..].
  - eapply pinv_phase; [exact Hi|exact Hc|by split|done..].
  - by eapply pinv_loaded.
Qed.

Lemma reachable_pinv s : reachable s -> pinv s.
Proof.
  induction 1 as [|s s' _ IH Hst]; [|by eapply pinv_step]. split; cbn [wd ph first_process]; [split|split|]; cbn [live records next_tid].
  - intros r c Hc. by apply lookup_empty_Some in Hc.
  - intros t f c _ _ Hc. by apply lookup_empty_Some in Hc.
  - intros a r Ha. by apply lookup_singleton_Some in Ha as [_ ?].
  - intros a b r Ha. by apply lookup_singleton_Some in Ha as [_ ?].
  - intros t. destruct (decide (t = 1)) as [->|Hn]; [rewrite !lookup_singleton_eq; split; eauto|rewrite !lookup_singleton_ne by done; by split; intros []].
  - intros t p Hp. apply lookup_singleton_Some in Hp as [<- _]. lia.
  - intros q p r Hp. apply lookup_singleton_Some in Hp as [_ <-]. by intros ?%elem_of_nil.
  - intros q p Hp. apply lookup_singleton_Some in Hp as [_ <-]. constructor.
  - intros t p q p' f Hp. by apply lookup_singleton_Some in Hp as [_ <-].
  - intros t p q Hp. by apply lookup_singleton_Some in Hp as [_ <-].
  - intros t p f Hp Hf. cbn [live] in Hp. apply lookup_singleton_Some in Hp as [_ <-], Hf as [_ <-]. by split.
Qed.

(** ** The status of a dead child *)

Definition dead_with w t (status : Z) : Prop := exists c, records w !! t = Some c /\ cur_status c <> CHILD_ALIVE /\ exit_status c = status.

Lemma dead_set w t status r c c' : dead_with w t status -> records w !! r = Some c -> (cur_status c <> CHILD_ALIVE -> cur_status c' = cur_status c /\ exit_status c' = exit_status c) ->
  exists d, <[r := c']> (records w) !! t = Some d /\ cur_status d <> CHILD_ALIVE /\ exit_status d = status.
Proof.
  intros (d & Hd & Hn & Hs) Hc Hsame. destruct (decide (t = r)) as [->|Hne]; [|exists d; by rewrite lookup_insert_ne].
  exists c'. rewrite lookup_insert_eq. assert (c = d) as -> by congruence. destruct (Hsame Hn) as [-> ->]. done.
Qed.

Lemma dead_create w w' h cur t status t' f : pinv (PSys w h) -> h !! cur = Some f -> dead_with w t status -> thread_create cur w = Ok (t', w') -> dead_with w' t status.
Proof.
  intros [Hr Ht _] Hc (d & Hd & Hn) E. cbn [wd ph] in *. destruct (thread_of _ _ _ _ Ht Hc) as [p Hp]. rewrite (create_ok w h cur p Ht Hp) in E. injection E as <- <-.
  destruct (next_fresh w h Hr Ht) as (_ & _ & Hnone). exists d. cbn [created records]. by rewrite lookup_insert_ne by congruence.
Qed.

(** The calls that find the record of their own thread leave the others alone. *)
Lemma own_call w h cur f : pinv (PSys w h) -> h !! cur = Some f -> f <> Reported -> exists p, live w !! cur = Some p /\
  (parent p = None \/ exists q, parent p = Some q /\ (live w !! q = None \/ exists p' c, child_of w h cur q p p' c /\ q <> cur)).
Proof.
  intros [Hr Ht _] Hc Hn. cbn [wd ph] in *. destruct (thread_of _ _ _ _ Ht Hc) as [p Hp]. exists p. split; [done|]. destruct (parent p) as [q|] eqn:Hq; [right|by left]. exists q. split; [done|].
  destruct (live w !! q) as [p'|] eqn:Hp'; [right|by left]. destruct (child_found w h cur q p p' f Hr Ht Hp Hq Hp' Hc Hn) as [c Hco]. exists p', c. split; [done|].
  apply Z.lt_neq. apply (to_rec _ _ Ht _ _ _ Hp Hq).
Qed.

Lemma orphan_faults w t p q : live w !! t = Some p -> parent p = Some q -> live w !! q = None ->
  (forall ok, start_process t ok w = Err Fault) /\ (forall status, exit_record t status w = Err Fault) /\ report_exit t w = Err Fault.
Proof. intros H1 H2 H3. unfold start_process, exit_record, report_exit, mbind, st_bind, get_thread. rewrite H1, H2, H3. done. Qed.

Lemma root_records w t p : live w !! t = Some p -> parent p = None ->
  (forall ok w', start_process t ok w = Ok (tt, w') -> records w' = records w) /\ (forall status, exit_record t status w = Err Fault) /\ (forall w', report_exit t w = Ok (tt, w') -> records w' = records w).
Proof.
  intros H1 H2. unfold start_process, exit_record, report_exit, sema_up_exec, sema_up_wait, set_thread, modify, mbind, st_bind, get_thread, mret, st_ret. rewrite H1, H2.
  split_and!; [intros _ w'; rewrite H1; by intros [= <-]|done|intros w'; rewrite H1; by intros [= <-]].
Qed.

Lemma dead_step s s' t status : pinv s -> step s s' -> dead_with (wd s) t status -> dead_with (wd s') t status.
Proof.
  intros Hi Hst. revert Hi. destruct Hst as [cur t' w w' h Hc E|cur ok w w' h Hc E|cur status' w w' h Hc E|cur w h Hc|cur w w' h Hc E|cur w w' h Hni Hc E|cur tid r w w' h Hc E|cur r v w w' h Hc Hw E|cur t' w w' h Hc E|cur pid r w h Hc E|cur r v w w' h Hc Hw E]; intros Hi Hd; cbn [wd] in *.
  - by eapply dead_create.
  - destruct (own_call w h cur Starting Hi Hc) as (p & Hp & [Hq|(q & Hq & [Hn|(p' & c & Hco & _)])]); [done|..].
    + unfold dead_with. by rewrite (proj1 (root_records w cur p Hp Hq) ok w' E).
    + by rewrite (proj1 (orphan_faults w cur p q Hp Hq Hn)) in E.
    + rewrite (start_ok w h cur q p p' c ok Hco) in E. injection E as <-. eapply dead_set; [exact Hd|by apply Hco|done].
  - destruct (own_call w h cur Running Hi Hc) as (p & Hp & [Hq|(q & Hq & [Hn|(p' & c & Hco & _)])]); [done|..].
    + by rewrite (proj1 (proj2 (root_records w cur p Hp Hq))) in E.
    + by rewrite (proj1 (proj2 (orphan_faults w cur p q Hp Hq Hn))) in E.
    + rewrite (exit_ok w h cur q p p' c status' Hco) in E. injection E as <-. eapply dead_set; [exact Hd|by apply Hco|]. intros Ha. exfalso. apply Ha. eapply (ro_alive _ _ (pi_recs _ Hi)); [exact Hc|by split|apply Hco].
  - done.
  - destruct (own_call w h cur Exiting Hi Hc) as (p & Hp & [Hq|(q & Hq & [Hn|(p' & c & Hco & Hqc)])]); [done|..].
    + unfold dead_with. by rewrite (proj2 (proj2 (root_records w cur p Hp Hq)) w' E).
    + by rewrite (proj2 (proj2 (orphan_faults w cur p q Hp Hq Hn))) in E.
    + rewrite (report_ok w h cur q p p' c Hqc Hco) in E. injection E as <-. eapply dead_set; [exact Hd|by apply Hco|]. intros Ha. unfold final_record. by rewrite (proj2 (Z.eqb_neq _ _) Ha).
  - by injection E as <-.
  - destruct (thread_of _ _ _ _ (pi_tree _ Hi) Hc) as [p Hp]. cbn [wd ph] in Hp. rewrite (wait_ok w h cur tid p (pi_recs _ Hi) (pi_tree _ Hi) Hp) in E.
    case_bool_decide; [|by injection E as _ <-]. destruct (records w !! tid) as [c|] eqn:Hrec; [|done]. destruct (is_awaited c); [by injection E as _ <-|]. injection E as _ <-. by eapply dead_set.
  - destruct (ro_waiting _ _ (pi_recs _ Hi) _ _ Hc) as (c & Hrec & _). cbn [wd] in Hrec. rewrite (finish_ok w h r c (pi_recs _ Hi) Hrec) in E. by injection E as _ <-.
  - by eapply dead_create.
  - done.
  - unfold exec_finish, decrement, mbind, st_bind, get_record, modify in E. destruct (records w !! r) as [c|] eqn:Hrec; [|done]. cbn [records with_live] in E. rewrite Hrec in E. by injection E as _ <-.
Qed.

Lemma dead_steps s s' t status : rtc step s s' -> pinv s -> dead_with (wd s) t status -> pinv s' /\ dead_with (wd s') t status.
Proof. induction 1 as [|s s1 s2 Hst _ IH]; intros Hi Hd; [done|]. apply IH; [by eapply pinv_step|by eapply dead_step]. Qed.

(** A parent that waits for a dead child can go on. *)
Lemma waiter_wakes s cur t status : pinv s -> ph s !! cur = Some (Waiting t) -> ph s !! t = Some Reported \/ ph s !! t = None -> dead_with (wd s) t status ->
  can_wake sema_proc_wait t (wd s) = true /\ exists w', wait_finish t (wd s) = Ok (status, w').
Proof.
  intros [Hr Ht Hs] Hc Hgone (c & Hrec & _ & Hst). split; [|rewrite (finish_ok _ _ t c Hr Hrec), Hst; eauto]. unfold can_wake, sema_value. rewrite Hrec. destruct (ro_ids _ _ Hr _ _ Hrec) as (_ & -> & _).
  destruct (live (wd s) !! t) as [p|] eqn:Hp; [|done]. destruct Hgone as [Hg|Hg]; [|destruct (proj1 (to_dom _ _ Ht t)) as [f Hf]; [eauto|congruence]].
  destruct (Hs t p Reported Hp Hg) as [_ S2]. rewrite S2; eauto.
Qed.
End inv.

(** ** Theorems *)

(** C29: a child whose parent lives finds its record.  In every state the
    processes can reach, a thread with a live parent gets through the end
    of start_process, through exit and through process_exit, whichever it
    is about to do, without a fault. *)
Theorem child_finds_its_record s t p q f : reachable s -> live (wd s) !! t = Some p -> parent p = Some q -> is_Some (live (wd s) !! q) -> ph s !! t = Some f ->
  (f = Starting -> forall ok, exists w', start_process t ok (wd s) = Ok (tt, w')) /\
  (f = Running -> forall status, exists w', exit_record t status (wd s) = Ok (tt, w')) /\
  (f = Exiting -> exists w', report_exit t (wd s) = Ok (tt, w')).
Proof.
  intros Hs Hp Hq [p' Hp'] Hf. pose proof (reachable_pinv s Hs) as [Hr Ht _].
  assert (f <> Reported -> exists c, child_of (wd s) (ph s) t q p p' c) as Hco by (intros Hn; by eapply child_found).
  split_and!; intros ->; destruct Hco as [c Hco]; try done; [intros ok|intros status|]; eexists.
  - by eapply start_ok.
  - by eapply exit_ok.
  - eapply report_ok; [|exact Hco]. apply Z.lt_neq. apply (to_rec _ _ Ht _ _ _ Hp Hq).
Qed.

(** How [t] leaves: it calls exit, or it is killed and process_exit
    reports -1 for it. *)
Inductive leaves (t : Z) : psys -> Z -> psys -> Prop :=
| leaves_exit w w' h status : h !! t = Some Running -> exit_record t status w = Ok (tt, w') -> leaves t (PSys w h) status (PSys w' (<[t := Exiting]> h))
| leaves_killed w w' h c p q : h !! t = Some Exiting -> live w !! t = Some p -> parent p = Some q -> records w !! t = Some c -> cur_status c = CHILD_ALIVE ->
    report_exit t w = Ok (tt, w') -> leaves t (PSys w h) (-1) (PSys w' (<[t := Reported]> h)).


(** The status of a child that exits before its parent waits is lost:
    process_exit takes the record off the parent's list, so that wait
    returns -1 at once, as for a stranger, whatever status the child passed
    to exit. *)
Theorem wait_after_exit_fails s cur t : reachable s -> ph s !! cur = Some Running -> ph s !! t = Some Reported \/ ph s !! t = None ->
  process_wait cur t (wd s) = Ok (inl (-1), wd s).
Proof.
  intros Hs Hc Hgone. pose proof (reachable_pinv s Hs) as [Hr Ht _]. destruct (thread_of _ _ _ _ Ht Hc) as [p Hp]. rewrite (wait_ok _ _ cur t p Hr Ht Hp).
  rewrite bool_decide_eq_false_2; [done|]. intros Hin. destruct (to_child _ _ Ht _ _ _ Hp Hin) as (p' & f & _ & _ & Hf & Hn). destruct Hgone; congruence.
Qed.

(** ** Runs *)

(** The steps as a function: which thread does what. *)
Inductive move :=
| Creates | Starts (ok : bool) | Exits (status : Z) | Reports | Reaped | Waits (tid : Z) | Execs.

Definition after {A} (r : outcome (A * world)) (k : A -> gmap Z phase) : option psys := match r with Ok (a, w') => Some (PSys w' (k a)) | Err _ => None end.

Definition play (s : psys) (m : Z * move) : option psys :=
  let '(cur, a) := m in let w := wd s in let h := ph s in
  match a, h !! cur with
  | Creates, Some Running => after (thread_create cur w) (fun t => <[t := Starting]> h)
  | Starts ok, Some Starting => after (start_process cur ok w) (fun _ => <[cur := if ok : bool then Running else Exiting]> h)
  | Exits status, Some Running => after (exit_record cur status w) (fun _ => <[cur := Exiting]> h)
  | Reports, Some Exiting => after (report_exit cur w) (fun _ => <[cur := Reported]> h)
  | Reaped, Some Reported => if bool_decide (cur = initial_tid) then None else after (reap cur w) (fun _ => delete cur h)
  | Waits tid, Some Running => after (process_wait cur tid w) (fun r => <[cur := match r with inl _ => Running | inr r => Waiting r end]> h)
  | Execs, Some Running => after (thread_create cur w) (fun t => <[t := Starting]> (<[cur := Execing t]> h))
  | _, _ => None
  end.
Fixpoint plays (l : list (Z * move)) (s : psys) : option psys := match l with [] => Some s | m :: l' => s' ← play s m; plays l' s' end.

Lemma after_Some {A} (r : outcome (A * world)) k s : after r k = Some s -> exists a w', r = Ok (a, w') /\ s = PSys w' (k a).
Proof. unfold after. destruct r as [[a w']|]; [|done]. intros [= <-]. eauto. Qed.

Lemma play_step s m s' : play s m = Some s' -> step s s'.
Proof.
  destruct s as [w h], m as [cur []]; cbn [play wd ph]; destruct (h !! cur) as [[]|] eqn:Hc; try done.
  1: intros (t & w' & E & ->)%after_Some; by econstructor.
  1-3: intros ([] & w' & E & ->)%after_Some; by econstructor.
  1: case_bool_decide; [done|]; intros ([] & w' & E & ->)%after_Some; by econstructor.
  1: intros (r & w' & E & ->)%after_Some; by eapply step_wait.
  intros (t & w' & E & ->)%after_Some. by econstructor.
Qed.

Lemma plays_steps l : forall s s', plays l s = Some s' -> rtc step s s'.
Proof.
  induction l as [|m l IH]; intros s s'; [intros [= ->]; apply rtc_refl|]. cbn [plays]. destruct (play s m) as [s1|] eqn:E; [|done]. cbn [mbind option_bind]. intros Hl.
  eapply rtc_l; [by eapply play_step|by apply IH].
Qed.
Lemma plays_reachable l s : plays l first_process = Some s -> reachable s.
Proof.
  intros Hl. apply plays_steps in Hl. assert (forall a b, rtc step a b -> reachable a -> reachable b) as Hr; [|by eapply Hr; [|apply reach_first]].
  induction 1; [done|]. intros Ha. by eauto using reach_step.
Qed.

(** Process 1 starts 2, and 2 starts 3. *)
Definition family : list (Z * move) := [(1, Creates); (2, Starts true); (2, Creates); (3, Starts true)].
Definition state_after (l : list (Z * move)) : psys := default first_process (plays l first_process).

Lemma state_after_reachable l : is_Some (plays l first_process) -> reachable (state_after l).
Proof. intros [s Hs]. unfold state_after. rewrite Hs. by eapply plays_reachable. Qed.

(** Two ways to a null or dangling pointer.  A child whose parent is
    gone follows pointers of the parent's freed page in exit and in
    process_exit; and exec looks the record of its new child up after the
    child has run: if the program could not be loaded the record is not on
    the list any more, and exec dereferences a null pointer. *)
Theorem orphan_and_exec_fault :
  (exists s, reachable s /\ ph s !! 3 = Some Running /\ ph s !! 2 = None /\ (forall status, exit_record 3 status (wd s) = Err Fault) /\ report_exit 3 (wd s) = Err Fault) /\
  (exists s, reachable s /\ ph s !! 1 = Some (Execing 2) /\ ph s !! 2 = Some Reported /\ exec_find 1 2 (wd s) = Err Fault).
Proof.
  split.
  - exists (state_after (family ++ [(2, Exits 0); (2, Reports); (2, Reaped)])). split; [apply state_after_reachable; vm_compute; eauto|].
    split; [vm_compute; reflexivity|]. split; [vm_compute; reflexivity|]. split; [intros status|]; vm_compute; reflexivity.
  - exists (state_after [(1, Execs); (2, Starts false); (2, Reports)]). split; [apply state_after_reachable; vm_compute; eauto|]. vm_compute. split_and!; reflexivity.
Qed.

Lemma child_finds_its_record_witness : exists w', exit_record 3 7 (wd (state_after family)) = Ok (tt, w').
Proof.
  destruct (child_finds_its_record (state_after family) 3 (PThread (Some 2) [] 1 0) 2 Running) as (_ & H & _).
  - apply state_after_reachable. vm_compute. eauto.
  - vm_compute. reflexivity.
  - reflexivity.
  - vm_compute. eauto.
  - vm_compute. reflexivity.
  - exact (H eq_refl 7).
Defined.

Definition waiting : list (Z * move) := family ++ [(2, Waits 3)].

Lemma wait_after_exit_fails_witness : exists s, plays [(3, Exits 7); (3, Reports)] (state_after family) = Some s /\ process_wait 2 3 (wd s) = Ok (inl (-1), wd s).
Proof.
  exists (state_after (family ++ [(3, Exits 7); (3, Reports)])). split; [vm_compute; reflexivity|]. apply wait_after_exit_fails.
  - apply state_after_reachable. vm_compute. eauto.
  - vm_compute. reflexivity.
  - left. vm_compute. reflexivity.
Defined.
