(* ===== verification/UserMem.v ===== *)
(** * Kernel accesses to user memory (src/userprog/pagedir.c and
      src/userprog/syscall.c: is_valid_addr, is_valid_ptr,
      is_full_valid_ptr, is_valid_filename)

    System calls read and write the memory of the process through its page
    directory, at the addresses the process passes: [mmu] is the walk of
    the page tables the processor does, in supervisor mode with CR0.WP set
    as start.S sets it.  An access it refuses is a page fault in the kernel,
    which the handler answers with a panic: a [Fault]. *)

From S2P Require Import Prelude Memory Wp Bitmap Pages PageLaws Loader LoaderLaws.

(** ** The processor *)

Definition allowed (write : bool) (e : Z) : bool := negb (Z.land e PTE_P =? 0) && (negb write || negb (Z.land e PTE_W =? 0)).
Definition frame_of (e : Z) : Z := Z.land e PTE_ADDR + PHYS_BASE.

(** The kernel address of the byte at [va]. *)
Definition mmu (pg : gmap Z (list Z)) (pd va : Z) (write : bool) : option Z :=
  l ← pg !! pd; pde ← l !! Z.to_nat (pd_no va);
  if allowed write pde then
    lt ← pg !! frame_of pde; pte ← lt !! Z.to_nat (pt_no va);
    if allowed write pte then Some (frame_of pte + va mod 4096) else None
  else None.

Definition load_byte (pd va : Z) : st machine Z := fun m =>
  match mmu (pages m) pd va false with
  | Some a =>
      match pages m !! (a - a mod 4096) with
      | Some l => match words_to_bytes l !! Z.to_nat (a mod 4096) with Some b => Ok (b, m) | None => Err Fault end
      | None => Err Fault
      end
  | None => Err Fault
  end.

Definition store_byte (pd va b : Z) : st machine unit := fun m =>
  match mmu (pages m) pd va true with
  | Some a =>
      match pages m !! (a - a mod 4096) with
      | Some l => Ok (tt, set_pages (<[a - a mod 4096 := bytes_to_words 1024 (<[Z.to_nat (a mod 4096) := b]> (words_to_bytes l))]> (pages m)) m)
      | None => Err Fault
      end
  | None => Err Fault
  end.

(** [n] bytes from [va] on; a 32-bit word. *)
Fixpoint load_bytes (n : nat) (pd va : Z) : st machine (list Z) :=
  match n with O => mret [] | S n' => b ← load_byte pd va; l ← load_bytes n' pd (u32 (va + 1)); mret (b :: l) end.
Fixpoint store_bytes (pd va : Z) (l : list Z) : st machine unit :=
  match l with [] => mret tt | b :: l' => store_byte pd va b ≫= fun _ => store_bytes pd (u32 (va + 1)) l' end.
Definition load_user_word (pd va : Z) : st machine Z := l ← load_bytes 4 pd va; mret (le_value l).

(** The string at [va], which is less than [fuel] bytes long. *)
Fixpoint user_string (fuel : nat) (pd va : Z) : st machine (list Z) :=
  match fuel with
  | O => fun _ => Err Fuel
  | S fuel' => b ← load_byte pd va; if b =? 0 then mret [] else l ← user_string fuel' pd (u32 (va + 1)); mret (b :: l)
  end.

(** ** Checks of pointers *)

(** The condition is_valid_addr exits on, negated. *)
Definition valid_addr (pd address : Z) : st machine bool :=
  if negb (is_user_vaddr address) then mret false else p ← pagedir_get_page pd address; mret (negb (p =? NULL)).

Definition is_valid_ptr (pd ptr : Z) : st machine bool :=
  if (ptr =? NULL) || negb (is_user_vaddr ptr) then mret false else p ← pagedir_get_page pd ptr; mret (negb (p =? NULL)).

(** [for (int i = 0; i < size; i++)] *)
Fixpoint valid_from (n : nat) (pd ptr : Z) : st machine bool :=
  match n with O => mret true | S n' => ok ← is_valid_ptr pd ptr; if ok : bool then valid_from n' pd (u32 (ptr + 1)) else mret false end.
Definition is_full_valid_ptr (pd ptr size : Z) : st machine bool := valid_from (Z.to_nat size) pd ptr.

Definition MIN_FILENAME_LENGTH : Z := 1.
Definition MAX_FILENAME_LENGTH : Z := 14.

(** The loop of is_valid_filename; the length never exceeds the maximum by
    more than one.  An empty name falls off the end of the function without
    a return value: the caller's use of it is undefined. *)
Fixpoint filename_loop (fuel : nat) (pd file_name len : Z) : st machine Z :=
  match fuel with
  | O => fun _ => Err Fuel
  | S fuel' =>
      v ← valid_addr pd (u32 (file_name + len));
      if negb v then mret (-1)
      else
        b ← load_byte pd (u32 (file_name + len));
        if b =? 0 then
          if (MIN_FILENAME_LENGTH <=? len) && (len <=? MAX_FILENAME_LENGTH) then mret len else lift (Err Fault)
        else if MAX_FILENAME_LENGTH <? len + 1 then mret (-2) else filename_loop fuel' pd file_name (len + 1)
  end.
Definition is_valid_filename (pd file : Z) : st machine Z := filename_loop 16 pd file 0.

(** The value a computation returns. *)
Definition run_value {S A} (c : st S A) (s : S) : outcome A := r ← c s; Ok r.1.

(** ** Laws *)

Section laws.
Implicit Types (m : machine) (pd va : Z).

Lemma frame_of_entry k f : kpage k -> 0 <= f < 4096 -> frame_of (entry k f) = k.
Proof.
  intros Hk Hf. pose proof Hk as [Hr Hm]. unfold frame_of. rewrite land_addr by (unfold entry, PHYS_BASE in *; lia). rewrite entry_mod by done. unfold entry. lia.
Qed.

Lemma mmu_read m pd l va : pd_wf m pd l -> user va ->
  mmu (pages m) pd va false = if translate (pages m) pd va =? NULL then None else Some (translate (pages m) pd va).
Proof.
  intros [_ (Hl & Hlen & Hk) _ Hpt _] Hu. destruct (user_index va Hu) as (Hi & Hj & _). unfold mmu, translate, pte_of. rewrite Hl. cbn [mbind option_bind].
  destruct (lookup_lt_is_Some_2 l (Z.to_nat (pd_no va))) as [e He]; [lia|]. rewrite He. cbn [mbind option_bind].
  destruct (Z.eqb_spec e 0) as [->|Hne]; [done|]. destruct (Hpt _ e Hi He Hne) as (pt & lt & -> & (Hlt & Hll & Hkp) & Hok & _ & _).
  assert (allowed false (entry pt 7) = true) as ->.
  { unfold allowed. rewrite andb_true_r. apply negb_true_iff, Z.eqb_neq. change PTE_P with (Z.ones 1). rewrite Z.land_ones by lia. pose proof (entry_mod pt 7 Hkp ltac:(lia)). dlia. }
  rewrite frame_of_entry, entry_back, Hlt by (done || lia). cbn [mbind option_bind].
  destruct (lookup_lt_is_Some_2 lt (Z.to_nat (pt_no va))) as [w Hw]; [lia|]. rewrite Hw. cbn [mbind option_bind].
  unfold allowed. rewrite andb_true_r. destruct (Z.eqb_spec (Z.land w PTE_P) 0) as [E|E]; [done|]. cbn [negb].
  destruct (proj1 (Forall_lookup _ _) Hok _ _ Hw E) as (k & f & Hkk & Hf & ->). rewrite frame_of_entry, entry_mod, entry_back by done.
  pose proof Hkk as [Hr _]. pose proof (Z.mod_pos_bound va 4096). rewrite (proj2 (Z.eqb_neq _ NULL)) by (unfold NULL, PHYS_BASE in *; lia). done.
Qed.

(** The page of an address. *)
Lemma base_user va : user va -> user (va - va mod 4096) /\ pg_ofs (va - va mod 4096) = 0.
Proof. unfold user. rewrite pg_ofs_mod. intros H. pose proof (Z.mod_pos_bound va 4096). pose proof (Z.mod_le va 4096). split; [lia|dlia]. Qed.

Lemma base_index va : user va -> pd_no (va - va mod 4096) = pd_no va /\ pt_no (va - va mod 4096) = pt_no va.
Proof.
  intros H. unfold user in H. rewrite !pd_no_div, !pt_no_mod. change (2 ^ 22) with (4096 * 1024). rewrite <- !Z.div_div by lia.
  assert ((va - va mod 4096) / 4096 = va / 4096) as -> by dlia. done.
Qed.

Lemma mmu_base m pd va w : user va -> mmu (pages m) pd va w = (fun a => a + va mod 4096) <$> mmu (pages m) pd (va - va mod 4096) w.
Proof.
  intros Hu. destruct (base_index va Hu) as [E1 E2]. unfold mmu. rewrite E1, E2. destruct (pages m !! pd) as [l|]; [|done]. cbn [mbind option_bind].
  destruct (l !! _) as [e|]; [|done]. cbn [mbind option_bind]. destruct (allowed w e); [|done]. destruct (pages m !! _) as [lt|]; [|done]. cbn [mbind option_bind].
  destruct (lt !! _) as [e'|]; [|done]. cbn [mbind option_bind]. destruct (allowed w e'); [|done]. cbn. f_equal. dlia.
Qed.

Lemma mmu_write_read pg pd va a : mmu pg pd va true = Some a -> mmu pg pd va false = Some a.
Proof.
  unfold mmu. destruct (pg !! pd) as [l|]; [|done]. cbn [mbind option_bind]. destruct (l !! _) as [e|]; [|done]. cbn [mbind option_bind]. unfold allowed.
  destruct (negb (Z.land e PTE_P =? 0)); [|done]. cbn [andb negb orb]. destruct (negb (Z.land e PTE_W =? 0)); [|done].
  destruct (pg !! _) as [lt|]; [|done]. cbn [mbind option_bind]. destruct (lt !! _) as [e'|]; [|done]. cbn [mbind option_bind].
  destruct (negb (Z.land e' PTE_P =? 0)); [|done]. cbn [andb]. by destruct (negb (Z.land e' PTE_W =? 0)).
Qed.

(** A byte of user memory that is mapped, through the frame of its page. *)
Lemma user_frame m pd va : process m pd -> user va ->
  (user_byte m pd va = None /\ translate (pages m) pd va = NULL /\ mmu (pages m) pd va false = None) \/
  exists k l b, page_state (user_pool m) k true /\ k mod 4096 = 0 /\ translate (pages m) pd (va - va mod 4096) = k /\ translate (pages m) pd va <> NULL /\
    mmu (pages m) pd va false = Some (k + va mod 4096) /\ pages m !! k = Some l /\ length l = 1024%nat /\
    words_to_bytes l !! Z.to_nat (va mod 4096) = Some b /\ user_byte m pd va = Some b.
Proof.
  intros (lp & Hp) Hu. destruct (base_user va Hu) as [Hb Ho]. pose proof (mmu_read m pd lp va (pr_pd _ _ _ Hp) Hu) as Hr.
  rewrite (mmu_base m pd va false Hu), (mmu_read m pd lp _ (pr_pd _ _ _ Hp) Hb) in Hr.
  rewrite (mmu_base m pd va false Hu), (mmu_read m pd lp _ (pr_pd _ _ _ Hp) Hb). unfold user_byte, view.
  pose proof (Z.mod_pos_bound va 4096 ltac:(lia)) as Hm. destruct (Z.eqb_spec (translate (pages m) pd (va - va mod 4096)) NULL) as [E|E].
  { left. cbn in Hr. destruct (Z.eqb_spec (translate (pages m) pd va) NULL); [|done]. done. }
  right. set (k := translate _ _ _) in *. pose proof (pr_mapped _ _ _ Hp _ Hb Ho E) as Hk. fold k in Hk. pose proof Hk as (i & Hi & Ek & _).
  destruct (pw_mem _ _ (pr_user _ _ _ Hp) i Hi) as (l & Hl & Hlen). rewrite <- Ek in Hl.
  destruct (lookup_lt_is_Some_2 (words_to_bytes l) (Z.to_nat (va mod 4096))) as [b Hbb]; [rewrite length_words_to_bytes; lia|].
  exists k, l, b. split_and!; try done; [apply (user_kpage m k true (pr_user _ _ _ Hp) Hk)| |by rewrite Hl].
  cbn in Hr. by destruct (Z.eqb_spec (translate (pages m) pd va) NULL).
Qed.

Lemma load_byte_ok m pd va : process m pd -> user va ->
  load_byte pd va m = match user_byte m pd va with Some b => Ok (b, m) | None => Err Fault end.
Proof.
  intros Hp Hu. pose proof (Z.mod_pos_bound va 4096 ltac:(lia)) as Hm. unfold load_byte.
  destruct (user_frame m pd va Hp Hu) as [(-> & _ & ->)|(k & l & b & _ & Hk & _ & _ & -> & Hl & _ & Hb & ->)]; [done|].
  replace (k + va mod 4096 - (k + va mod 4096) mod 4096) with k by dlia. replace ((k + va mod 4096) mod 4096) with (va mod 4096) by dlia. by rewrite Hl, Hb.
Qed.

Lemma mapped_nonnull m k : page_state (user_pool m) k true -> pool_wf m (user_pool m) -> k <> NULL.
Proof. intros Hk Hw. pose proof (user_kpage m k true Hw Hk) as [? _]. unfold NULL, PHYS_BASE in *. lia. Qed.

(** Writing to a page of the user pool changes no translation. *)
Lemma mmu_write_frame m pd l k v l' u w : proc m pd l -> page_state (user_pool m) k v -> user u -> mmu (<[k := l']> (pages m)) pd u w = mmu (pages m) pd u w.
Proof.
  intros [[Hkp (Hl & Hlen & Hk) Hused Hpt Hinj] Hup Hap _ _ _ _] Hkv Hu. destruct (user_index u Hu) as (Hi & Hj & _).
  assert (forall a x, page_state (kernel_pool m) a x -> <[k := l']> (pages m) !! a = pages m !! a) as Hsame.
  { intros a x Ha. rewrite lookup_insert_ne; [done|]. intros ->. by eapply Hap. }
  unfold mmu. rewrite (Hsame _ _ Hused), Hl. cbn [mbind option_bind].
  destruct (l !! Z.to_nat (pd_no u)) as [e|] eqn:E; [|done]. cbn [mbind option_bind]. destruct (decide (e = 0)) as [->|Hne]; [by destruct w|].
  destruct (Hpt _ _ Hi E Hne) as (pt & lt & -> & (H1 & _ & Hkpt) & _ & _ & H6). by rewrite frame_of_entry, (Hsame _ _ H6) by (done || lia).
Qed.

(** Bytes the kernel can write. *)
Definition writable m pd va : Prop := mmu (pages m) pd va true <> None.

Lemma store_byte_ok m pd va b : process m pd -> user va -> writable m pd va -> is_byte b ->
  exists m', store_byte pd va b m = Ok (tt, m') /\ process m' pd /\
    (forall v, user v -> user_byte m' pd v = if v =? va then Some b else user_byte m pd v) /\ (forall v, user v -> writable m' pd v <-> writable m pd v).
Proof.
  intros Hp Hu Hw Hb. pose proof (Z.mod_pos_bound va 4096 ltac:(lia)) as Hm. unfold store_byte. unfold writable in Hw.
  destruct (mmu (pages m) pd va true) as [a|] eqn:Ea; [|done]. pose proof (mmu_write_read _ _ _ _ Ea) as Er.
  destruct (user_frame m pd va Hp Hu) as [(_ & _ & X)|(k & l & b0 & Hk & Hk0 & Hbase & _ & Hr & Hl & Hlen & Hb0 & Hub)]; [congruence|].
  assert (a = k + va mod 4096) as -> by congruence.
  replace (k + va mod 4096 - (k + va mod 4096) mod 4096) with k by dlia. replace ((k + va mod 4096) mod 4096) with (va mod 4096) by dlia. rewrite Hl.
  eexists. split; [reflexivity|]. set (l' := bytes_to_words 1024 _). set (m' := set_pages _ m).
  assert (length l' = 1024%nat) as Hl' by apply length_bytes_to_words.
  assert (words_to_bytes l' = <[Z.to_nat (va mod 4096) := b]> (words_to_bytes l)) as Ew.
  { unfold l'. apply words_to_bytes_to_words; [rewrite length_insert, length_words_to_bytes; lia|]. apply Forall_insert; [apply words_are_bytes|done]. }
  destruct Hp as (lp & Hp). pose proof (write_proc m pd lp k true l' Hp Hk Hl') as Hp'. fold m' in Hp'.
  destruct (write_frame m pd lp k true l' Hp Hk Hl') as (_ & _ & Htr). split_and!; [by exists lp| |].
  - intros v Hv. destruct (base_user v Hv) as [Hvb Hvo], (base_user va Hu) as [Hab Hao]. pose proof (Z.mod_pos_bound v 4096 ltac:(lia)). pose proof (mapped_nonnull m k Hk (pr_user _ _ _ Hp)) as Hkn.
    unfold user_byte, view, m'. cbn [set_pages pages]. rewrite Htr by done. destruct (decide (translate (pages m) pd (v - v mod 4096) = k)) as [E|E].
    + assert (v - v mod 4096 = va - va mod 4096) as Eb by (apply (pr_inj _ _ _ Hp); try done; congruence).
      rewrite E, (proj2 (Z.eqb_neq k NULL)) by done. rewrite lookup_insert_eq, Hl. cbn [fmap option_fmap option_map mbind option_bind]. rewrite Ew.
      destruct (Z.eqb_spec v va) as [->|Hne]; [rewrite list_lookup_insert_eq by (rewrite length_words_to_bytes; lia); done|].
      by rewrite list_lookup_insert_ne by lia.
    + destruct (Z.eqb_spec v va) as [->|Hne]; [done|]. destruct (_ =? NULL); [done|]. by rewrite lookup_insert_ne by done.
  - intros v Hv. unfold writable, m'. cbn [set_pages pages]. by rewrite (mmu_write_frame m pd lp k true l' v true Hp Hk).
Qed.

(** The byte at any address a process may pass. *)
Definition ubyte m pd va : option Z := if is_user_vaddr va then user_byte m pd va else None.

Lemma ubyte_user m pd va b : 0 <= va -> ubyte m pd va = Some b -> user va /\ user_byte m pd va = Some b.
Proof. unfold ubyte, is_user_vaddr, user. intros Hv. destruct (Z.ltb_spec va PHYS_BASE); [|done]. intros H'. split; [lia|done]. Qed.

Lemma load_ubyte m pd va b : process m pd -> 0 <= va -> ubyte m pd va = Some b -> load_byte pd va m = Ok (b, m).
Proof. intros Hp Hv Hb. destruct (ubyte_user m pd va b Hv Hb) as [Hu Hb']. by rewrite load_byte_ok, Hb'. Qed.

Lemma valid_addr_ok m pd va : process m pd -> 0 <= va -> valid_addr pd va m = Ok (bool_decide (is_Some (ubyte m pd va)), m).
Proof.
  intros Hp Hv. unfold valid_addr, ubyte. destruct (is_user_vaddr va) eqn:E; [|done]. cbn [negb].
  assert (user va) as Hu by (unfold user, is_user_vaddr in *; lia). pose proof Hp as (l & Hl). unfold mbind, st_bind. rewrite (get_page_translates pd l va m (pr_pd _ _ _ Hl) Hu).
  destruct (user_frame m pd va Hp Hu) as [(-> & -> & _)|(k & lt & b & _ & _ & _ & Hn & _ & _ & _ & _ & ->)]; [done|].
  rewrite (proj2 (Z.eqb_neq _ NULL)) by done. rewrite bool_decide_eq_true_2 by eauto. done.
Qed.

Lemma is_valid_ptr_ok m pd va : process m pd -> 0 <= va -> is_valid_ptr pd va m = Ok (bool_decide (va <> 0 /\ is_Some (ubyte m pd va)), m).
Proof.
  intros Hp Hv. pose proof (valid_addr_ok m pd va Hp Hv) as Ha. unfold valid_addr in Ha. unfold is_valid_ptr, NULL in *. destruct (Z.eqb_spec va 0) as [->|Hne]; cbn [orb].
  - rewrite bool_decide_eq_false_2 by tauto. done.
  - destruct (negb (is_user_vaddr va)) eqn:E; rewrite Ha; do 2 f_equal; apply bool_decide_ext; tauto.
Qed.

(** [n] bytes of user memory. *)
Fixpoint user_bytes m pd va (n : nat) : option (list Z) :=
  match n with O => Some [] | S n' => b ← ubyte m pd va; l ← user_bytes m pd (va + 1) n'; Some (b :: l) end.

Lemma user_bytes_next m pd va n l : 0 <= va -> user_bytes m pd va (S n) = Some l ->
  u32 (va + 1) = va + 1 /\ exists b l', l = b :: l' /\ ubyte m pd va = Some b /\ user_bytes m pd (va + 1) n = Some l'.
Proof.
  intros Hv. cbn [user_bytes]. destruct (ubyte m pd va) as [b|] eqn:E; [|done]. cbn [mbind option_bind].
  destruct (user_bytes m pd (va + 1) n) as [l'|]; [|done]. intros [= <-]. destruct (ubyte_user m pd va b Hv E) as [Hu _]. unfold user, PHYS_BASE in Hu. split; [apply u32_small; lia|eauto].
Qed.

Lemma user_bytes_length m pd n : forall va l, user_bytes m pd va n = Some l -> length l = n.
Proof.
  induction n as [|n IH]; intros va l; cbn [user_bytes]; [by intros [= <-]|]. destruct (ubyte m pd va) as [b|]; [|done]. cbn [mbind option_bind].
  destruct (user_bytes m pd (va + 1) n) as [l'|] eqn:E; [|done]. intros [= <-]. cbn [length]. by rewrite (IH _ _ E).
Qed.

Lemma user_bytes_bytes m pd n va l : user_bytes m pd va n = Some l -> Forall is_byte l.
Proof.
  revert va l; induction n as [|n IH]; intros va l; cbn [user_bytes]; [intros [= <-]; constructor|]. destruct (ubyte m pd va) as [b|] eqn:Eb; [|done]. cbn [mbind option_bind].
  destruct (user_bytes m pd (va + 1) n) as [l'|] eqn:E; [|done]. intros [= <-]. apply Forall_cons; [|by eapply IH].
  unfold ubyte in Eb. destruct (is_user_vaddr va); [|done]. unfold user_byte, view in Eb. destruct (_ =? NULL); [done|].
  destruct (pages m !! _) as [lw|]; [|done]. cbn in Eb. by eapply (proj1 (Forall_lookup _ _) (words_are_bytes lw)).
Qed.

Lemma load_bytes_ok m pd n : forall va l, process m pd -> 0 <= va -> user_bytes m pd va n = Some l -> load_bytes n pd va m = Ok (l, m).
Proof.
  induction n as [|n IH]; intros va l Hp Hv Hl; [by injection Hl as <-|]. destruct (user_bytes_next m pd va n l Hv Hl) as (E & b & l' & -> & Hb & Hl').
  cbn [load_bytes]. unfold mbind, st_bind. rewrite (load_ubyte m pd va b) by done. rewrite E. by rewrite (IH (va + 1) l') by (done || lia).
Qed.

Lemma valid_from_ok m pd n : forall va, process m pd -> 0 <= va ->
  valid_from n pd va m = Ok (bool_decide ((n <> 0%nat -> va <> 0) /\ is_Some (user_bytes m pd va n)), m).
Proof.
  induction n as [|n IH]; intros va Hp Hv; cbn [valid_from].
  { rewrite bool_decide_eq_true_2; [done|]. split; [done|]. cbn. eauto. }
  unfold mbind, st_bind. rewrite is_valid_ptr_ok by done. case_bool_decide as Ev.
  - destruct Ev as [Hne [b Hb]]. assert (u32 (va + 1) = va + 1) as -> by (destruct (ubyte_user m pd va b Hv Hb) as [Hu _]; unfold user, PHYS_BASE in Hu; apply u32_small; lia).
    rewrite IH by (done || lia). do 2 f_equal. apply bool_decide_ext. cbn [user_bytes]. rewrite Hb. cbn [mbind option_bind].
    destruct (user_bytes m pd (va + 1) n) as [l|]; cbn; (split; intros [H1 [x H2]]; [|]); try done; (split; [done || lia|eauto]).
  - rewrite bool_decide_eq_false_2; [done|]. intros [H1 [l Hl]]. apply Ev. split; [by apply H1|]. destruct (user_bytes_next m pd va n l Hv Hl) as (_ & b & l' & _ & Hb & _). eauto.
Qed.

Lemma user_store_ok pd : forall l m va, process m pd -> Forall is_byte l -> 0 <= va -> (forall i, 0 <= i < Z.of_nat (length l) -> user (va + i) /\ writable m pd (va + i)) ->
  exists m', store_bytes pd va l m = Ok (tt, m') /\ process m' pd /\
    (forall v, user v -> user_byte m' pd v = if (va <=? v) && (v <? va + Z.of_nat (length l)) then l !! Z.to_nat (v - va) else user_byte m pd v) /\
    (forall v, user v -> writable m' pd v <-> writable m pd v).
Proof.
  induction l as [|b l IH]; intros m va Hp Hb Hv Hw.
  { exists m. split_and!; [done|done| |done]. intros v Hu. cbn [length]. destruct (Z.leb_spec va v), (Z.ltb_spec v (va + Z.of_nat 0)); (lia || done). }
  apply Forall_cons_1 in Hb as [Hb Hbs]. cbn [length] in Hw. destruct (Hw 0 ltac:(lia)) as [Hu0 Hw0]. rewrite Z.add_0_r in Hu0, Hw0.
  destruct (store_byte_ok m pd va b Hp Hu0 Hw0 Hb) as (m1 & E1 & Hp1 & Hb1 & Hw1).
  destruct (IH m1 (va + 1) Hp1 Hbs ltac:(lia)) as (m2 & E2 & Hp2 & Hb2 & Hw2).
  { intros i Hi. destruct (Hw (i + 1) ltac:(lia)) as [Hu Hwi]. replace (va + 1 + i) with (va + (i + 1)) by lia. split; [done|]. by apply Hw1. }
  exists m2. split_and!; [|done| |intros v Hu; rewrite Hw2 by done; by apply Hw1].
  - cbn [store_bytes]. unfold mbind, st_bind. rewrite E1. assert (u32 (va + 1) = va + 1) as -> by (unfold user, PHYS_BASE in Hu0; apply u32_small; lia). exact E2.
  - intros v Hu. rewrite Hb2, Hb1 by done. cbn [length]. destruct (Z.eqb_spec v va) as [->|Hne].
    + rewrite (proj2 (Z.leb_gt (va + 1) va)) by lia. cbn [andb]. rewrite (proj2 (Z.leb_le va va)), (proj2 (Z.ltb_lt va _)) by lia. cbn [andb]. by rewrite Z.sub_diag.
    + destruct (Z.leb_spec va v); [rewrite (proj2 (Z.leb_le (va + 1) v)) by lia|rewrite (proj2 (Z.leb_gt (va + 1) v)) by lia; done]. cbn [andb].
      replace (va + 1 + Z.of_nat (length l)) with (va + Z.of_nat (S (length l))) by lia. destruct (v <? _); [|done].
      replace (Z.to_nat (v - va)) with (S (Z.to_nat (v - (va + 1)))) by lia. done.
Qed.

Lemma writable_mapped m pd va : process m pd -> user va -> writable m pd va -> is_Some (ubyte m pd va).
Proof.
  intros Hp Hu Hw. unfold writable in Hw. destruct (mmu (pages m) pd va true) as [a|] eqn:Ea; [|done]. pose proof (mmu_write_read _ _ _ _ Ea) as Er.
  unfold ubyte. destruct (user_index va Hu) as (_ & _ & ->). destruct (user_frame m pd va Hp Hu) as [(_ & _ & X)|(k & l & b & _ & _ & _ & _ & _ & _ & _ & _ & ->)]; [congruence|eauto].
Qed.

Lemma mapped_bytes m pd n : forall va, process m pd -> (forall i, 0 <= i < Z.of_nat n -> user (va + i) /\ writable m pd (va + i)) -> is_Some (user_bytes m pd va n).
Proof.
  induction n as [|n IH]; intros va Hp Hw; [cbn; eauto|]. destruct (Hw 0 ltac:(lia)) as [Hu0 Hw0]. rewrite Z.add_0_r in Hu0, Hw0.
  destruct (writable_mapped m pd va Hp Hu0 Hw0) as [b Hb]. destruct (IH (va + 1) Hp) as [l Hl].
  { intros i Hi. replace (va + 1 + i) with (va + (i + 1)) by lia. apply Hw. lia. }
  cbn [user_bytes]. rewrite Hb. cbn [mbind option_bind]. rewrite Hl. cbn. eauto.
Qed.

(** The first [i] bytes at [p] are in user memory, and none of them is 0. *)
Definition named m pd p (i : Z) : Prop := forall j, 0 <= j < i -> exists b, ubyte m pd (p + j) = Some b /\ b <> 0.

Lemma named_next m pd p i b : named m pd p i -> ubyte m pd (p + i) = Some b -> b <> 0 -> named m pd p (i + 1).
Proof. intros Hn Hb Hne j Hj. destruct (decide (j = i)) as [->|]; [eauto|]. apply Hn. lia. Qed.

(** How is_valid_filename ends. *)
Definition filename_verdict m pd p (r : outcome (Z * machine)) : Prop :=
  match r with
  | Ok (r, m') => m' = m /\
      ((r = -1 /\ exists i, 0 <= i <= 14 /\ named m pd p i /\ ubyte m pd (p + i) = None) \/
       (r = -2 /\ named m pd p 15) \/ (1 <= r <= 14 /\ named m pd p r /\ ubyte m pd (p + r) = Some 0))
  | Err e => e = Fault /\ ubyte m pd p = Some 0
  end.

Lemma filename_loop_ok m pd p fuel : forall len, process m pd -> 0 <= p < 2 ^ 32 -> 0 <= len <= 14 -> (Z.of_nat fuel + len = 16) -> named m pd p len ->
  filename_verdict m pd p (filename_loop fuel pd p len m).
Proof.
  induction fuel as [|fuel IH]; intros len Hp Hr Hlen Hf Hn; [lia|]. cbn [filename_loop].
  assert (u32 (p + len) = p + len) as ->.
  { apply u32_small. split; [lia|]. destruct (decide (len = 0)) as [->|]; [lia|]. destruct (Hn (len - 1) ltac:(lia)) as (b & Hb & _).
    destruct (ubyte_user m pd (p + (len - 1)) b ltac:(lia) Hb) as [Hu _]. unfold user, PHYS_BASE in Hu. lia. }
  unfold mbind, st_bind. rewrite valid_addr_ok by (done || lia). case_bool_decide as Ev; cbn [negb].
  2:{ split; [done|]. left. split; [done|]. exists len. split_and!; [lia|lia|done|]. by apply eq_None_not_Some. }
  destruct Ev as [b Hb]. rewrite (load_ubyte m pd (p + len) b) by (done || lia). unfold MIN_FILENAME_LENGTH, MAX_FILENAME_LENGTH. destruct (Z.eqb_spec b 0) as [->|Hne].
  - destruct (Z.leb_spec 1 len); [|assert (len = 0) as -> by lia; rewrite Z.add_0_r in Hb; cbn; done].
    rewrite (proj2 (Z.leb_le len 14)) by lia. split; [done|]. right. right. split_and!; [lia|lia|done|done].
  - pose proof (named_next m pd p len b Hn Hb Hne) as Hn'. destruct (Z.ltb_spec 14 (len + 1)) as [Hbig|Hsm].
    + split; [done|]. right. left. split; [done|]. by replace 15 with (len + 1) by lia.
    + apply IH; (done || lia).
Qed.

(** The bytes of a name, and what the file system reads of it. *)
Lemma user_string_ok m pd n : forall va fuel l, process m pd -> 0 <= va -> user_bytes m pd va n = Some l -> Forall (fun b => b <> 0) l ->
  ubyte m pd (va + Z.of_nat n) = Some 0 -> (n < fuel)%nat -> user_string fuel pd va m = Ok (l, m).
Proof.
  induction n as [|n IH]; intros va fuel l Hp Hv Hl Hnz H0 Hf; (destruct fuel as [|fuel]; [lia|]); cbn [user_string]; unfold mbind, st_bind.
  - injection Hl as <-. rewrite Z.add_0_r in H0. by rewrite (load_ubyte m pd va 0).
  - destruct (user_bytes_next m pd va n l Hv Hl) as (E & b & l' & -> & Hb & Hl'). apply Forall_cons_1 in Hnz as [Hb0 Hnz]. rewrite (load_ubyte m pd va b) by done.
    rewrite (proj2 (Z.eqb_neq b 0)) by done. rewrite E. rewrite (IH (va + 1) fuel l'); [done|done|lia|done|done| |lia].
    by replace (va + 1 + Z.of_nat n) with (va + Z.of_nat (S n)) by lia.
Qed.

Lemma named_bytes m pd n : forall p, named m pd p (Z.of_nat n) -> exists l, user_bytes m pd p n = Some l /\ Forall (fun b => b <> 0) l.
Proof.
  induction n as [|n IH]; intros p Hn; [by exists []|]. destruct (Hn 0 ltac:(lia)) as (b & Hb & Hb0). rewrite Z.add_0_r in Hb.
  destruct (IH (p + 1)) as (l & Hl & Hnz); [intros j Hj; replace (p + 1 + j) with (p + (j + 1)) by lia; apply Hn; lia|].
  exists (b :: l). cbn [user_bytes]. rewrite Hb. cbn [mbind option_bind]. rewrite Hl. split; [done|]. by apply Forall_cons.
Qed.
End laws.

(** Is_valid_filename, for every pointer a process can pass, on memory
    mapped in any way: -1 exactly when the string runs into an address
    that is not the process's before its end and within 15 bytes, -2 when
    15 bytes hold no null byte, the length of the name when it has between
    1 and 14 bytes, and undefined behaviour for the empty name. *)
Theorem is_valid_filename_cases m pd p : process m pd -> 0 <= p < 2 ^ 32 -> filename_verdict m pd p (is_valid_filename pd p m).
Proof. intros Hp Hr. apply filename_loop_ok; [done|done|lia|lia|]. intros j Hj. lia. Qed.

Lemma is_valid_filename_cases_witness :
  filename_verdict tiny_loaded 0xc0100000 0x08048054 (is_valid_filename 0xc0100000 0x08048054 tiny_loaded) /\
  run_value (is_valid_filename 0xc0100000 0x08048054) tiny_loaded = Ok 6 /\ run_value (is_valid_filename 0xc0100000 0x0804805a) tiny_loaded = Err Fault /\
  run_value (is_valid_filename 0xc0100000 0x07ffffff) tiny_loaded = Ok (-1) /\ run_value (is_valid_filename 0xc0100000 0xc0108000) tiny_loaded = Ok (-1).
Proof. split; [apply is_valid_filename_cases; [apply tiny_loaded_process|split; [discriminate|reflexivity]]|]. vm_compute. split_and!; reflexivity. Defined.
