(* ===== verification/Syscall.v ===== *)
(** * System calls (src/userprog/syscall.c)

    The handler of interrupt 0x30 and the functions it calls, for one
    process: its memory and page directory, its table of open files, the
    file system, the current directory, file_lock, the console and the
    keyboard.  [sc] is the monad of the code that may not return: exit and
    thread_exit leave it with a [stop], and so does a wait for a key.  What
    exit, exec and wait do to the other processes is in Process.v. *)

From S2P Require Import Prelude Memory Wp CString Bitmap Block BufferCache InodeLayout Inode Directory Filesys.
From S2P Require Import Pages PageLaws Loader LoaderLaws UserMem.

(** ** State *)

Inductive stop :=
| Exited (status : Z)
| Died
| PoweredOff
| WaitsForKey.

Section state.
Context {D : Type}.

(** [table] is the file_struct_list of the thread, from front to back, with
    the struct file or struct dir each file_struct points to; [held] says
    whether the thread holds file_lock; [keys] are the keys that will be
    typed. *)
Record sys := Sys {
  memory : machine;
  pagedir : Z;
  table : list (Z * opened);
  disk : fsys D;
  current_dir : option dir;
  held : bool;
  console : list Z;
  keys : list Z
}.

Definition with_memory (m : machine) (s : sys) : sys := Sys m (pagedir s) (table s) (disk s) (current_dir s) (held s) (console s) (keys s).
Definition with_table (t : list (Z * opened)) (s : sys) : sys := Sys (memory s) (pagedir s) t (disk s) (current_dir s) (held s) (console s) (keys s).
Definition with_disk (d : fsys D) (s : sys) : sys := Sys (memory s) (pagedir s) (table s) d (current_dir s) (held s) (console s) (keys s).
Definition with_current_dir (d : option dir) (s : sys) : sys := Sys (memory s) (pagedir s) (table s) (disk s) d (held s) (console s) (keys s).
Definition with_held (b : bool) (s : sys) : sys := Sys (memory s) (pagedir s) (table s) (disk s) (current_dir s) b (console s) (keys s).
Definition with_console (c : list Z) (s : sys) : sys := Sys (memory s) (pagedir s) (table s) (disk s) (current_dir s) (held s) c (keys s).
Definition with_keys (k : list Z) (s : sys) : sys := Sys (memory s) (pagedir s) (table s) (disk s) (current_dir s) (held s) (console s) k.
End state.
Arguments sys D : clear implicits.

Definition sc (D A : Type) : Type := sys D -> outcome ((stop + A) * sys D).

#[global] Instance sc_ret D : MRet (sc D) := fun A a s => Ok (inr a, s).
#[global] Instance sc_bind D : MBind (sc D) := fun A B f m s =>
  match m s with Ok (inr a, s') => f a s' | Ok (inl e, s') => Ok (inl e, s') | Err e => Err e end.

Section primitives.
Context {D : Type}.

Definition stops {A} (e : stop) : sc D A := fun s => Ok (inl e, s).
Definition fails {A} (e : failure) : sc D A := fun _ => Err e.
Definition reads {A} (f : sys D -> A) : sc D A := fun s => Ok (inr (f s), s).
Definition writes (f : sys D -> sys D) : sc D unit := fun s => Ok (inr tt, f s).

(** Code that runs on the memory of the process, or on the file system. *)
Definition on_memory {A} (c : Z -> st machine A) : sc D A := fun s => r ← c (pagedir s) (memory s); Ok (inr r.1, with_memory r.2 s).
Definition on_disk {A} (c : st (fsys D) A) : sc D A := fun s => r ← c (disk s); Ok (inr r.1, with_disk r.2 s).

Definition exit {A} (status : Z) : sc D A := stops (Exited status).

(** lock_acquire and lock_release on file_lock, with their assertions on
    the holder; another process that holds it is waited for. *)
Definition lock_acquire : sc D unit := h ← reads held; if h : bool then fails Panic else writes (with_held true).
Definition lock_release : sc D unit := h ← reads held; if h : bool then writes (with_held false) else fails Panic.
End primitives.

(** ** The table of open files *)

Definition inode_of (o : opened) : Z := match o with OpenFile f => f_inode f | OpenDir d => d_inode d end.

Fixpoint get_file_struct_for_fd (t : list (Z * opened)) (fd : Z) : option opened :=
  match t with [] => None | (n, o) :: t' => if n =? fd then Some o else get_file_struct_for_fd t' fd end.

Definition allocate_fd (t : list (Z * opened)) : Z := match list.last t with None => 2 | Some (n, _) => s32 (n + 1) end.

(** The struct behind the first entry [fd] changes; list_remove of it. *)
Fixpoint set_opened (t : list (Z * opened)) (fd : Z) (o : opened) : list (Z * opened) :=
  match t with [] => [] | (n, o') :: t' => if n =? fd then (n, o) :: t' else (n, o') :: set_opened t' fd o end.
Fixpoint remove_fd (t : list (Z * opened)) (fd : Z) : list (Z * opened) :=
  match t with [] => [] | (n, o) :: t' => if n =? fd then t' else (n, o) :: remove_fd t' fd end.

Section handlers.
Context {D : Type} `{BlockDriver D}.

(** [e0] is the uninitialised struct dir_entry of directory.c, [slack] the
    byte of the heap block behind a struct dir, where the code that takes
    it for a struct file finds deny_write; a string in user memory is read
    to its end, at most [path_fuel] bytes. *)
Context (e0 : list Z) (slack : bool) (path_fuel : nat).

Definition moved (o : opened) (f : file) : opened := match o with OpenFile _ => OpenFile f | OpenDir d => OpenDir (Dir (d_inode d) (f_pos f)) end.
Definition set_file (fd : Z) (o : opened) : sc D unit := t ← reads table; writes (with_table (set_opened t fd o)).
Definition lookup_fd (fd : Z) : sc D (option opened) := t ← reads table; mret (get_file_struct_for_fd t fd).
Definition cwd : sc D (option dir) := reads current_dir.

Definition is_valid_addr (address : Z) : sc D unit :=
  v ← on_memory (fun pd => valid_addr pd address); if v : bool then mret tt else exit (-1).

(** The file name at [p], which has been checked. *)
Definition name_at (p : Z) : sc D (list Z) := on_memory (fun pd => user_string 15 pd p).
Definition path_at (p : Z) : sc D (list Z) := on_memory (fun pd => user_string path_fuel pd p).

Definition k_create (file_name initial_size : Z) : sc D bool :=
  value ← on_memory (fun pd => is_valid_filename pd file_name);
  if value =? -2 then mret false
  else if value <=? 0 then exit (-1)
  else
    lock_acquire ≫= fun _ =>
    name ← name_at file_name; d ← cwd;
    status ← on_disk (filesys_create e0 d name (s32 initial_size) false);
    lock_release ≫= fun _ => mret status.

Definition k_remove (file_name : Z) : sc D bool :=
  value ← on_memory (fun pd => is_valid_filename pd file_name);
  if value <=? 0 then mret false
  else
    lock_acquire ≫= fun _ =>
    name ← name_at file_name; d ← cwd;
    status ← on_disk (filesys_remove e0 d name);
    lock_release ≫= fun _ => mret status.

Definition k_open (file_name : Z) : sc D Z :=
  value ← on_memory (fun pd => is_valid_filename pd file_name);
  if value <=? 0 then mret (-1)
  else
    lock_acquire ≫= fun _ =>
    name ← name_at file_name; d ← cwd;
    o ← on_disk (filesys_open e0 d name);
    match o with
    | None => lock_release ≫= fun _ => mret (-1)
    | Some o =>
        ok ← on_disk malloc;
        if negb ok then fails Fault
        else
          t ← reads table;
          writes (with_table (t ++ [(allocate_fd t, o)])) ≫= fun _ =>
          lock_release ≫= fun _ => mret (allocate_fd t)
    end.

(** [get_file_struct_for_fd (fd)->file] of a null pointer faults. *)
Definition k_filesize (fd : Z) : sc D Z :=
  lock_acquire ≫= fun _ =>
  o ← lookup_fd fd;
  match o with
  | None => fails Fault
  | Some o => n ← on_disk (file_length (as_file slack o)); lock_release ≫= fun _ => mret n
  end.

Definition putbuf (l : list Z) : sc D unit := c ← reads console; writes (with_console (c ++ l)).

Definition user_buffer (buffer size : Z) : sc D (list Z) := on_memory (fun pd => load_bytes (Z.to_nat size) pd buffer).

Definition k_write (fd buffer size : Z) : sc D Z :=
  if fd <=? 0 then mret 0
  else
    ok ← on_memory (fun pd => is_full_valid_ptr pd buffer size);
    if negb ok then exit (-1)
    else
      lock_acquire ≫= fun _ =>
      if fd =? 1 then
        bytes ← user_buffer buffer size;
        putbuf bytes ≫= fun _ => lock_release ≫= fun _ => mret (s32 size)
      else
        o ← lookup_fd fd;
        match o with
        | None => lock_release ≫= fun _ => mret 0
        | Some o =>
            b ← on_disk (inode_is_dir (inode_of o));
            if b : bool then lock_release ≫= fun _ => mret (-1)
            else
              bytes ← user_buffer buffer size;
              r ← on_disk (file_write (as_file slack o) bytes);
              set_file fd (moved o r.2) ≫= fun _ =>
              lock_release ≫= fun _ => mret r.1
        end.

(** [for (int i = 0; i < size; i++) local_buf[i] = input_getc ();] *)
Fixpoint read_keys (n : nat) (buffer : Z) : sc D unit :=
  match n with
  | O => mret tt
  | S n' =>
      k ← reads keys;
      match k with
      | [] => stops WaitsForKey
      | c :: k' =>
          writes (with_keys k') ≫= fun _ =>
          on_memory (fun pd => store_byte pd buffer c) ≫= fun _ => read_keys n' (u32 (buffer + 1))
      end
  end.

(** The bytes file_read copies are stored in the buffer of the process. *)
Definition k_read (fd buffer size : Z) : sc D Z :=
  if (fd =? 1) || (fd <? 0) then exit (-1)
  else
    ok ← on_memory (fun pd => is_full_valid_ptr pd buffer size);
    if negb ok then exit (-1)
    else if fd =? 0 then read_keys (Z.to_nat size) buffer ≫= fun _ => mret (s32 size)
    else
      o ← lookup_fd fd;
      match o with
      | None => mret (-1)
      | Some o =>
          if buffer =? NULL then mret (-1)
          else
            lock_acquire ≫= fun _ =>
            r ← on_disk (file_read (as_file slack o) (s32 size));
            on_memory (fun pd => store_bytes pd buffer r.1) ≫= fun _ =>
            set_file fd (moved o r.2) ≫= fun _ =>
            lock_release ≫= fun _ => mret (Z.of_nat (length r.1))
      end.

Definition k_seek (fd pos : Z) : sc D unit :=
  lock_acquire ≫= fun _ =>
  o ← lookup_fd fd;
  match o with
  | None => fails Fault
  | Some o =>
      match file_seek (as_file slack o) (s32 pos) with
      | Err e => fails e
      | Ok f => set_file fd (moved o f) ≫= fun _ => lock_release
      end
  end.

Definition k_tell (fd : Z) : sc D Z :=
  lock_acquire ≫= fun _ =>
  o ← lookup_fd fd;
  match o with
  | None => lock_release ≫= fun _ => mret (-1)
  | Some o => lock_release ≫= fun _ => mret (file_tell (as_file slack o))
  end.

Definition k_close (fd : Z) : sc D unit :=
  o ← lookup_fd fd;
  match o with
  | None => mret tt
  | Some o =>
      lock_acquire ≫= fun _ =>
      on_disk (file_close (Some (as_file slack o))) ≫= fun _ =>
      t ← reads table;
      writes (with_table (remove_fd t fd)) ≫= fun _ => lock_release
  end.

Definition k_chdir (path : Z) : sc D bool :=
  name ← path_at path; d ← cwd;
  r ← on_disk (filesys_chdir e0 d name);
  writes (with_current_dir r.2) ≫= fun _ => mret r.1.

Definition k_mkdir (path : Z) : sc D bool :=
  lock_acquire ≫= fun _ =>
  name ← path_at path; d ← cwd;
  status ← on_disk (filesys_create e0 d name 0 true);
  lock_release ≫= fun _ => mret status.

(** The name is copied to [path] as it is, wherever that points. *)
Definition k_readdir (fd path : Z) : sc D bool :=
  o ← lookup_fd fd;
  match o with
  | None => mret false
  | Some o =>
      b ← on_disk (inode_is_dir (inode_of o));
      if negb b then mret false
      else
        r ← on_disk (dir_readdir e0 (Dir (inode_of o) (f_pos (as_file slack o))));
        set_file fd (moved o (File (inode_of o) (d_pos r.2) (f_deny (as_file slack o)))) ≫= fun _ =>
        match r.1 with
        | None => mret false
        | Some name => on_memory (fun pd => store_bytes pd path (name ++ [0])) ≫= fun _ => mret true
        end
  end.

Definition k_isdir (fd : Z) : sc D bool :=
  o ← lookup_fd fd;
  match o with None => mret false | Some o => on_disk (inode_is_dir (inode_of o)) end.

Definition k_inumber (fd : Z) : sc D Z :=
  o ← lookup_fd fd;
  match o with None => mret (-1) | Some o => n ← on_disk (inode_get_inumber (inode_of o)); mret (s32 n) end.

(** ** The handler *)

(** How the handler ends: with a value in eax or without, in exec, whose
    argument has been checked, or in process_wait. *)
Inductive action :=
| Eax (v : Z)
| NoValue
| Exec (cmd_line : Z)
| Wait (child_tid : Z).

Definition eax_bool (b : bool) : action := Eax (if b then 1 else 0).
Definition eax_int (v : Z) : action := Eax (u32 v).

Definition arg (esp i : Z) : sc D Z := on_memory (fun pd => load_user_word pd (u32 (esp + 4 * i))).

Definition create_args (esp : Z) : sc D (Z * Z * Z) :=
  fd ← arg esp 1; buffer ← arg esp 2; size ← arg esp 3;
  is_valid_addr buffer ≫= fun _ => is_valid_addr (u32 (buffer + size)) ≫= fun _ => mret (s32 fd, buffer, size).

(** The system call numbers of lib/syscall-nr.h. *)
Definition SYS_HALT : Z := 0.
Definition SYS_EXIT : Z := 1.
Definition SYS_EXEC : Z := 2.
Definition SYS_WAIT : Z := 3.
Definition SYS_CREATE : Z := 4.
Definition SYS_REMOVE : Z := 5.
Definition SYS_OPEN : Z := 6.
Definition SYS_FILESIZE : Z := 7.
Definition SYS_READ : Z := 8.
Definition SYS_WRITE : Z := 9.
Definition SYS_SEEK : Z := 10.
Definition SYS_TELL : Z := 11.
Definition SYS_CLOSE : Z := 12.
Definition SYS_CHDIR : Z := 15.
Definition SYS_MKDIR : Z := 16.
Definition SYS_READDIR : Z := 17.
Definition SYS_ISDIR : Z := 18.
Definition SYS_INUMBER : Z := 19.

Definition syscall_handler (esp : Z) : sc D action :=
  is_valid_addr esp ≫= fun _ =>
  is_valid_addr (u32 (esp + 4)) ≫= fun _ =>
  syscall ← arg esp 0;
  if syscall =? SYS_CHDIR then p ← arg esp 1; b ← k_chdir p; mret (eax_bool b)
  else if syscall =? SYS_MKDIR then p ← arg esp 1; b ← k_mkdir p; mret (eax_bool b)
  else if syscall =? SYS_READDIR then fd ← arg esp 1; p ← arg esp 2; b ← k_readdir (s32 fd) p; mret (eax_bool b)
  else if syscall =? SYS_ISDIR then fd ← arg esp 1; b ← k_isdir (s32 fd); mret (eax_bool b)
  else if syscall =? SYS_INUMBER then fd ← arg esp 1; n ← k_inumber (s32 fd); mret (eax_int n)
  else if syscall =? SYS_EXEC then p ← arg esp 1; is_valid_addr p ≫= fun _ => mret (Exec p)
  else if syscall =? SYS_EXIT then status ← arg esp 1; exit (s32 status)
  else if syscall =? SYS_WAIT then tid ← arg esp 1; mret (Wait (s32 tid))
  else if syscall =? SYS_OPEN then p ← arg esp 1; is_valid_addr p ≫= fun _ => fd ← k_open p; mret (eax_int fd)
  else if syscall =? SYS_READ then a ← create_args esp; n ← k_read a.1.1 a.1.2 a.2; mret (eax_int n)
  else if syscall =? SYS_WRITE then a ← create_args esp; n ← k_write a.1.1 a.1.2 a.2; mret (eax_int n)
  else if syscall =? SYS_CREATE then p ← arg esp 1; size ← arg esp 2; b ← k_create p size; mret (eax_bool b)
  else if syscall =? SYS_SEEK then fd ← arg esp 1; pos ← arg esp 2; k_seek (s32 fd) pos ≫= fun _ => mret NoValue
  else if syscall =? SYS_REMOVE then p ← arg esp 1; b ← k_remove p; mret (eax_bool b)
  else if syscall =? SYS_HALT then stops PoweredOff
  else if syscall =? SYS_TELL then fd ← arg esp 1; n ← k_tell (s32 fd); mret (eax_int n)
  else if syscall =? SYS_CLOSE then fd ← arg esp 1; k_close (s32 fd) ≫= fun _ => mret NoValue
  else if syscall =? SYS_FILESIZE then fd ← arg esp 1; n ← k_filesize (s32 fd); mret (eax_int n)
  else stops Died.
End handlers.
