(* ===== verification/SyscallLaws.v ===== *)
(** * Properties of the system calls (src/userprog/syscall.c)

    Whatever a process asks for, file_lock is free and the file descriptors
    are in order when the handler is left; a process reads back through its
    descriptors what it wrote; and the requests that bring the kernel down. *)

From Stdlib Require Import Sorted.
From S2P Require Import Prelude Memory Wp CString Bitmap Block BufferCache InodeLayout InodeGrow InodeData InodeFree Inode FsLaws FsFiles Directory Filesys.
From S2P Require Import Pages PageLaws Loader LoaderLaws UserMem Syscall.

(** ** File descriptors *)

(** In increasing order from 2 on. *)
Definition fds_ok (t : list (Z * opened)) : Prop := StronglySorted Z.lt t.*1 /\ Forall (Z.le 2) t.*1.
(** No descriptor is the last int. *)
Definition fds_room (t : list (Z * opened)) : Prop := fds_ok t /\ Forall (fun n => n < 2 ^ 31 - 1) t.*1.

Lemma set_opened_fds t fd o : (set_opened t fd o).*1 = t.*1.
Proof. induction t as [|[n o'] t IH]; [done|]. cbn [set_opened]. destruct (n =? fd); [done|]. rewrite !fmap_cons, IH. done. Qed.

Lemma remove_fds_forall P t fd : Forall P t.*1 -> Forall P (remove_fd t fd).*1.
Proof.
  induction t as [|[n o'] t IH]; [done|]. rewrite fmap_cons. intros [Hn Ht]%Forall_cons_1. cbn [remove_fd]. destruct (n =? fd); [done|].
  rewrite fmap_cons. apply Forall_cons; auto.
Qed.
Lemma remove_fds_sorted t fd : StronglySorted Z.lt t.*1 -> StronglySorted Z.lt (remove_fd t fd).*1.
Proof.
  induction t as [|[n o'] t IH]; [done|]. rewrite fmap_cons. intros Hs. inversion Hs as [|? ? Ht Hn E]; subst. cbn [remove_fd]. destruct (n =? fd); [done|].
  rewrite fmap_cons. constructor; [by apply IH|]. by apply remove_fds_forall.
Qed.

Lemma sorted_app_last t x : StronglySorted Z.lt t -> Forall (fun n => n < x) t -> StronglySorted Z.lt (t ++ [x]).
Proof.
  induction t as [|n t IH]; intros Hs Hx; [repeat constructor|]. inversion Hs as [|? ? Ht Hn E]; subst. apply Forall_cons_1 in Hx as [Hnx Hx]. cbn. constructor; [by apply IH|].
  apply Forall_app. split; [done|]. by repeat constructor.
Qed.
Lemma sorted_below_last t x : StronglySorted Z.lt t -> list.last t = Some x -> Forall (fun n => n <= x) t.
Proof.
  induction t as [|n t IH]; [done|]. intros Hs. inversion Hs as [|? ? Ht Hn E]; subst. destruct t as [|n' t].
  - intros [= ->]. repeat constructor. lia.
  - intros Hl. rewrite last_cons_cons in Hl. specialize (IH Ht Hl). constructor; [|done]. apply Forall_cons_1 in IH as [? _]. apply Forall_cons_1 in Hn as [? _]. lia.
Qed.

(** The descriptor k_open hands out. *)
Lemma allocate_fd_ok t : fds_room t -> let fd := allocate_fd t in 2 <= fd /\ Forall (fun n => n < fd) t.*1.
Proof.
  intros [[Hs Hge] Hlt]. unfold allocate_fd. destruct (list.last t) as [[n o]|] eqn:E.
  - assert (list.last t.*1 = Some n) as El by (by rewrite fmap_last, E). pose proof (sorted_below_last _ _ Hs El) as Hb.
    assert (n ∈ t.*1) as Hin by (apply last_Some_elem_of; done). rewrite list.Forall_forall in Hge, Hlt. specialize (Hge n Hin). specialize (Hlt n Hin).
    rewrite s32_small by lia. split; [lia|]. eapply list.Forall_impl; [exact Hb|]. cbn. lia.
  - apply last_None in E as ->. split; [lia|constructor].
Qed.

Lemma open_fds t o : fds_room t -> fds_ok (t ++ [(allocate_fd t, o)]).
Proof.
  intros Hr. destruct (allocate_fd_ok t Hr) as [H2 Hlt]. destruct Hr as [[Hs Hge] _]. split; rewrite fmap_app; cbn.
  - by apply sorted_app_last.
  - apply Forall_app. split; [done|]. by repeat constructor.
Qed.

(** ** The lock and the table through a system call *)

Section keeps.
Context {D : Type}.
Implicit Types (s : sys D) (P Q : list (Z * opened) -> Prop).

(** From a state where file_lock is held or not, as [b] says, and the table
    satisfies [P], [c] returns to one given by [b'] and [Q], or the process
    is stopped with the lock free and its descriptors in order. *)
Definition keeps P (b : bool) {A} (c : sc D A) Q (b' : bool) : Prop := forall s, held s = b -> P (table s) ->
  match c s with Ok (inr _, s') => held s' = b' /\ Q (table s') | Ok (inl _, s') => held s' = false /\ fds_ok (table s') | Err _ => True end.

Lemma keeps_bind P b Q b1 R b2 {A B} (c : sc D A) (f : A -> sc D B) : keeps P b c Q b1 -> (forall a, keeps Q b1 (f a) R b2) -> keeps P b (c ≫= f) R b2.
Proof.
  intros Hc Hf s Hs HP. specialize (Hc s Hs HP). unfold mbind, sc_bind. destruct (c s) as [[[e|a] s']|]; [done| |done]. destruct Hc as [H1 H2]. by apply Hf.
Qed.
Lemma keeps_post P b Q Q' b' {A} (c : sc D A) : keeps P b c Q b' -> (forall t, Q t -> Q' t) -> keeps P b c Q' b'.
Proof. intros Hc HQ s Hs HP. specialize (Hc s Hs HP). destruct (c s) as [[[e|a] s']|]; [done| |done]. destruct Hc. auto. Qed.
Lemma keeps_ret P b {A} (a : A) : keeps P b (mret a) P b.
Proof. by intros s Hs HP. Qed.
Lemma keeps_reads P b {A} (f : sys D -> A) : keeps P b (reads f) P b.
Proof. by intros s Hs HP. Qed.
Lemma keeps_fails P Q b b' {A} e : keeps P b (fails e : sc D A) Q b'.
Proof. by intros s Hs HP. Qed.
Lemma keeps_stops P Q b' {A} e : (forall t, P t -> fds_ok t) -> keeps P false (stops e : sc D A) Q b'.
Proof. intros HPQ s Hs HP. split; [done|]. by apply HPQ. Qed.
Lemma keeps_writes P b f : (forall s, held (f s) = held s) -> (forall s, table (f s) = table s) -> keeps P b (writes f : sc D unit) P b.
Proof. intros H1 H2 s Hs HP. cbn. by rewrite H1, H2. Qed.
Lemma keeps_memory P b {A} (c : Z -> st machine A) : keeps P b (on_memory c : sc D A) P b.
Proof. intros s Hs HP. unfold on_memory. by destruct (c (pagedir s) (memory s)) as [[]|]. Qed.
Lemma keeps_disk P b {A} (c : st (fsys D) A) : keeps P b (on_disk c) P b.
Proof. intros s Hs HP. unfold on_disk. by destruct (c (disk s)) as [[]|]. Qed.
Lemma keeps_acquire P : keeps P false lock_acquire P true.
Proof. intros s Hs HP. unfold lock_acquire, mbind, sc_bind, reads. by rewrite Hs. Qed.
Lemma keeps_release P : keeps P true lock_release P false.
Proof. intros s Hs HP. unfold lock_release, mbind, sc_bind, reads. by rewrite Hs. Qed.

(** A change of the table. *)
Lemma keeps_table P Q R b b' {A} (f : list (Z * opened) -> list (Z * opened)) (k : list (Z * opened) -> sc D A) :
  (forall t, P t -> Q (f t)) -> (forall t, keeps Q b (k t) R b') ->
  keeps P b (t ← reads table; writes (with_table (f t)) ≫= fun _ => k t) R b'.
Proof. intros Hf Hk s Hs HP. unfold mbind, sc_bind, reads, writes. by apply Hk; [|apply Hf]. Qed.
End keeps.

Lemma room_ok t : fds_room t -> fds_ok t.
Proof. by intros [? _]. Qed.
Lemma room_set t fd o : fds_room t -> fds_room (set_opened t fd o).
Proof. unfold fds_room, fds_ok. by rewrite set_opened_fds. Qed.
Lemma room_remove t fd : fds_room t -> fds_room (remove_fd t fd).
Proof. intros [[H1 H2] H3]. split; [split; [by apply remove_fds_sorted|by apply remove_fds_forall]|by apply remove_fds_forall]. Qed.

Create HintDb keeps discriminated.
#[export] Hint Resolve keeps_ret keeps_reads keeps_fails keeps_memory keeps_disk keeps_acquire keeps_release : keeps.
#[export] Hint Extern 1 (keeps _ _ (stops _) _ _) => (apply keeps_stops, room_ok) : keeps.
#[export] Hint Extern 1 (keeps _ _ (exit _) _ _) => (apply keeps_stops, room_ok) : keeps.

(** Steps through a handler: a bind whose head the database knows, and the
    branches. *)
Ltac keeps_step :=
  match goal with
  | |- keeps _ _ (match ?x with _ => _ end) _ _ => destruct x
  | |- keeps _ _ (_ ≫= _) _ _ => eapply keeps_bind; [solve [eauto with keeps]|intros ?]
  | |- keeps _ _ _ _ _ => solve [eauto with keeps]
  end.
Ltac keeps_tac := repeat keeps_step.

Section handler.
Context {D : Type} `{BlockDriver D} (e0 : list Z) (slack : bool) (path_fuel : nat).
Local Abbreviation K c := (keeps (D := D) fds_room false c fds_room false).

Lemma keeps_lookup P b fd : keeps (D := D) P b (lookup_fd fd) P b.
Proof. unfold lookup_fd. keeps_tac. Qed.
Lemma keeps_cwd P b : keeps (D := D) P b cwd P b.
Proof. unfold cwd. keeps_tac. Qed.
Lemma keeps_set_file b fd o : keeps (D := D) fds_room b (set_file fd o) fds_room b.
Proof. intros s Hs HP. cbn. split; [done|]. by apply room_set. Qed.
Lemma keeps_valid_addr a : K (is_valid_addr a).
Proof. unfold is_valid_addr. keeps_tac. Qed.
Lemma keeps_putbuf P b l : keeps (D := D) P b (putbuf l) P b.
Proof. unfold putbuf. eapply keeps_bind; [apply keeps_reads|]. intros c. by apply keeps_writes. Qed.
Lemma keeps_name P b p : keeps (D := D) P b (name_at p) P b.
Proof. unfold name_at. keeps_tac. Qed.
Lemma keeps_path P b p : keeps (D := D) P b (path_at path_fuel p) P b.
Proof. unfold path_at. keeps_tac. Qed.
Lemma keeps_buffer P b p n : keeps (D := D) P b (user_buffer p n) P b.
Proof. unfold user_buffer. keeps_tac. Qed.
Lemma keeps_arg P b esp i : keeps (D := D) P b (arg esp i) P b.
Proof. unfold arg. keeps_tac. Qed.
Hint Resolve keeps_lookup keeps_cwd keeps_set_file keeps_valid_addr keeps_putbuf keeps_name keeps_path keeps_buffer keeps_arg : keeps.

Lemma keeps_create p n : K (k_create e0 p n).
Proof. unfold k_create. keeps_tac. Qed.
Lemma keeps_remove p : K (k_remove e0 p).
Proof. unfold k_remove. keeps_tac. Qed.
Lemma keeps_filesize fd : K (k_filesize slack fd).
Proof. unfold k_filesize. keeps_tac. Qed.
Lemma keeps_write fd p n : K (k_write slack fd p n).
Proof. unfold k_write. keeps_tac. Qed.
Lemma keeps_keys n : forall p, K (read_keys n p).
Proof.
  induction n as [|n IH]; intros p; cbn [read_keys]; [keeps_tac|]. eapply keeps_bind; [apply keeps_reads|]. intros [|c k]; [keeps_tac|].
  eapply keeps_bind; [by apply keeps_writes|]. intros []. eapply keeps_bind; [apply keeps_memory|]. intros []. apply IH.
Qed.
Hint Resolve keeps_keys : keeps.
Lemma keeps_read fd p n : K (k_read slack fd p n).
Proof. unfold k_read. keeps_tac. Qed.
Lemma keeps_seek fd p : K (k_seek slack fd p).
Proof. unfold k_seek. keeps_tac. Qed.
Lemma keeps_tell fd : K (k_tell slack fd).
Proof. unfold k_tell. keeps_tac. Qed.
Lemma keeps_close fd : K (k_close slack fd).
Proof.
  unfold k_close. eapply keeps_bind; [apply keeps_lookup|]. intros [o|]; [|keeps_tac]. do 2 (eapply keeps_bind; [solve [eauto with keeps]|intros ?]).
  apply (keeps_table _ fds_room _ _ _ (fun t => remove_fd t fd) (fun _ => lock_release)); [intros t; apply room_remove|]. intros t. apply keeps_release.
Qed.
Lemma keeps_chdir p : K (k_chdir e0 path_fuel p).
Proof. unfold k_chdir. keeps_tac. eapply keeps_bind; [by apply keeps_writes|]. intros []. keeps_tac. Qed.
Lemma keeps_mkdir p : K (k_mkdir e0 path_fuel p).
Proof. unfold k_mkdir. keeps_tac. Qed.
Lemma keeps_readdir fd p : K (k_readdir e0 slack fd p).
Proof. unfold k_readdir. keeps_tac. Qed.
Lemma keeps_isdir fd : K (k_isdir fd).
Proof. unfold k_isdir. keeps_tac. Qed.
Lemma keeps_inumber fd : K (k_inumber fd).
Proof. unfold k_inumber. keeps_tac. Qed.
Lemma keeps_args esp : K (create_args esp).
Proof. unfold create_args. keeps_tac. Qed.
Hint Resolve keeps_create keeps_remove keeps_filesize keeps_write keeps_read keeps_seek keeps_tell keeps_close keeps_chdir keeps_mkdir keeps_readdir keeps_isdir keeps_inumber keeps_args : keeps.

Lemma keeps_open p : keeps (D := D) fds_room false (k_open e0 p) fds_ok false.
Proof.
  assert (forall b {A} (c : sc D A), keeps fds_room b c fds_room false -> keeps fds_room b c fds_ok false) as W by (intros; eapply keeps_post; [done|apply room_ok]).
  unfold k_open. eapply keeps_bind; [apply keeps_memory|]. intros v. destruct (v <=? 0); [apply W; keeps_tac|].
  do 4 (eapply keeps_bind; [solve [eauto with keeps]|intros ?]). match goal with |- keeps _ _ (match ?x with _ => _ end) _ _ => destruct x as [o|] end; [|apply W; keeps_tac].
  eapply keeps_bind; [apply keeps_disk|]. intros ok. destruct (negb ok); [apply W; keeps_tac|].
  apply (keeps_table _ fds_ok _ _ _ (fun t => t ++ [(allocate_fd t, o)]) (fun t => lock_release ≫= fun _ => mret (allocate_fd t))); [intros t; apply open_fds|].
  intros t. eapply keeps_bind; [apply keeps_release|]. intros []. apply keeps_ret.
Qed.

Lemma handler_keeps esp : keeps (D := D) fds_room false (syscall_handler e0 slack path_fuel esp) fds_ok false.
Proof.
  assert (forall b {A} (c : sc D A), keeps fds_room b c fds_room false -> keeps fds_room b c fds_ok false) as W by (intros; eapply keeps_post; [done|apply room_ok]).
  unfold syscall_handler. do 3 (eapply keeps_bind; [solve [eauto with keeps]|intros ?]).
  repeat match goal with |- keeps _ _ (if ?x then _ else _) _ _ => destruct x; [try solve [apply W; keeps_tac]|] end; [|apply W; keeps_tac].
  do 2 (eapply keeps_bind; [solve [eauto with keeps]|intros ?]). eapply keeps_bind; [apply keeps_open|]. intros fd. apply keeps_ret.
Qed.
End handler.

(** ** System calls that return *)

Section wps.
Context {D : Type}.
Implicit Types (s : sys D).

(** [c] returns from [s], with a value and a state that satisfy [Q]. *)
Definition wps {A} (c : sc D A) (Q : A -> sys D -> Prop) s : Prop := match c s with Ok (inr a, s') => Q a s' | _ => False end.

Lemma wps_bind {A B} (c : sc D A) (f : A -> sc D B) Q s : wps c (fun a => wps (f a) Q) s -> wps (c ≫= f) Q s.
Proof. unfold wps, mbind, sc_bind. by destruct (c s) as [[[]]|]. Qed.
Lemma wps_mono {A} (c : sc D A) (P Q : A -> sys D -> Prop) s : wps c P s -> (forall a s', P a s' -> Q a s') -> wps c Q s.
Proof. unfold wps. destruct (c s) as [[[] ]|]; auto. Qed.
Lemma wps_memory {A} (c : Z -> st machine A) a m Q s : c (pagedir s) (memory s) = Ok (a, m) -> Q a (with_memory m s) -> wps (on_memory c) Q s.
Proof. intros E HQ. unfold wps, on_memory. by rewrite E. Qed.
Lemma wps_memory_read {A} (c : Z -> st machine A) a Q s : c (pagedir s) (memory s) = Ok (a, memory s) -> Q a s -> wps (on_memory c) Q s.
Proof. intros E HQ. eapply wps_memory; [exact E|]. by destruct s. Qed.
Lemma wps_disk {A} (c : st (fsys D) A) a d Q s : c (disk s) = Ok (a, d) -> Q a (with_disk d s) -> wps (on_disk c) Q s.
Proof. intros E HQ. unfold wps, on_disk. by rewrite E. Qed.
Lemma wps_acquire Q s : held s = false -> Q tt (with_held true s) -> wps lock_acquire Q s.
Proof. intros E HQ. unfold wps, lock_acquire, mbind, sc_bind, reads, writes. by rewrite E. Qed.
Lemma wps_release Q s : held s = true -> Q tt (with_held false s) -> wps lock_release Q s.
Proof. intros E HQ. unfold wps, lock_release, mbind, sc_bind, reads, writes. by rewrite E. Qed.
Lemma wps_lookup fd o Q s : get_file_struct_for_fd (table s) fd = o -> Q o s -> wps (lookup_fd fd) Q s.
Proof. intros <- HQ. exact HQ. Qed.
Lemma wps_set_file fd o Q s : Q tt (with_table (set_opened (table s) fd o) s) -> wps (set_file fd o) Q s.
Proof. done. Qed.
Lemma wps_Ok {A} (c : sc D A) Q s : wps c Q s -> exists a s', c s = Ok (inr a, s') /\ Q a s'.
Proof. unfold wps. destruct (c s) as [[[|a] s']|]; [done|eauto|done]. Qed.
End wps.

Lemma get_set_opened t fd o o' : get_file_struct_for_fd t fd = Some o' -> get_file_struct_for_fd (set_opened t fd o) fd = Some o.
Proof.
  induction t as [|[n o1] t IH]; [done|]. cbn. destruct (Z.eqb_spec n fd) as [->|Hne]; cbn; [by rewrite Z.eqb_refl|]. by rewrite (proj2 (Z.eqb_neq n fd)).
Qed.

Section files.
Context {D : Type} `{BlockDriverLaws D} (slack : bool).
Implicit Types (s : sys D).

(** A process with the file [c] open as [fd], at position [p]; [n] bounds
    the sectors that can still be read or written. *)
Record has_file (N : Z) (n : nat) s (fd h p : Z) (i : inode) (c : list Z) : Prop := {
  hf_memory : process (memory s) (pagedir s);
  hf_lock : held s = false;
  hf_fd : 2 <= fd;
  hf_open : exists deny, get_file_struct_for_fd (table s) fd = Some (OpenFile (File h p deny));
  hf_inv : fs_inv N n (disk s);
  hf_file : open_file (disk s) h i c
}.

Lemma buffer_valid (m : machine) pd buf (l : list Z) : process m pd -> 0 <= buf -> (l <> [] -> buf <> 0) -> user_bytes m pd buf (length l) = Some l ->
  is_full_valid_ptr pd buf (Z.of_nat (length l)) m = Ok (true, m) /\ load_bytes (Z.to_nat (Z.of_nat (length l))) pd buf m = Ok (l, m).
Proof.
  intros Hp Hb Hne Hl. unfold is_full_valid_ptr. rewrite Nat2Z.id, valid_from_ok by done. rewrite bool_decide_eq_true_2 by (split; [intros ?; apply Hne; by destruct l|eauto]).
  split; [done|]. by apply load_bytes_ok.
Qed.

(** write: the bytes of the buffer go to the file at its position. *)
Lemma k_write_ok N n s fd h p i c buf l :
  let m := sectors_for (fsize c) in let m' := sectors_for (Z.max (fsize c) (p + fsize l)) in
  has_file N (needed m m' * map_cost N + (length l + n)) s fd h p i c -> is_dir (i_data i) = false ->
  0 <= buf -> (l <> [] -> buf <> 0) -> user_bytes (memory s) (pagedir s) buf (length l) = Some l ->
  junk_ok (Inode.stack (disk s)) -> i_deny i = 0 -> i_locked i = false -> 0 <= p -> p + fsize l <= 512 * MAX_SECTORS -> grow_safe m m' ->
  (needed m m' <= free_cnt (disk s))%nat -> fresh_cold (disk s) ->
  wps (k_write slack fd buf (fsize l)) (fun r s' => r = fsize l /\ memory s' = memory s /\ pagedir s' = pagedir s /\ console s' = console s /\
    exists i', has_file N n s' fd h (p + fsize l) i' (write_result c p l)) s.
Proof.
  intros m m' [Hp Hlk Hfd (deny & Hget) Hinv Hof] Hk Hb Hne Hl Hj Hd Hlo Hp0 Hmax Hsafe Hfree Hcold. destruct (buffer_valid _ _ buf l Hp Hb Hne Hl) as [Hv Hld].
  unfold k_write. rewrite (proj2 (Z.leb_gt fd 0)) by lia. apply wps_bind. eapply wps_memory_read; [exact Hv|]. cbn [negb].
  apply wps_bind, wps_acquire; [done|]. rewrite (proj2 (Z.eqb_neq fd 1)) by lia. apply wps_bind. eapply wps_lookup; [exact Hget|].
  destruct (inode_write_at_ok N n (disk s) h i c p l) as (σ & i' & Hw & Hinv' & Hof' & Hh & _); [done|done|done|by right|by eapply user_bytes_bytes|done|done|done|done|done|done|].
  apply wps_bind. eapply wps_disk; [unfold inode_is_dir, get_inode, mbind, st_bind; cbn; rewrite (of_find _ _ _ _ Hof); by rewrite Hk|].
  apply wps_bind. eapply wps_memory_read; [exact Hld|]. apply wps_bind. eapply wps_disk; [unfold file_write, mbind, st_bind; cbn [disk with_disk with_held as_file f_inode f_pos]; by rewrite Hw|].
  apply wps_bind, wps_set_file, wps_bind, wps_release; [done|]. unfold wps, mret, sc_ret. cbn [fst snd moved].
  assert (s32 (p + fsize l) = p + fsize l) as -> by (unfold MAX_SECTORS, fsize in *; apply s32_small; lia).
  split_and!; [done..|]. exists i'. split; [done|done|done| |done|exact Hof']. exists deny. by eapply get_set_opened.
Qed.

Lemma k_seek_ok N n s fd h p i c q : has_file N n s fd h p i c -> 0 <= q < 2 ^ 31 ->
  wps (k_seek slack fd q) (fun _ s' => memory s' = memory s /\ pagedir s' = pagedir s /\ console s' = console s /\ has_file N n s' fd h q i c) s.
Proof.
  intros [Hp Hlk Hfd (deny & Hget) Hinv Hof] Hq. unfold k_seek. apply wps_bind, wps_acquire; [done|]. apply wps_bind. eapply wps_lookup; [exact Hget|].
  rewrite s32_small by lia. unfold file_seek. rewrite kassert_true by lia. cbn [mbind outcome_bind].
  apply wps_bind, wps_set_file, wps_release; [done|]. split_and!; [done..|]. split; [done|done|done| |done|done]. exists deny. by eapply get_set_opened.
Qed.

(** read: the bytes of the file from its position on go to the buffer. *)
Lemma k_read_ok N n s fd h p i c buf size : has_file N (Z.to_nat size + n) s fd h p i c ->
  0 <= buf -> buf <> 0 -> 0 <= size -> 0 <= p -> p + size < 2 ^ 31 -> (forall k, 0 <= k < size -> user (buf + k) /\ writable (memory s) (pagedir s) (buf + k)) ->
  let l := window c (Z.to_nat p) (Z.to_nat size) in
  wps (k_read slack fd buf size) (fun r s' => r = fsize l /\ pagedir s' = pagedir s /\ console s' = console s /\ has_file N n s' fd h (p + fsize l) i c /\
    forall v, user v -> user_byte (memory s') (pagedir s) v = if (buf <=? v) && (v <? buf + fsize l) then l !! Z.to_nat (v - buf) else user_byte (memory s) (pagedir s) v) s.
Proof.
  intros [Hp Hlk Hfd (deny & Hget) Hinv Hof] Hb Hb0 Hs Hp0 Hend Hw l.
  assert (length l <= Z.to_nat size)%nat as Hlen by (unfold l, window; rewrite length_take; lia).
  unfold k_read. rewrite (proj2 (Z.eqb_neq fd 1)), (proj2 (Z.ltb_ge fd 0)) by lia. cbn [orb].
  assert (is_full_valid_ptr (pagedir s) buf size (memory s) = Ok (true, memory s)) as Hv.
  { unfold is_full_valid_ptr. rewrite valid_from_ok by done. do 2 f_equal. apply bool_decide_eq_true_2. split; [done|]. apply mapped_bytes; [done|]. rewrite Z2Nat.id by done. exact Hw. }
  apply wps_bind. eapply wps_memory_read; [exact Hv|]. cbn [negb]. rewrite (proj2 (Z.eqb_neq fd 0)) by lia. apply wps_bind. eapply wps_lookup; [exact Hget|].
  unfold NULL. rewrite (proj2 (Z.eqb_neq buf 0)) by done. apply wps_bind, wps_acquire; [done|]. rewrite s32_small by lia.
  destruct (inode_read_at_ok N n (disk s) h i c size p) as (σ & Hr & Hinv' & _ & Hof' & _); [done|done|lia|lia|lia|]. fold l in Hr.
  apply wps_bind. eapply wps_disk; [unfold file_read, mbind, st_bind; cbn [disk with_held as_file f_inode f_pos]; by rewrite Hr|]. cbn [fst snd].
  destruct (user_store_ok (pagedir s) l (memory s) buf Hp) as (m' & Est & Hp' & Hbytes & Hwr); [apply Forall_take, Forall_drop, (fr_bytes _ _ _ (of_rep _ _ _ _ Hof))|done|intros k Hk; apply Hw; lia|].
  apply wps_bind. eapply wps_memory; [exact Est|]. apply wps_bind, wps_set_file, wps_bind, wps_release; [done|]. unfold wps, mret, sc_ret.
  split_and!; [done|done|done| |exact Hbytes]. split; [done|done|done| |done|exact Hof']. exists deny. cbn [moved].
  assert (s32 (p + Z.of_nat (length l)) = p + fsize l) as <- by (unfold fsize; apply s32_small; lia). by eapply get_set_opened.
Qed.
End files.

(** ** Theorems *)

(** C4: a system call leaves the process's file state in order, whatever
    its arguments: from a state where the process does not hold file_lock
    and its descriptors increase from 2 on without having reached the last
    int, syscall_handler returns, or stops the process, with file_lock
    released and the descriptors increasing from 2 on. *)
Theorem syscall_keeps_lock_and_fds {D} `{BlockDriver D} e0 slack path_fuel esp (s : sys D) r s' :
  held s = false -> fds_room (table s) -> syscall_handler e0 slack path_fuel esp s = Ok (r, s') -> held s' = false /\ fds_ok (table s').
Proof.
  intros Hs Ht E. pose proof (handler_keeps e0 slack path_fuel esp s Hs Ht) as Hk. rewrite E in Hk. by destruct r.
Qed.


(** Write to the console, for every pointer and size: the process exits
    with -1 if a byte of the buffer is not in its memory, and otherwise
    exactly the bytes of the buffer are appended to the console. *)
Theorem console_write_exact {D} `{BlockDriver D} slack (s : sys D) buf size :
  process (memory s) (pagedir s) -> held s = false -> 0 <= buf < 2 ^ 32 -> 0 <= size < 2 ^ 31 ->
  k_write slack 1 buf size s =
    match user_bytes (memory s) (pagedir s) buf (Z.to_nat size) with
    | Some l => if (buf =? 0) && (0 <? size) then Ok (inl (Exited (-1)), s) else Ok (inr size, with_console (console s ++ l) s)
    | None => Ok (inl (Exited (-1)), s)
    end.
Proof.
  intros Hp Hlk Hb Hs. pose proof (valid_from_ok (memory s) (pagedir s) (Z.to_nat size) buf Hp ltac:(lia)) as Hv.
  destruct (bool_decide _) eqn:Ev in Hv; [apply bool_decide_eq_true in Ev as [Hne [l Hl]]|apply bool_decide_eq_false in Ev].
  - rewrite Hl. assert ((buf =? 0) && (0 <? size) = false) as ->.
    { destruct (Z.eqb_spec buf 0); [|done]. destruct (Z.ltb_spec 0 size); [|done]. exfalso. apply Hne; lia. }
    destruct (wps_Ok (k_write slack 1 buf size) (fun r s' => r = size /\ s' = with_console (console s ++ l) s) s) as (r & s' & E & -> & ->); [|exact E].
    unfold k_write. cbn [Z.leb Z.compare]. apply wps_bind. eapply wps_memory_read; [exact Hv|]. cbn [negb]. apply wps_bind, wps_acquire; [done|]. cbn [Z.eqb Pos.eqb].
    apply wps_bind. eapply wps_memory_read; [apply load_bytes_ok; [done|lia|exact Hl]|]. apply wps_bind. unfold wps at 1, putbuf, mbind, sc_bind, reads, writes.
    eapply wps_bind, wps_release; [done|]. unfold wps, mret, sc_ret. rewrite s32_small by lia. split; [done|]. destruct s; cbn in *. by rewrite Hlk.
  - assert (k_write slack 1 buf size s = Ok (inl (Exited (-1)), s)) as ->.
    { unfold k_write. cbn [Z.leb Z.compare]. unfold mbind at 1, sc_bind at 1, on_memory at 1. unfold is_full_valid_ptr. rewrite Hv. cbn. by destruct s. }
    destruct (user_bytes (memory s) (pagedir s) buf (Z.to_nat size)) as [l|]; [|done]. destruct (Z.eqb_spec buf 0) as [->|Hn], (Z.ltb_spec 0 size); cbn [andb]; [done|..]; exfalso; apply Ev; (split; [lia|eauto]).
Qed.

Lemma load_unmapped m pd va : process m pd -> user va -> ubyte m pd va = None -> load_byte pd va m = Err Fault.
Proof. intros Hp Hu Hn. unfold ubyte in Hn. destruct (user_index va Hu) as (_ & _ & E). rewrite E in Hn. by rewrite load_byte_ok, Hn. Qed.

(** C38: requests of a process that bring the kernel down.  filesize and seek
    of a descriptor that is not open read through a null pointer; seek of
    an open one to a position past the largest int fails the assertion of
    file_seek; chdir and mkdir of a path in memory that is not mapped, and
    read into a buffer that is mapped read-only, as the code of a program
    is, make the kernel fault. *)
Theorem process_brings_kernel_down {D} `{BlockDriverLaws D} e0 slack fuel (s : sys D) fd :
  process (memory s) (pagedir s) -> held s = false ->
  (get_file_struct_for_fd (table s) fd = None -> k_filesize slack fd s = Err Fault /\ forall pos, k_seek slack fd pos s = Err Fault) /\
  (forall o pos, get_file_struct_for_fd (table s) fd = Some o -> 2 ^ 31 <= pos < 2 ^ 32 -> k_seek slack fd pos s = Err Panic) /\
  (forall path, user path -> ubyte (memory s) (pagedir s) path = None -> k_chdir e0 (S fuel) path s = Err Fault /\ k_mkdir e0 (S fuel) path s = Err Fault) /\
  (forall N n h p i c buf, has_file N (1 + n) s fd h p i c -> 0 <= p < fsize c -> 0 < buf -> user buf -> is_Some (ubyte (memory s) (pagedir s) buf) ->
     ~ writable (memory s) (pagedir s) buf -> k_read slack fd buf 1 s = Err Fault).
Proof.
  intros Hp Hlk. assert (lock_acquire s = Ok (inr tt, with_held true s)) as Hacq by (unfold lock_acquire, reads, mbind, sc_bind; by rewrite Hlk).
  assert (forall {A} (k : unit -> sc D A), (lock_acquire ≫= k) s = k tt (with_held true s)) as Hbind by (intros A k; unfold mbind at 1, sc_bind at 1; by rewrite Hacq).
  assert (forall {A} (k : option opened -> sc D A) s', table s' = table s -> (lookup_fd fd ≫= k) s' = k (get_file_struct_for_fd (table s) fd) s') as Hlook by (intros A k s' E; rewrite <- E; done).
  split_and!.
  - intros Hn. split; [|intros pos]; [unfold k_filesize|unfold k_seek]; rewrite Hbind, Hlook, Hn by done; done.
  - intros o pos Ho Hpos. unfold k_seek. rewrite Hbind, Hlook, Ho by done. unfold file_seek.
    assert ((0 <=? s32 pos) = false) as ->; [|done]. unfold s32. rewrite Z.mod_small by lia. rewrite (proj2 (Z.ltb_ge pos (2 ^ 31))) by lia. apply Z.leb_gt. lia.
  - intros path Hu Hn. pose proof (load_unmapped _ _ _ Hp Hu Hn) as Hld. unfold k_chdir, k_mkdir. unfold path_at.
    assert (forall s' {A} (k : list Z -> sc D A), memory s' = memory s -> pagedir s' = pagedir s -> (on_memory (fun pd => user_string (S fuel) pd path) ≫= k) s' = Err Fault) as Hpath.
    { intros s' A k E1 E2. unfold mbind, sc_bind, on_memory. rewrite E1, E2. cbn [user_string]. unfold mbind, st_bind. by rewrite Hld. }
    split; [by apply Hpath|]. rewrite Hbind. by apply Hpath.
  - intros N n h p i c buf [_ _ Hfd (deny & Hget) Hinv Hof] Hpc Hb Hu Hmap Hw. unfold k_read. rewrite (proj2 (Z.eqb_neq fd 1)), (proj2 (Z.ltb_ge fd 0)) by lia. cbn [orb].
    assert (is_full_valid_ptr (pagedir s) buf 1 (memory s) = Ok (true, memory s)) as Hv.
    { unfold is_full_valid_ptr. rewrite valid_from_ok by (done || lia). do 2 f_equal. apply bool_decide_eq_true_2. split; [lia|]. destruct Hmap as [b Eb]. change (Z.to_nat 1) with 1%nat. cbn [user_bytes]. rewrite Eb. cbn. eauto. }
    unfold mbind at 1, sc_bind at 1, on_memory at 1. rewrite Hv. cbn [mbind outcome_bind fst snd negb]. assert (with_memory (memory s) s = s) as -> by (by destruct s).
    rewrite (proj2 (Z.eqb_neq fd 0)) by lia. rewrite Hlook, Hget by done. unfold NULL. rewrite (proj2 (Z.eqb_neq buf 0)) by lia. rewrite Hbind.
    destruct (inode_read_at_ok N n (disk s) h i c 1 p) as (σ & Hr & _); [done|done|lia|lia|pose proof (fr_max _ _ _ (of_rep _ _ _ _ Hof)); unfold MAX_SECTORS in *; lia|].
    assert (exists b l, window c (Z.to_nat p) (Z.to_nat 1) = b :: l) as (b & l & El).
    { unfold window. destruct (drop (Z.to_nat p) c) as [|b l] eqn:Ed; [|cbn; eauto]. apply (f_equal length) in Ed. rewrite length_drop in Ed. unfold fsize in Hpc. cbn in Ed. lia. }
    unfold mbind at 1, sc_bind at 1, on_disk. unfold file_read, mbind, st_bind. cbn [disk with_held as_file f_inode f_pos]. change (s32 1) with 1. rewrite Hr, El. cbn [fst snd].
    unfold mbind, sc_bind, outcome_bind, on_memory. cbn -[store_bytes]. cbn [store_bytes]. unfold mbind, st_bind, store_byte.
    destruct (mmu (pages (memory s)) (pagedir s) buf true) eqn:Em; [|done]. exfalso. apply Hw. unfold writable. congruence.
Qed.

(** ** A process

    The program of LoaderLaws.v, loaded, with the file of FsFiles.v open as
    descriptor 2. *)

Definition shell (m : machine) : sys ramdisk := Sys m 0xc0100000 [(2, OpenFile (File 101 0 false))] small_fs None false [] [].
Definition hello : list Z := [72; 101; 108; 108; 111; 33].
(** With the words [l] on the stack. *)
Definition stacked (l : list Z) : machine := match store_bytes 0xc0100000 0xbffff000 (words_to_bytes l) tiny_loaded with Ok (_, m) => m | Err _ => tiny_loaded end.

Lemma syscall_keeps_lock_and_fds_witness : exists s',
  syscall_handler [] false 16 0xbffff000 (shell (stacked [SYS_CLOSE; 2])) = Ok (inr NoValue, s') /\ held s' = false /\ fds_ok (table s').
Proof.
  destruct (syscall_handler [] false 16 0xbffff000 (shell (stacked [SYS_CLOSE; 2]))) as [[r s']|] eqn:E; [|vm_compute in E; discriminate].
  exists s'. assert (r = inr NoValue) as -> by (apply (f_equal (fun x => match x with Ok p => p.1 | Err _ => inl Died end)) in E; vm_compute in E; congruence). split; [reflexivity|].
  apply (syscall_keeps_lock_and_fds [] false 16 0xbffff000 (shell (stacked [SYS_CLOSE; 2])) (inr NoValue) s'); [reflexivity| |exact E].
  split; [split|]; repeat constructor; vm_compute; congruence.
Defined.

Lemma shell_file n : (n <= 100)%nat -> has_file 16 n (shell tiny_loaded) 2 101 0 (Inode 3 1 false 0 false (small_inode 4 2)) [7; 8].
Proof. intros Hn. split; [apply tiny_loaded_process|reflexivity|lia|by eexists|apply small_inv; lia|apply small_open]. Qed.


Lemma console_write_exact_witness : exists l, user_bytes tiny_loaded 0xc0100000 0x08048054 6 = Some l /\
  k_write false 1 0x08048054 6 (shell tiny_loaded) = Ok (inr 6, with_console l (shell tiny_loaded)) /\
  k_write false 1 0x07ffffff 6 (shell tiny_loaded) = Ok (inl (Exited (-1)), shell tiny_loaded).
Proof.
  exists hello. split; [vm_compute; reflexivity|].
  split; (rewrite console_write_exact; [vm_compute; reflexivity|apply tiny_loaded_process|reflexivity|split; [discriminate|reflexivity]|split; [discriminate|reflexivity]]).
Defined.

Lemma process_brings_kernel_down_witness : k_filesize false 7 (shell tiny_loaded) = Err Fault /\ k_chdir [] 16 0x07000000 (shell tiny_loaded) = Err Fault.
Proof.
  destruct (process_brings_kernel_down [] false 15 (shell tiny_loaded) 7 tiny_loaded_process eq_refl) as (H1 & _ & H3 & _).
  split; [apply (H1 eq_refl)|]. apply (H3 0x07000000 ltac:(split; [discriminate|reflexivity])). vm_compute. reflexivity.
Defined.

(** The name "/" at 0xbffff000 and "/f" at 0xbffff004. *)
Definition root_shell : sys ramdisk := Sys (stacked [0x2f; 0x662f]) 0xc0100000 [] (blank 64) None false [] [].
Definition close_one_root (slack : bool) : sc ramdisk (Z * Z * bool) :=
  on_disk (boot true) ≫= fun _ =>
  a ← k_open entry0 0xbffff000; b ← k_open entry0 0xbffff000;
  k_close slack a ≫= fun _ => c ← k_create entry0 0xbffff004 0; mret (a, b, c).

(** Closing a directory that is open elsewhere too: with a zero byte behind
    the struct dir nothing happens; with another one file_close takes the
    write denial of the inode below zero, and no file can be created in the
    directory any more. *)
Example close_directory_denies_writes :
  run_value (close_one_root false) root_shell = Ok (inr (2, 3, true)) /\ run_value (close_one_root true) root_shell = Ok (inr (2, 3, false)).
Proof. vm_compute. split; reflexivity. Qed.
